(* ===== verification/_CoqProject ===== *)
-Q . S2P
Prelude.v
Floats.v
GoStd.v
Text.v
Files.v
Runes.v
Prci.v
Team.v
Strategy.v
Disclosure.v
State.v
Session.v
Schema.v
Storage.v
Withdrawal.v
Resources.v
Attempts.v
Leases.v
Lifecycle.v
Recovery.v
Evidence.v
Reviews.v
Publication.v
Encodings.v
Scheduling.v
Preflight.v
PreflightLaws.v
Budgets.v
BudgetLaws.v
Checkpoints.v
CheckpointLaws.v
Routing.v
Swarms.v
Intents.v
SwarmLaws.v
IntentLaws.v
Acceptance.v
Integration.v
External.v
Mdstore.v
Durable.v
Ulid.v
RateLimit.v
Tenant.v
Topo.v
CriticalPath.v
Changes.v
LoopChanges.v
Safety.v
Scenario.v
StorageRun.v
AcceptanceRun.v
LoopRun.v
DeliveryRun.v
