(* ===== verification/Prelude.v ===== *)
(** * The dacli governance authority and its kernels

    dacli coordinates coding agents on one machine.  Its governance authority
    ([src/internal/governance/sessions], Go) is a single JSON file owned by a
    local owner; workers, runners, reviewers and bridges hold scoped bearer
    credentials and act on it through operations that each run as one
    transaction: lock, read, check, compute a new state, replace the file.
    This library models that authority, the publication policy and role routing
    kernels it consults, the diagnosis of pull requests, and the kernels around it that hold no authority: the
    file format of the workspace and its durable writes, identifiers, the task
    graph, the rate limiter and the tenant authorization of the cloud control
    plane.

    The complete loop of the authority is the composition of its parts.  The
    owner configures a swarm policy, a preflight policy, a budget, checkpoint
    bounds and, optionally, model routing.  A controller plans a wave (every task
    passes its preflight and its budget quote, or a routing decision that contains
    both), reconciles a checkpoint, and reserves the wave, which consumes the gate
    of the checkpoint and allocates the budget.  Each reservation is requested from
    a host once, correlated by a bridge, and acknowledged by the worker, which turns
    the reservation into a fenced lease.  The worker publishes revisions, a runner
    verifies them, a reviewer reviews them, the owner accepts the task; budget
    phases are settled from the outcomes these producers left.  The accepted commit
    is integrated into the local target reference under an integration policy, and
    pushed, opened as a pull request and observed until it has landed under an
    external policy; the next checkpoint asks for that landing.

    ** How the model corresponds to the code

    Every operation [func (a *Authority) Op(...)] is the closure it hands to
    [a.transaction]: a function from the loaded [state] to [res (A * state)],
    with the guards of the code in their order and the error each returns.
    [Err] commits nothing.  A method that only reads is a function to [res A].
    What the code asks of its surroundings is the [Env] argument: the clock
    ([now e i] is the i-th reading an operation makes; some operations leave
    a wide gap before a late one), the random identifiers it mints, the git
    observations of checkouts, symbolic links, and the adapters a deployment
    installs.  The file is [disk], what a reader finds of it ([Schema]), or bytes in
    a directory whose operations may fail and which a crash may interrupt
    ([Storage]).

    - [Prelude]: results, the nil-able maps of Go ([gomap]), generic lemmas and
      automation.
    - [GoStd]: what the code uses of the Go standard library, executable: UTF-8
      decoding, [strings], [filepath], [time] arithmetic, SHA-256, JSON text.
      [Floats]: [float64] and its formatting.  [Text]: strings for code that edits
      text byte by byte.  [Runes]: strings as runes, with the character tables as
      the record [Unicode], and stable sorting.  [Encodings]: the JSON text of the structures that are
      hashed or kept in receipts.
    - [Prci]: [internal/prci/prci.go], the diagnosis of a pull request and its
      checks.
    - [Team]: [internal/team/team.go], globs, roles, escalation; [Strategy]:
      [internal/team/routing.go], the choice among candidates.
    - [Disclosure]: [internal/publication/policy.go] and
      [internal/governance/policy/publication.go].
    - [State]: every record of the package and the aggregate [state]
      (sessions.go), with [Env] and the transaction type.
    - [Session]: sessions.go and compatibility.go: credentials, scopes, the walk
      over the ancestors, [Enroll], [Delegate], [Authorize], [Revoke].
    - [Withdrawal]: the predicates of lifecycle.go, recovery.go and leases.go
      that tell whether a worker may still act on a task.
    - [Resources]: canonical resources and overlap (leases.go).
    - [Attempts]: attempts.go.  [Leases]: leases.go.  [Lifecycle]: lifecycle.go.
      [Recovery]: recovery.go.  [Evidence]: evidence.go.  [Reviews]:
      native_review.go.  [Publication]: publication.go.
    - [Scheduling]: controllers, bound actors, the swarm policy and role policy
      references (swarms.go, native_controller.go, dispatch_intents.go,
      native_role_registry.go).  [Preflight]: preflight.go.  [Budgets]:
      native_budgets.go and native_budget_outcomes.go.  [Checkpoints]:
      native_checkpoints.go and the references of native_reconciliation_view.go.
      [Routing]: native_model_routing.go.  [Swarms]: the planner, [ReserveWave],
      [AdmitDispatch] and [HandoffDispatch] of swarms.go.  [Intents]:
      dispatch_intents.go.  Their laws are in [PreflightLaws], [BudgetLaws],
      [CheckpointLaws], [SwarmLaws] and [IntentLaws].
    - [Acceptance]: native_acceptance.go and native_policy.go: policies, policy
      decisions, the retirement of a task and the closing of its canonical
      record.
    - [Integration]: native_integration.go: the policy, [ApplyNativeIntegration] and
      its two transactions around one change of a Git reference.  [External]:
      native_external.go: the policy, the push and the pull request, their
      observation, and the gate a landing opens.
    - [Schema]: the transaction, validation of the file, [Bootstrap], the
      opening functions and the nineteen migrations.  [Storage]: [persist] of
      sessions.go operation by operation, and the same transaction over it, which
      [transaction_refines] relates to the one of [Schema].
    - [Changes], [LoopChanges]: what each operation may change of the aggregate.
      [Safety]: the operations as one transition system: [step], [reachable].
    - [Scenario], [StorageRun], [AcceptanceRun], [LoopRun], [DeliveryRun]: concrete runs from the
      bootstrap on, evaluated, at which the properties are used; [LoopRun] is the
      loop from the configuration of a project to a settled dispatch, [DeliveryRun]
      goes on from an accepted task to its integration and its merged pull request.
    - [Files]: one directory under faults and crashes, and the stages of a file's
      replacement in it, shared by [Durable] and [Storage].
    - [Mdstore], [Durable]: [internal/mdstore/mdstore.go], the format and the
      replacement of a file; [Ulid]: [internal/ulid/ulid.go]; [Topo] and
      [CriticalPath]: [internal/spm/criticalpath.go]; [RateLimit]:
      [cloud/internal/ratelimit/limiter.go]; [Tenant]: the authorization kernel
      of [cloud/internal/tenant].

    ** What the theorems show

    Each component of the authority states an invariant ([sessions_inv],
    [leases_inv], ...) and a history order ([sessions_le], ...), and one lemma
    per operation that unfolds a successful call into the conditions it checked
    and the state it leaves; the properties follow from these.

    - Whole system (Safety): every reachable state is well formed and
      readable (C1); nothing is ever rewritten (C2); leases exclude each other
      and the retained reservations (C3); a host action is authorised once and a
      dispatch handed off once (C4, C5); the waves of a project are bounded
      (C6); withdrawal and revocation are final for whole subtrees of sessions
      (C9, C10); a task is accepted once (C17); a policy
      revision integrates once, and delivers each action once (C7, C8).
    - Acceptance: what retiring and closing a task needs (C11, C12), and that
      an interrupted one is finished (C13).
    - Delivery: that Git is touched only behind the begin that created the record,
      and once (C14); that an interrupted integration resumes (C15); what the landing gate stands for
      (C16); what a ready diagnosis excludes (C40).
    - Planning and dispatch: what a plan may select (C18), what a wave reserves
      (C19), what a request does (C20).
    - Preflight: what an allowing report stands for (C21), and that there always is a
      report (C22).  Budgets: the ledger (C23), no overcommitment
      (C24), conservative settlement (C25).  Checkpoints: the gate of a wave
      (C26).
    - Leases: what a grant guarantees (C27).  Sessions: authentication (C28).
      Storage: transactions are atomic (C29), migrations preserve (C32).
    - Evidence: the machine of a verification run (C33), independence of
      trusted evidence (C30).  Reviews: independence (C31).
      Publication: the pure kernel (C34).
    - Kernels: a file is replaced atomically (C35) and read back, carriage
      returns inside lines and keyless frontmatter lines apart (C36); every task
      graph is answered, with a network or the defect it has (C37); the rate is
      bounded (C38); the routing strategy chooses right (C39).
    - The other theorems of these files stand on their own: each operation's
      conditions and effect (the [_ok] lemmas), policies and their histories
      ([ConfigurePreflight_history], [ConfigureBudget_history],
      [ConfigureCheckpoints_bounds]), [EvaluatePublication_allow],
      [CancelLifecycle_withdraws], [workerTaskWithdrawn_spec], [decision_spent_once],
      [HandoffDispatch_exact], [CorrelateDispatch_exact], [AcknowledgeDispatch_exact],
      [writeCheckpoint_appends], [external_launches], [Diagnose_actionable], [changeLease_fenced], [Recover_effect],
      [Route_spec], [ComputeCPM_schedule], [Authorize_spec] and more.

    ** Fuel

    The loops over session lineages stop in the code because they mark the
    sessions they have seen.  Here they take [session_fuel s], one more than
    the number of stored sessions: each round marks a new stored session, so
    the fuel is never used up, which is proved where it matters
    ([authenticate_spec], [workerTaskWithdrawn_spec],
    [historicalWorkerFamily_spec], [InspectNativeCompatibility_authenticate]).
    [Route] takes the size of the roster, and [Route_spec] shows that it finds a
    route whenever there is one.
    The passes over text recurse on the text or take its length; Kahn's loop
    takes the number of tasks, and [ordering_spec] shows that it stops by itself;
    the limiter's [expire] takes the length of its list.

    ** Modelling choices

    - A nil and an empty slice coincide; a nil and an empty map do not.
    - Strings are byte strings, as in Go.  Instants are nanoseconds of UTC and
      not bounded; fences, versions and counts are integers, of the width the
      code gives them where the code's behaviour depends on it ([length]s
      compared as [uint64]); the file cannot hold enough entries to wrap others.
    - A Go map has no order.  Where the code ranges over one, the result does
      not depend on the order, and the model uses the map's own.
    - [json.Unmarshal] of what [json.Marshal] wrote is assumed to be the same
      state: in [Schema] a stored state is a [state], in [Storage] it is the
      hypothesis [reads_back] about the committed state.
    - [mint] draws random identifiers.  [fresh] says that a draw names nothing
      yet; the theorems over [step] assume it, since 128 random bits do not
      collide; single operations are modelled without it, collisions included.
    - [RegisterAttempt] runs two transactions; the first one's state is an
      argument and nothing relates it to the second one's.
      [ContinueNativeAcceptance] works in several transactions with the closing
      of the canonical task between them: it returns the list of the effects it
      had ([logged]) and the states it committed, and other operations may come
      between ([later]).  [ApplyNativeIntegration] and [ApplyNativeExternal] are two
      transactions each: [between] is what other operations commit in the
      meantime, and the freshness the first returns is the permit of the second.
    - [float64] is the binary64 of [SpecFloat], rounded to nearest even.
    - Files under a crash: [Files] keeps, besides the present directory, the
      versions a crash may bring back; an unsynced file may hold any bytes after
      one.
    - [step] starts at schema 6, the schema at which the evidence components
      have their maps; the earlier migrations are modelled and proved, but are
      not commands.  Acceptance and policies start at the schemas that add them.
    - [step] takes [ReserveWave] at its public entry and the checkpoints with any
      [Reconciliation]; the map of the controller (schema 16) holds uninterpreted
      JSON, which no command writes.
    - A report, a quote and a routing decision make many clock readings and
      observations; [prog] threads their index, so that every reading and every
      answer of an adapter is a separate one.
    ** Not modelled

    The bounded controller (native_controller*.go), which drives the operations
    modelled here in one transaction each, and the projections for dashboards
    (native_dashboard.go, native_role_outcomes.go, native_storage.go).
    What a reconciliation observes of the canonical tasks and the trunk
    ([reconcileCheckpoint]) is the class [Reconciliation], with the law that it
    changes nothing of a status but the fields it fills in.  Git commands, SQL and
    HTTP, the command line, the terminal and dashboard interfaces are input and
    output over these parts; the workspace store (internal/store) is file access. *)

From Stdlib Require Export ZArith Lia String Ascii.
From stdpp Require Export base tactics option list gmap strings sorting numbers.
#[export] Set Default Goal Selector "!".

Open Scope Z_scope.

Declare Scope go_scope.
Delimit Scope go_scope with go.

(** ** Results of fallible Go functions

    The errors the modelled code returns.  [Panic] is the write to a nil
    map, which Go turns into a run-time panic. *)

Inductive error :=
  | ErrDenied
  | ErrStorage
  | ErrReconcile
  | ErrPreflightTransient
  | Panic.

#[export] Instance error_eq_dec : EqDecision error.
Proof. solve_decision. Defined.

Inductive res (A : Type) :=
  | Ok (a : A)
  | Err (e : error).
Arguments Ok {A} a.
Arguments Err {A} e.

#[export] Instance res_eq_dec {A} `{EqDecision A} : EqDecision (res A).
Proof. solve_decision. Defined.

#[export] Instance res_ret : MRet res := fun A a => Ok a.
#[export] Instance res_bind : MBind res :=
  fun A B f m => match m with Ok a => f a | Err e => Err e end.

(** [if c { return ErrDenied }] *)
Definition deny_if (c : bool) : res unit := if c then Err ErrDenied else Ok tt.

(** [if c { return e }] *)
Definition fail_if (e : error) (c : bool) : res unit :=
  if c then Err e else Ok tt.

(** [v, ok := m[k]; if !ok { return ErrDenied }] *)
Definition must {A} (o : option A) : res A :=
  match o with Some a => Ok a | None => Err ErrDenied end.

Definition is_ok {A} (r : res A) : bool :=
  match r with Ok _ => true | Err _ => false end.

Lemma bind_ok {A B} (f : A -> res B) (m : res A) b :
  m ≫= f = Ok b <-> exists a, m = Ok a /\ f a = Ok b.
Proof. destruct m; simpl; naive_solver. Qed.

Lemma deny_if_ok c u : deny_if c = Ok u <-> c = false.
Proof. by destruct c, u. Qed.

Lemma fail_if_ok e c u : fail_if e c = Ok u <-> c = false.
Proof. by destruct c, u. Qed.

Lemma must_ok {A} (o : option A) a : must o = Ok a <-> o = Some a.
Proof. destruct o; simpl; naive_solver. Qed.

Lemma is_ok_true {A} (r : res A) : is_ok r = true <-> exists a, r = Ok a.
Proof. destruct r; simpl; split; eauto; [done | by intros []]. Qed.

Lemma is_ok_false {A} (r : res A) : is_ok r = false <-> exists e, r = Err e.
Proof. destruct r; simpl; split; eauto; [done | by intros []]. Qed.

(** ** Record update

    [r <| field := v |>].  A record type that is updated lists its
    projections once, in its [Settable] instance; the setter of a field is
    computed from that list. *)

Class Settable (R : Type) := eta_fields : R -> R.

Class Setter {R T : Type} (getter : R -> T) := set_field : (T -> T) -> R -> R.
#[export] Hint Mode Setter ! ! ! : typeclass_instances.
Arguments set_field {R T} getter {_} _ _.

Ltac solve_setter getter :=
  match type of getter with
  | ?R -> ?T =>
    let inst := constr:(_ : Settable R) in
    let e := eval hnf in inst in
    lazymatch eval pattern getter in e with
    | ?update _ =>
      let u := eval cbv beta in (fun f : T -> T => update (fun r => f (getter r))) in
      exact u
    end
  end.

#[export] Hint Extern 1 (@Setter ?R ?T ?getter) =>
  solve_setter getter : typeclass_instances.

Notation "r <| field := v |>" := (set_field field (fun _ => v) r)
  (at level 1, left associativity, v at level 99, format "r  <| field  :=  v |>") : go_scope.
Open Scope go_scope.

(** ** Inverting successful runs *)

Ltac bool_facts :=
  repeat match goal with
  | H : (_ || _) = false |- _ => apply orb_false_iff in H as [? ?]
  | H : (_ && _) = true |- _ => apply andb_true_iff in H as [? ?]
  | H : negb _ = false |- _ => apply negb_false_iff in H
  | H : negb _ = true |- _ => apply negb_true_iff in H
  | H : (_ =? _)%string = true |- _ => apply String.eqb_eq in H
  | H : (_ =? _)%string = false |- _ => apply String.eqb_neq in H
  | H : (_ =? _) = true |- _ => apply Z.eqb_eq in H
  | H : (_ =? _) = false |- _ => apply Z.eqb_neq in H
  | H : (_ <? _) = true |- _ => apply Z.ltb_lt in H
  | H : (_ <? _) = false |- _ => apply Z.ltb_ge in H
  | H : (_ <=? _) = true |- _ => apply Z.leb_le in H
  | H : (_ <=? _) = false |- _ => apply Z.leb_gt in H
  | H : bool_decide _ = true |- _ => apply bool_decide_eq_true in H
  | H : bool_decide _ = false |- _ => apply bool_decide_eq_false in H
  end.

Ltac inv_ok_step :=
  match goal with
  | H : mbind _ _ = Ok _ |- _ => apply bind_ok in H as (? & ? & ?)
  | H : deny_if _ = Ok _ |- _ => apply deny_if_ok in H
  | H : fail_if _ _ = Ok _ |- _ => apply fail_if_ok in H
  | H : must _ = Ok _ |- _ => apply must_ok in H
  | H : mret _ = Ok _ |- _ => unfold mret, res_ret in H
  | H : Ok _ = Ok _ |- _ => injection H as H; try subst
  | H : Err _ = Ok _ |- _ => discriminate H
  | H : Ok _ = Err _ |- _ => discriminate H
  end.

(** Unfolds every bind of a successful run into the facts it went through. *)
Ltac inv_ok := repeat (inv_ok_step; simpl in *); bool_facts.

(** The same, also splitting on the branch each [if] or [match] took. *)
Ltac inv_ok_split :=
  repeat (first
    [ inv_ok_step
    | match goal with
      | H : (if ?b then _ else _) = Ok _ |- _ => destruct b eqn:?
      | H : (match ?x with _ => _ end) = Ok _ |- _ => destruct x eqn:?
      end ]; simpl in * );
  bool_facts.

(** ** Go maps with string keys

    A Go map is nil or a finite map.  Reading a nil map finds nothing;
    writing to it panics. *)

Abbreviation gomap V := (option (gmap string V)).

Definition make_map {V} : gomap V := Some ∅.

Definition is_nil {V} (m : gomap V) : bool :=
  match m with None => true | Some _ => false end.

(** [m[k]] *)
Definition mget {V} (m : gomap V) (k : string) : option V :=
  match m with Some g => g !! k | None => None end.

(** [m[k] = v] *)
Definition mset {V} (m : gomap V) (k : string) (v : V) : res (gomap V) :=
  match m with Some g => Ok (Some (<[k := v]> g)) | None => Err Panic end.

(** The entries a [range] loop visits; Go leaves their order open, the model
    fixes one. *)
Definition mentries {V} (m : gomap V) : list (string * V) :=
  match m with Some g => map_to_list g | None => [] end.

Definition mvals {V} (m : gomap V) : list V := (mentries m).*2.

(** [_, ok := m[k]] *)
Definition mhas {V} (m : gomap V) (k : string) : bool :=
  match mget m k with Some _ => true | None => false end.

Section gomap_lemmas.
Context {V : Type}.
Implicit Types (m : gomap V) (k : string) (v : V).

Lemma mset_ok m k v m' :
  mset m k v = Ok m' -> exists g, m = Some g /\ m' = Some (<[k := v]> g).
Proof. destruct m; simpl; naive_solver. Qed.

Lemma mget_mset m k v m' k' :
  mset m k v = Ok m' ->
  mget m' k' = if decide (k = k') then Some v else mget m k'.
Proof.
  intros (g & -> & ->)%mset_ok. simpl. by rewrite lookup_insert.
Qed.

Lemma mget_mset_eq m k v m' : mset m k v = Ok m' -> mget m' k = Some v.
Proof. intros H. by rewrite (mget_mset _ _ _ _ _ H), decide_True. Qed.

Lemma mget_mset_ne m k v m' k' :
  mset m k v = Ok m' -> k <> k' -> mget m' k' = mget m k'.
Proof. intros H ?. by rewrite (mget_mset _ _ _ _ _ H), decide_False. Qed.

Lemma mset_total m k v : is_nil m = false -> exists m', mset m k v = Ok m'.
Proof. destruct m; simpl; naive_solver. Qed.

Lemma is_nil_mset_eq m k v m' : mset m k v = Ok m' -> is_nil m' = is_nil m.
Proof. by intros (g & -> & ->)%mset_ok. Qed.

Lemma is_nil_mset m k v m' : mset m k v = Ok m' -> is_nil m' = false.
Proof. by intros (g & -> & ->)%mset_ok. Qed.

Lemma elem_of_mentries m k v : (k, v) ∈ mentries m <-> mget m k = Some v.
Proof.
  destruct m; simpl; [apply elem_of_map_to_list |].
  split; [by intros ?%elem_of_nil | done].
Qed.

Lemma elem_of_mvals m v : v ∈ mvals m <-> exists k, mget m k = Some v.
Proof.
  unfold mvals. rewrite list_elem_of_fmap. split.
  - intros ([k v'] & -> & ?%elem_of_mentries). eauto.
  - intros [k ?%elem_of_mentries]. exists (k, v). eauto.
Qed.

Lemma mhas_true m k : mhas m k = true <-> is_Some (mget m k).
Proof. unfold mhas. destruct (mget m k); split; naive_solver. Qed.

Lemma mhas_false m k : mhas m k = false <-> mget m k = None.
Proof. unfold mhas. destruct (mget m k); naive_solver. Qed.
End gomap_lemmas.

(** ** Operations that observe as often as their data ask

    A step of such an operation takes the number of its next observation and
    returns it advanced; [now e i] and the adapters of [Env] answer observation
    [i].  Numbers may be skipped, never reused, so later observations have larger
    numbers. *)

Record prog (A : Type) : Type := Prog { exec : nat -> res (A * nat) }.
Arguments Prog {A} exec.
Arguments exec {A} p n.
#[export] Instance prog_ret : MRet prog := fun A a => Prog (fun n => Ok (a, n)).
#[export] Instance prog_bind : MBind prog := fun A B f m =>
  Prog (fun n => match exec m n with Ok (a, k) => exec (f a) k | Err e => Err e end).

Definition lift {A} (r : res A) : prog A := Prog (fun n => match r with Ok a => Ok (a, n) | Err e => Err e end).
(** An observation that takes [k] numbers, and one that can fail. *)
Definition look {A} (k : nat) (f : nat -> A) : prog A := Prog (fun n => Ok (f n, (k + n)%nat)).
Definition ask {A} (k : nat) (f : nat -> res A) : prog A :=
  Prog (fun n => match f n with Ok a => Ok (a, (k + n)%nat) | Err e => Err e end).
Definition forbid_if (c : bool) : prog unit := lift (deny_if c).
(** The operation from its first observation on. *)
Definition run {A} (m : prog A) : res A := match exec m 0%nat with Ok (a, _) => Ok a | Err e => Err e end.

(** A loop over a list that carries an accumulator. *)
Fixpoint each {A B} (f : A -> B -> prog A) (a : A) (l : list B) : prog A :=
  match l with
  | [] => mret a
  | x :: l => a ← f a x; each f a l
  end.

Lemma prog_bind_ok {A B} (f : A -> prog B) (m : prog A) n r :
  exec (m ≫= f) n = Ok r <-> exists a k, exec m n = Ok (a, k) /\ exec (f a) k = Ok r.
Proof. simpl. destruct (exec m n) as [[a k] |]; naive_solver. Qed.

Lemma lift_ok {A} (r : res A) n a k : exec (lift r) n = Ok (a, k) <-> r = Ok a /\ k = n.
Proof. simpl. destruct r; naive_solver. Qed.

Lemma ask_ok {A} j (f : nat -> res A) n a k : exec (ask j f) n = Ok (a, k) <-> f n = Ok a /\ k = (j + n)%nat.
Proof. simpl. destruct (f n); naive_solver. Qed.

Lemma look_ok {A} j (f : nat -> A) n a k : exec (look j f) n = Ok (a, k) <-> a = f n /\ k = (j + n)%nat.
Proof. simpl. naive_solver. Qed.

Lemma forbid_if_ok c n u k : exec (forbid_if c) n = Ok (u, k) <-> c = false /\ k = n.
Proof. unfold forbid_if. by rewrite lift_ok, deny_if_ok. Qed.

Lemma mret_ok {A} (a b : A) n k : exec (mret a) n = Ok (b, k) <-> b = a /\ k = n.
Proof. simpl. naive_solver. Qed.

Lemma run_ok {A} (m : prog A) a : run m = Ok a <-> exists k, exec m 0%nat = Ok (a, k).
Proof. unfold run. destruct (exec m 0%nat) as [[? ?] |]; naive_solver. Qed.

(** An invariant of a loop. *)
Lemma each_inv {A B} (f : A -> B -> prog A) (I : A -> Prop) l a n r k :
  (forall a x n a' k, x ∈ l -> I a -> exec (f a x) n = Ok (a', k) -> I a') ->
  I a -> exec (each f a l) n = Ok (r, k) -> I r.
Proof.
  revert a n. induction l as [| x l IH]; intros a n Hf Ha E; simpl each in E.
  - by apply mret_ok in E as [-> _].
  - apply prog_bind_ok in E as (a' & k' & E1 & E2). apply (IH a' k'); [set_solver | | done].
    eapply Hf; [| done | done]. left.
Qed.

Ltac inv_prog_step :=
  match goal with
  | H : exec (mbind _ _) _ = Ok _ |- _ => apply prog_bind_ok in H as (? & ? & ? & ?)
  | H : exec (lift _) _ = Ok _ |- _ => apply lift_ok in H as [? ->]
  | H : exec (forbid_if _) _ = Ok _ |- _ => apply forbid_if_ok in H as [? ->]
  | H : exec (look _ _) _ = Ok _ |- _ => apply look_ok in H as [-> ->]
  | H : exec (ask _ _) _ = Ok _ |- _ => apply ask_ok in H as [? ->]
  | H : exec (mret _) _ = Ok _ |- _ => apply mret_ok in H as [? ->]
  | H : run _ = Ok _ |- _ => apply run_ok in H as [? ?]
  end.

(** Past the next steps of [E], whatever they observe. *)
Ltac skip_in E := apply prog_bind_ok in E as (? & ? & _ & E).

(** The operation returns, with a result that satisfies [Q]; it returns. *)
Definition ensures {A} (m : prog A) (Q : A -> Prop) : Prop := forall n, exists a k, exec m n = Ok (a, k) /\ Q a.
Definition returns {A} (m : prog A) : Prop := ensures m (fun _ => True).

Lemma ensures_bind {A B} (m : prog A) (f : A -> prog B) P Q :
  ensures m P -> (forall a, P a -> ensures (f a) Q) -> ensures (m ≫= f) Q.
Proof.
  intros Hm Hf n. destruct (Hm n) as (a & k & E & Ha). destruct (Hf a Ha k) as (b & j & E' & Hb).
  exists b, j. split; [| done]. apply prog_bind_ok. eauto.
Qed.
Lemma ensures_ret {A} (a : A) (Q : A -> Prop) : Q a -> ensures (mret a) Q.
Proof. intros H n. by exists a, n. Qed.
Lemma ensures_returns {A} (m : prog A) : returns m -> ensures m (fun _ => True).
Proof. done. Qed.
Lemma returns_ret {A} (a : A) : returns (mret a : prog A).
Proof. by apply ensures_ret. Qed.
Lemma returns_look {A} j (f : nat -> A) : returns (look j f).
Proof. intros n. by exists (f n), (j + n)%nat. Qed.
Lemma returns_bind {A B} (m : prog A) (f : A -> prog B) : returns m -> (forall a, returns (f a)) -> returns (m ≫= f).
Proof. intros Hm Hf. eapply ensures_bind; [exact Hm |]. intros a _. apply Hf. Qed.
Lemma returns_each {A B} (f : A -> B -> prog A) a l : (forall a x, returns (f a x)) -> returns (each f a l).
Proof.
  intros Hf. revert a. induction l as [| x l IH]; intros a; simpl each; [apply returns_ret |]. apply returns_bind; auto.
Qed.

(** Totality follows the text of the operation. *)
Ltac totality := repeat match goal with
  | |- forall _, _ => intro
  | |- returns (mret _) => apply returns_ret
  | |- returns (look _ _) => apply returns_look
  | |- returns (each _ _ _) => apply returns_each
  | |- returns (_ ≫= _) => apply returns_bind
  | |- returns (if ?b then _ else _) => destruct b
  | |- returns (match ?x with _ => _ end) => destruct x
  | |- returns (let _ := _ in _) => cbv zeta
  end.

(** ** Loops that search a list *)

Lemma snoc_not_nil {A} (l : list A) x : l ++ [x] <> [].
Proof. by destruct l. Qed.

Lemma existsb_elem {A} (p : A -> bool) l :
  existsb p l = true <-> exists x, x ∈ l /\ p x = true.
Proof.
  rewrite existsb_exists. by setoid_rewrite <- list_elem_of_In.
Qed.

Lemma existsb_not_elem {A} (p : A -> bool) l :
  existsb p l = false <-> forall x, x ∈ l -> p x = false.
Proof.
  rewrite <- not_true_iff_false, existsb_elem. split.
  - intros H x Hx. destruct (p x) eqn:E; [| done]. exfalso; eauto.
  - intros H (x & Hx & E). by rewrite (H x Hx) in E.
Qed.

Lemma forallb_elem {A} (p : A -> bool) l :
  forallb p l = true <-> forall x, x ∈ l -> p x = true.
Proof.
  rewrite forallb_forall. by setoid_rewrite <- list_elem_of_In.
Qed.

Lemma string_app_assoc (a b c : string) : ((a ++ b) ++ c)%string = (a ++ (b ++ c))%string.
Proof. induction a as [|x a IH]; [done |]. 
  change (String x ((a ++ b) ++ c) = String x (a ++ (b ++ c)))%string. by rewrite IH. Qed.

(** ** Loops and phases that return early *)

(** The first result of a loop that may return. *)
Fixpoint first_some {A B} (f : A -> option B) (l : list A) : option B :=
  match l with [] => None | x :: l' => match f x with Some y => Some y | None => first_some f l' end end.
(** The first phase that returns, or else the end of the function. *)
Fixpoint first_of {A} (phases : list (option A)) (otherwise : A) : A :=
  match phases with [] => otherwise | Some x :: _ => x | None :: l => first_of l otherwise end.

Lemma first_some_None {A B} (f : A -> option B) l : first_some f l = None <-> forall x, x ∈ l -> f x = None.
Proof.
  induction l as [| x l IH]; simpl; [split; [by intros _ ? ?%elem_of_nil | done] |].
  destruct (f x) eqn:E; [split; [done | intros H; rewrite (H x) in E by left; done] |].
  rewrite IH. split; [intros H y [-> | Hy]%elem_of_cons; [done | by apply H] | intros H y Hy; apply H; by right].
Qed.

Lemma first_some_Some {A B} (f : A -> option B) l y : first_some f l = Some y -> exists x, x ∈ l /\ f x = Some y.
Proof.
  induction l as [| x l IH]; simpl; [done |].
  destruct (f x) eqn:E; [intros [= <-]; exists x; split; [left | done] |].
  intros (z & ? & ?)%IH. exists z. split; [by right | done].
Qed.

Lemma first_of_all {A} (P : A -> Prop) l d :
  Forall (fun o => forall x, o = Some x -> P x) l -> P d -> P (first_of l d).
Proof. intros H Hd. induction H as [| [x |] l Hx Hl IH]; simpl; auto. Qed.

(** No phase yields a value [P] rejects, so such a value is the end of the function. *)
Lemma first_of_end {A} (P : A -> Prop) l d :
  Forall (fun o => forall x, o = Some x -> ~ P x) l -> P (first_of l d) <-> Forall (fun o => o = None) l /\ P d.
Proof.
  induction 1 as [| [x |] l Hx Hl IH]; simpl.
  - split; [by intros; split | by intros [_ ?]].
  - split; [intros H; destruct (Hx x eq_refl H) | intros [[H _]%Forall_cons_1 _]; done].
  - rewrite IH. rewrite list.Forall_cons. tauto.
Qed.

(** ** Effects outside the transaction

    A result, after the calls of an external effect with their arguments: those
    happen whether or not the transaction commits. *)

Definition logged (C A : Type) : Type := list C * res A.

#[export] Instance logged_ret {C} : MRet (logged C) := fun A a => ([], Ok a).
#[export] Instance logged_bind {C} : MBind (logged C) := fun A B f m =>
  match m with
  | (calls, Ok a) => let '(calls', r) := f a in (calls ++ calls', r)
  | (calls, Err e) => (calls, Err e)
  end.
Definition pure {C A} (r : res A) : logged C A := ([], r).

Lemma logged_bind_inv {C A B} (m : logged C A) (f : A -> logged C B) calls b :
  m ≫= f = (calls, Ok b) ->
  exists calls1 a calls2, m = (calls1, Ok a) /\ f a = (calls2, Ok b) /\ calls = calls1 ++ calls2.
Proof.
  unfold mbind, logged_bind. destruct m as [calls1 [a |]]; [| done].
  destruct (f a) as [calls2 x] eqn:E. intros [= <- ->]. by exists calls1, a, calls2.
Qed.

Lemma pure_inv {C A} (r : res A) (calls : list C) a : pure r = (calls, Ok a) -> calls = [] /\ r = Ok a.
Proof. by intros [= <- ->]. Qed.

(** A run of effects, whatever its result. *)
Lemma logged_bind_calls {C A B} (m : logged C A) (f : A -> logged C B) calls (x : res B) :
  m ≫= f = (calls, x) ->
  (exists calls1 a calls2, m = (calls1, Ok a) /\ f a = (calls2, x) /\ calls = calls1 ++ calls2)
  \/ exists e, m = (calls, Err e).
Proof.
  unfold mbind, logged_bind. destruct m as [calls1 [a | err]].
  - destruct (f a) as [calls2 y] eqn:E. intros [= <- <-]. left. by exists calls1, a, calls2.
  - intros [= <- <-]. right. by exists err.
Qed.

(** One step of a run that called nothing. *)
Lemma pure_bind_calls {C A B} (r : res A) (f : A -> logged C B) calls (x : res B) :
  pure r ≫= f = (calls, x) -> calls = [] \/ exists a, r = Ok a /\ f a = (calls, x).
Proof.
  intros [(c1 & a & c2 & Hp%pure_inv & Hf & ->) | (err & [= <- _])]%logged_bind_calls; [| by left].
  destruct Hp as [-> ->]. right. by exists a.
Qed.

(** ** Sorting followed by the removal of equal neighbours

    [sort.Slice] with a total order, then the loop that appends a value only
    when it differs from the last one kept. *)

Fixpoint dedup_adj {A} `{EqDecision A} (l : list A) : list A :=
  match l with
  | x :: l' =>
    match l' with
    | y :: _ => if decide (x = y) then dedup_adj l' else x :: dedup_adj l'
    | [] => [x]
    end
  | [] => []
  end.

Section sort_dedup.
Context {A : Type} `{EqDecision A} (R : relation A) `{!RelDecision R}.
Implicit Types (x : A) (l k : list A).

Definition sort_dedup l : list A := dedup_adj (merge_sort R l).

Lemma elem_of_dedup_adj x l : x ∈ dedup_adj l <-> x ∈ l.
Proof.
  induction l as [|y [|z l] IH]; [done | done |].
  change (dedup_adj (y :: z :: l)) with
    (if decide (y = z) then dedup_adj (z :: l) else y :: dedup_adj (z :: l)).
  case_decide; [set_solver |].
  rewrite (elem_of_cons _ x y), (elem_of_cons (z :: l) x y). by rewrite IH.
Qed.

Lemma elem_of_sort_dedup x l : x ∈ sort_dedup l <-> x ∈ l.
Proof.
  unfold sort_dedup. rewrite elem_of_dedup_adj.
  by rewrite (merge_sort_Permutation R l).
Qed.

Context `{!Transitive R} `{!Total R} `{!AntiSymm (=) R}.

Lemma dedup_adj_strict l :
  StronglySorted R l -> StronglySorted (fun x y => R x y /\ x <> y) (dedup_adj l).
Proof.
  induction 1 as [|y l Hl IH Hy]; [constructor |].
  destruct l as [|z l]; [repeat constructor |].
  change (dedup_adj (y :: z :: l)) with
    (if decide (y = z) then dedup_adj (z :: l) else y :: dedup_adj (z :: l)).
  case_decide as Hyz; [done |].
  constructor; [done |].
  apply list.Forall_forall. intros w Hw. rewrite elem_of_dedup_adj in Hw.
  rewrite list.Forall_forall in Hy. split; [by apply Hy |].
  intros ->. apply Hyz.
  apply elem_of_cons in Hw as [Hw | Hw]; [done |].
  apply (anti_symm R).
  - apply Hy. by left.
  - apply StronglySorted_inv in Hl as [_ Hz]. rewrite list.Forall_forall in Hz. by apply Hz.
Qed.

Lemma sort_dedup_strict l :
  StronglySorted (fun x y => R x y /\ x <> y) (sort_dedup l).
Proof.
  apply dedup_adj_strict, Sorted_StronglySorted; [done |].
  by apply Sorted_merge_sort.
Qed.

Lemma strict_sorted_NoDup l :
  StronglySorted (fun x y => R x y /\ x <> y) l -> NoDup l.
Proof.
  induction 1 as [|x l _ IH Hx]; [constructor |]. constructor; [| done].
  intros Hin. rewrite list.Forall_forall in Hx. by apply Hx in Hin as [_ []].
Qed.

Lemma sort_dedup_NoDup l : NoDup (sort_dedup l).
Proof. apply strict_sorted_NoDup, sort_dedup_strict. Qed.

Lemma strict_sorted_weaken l :
  StronglySorted (fun x y => R x y /\ x <> y) l -> StronglySorted R l.
Proof.
  induction 1 as [|x l _ IH Hx]; [constructor |]. constructor; [done |].
  eapply Forall_impl; [| exact Hx]. by intros ? [].
Qed.

(** A strictly sorted list is determined by its elements. *)
Lemma strict_sorted_ext l k :
  StronglySorted (fun x y => R x y /\ x <> y) l ->
  StronglySorted (fun x y => R x y /\ x <> y) k ->
  (forall x, x ∈ l <-> x ∈ k) -> l = k.
Proof.
  intros Hl Hk Hlk. apply (StronglySorted_unique R).
  - by apply strict_sorted_weaken.
  - by apply strict_sorted_weaken.
  - apply NoDup_Permutation; [by apply strict_sorted_NoDup.. | done].
Qed.

Lemma sort_dedup_ext l k : (forall x, x ∈ l <-> x ∈ k) -> sort_dedup l = sort_dedup k.
Proof.
  intros H. apply strict_sorted_ext; [apply sort_dedup_strict.. |].
  intros x. by rewrite !elem_of_sort_dedup.
Qed.

Lemma sort_dedup_idemp l : sort_dedup (sort_dedup l) = sort_dedup l.
Proof. apply sort_dedup_ext. intros x. apply elem_of_sort_dedup. Qed.
End sort_dedup.
