(* ===== verification/Floats.v ===== *)
(** * Floating point and its text

    A [float64] is an IEEE 754 number of the Standard Library's SpecFloat with 53
    bits of precision, every operation rounded to nearest even.  The second half
    is [strconv.AppendFloat]: the shortest decimal that reads back as the number,
    in the layouts of [encoding/json] and of [fmt]'s %g, and %.1f. *)

From Stdlib Require Import SpecFloat.
From stdpp Require Import pretty.
From S2P Require Import Prelude.
#[local] Open Scope Z_scope.

Abbreviation float := spec_float.
#[export] Instance float_eq_dec : EqDecision float. Proof. solve_decision. Defined.

(** ** Arithmetic *)

Definition zero : float := S754_zero false.
Definition fadd : float -> float -> float := SFadd 53 1024.
Definition fsub : float -> float -> float := SFsub 53 1024.
Definition fmul : float -> float -> float := SFmul 53 1024.
Definition fdiv : float -> float -> float := SFdiv 53 1024.
Definition flt : float -> float -> bool := SFltb.
Definition fle : float -> float -> bool := SFleb.
Definition feq : float -> float -> bool := SFeqb.

(** [float64(n)] *)
Definition of_int (n : Z) : float := binary_normalize 53 1024 n 0 false.

Definition is_pos_inf (x : float) : bool := match x with S754_infinity false => true | _ => false end.
Definition is_neg_inf (x : float) : bool := match x with S754_infinity true => true | _ => false end.
Definition is_nan (x : float) : bool := match x with S754_nan => true | _ => false end.
Definition is_zero (x : float) : bool := match x with S754_zero _ => true | _ => false end.
Definition signbit (x : float) : bool :=
  match x with S754_zero s | S754_infinity s | S754_finite s _ _ => s | S754_nan => false end.
Definition finite (x : float) : bool :=
  match x with S754_zero _ | S754_finite _ _ _ => true | _ => false end.

(** [math.Max] and [math.Min]. *)
Definition fmax (x y : float) : float :=
  if is_pos_inf x || is_pos_inf y then S754_infinity false
  else if is_nan x || is_nan y then S754_nan
  else if is_zero x && is_zero y then (if signbit x then y else x)
  else if flt y x then x else y.

Definition fmin (x y : float) : float :=
  if is_neg_inf x || is_neg_inf y then S754_infinity true
  else if is_nan x || is_nan y then S754_nan
  else if is_zero x && is_zero y then (if signbit x then x else y)
  else if flt x y then x else y.

(** ** The order of floating-point numbers *)

(** A number as a lexicographic rank; all zeros are equal. *)
Definition rank (x : float) : Z * Z * Z :=
  match x with
  | S754_infinity false => (2, 0, 0)
  | S754_finite false m e => (1, e, Zpos m)
  | S754_zero _ | S754_nan => (0, 0, 0)
  | S754_finite true m e => (-1, - e, Zneg m)
  | S754_infinity true => (-2, 0, 0)
  end.

Definition lex_lt (a b : Z * Z * Z) : Prop :=
  a.1.1 < b.1.1 \/ a.1.1 = b.1.1 /\ (a.1.2 < b.1.2 \/ a.1.2 = b.1.2 /\ a.2 < b.2).

Lemma flt_rank x y : flt x y = true <-> is_nan x = false /\ is_nan y = false /\ lex_lt (rank x) (rank y).
Proof.
  unfold flt, SFltb, SFcompare, lex_lt.
  destruct x as [sx | sx | | sx mx ex], y as [sy | sy | | sy my ey]; try destruct sx; try destruct sy;
    cbn [is_nan rank fst snd]; try (split; [done | lia]); try (split; [lia | done]); try (split; [done | by intros (? & ? & ?)]);
    try (split; intros; [split_and!; [done | done | lia] | done]).
  - change (Pos.compare_cont Eq mx my) with (Pos.compare mx my).
    destruct (Z.compare_spec ex ey), (Pos.compare_spec mx my); simpl; split; intros; try done; try lia; split_and!; done || lia.
  - change (Pos.compare_cont Eq mx my) with (Pos.compare mx my).
    destruct (Z.compare_spec ex ey), (Pos.compare_spec mx my); simpl; split; intros; try done; try lia; split_and!; done || lia.
Qed.

Lemma flt_irrefl x : flt x x = false.
Proof. apply not_true_iff_false. rewrite flt_rank. unfold lex_lt. lia. Qed.

Lemma flt_trans_false x y z : is_nan y = false -> flt x y = false -> flt y z = false -> flt x z = false.
Proof.
  intros Hy. rewrite <- !not_true_iff_false, !flt_rank. intros H1 H2 (Hx & Hz & H).
  assert (~ lex_lt (rank x) (rank y)) as H1' by tauto. assert (~ lex_lt (rank y) (rank z)) as H2' by tauto.
  unfold lex_lt in *. lia.
Qed.

Lemma fmax_cases x y : fmax x y = x \/ fmax x y = y.
Proof.
  unfold fmax. destruct (is_pos_inf x) eqn:E1; [left; by destruct x as [| [] | |] |].
  destruct (is_pos_inf y) eqn:E2; [right; by destruct y as [| [] | |] |]. simpl.
  destruct (is_nan x) eqn:E3; [left; by destruct x |]. destruct (is_nan y) eqn:E4; [right; by destruct y |]. simpl.
  destruct (_ && _); [destruct (signbit x); auto |]. destruct (flt y x); auto.
Qed.

Lemma fmin_cases x y : fmin x y = x \/ fmin x y = y.
Proof.
  unfold fmin. destruct (is_neg_inf x) eqn:E1; [left; by destruct x as [| [] | |] |].
  destruct (is_neg_inf y) eqn:E2; [right; by destruct y as [| [] | |] |]. simpl.
  destruct (is_nan x) eqn:E3; [left; by destruct x |]. destruct (is_nan y) eqn:E4; [right; by destruct y |]. simpl.
  destruct (_ && _); [destruct (signbit x); auto |]. destruct (flt x y); auto.
Qed.

(** Nothing below [x] is below a maximum with [x]. *)
Lemma fmax_left x y b : flt x b = false -> flt (fmax x y) b = false.
Proof.
  intros Hb. unfold fmax. destruct (is_pos_inf x || is_pos_inf y) eqn:E1.
  { apply not_true_iff_false. rewrite flt_rank. unfold lex_lt. simpl. destruct b as [? | [] | | []]; simpl; lia. }
  destruct (is_nan x || is_nan y) eqn:E2; [done |]. apply orb_false_iff in E2 as [Hx Hy].
  destruct (is_zero x && is_zero y) eqn:E3.
  { destruct (signbit x); [| done]. apply andb_true_iff in E3 as [Hzx Hzy]. destruct x, y; done. }
  destruct (flt y x) eqn:E4; [done |]. by apply (flt_trans_false y x b).
Qed.

Lemma fmax_right x y : flt (fmax x y) y = false.
Proof.
  unfold fmax. destruct (is_pos_inf x || is_pos_inf y) eqn:E1.
  { apply not_true_iff_false. rewrite flt_rank. unfold lex_lt. simpl. destruct y as [? | [] | | []]; simpl; lia. }
  destruct (is_nan x || is_nan y) eqn:E2; [done |].
  destruct (is_zero x && is_zero y) eqn:E3.
  { destruct (signbit x); [apply flt_irrefl |]. apply andb_true_iff in E3 as [Hzx Hzy]. destruct x, y; done. }
  destruct (flt y x) eqn:E4; [| apply flt_irrefl]. apply not_true_iff_false. intros H.
  rewrite flt_rank in *. unfold lex_lt in *. lia.
Qed.

Lemma fmin_left x y b : flt b x = false -> flt b (fmin x y) = false.
Proof.
  intros Hb. unfold fmin. destruct (is_neg_inf x || is_neg_inf y) eqn:E1.
  { apply not_true_iff_false. rewrite flt_rank. unfold lex_lt. simpl. destruct b as [? | [] | | []]; simpl; lia. }
  destruct (is_nan x || is_nan y) eqn:E2; [by destruct b as [| [] | | []] |]. apply orb_false_iff in E2 as [Hx Hy].
  destruct (is_zero x && is_zero y) eqn:E3.
  { destruct (signbit x); [done |]. apply andb_true_iff in E3 as [Hzx Hzy]. destruct x, y; done. }
  destruct (flt x y) eqn:E4; [done |]. by apply (flt_trans_false b x y).
Qed.

Lemma fmin_right x y : flt y (fmin x y) = false.
Proof.
  unfold fmin. destruct (is_neg_inf x || is_neg_inf y) eqn:E1.
  { apply not_true_iff_false. rewrite flt_rank. unfold lex_lt. simpl. destruct y as [? | [] | | []]; simpl; lia. }
  destruct (is_nan x || is_nan y) eqn:E2; [by destruct y as [| [] | | []] |].
  destruct (is_zero x && is_zero y) eqn:E3.
  { destruct (signbit x); [| apply flt_irrefl]. apply andb_true_iff in E3 as [Hzx Hzy]. destruct x, y; done. }
  destruct (flt x y) eqn:E4; [| apply flt_irrefl]. apply not_true_iff_false. intros H.
  rewrite flt_rank in *. unfold lex_lt in *. lia.
Qed.

Lemma feq_rank x y : feq x y = true <-> is_nan x = false /\ is_nan y = false /\ rank x = rank y.
Proof.
  unfold feq, SFeqb, SFcompare.
  destruct x as [sx | sx | | sx mx ex], y as [sy | sy | | sy my ey]; try destruct sx; try destruct sy;
    cbn [is_nan rank]; try (split; [done | by intros (? & ? & ?)]); try (split; [done | done]).
  - change (Pos.compare_cont Eq mx my) with (Pos.compare mx my).
    destruct (Z.compare_spec ex ey), (Pos.compare_spec mx my); simpl; split; intros; try done; try naive_solver lia.
  - change (Pos.compare_cont Eq mx my) with (Pos.compare mx my).
    destruct (Z.compare_spec ex ey), (Pos.compare_spec mx my); simpl; split; intros; try done; try naive_solver lia.
Qed.

Lemma flt_asym x y : flt x y = true -> flt y x = false.
Proof. rewrite <- not_true_iff_false, !flt_rank. unfold lex_lt. lia. Qed.

Lemma feq_flt x y : feq x y = true -> flt x y = false.
Proof. rewrite <- not_true_iff_false, feq_rank, flt_rank. intros (_ & _ & E) (_ & _ & H). unfold lex_lt in H. rewrite E in H. lia. Qed.

Lemma feq_sym x y : feq x y = feq y x.
Proof. apply eq_true_iff_eq. rewrite !feq_rank. intuition congruence. Qed.

(** ** Decimal text *)

(** The number nearest to [num / den], both positive: enough bits of the
    quotient, and a last one for the rest. *)
Definition of_ratio (num den : Z) : float :=
  let s := Z.max 0 (70 - (Z.log2 num - Z.log2 den)) in
  let q := num * 2 ^ s / den in
  let r := num * 2 ^ s mod den in
  binary_normalize 53 1024 (2 * q + (if r =? 0 then 0 else 1)) (- s - 1) false.

Definition ratio (m : positive) (e : Z) : Z * Z := (Z.pos m * 2 ^ Z.max 0 e, 2 ^ Z.max 0 (- e)).

(** [10 ^ k] as a ratio *)
Definition scaled (num den k : Z) : Z * Z :=
  if 0 <=? k then (num * 10 ^ k, den) else (num, den * 10 ^ (- k)).

(** The least [p] with [num / den < 10 ^ p], searched from below. *)
Fixpoint point_go (fuel : nat) (num den p : Z) : Z :=
  match fuel with
  | O => p
  | S fuel =>
    let '(a, b) := scaled num den (- p) in
    if a <? b then p else point_go fuel num den (p + 1)
  end.
Definition point (num den : Z) : Z :=
  point_go 8 num den ((Z.log2 num - Z.log2 den) * 30103 / 100000 - 2).

(** The decimals of [n] digits on both sides of the number, which read back as it;
    the nearer one where both do. *)
Definition with_digits (x : float) (num den p : Z) (n : Z) : option Z :=
  let '(a, b) := scaled num den (n - p) in
  let down := a / b in
  let up := down + 1 in
  let back d := let '(c, k) := scaled d 1 (p - n) in bool_decide (of_ratio c k = x) in
  match back down && (0 <? down), back up with
  | true, true =>
    let twice := 2 * (a mod b) in
    Some (if twice <? b then down else if b <? twice then up else if Z.even down then down else up)
  | true, false => Some down
  | false, true => Some up
  | false, false => None
  end.

Fixpoint shortest_go (fuel : nat) (x : float) (num den p n : Z) : Z * Z :=
  match fuel with
  | O => (0, n)
  | S fuel =>
    match with_digits x num den p n with
    | Some d => (d, n)
    | None => shortest_go fuel x num den p (n + 1)
    end
  end.

(** The digits of the shortest decimal and the place of its point: 0.d1d2.. times
    ten to that power. *)
Definition shortest (m : positive) (e : Z) : string * Z :=
  let '(num, den) := ratio m e in
  let p := point num den in
  let '(d, n) := shortest_go 17 (S754_finite false m e) num den p 1 in
  let p := if d =? 10 ^ n then p + 1 else p in
  let d := if d =? 10 ^ n then 1 else d in
  (pretty d, p).

Definition zeros (n : Z) : string := string_of_list_ascii (repeat "0"%char (Z.to_nat n)).
Definition slen (s : string) : Z := Z.of_nat (String.length s).
Definition cut (n : Z) (s : string) : string * string :=
  (String.substring 0 (Z.to_nat n) s, String.substring (Z.to_nat n) (String.length s) s).

(** %f *)
Definition fixed (ds : string) (p : Z) : string :=
  if p <=? 0 then ("0." ++ zeros (- p) ++ ds)%string
  else if slen ds <=? p then (ds ++ zeros (p - slen ds))%string
  else let '(a, b) := cut p ds in (a ++ "." ++ b)%string.

(** %e; [two] asks for at least two digits of the exponent *)
Definition scientific (two : bool) (ds : string) (p : Z) : string :=
  let '(a, b) := cut 1 ds in
  let x := p - 1 in
  (a ++ (if (b =? "")%string then "" else "." ++ b) ++ "e" ++ (if (x <? 0)%Z then "-" else "+")
   ++ (if two && (Z.abs x <? 10)%Z then "0" else "") ++ pretty (Z.abs x))%string.

Definition sign_text (s : bool) (t : string) : string := if s then ("-" ++ t)%string else t.

(** [encoding/json]: infinities and NaN are an error. *)
Definition json_float (x : float) : option string :=
  match x with
  | S754_zero s => Some (sign_text s "0")
  | S754_finite s m e =>
    let '(ds, p) := shortest m e in
    Some (sign_text s
      (if (p <=? -6) || (21 <? p) then scientific false ds p else fixed ds p))
  | _ => None
  end.

Definition no_number (x : float) : string :=
  match x with S754_infinity s => if s then "-Inf" else "+Inf" | _ => "NaN" end.

(** %g *)
Definition format_g (x : float) : string :=
  match x with
  | S754_zero s => sign_text s "0"
  | S754_finite s m e =>
    let '(ds, p) := shortest m e in
    sign_text s (if (p - 1 <? -4) || (6 <=? p - 1) then scientific true ds p else fixed ds p)
  | _ => no_number x
  end.

(** %.1f: to the nearest tenth, ties to even *)
Definition format_tenth (x : float) : string :=
  match x with
  | S754_zero s => sign_text s "0.0"
  | S754_finite s m e =>
    let '(num, den) := ratio m e in
    let q := num * 10 / den in
    let twice := 2 * (num * 10 mod den) in
    let q := if twice <? den then q else if den <? twice then q + 1
             else if Z.even q then q else q + 1 in
    sign_text s (pretty (q / 10) ++ "." ++ pretty (q mod 10))
  | _ => no_number x
  end.

Definition tenth : float := fdiv (of_int 1) (of_int 10).
Example texts :
  map json_float [tenth; of_int 3; fadd tenth (fadd tenth tenth); of_ratio 1 1000000; of_ratio 1 10000000;
    of_int (10 ^ 21); of_int 123456789; S754_nan; of_ratio 5 1; fdiv (of_int 1) (of_int 3)]
  = map Some ["0.1"; "3"; "0.30000000000000004"; "0.000001"; "1e-7"; "1e+21"; "123456789"]%string ++ [None]
    ++ map Some ["5"; "0.3333333333333333"]%string
  /\ map format_g [of_int 100000; of_int 1234567; of_ratio 1 100000; tenth; S754_infinity false]
    = ["100000"; "1.234567e+06"; "1e-05"; "0.1"; "+Inf"]%string
  /\ map format_tenth [of_ratio 25 100; of_ratio 35 100; of_int 13; of_ratio 999 100; S754_finite false 1 (-1074)]
    = ["0.2"; "0.3"; "13.0"; "10.0"; "0.0"]%string
  /\ json_float (S754_finite false 1 (-1074)) = Some "5e-324"%string
  /\ json_float (S754_finite false 9007199254740991 971) = Some "1.7976931348623157e+308"%string
  /\ json_float (S754_finite false 4503599627370496 (-97)) = Some "2.842170943040401e-14"%string.
Proof. vm_compute. split_and!; reflexivity. Qed.
