(* ===== verification/GoStd.v ===== *)
(** * The parts of the Go standard library the governance code relies on

    - text: [strings.HasPrefix], [strings.Split], [strings.ContainsAny],
      [strings.TrimSpace], [strings.ToLower] on ASCII, the UTF-8 decoder
      behind [range] and [utf8.ValidString], [unicode.IsControl],
      [filepath.IsAbs], [filepath.Clean] and [filepath.Join] of a Unix host;
    - [crypto/sha256] and [encoding/hex];
    - [encoding/json]'s [Marshal] on the value shapes the code digests, with
      [time.Time] in RFC 3339 form and [[]byte] in base64;
    - unsigned 64-bit arithmetic.

    A Go string is a byte sequence: Rocq's [string].  A [time.Time] is its
    instant as nanoseconds since the zero [time.Time] (1 January of year 1,
    UTC), so [IsZero] is equality with 0, [Before] and [After] are the order
    of integers, and [UTC] and [Round(0)], which only drop the location and
    the monotonic reading, are the identity. *)

From S2P Require Import Prelude Floats.
From stdpp Require Import pretty.
#[local] Open Scope Z_scope.

(** ** Time and machine integers *)

Abbreviation time := Z.

Definition second : Z := 1000000000.
Definition minute : Z := 60 * second.
Definition hour : Z := 60 * minute.

Definition max_uint64 : Z := 2 ^ 64 - 1.
Definition max_int64 : Z := 2 ^ 63 - 1.

(** [x++] on a [uint64] *)
Definition incr_u64 (x : Z) : Z := (x + 1) mod 2 ^ 64.

Lemma incr_u64_small x : 0 <= x < max_uint64 -> incr_u64 x = x + 1.
Proof. unfold max_uint64, incr_u64. intros. apply Z.mod_small. lia. Qed.

(** ** Strings as bytes *)

Definition byte_of (a : ascii) : Z := Z.of_N (N_of_ascii a).
Definition of_byte (z : Z) : ascii := ascii_of_N (Z.to_N z).

Definition bytes_of (s : string) : list Z := map byte_of (list_ascii_of_string s).
Definition string_of_bytes (l : list Z) : string :=
  string_of_list_ascii (map of_byte l).

Definition len (s : string) : Z := Z.of_nat (String.length s).

(** [strings.HasPrefix(s, p)] *)
Definition HasPrefix (s p : string) : bool := String.prefix p s.

(** [strings.HasSuffix(s, p)] *)
Definition HasSuffix (s p : string) : bool :=
  let n := String.length s in
  let k := String.length p in
  (k <=? n)%nat && (String.substring (n - k) k s =? p)%string.

(** [strings.Split(s, sep)] for a one-byte separator: never the empty list. *)
Fixpoint Split (sep : ascii) (s : string) : list string :=
  match s with
  | EmptyString => [""%string]
  | String c s' =>
    if Ascii.eqb c sep then ""%string :: Split sep s'
    else match Split sep s' with
         | w :: ws => String c w :: ws
         | [] => [String c EmptyString]
         end
  end.

(** [strings.ContainsAny(s, chars)] for ASCII [chars] *)
Fixpoint ContainsAny (s : string) (chars : list ascii) : bool :=
  match s with
  | EmptyString => false
  | String c s' => existsb (Ascii.eqb c) chars || ContainsAny s' chars
  end.

(** [strings.Join] *)
Definition Join (sep : string) (l : list string) : string := String.concat sep l.

Definition slash : ascii := "/"%char.
Definition backslash : ascii := "\"%char.
Definition NUL : ascii := of_byte 0.
Definition LF : ascii := of_byte 10.
Definition CR : ascii := of_byte 13.

(** [strings.ToLower] on ASCII letters.  Its callers refuse every string with
    a non-ASCII byte whatever its lower case is. *)
Definition lower (a : ascii) : ascii :=
  let z := byte_of a in if (65 <=? z) && (z <=? 90) then of_byte (z + 32) else a.
Fixpoint ToLower (s : string) : string :=
  match s with EmptyString => EmptyString | String c s' => String (lower c) (ToLower s') end.

(** [strings.ToUpper] as far as equality with an ASCII word can tell: ASCII
    letters, and the two other runes whose upper case is ASCII (dotless i and
    long s). *)
Definition upper (a : ascii) : ascii :=
  let z := byte_of a in if (97 <=? z) && (z <=? 122) then of_byte (z - 32) else a.
Fixpoint ToUpper (s : string) : string :=
  match s with
  | EmptyString => EmptyString
  | String c s' =>
    match s' with
    | String d s'' =>
      if (byte_of c =? 196) && (byte_of d =? 177) then String "I" (ToUpper s'')
      else if (byte_of c =? 197) && (byte_of d =? 191) then String "S" (ToUpper s'')
      else String (upper c) (ToUpper s')
    | EmptyString => String (upper c) EmptyString
    end
  end.

(** ** UTF-8 *)

(** The first rune and its width, as [utf8.DecodeRune]: [None] stands for
    [RuneError] with width 1. *)
Definition cont (b : Z) : bool := (128 <=? b) && (b <=? 191).

Definition decode_rune (l : list Z) : option (Z * nat) :=
  match l with
  | [] => None
  | b0 :: rest =>
    if b0 <? 128 then Some (b0, 1%nat)
    else if (194 <=? b0) && (b0 <=? 223) then
      match rest with
      | b1 :: _ => if cont b1 then Some ((b0 - 192) * 64 + (b1 - 128), 2%nat) else None
      | _ => None
      end
    else if (224 <=? b0) && (b0 <=? 239) then
      match rest with
      | b1 :: b2 :: _ =>
        let lo := if b0 =? 224 then 160 else 128 in
        let hi := if b0 =? 237 then 159 else 191 in
        if (lo <=? b1) && (b1 <=? hi) && cont b2
        then Some ((b0 - 224) * 4096 + (b1 - 128) * 64 + (b2 - 128), 3%nat) else None
      | _ => None
      end
    else if (240 <=? b0) && (b0 <=? 244) then
      match rest with
      | b1 :: b2 :: b3 :: _ =>
        let lo := if b0 =? 240 then 144 else 128 in
        let hi := if b0 =? 244 then 143 else 191 in
        if (lo <=? b1) && (b1 <=? hi) && cont b2 && cont b3
        then Some ((b0 - 240) * 262144 + (b1 - 128) * 4096 + (b2 - 128) * 64 + (b3 - 128), 4%nat)
        else None
      | _ => None
      end
    else None
  end.

(** The runes a [range] loop over the string visits; an invalid byte yields
    [None] and is skipped by one. [fuel] is the number of bytes. *)
Fixpoint runes_go (fuel : nat) (l : list Z) : list (option Z) :=
  match fuel, l with
  | S fuel, _ :: rest =>
    match decode_rune l with
    | Some (r, w) => Some r :: runes_go fuel (drop w l)
    | None => None :: runes_go fuel rest
    end
  | _, _ => []
  end.
Definition runes (s : string) : list (option Z) :=
  runes_go (String.length s) (bytes_of s).

(** [utf8.ValidString] *)
Definition ValidString (s : string) : bool :=
  forallb (fun r => match r with Some _ => true | None => false end) (runes s).

(** [unicode.IsControl] *)
Definition IsControl (r : Z) : bool :=
  (r <=? 31) || ((127 <=? r) && (r <=? 159)).

(** [unicode.IsSpace], as the UTF-8 encodings of the White_Space runes. *)
Definition space_bytes : list (list Z) :=
  [[9]; [10]; [11]; [12]; [13]; [32]; [194; 133]; [194; 160]; [225; 154; 128];
   [226; 128; 128]; [226; 128; 129]; [226; 128; 130]; [226; 128; 131];
   [226; 128; 132]; [226; 128; 133]; [226; 128; 134]; [226; 128; 135];
   [226; 128; 136]; [226; 128; 137]; [226; 128; 138]; [226; 128; 168];
   [226; 128; 169]; [226; 128; 175]; [226; 129; 159]; [227; 128; 128]].

(** The first entry of [ws] that the bytes start with. *)
Fixpoint starts_with (l w : list Z) : bool :=
  match w, l with
  | [], _ => true
  | x :: w', y :: l' => (x =? y) && starts_with l' w'
  | _, [] => false
  end.

(** Drops leading occurrences of the words [ws]; each is non-empty, so the
    length of [l] bounds their number. *)
Fixpoint strip_go (fuel : nat) (ws : list (list Z)) (l : list Z) : list Z :=
  match fuel with
  | O => l
  | S fuel =>
    match List.find (starts_with l) ws with
    | Some w => strip_go fuel ws (drop (List.length w) l)
    | None => l
    end
  end.
Definition strip (ws : list (list Z)) (l : list Z) : list Z :=
  strip_go (List.length l) ws l.

(** [strings.TrimSpace] *)
Definition TrimSpace (s : string) : string :=
  let l := strip space_bytes (bytes_of s) in
  string_of_bytes (rev (strip (map (@rev Z) space_bytes) (rev l))).

(** [strings.TrimSpace(s) == s] *)
Definition trimmed (s : string) : bool := (TrimSpace s =? s)%string.
(** [strings.TrimSpace(s) == ""] *)
Definition blank (s : string) : bool := (TrimSpace s =? "")%string.

(** ** Slash-separated paths *)

(** [filepath.IsAbs] *)
Definition IsAbs (p : string) : bool := HasPrefix p "/".

(** The stack of kept segments, innermost first, after the segment [seg]. *)
Definition clean_step (rooted : bool) (kept : list string) (seg : string) : list string :=
  if (seg =? "")%string || (seg =? ".")%string then kept
  else if (seg =? "..")%string then
    match kept with
    | top :: below => if (top =? "..")%string then seg :: kept else below
    | [] => if rooted then [] else [seg]
    end
  else seg :: kept.

(** [filepath.Clean] *)
Definition Clean (p : string) : string :=
  let rooted := IsAbs p in
  let body := Join "/" (rev (fold_left (clean_step rooted) (Split slash p) [])) in
  if rooted then ("/" ++ body)%string
  else if (body =? "")%string then "."%string else body.

(** [filepath.Join(a, b)] *)
Definition PathJoin (a b : string) : string :=
  if (a =? "")%string then (if (b =? "")%string then ""%string else Clean b)
  else if (b =? "")%string then Clean a
  else Clean (a ++ "/" ++ b)%string.

(** ** encoding/hex *)

Definition hex_digit (z : Z) : ascii := of_byte (if z <? 10 then 48 + z else 87 + z).

(** [hex.EncodeToString] *)
Definition hex_encode (l : list Z) : string :=
  string_of_list_ascii (concat (map (fun b => [hex_digit (b / 16); hex_digit (b mod 16)]) l)).

Definition is_hex (a : ascii) : bool :=
  let z := byte_of a in
  ((48 <=? z) && (z <=? 57)) || ((97 <=? z) && (z <=? 102)) || ((65 <=? z) && (z <=? 70)).

(** [hex.DecodeString] succeeds *)
Definition hex_decodable (s : string) : bool :=
  forallb is_hex (list_ascii_of_string s) && Z.even (len s).

(** ** crypto/sha256 *)

Definition w32 (x : Z) : Z := Z.land x 4294967295.
Definition rotr (x n : Z) : Z :=
  Z.lor (Z.shiftr x n) (w32 (Z.shiftl x (32 - n))).
Definition not32 (x : Z) : Z := Z.lxor x 4294967295.

Definition sha_k : list Z :=
  [1116352408; 1899447441; 3049323471; 3921009573; 961987163; 1508970993; 2453635748;
   2870763221; 3624381080; 310598401; 607225278; 1426881987; 1925078388; 2162078206;
   2614888103; 3248222580; 3835390401; 4022224774; 264347078; 604807628; 770255983;
   1249150122; 1555081692; 1996064986; 2554220882; 2821834349; 2952996808; 3210313671;
   3336571891; 3584528711; 113926993; 338241895; 666307205; 773529912; 1294757372;
   1396182291; 1695183700; 1986661051; 2177026350; 2456956037; 2730485921; 2820302411;
   3259730800; 3345764771; 3516065817; 3600352804; 4094571909; 275423344; 430227734;
   506948616; 659060556; 883997877; 958139571; 1322822218; 1537002063; 1747873779;
   1955562222; 2024104815; 2227730452; 2361852424; 2428436474; 2756734187; 3204031479;
   3329325298].

Definition sha_init : list Z :=
  [1779033703; 3144134277; 1013904242; 2773480762; 1359893119; 2600822924; 528734635;
   1541459225].

Definition be_bytes (n : nat) (x : Z) : list Z :=
  map (fun i => Z.land (Z.shiftr x (8 * Z.of_nat (n - 1 - i))) 255) (seq 0 n).

Definition sha_pad (l : list Z) : list Z :=
  let n := Z.of_nat (List.length l) in
  l ++ [128] ++ repeat 0 (Z.to_nat ((55 - n) mod 64)) ++ be_bytes 8 (8 * n).

(** The schedule, latest word first. *)
Fixpoint sha_extend (n : nat) (w : list Z) : list Z :=
  match n with
  | O => w
  | S n =>
    let a := nth 14 w 0 in
    let b := nth 1 w 0 in
    let s0 := Z.lxor (Z.lxor (rotr a 7) (rotr a 18)) (Z.shiftr a 3) in
    let s1 := Z.lxor (Z.lxor (rotr b 17) (rotr b 19)) (Z.shiftr b 10) in
    sha_extend n (w32 (nth 15 w 0 + s0 + nth 6 w 0 + s1) :: w)
  end.

Definition sha_round (st : list Z) (kw : Z * Z) : list Z :=
  match st with
  | [a; b; c; d; e; f; g; h] =>
    let s1 := Z.lxor (Z.lxor (rotr e 6) (rotr e 11)) (rotr e 25) in
    let ch := Z.lxor (Z.land e f) (Z.land (not32 e) g) in
    let t1 := h + s1 + ch + fst kw + snd kw in
    let s0 := Z.lxor (Z.lxor (rotr a 2) (rotr a 13)) (rotr a 22) in
    let maj := Z.lxor (Z.lxor (Z.land a b) (Z.land a c)) (Z.land b c) in
    [w32 (t1 + s0 + maj); a; b; c; w32 (d + t1); e; f; g]
  | _ => st
  end.

Fixpoint be_words (l : list Z) : list Z :=
  match l with
  | a :: b :: c :: d :: rest => (((a * 256 + b) * 256 + c) * 256 + d) :: be_words rest
  | _ => []
  end.

Definition sha_block (st block : list Z) : list Z :=
  let w := rev (sha_extend 48 (rev (be_words block))) in
  let st' := fold_left sha_round (combine sha_k w) st in
  map (fun p => w32 (fst p + snd p)) (combine st st').

Fixpoint sha_blocks (n : nat) (st l : list Z) : list Z :=
  match n with
  | O => st
  | S n => sha_blocks n (sha_block st (take 64 l)) (drop 64 l)
  end.

(** [sha256.Sum256] *)
Definition sha256 (l : list Z) : list Z :=
  let padded := sha_pad l in
  concat (map (be_bytes 4) (sha_blocks (List.length padded / 64) sha_init padded)).

Definition sha256_hex (s : string) : string := hex_encode (sha256 (bytes_of s)).

Lemma sha_round_length kws st : List.length st = 8%nat -> List.length (fold_left sha_round kws st) = 8%nat.
Proof.
  revert st. induction kws as [| kw kws IH]; intros st H; simpl; [done |]. apply IH.
  unfold sha_round. by repeat (destruct st as [| ? st]; try discriminate H).
Qed.

Lemma sha_blocks_length n st l : List.length st = 8%nat -> List.length (sha_blocks n st l) = 8%nat.
Proof.
  revert st l. induction n as [| n IH]; intros st l H; simpl; [done |]. apply IH.
  unfold sha_block. by rewrite List.length_map, List.length_combine, sha_round_length, H.
Qed.

Lemma concat_map_length {A B} (f : A -> list B) n l :
  (forall x, List.length (f x) = n) -> List.length (concat (map f l)) = (n * List.length l)%nat.
Proof.
  intros H. induction l as [| x l IH]; simpl; [lia |]. rewrite List.length_app, IH, H. lia.
Qed.

Lemma string_of_list_ascii_length l : String.length (string_of_list_ascii l) = List.length l.
Proof. induction l; simpl; congruence. Qed.

(** The digests are 64 digits long, the length the package asks of tokens. *)
Lemma sha256_hex_length s : len (sha256_hex s) = 64.
Proof.
  unfold len, sha256_hex, hex_encode, sha256.
  rewrite string_of_list_ascii_length, (concat_map_length _ 2), (concat_map_length _ 4) by done.
  by rewrite sha_blocks_length.
Qed.

(** FIPS 180-4 vectors, and a two-block message. *)
Example sha256_empty :
  sha256_hex "" = "e3b0c44298fc1c149afbf4c8996fb92427ae41e4649b934ca495991b7852b855"%string.
Proof. vm_compute. reflexivity. Qed.

Example sha256_two_blocks :
  sha256_hex "abcdbcdecdefdefgefghfghighijhijkijkljklmklmnlmnomnopnopq"
  = "248d6a61d20638b8e5c026930c3e6039a33ce45964ff2167f6ecedd419db06c1"%string.
Proof. vm_compute. reflexivity. Qed.

(** ** encoding/json *)

Inductive json :=
  | JNull
  | JBool (b : bool)
  | JInt (z : Z)
  | JFloat (x : float)
  | JString (s : string)
  | JTime (t : time)
  | JBytes (s : string)
  | JArray (l : list json)
  | JObject (l : list (string * json)).

Definition JStrings (l : list string) : json := JArray (map JString l).

Definition quote : string := String (of_byte 34) EmptyString.
Definition hex4 (z : Z) : string :=
  string_of_list_ascii [hex_digit (z / 4096); hex_digit (z / 256 mod 16);
                        hex_digit (z / 16 mod 16); hex_digit (z mod 16)].
Definition u_escape (z : Z) : string := ("\u" ++ hex4 z)%string.

(** One rune of a string literal, from its bytes. HTML characters are escaped. *)
Definition escape_rune (r : Z) (raw : string) : string :=
  if r =? 34 then String backslash quote
  else if r =? 92 then "\\"%string
  else if r =? 8 then "\b"%string
  else if r =? 12 then "\f"%string
  else if r =? 10 then "\n"%string
  else if r =? 13 then "\r"%string
  else if r =? 9 then "\t"%string
  else if (r <? 32) || (r =? 60) || (r =? 62) || (r =? 38) || (r =? 8232) || (r =? 8233)
  then u_escape r
  else raw.

Fixpoint escape_go (fuel : nat) (l : list Z) : string :=
  match fuel, l with
  | S fuel, _ :: rest =>
    match decode_rune l with
    | Some (r, w) => (escape_rune r (string_of_bytes (take w l)) ++ escape_go fuel (drop w l))%string
    | None => ("\ufffd" ++ escape_go fuel rest)%string
    end
  | _, _ => ""%string
  end.
Definition json_string (s : string) : string :=
  (quote ++ escape_go (String.length s) (bytes_of s) ++ quote)%string.

Definition digits_go : Z -> nat -> list ascii -> list ascii :=
  fix go z n acc :=
    match n with O => acc | S n => go (z / 10) n (of_byte (48 + z mod 10) :: acc) end.
(** [z] in decimal on exactly [n] digits *)
Definition digits (n : nat) (z : Z) : string := string_of_list_ascii (digits_go z n []).

Fixpoint drop_zeros (l : list ascii) : list ascii :=
  match l with
  | c :: l' => if Ascii.eqb c "0"%char then drop_zeros l' else l
  | [] => []
  end.
(** The fraction of RFC3339Nano: trailing zeros removed. *)
Definition fraction (ns : Z) : string :=
  if ns =? 0 then ""%string
  else ("." ++ string_of_list_ascii (rev (drop_zeros (rev (digits_go ns 9 [])))))%string.

(** The proleptic Gregorian date of a day number counted from 1 January of
    year 1. *)
Definition civil (days : Z) : Z * Z * Z :=
  let z := days + 306 in
  let era := z / 146097 in
  let doe := z mod 146097 in
  let yoe := (doe - doe / 1460 + doe / 36524 - doe / 146096) / 365 in
  let doy := doe - (365 * yoe + yoe / 4 - yoe / 100) in
  let mp := (5 * doy + 2) / 153 in
  let d := doy - (153 * mp + 2) / 5 + 1 in
  let m := if mp <? 10 then mp + 3 else mp - 9 in
  let y := yoe + era * 400 + (if m <=? 2 then 1 else 0) in
  (y, m, d).

(** [time.Time.MarshalJSON] of a UTC time: years outside [0, 9999] are an error. *)
Definition json_time (t : time) : option string :=
  let sec := t / second in
  let '(y, m, d) := civil (sec / 86400) in
  let sod := sec mod 86400 in
  if (y <? 0) || (9999 <? y) then None
  else Some (quote ++ digits 4 y ++ "-" ++ digits 2 m ++ "-" ++ digits 2 d ++ "T"
             ++ digits 2 (sod / 3600) ++ ":" ++ digits 2 (sod / 60 mod 60) ++ ":"
             ++ digits 2 (sod mod 60) ++ fraction (t mod second) ++ "Z" ++ quote)%string.

Definition b64_digit (z : Z) : ascii :=
  of_byte (if z <? 26 then 65 + z else if z <? 52 then 71 + z
           else if z <? 62 then z - 4 else if z =? 62 then 43 else 47).
Fixpoint base64 (l : list Z) : list ascii :=
  match l with
  | a :: b :: c :: rest =>
    b64_digit (a / 4) :: b64_digit (a mod 4 * 16 + b / 16)
      :: b64_digit (b mod 16 * 4 + c / 64) :: b64_digit (c mod 64) :: base64 rest
  | [a; b] =>
    [b64_digit (a / 4); b64_digit (a mod 4 * 16 + b / 16); b64_digit (b mod 16 * 4); "="%char]
  | [a] => [b64_digit (a / 4); b64_digit (a mod 4 * 16); "="%char; "="%char]
  | [] => []
  end.

(** [json.Marshal]: [None] is its error. *)
Fixpoint marshal (j : json) : option string :=
  match j with
  | JNull => Some "null"%string
  | JBool b => Some (if b then "true" else "false")%string
  | JInt z => Some (pretty z)
  | JFloat x => json_float x
  | JString s => Some (json_string s)
  | JTime t => json_time t
  | JBytes s => Some (quote ++ string_of_list_ascii (base64 (bytes_of s)) ++ quote)%string
  | JArray l =>
    (fix go (first : bool) (l : list json) : option string :=
       match l with
       | [] => Some "]"%string
       | x :: l' =>
         match marshal x, go false l' with
         | Some a, Some b => Some ((if first then "" else ",") ++ a ++ b)%string
         | _, _ => None
         end
       end) true l ≫= (fun body => Some ("[" ++ body)%string)
  | JObject l =>
    (fix go (first : bool) (l : list (string * json)) : option string :=
       match l with
       | [] => Some "}"%string
       | (k, x) :: l' =>
         match marshal x, go false l' with
         | Some a, Some b =>
           Some ((if first then "" else ",") ++ json_string k ++ ":" ++ a ++ b)%string
         | _, _ => None
         end
       end) true l ≫= (fun body => Some ("{" ++ body)%string)
  end.

(** A Go type with its JSON form, the struct fields in declaration order. *)
Class ToJSON (A : Type) := to_json : A -> json.

Example marshal_demo :
  marshal (JObject [("ID", JString "a<b"); ("N", JArray [JInt 3; JNull]);
                    ("At", JTime (1500 * 1000000)); ("B", JBytes "hi")]%string)
  = Some ("{" ++ quote ++ "ID" ++ quote ++ ":" ++ quote ++ "a\u003cb" ++ quote ++ ","
          ++ quote ++ "N" ++ quote ++ ":[3,null],"
          ++ quote ++ "At" ++ quote ++ ":" ++ quote ++ "0001-01-01T00:00:01.5Z" ++ quote ++ ","
          ++ quote ++ "B" ++ quote ++ ":" ++ quote ++ "aGk=" ++ quote ++ "}")%string.
Proof. vm_compute. reflexivity. Qed.
