(* ===== verification/Text.v ===== *)
(** * Text as the workspace files hold it

    Go strings that a file format reads character by character, as lists of
    bytes, with the functions of [strings] the format uses and their lemmas:
    lines and joins, prefixes and searches, [TrimSpace] in its left and right
    halves.  [GoStd] keeps the same functions on [string] for identifiers. *)

From S2P Require Import Prelude GoStd.
#[local] Open Scope Z_scope.

Abbreviation text := (list ascii).

(** A literal. *)
Definition T (s : string) : text := list_ascii_of_string s.

Definition SP : ascii := of_byte 32.
Definition TAB : ascii := of_byte 9.
Definition DQUOTE : ascii := of_byte 34.
Definition SQUOTE : ascii := of_byte 39.

(** ** Searching *)

(** [strings.HasPrefix] *)
Fixpoint has_prefix (p l : text) : bool :=
  match p, l with
  | [], _ => true
  | x :: p, y :: l => Ascii.eqb x y && has_prefix p l
  | _ :: _, [] => false
  end.

(** [strings.HasSuffix] *)
Definition has_suffix (p l : text) : bool := has_prefix (rev p) (rev l).

(** [strings.Index]; [None] is -1 *)
Fixpoint index_sub (sub l : text) : option nat :=
  if has_prefix sub l then Some 0%nat
  else match l with
       | [] => None
       | _ :: l => S <$> index_sub sub l
       end.

(** [strings.IndexByte] *)
Fixpoint index_byte (c : ascii) (l : text) : option nat :=
  match l with
  | [] => None
  | d :: l => if Ascii.eqb d c then Some 0%nat else S <$> index_byte c l
  end.

(** [strings.ContainsAny] for ASCII [chars] *)
Definition contains_any (l chars : text) : bool :=
  existsb (fun c => existsb (Ascii.eqb c) chars) l.

(** ** Lines *)

(** [strings.Split(s, "\n")] *)
Fixpoint lines (l : text) : list text :=
  match l with
  | [] => [[]]
  | c :: l =>
    if Ascii.eqb c LF then [] :: lines l
    else match lines l with
         | w :: ws => (c :: w) :: ws
         | [] => [[c]]
         end
  end.

(** [strings.Join] *)
Fixpoint join (sep : text) (ls : list text) : text :=
  match ls with
  | [] => []
  | [l] => l
  | l :: ls => l ++ sep ++ join sep ls
  end.

(** Every line terminated. *)
Definition unlines (ls : list text) : text := concat (map (fun l => l ++ [LF]) ls).

(** [strings.ReplaceAll(s, "\r\n", "\n")] *)
Fixpoint crlf (l : text) : text :=
  match l with
  | c1 :: l1 =>
    match l1 with
    | c2 :: l2 => if Ascii.eqb c1 CR && Ascii.eqb c2 LF then LF :: crlf l2 else c1 :: crlf l1
    | [] => [c1]
    end
  | [] => []
  end.

(** ** Trimming *)

(** The White_Space runes by the length of their UTF-8 encoding. *)
Definition space1 (a : ascii) : bool :=
  let z := byte_of a in ((9 <=? z) && (z <=? 13)) || (z =? 32).
Definition space2 (a b : ascii) : bool :=
  (byte_of a =? 194) && ((byte_of b =? 133) || (byte_of b =? 160)).
Definition space3 (a b c : ascii) : bool :=
  let x := byte_of a in let y := byte_of b in let z := byte_of c in
  ((x =? 225) && (y =? 154) && (z =? 128))
  || ((x =? 226) && (y =? 128)
      && (((128 <=? z) && (z <=? 138)) || (z =? 168) || (z =? 169) || (z =? 175)))
  || ((x =? 226) && (y =? 129) && (z =? 159))
  || ((x =? 227) && (y =? 128) && (z =? 128)).

(** Drops leading spaces, whose second and third bytes the tests look at. *)
Fixpoint drop_spaces (is2 : ascii -> ascii -> bool) (is3 : ascii -> ascii -> ascii -> bool) (l : text)
    : text :=
  match l with
  | [] => []
  | a :: l1 =>
    if space1 a then drop_spaces is2 is3 l1
    else match l1 with
         | [] => l
         | b :: l2 =>
           if is2 a b then drop_spaces is2 is3 l2
           else match l2 with
                | [] => l
                | c :: l3 => if is3 a b c then drop_spaces is2 is3 l3 else l
                end
         end
  end.

Definition trim_left (l : text) : text := drop_spaces space2 space3 l.
Definition trim_right (l : text) : text :=
  rev (drop_spaces (fun a b => space2 b a) (fun a b c => space3 c b a) (rev l)).

(** [strings.TrimSpace] *)
Definition trim_space (l : text) : text := trim_right (trim_left l).

(** [strings.TrimSpace(l) == ""] *)
Definition is_blank (l : text) : bool := match trim_space l with [] => true | _ => false end.

(** [strings.TrimLeft(s, "\n")] *)
Fixpoint trim_newlines (l : text) : text :=
  match l with
  | c :: l' => if Ascii.eqb c LF then trim_newlines l' else l
  | [] => []
  end.

(** The definitions agree with those on [string]. *)
Example trim_space_agrees :
  forallb (fun s => bool_decide (trim_space (T s) = T (TrimSpace s)))
    [""; " "; " a "; "a b"; "  x	"; String (of_byte 194) (String (of_byte 160) "a");
     ("a" ++ String (of_byte 226) (String (of_byte 128) (String (of_byte 168) "")))]%string = true.
Proof. vm_compute. reflexivity. Qed.

(** ** Lemmas: searching *)

Lemma has_prefix_true p l : has_prefix p l = true <-> exists r, l = p ++ r.
Proof.
  revert l. induction p as [| x p IH]; intros l; simpl; [naive_solver |].
  destruct l as [| y l]; [naive_solver |].
  rewrite andb_true_iff, Ascii.eqb_eq, IH. naive_solver.
Qed.

Lemma has_prefix_app p r : has_prefix p (p ++ r) = true.
Proof. apply has_prefix_true. by exists r. Qed.

Lemma index_byte_Some c l i :
  index_byte c l = Some i <-> exists a b, l = a ++ c :: b /\ c ∉ a /\ List.length a = i.
Proof.
  revert i. induction l as [| d l IH]; intros i; simpl.
  { split; [done |]. intros (a & b & E & _). by destruct a. }
  destruct (Ascii.eqb_spec d c) as [-> | Hne].
  - split.
    + intros [= <-]. exists [], l. split_and!; [done | apply not_elem_of_nil | done].
    + intros (a & b & E & Hn & <-). destruct a as [| x a]; [done |]. injection E as -> _.
      destruct Hn. apply list_elem_of_here.
  - rewrite fmap_Some. split.
    + intros (j & (a & b & -> & Hn & <-)%IH & ->). exists (d :: a), b.
      split_and!; [done | | done]. by apply not_elem_of_cons.
    + intros (a & b & E & Hn & <-). destruct a as [| x a]; [by injection E |].
      injection E as -> ->. exists (List.length a). split; [| done]. apply IH.
      exists a, b. by apply not_elem_of_cons in Hn as [_ ?].
Qed.

Lemma index_byte_app c a b : c ∉ a -> index_byte c (a ++ c :: b) = Some (List.length a).
Proof. intros. apply index_byte_Some. eauto. Qed.

Lemma index_byte_None c l : index_byte c l = None <-> c ∉ l.
Proof.
  induction l as [| d l IH]; simpl; [split; [intros _; apply not_elem_of_nil | done] |].
  destruct (Ascii.eqb_spec d c) as [-> | Hne].
  - split; [done |]. intros H. destruct H. apply list_elem_of_here.
  - rewrite fmap_None, IH, not_elem_of_cons. naive_solver.
Qed.

(** ** Lemmas: lines *)

Lemma lines_not_nil l : lines l <> [].
Proof. destruct l as [| c l]; simpl; [done |]. destruct (Ascii.eqb c LF); [done |]. by destruct (lines l). Qed.

Lemma join_cons sep l ls : ls <> [] -> join sep (l :: ls) = l ++ sep ++ join sep ls.
Proof. by destruct ls. Qed.

Lemma join_lines l : join [LF] (lines l) = l.
Proof.
  induction l as [| c l IH]; simpl; [done |]. pose proof (lines_not_nil l) as Hn.
  destruct (Ascii.eqb_spec c LF) as [-> | _].
  - rewrite join_cons by done. simpl. by rewrite IH.
  - destruct (lines l) as [| w ws]; [done |]. rewrite <- IH. by destruct ws.
Qed.

Lemma lines_no_LF l : Forall (fun w => LF ∉ w) (lines l).
Proof.
  induction l as [| c l IH]; simpl; [repeat constructor; apply not_elem_of_nil |].
  destruct (Ascii.eqb_spec c LF) as [-> | Hne].
  - constructor; [apply not_elem_of_nil | done].
  - destruct IH as [| w ws Hw Hws]; repeat constructor; try done.
    + rewrite not_elem_of_cons. split; [done | apply not_elem_of_nil].
    + by rewrite not_elem_of_cons.
Qed.

(** The first line, by its terminator. *)
Lemma lines_app w l : LF ∉ w -> lines (w ++ LF :: l) = w :: lines l.
Proof.
  induction w as [| c w IH]; simpl; [done |]. rewrite not_elem_of_cons. intros [Hc Hw].
  destruct (Ascii.eqb_spec c LF) as [-> | _]; [done |]. by rewrite IH.
Qed.

Lemma lines_one w : LF ∉ w -> lines w = [w].
Proof.
  induction w as [| c w IH]; simpl; [done |]. rewrite not_elem_of_cons. intros [Hc Hw].
  destruct (Ascii.eqb_spec c LF) as [-> | _]; [done |]. by rewrite IH.
Qed.

Lemma lines_unlines ls l : Forall (fun w => LF ∉ w) ls -> lines (unlines ls ++ l) = ls ++ lines l.
Proof.
  intros H. induction H as [| w ls Hw _ IH]; [done |]. unfold unlines in *. simpl.
  rewrite <- !app_assoc. simpl. by rewrite lines_app, IH.
Qed.

Lemma unlines_app ls1 ls2 : unlines (ls1 ++ ls2) = unlines ls1 ++ unlines ls2.
Proof. unfold unlines. by rewrite map_app, concat_app. Qed.

Lemma unlines_join ls : ls <> [] -> unlines ls = join [LF] ls ++ [LF].
Proof.
  induction ls as [| l ls IH]; [done |]. intros _. unfold unlines in *. simpl.
  destruct ls as [| l2 ls]; [by rewrite app_nil_r |].
  rewrite IH by done. simpl. by rewrite <- !app_assoc.
Qed.

Lemma join_inj ls1 ls2 :
  ls1 <> [] -> ls2 <> [] -> Forall (fun w => LF ∉ w) ls1 -> Forall (fun w => LF ∉ w) ls2 ->
  join [LF] ls1 = join [LF] ls2 -> ls1 = ls2.
Proof.
  intros H1 H2 F1 F2 E. assert (unlines ls1 ++ [] = unlines ls2 ++ []) as E2.
  { by rewrite !app_nil_r, !unlines_join, E by done. }
  apply (f_equal lines) in E2. rewrite !lines_unlines in E2 by done. by apply app_inj_tail in E2 as [? _].
Qed.

Lemma lines_join ls : ls <> [] -> Forall (fun w => LF ∉ w) ls -> lines (join [LF] ls) = ls.
Proof.
  intros Hne HF. apply join_inj; [apply lines_not_nil | done | apply lines_no_LF | done |].
  apply join_lines.
Qed.

Lemma crlf_id l : CR ∉ l -> crlf l = l.
Proof.
  assert (forall n l, (List.length l <= n)%nat -> CR ∉ l -> crlf l = l) as H; [| by eapply H].
  clear l. induction n as [| n IH]; intros l Hl Hn.
  { by destruct l; simpl in Hl; [| lia]. }
  destruct l as [| a [| b l]]; [done | done |]. simpl in Hl. rewrite !not_elem_of_cons in Hn.
  destruct Hn as (Ha & Hb & Hn). change (crlf (a :: b :: l)) with
    (if Ascii.eqb a CR && Ascii.eqb b LF then LF :: crlf l else a :: crlf (b :: l)).
  destruct (Ascii.eqb_spec a CR) as [-> | _]; [done |]. simpl andb. cbv iota.
  rewrite IH; [done | simpl; lia |]. by rewrite not_elem_of_cons.
Qed.

(** ** Lemmas: trimming *)

Section drop_spaces.
Context (is2 : ascii -> ascii -> bool) (is3 : ascii -> ascii -> ascii -> bool).
#[local] Notation drop_ws := (drop_spaces is2 is3).

(** The text starts with a space. *)
Definition starts_space (l : text) : bool :=
  match l with
  | a :: l1 => space1 a || match l1 with
                           | b :: l2 => is2 a b || match l2 with c :: _ => is3 a b c | [] => false end
                           | [] => false
                           end
  | [] => false
  end.

Lemma drop_spaces_stop l : starts_space l = false -> drop_ws l = l.
Proof.
  destruct l as [| a l1]; [done |]. simpl. intros [-> H]%orb_false_iff.
  destruct l1 as [| b l2]; [done |]. apply orb_false_iff in H as [-> H].
  destruct l2 as [| c l3]; [done |]. by rewrite H.
Qed.

Lemma drop_spaces_spec l : (exists pre, l = pre ++ drop_ws l) /\ starts_space (drop_ws l) = false.
Proof.
  assert (forall n l, (List.length l <= n)%nat ->
    (exists pre, l = pre ++ drop_ws l) /\ starts_space (drop_ws l) = false) as H; [| by eapply H].
  clear l. induction n as [| n IH]; intros l Hl.
  { destruct l; simpl in Hl; [| lia]. split; [by exists [] | done]. }
  destruct (starts_space l) eqn:Hs.
  2: { rewrite drop_spaces_stop by done. split; [by exists [] | done]. }
  destruct l as [| a l1]; [done |]. simpl in Hl, Hs |- *. destruct (space1 a); simpl in Hs.
  { destruct (IH l1 ltac:(lia)) as [[pre Hp] ?]. split; [| done]. exists (a :: pre).
    simpl. by rewrite <- Hp. }
  destruct l1 as [| b l2]; [done |]. simpl in Hl. destruct (is2 a b); simpl in Hs.
  { destruct (IH l2 ltac:(lia)) as [[pre Hp] ?]. split; [| done]. exists (a :: b :: pre).
    simpl. by rewrite <- Hp. }
  destruct l2 as [| c l3]; [done |]. simpl in Hl. rewrite Hs.
  destruct (IH l3 ltac:(lia)) as [[pre Hp] ?]. split; [| done]. exists (a :: b :: c :: pre).
  simpl. by rewrite <- Hp.
Qed.

Lemma drop_spaces_fix l : drop_ws l = l <-> starts_space l = false.
Proof.
  split; [| apply drop_spaces_stop]. intros <-. apply drop_spaces_spec.
Qed.

Lemma drop_spaces_idemp l : drop_ws (drop_ws l) = drop_ws l.
Proof. apply drop_spaces_stop, drop_spaces_spec. Qed.

Lemma starts_space_app p r : starts_space (p ++ r) = false -> starts_space p = false.
Proof.
  destruct p as [| a [| b [| c p]]]; simpl; [done | | | done].
  - by intros [-> _]%orb_false_iff.
  - intros [-> [-> _]%orb_false_iff]%orb_false_iff. done.
Qed.

(** A byte that is no part of a space. *)
Definition barrier (c : ascii) : Prop :=
  space1 c = false /\ (forall x, is2 x c = false /\ is2 c x = false)
  /\ (forall x y, is3 c x y = false /\ is3 x c y = false /\ is3 x y c = false).

Lemma drop_spaces_barrier p c r : barrier c -> drop_ws (p ++ c :: r) = drop_ws p ++ c :: r.
Proof.
  intros (H1 & H2 & H3).
  assert (forall n p, (List.length p <= n)%nat -> drop_ws (p ++ c :: r) = drop_ws p ++ c :: r) as H;
    [| by eapply H].
  clear p. assert (drop_ws (c :: r) = c :: r) as Hc.
  { apply drop_spaces_stop. simpl. rewrite H1. destruct r as [| x [| y r]]; simpl; [done | |].
    - by destruct (H2 x) as [_ ->].
    - destruct (H2 x) as [_ ->]. by destruct (H3 x y) as [-> _]. }
  induction n as [| n IH]; intros p Hp.
  { by destruct p; simpl in Hp; [| lia]. }
  destruct p as [| a p1]; [done |]. simpl in Hp. cbn [app drop_spaces].
  destruct (space1 a); [apply IH; lia |]. destruct p1 as [| b p2]; cbn [app].
  - destruct (H2 a) as [-> _]. destruct r as [| x r]; [done |]. by destruct (H3 a x) as (_ & -> & _).
  - destruct (is2 a b); [apply IH; simpl in Hp; lia |]. destruct p2 as [| d p3]; cbn [app].
    + by destruct (H3 a b) as (_ & _ & ->).
    + destruct (is3 a b d); [apply IH; simpl in Hp; lia | done].
Qed.
End drop_spaces.

#[local] Notation right2 := (fun a b => space2 b a).
#[local] Notation right3 := (fun a b c => space3 c b a).

(** No ASCII character but the spaces is part of one. *)
Definition solid (c : ascii) : bool := negb (space1 c) && (byte_of c <? 128).

Lemma solid_barrier c : solid c = true -> barrier space2 space3 c /\ barrier right2 right3 c.
Proof.
  unfold solid. rewrite andb_true_iff, negb_true_iff, Z.ltb_lt. intros [H1 H2].
  assert (forall k, 128 <= k -> (byte_of c =? k) = false) as E by (intros; apply Z.eqb_neq; lia).
  assert (forall x, space2 x c = false /\ space2 c x = false) as S2.
  { intros x. unfold space2. rewrite !E by lia. simpl. by rewrite andb_false_r. }
  assert ((128 <=? byte_of c) = false) as E2 by (apply Z.leb_gt; lia).
  assert (forall x y, space3 c x y = false /\ space3 x c y = false /\ space3 x y c = false) as S3.
  { intros x y. unfold space3. rewrite !E by lia. rewrite E2. simpl.
    by rewrite !andb_false_r, ?andb_false_l. }
  split; (split; [done |]); (split; [intros x; by destruct (S2 x) | intros x y; by destruct (S3 x y) as (? & ? & ?); destruct (S3 y x) as (? & ? & ?)]).
Qed.

Lemma trim_left_solid p c r : solid c = true -> trim_left (p ++ c :: r) = trim_left p ++ c :: r.
Proof. intros [H _]%solid_barrier. by apply drop_spaces_barrier. Qed.

Lemma trim_right_solid p c r : solid c = true -> trim_right (p ++ c :: r) = p ++ c :: trim_right r.
Proof.
  intros [_ H]%solid_barrier. unfold trim_right. rewrite rev_app_distr. simpl. rewrite <- app_assoc. simpl.
  rewrite drop_spaces_barrier by done. rewrite rev_app_distr. simpl. by rewrite rev_involutive, <- app_assoc.
Qed.

Lemma trim_left_spec l : (exists pre, l = pre ++ trim_left l) /\ trim_left (trim_left l) = trim_left l.
Proof. split; [apply drop_spaces_spec | apply drop_spaces_idemp]. Qed.

Lemma trim_right_spec l : (exists post, l = trim_right l ++ post) /\ trim_right (trim_right l) = trim_right l.
Proof.
  unfold trim_right. split.
  - destruct (proj1 (drop_spaces_spec right2 right3 (rev l))) as [pre H]. exists (rev pre).
    by rewrite <- rev_app_distr, <- H, rev_involutive.
  - by rewrite rev_involutive, drop_spaces_idemp.
Qed.

(** No space at either end. *)
Definition tight (l : text) : Prop := trim_space l = l.
#[export] Instance tight_dec l : Decision (tight l) := decide (trim_space l = l).

Lemma tight_iff l : tight l <-> trim_left l = l /\ trim_right l = l.
Proof.
  unfold tight, trim_space. split; [| by intros [-> ->]]. intros H.
  destruct (trim_left_spec l) as [[pre Hl] _]. destruct (trim_right_spec (trim_left l)) as [[post Hr] Hi].
  rewrite H in Hr, Hi. rewrite Hr in Hl. apply (f_equal (@List.length _)) in Hl as Hlen.
  rewrite !length_app in Hlen. destruct pre; simpl in Hlen; [| lia]. destruct post; simpl in Hlen; [| lia].
  rewrite app_nil_r in *. by rewrite Hr.
Qed.

Lemma trim_space_tight l : tight (trim_space l).
Proof.
  apply tight_iff. unfold trim_space. destruct (trim_right_spec (trim_left l)) as [[post Hr] Hi].
  split; [| done]. apply drop_spaces_stop. apply (starts_space_app _ _ _ post). rewrite <- Hr.
  apply (drop_spaces_fix space2 space3). apply trim_left_spec.
Qed.

Lemma tight_nil : tight [].
Proof. done. Qed.

Lemma trim_space_SP l : trim_space (SP :: l) = trim_space l.
Proof. done. Qed.

Lemma tight_head c l : tight (c :: l) -> space1 c = false.
Proof. intros [H _]%tight_iff. apply drop_spaces_fix in H. by apply orb_false_iff in H as [? _]. Qed.

(** A tight text before a solid character. *)
Lemma trim_space_after k c r : tight k -> solid c = true -> trim_space (k ++ c :: r) = k ++ c :: trim_right r.
Proof.
  intros [Hk _]%tight_iff Hc. unfold trim_space. by rewrite trim_left_solid, Hk, trim_right_solid.
Qed.

Lemma solid_not_blank p c r : solid c = true -> is_blank (p ++ c :: r) = false.
Proof.
  intros Hc. unfold is_blank, trim_space. rewrite trim_left_solid, trim_right_solid by done.
  by destruct (trim_left p).
Qed.

Lemma is_blank_true l : is_blank l = true <-> trim_space l = [].
Proof. unfold is_blank. by destruct (trim_space l). Qed.

Lemma is_blank_false l : is_blank l = false <-> trim_space l <> [].
Proof. unfold is_blank. by destruct (trim_space l). Qed.

#[global] Arguments trim_space : simpl never.
#[global] Arguments trim_left : simpl never.
#[global] Arguments trim_right : simpl never.
#[global] Arguments is_blank : simpl never.
#[global] Arguments space1 : simpl never.
#[global] Arguments lines : simpl nomatch.
#[global] Arguments Ascii.eqb : simpl nomatch.
