(* ===== verification/Files.v ===== *)
(** * One directory of files, under faults and crashes

    A file system is one directory: what processes see, and what a crash may bring
    back.  As the operations are documented: the bytes of a file survive a crash
    once the file is synced, a directory entry once the directory is, and before
    that any of the versions since may come back, name by name; a rename is atomic.
    The second half follows the replacement of a file through a temporary one,
    whatever program makes it: the stages it goes through, and that a crash at any
    of them leaves the old content or the whole new one ([stage_safe],
    [safe_crash]).  [Durable] and [Storage] are its two uses. *)

From S2P Require Import Prelude GoStd Text.

(** ** File systems *)

Record inode := mkInode { bytes : text; synced : bool; mode : Z }.

Record fs := mkFs {
  made : bool;                        (* the directory exists *)
  kept : bool;                        (* its entry in its parent is synced *)
  entries : gmap string nat;
  pending : list (gmap string nat);   (* the versions a crash may bring back *)
  inodes : gmap nat inode;
  next_inode : nat
}.

(** What a process reads under a name. *)
Definition read (s : fs) (n : string) : option text := i ← entries s !! n; bytes <$> inodes s !! i.

(** What the entry of a name in the version [v] gives back: the bytes if they are
    synced, any bytes otherwise. *)
Definition entry_recovered (s : fs) (v : gmap string nat) (n : string) (t : option text) : Prop :=
  match v !! n, t with
  | None, None => True
  | Some i, Some t => forall x, inodes s !! i = Some x -> synced x = true -> t = bytes x
  | _, _ => False
  end.

(** What may be there under a name after a crash: its entry in some version. *)
Definition recovered (s : fs) (n : string) (t : option text) : Prop :=
  exists v, v ∈ pending s /\ entry_recovered s v n t.

(** The files a crash may leave.  A directory whose own entry is not synced may
    be lost as a whole. *)
Definition crash (s : fs) (after : gmap string text) : Prop :=
  kept s = false /\ after = ∅ \/ forall n, recovered s n (after !! n).

(** ** The operations *)

(** A new version of the directory, not synced yet. *)
Definition publish (d : gmap string nat) (s : fs) : fs :=
  mkFs (made s) (kept s) d (d :: pending s) (inodes s) (next_inode s).

Definition set_inode (i : nat) (x : inode) (s : fs) : fs :=
  mkFs (made s) (kept s) (entries s) (pending s) (<[i := x]> (inodes s)) (next_inode s).

Definition mkdir_all (s : fs) : fs :=
  if made s then s else mkFs true false (entries s) (pending s) (inodes s) (next_inode s).

Definition create_temp (tmp : string) (s : fs) : fs :=
  let s' := publish (<[tmp := next_inode s]> (entries s)) s in
  mkFs (made s') (kept s') (entries s') (pending s') (<[next_inode s := mkInode [] false 384]> (inodes s)) (S (next_inode s)).

Definition write_to (i : nat) (data : text) (s : fs) : fs :=
  match inodes s !! i with Some x => set_inode i (mkInode (bytes x ++ data) false (mode x)) s | None => s end.

Definition chmod (name : string) (m : Z) (s : fs) : fs :=
  match entries s !! name with
  | Some i => match inodes s !! i with
              | Some x => set_inode i (mkInode (bytes x) (synced x) m) s
              | None => s
              end
  | None => s
  end.

Definition sync (i : nat) (s : fs) : fs :=
  match inodes s !! i with Some x => set_inode i (mkInode (bytes x) true (mode x)) s | None => s end.

Definition rename (old new : string) (s : fs) : fs :=
  match entries s !! old with
  | Some i => publish (<[new := i]> (delete old (entries s))) s
  | None => s
  end.

Definition remove (name : string) (s : fs) : fs :=
  match entries s !! name with Some _ => publish (delete name (entries s)) s | None => s end.

Definition sync_dir (s : fs) : fs := mkFs (made s) (kept s) (entries s) [entries s] (inodes s) (next_inode s).

(** The file system now and every state it went through, latest first. *)
Record world := mkWorld { here : fs; past : list fs }.
Definition advance (f : fs -> fs) (w : world) : world := mkWorld (f (here w)) (here w :: past w).
Definition states (w : world) : list fs := here w :: past w.

(** A directory at rest: it exists and all of it would survive a crash. *)
Record at_rest (s : fs) : Prop := {
  rest_made : made s = true;
  rest_kept : kept s = true;
  rest_pending : pending s = [entries s];
  rest_synced n i : entries s !! n = Some i -> exists x, inodes s !! i = Some x /\ synced x = true /\ (i < next_inode s)%nat
}.

(** ** A replacement, by stages *)

Section replacement.
Context (tmp path : string) (data : text) (m : Z) (s0 : fs).

(** The file that is written, in its last state; the directory with it under the
    temporary name, and under the final one. *)
Definition fd : nat := next_inode s0.
Definition done_inode : inode := mkInode data true m.
Definition with_temp : gmap string nat := <[tmp := fd]> (entries s0).
Definition with_new : gmap string nat := <[path := fd]> (delete tmp with_temp).

(** The shape of every state: the directory [e] over the versions [vs], with
    the file [x] on top of what there was. *)
Definition shape (e : gmap string nat) (vs : list (gmap string nat)) (x : option inode) (s : fs) : Prop :=
  kept s = true /\ made s = true /\ entries s = e /\ pending s = vs
  /\ inodes s = (match x with Some x => <[fd := x]> (inodes s0) | None => inodes s0 end)
  /\ next_inode s = (if x then S fd else fd).

(** Every version of the directory holds the old files, and under [path] the old
    one or the whole new one. *)
Definition version_ok (s : fs) (v : gmap string nat) : Prop :=
  forall n, n <> tmp -> v !! n = entries s0 !! n \/ n = path /\ v !! n = Some fd /\ inodes s !! fd = Some done_inode.

Definition safe (s : fs) : Prop :=
  kept s = true /\ (forall n i, entries s0 !! n = Some i -> inodes s !! i = inodes s0 !! i)
  /\ version_ok s (entries s) /\ Forall (version_ok s) (pending s).

(** The stages of a run. *)
Inductive stage := Old | Temp (x : inode) | Removed (x : inode) | Moved | Final.

Definition at_stage (g : stage) (s : fs) : Prop :=
  match g with
  | Old => shape (entries s0) [entries s0] None s
  | Temp x => shape with_temp [with_temp; entries s0] (Some x) s
  | Removed x => shape (delete tmp with_temp) [delete tmp with_temp; with_temp; entries s0] (Some x) s
  | Moved => shape with_new [with_new; with_temp; entries s0] (Some done_inode) s
  | Final => shape with_new [with_new] (Some done_inode) s
  end.

Hypothesis Hrest : at_rest s0.
Hypothesis Hfresh : entries s0 !! tmp = None.

Lemma old_version s : version_ok s (entries s0).
Proof. by left. Qed.
Lemma temp_version s : version_ok s with_temp.
Proof. intros n Hn. left. unfold with_temp. by rewrite lookup_insert_ne. Qed.
Lemma removed_version s : version_ok s (delete tmp with_temp).
Proof. intros n Hn. left. unfold with_temp. by rewrite lookup_delete_ne, lookup_insert_ne. Qed.
Lemma new_version s : inodes s !! fd = Some done_inode -> version_ok s with_new.
Proof.
  intros Hi n Hn. unfold with_new. destruct (decide (n = path)) as [-> | Hp].
  - right. by rewrite lookup_insert_eq.
  - left. rewrite lookup_insert_ne by done. by apply removed_version || (unfold with_temp; rewrite lookup_delete_ne, lookup_insert_ne).
Qed.

Lemma old_inode x n i : entries s0 !! n = Some i -> <[fd := x]> (inodes s0) !! i = inodes s0 !! i.
Proof.
  intros Hn. destruct (rest_synced _ Hrest _ _ Hn) as (y & Hy & _ & Hlt).
  rewrite lookup_insert_ne; [done |]. unfold fd. lia.
Qed.

Lemma shape_safe e vs x s :
  shape e vs x s -> version_ok s e -> Forall (version_ok s) vs -> safe s.
Proof.
  intros (Hk & _ & He & Hv & Hi & _) H1 H2. subst. repeat split; [done | | done | done].
  intros n i Hn. rewrite Hi. destruct x; [| done]. by eapply old_inode.
Qed.

#[local] Hint Resolve old_version temp_version removed_version : durable.

Lemma stage_safe g s : at_stage g s -> safe s.
Proof.
  assert (forall e vs, shape e vs (Some done_inode) s -> version_ok s with_new) as Hnew.
  { intros e vs (_ & _ & _ & _ & Hi & _). apply new_version. by rewrite Hi, lookup_insert_eq. }
  destruct g; intros H; cbn [at_stage] in H;
    (eapply shape_safe; [exact H | | repeat apply Forall_cons_2]); eauto with durable.
Qed.

Lemma removed_entries : delete tmp with_temp = entries s0.
Proof. unfold with_temp. by rewrite delete_insert_id. Qed.

Lemma read_old x s vs : shape (entries s0) vs x s -> read s path = read s0 path.
Proof.
  intros (_ & _ & He & _ & Hi & _). unfold read. rewrite He. destruct (entries s0 !! path) as [i |] eqn:E; [| done].
  simpl. rewrite Hi. destruct x; [| done]. by rewrite (old_inode _ _ _ E).
Qed.

Lemma read_new s vs : shape with_new vs (Some done_inode) s -> read s path = Some data.
Proof.
  intros (_ & _ & He & _ & Hi & _). unfold read, with_new in *. rewrite He, lookup_insert_eq. simpl.
  by rewrite Hi, lookup_insert_eq.
Qed.

Lemma stage_temp_entry s x : at_stage (Temp x) s -> entries s !! tmp = Some fd /\ inodes s !! fd = Some x.
Proof. intros (_ & _ & -> & _ & -> & _). unfold with_temp. by rewrite !lookup_insert_eq. Qed.

Lemma set_temp x y s : at_stage (Temp x) s -> at_stage (Temp y) (set_inode fd y s).
Proof. intros (? & ? & ? & ? & Hi & ?). unfold at_stage, shape, set_inode. simpl. by rewrite Hi, insert_insert_eq. Qed.

Lemma write_stage x d s :
  at_stage (Temp x) s -> at_stage (Temp (mkInode (bytes x ++ d) false (mode x))) (write_to fd d s).
Proof. intros H. unfold write_to. destruct (stage_temp_entry _ _ H) as [_ ->]. by apply (set_temp x). Qed.

Lemma chmod_stage x s : at_stage (Temp x) s -> at_stage (Temp (mkInode (bytes x) (synced x) m)) (chmod tmp m s).
Proof. intros H. unfold chmod. destruct (stage_temp_entry _ _ H) as [-> ->]. by apply (set_temp x). Qed.

Lemma sync_stage x s : at_stage (Temp x) s -> at_stage (Temp (mkInode (bytes x) true (mode x))) (sync fd s).
Proof. intros H. unfold sync. destruct (stage_temp_entry _ _ H) as [_ ->]. by apply (set_temp x). Qed.

Lemma create_stage s : at_stage Old s -> at_stage (Temp (mkInode [] false 384)) (create_temp tmp s).
Proof.
  intros (? & ? & He & Hv & Hi & Hn). unfold at_stage, shape, create_temp, publish. simpl.
  by rewrite He, Hv, Hi, Hn.
Qed.

Lemma rename_stage s : at_stage (Temp done_inode) s -> at_stage Moved (rename tmp path s).
Proof.
  intros H. unfold rename. destruct (stage_temp_entry _ _ H) as [-> _].
  destruct H as (? & ? & He & Hv & ? & ?). unfold at_stage, shape, publish. simpl. by rewrite He, Hv.
Qed.

Lemma mkdir_stage s : at_stage Old s -> at_stage Old (mkdir_all s).
Proof. intros H. unfold mkdir_all. pose proof H as (_ & -> & _). done. Qed.

Lemma sync_dir_stage s : at_stage Moved s -> at_stage Final (sync_dir s).
Proof. intros (? & ? & He & Hv & ? & ?). unfold at_stage, shape, sync_dir. simpl. by rewrite He. Qed.

Lemma remove_stage x s : at_stage (Temp x) s -> at_stage (Removed x) (remove tmp s).
Proof.
  intros H. unfold remove. destruct (stage_temp_entry _ _ H) as [-> _].
  destruct H as (? & ? & He & Hv & ? & ?). unfold at_stage, shape, publish. simpl. by rewrite He, Hv.
Qed.

(** Once it has its final name there is no temporary file to remove. *)
Lemma remove_moved g s : path <> tmp -> g = Moved \/ g = Final -> at_stage g s -> remove tmp s = s.
Proof.
  intros Hp Hg H. assert (entries s = with_new) as E by by destruct Hg as [-> | ->]; destruct H as (_ & _ & -> & _).
  unfold remove. rewrite E. unfold with_new. by rewrite lookup_insert_ne, lookup_delete_eq.
Qed.

Lemma start_stage : at_stage Old s0.
Proof. destruct Hrest. by split_and!. Qed.

Lemma old_read s v n t :
  safe s -> v !! n = entries s0 !! n ->
  entry_recovered s v n t -> t = read s0 n.
Proof.
  intros (_ & Hold & _) E H. unfold entry_recovered in H. rewrite E in H. unfold read.
  destruct (entries s0 !! n) as [i |] eqn:E0; destruct t as [t |]; try done. simpl.
  destruct (rest_synced _ Hrest _ _ E0) as (x & Hx & Hs & _). rewrite Hx. simpl. f_equal.
  apply H; [by rewrite (Hold _ _ E0) | done].
Qed.

Lemma version_read s v n t :
  safe s -> version_ok s v -> n <> tmp ->
  entry_recovered s v n t -> t = read s0 n \/ n = path /\ t = Some data.
Proof.
  intros Hsafe Hv Hn H. destruct (Hv n Hn) as [E | (-> & E & Hi)]; [left; by eapply old_read |].
  right. unfold entry_recovered in H. rewrite E in H. destruct t as [t |]; [| done]. split; [done |]. f_equal. by apply (H _ Hi).
Qed.

Lemma safe_crash s after n :
  safe s -> crash s after -> n <> tmp -> after !! n = read s0 n \/ n = path /\ after !! n = Some data.
Proof.
  intros Hs [[Hk _] | Hc] Hn; [by destruct Hs; congruence |]. destruct (Hc n) as (v & Hv & H).
  eapply version_read; [exact Hs | | exact Hn | exact H]. destruct Hs as (_ & _ & _ & Hp).
  eapply Forall_forall; [exact Hp | by apply list_elem_of_In].
Qed.

Lemma safe_read s n : safe s -> n <> tmp -> read s n = read s0 n \/ n = path /\ read s n = Some data.
Proof.
  intros Hs Hn. destruct Hs as (Hk & Hold & He & Hp). destruct (He n Hn) as [E | (-> & E & Hi)]; unfold read.
  - left. rewrite E. destruct (entries s0 !! n) as [i |] eqn:E0; [| done]. simpl. by rewrite (Hold _ _ E0).
  - right. rewrite E. simpl. by rewrite Hi.
Qed.
(** Before the file has its final name nothing but the temporary file is there
    besides the old files, whatever a crash brings back. *)
Definition unmoved (g : stage) : Prop := match g with Old | Temp _ | Removed _ => True | Moved | Final => False end.

Lemma unmoved_keeps g s n :
  unmoved g -> at_stage g s -> n <> tmp ->
  read s n = read s0 n /\ forall after, crash s after -> after !! n = read s0 n.
Proof.
  intros Hg H Hn. pose proof (stage_safe _ _ H) as Hsafe.
  assert (forall v, v = entries s \/ v ∈ pending s -> v !! n = entries s0 !! n) as Hv.
  { assert (with_temp !! n = entries s0 !! n /\ delete tmp with_temp !! n = entries s0 !! n) as [E1 E2].
    { unfold with_temp. by rewrite lookup_delete_ne, lookup_insert_ne. }
    destruct g; try done; destruct H as (_ & _ & -> & -> & _); intros v Hv; rewrite !elem_of_cons, elem_of_nil in Hv;
      naive_solver. }
  split.
  - pose proof (Hv _ (or_introl eq_refl)) as E. unfold read. rewrite E. destruct (entries s0 !! n) as [i |] eqn:E0; [| done].
    simpl. destruct Hsafe as (_ & Hold & _). by rewrite (Hold _ _ E0).
  - intros after [[Hk _] | Hc]; [by destruct Hsafe; congruence |]. destruct (Hc n) as (v & Hp & Hr).
    eapply old_read; [done | by apply Hv; right | exact Hr].
Qed.

(** A finished replacement leaves a directory at rest, which every crash keeps. *)
Lemma final_at_rest s : at_stage Final s -> at_rest s.
Proof.
  intros (Hk & Hm & He & Hp & Hi & Hn). split; [done | done | congruence |]. intros n i. rewrite He, Hi, Hn.
  unfold with_new. intros [[<- <-] | [Hne Hl]]%lookup_insert_Some.
  - exists done_inode. rewrite lookup_insert_eq. split_and!; [done | done | lia].
  - apply lookup_delete_Some in Hl as [Ht Hl]. unfold with_temp in Hl. rewrite lookup_insert_ne in Hl by done.
    rewrite (old_inode _ _ _ Hl). destruct (rest_synced _ Hrest _ _ Hl) as (x & ? & ? & ?). exists x.
    split_and!; [done | done | unfold fd; lia].
Qed.
End replacement.

(** A crash takes nothing of a directory at rest. *)
Lemma rest_crash s after n : at_rest s -> crash s after -> after !! n = read s n.
Proof.
  intros Hr [[Hk _] | Hc]; [by rewrite (rest_kept _ Hr) in Hk |]. destruct (Hc n) as (v & Hv & H).
  rewrite (rest_pending _ Hr) in Hv. apply list_elem_of_singleton in Hv as ->. unfold read. unfold entry_recovered in H.
  destruct (entries s !! n) as [i |] eqn:E; destruct (after !! n) as [t |]; try done. simpl.
  destruct (rest_synced _ Hr _ _ E) as (x & Hx & Hs & _). rewrite Hx. simpl. f_equal. by apply H.
Qed.
