(* ===== verification/Runes.v ===== *)
(** * Runes and sorts of the Go standard library

    The pieces of packages unicode, strings and sort that depend on more than
    ASCII or on the order of equal elements.  The tables of package unicode are
    the parameter [Unicode]: the lower and upper case of a rune, the
    representative of its case-folding orbit, and whether it is printed as it is.
    [sort.SliceStable] is insertion, as the library does up to twenty elements;
    where the order is total the result is the only stable one. *)

From S2P Require Import Prelude GoStd Text.
#[local] Open Scope Z_scope.

Record Unicode := mkUnicode { to_lower : Z -> Z; to_upper : Z -> Z; fold : Z -> Z; is_print : Z -> bool }.

(** ** Runes and words *)

(** The runes of a string with their bytes; an invalid byte is [RuneError]. *)
Fixpoint raw_runes_go (fuel : nat) (l : list Z) : list (Z * list Z) :=
  match fuel, l with
  | S fuel, b :: rest =>
    match decode_rune l with
    | Some (r, w) => (r, take w l) :: raw_runes_go fuel (drop w l)
    | None => (65533, [b]) :: raw_runes_go fuel rest
    end
  | _, _ => []
  end.
Definition raw_runes (s : string) : list (Z * list Z) := raw_runes_go (String.length s) (bytes_of s).
Definition of_raw (l : list (Z * list Z)) : string := string_of_bytes (concat (map snd l)).

(** [utf8.EncodeRune] *)
Definition encode_rune (r : Z) : list Z :=
  if r <? 128 then [r]
  else if r <? 2048 then [192 + r / 64; 128 + r mod 64]
  else if r <? 65536 then [224 + r / 4096; 128 + r / 64 mod 64; 128 + r mod 64]
  else [240 + r / 262144; 128 + r / 4096 mod 64; 128 + r / 64 mod 64; 128 + r mod 64].

(** [unicode.IsSpace] *)
Definition IsSpace (r : Z) : bool :=
  ((9 <=? r) && (r <=? 13)) || (r =? 32) || (r =? 133) || (r =? 160) || (r =? 5760)
  || ((8192 <=? r) && (r <=? 8202)) || (r =? 8232) || (r =? 8233) || (r =? 8239) || (r =? 8287)
  || (r =? 12288).

(** [strings.Contains] *)
Definition Contains (s sub : string) : bool :=
  match String.index 0 sub s with Some _ => true | None => false end.

(** ** Letter case *)

Section letters.
Context (u : Unicode).

(** [strings.ToLower] *)
Definition lower_text (s : string) : string :=
  string_of_bytes (concat (map (fun x => encode_rune (to_lower u x.1)) (raw_runes s))).

(** [strings.ToUpper] *)
Definition upper_text (s : string) : string :=
  string_of_bytes (concat (map (fun x => encode_rune (to_upper u x.1)) (raw_runes s))).

(** [strings.EqualFold] *)
Definition EqualFold (a b : string) : bool :=
  bool_decide (map (fun x => fold u x.1) (raw_runes a) = map (fun x => fold u x.1) (raw_runes b)).
End letters.

(** The tables restricted to ASCII. *)
Definition ascii_unicode : Unicode :=
  mkUnicode (fun r => if (65 <=? r) && (r <=? 90) then r + 32 else r)
    (fun r => if (97 <=? r) && (r <=? 122) then r - 32 else r)
    (fun r => if (65 <=? r) && (r <=? 90) then r + 32 else r) (fun r => (32 <=? r) && (r <? 127)).

(** ** Insertion sorts *)

(** Insertion from the right: the new element moves left past those it precedes. *)
Fixpoint insert_back {A} (less : A -> A -> bool) (x : A) (l : list A) : list A :=
  match l with
  | [] => [x]
  | y :: l' => if less x y then y :: insert_back less x l' else x :: l
  end.
(** [sort.SliceStable] *)
Definition slice_stable {A} (less : A -> A -> bool) (l : list A) : list A :=
  rev (fold_left (fun sorted x => insert_back less x sorted) l []).

Section slice_stable.
Context {A : Type} (less : A -> A -> bool).

Lemma insert_back_Permutation x l : insert_back less x l ≡ₚ x :: l.
Proof.
  induction l as [| y l IH]; simpl; [done |]. destruct (less x y); [| done]. rewrite IH. apply Permutation_swap.
Qed.

Lemma slice_stable_Permutation l : slice_stable less l ≡ₚ l.
Proof.
  unfold slice_stable. rewrite <- Permutation_rev.
  assert (forall acc, fold_left (fun sorted x => insert_back less x sorted) l acc ≡ₚ l ++ acc) as H.
  { induction l as [| x l IH]; intros acc; simpl; [done |]. rewrite IH, insert_back_Permutation.
    symmetry. apply Permutation_middle. }
  rewrite H. by rewrite app_nil_r.
Qed.

Context (R : A -> A -> Prop) (P : A -> Prop).
Context (less_R : forall a b, P a -> P b -> less a b = true -> R a b).
Context (more_R : forall a b, P a -> P b -> less a b = false -> R b a).
Context (trans : forall a b c, P a -> P b -> P c -> R a b -> R b c -> R a c).

Lemma insert_back_sorted x l :
  P x -> (forall y, y ∈ l -> P y) -> StronglySorted (flip R) l -> StronglySorted (flip R) (insert_back less x l).
Proof.
  intros Hx Hl Hs. induction Hs as [| y l Hs IH Hy]; simpl; [by repeat constructor |].
  pose proof (proj1 (list.Forall_forall _ _) Hy) as Hall.
  assert (P y) as Py by (apply Hl; left). assert (forall z, z ∈ l -> P z) as Hl' by (intros; apply Hl; by right).
  destruct (less x y) eqn:E.
  - constructor; [by apply IH |]. apply list.Forall_forall. intros z Hz.
    rewrite insert_back_Permutation in Hz. apply elem_of_cons in Hz as [-> | Hz]; [by apply less_R | by apply Hall].
  - constructor; [by constructor |]. apply list.Forall_forall. intros z [-> | Hz]%elem_of_cons; [by apply more_R |].
    apply (trans z y x); [by apply Hl' | done | done | by apply Hall | by apply more_R].
Qed.

Lemma StronglySorted_snoc l x : StronglySorted R l -> (forall y, y ∈ l -> R y x) -> StronglySorted R (l ++ [x]).
Proof.
  induction 1 as [| y l Hs IH Hy]; intros H; simpl; [by repeat constructor |].
  constructor; [apply IH; set_solver |]. apply Forall_app. split; [done |]. constructor; [| done]. apply H. left.
Qed.

Lemma StronglySorted_flip l : StronglySorted (flip R) l -> StronglySorted R (rev l).
Proof.
  induction 1 as [| y l Hs IH Hy]; simpl; [constructor |]. apply StronglySorted_snoc; [done |].
  intros z Hz%list_elem_of_In. rewrite <- in_rev in Hz.
  apply list_elem_of_In in Hz. by apply (proj1 (list.Forall_forall _ _) Hy).
Qed.

Lemma slice_stable_sorted l : (forall x, x ∈ l -> P x) -> StronglySorted R (slice_stable less l).
Proof.
  intros Hl. apply StronglySorted_flip.
  assert (forall acc, (forall x, x ∈ acc -> P x) -> StronglySorted (flip R) acc ->
    StronglySorted (flip R) (fold_left (fun sorted x => insert_back less x sorted) l acc)) as H.
  { induction l as [| x l IH]; intros acc Ha Hs; simpl; [done |]. apply IH; [set_solver | |].
    - intros y Hy. rewrite insert_back_Permutation in Hy. set_solver.
    - apply insert_back_sorted; [set_solver | done | done]. }
  apply H; [by intros ? ?%elem_of_nil | constructor].
Qed.

Lemma slice_stable_head l x k y :
  (forall x, x ∈ l -> P x) -> slice_stable less l = x :: k -> y ∈ l -> y = x \/ R x y.
Proof.
  intros Hl E Hy. pose proof (slice_stable_sorted l Hl) as Hs. rewrite <- (slice_stable_Permutation l), E in Hy.
  rewrite E in Hs. apply StronglySorted_inv in Hs as [_ Hx]. apply elem_of_cons in Hy as [-> | Hy]; [by left |].
  right. by apply (proj1 (list.Forall_forall _ _) Hx).
Qed.
End slice_stable.
