(* ===== verification/Prci.v ===== *)
(** * Diagnosing a pull request

    [internal/prci/prci.go]: the evidence collected from the hosting service
    about the pull request of a task (its generations, checks and workflow runs)
    and [Diagnose], which turns it into one code, the next step and whether the
    caller may retry.  A loop over checks or runs that returns at its first match
    is [first_some]; the phases of [Diagnose] are tried in the order of the code
    by [first_of].  [Module prci] keeps the names of the package. *)

From stdpp Require Import pretty.
From S2P Require Import Prelude GoStd Text Runes.
#[local] Open Scope Z_scope.

Module prci.

(** ** Evidence *)

Definition RunnerQueueThreshold : Z := 30 * minute.

Record Evidence := mkEvidence { Ev_Source : string; Ev_Message : string; Ev_URL : string }.
Record PullRequest := mkPullRequest {
  PR_Number : Z; PR_URL : string; PR_State : string; PR_Head : string; PR_HeadOID : string;
  PR_MergeState : string; PR_ReviewDecision : string
}.
Record Check := mkCheck {
  Ck_Name : string; Ck_Status : string; Ck_Conclusion : string; Ck_StartedAt : option time;
  Ck_URL : string; Ck_Annotations : list Evidence
}.
Record WorkflowRun := mkRun {
  WR_Name : string; WR_Status : string; WR_Conclusion : string; WR_CreatedAt : option time;
  WR_URL : string
}.
Record AccessFailure := mkAccessFailure { AF_Operation : string; AF_Message : string }.
Record Input := mkInput {
  In_CanonicalHead : string; In_CanonicalHeadOID : string; In_PullRequests : list PullRequest;
  In_Checks : list Check; In_WorkflowRuns : list WorkflowRun; In_AccessFailure : option AccessFailure;
  In_Now : time
}.
(** [Res_Evidence] is nil only in the zero value. *)
Record Result := mkResult {
  Res_Code : string; Res_Summary : string; Res_Retryable : bool; Res_Next : string;
  Res_Evidence : option (list Evidence); Res_PullRequest : option PullRequest;
  Res_SupersededPRs : list PullRequest; Res_QueueThreshold : string
}.
#[export] Instance Evidence_eq_dec : EqDecision Evidence.
Proof. solve_decision. Defined.
#[export] Instance PullRequest_eq_dec : EqDecision PullRequest.
Proof. solve_decision. Defined.
#[export] Instance Result_eq_dec : EqDecision Result.
Proof. solve_decision. Defined.

#[export] Instance Result_settable : Settable Result := fun r =>
  mkResult (Res_Code r) (Res_Summary r) (Res_Retryable r) (Res_Next r) (Res_Evidence r) (Res_PullRequest r)
    (Res_SupersededPRs r) (Res_QueueThreshold r).

Definition result (code summary : string) (retryable : bool) (next : string) (evidence : list Evidence) : Result :=
  mkResult code summary retryable next (Some evidence) None [] "".
Definition ev (source message url : string) : Evidence := mkEvidence source message url.
Definition withPR (r : Result) (pr : option PullRequest) (old : list PullRequest) : Result :=
  r <| Res_PullRequest := pr |> <| Res_SupersededPRs := old |>.
Definition dash (s : string) : string := if (s =? "")%string then "unknown" else s.

Definition unknownEvidence (source message url : string) : Result :=
  result "unknown" "Available evidence does not establish canonical PR readiness" true
    "Inspect the canonical local branch and exact GitHub PR/check/workflow response; resolve missing or unknown fields before continuing."
    [ev source message url].

(** The newest pull request of the commit, and every other one. *)
Fixpoint selectGeneration (prs : list PullRequest) (oid : string) (current : option PullRequest) (old : list PullRequest)
    : option PullRequest * list PullRequest :=
  match prs with
  | [] => (current, old)
  | p :: prs =>
    if (oid =? "")%string || (PR_HeadOID p =? oid)%string then
      match current with
      | None => selectGeneration prs oid (Some p) old
      | Some _ => selectGeneration prs oid current (old ++ [p])
      end
    else selectGeneration prs oid current (old ++ [p])
  end.

Section unicode.
Context (u : Unicode).

Definition one_of (s : string) (l : list string) : bool := existsb (String.eqb (lower_text u s)) l.

Definition queuedTooLong (status : string) (started : option time) (now : time) : bool :=
  one_of status ["queued"; "pending"; "requested"]%string
  && match started with Some t => RunnerQueueThreshold <? now - t | None => false end.
Definition pending (s : string) : bool := one_of s ["queued"; "in_progress"; "pending"; "waiting"; "requested"]%string.
Definition failed (s : string) : bool := one_of s ["failure"; "failed"; "timed_out"; "cancelled"; "startup_failure"]%string.
Definition terminalSuccess (status conclusion : string) : bool :=
  EqualFold u status "completed" && one_of conclusion ["success"; "neutral"; "skipped"]%string.

Definition patterns : list (string * list string) :=
  [("billing_restriction", ["billing"; "spending limit"; "payment"; "account is locked"]);
   ("workflow_configuration_failure",
    ["workflow is not valid"; "invalid workflow"; "yaml syntax"; "startup_failure"; "no jobs were run"]);
   ("runner_unavailable", ["no runner matching"; "runner unavailable"; "no hosted runners"; "waiting for a runner"]);
   ("approval_pending", ["waiting for approval"; "environment approval"; "deployment review"; "action_required"])]%string.
Definition specialCode (s : string) : option string :=
  let s := lower_text u s in
  first_some (fun p => if existsb (Contains s) p.2 then Some p.1 else None) patterns.

Definition specialResult (code : string) (evidence : Evidence) : Result :=
  if (code =? "billing_restriction")%string then
    result code "GitHub blocked CI because of an account billing or spending restriction" false
      "Have an account owner repair billing or spending limits; rerun only after GitHub permits Actions." [evidence]
  else if (code =? "workflow_configuration_failure")%string then
    result code "GitHub could not start the workflow because its configuration is invalid" false
      "Open the workflow diagnostic, repair the referenced workflow configuration, validate it, and push the fix."
      [evidence]
  else if (code =? "runner_unavailable")%string then
    (result code "GitHub could not assign a compatible runner" true
      "Inspect runner availability and labels; retry only after runner capacity or routing is restored." [evidence])
      <| Res_QueueThreshold := "30m0s"%string |>
  else
    result code "A deployment environment is waiting for approval" false
      "Have an authorized reviewer approve or reject the pending environment deployment." [evidence].

Definition classifyAccess (f : AccessFailure) : Result :=
  let has := existsb (Contains (lower_text u (AF_Message f))) in
  let e := [ev "github_api" (AF_Operation f ++ ": " ++ AF_Message f) ""] in
  if has ["billing"; "spending limit"; "payment required"]%string then
    result "billing_restriction" "GitHub blocked CI because of an account billing or spending restriction" false
      "Have an account owner repair billing or spending limits; rerun only after GitHub permits Actions." e
  else if has ["bad credentials"; "authentication"; "not logged"; "token has expired"; "http 401"]%string then
    result "github_authentication" "GitHub authentication failed" false
      "Authenticate gh with the intended account and token, then rerun diagnosis." e
  else if has ["rate limit"; "secondary rate"]%string then
    result "github_rate_limited" "GitHub API rate limiting prevented diagnosis" true
      "Wait for the reported reset window and retry once; avoid parallel duplicate polling." e
  else if has ["forbidden"; "resource not accessible"; "permission"; "authorization"; "http 403"]%string then
    result "github_authorization" "GitHub denied this identity permission" false
      "Grant the identity read access to pull requests, checks, actions, and annotations, then rerun diagnosis." e
  else if has ["timeout"; "timed out"; "could not resolve"; "no such host"; "connection"; "tls handshake"; "http 500";
               "502"; "503"; "504"; "github is down"]%string then
    result "github_outage" "GitHub network or API availability prevented diagnosis" true
      "Check GitHub status and network reachability, then retry without changing the PR." e
  else
    result "unknown" "GitHub failed without enough evidence to classify the cause" true
      "Preserve the raw GitHub response and inspect authentication, permissions, rate limits, and service status before retrying."
      e.

(** ** The phases of [Diagnose] once the pull request of the commit is known *)

Definition text_of (pr : PullRequest) (rest : string) : string := ("Pull request #" ++ pretty (PR_Number pr) ++ rest)%string.

Definition topology (pr : PullRequest) : option Result :=
  let state := upper_text u (PR_State pr) in
  let merge := upper_text u (PR_MergeState pr) in
  if (state =? "CLOSED")%string then
    Some (result "closed_unmerged" (text_of pr " was closed without merging") false
      "Reopen it or open a replacement for the same canonical head after confirming the closure was intentional."
      [ev "pull_request" "state=CLOSED" (PR_URL pr)])
  else if (merge =? "DIRTY")%string || (merge =? "CONFLICTING")%string then
    Some (result "merge_conflict" (text_of pr " conflicts with its base") false
      "Rebase or merge the base into the task branch, resolve conflicts, and push the canonical head."
      [ev "pull_request" ("merge_state=" ++ merge) (PR_URL pr)])
  else if (merge =? "BEHIND")%string then
    Some (result "stale_base" (text_of pr " is behind its base") false
      "Update the task branch from the configured base, rerun verification, and push."
      [ev "pull_request" "merge_state=BEHIND" (PR_URL pr)])
  else if EqualFold u (PR_ReviewDecision pr) "REVIEW_REQUIRED" || EqualFold u (PR_ReviewDecision pr) "CHANGES_REQUESTED" then
    Some (result "approval_pending" (text_of pr " is waiting for reviewer approval") false
      "Request or address the required review; do not retry CI as a substitute for approval."
      [ev "pull_request" ("review_decision=" ++ PR_ReviewDecision pr) (PR_URL pr)])
  else None.

Definition special_check (c : Check) : option Result :=
  match specialCode (Ck_Name c ++ " " ++ Ck_Conclusion c) with
  | Some code => Some (specialResult code (ev "check_run" (Ck_Name c ++ ": " ++ Ck_Conclusion c) (Ck_URL c)))
  | None =>
    first_some (fun a => match specialCode (Ev_Message a) with
                         | Some code => Some (specialResult code a)
                         | None => None
                         end) (Ck_Annotations c)
  end.
Definition special_run (w : WorkflowRun) : option Result :=
  match specialCode (WR_Name w ++ " " ++ WR_Conclusion w) with
  | Some code => Some (specialResult code (ev "workflow_run" (WR_Name w ++ ": " ++ WR_Conclusion w) (WR_URL w)))
  | None => None
  end.

Definition no_runner (summary : string) (e : Evidence) : Result :=
  (result "runner_unavailable" summary true
    "Inspect runner availability and labels; retry only after runner capacity or routing is restored." [e])
    <| Res_QueueThreshold := "30m0s"%string |>.
Definition queued_check (now : time) (c : Check) : option Result :=
  if queuedTooLong (Ck_Status c) (Ck_StartedAt c) now then
    Some (no_runner "A CI job has remained queued beyond 30 minutes"
      (ev "check_run" (Ck_Name c ++ " status=" ++ Ck_Status c) (Ck_URL c)))
  else None.
Definition queued_run (now : time) (w : WorkflowRun) : option Result :=
  if queuedTooLong (WR_Status w) (WR_CreatedAt w) now then
    Some (no_runner "A workflow has remained queued beyond 30 minutes"
      (ev "workflow_run" (WR_Name w ++ " status=" ++ WR_Status w) (WR_URL w)))
  else None.

Definition failed_check (c : Check) : option Result :=
  if failed (Ck_Conclusion c) then
    Some (result "test_failure" "A test or workflow job failed" false
      "Open the failing check and its annotations, reproduce the failure, then push a verified fix."
      [default (ev "check_run" (Ck_Name c ++ " conclusion=" ++ Ck_Conclusion c) (Ck_URL c)) (head (Ck_Annotations c))])
  else None.
Definition failed_run (w : WorkflowRun) : option Result :=
  if failed (WR_Conclusion w) then
    Some (result "test_failure" "A workflow job failed" false
      "Open the failing workflow run, reproduce the failure, then push a verified fix."
      [ev "workflow_run" (WR_Name w ++ " conclusion=" ++ WR_Conclusion w) (WR_URL w)])
  else None.

Definition pending_check (c : Check) : option Result :=
  if pending (Ck_Status c) then
    Some (result "ci_pending" "CI is still running or queued within the runner threshold" true
      "Wait for the existing check run; do not start a duplicate run."
      [ev "check_run" (Ck_Name c ++ " status=" ++ Ck_Status c) (Ck_URL c)])
  else None.
Definition pending_run (w : WorkflowRun) : option Result :=
  if pending (WR_Status w) then
    Some (result "ci_pending" "A workflow is still running or waiting" true
      "Wait for the existing workflow; inspect its waiting reason rather than starting a duplicate run."
      [ev "workflow_run" (WR_Name w ++ " status=" ++ WR_Status w) (WR_URL w)])
  else None.

(** An upstream value that is not known to be a pass is not one. *)
Definition unresolved (pr : PullRequest) : option Result :=
  let state := upper_text u (PR_State pr) in
  let merge := upper_text u (PR_MergeState pr) in
  if (negb (state =? "OPEN")%string && negb (state =? "MERGED")%string)
     || (negb (merge =? "CLEAN")%string && negb (merge =? "HAS_HOOKS")%string)
     || (negb (PR_ReviewDecision pr =? "")%string && negb (EqualFold u (PR_ReviewDecision pr) "APPROVED"))
  then Some (unknownEvidence "pull_request" "unresolved PR state, merge state, or review decision" (PR_URL pr))
  else None.
Definition unsettled_check (c : Check) : option Result :=
  if negb (terminalSuccess (Ck_Status c) (Ck_Conclusion c)) then
    Some (unknownEvidence "check_run"
      (Ck_Name c ++ " status=" ++ Ck_Status c ++ " conclusion=" ++ Ck_Conclusion c) (Ck_URL c))
  else None.
Definition unsettled_run (w : WorkflowRun) : option Result :=
  if negb (terminalSuccess (WR_Status w) (WR_Conclusion w)) then
    Some (unknownEvidence "workflow_run"
      (WR_Name w ++ " status=" ++ WR_Status w ++ " conclusion=" ++ WR_Conclusion w) (WR_URL w))
  else None.

Definition diagnose_phases (input : Input) (now : time) (pr : PullRequest) : list (option Result) :=
  let checks := In_Checks input in
  let runs := In_WorkflowRuns input in
  [topology pr;
   first_some special_check checks; first_some special_run runs;
   first_some (queued_check now) checks; first_some (queued_run now) runs;
   first_some failed_check checks; first_some failed_run runs;
   first_some pending_check checks; first_some pending_run runs;
   unresolved pr;
   first_some unsettled_check checks; first_some unsettled_run runs].

Definition ready_result (pr : PullRequest) : Result :=
  result "ready" "The canonical pull request has no diagnosed blocker" false
    "Continue with the configured review and landing policy."
    [ev "pull_request" "canonical PR evidence inspected" (PR_URL pr)].
Definition no_evidence (pr : PullRequest) : Result :=
  result "unknown" "GitHub returned too little evidence to diagnose the pull request" true
    "Inspect the pull request, check runs, workflow runs, and GitHub status; preserve the raw response when escalating."
    [ev "github" "no check-suite or workflow-run evidence" (PR_URL pr)].

Definition missing_generation (input : Input) (superseded : list PullRequest) : Result :=
  match superseded with
  | p :: _ =>
    (result "superseded_pr_generation" "Only superseded pull-request generations exist for the task head" false
      "Push the current canonical task head and open or reuse a pull request for that exact commit."
      [ev "pull_request"
         ("newest historical PR #" ++ pretty (PR_Number p) ++ " points at " ++ dash (PR_HeadOID p)
          ++ ", canonical head is " ++ dash (In_CanonicalHeadOID input)) (PR_URL p)])
      <| Res_SupersededPRs := superseded |>
  | [] =>
    result "missing_canonical_pr" "No pull request exists for the canonical task head" false
      "Push the canonical task branch and open a pull request for it."
      [ev "pull_request" ("no PR matched head " ++ In_CanonicalHead input) ""]
  end.

(** The pull requests of the task's branch, the newest first. *)
Definition generations (input : Input) : list PullRequest :=
  slice_stable (fun a b => PR_Number b <? PR_Number a)
    (List.filter (fun p => (PR_Head p =? In_CanonicalHead input)%string) (In_PullRequests input)).

(** [clock] is the time [Diagnose] reads when the caller gives none. *)
Definition Diagnose (clock : time) (input : Input) : Result :=
  let now := if In_Now input =? 0 then clock else In_Now input in
  match In_AccessFailure input with
  | Some f => classifyAccess f
  | None =>
    if (In_CanonicalHead input =? "")%string || (In_CanonicalHeadOID input =? "")%string then
      unknownEvidence "local_git" "canonical task head commit could not be observed" ""
    else
      match selectGeneration (generations input) (In_CanonicalHeadOID input) None [] with
      | (None, superseded) => missing_generation input superseded
      | (Some pr, superseded) =>
        let last := match In_Checks input, In_WorkflowRuns input with
                    | [], [] => no_evidence pr
                    | _, _ => ready_result pr
                    end in
        withPR (first_of (diagnose_phases input now pr) last) (Some pr) superseded
      end
  end.
End unicode.

(** ** What the code promises *)

(** Codes after which asking again, and nothing else, may help *)
Definition retry_codes : list string :=
  ["runner_unavailable"; "ci_pending"; "unknown"; "github_rate_limited"; "github_outage"]%string.
(** A result an agent can act on: it says what to do, on what evidence, and its
    code alone decides whether to ask again. *)
Record instructive (r : Result) : Prop := {
  act_retry : Res_Retryable r = bool_decide (Res_Code r ∈ retry_codes);
  act_summary : Res_Summary r <> ""%string;
  act_next : Res_Next r <> ""%string;
  act_evidence : exists e l, Res_Evidence r = Some (e :: l)
}.

(** [pr] is the newest pull request of the task's branch at its very commit. *)
Definition newest_generation (input : Input) (pr : PullRequest) : Prop :=
  pr ∈ In_PullRequests input /\ PR_Head pr = In_CanonicalHead input /\ PR_HeadOID pr = In_CanonicalHeadOID input
  /\ forall p, p ∈ In_PullRequests input -> PR_Head p = In_CanonicalHead input ->
       PR_HeadOID p = In_CanonicalHeadOID input -> PR_Number p <= PR_Number pr.
(** Nothing about the pull request itself stands in the way. *)
Definition landable (u : Unicode) (pr : PullRequest) : Prop :=
  upper_text u (PR_State pr) ∈ ["OPEN"; "MERGED"]%string /\ upper_text u (PR_MergeState pr) ∈ ["CLEAN"; "HAS_HOOKS"]%string
  /\ (PR_ReviewDecision pr = ""%string \/ EqualFold u (PR_ReviewDecision pr) "APPROVED" = true).
(** The job ended well and nothing about it names a known obstacle. *)
Definition check_passed (u : Unicode) (c : Check) : Prop :=
  terminalSuccess u (Ck_Status c) (Ck_Conclusion c) = true /\ pending u (Ck_Status c) = false
  /\ specialCode u (Ck_Name c ++ " " ++ Ck_Conclusion c) = None
  /\ forall a, a ∈ Ck_Annotations c -> specialCode u (Ev_Message a) = None.
Definition run_passed (u : Unicode) (w : WorkflowRun) : Prop :=
  terminalSuccess u (WR_Status w) (WR_Conclusion w) = true /\ pending u (WR_Status w) = false
  /\ specialCode u (WR_Name w ++ " " ++ WR_Conclusion w) = None.

(** ** Lemmas *)

Section laws.
Context (u : Unicode).

Lemma EqualFold_length a b : EqualFold u a b = true -> List.length (raw_runes a) = List.length (raw_runes b).
Proof. intros H%bool_decide_eq_true. apply (f_equal List.length) in H. by rewrite !length_map in H. Qed.

Lemma one_of_In s l : one_of u s l = true <-> lower_text u s ∈ l.
Proof.
  unfold one_of. rewrite existsb_exists. split.
  - intros (x & Hx & ->%String.eqb_eq). by apply list_elem_of_In.
  - intros H%list_elem_of_In. exists (lower_text u s). split; [done | apply String.eqb_refl].
Qed.

(** Membership of a literal list, one element at a time *)
Ltac each_word H := repeat (apply elem_of_cons in H as [H | H]); [.. | by apply elem_of_nil in H].
Ltac not_listed H := repeat (apply elem_of_cons in H as [H | H]; [discriminate H |]); by apply elem_of_nil in H.

Lemma success_not_failed status conclusion : terminalSuccess u status conclusion = true -> failed u conclusion = false.
Proof.
  intros [_ H%one_of_In]%andb_true_iff. apply not_true_iff_false. intros F%one_of_In.
  each_word H; rewrite H in F; not_listed F.
Qed.

Lemma not_pending_not_queued status started now : pending u status = false -> queuedTooLong u status started now = false.
Proof.
  intros H. unfold queuedTooLong. destruct (one_of u status _) eqn:E; [| done].
  apply one_of_In in E. apply not_true_iff_false in H. destruct H. apply one_of_In.
  each_word E; rewrite E; apply (bool_decide_unpack _); by vm_compute.
Qed.

Lemma specialCode_pattern s code : specialCode u s = Some code -> code ∈ patterns.*1.
Proof.
  intros (p & Hp & E)%first_some_Some. destruct (existsb _ _); [| done]. injection E as <-.
  by apply list_elem_of_fmap_2.
Qed.

Lemma specialResult_actionable code e : code ∈ patterns.*1 -> instructive (specialResult code e).
Proof.
  intros H. repeat (apply elem_of_cons in H as [-> | H]; [by split; try done; do 2 eexists |]). by apply elem_of_nil in H.
Qed.

Lemma specialResult_code code e : Res_Code (specialResult code e) = code.
Proof. unfold specialResult. repeat case_match; done. Qed.

(** What every phase yields: an instructive result that is not [ready]. *)
Definition diagnosis (r : Result) : Prop := instructive r /\ Res_Code r <> "ready"%string.

Lemma result_diagnosis code summary retryable next e l :
  retryable = bool_decide (code ∈ retry_codes) -> code <> "ready"%string -> summary <> ""%string ->
  next <> ""%string -> diagnosis (result code summary retryable next (e :: l)).
Proof. intros. split; [split; try done; by do 2 eexists | done]. Qed.

Lemma specialResult_diagnosis code e : code ∈ patterns.*1 -> diagnosis (specialResult code e).
Proof.
  intros H. split; [by apply specialResult_actionable |]. rewrite specialResult_code. intros ->. not_listed H.
Qed.

Lemma unknownEvidence_diagnosis source message url : diagnosis (unknownEvidence source message url).
Proof. by apply result_diagnosis. Qed.

Lemma classifyAccess_diagnosis f : diagnosis (classifyAccess u f).
Proof. unfold classifyAccess. repeat case_match; by apply result_diagnosis. Qed.

Lemma missing_generation_diagnosis input old : diagnosis (missing_generation input old).
Proof. destruct old; [by apply result_diagnosis |]. split; [split; try done; by do 2 eexists | done]. Qed.

Lemma topology_diagnosis pr r : topology u pr = Some r -> diagnosis r.
Proof. unfold topology. repeat case_match; intros [= <-]; by apply result_diagnosis. Qed.

Lemma special_check_diagnosis c r : special_check u c = Some r -> diagnosis r.
Proof.
  unfold special_check. destruct (specialCode u _) eqn:E.
  - intros [= <-]. by eapply specialResult_diagnosis, specialCode_pattern.
  - intros (a & _ & Ha)%first_some_Some. destruct (specialCode u (Ev_Message a)) eqn:Ea; [| done].
    injection Ha as <-. by eapply specialResult_diagnosis, specialCode_pattern.
Qed.

Lemma special_run_diagnosis w r : special_run u w = Some r -> diagnosis r.
Proof.
  unfold special_run. destruct (specialCode u _) eqn:E; [| done].
  intros [= <-]. by eapply specialResult_diagnosis, specialCode_pattern.
Qed.

Lemma no_runner_diagnosis summary e : summary <> ""%string -> diagnosis (no_runner summary e).
Proof. intros. split; [split; try done; by do 2 eexists | done]. Qed.

Lemma loop_diagnosis {A} (f : A -> option Result) l r :
  (forall x r, f x = Some r -> diagnosis r) -> first_some f l = Some r -> diagnosis r.
Proof. intros H (x & _ & Hx)%first_some_Some. by eapply H. Qed.

Lemma phases_diagnosis input now pr :
  Forall (fun o => forall r, o = Some r -> diagnosis r) (diagnose_phases u input now pr).
Proof.
  unfold diagnose_phases. repeat (apply Forall_cons_2; [intros r |]); [.. | by apply Forall_nil_2].
  1: apply topology_diagnosis.
  9: unfold unresolved; case_match; [intros [= <-]; apply unknownEvidence_diagnosis | done].
  all: apply loop_diagnosis; intros x k; try (apply special_check_diagnosis || apply special_run_diagnosis).
  all: unfold queued_check, queued_run, failed_check, failed_run, pending_check, pending_run, unsettled_check, unsettled_run.
  all: case_match; [| done]; intros [= <-].
  all: first [by apply no_runner_diagnosis | apply unknownEvidence_diagnosis | by apply result_diagnosis].
Qed.

Lemma withPR_code r pr old : Res_Code (withPR r pr old) = Res_Code r.
Proof. done. Qed.

(** *** The generation *)

Lemma NoDup_fmap_eq {A B} (f : A -> B) l x y : NoDup (f <$> l) -> x ∈ l -> y ∈ l -> f x = f y -> x = y.
Proof.
  induction l as [| z l IH]; [by intros _ ?%elem_of_nil |]. rewrite fmap_cons, list.NoDup_cons. intros [Hz Hl].
  intros [-> | Hx]%elem_of_cons [-> | Hy]%elem_of_cons E; [done | | | by apply IH].
  - destruct Hz. rewrite E. by apply list_elem_of_fmap_2.
  - destruct Hz. rewrite <- E. by apply list_elem_of_fmap_2.
Qed.

Lemma selectGeneration_current prs oid current old :
  oid <> ""%string ->
  (selectGeneration prs oid current old).1
  = match current with Some p => Some p | None => List.find (fun p => (PR_HeadOID p =? oid)%string) prs end.
Proof.
  intros Hoid%String.eqb_neq. revert current old. induction prs as [| p prs IH]; intros current old; simpl.
  - by destruct current.
  - rewrite Hoid. simpl. destruct (PR_HeadOID p =? oid)%string, current; by rewrite IH.
Qed.

Lemma generations_In input p :
  p ∈ generations input <-> p ∈ In_PullRequests input /\ PR_Head p = In_CanonicalHead input.
Proof.
  unfold generations. rewrite slice_stable_Permutation, !list_elem_of_In, filter_In, String.eqb_eq. done.
Qed.

Lemma generations_sorted input : StronglySorted (fun a b => PR_Number b <= PR_Number a) (generations input).
Proof. apply (slice_stable_sorted _ _ (fun _ => True)); try done; intros; lia. Qed.

Lemma find_sorted {A} (R : A -> A -> Prop) f l x :
  (forall x, R x x) -> StronglySorted R l -> List.find f l = Some x ->
  (x ∈ l /\ f x = true) /\ forall y, y ∈ l -> f y = true -> R x y.
Proof.
  intros refl. induction 1 as [| y l Hs IH Hy]; simpl; [done |]. destruct (f y) eqn:E.
  - intros [= <-]. split; [split; [left | done] |]. intros z [-> | Hz]%elem_of_cons _; [done |].
    by apply (proj1 (list.Forall_forall _ _) Hy).
  - intros [[? ?] Hr]%IH. split; [split; [by right | done] |].
    intros z [-> | Hz]%elem_of_cons Ez; [by rewrite Ez in E | by apply Hr].
Qed.

Lemma selected_newest input pr :
  In_CanonicalHeadOID input <> ""%string ->
  (selectGeneration (generations input) (In_CanonicalHeadOID input) None []).1 = Some pr -> newest_generation input pr.
Proof.
  intros Hoid. rewrite selectGeneration_current by done. intros H.
  apply (find_sorted (fun a b => PR_Number b <= PR_Number a) _ _ _ (fun x => Z.le_refl _) (generations_sorted input)) in H as [[Hin%generations_In E%String.eqb_eq] H].
  destruct Hin. split_and!; try done. intros p Hp Hh Ho. apply H; [by apply generations_In |]. by apply String.eqb_eq.
Qed.

Lemma newest_selected input pr :
  NoDup (PR_Number <$> In_PullRequests input) -> In_CanonicalHeadOID input <> ""%string -> newest_generation input pr ->
  (selectGeneration (generations input) (In_CanonicalHeadOID input) None []).1 = Some pr.
Proof.
  intros Hnd Hoid (Hin & Hh & Ho & Hmax). rewrite selectGeneration_current by done.
  destruct (List.find _ _) as [p |] eqn:E.
  - apply (find_sorted (fun a b => PR_Number b <= PR_Number a) _ _ _ (fun x => Z.le_refl _) (generations_sorted input)) in E as [[Hp%generations_In Ep%String.eqb_eq] H].
    destruct Hp as [Hp Hph]. f_equal. apply (NoDup_fmap_eq PR_Number (In_PullRequests input)); try done.
    apply Z.le_antisymm; [by apply Hmax |]. apply H; [by apply generations_In | by apply String.eqb_eq].
  - apply find_none with (x := pr) in E; [| by apply list_elem_of_In, generations_In].
    by rewrite Ho, String.eqb_refl in E.
Qed.

(** *** All phases pass *)

Lemma special_check_None c :
  special_check u c = None <->
  specialCode u (Ck_Name c ++ " " ++ Ck_Conclusion c) = None
  /\ forall a, a ∈ Ck_Annotations c -> specialCode u (Ev_Message a) = None.
Proof.
  unfold special_check. destruct (specialCode u _); [by split; [| intros [? _]] |]. rewrite first_some_None. split.
  - intros H. split; [done |]. intros a Ha. specialize (H a Ha). by destruct (specialCode u (Ev_Message a)).
  - intros [_ H] a Ha. by rewrite (H a Ha).
Qed.

Lemma special_run_None w : special_run u w = None <-> specialCode u (WR_Name w ++ " " ++ WR_Conclusion w) = None.
Proof. unfold special_run. by destruct (specialCode u _). Qed.

Lemma topology_landable pr : landable u pr -> topology u pr = None.
Proof.
  intros (Hs & Hm & Hr). unfold topology.
  replace (EqualFold u (PR_ReviewDecision pr) "REVIEW_REQUIRED" || EqualFold u (PR_ReviewDecision pr) "CHANGES_REQUESTED")
    with false.
  - each_word Hs; rewrite Hs; each_word Hm; by rewrite Hm.
  - symmetry. apply orb_false_iff. split; apply not_true_iff_false; intros E%EqualFold_length;
      (destruct Hr as [Hr | Hr%EqualFold_length]; [rewrite Hr in E; discriminate E | rewrite Hr in E; discriminate E]).
Qed.

Lemma unresolved_None pr : unresolved u pr = None <-> landable u pr.
Proof.
  unfold unresolved, landable. rewrite !elem_of_cons, !elem_of_nil, <- !String.eqb_eq.
  destruct (upper_text u (PR_State pr) =? "OPEN")%string, (upper_text u (PR_State pr) =? "MERGED")%string,
    (upper_text u (PR_MergeState pr) =? "CLEAN")%string, (upper_text u (PR_MergeState pr) =? "HAS_HOOKS")%string,
    (PR_ReviewDecision pr =? "")%string, (EqualFold u (PR_ReviewDecision pr) "APPROVED"); simpl; naive_solver.
Qed.

Lemma phases_pass input now pr :
  Forall (fun o => o = None) (diagnose_phases u input now pr)
  <-> landable u pr /\ (forall c, c ∈ In_Checks input -> check_passed u c)
      /\ (forall w, w ∈ In_WorkflowRuns input -> run_passed u w).
Proof.
  unfold diagnose_phases. rewrite !list.Forall_cons, unresolved_None, !first_some_None. split.
  - intros (_ & Hsc & Hsw & _ & _ & _ & _ & Hpc & Hpw & Hl & Hc & Hw & _). split; [done |]. split.
    + intros c Hin. specialize (Hc c Hin). specialize (Hpc c Hin). unfold unsettled_check in Hc. unfold pending_check in Hpc.
      specialize (Hsc c Hin). apply special_check_None in Hsc as [? ?].
      repeat split; [by destruct (terminalSuccess _ _ _) | by destruct (pending _ _) | done | done].
    + intros w Hin. specialize (Hw w Hin). specialize (Hpw w Hin). unfold unsettled_run in Hw. unfold pending_run in Hpw.
      repeat split; [by destruct (terminalSuccess _ _ _) | by destruct (pending _ _) | by apply special_run_None, Hsw].
  - intros (Hl & Hc & Hw). split_and!; [by apply topology_landable | .. | by apply list.Forall_nil]; try done; intros x Hin.
    all: first [destruct (Hc x Hin) as (Ht & Hp & Hs) | destruct (Hw x Hin) as (Ht & Hp & Hs)].
    all: try (by apply special_check_None); try (by apply special_run_None).
    all: unfold queued_check, queued_run, failed_check, failed_run, pending_check, pending_run, unsettled_check, unsettled_run.
    all: rewrite ?Ht, ?Hp, ?(success_not_failed _ _ Ht), ?(not_pending_not_queued _ _ _ Hp); done.
Qed.

(** ** What [Diagnose] promises *)

(** whatever evidence it is given, [Diagnose] answers with a summary, a next
    step and at least one piece of evidence, and its code alone says whether to
    retry: only for a runner, running jobs, an unknown state, a rate limit or an
    outage, never for a policy, an approval, a conflict or a failed test. *)
Theorem Diagnose_actionable clock input : instructive (Diagnose u clock input).
Proof.
  unfold Diagnose. destruct (In_AccessFailure input); [apply classifyAccess_diagnosis |].
  destruct (_ || _); [apply unknownEvidence_diagnosis |].
  destruct (selectGeneration _ _ _ _) as [[pr |] old]; [| apply missing_generation_diagnosis].
  set (last := match In_Checks input with [] => _ | _ :: _ => _ end).
  assert (instructive (first_of (diagnose_phases u input (if In_Now input =? 0 then clock else In_Now input) pr) last)) as [? ? ? ?].
  { apply first_of_all.
    - apply (list.Forall_impl _ _ _ (phases_diagnosis _ _ _)). intros o H r E. by destruct (H r E).
    - unfold last. repeat case_match; (split; try done; by do 2 eexists). }
  by split.
Qed.

(** C40: [Diagnose] calls a pull request ready exactly when the evidence could be
    read, the task's head commit is known, its newest pull request at that very
    commit is open or merged, mergeable and not held by a review, some job ran,
    and every job of it ended well without a known obstacle in its name,
    conclusion or annotations. *)
Theorem Diagnose_ready clock input :
  NoDup (PR_Number <$> In_PullRequests input) ->
  Res_Code (Diagnose u clock input) = "ready"%string
  <-> In_AccessFailure input = None /\ In_CanonicalHead input <> ""%string /\ In_CanonicalHeadOID input <> ""%string
      /\ (exists pr, newest_generation input pr /\ landable u pr)
      /\ (In_Checks input <> [] \/ In_WorkflowRuns input <> [])
      /\ (forall c, c ∈ In_Checks input -> check_passed u c)
      /\ (forall w, w ∈ In_WorkflowRuns input -> run_passed u w).
Proof.
  intros Hnd. unfold Diagnose. destruct (In_AccessFailure input).
  { split; [| by intros [? _]]. intros H. by destruct (classifyAccess_diagnosis a). }
  rewrite <- !String.eqb_neq.
  destruct (In_CanonicalHead input =? "")%string, (In_CanonicalHeadOID input =? "")%string eqn:Ho; cbn [orb];
    [naive_solver .. |]. apply String.eqb_neq in Ho.
  pose proof (selected_newest input) as Hsel. pose proof (newest_selected input) as Hnew.
  destruct (selectGeneration _ _ _ _) as [[pr |] old]; simpl in Hsel, Hnew; cycle 1.
  { split; [intros H; by destruct (missing_generation_diagnosis input old) |].
    intros (_ & _ & _ & (pr & Hp & _) & _). by specialize (Hnew pr Hnd Ho Hp). }
  set (now := if In_Now input =? 0 then clock else In_Now input).
  assert (forall d, Res_Code (first_of (diagnose_phases u input now pr) d) = "ready"%string
    <-> Forall (fun o => o = None) (diagnose_phases u input now pr) /\ Res_Code d = "ready"%string) as Hend.
  { intros d. apply (first_of_end (fun r => Res_Code r = "ready"%string)).
    apply (list.Forall_impl _ _ _ (phases_diagnosis _ _ _)). intros o H r E. by destruct (H r E). }
  rewrite withPR_code, Hend, phases_pass. split.
  - intros ((Hl & Hc & Hw) & Hlast). split_and!; try done; [by exists pr; split; [apply Hsel |] |].
    destruct (In_Checks input), (In_WorkflowRuns input); by auto.
  - intros (_ & _ & _ & (p & Hp & Hl) & Hsome & Hc & Hw). specialize (Hnew p Hnd Ho Hp). injection Hnew as ->.
    split; [done |]. destruct (In_Checks input), (In_WorkflowRuns input); naive_solver.
Qed.

End laws.

(** ** Evaluated: prci_test.go *)

Definition test_pr (n : Z) (head oid merge : string) : PullRequest :=
  mkPullRequest n "https://github.test/o/r/pull/9" "OPEN" head oid merge "".
Definition test_now : time := 40 * minute.
Definition base : Input :=
  mkInput "dacli/858" "new" [test_pr 9 "dacli/858" "new" "CLEAN"] [] [] None test_now.
Definition base_pr (f : PullRequest -> PullRequest) : Input :=
  mkInput "dacli/858" "new" [f (test_pr 9 "dacli/858" "new" "CLEAN")] [] [] None test_now.
Definition base_check (c : Check) : Input :=
  mkInput "dacli/858" "new" [test_pr 9 "dacli/858" "new" "CLEAN"] [c] [] None test_now.
Definition base_run (w : WorkflowRun) : Input :=
  mkInput "dacli/858" "new" [test_pr 9 "dacli/858" "new" "CLEAN"] [] [w] None test_now.
Definition no_access (message : string) : Input :=
  mkInput "" "" [] [] [] (Some (mkAccessFailure "checks" message)) 0.
Definition classified (input : Input) : string * bool :=
  let r := Diagnose ascii_unicode 0 input in (Res_Code r, Res_Retryable r).

Example required_classifications :
  map classified
    [base_check (mkCheck "unit" "" "FAILURE" None "check" []);
     base_check (mkCheck "build" "" "FAILURE" None "" [ev "annotation" "Invalid workflow: YAML syntax error" ""]);
     base_run (mkRun "invalid workflow" "" "startup_failure" None "run");
     base_check (mkCheck "macos" "queued" "" (Some (9 * minute)) "check" []);
     base_check (mkCheck "macos" "queued" "" (Some (10 * minute)) "check" []);
     base_check (mkCheck "long running" "in_progress" "" (Some 0) "" []);
     base_check (mkCheck "deploy" "waiting" "" None "" [ev "annotation" "Waiting for approval from a reviewer" ""]);
     base_run (mkRun "unit" "in_progress" "" (Some (39 * minute)) "");
     base_check (mkCheck "unit" "completed" "unexpected" None "" []);
     base_check (mkCheck "unit" "Completed" "SUCCESS" None "" []);
     base_pr (fun p => mkPullRequest 9 "" "CLOSED" (PR_Head p) (PR_HeadOID p) "CLEAN" "");
     base_pr (fun p => mkPullRequest 9 "" "open" (PR_Head p) (PR_HeadOID p) "dirty" "");
     base_pr (fun p => mkPullRequest 9 "" "OPEN" (PR_Head p) (PR_HeadOID p) "BEHIND" "");
     base_pr (fun p => mkPullRequest 9 "" "OPEN" (PR_Head p) (PR_HeadOID p) "CLEAN" "review_required");
     base_pr (fun p => mkPullRequest 9 "" "OPEN" (PR_Head p) "old" "CLEAN" "");
     base_pr (fun p => mkPullRequest 9 "" "OPEN" "elsewhere" "new" "CLEAN" "");
     base; no_access "HTTP 401: Bad credentials"; no_access "API rate limit exceeded";
     no_access "HTTP 403: Resource not accessible by integration"; no_access "HTTP 503 connection timed out"]
  = [("test_failure", false); ("workflow_configuration_failure", false); ("workflow_configuration_failure", false);
     ("runner_unavailable", true); ("ci_pending", true); ("ci_pending", true); ("approval_pending", false);
     ("ci_pending", true); ("unknown", true); ("ready", false); ("closed_unmerged", false); ("merge_conflict", false);
     ("stale_base", false); ("approval_pending", false); ("superseded_pr_generation", false);
     ("missing_canonical_pr", false); ("unknown", true); ("github_authentication", false);
     ("github_rate_limited", true); ("github_authorization", false); ("github_outage", true)]%string.
Proof. vm_compute. reflexivity. Qed.

(** The newest pull request is of another commit, an older one conflicts. *)
Definition three_generations : Input :=
  mkInput "dacli/858" "current"
    [test_pr 11 "dacli/858" "current" "DIRTY"; test_pr 12 "somewhere-else" "current" "DIRTY";
     test_pr 13 "dacli/858" "current" "CLEAN"; test_pr 14 "dacli/858" "old" "DIRTY"]
    [mkCheck "unit" "completed" "SUCCESS" None "" []] [] None 0.

Lemma Diagnose_ready_witness : Res_Code (Diagnose ascii_unicode 0 three_generations) = "ready"%string.
Proof.
  apply (Diagnose_ready ascii_unicode 0 three_generations).
  - apply (bool_decide_unpack _). by vm_compute.
  - split_and!; try done; [| by left | |].
    + exists (test_pr 13 "dacli/858" "current" "CLEAN"). split.
      * split_and!; try done; [by do 2 right; left |]. intros p Hp Hh Ho.
        repeat (apply elem_of_cons in Hp as [-> | Hp]; [by vm_compute in Hh, Ho |- * |]). by apply elem_of_nil in Hp.
      * split_and!; [by left | by left | by left].
    + intros c [-> | Hc]%elem_of_cons; [| by apply elem_of_nil in Hc]. split_and!; try done. by intros a Ha%elem_of_nil.
    + by intros w Hw%elem_of_nil.
Defined.
End prci.
