(* ===== verification/Team.v ===== *)
(** * Roles and escalation

    [internal/team/team.go] and the capacity verdict of routing.go: roles with
    their boundaries, the globs that state them, the escalation route between
    roles, the owners of a path.  [path.Match] is the Go standard library's,
    written out on bytes: only whether it matches is observed, so a malformed
    pattern and a failed match are the same [false]. *)

From Stdlib Require Import SpecFloat.
From S2P Require Import Prelude Floats GoStd Text.
#[local] Open Scope Z_scope.

(** ** path.Match *)

(** [scanChunk] after the stars: the literal up to the next star outside a class. *)
Fixpoint scan_literal (inrange : bool) (p : text) : text * text :=
  match p with
  | [] => ([], [])
  | c :: p' =>
    if Ascii.eqb c backslash then
      match p' with
      | d :: p'' => let '(a, b) := scan_literal inrange p'' in (c :: d :: a, b)
      | [] => ([c], [])
      end
    else if Ascii.eqb c "*" && negb inrange then ([], p)
    else
      let inrange := if Ascii.eqb c "[" then true else if Ascii.eqb c "]" then false else inrange in
      let '(a, b) := scan_literal inrange p' in (c :: a, b)
  end.
Fixpoint skip_stars (p : text) : bool * text :=
  match p with
  | c :: p' => if Ascii.eqb c "*" then (true, (skip_stars p').2) else (false, p)
  | [] => (false, [])
  end.

(** [utf8.DecodeRuneInString]: [RuneError] is 65533, of width 1 for an invalid
    byte and 0 for an empty string. *)
Definition rune_at (l : text) : Z * nat :=
  match decode_rune (map byte_of l) with
  | Some (r, w) => (r, w)
  | None => (65533, match l with [] => 0%nat | _ => 1%nat end)
  end.

(** [getEsc] *)
Definition get_esc (chunk : text) : option (Z * text) :=
  match chunk with
  | [] => None
  | c :: rest =>
    if Ascii.eqb c "-" || Ascii.eqb c "]" then None else
    let chunk := if Ascii.eqb c backslash then rest else chunk in
    let '(r, n) := rune_at chunk in
    if ((r =? 65533) && (n <=? 1)%nat) then None
    else match drop n chunk with [] => None | rest => Some (r, rest) end
  end.

(** The ranges of a class: whether one holds [r], and the chunk after the class. *)
Fixpoint class_go (fuel : nat) (r : Z) (first hit : bool) (chunk : text) : option (bool * text) :=
  match fuel, chunk with
  | S fuel, c :: rest =>
    if Ascii.eqb c "]" && negb first then Some (hit, rest) else
    '(lo, chunk) ← get_esc chunk;
    match chunk with
    | d :: after =>
      if Ascii.eqb d "-" then
        '(hi, chunk) ← get_esc after;
        class_go fuel r false (hit || (lo <=? r) && (r <=? hi)) chunk
      else class_go fuel r false (hit || (lo <=? r) && (r <=? lo)) chunk
    | [] => None
    end
  | _, _ => None
  end.

(** [matchChunk], as far as it succeeds: the rest of the name. *)
Fixpoint match_chunk (fuel : nat) (chunk s : text) : option text :=
  match fuel, chunk with
  | _, [] => Some s
  | O, _ => None
  | S fuel, c :: rest =>
    match s with
    | [] => None
    | d :: s' =>
      if Ascii.eqb c "[" then
        let '(r, n) := rune_at s in
        let '(negated, body) :=
          match rest with e :: body => if Ascii.eqb e "^" then (true, body) else (false, rest) | [] => (false, rest) end in
        '(hit, after) ← class_go (List.length chunk) r true false body;
        if Bool.eqb hit negated then None else match_chunk fuel after (drop n s)
      else if Ascii.eqb c "?" then
        if Ascii.eqb d slash then None else match_chunk fuel rest (drop (rune_at s).2 s)
      else if Ascii.eqb c backslash then
        match rest with
        | e :: rest => if Ascii.eqb e d then match_chunk fuel rest s' else None
        | [] => None
        end
      else if Ascii.eqb c d then match_chunk fuel rest s' else None
    end
  end.

(** The first place at or after [name] (after, for a star only) where the chunk
    matches; the last chunk must end the name. *)
Fixpoint place (star last : bool) (chunk name : text) : option text :=
  match match_chunk (List.length chunk) chunk name with
  | Some t =>
    if negb last || bool_decide (t = []) then Some t
    else match name with
         | c :: name' => if star && negb (Ascii.eqb c slash) then place star last chunk name' else None
         | [] => None
         end
  | None =>
    match name with
    | c :: name' => if star && negb (Ascii.eqb c slash) then place star last chunk name' else None
    | [] => None
    end
  end.

(** [path.Match] reports a match.  Each round consumes a part of the pattern. *)
Fixpoint match_go (fuel : nat) (pattern name : text) : bool :=
  match fuel, pattern with
  | _, [] => bool_decide (name = [])
  | O, _ => false
  | S fuel, _ =>
    let '(star, p) := skip_stars pattern in
    let '(chunk, rest) := scan_literal false p in
    if star && bool_decide (chunk = []) then negb (existsb (Ascii.eqb slash) name)
    else match place star (bool_decide (rest = [])) chunk name with
         | Some t => match_go fuel rest t
         | None => false
         end
  end.
Definition Match (pattern name : string) : bool :=
  match_go (String.length pattern) (T pattern) (T name).

Example match_table :
  map (fun '(p, n) => Match p n)
    [("*", "abc"); ("a*c", "abbc"); ("a*c", "abcd"); ("*.go", "x.go"); ("a?c", "abc"); ("[a-c]x", "bx");
     ("[^a-c]x", "bx"); ("[^a-c]x", "dx"); ("a\*", "a*"); ("a\*", "ab"); ("[", "["); ("[]a]", "]"); ("", "");
     ("*a*b", "xaybzb"); ("[x-]", "x"); ("a*", "a"); ("*b", "ab/b")]%string
  = [true; true; false; true; true; true; false; true; true; false; false; false; true; true; false; true; false].
Proof. vm_compute. reflexivity. Qed.

(** ** Globs over segments *)

(** [matchSegments]; the loop over the suffixes is [existsb] over them, and stops
    at the first that matches. *)
Fixpoint suffixes {A} (l : list A) : list (list A) :=
  match l with [] => [[]] | _ :: l' => l :: suffixes l' end.

Fixpoint matchSegments (pat seg : list string) : bool :=
  match pat with
  | [] => bool_decide (seg = [])
  | p :: pat' =>
    if (p =? "**")%string then
      match pat' with
      | [] => true
      | _ => existsb (fun suffix => matchSegments pat' suffix) (suffixes seg)
      end
    else match seg with
         | [] => false
         | s :: seg' => if Match p s then matchSegments pat' seg' else false
         end
  end.

Definition matchGlob (pattern p : string) : bool := matchSegments (Split slash pattern) (Split slash p).

(** ** Roles *)

Record ModelProfile := mkModelProfile {
  MP_ID : string; MP_CostTier : Z; MP_MaxTaskPoints : float; MP_ContextLimit : Z;
  MP_CapabilityTags : list string
}.
Record Role := mkRole {
  Role_Name : string; Role_Summary : string; Role_Skills : list string;
  Role_Scope : list string; Role_OutOfScope : list string; Role_Shortcuts : list string;
  Role_Grant : string; Role_EscalateTo : list string; Role_WIP : Z; Role_Kind : string;
  Role_Runtime : string; Role_Model : string; Role_Profile : ModelProfile;
  Role_FallbackTo : list string; Role_MaxPoints : float; Role_Prompt : string
}.
#[export] Instance ModelProfile_eq_dec : EqDecision ModelProfile. Proof. solve_decision. Defined.
#[export] Instance Role_eq_dec : EqDecision Role. Proof. solve_decision. Defined.

Definition no_profile : ModelProfile := mkModelProfile "" 0 zero 0 [].
Definition no_role : Role := mkRole "" "" [] [] [] [] "" [] 0 "" "" "" no_profile [] zero "".

Definition ModelID (r : Role) : string :=
  if (MP_ID (Role_Profile r) =? "")%string then Role_Model r else MP_ID (Role_Profile r).

(** [Role.TaskCapacity] *)
Definition role_capacity (r : Role) : float :=
  if flt zero (MP_MaxTaskPoints (Role_Profile r)) then MP_MaxTaskPoints (Role_Profile r) else Role_MaxPoints r.

Definition TrimPrefix (s p : string) : string :=
  if HasPrefix s p then String.substring (String.length p) (String.length s) s else s.

Definition InScope (r : Role) (p : string) : bool :=
  let p := Clean (TrimPrefix p "./") in
  if existsb (fun g => matchGlob g p) (Role_OutOfScope r) then false
  else match Role_Scope r with
       | [] => true
       | scope => existsb (fun g => matchGlob g p) scope
       end.

Definition ScopeOverlap (r : Role) (paths : list string) : Z :=
  match Role_Scope r with
  | [] => 0
  | _ => Z.of_nat (List.length (List.filter (InScope r) paths))
  end.

Definition CanRun (r : Role) (name : string) : bool :=
  match Role_Shortcuts r with [] => true | l => bool_decide (name ∈ l) end.

(** ** Capacity *)

Record TaskCapacityVerdict := mkCapacityVerdict {
  TCV_Fits : bool; TCV_Sized : bool; TCV_Required : float; TCV_Limit : float; TCV_Delta : float;
  TCV_Reason : string
}.
#[export] Instance TaskCapacityVerdict_eq_dec : EqDecision TaskCapacityVerdict.
Proof. solve_decision. Defined.

(** [strings.EqualFold(s, "planner")]: no letter of the word folds outside ASCII. *)
Definition is_planner (s : string) : bool := (ToLower s =? "planner")%string.

(** [TaskCapacity] *)
Definition TaskCapacity (role : Role) (required : float) (sized : bool) : TaskCapacityVerdict :=
  let limit := role_capacity role in
  let fits := mkCapacityVerdict true sized required limit (fsub limit required) "" in
  if fle limit zero then mkCapacityVerdict true sized required limit zero ""
  else if negb sized then
    if is_planner (Role_Kind role) then fits
    else mkCapacityVerdict false sized required limit (fsub limit required)
      ("role " ++ Role_Name role ++ " takes only estimated tasks (max " ++ format_g limit ++ " points)")
  else if flt limit required then
    mkCapacityVerdict false sized required limit (fsub limit required)
      ("task requires " ++ format_tenth required ++ " points, above role " ++ Role_Name role
       ++ "'s cap of " ++ format_g limit)
  else fits.

(** ** Explanations of a choice (routing.go) *)

Record RouteScore := mkScore {
  RS_CostTier : Z; RS_TokensPerCompleted : float; RS_TokenSamples : Z; RS_FirstPassSuccess : float;
  RS_SuccessSamples : Z; RS_LatencySeconds : float; RS_DomainFit : Z; RS_Total : float
}.
Record CandidateExplanation := mkCandidateExplanation {
  CE_Role : string; CE_Runtime : string; CE_Model : string; CE_Eligible : bool;
  CE_Exclusions : list string; CE_Score : RouteScore
}.
Record RouteSelection := mkSelection { RSel_Role : string; RSel_Runtime : string; RSel_Model : string }.
Record Explanation := mkExplanation {
  Ex_Candidates : list CandidateExplanation; Ex_Selected : RouteSelection; Ex_Source : string;
  Ex_Uplift : string
}.

(** ** The roster *)

Abbreviation roster := (gmap string Role).

Inductive team_error :=
  | NoName | DuplicateRole (name : string) | UnknownRole (name : string)
  | EscalatesToUnknown (from to : string) | ErrNoOwner.

(** [New] *)
Fixpoint new_go (roles : list Role) (t : roster) : team_error + roster :=
  match roles with
  | [] => inr t
  | r :: roles =>
    if (Role_Name r =? "")%string then inl NoName
    else if decide (is_Some (t !! Role_Name r)) then inl (DuplicateRole (Role_Name r))
    else new_go roles (<[Role_Name r := r]> t)
  end.
Definition New (roles : list Role) : team_error + roster := new_go roles ∅.

Definition Human : string := "human".

(** ** Escalation *)

(** The inner loop of [Route] over the targets of one role: an answer, or what
    has been seen and queued. *)
Definition hop : Type := string * list string.
Fixpoint targets_go (t : roster) (p : string) (cur : hop) (next : list string)
    (seen : gset string) (queue : list hop)
    : (team_error + list string) + (gset string * list hop) :=
  match next with
  | [] => inr (seen, queue)
  | n :: next =>
    if (n =? Human)%string || bool_decide (n ∈ seen) then targets_go t p cur next seen queue
    else match t !! n with
         | None => inl (inl (EscalatesToUnknown cur.1 n))
         | Some cand =>
           let chain := cur.2 ++ [n] in
           if InScope cand p then inl (inr chain)
           else targets_go t p cur next ({[n]} ∪ seen) (queue ++ [(n, chain)])
         end
  end.

(** The loop over the queue; every queued role is another one of the roster. *)
Fixpoint route_go (fuel : nat) (t : roster) (p : string) (seen : gset string) (queue : list hop)
    : team_error + list string :=
  match fuel, queue with
  | S fuel, cur :: queue =>
    match targets_go t p cur (Role_EscalateTo (default no_role (t !! cur.1))) seen queue with
    | inl answer => answer
    | inr (seen, queue) => route_go fuel t p seen queue
    end
  | _, _ => inl ErrNoOwner
  end.

Definition Route (t : roster) (from p : string) : team_error + list string :=
  match t !! from with
  | None => inl (UnknownRole from)
  | Some start =>
    if InScope start p then inr [from]
    else route_go (size t) t p {[from]} [(from, [from])]
  end.

(** ** Owners of a path *)

Definition literalPrefixLen (glob : string) : Z :=
  (fix go (l : text) : Z :=
     match l with
     | [] => 0
     | c :: l => if existsb (Ascii.eqb c) ["*"; "?"; "["]%char then 0 else 1 + go l
     end) (T glob).

Definition scopeSpecificity (r : Role) (p : string) : Z :=
  match Role_Scope r with
  | [] => -1
  | scope =>
    fold_left (fun best g => if matchGlob g p && (best <? literalPrefixLen g) then literalPrefixLen g else best)
      scope (-1)
  end.

(** The order [Owners] sorts by: the more specific first, then by name. *)
Definition owner_le (p : string) (a b : string * Role) : Prop :=
  scopeSpecificity b.2 p < scopeSpecificity a.2 p
  \/ scopeSpecificity b.2 p = scopeSpecificity a.2 p /\ String.le a.1 b.1.
#[export] Instance owner_le_dec p : RelDecision (owner_le p).
Proof. intros a b. unfold owner_le. apply _. Defined.

Definition Owners (t : roster) (p : string) : list string :=
  (merge_sort (owner_le p) (List.filter (fun e => InScope e.2 p) (map_to_list t))).*1.

Definition WIPExceeded (t : roster) (role : string) (active : Z) : bool :=
  match t !! role with
  | Some r => if Role_WIP r <=? 0 then false else Role_WIP r <=? active
  | None => false
  end.

(** ** What a glob covers *)

Inductive covers : list string -> list string -> Prop :=
  | covers_nil : covers [] []
  | covers_segment p s pat seg :
      p <> "**"%string -> Match p s = true -> covers pat seg -> covers (p :: pat) (s :: seg)
  | covers_any pre pat seg : covers pat seg -> covers ("**"%string :: pat) (pre ++ seg).
#[export] Hint Constructors covers : core.

Lemma elem_of_suffixes {A} (l k : list A) : k ∈ suffixes l <-> exists pre, l = pre ++ k.
Proof.
  induction l as [| x l IH]; simpl.
  - rewrite list_elem_of_singleton. split; [intros ->; by exists [] |].
    intros (pre & H). symmetry in H. by apply app_eq_nil in H as [_ ->].
  - rewrite elem_of_cons, IH. split.
    + intros [-> | (pre & ->)]; [by exists [] | by exists (x :: pre)].
    + intros ([| y pre] & H); [by left |]. injection H as -> ->. right. by exists pre.
Qed.

(** A glob matches exactly the paths it covers: a segment pattern one segment
    that [path.Match] accepts, a double star any number of segments. *)
Theorem matchSegments_spec pat seg : matchSegments pat seg = true <-> covers pat seg.
Proof.
  revert seg. induction pat as [| p pat IH]; intros seg; simpl.
  { rewrite bool_decide_eq_true. split; [by intros -> | by inversion 1]. }
  destruct (String.eqb_spec p "**") as [-> | Hp].
  - transitivity (exists k, k ∈ suffixes seg /\ covers pat k).
    + destruct pat as [| q pat].
      * split; [intros _ | done]. exists []. split; [| done]. apply elem_of_suffixes. exists seg. by rewrite app_nil_r.
      * rewrite existsb_elem. split; intros (k & Hk & H); exists k; (split; [done |]); by apply IH.
    + split.
      * intros (k & (pre & ->)%elem_of_suffixes & H). by constructor.
      * inversion 1; subst; [done |]. eexists. split; [apply elem_of_suffixes; by eexists | done].
  - destruct seg as [| s seg].
    + split; [done |]. by inversion 1.
    + destruct (Match p s) eqn:E.
      * rewrite IH. split; [by constructor |]. by inversion 1.
      * split; [done |]. inversion 1; congruence.
Qed.

(** Deny beats allow, and no declared scope allows. *)
Lemma InScope_spec r p :
  InScope r p = true <->
  let q := Clean (TrimPrefix p "./") in
  (forall g, g ∈ Role_OutOfScope r -> matchGlob g q = false)
  /\ (Role_Scope r = [] \/ exists g, g ∈ Role_Scope r /\ matchGlob g q = true).
Proof.
  cbv zeta. unfold InScope. destruct (existsb _ (Role_OutOfScope r)) eqn:E.
  - apply existsb_elem in E as (g & Hg & E). split; [done |]. intros [H _]. by rewrite H in E.
  - rewrite existsb_not_elem in E. destruct (Role_Scope r) as [| g l]; [tauto |].
    rewrite existsb_elem. naive_solver.
Qed.

(** ** Routes *)

Section route.
Context (t : roster) (from p : string).

(** [a] may escalate to [b]. *)
Definition escalates (a b : string) : Prop :=
  exists r, t !! a = Some r /\ b ∈ Role_EscalateTo r /\ b <> Human.

(** [from] reaches [b] over [k] escalations between known roles. *)
Inductive walk : nat -> string -> Prop :=
  | walk_start : walk 0 from
  | walk_step k a b : walk k a -> escalates a b -> is_Some (t !! b) -> walk (S k) b.

(** A chain of escalations that ends with [b]. *)
Inductive chain_to : list string -> string -> Prop :=
  | chain_start : chain_to [from] from
  | chain_step l a b : chain_to l a -> escalates a b -> is_Some (t !! b) -> chain_to (l ++ [b]) b.

Definition covering (n : string) : Prop := exists r, t !! n = Some r /\ InScope r p = true.
Definition passed (n : string) : Prop := exists r, t !! n = Some r /\ InScope r p = false.

Lemma chain_walk l n : chain_to l n -> exists k, List.length l = S k /\ walk k n.
Proof.
  induction 1 as [| l a b _ (k & Hl & Hw) Hab Hb]; [exists 0%nat; split; [done | constructor] |].
  exists (S k). rewrite List.length_app, Hl. simpl. split; [lia | by econstructor].
Qed.

(** The inner loop: either a target answers, or all of them are seen. *)
Inductive targets_result (cur : hop) (next : list string) (seen : gset string) (queue : list hop)
    : (team_error + list string) + (gset string * list hop) -> Prop :=
  | targets_found n : n ∈ next -> n <> Human -> n ∉ seen -> covering n ->
      targets_result cur next seen queue (inl (inr (cur.2 ++ [n])))
  | targets_unknown n : n ∈ next -> n <> Human -> n ∉ seen -> t !! n = None ->
      targets_result cur next seen queue (inl (inl (EscalatesToUnknown cur.1 n)))
  | targets_all added seen' queue' : NoDup added ->
      seen' = list_to_set added ∪ seen -> queue' = queue ++ map (fun n => (n, cur.2 ++ [n])) added ->
      (forall n, n ∈ added -> n ∈ next /\ n <> Human /\ n ∉ seen /\ passed n) ->
      (forall n, n ∈ next -> n <> Human -> n ∈ seen \/ n ∈ added) ->
      targets_result cur next seen queue (inr (seen', queue')).

Lemma targets_go_spec cur next seen queue :
  targets_result cur next seen queue (targets_go t p cur next seen queue).
Proof.
  revert seen queue. induction next as [| n next IH]; intros seen queue; simpl.
  { apply (targets_all _ _ _ _ []); [constructor | set_solver | by rewrite app_nil_r |..]; set_solver. }
  destruct ((n =? Human)%string || bool_decide (n ∈ seen)) eqn:E.
  - apply orb_true_iff in E.
    destruct (IH seen queue) as [m ? ? ? ? | m ? ? ? ? | added ? ? ? -> -> Ha Hs]; [econstructor; eauto; set_solver .. |].
    eapply targets_all; [done | done | done | set_solver |]. intros m [-> | ?]%elem_of_cons ?; [| eauto].
    left. destruct E as [?%String.eqb_eq | ?%bool_decide_eq_true]; done.
  - apply orb_false_iff in E as [Hh%String.eqb_neq Hn%bool_decide_eq_false].
    destruct (t !! n) as [cand |] eqn:En; [| eapply targets_unknown; eauto; set_solver].
    destruct (InScope cand p) eqn:Es; [eapply targets_found; eauto; [set_solver | by exists cand] |].
    destruct (IH ({[n]} ∪ seen) (queue ++ [(n, cur.2 ++ [n])])) as [m ? ? ? ? | m ? ? ? ? | added ? ? ? -> -> Ha Hs];
      [eapply targets_found; eauto; set_solver | eapply targets_unknown; eauto; set_solver |].
    apply (targets_all _ _ _ _ (n :: added)); [| set_solver | by rewrite <- app_assoc |..].
    + constructor; [| done]. intros Hin. apply Ha in Hin as (_ & _ & ? & _). set_solver.
    + intros m [-> | Hm]%elem_of_cons.
      * split_and!; [set_solver | done | done | by exists cand].
      * apply Ha in Hm as (? & ? & ? & ?). split_and!; [set_solver | done | set_solver | done].
    + intros m [-> | Hm]%elem_of_cons Hmh; [right; set_solver |]. destruct (Hs m Hm Hmh); set_solver.
Qed.

(** The state of the breadth-first search while it works on level [d]. *)
Record bfs (d : nat) (seen : gset string) (queue : list hop) : Prop := mkBfs {
  bfs_levels : exists q1 q2, queue = q1 ++ q2
    /\ (forall h, h ∈ q1 -> List.length h.2 = S d) /\ (forall h, h ∈ q2 -> List.length h.2 = S (S d));
  bfs_entry h : h ∈ queue ->
    chain_to h.2 h.1 /\ h.1 ∈ seen /\ (forall k, walk k h.1 -> (List.length h.2 <= S k)%nat);
  bfs_seen n : n ∈ seen -> passed n;
  bfs_near k n : walk k n -> (k <= d)%nat -> n ∈ seen;
  bfs_done n : n ∈ seen -> (exists h, h ∈ queue /\ h.1 = n) \/ forall b, escalates n b -> b ∈ seen
}.

Lemma bfs_level d seen cur queue :
  bfs d seen (cur :: queue) -> exists d, List.length cur.2 = S d /\ bfs d seen (cur :: queue).
Proof.
  intros [(q1 & q2 & E & H1 & H2) He Hs Hn Hd]. destruct q1 as [| h q1].
  - exists (S d). split; [apply H2; simpl in E; rewrite <- E; left |]. constructor; [| done | done | | done].
    + exists (cur :: queue), []. rewrite app_nil_r. split_and!; [done | | by intros ? ?%elem_of_nil].
      intros h Hh. apply H2. simpl in E. by rewrite <- E.
    + intros k n Hw Hk. destruct (decide (k = S d)) as [-> |]; [| apply (Hn k); [done | lia]].
      inversion Hw as [| ? a ? Ha Hab Hb]; subst.
      destruct (Hd a (Hn _ _ Ha ltac:(lia))) as [(h & Hh & <-) | Hall]; [| by apply Hall].
      pose proof (proj2 (proj2 (He h Hh)) _ Ha) as Hl. simpl in E. rewrite E in Hh. apply H2 in Hh. lia.
  - exists d. injection E as <- E. split; [apply H1; left |]. constructor; try done.
    exists (cur :: q1), q2. by rewrite E.
Qed.

Lemma not_covering n : passed n -> covering n -> False.
Proof. intros (r & Hr & E) (r' & Hr' & E'). congruence. Qed.

Lemma bfs_step d seen cur queue added :
  List.length cur.2 = S d -> bfs d seen (cur :: queue) -> NoDup added ->
  (forall n, n ∈ added -> escalates cur.1 n /\ n ∉ seen /\ passed n) ->
  (forall n, escalates cur.1 n -> n ∈ seen \/ n ∈ added) ->
  bfs d (list_to_set added ∪ seen) (queue ++ map (fun n => (n, cur.2 ++ [n])) added).
Proof.
  intros Hl [(q1 & q2 & E & H1 & H2) He Hs Hn Hd] Hnd Ha Hall.
  assert (forall h, h ∈ map (fun n => (n, cur.2 ++ [n])) added -> h.1 ∈ added /\ h.2 = cur.2 ++ [h.1]) as Hnew.
  { intros h (n & -> & Hin)%list_elem_of_fmap. done. }
  constructor.
  - destruct q1 as [| c q1].
    { exfalso. simpl in E. assert (cur ∈ q2) as Hc by (rewrite <- E; left). apply H2 in Hc. lia. }
    injection E as <- ->. exists q1, (q2 ++ map (fun n => (n, cur.2 ++ [n])) added).
    rewrite app_assoc. split_and!; [done | set_solver |]. intros h [Hh | Hh]%elem_of_app; [by apply H2 |].
    apply Hnew in Hh as [_ ->]. rewrite List.length_app, Hl. simpl. lia.
  - intros h [Hh | Hh]%elem_of_app.
    + destruct (He h) as (? & ? & ?); [by right |]. split_and!; [done | set_solver | done].
    + apply Hnew in Hh as [Hin ->]. destruct (Ha _ Hin) as (Hesc & Hns & (r & Hr & Es)). split_and!.
      * econstructor; [apply (He cur); left | done | by rewrite Hr].
      * set_solver.
      * intros k Hw. rewrite List.length_app, Hl. simpl.
        destruct (decide (k <= d)%nat); [| lia]. destruct Hns. by apply (Hn k).
  - intros n [Hin%elem_of_list_to_set | ?]%elem_of_union; [by apply Ha | by apply Hs].
  - intros k n Hw Hk. apply elem_of_union. right. by apply (Hn k).
  - intros n [Hin%elem_of_list_to_set | Hin]%elem_of_union.
    + left. exists (n, cur.2 ++ [n]). split; [| done]. apply elem_of_app. right. apply list_elem_of_fmap. by exists n.
    + destruct (Hd n Hin) as [(h & [-> | Hh]%elem_of_cons & <-) | Hb].
      * right. intros b Hb%Hall. set_solver.
      * left. exists h. set_solver.
      * right. intros b ?%Hb. set_solver.
Qed.

(** What [Route] may answer from a known role out of scope. *)
Inductive answers : team_error + list string -> Prop :=
  | answers_chain l n : chain_to l n -> covering n ->
      (forall k m, walk k m -> covering m -> (List.length l <= S k)%nat) -> answers (inr l)
  | answers_unknown k a b : walk k a -> escalates a b -> t !! b = None ->
      answers (inl (EscalatesToUnknown a b))
  | answers_none :
      (forall k m, walk k m -> ~ covering m) ->
      (forall k a b, walk k a -> escalates a b -> is_Some (t !! b)) -> answers (inl ErrNoOwner).

Lemma bfs_empty d seen : bfs d seen [] -> answers (inl ErrNoOwner).
Proof.
  intros [_ _ Hs Hn Hd].
  assert (forall k m, walk k m -> m ∈ seen) as Hall.
  { induction 1 as [| k a b Ha IH Hab Hb]; [apply (Hn 0%nat); [constructor | lia] |].
    destruct (Hd a IH) as [(h & ?%elem_of_nil & _) | Hb']; [done | by apply Hb']. }
  constructor.
  - intros k m Hw Hc. eapply not_covering; eauto.
  - intros k a b Hw Hab. destruct (Hd a (Hall _ _ Hw)) as [(h & ?%elem_of_nil & _) | Hb]; [done |].
    destruct (Hs b (Hb _ Hab)) as (r & -> & _). done.
Qed.

Lemma route_go_spec fuel d seen queue :
  bfs d seen queue -> (List.length queue + size (dom t ∖ seen) <= fuel)%nat ->
  answers (route_go fuel t p seen queue).
Proof.
  revert d seen queue. induction fuel as [| fuel IH]; intros d seen [| cur queue] Hb Hf; simpl;
    try by eapply bfs_empty.
  { simpl in Hf. lia. }
  apply bfs_level in Hb as (d' & Hl & Hb). clear d. rename d' into d.
  destruct (bfs_entry _ _ _ Hb cur ltac:(left)) as (Hc & Hcs & _).
  destruct (bfs_seen _ _ _ Hb _ Hcs) as (r & Hr & _). rewrite Hr. simpl.
  assert (forall n, n ∈ Role_EscalateTo r -> n <> Human -> escalates cur.1 n) as Hesc by (intros n ? ?; by exists r).
  destruct (targets_go_spec cur (Role_EscalateTo r) seen queue) as [n Hn Hh Hns Hcov | n Hn Hh Hns Hun | added ? ? Hnd -> -> Ha Hs].
  - eapply answers_chain; [| done |].
    + econstructor; [done | by apply Hesc |]. destruct Hcov as (r' & -> & _). done.
    + intros k m Hw Hcm. rewrite List.length_app, Hl. simpl.
      destruct (decide (k <= d)%nat) as [Hk |]; [| lia]. exfalso.
      eapply not_covering; [| done]. eapply bfs_seen; [done |]. by eapply bfs_near.
  - apply chain_walk in Hc as (k & _ & Hw). eapply answers_unknown; eauto.
  - eapply IH; [apply bfs_step; [done | done | done | |] |].
    + intros n Hin. destruct (Ha n Hin) as (? & ? & ? & ?). eauto.
    + intros n (r' & Hr' & Hin & Hh). apply Hs; [| done]. congruence.
    + rewrite List.length_app, List.length_map. simpl in Hf.
      assert (size (list_to_set added : gset string) + size (dom t ∖ (list_to_set added ∪ seen)) <= size (dom t ∖ seen))%nat.
      { rewrite <- size_union by set_solver. apply subseteq_size. intros x [Hx | Hx]%elem_of_union; [| set_solver].
        apply elem_of_list_to_set, Ha in Hx as (_ & _ & ? & (r' & Hr' & _)).
        apply elem_of_difference. split; [by apply elem_of_dom_2 in Hr' | done]. }
      rewrite size_list_to_set in * by done. lia.
Qed.

(** An escalation route is a shortest one: [Route] answers the chain of
    escalations from the role to a role whose boundary covers the path, each step
    declared by the role before, and no shorter chain leads to such a role.
    Failing that it names an escalation to an unknown role it can reach, or says
    that no reachable role covers the path and every one it could ask is known. *)
Theorem Route_spec :
  match t !! from with
  | None => Route t from p = inl (UnknownRole from)
  | Some _ => answers (Route t from p)
  end.
Proof.
  unfold Route. destruct (t !! from) as [start |] eqn:Ef; [| done].
  destruct (InScope start p) eqn:Es.
  { eapply answers_chain; [constructor | by exists start |]. intros. simpl. lia. }
  eapply (route_go_spec _ 0).
  - constructor.
    + exists [(from, [from])], []. split_and!; [done | | by intros ? ?%elem_of_nil].
      by intros h ->%list_elem_of_singleton.
    + intros h ->%list_elem_of_singleton. split_and!; [constructor | set_solver | simpl; lia].
    + intros n ->%elem_of_singleton. by exists start.
    + intros k n Hw Hk. assert (k = 0)%nat as -> by lia. inversion Hw; subst. set_solver.
    + intros n ->%elem_of_singleton. left. eexists. split; [left | done].
  - simpl. rewrite size_difference by (apply singleton_subseteq_l; by apply elem_of_dom_2 in Ef).
    rewrite size_singleton, size_dom. assert (size t <> 0)%nat; [| lia].
    intros E%map_size_empty_inv. by rewrite E, lookup_empty in Ef.
Qed.
End route.

(** ** The owners of a path *)

#[export] Instance owner_le_trans p : Transitive (owner_le p).
Proof.
  intros a b c [H1 | [H1 L1]] [H2 | [H2 L2]]; unfold owner_le; [left; lia .. |].
  right. split; [lia | by etransitivity].
Qed.
#[export] Instance owner_le_total p : Total (owner_le p).
Proof.
  intros a b. unfold owner_le. destruct (Z.lt_total (scopeSpecificity a.2 p) (scopeSpecificity b.2 p)) as [? | [E | ?]];
    [tauto | | tauto]. destruct (total String.le a.1 b.1); auto.
Qed.

(** [Owners] lists each role whose boundary covers the path once, the more
    specific boundary first and roles of equal specificity by name. *)
Theorem Owners_spec t p :
  (forall n, n ∈ Owners t p <-> covering t p n) /\ NoDup (Owners t p)
  /\ StronglySorted (fun a b => exists r r', t !! a = Some r /\ t !! b = Some r' /\ owner_le p (a, r) (b, r')) (Owners t p).
Proof.
  unfold Owners. set (l := List.filter _ _).
  assert (forall e, e ∈ merge_sort (owner_le p) l <-> t !! e.1 = Some e.2 /\ InScope e.2 p = true) as Hin.
  { intros [n r]. rewrite (merge_sort_Permutation (owner_le p) l). unfold l.
    rewrite list_elem_of_In, filter_In, <- list_elem_of_In. by rewrite elem_of_map_to_list. }
  split_and!.
  - intros n. rewrite list_elem_of_fmap. split.
    + intros (e & -> & [? ?]%Hin). by exists e.2.
    + intros (r & Hr & Hs). exists (n, r). split; [done |]. by apply Hin.
  - apply NoDup_fmap_fst.
    + intros n r r' [H _]%Hin [H' _]%Hin. simpl in *. congruence.
    + rewrite (merge_sort_Permutation (owner_le p) l). apply NoDup_ListNoDup, List.NoDup_filter, NoDup_ListNoDup, NoDup_map_to_list.
  - assert (StronglySorted (owner_le p) (merge_sort (owner_le p) l)) as Hs
      by (apply Sorted_StronglySorted; [apply _ | apply Sorted_merge_sort, _]).
    assert (forall e, e ∈ merge_sort (owner_le p) l -> t !! e.1 = Some e.2) as Hl by (intros e He; by apply Hin in He as [? _]).
    clear Hin. revert Hs Hl. generalize (merge_sort (owner_le p) l). induction 1 as [| e k Hk IH He]; intros Hl; simpl; constructor.
    + apply IH. set_solver.
    + pose proof (proj1 (list.Forall_forall _ _) He) as Hall. apply list.Forall_forall.
      intros n (e' & -> & He')%list_elem_of_fmap. exists e.2, e'.2.
      split_and!; [apply Hl; left | apply Hl; by right |]. destruct e, e'. by apply Hall.
Qed.
