(* ===== verification/Strategy.v ===== *)
(** * Choosing the role for a task

    [internal/team/routing.go]: the words a role declares and a task uses, the
    gates and the score of a candidate, [Strategy.Select] with its uplift of
    consequential work, and [CheapestCapableForTitled]. *)

From Stdlib Require Import SpecFloat.
From stdpp Require Import pretty.
From S2P Require Import Prelude Floats GoStd Text Runes Team.
#[local] Open Scope Z_scope.

(** [strings.Fields], the current word innermost first *)
Fixpoint fields_go (l : list (Z * list Z)) (word : list (Z * list Z)) : list (list (Z * list Z)) :=
  match l with
  | [] => match word with [] => [] | _ => [rev word] end
  | x :: l =>
    if IsSpace x.1 then match word with [] => fields_go l [] | _ => rev word :: fields_go l [] end
    else fields_go l (x :: word)
  end.

(** The runes [strings.Trim] cuts from a word; 8212 is the em dash *)
Definition punctuation (r : Z) : bool :=
  bool_decide (r = 8212) || existsb (Ascii.eqb (of_byte r)) (T ".,:;!?'()-/" ++ [DQUOTE]) && (r <? 128).
Fixpoint drop_punctuation (l : list (Z * list Z)) : list (Z * list Z) :=
  match l with x :: l' => if punctuation x.1 then drop_punctuation l' else l | [] => [] end.
Definition trim_word (l : list (Z * list Z)) : string :=
  of_raw (rev (drop_punctuation (rev (drop_punctuation l)))).

Section words.
Context (u : Unicode).

(** [strings.Fields(strings.ToLower(text))], each word trimmed *)
Definition trimmed_words (s : string) : list string := map trim_word (fields_go (raw_runes (lower_text u s)) []).

Definition singular (w : string) : string :=
  if (len w <? 4) || negb (HasSuffix w "s") || HasSuffix w "ss" then w
  else String.substring 0 (String.length w - 1) w.

(** [taskWords], as the list of its keys *)
Definition taskWords (s : string) : list string :=
  concat (map (fun w => if (w =? "")%string then [] else [w; singular w]) (trimmed_words s)).

Definition stop_words : list string :=
  ["the"; "and"; "for"; "with"; "that"; "an"; "of"; "to"; "in"; "on"; "or"; "its"; "not"; "never"; "them";
   "their"; "code"; "work"; "task"; "tasks"; "role"; "best"; "practices"; "a"; "is"; "it"]%string.

Fixpoint summary_go (l seen : list string) : list string :=
  match l with
  | [] => []
  | w :: l =>
    if (len w <? 2) || bool_decide (w ∈ stop_words) || bool_decide (w ∈ seen) then summary_go l seen
    else w :: summary_go l (w :: seen)
  end.
Definition summaryWords (s : string) : list string := summary_go (trimmed_words s) [].

(** [strings.ReplaceAll(s, "-", " ")] *)
Fixpoint spaced (cs : list ascii) (s : string) : string :=
  match s with
  | EmptyString => EmptyString
  | String c s => String (if existsb (Ascii.eqb c) cs then SP else c) (spaced cs s)
  end.

Definition declaredTerms (r : Role) : list string :=
  map singular (summaryWords (Role_Summary r) ++ summaryWords (spaced ["-"%char] (Role_Name r))).

(** A term that exactly one of the roles declares. *)
Definition claimants (fit : list Role) (w : string) : nat :=
  List.length (List.filter (fun r => bool_decide (w ∈ declaredTerms r)) fit).
Definition distinctive (fit : list Role) (w : string) : bool := (claimants fit w =? 1)%nat.

Definition titleWeight : Z := 2.

Definition relevanceOf (r : Role) (title body : string) (paths : list string) (fit : list Role) : Z :=
  let inTitle := taskWords title in
  let inBody := taskWords body in
  fold_left (fun score w =>
      if negb (distinctive fit w) then score
      else if bool_decide (w ∈ inTitle) then score + titleWeight
      else if bool_decide (w ∈ inBody) then score + 1 else score)
    (declaredTerms r) (ScopeOverlap r paths * 2).

Definition consequential : list string :=
  ["security"; "auth"; "authentication"; "authorization"; "permission"; "migration"; "transaction";
   "transactional"; "persistence"; "database"; "sql"; "lease"; "recovery"; "destructive"; "ambiguous"]%string.

Definition HighConsequence (title : string) (paths : list string) : bool :=
  let words := taskWords (spaced ["/"; "_"; "-"]%char (title ++ " " ++ Join " " paths)) in
  existsb (fun w => bool_decide (w ∈ words)) consequential.

(** ** %q *)

Definition hex2 (z : Z) : string := string_of_list_ascii [hex_digit (z / 16); hex_digit (z mod 16)].
Definition quote_rune (x : Z * list Z) : string :=
  let '(r, raw) := x in
  match raw with
  | [b] => if (r =? 65533) then ("\x" ++ hex2 b)%string
    else if r =? 34 then String backslash quote
    else if r =? 92 then "\\"%string
    else if (32 <=? r) && (r <? 127) then string_of_bytes raw
    else if r =? 7 then "\a"%string else if r =? 8 then "\b"%string else if r =? 12 then "\f"%string
    else if r =? 10 then "\n"%string else if r =? 13 then "\r"%string else if r =? 9 then "\t"%string
    else if r =? 11 then "\v"%string
    else ("\x" ++ hex2 r)%string
  | _ =>
    if is_print u r then string_of_bytes raw
    else if r <? 65536 then u_escape r
    else ("\U" ++ hex4 (r / 65536) ++ hex4 (r mod 65536))%string
  end.
Definition Quote (s : string) : string := (quote ++ String.concat "" (map quote_rune (raw_runes s)) ++ quote)%string.

(** ** Candidates and scores *)

Record RouteRequirements := mkRequirements {
  RQ_Kind : string; RQ_Grant : string; RQ_Title : string; RQ_Body : string;
  RQ_Tools : list string; RQ_Paths : list string;
  RQ_TaskPoints : float; RQ_ContextNeeded : Z; RQ_TokenBudget : float; RQ_RequireTokenCeiling : bool
}.
Record RouteMetrics := mkMetrics {
  RM_TokensPerCompleted : float; RM_TokenSamples : Z; RM_FirstPassSuccess : float;
  RM_SuccessSamples : Z; RM_LatencySeconds : float
}.
Record RouteCandidate := mkCandidate {
  RCa_Role : Role; RCa_GrantEnforced : bool; RCa_ContextLimit : Z; RCa_CapacityRemaining : Z;
  RCa_RemainingBudget : float; RCa_ProviderPaused : bool; RCa_TokenCeilingEnforced : bool;
  RCa_Metrics : RouteMetrics
}.

Definition tierUnknown : Z := 99.
Definition ModelTier (declared : Z) : Z := if (declared <? 1) || (98 <? declared) then tierUnknown else declared.

Definition tier_of (r : Role) : Z := ModelTier (MP_CostTier (Role_Profile r)).

Definition strength (g : string) : Z :=
  let g := lower_text u g in if (g =? "ro")%string then 1 else if (g =? "rw")%string then 2 else 0.
Definition grantAtLeast (have need : string) : bool := (strength need <=? strength have) && (0 <? strength need).
Definition hasFold (values : list string) (want : string) : bool := existsb (fun v => EqualFold u v want) values.

(** The penalty of a history of fewer than ten samples. *)
Definition thin (n : Z) (penalty : float) : float :=
  if n <? 10 then fadd penalty (fmul (of_int (10 - n)) (of_int 10)) else penalty.

Definition scoreCandidate (c : RouteCandidate) (req : RouteRequirements) (all : list RouteCandidate) : RouteScore :=
  let r := RCa_Role c in
  let m := RCa_Metrics c in
  let fit := relevanceOf r (RQ_Title req) (RQ_Body req) (RQ_Paths req) (map RCa_Role all) in
  let penalty := thin (RM_SuccessSamples m) (thin (RM_TokenSamples m) zero) in
  let total :=
    fadd (fsub (fsub (fadd (fadd (fmul (of_int (tier_of r)) (of_int 100)) (fdiv (RM_TokensPerCompleted m) (of_int 100)))
                        (fdiv (RM_LatencySeconds m) (of_int 60)))
                  (fmul (RM_FirstPassSuccess m) (of_int 50)))
            (fmul (of_int fit) (of_int 10))) penalty in
  mkScore (tier_of r) (RM_TokensPerCompleted m) (RM_TokenSamples m) (RM_FirstPassSuccess m)
    (RM_SuccessSamples m) (RM_LatencySeconds m) fit total.

(** The reasons against a candidate, in the order of the code. *)
Definition when (c : bool) (reason : string) : list string := if c then [reason] else [].

Definition exclusions (c : RouteCandidate) (req : RouteRequirements) : list string :=
  let r := RCa_Role c in
  let capacity := TaskCapacity r (RQ_TaskPoints req) true in
  let expected := RM_TokensPerCompleted (RCa_Metrics c) in
  when (negb (EqualFold u (Role_Kind r) (RQ_Kind req)))
    ("role kind " ++ Quote (Role_Kind r) ++ " does not satisfy " ++ Quote (RQ_Kind req))
  ++ when (negb (grantAtLeast (Role_Grant r) (RQ_Grant req)) || negb (RCa_GrantEnforced c))
    "grant is not enforceable at the required strength"
  ++ concat (map (fun tool => when (negb (hasFold (MP_CapabilityTags (Role_Profile r)) tool))
                                ("missing required tools: " ++ tool)%string) (RQ_Tools req))
  ++ match List.find (fun p => negb (InScope r p)) (RQ_Paths req) with
     | Some p => [("scope excludes " ++ p)%string] | None => [] end
  ++ when (negb (TCV_Fits capacity))
    ("task capacity " ++ format_tenth (TCV_Limit capacity) ++ " is below " ++ format_tenth (TCV_Required capacity))
  ++ when (RCa_CapacityRemaining c <=? 0) "quota or concurrency capacity exhausted"
  ++ when ((0 <? RQ_ContextNeeded req) && ((RCa_ContextLimit c <=? 0) || (RCa_ContextLimit c <? RQ_ContextNeeded req)))
    "context limit is below task requirement"
  ++ when (RCa_ProviderPaused c) "provider paused by rolling budget"
  ++ when (RQ_RequireTokenCeiling req && negb (RCa_TokenCeilingEnforced c))
    "runtime cannot enforce the required token ceiling"
  ++ when (flt zero expected
           && ((flt zero (RCa_RemainingBudget c) && flt (RCa_RemainingBudget c) expected)
               || (flt zero (RQ_TokenBudget req) && flt (RQ_TokenBudget req) expected)))
    "remaining budget is below calibrated task cost".

Definition explain (req : RouteRequirements) (all : list RouteCandidate) (c : RouteCandidate) : CandidateExplanation :=
  let r := RCa_Role c in
  let ex := exclusions c req in
  mkCandidateExplanation (Role_Name r) (Role_Runtime r) (ModelID r) (bool_decide (ex = [])) ex
    (scoreCandidate c req all).

(** ** Ranking *)

(** The order of candidates: the eligible first, then by total, then by name. *)
Definition ranks_before (a b : CandidateExplanation) : bool :=
  if negb (Bool.eqb (CE_Eligible a) (CE_Eligible b)) then CE_Eligible a
  else if negb (feq (RS_Total (CE_Score a)) (RS_Total (CE_Score b)))
  then flt (RS_Total (CE_Score a)) (RS_Total (CE_Score b))
  else String.ltb (CE_Role a) (CE_Role b).

Definition upliftCompatible (from to : CandidateExplanation) (req : RouteRequirements)
    (all : list RouteCandidate) : bool :=
  let role := match List.find (fun c => (Role_Name (RCa_Role c) =? CE_Role to)%string) all with
              | Some c => RCa_Role c | None => no_role end in
  (RS_DomainFit (CE_Score from) <? RS_DomainFit (CE_Score to))
  || (negb (bool_decide (RQ_Paths req = [])) && (0 <? ScopeOverlap role (RQ_Paths req)))
  || bool_decide (Role_Scope role = [])
  || existsb (fun scope => (scope =? "**")%string || (scope =? "**/*")%string) (Role_Scope role).

Definition selection_of (c : CandidateExplanation) : RouteSelection :=
  mkSelection (CE_Role c) (CE_Runtime c) (CE_Model c).

Definition cheapest_source : string :=
  "cheapest capable by cost, capacity, kind, scope, grant, and live availability".

(** [Strategy.Select] *)
Definition Select (req : RouteRequirements) (candidates : list RouteCandidate) : Explanation :=
  let ranked := slice_stable ranks_before (map (explain req candidates) candidates) in
  match ranked with
  | pick :: _ =>
    if negb (CE_Eligible pick) then mkExplanation ranked (mkSelection "" "" "") cheapest_source ""
    else if HighConsequence (RQ_Title req) (RQ_Paths req) then
      match List.find (fun c =>
              CE_Eligible c && (RS_CostTier (CE_Score pick) <? RS_CostTier (CE_Score c))
              && (RS_CostTier (CE_Score c) <? tierUnknown) && upliftCompatible pick c req candidates) ranked with
      | Some c =>
        mkExplanation ranked (selection_of c) "consequence-aware uplift after cheapest-capable eligibility"
          ("high-consequence work uplifted from " ++ CE_Role pick ++ " (tier " ++ pretty (RS_CostTier (CE_Score pick))
           ++ ") to " ++ CE_Role c ++ " (tier " ++ pretty (RS_CostTier (CE_Score c)) ++ ")")
      | None => mkExplanation ranked (selection_of pick) cheapest_source ""
      end
    else mkExplanation ranked (selection_of pick) cheapest_source ""
  | [] => mkExplanation ranked (mkSelection "" "" "") cheapest_source ""
  end.

(** ** CheapestCapableForTitled *)

Definition capacityRank (r : Role) : float :=
  if fle (role_capacity r) zero then of_int (2 ^ 30) else role_capacity r.

Definition may_take (kind : string) (te : float) (r : Role) : bool :=
  EqualFold u (Role_Kind r) kind && TCV_Fits (TaskCapacity r te true).

(** [rel]: the scores by name, later roles of the same name written over earlier
    ones, and whether one was positive when it was written. *)
Definition relevances (fit : list Role) (title body : string) (files : list string) : gmap string Z :=
  fold_left (fun m r => <[Role_Name r := relevanceOf r title body files fit]> m) fit ∅.
Definition discriminates (fit : list Role) (title body : string) (files : list string) : bool :=
  existsb (fun r => 0 <? relevanceOf r title body files fit) fit.

Definition cheaper (rel : gmap string Z) (discriminating : bool) (files : list string) (a b : Role) : bool :=
  let ra := default 0 (rel !! Role_Name a) in
  let rb := default 0 (rel !! Role_Name b) in
  if negb (Bool.eqb (tier_of a =? tierUnknown) (tier_of b =? tierUnknown)) then negb (tier_of a =? tierUnknown)
  else if negb (tier_of a =? tier_of b) then tier_of a <? tier_of b
  else if discriminating && negb (ra =? rb) then rb <? ra
  else if negb (feq (capacityRank a) (capacityRank b)) then flt (capacityRank a) (capacityRank b)
  else if negb (ScopeOverlap a files =? ScopeOverlap b files) then ScopeOverlap b files <? ScopeOverlap a files
  else String.ltb (Role_Name a) (Role_Name b).

Definition CheapestCapableForTitled (roles : list Role) (kind : string) (te : float) (files : list string)
    (title body : string) : option Role :=
  let fit := List.filter (may_take kind te) roles in
  match slice_stable (cheaper (relevances fit title body files) (discriminates fit title body files) files) fit with
  | r :: _ => Some r
  | [] => None
  end.
Definition CheapestCapableFor roles kind te files taskText := CheapestCapableForTitled roles kind te files taskText "".
Definition CheapestCapable roles kind te files := CheapestCapableFor roles kind te files "".
End words.

(** ** What a choice guarantees *)

Section choice.
Context (u : Unicode).

(** Every gate of [Select], stated on its own. *)
Record capable (req : RouteRequirements) (c : RouteCandidate) : Prop := {
  cap_kind : EqualFold u (Role_Kind (RCa_Role c)) (RQ_Kind req) = true;
  cap_grant : grantAtLeast u (Role_Grant (RCa_Role c)) (RQ_Grant req) = true /\ RCa_GrantEnforced c = true;
  cap_tools tool : tool ∈ RQ_Tools req -> hasFold u (MP_CapabilityTags (Role_Profile (RCa_Role c))) tool = true;
  cap_paths p : p ∈ RQ_Paths req -> InScope (RCa_Role c) p = true;
  cap_points : TCV_Fits (TaskCapacity (RCa_Role c) (RQ_TaskPoints req) true) = true;
  cap_slots : 0 < RCa_CapacityRemaining c;
  cap_context : 0 < RQ_ContextNeeded req -> RQ_ContextNeeded req <= RCa_ContextLimit c;
  cap_live : RCa_ProviderPaused c = false;
  cap_ceiling : RQ_RequireTokenCeiling req = true -> RCa_TokenCeilingEnforced c = true;
  cap_budget : let expected := RM_TokensPerCompleted (RCa_Metrics c) in
    flt zero expected = true ->
    (flt zero (RCa_RemainingBudget c) = true -> flt (RCa_RemainingBudget c) expected = false)
    /\ (flt zero (RQ_TokenBudget req) = true -> flt (RQ_TokenBudget req) expected = false)
}.

Lemma when_nil c reason : when c reason = [] <-> c = false.
Proof. by destruct c. Qed.

Lemma concat_map_nil {A B} (f : A -> list B) l : concat (map f l) = [] <-> forall x, x ∈ l -> f x = [].
Proof.
  induction l as [| x l IH]; simpl; [split; [by intros _ ? ?%elem_of_nil | done] |].
  rewrite app_nil, IH. set_solver.
Qed.

Lemma exclusions_nil req c : exclusions u c req = [] <-> capable req c.
Proof.
  unfold exclusions. rewrite !app_nil, !when_nil, concat_map_nil.
  assert (match List.find (fun p => negb (InScope (RCa_Role c) p)) (RQ_Paths req) with
          | Some p => [("scope excludes " ++ p)%string] | None => [] end = []
          <-> forall p, p ∈ RQ_Paths req -> InScope (RCa_Role c) p = true) as ->.
  { destruct (List.find _ _) eqn:E.
    - apply find_some in E as [Hin%list_elem_of_In E%negb_true_iff]. split; [done |]. intros H. by rewrite H in E.
    - split; [| done]. intros _ p Hp. apply list_elem_of_In in Hp. apply (find_none _ _ E) in Hp.
      by apply negb_false_iff in Hp. }
  setoid_rewrite when_nil. rewrite !orb_false_iff, !andb_false_iff, !orb_false_iff, !negb_false_iff.
  setoid_rewrite negb_false_iff. rewrite !andb_false_iff, !Z.leb_gt, !Z.ltb_ge. split.
  - intros (H1 & [H2 H3] & H4 & H5 & H6 & H7 & H8 & H9 & H10 & H11).
    constructor; try done; [lia | destruct H10; congruence |]. cbv zeta. intros Hx.
    destruct H11 as [H11 | [Ha Hb]]; [congruence |]. split; intros; [destruct Ha | destruct Hb]; congruence.
  - intros [H1 [H2 H3] H4 H5 H6 H7 H8 H9 H10 H11]. cbv zeta in H11. split_and!; try done.
    + destruct (Z.le_gt_cases (RQ_ContextNeeded req) 0); [by left | right]. split; lia.
    + destruct (RQ_RequireTokenCeiling req); auto.
    + destruct (flt zero _) eqn:E; [right | by left]. destruct (H11 eq_refl) as [Ha Hb].
      split; [destruct (flt zero (RCa_RemainingBudget c)) | destruct (flt zero (RQ_TokenBudget req))]; auto.
Qed.

(** [ranks_before] puts every eligible candidate before the others ... *)
Lemma slice_eligible l x k :
  slice_stable ranks_before l = x :: k -> CE_Eligible x = false -> forall y, y ∈ l -> CE_Eligible y = false.
Proof.
  intros E Hx y Hy.
  assert (y = x \/ (CE_Eligible y = true -> CE_Eligible x = true)) as [-> | H].
  { eapply (slice_stable_head _ (fun a b => CE_Eligible b = true -> CE_Eligible a = true) (fun _ => True)); eauto;
      clear; intros a b; unfold ranks_before; destruct (CE_Eligible a), (CE_Eligible b); simpl; auto. }
  - done.
  - destruct (CE_Eligible y); [| done]. rewrite H in Hx by done. done.
Qed.

(** ... and the least total first, where the totals are numbers. *)
Lemma slice_least l x k :
  (forall y, y ∈ l -> is_nan (RS_Total (CE_Score y)) = false) ->
  slice_stable ranks_before l = x :: k -> forall y, y ∈ l -> CE_Eligible y = CE_Eligible x ->
  flt (RS_Total (CE_Score y)) (RS_Total (CE_Score x)) = false.
Proof.
  intros Hn E y Hy He.
  set (R := fun a b => CE_Eligible a = true /\ CE_Eligible b = false
    \/ CE_Eligible a = CE_Eligible b /\ flt (RS_Total (CE_Score b)) (RS_Total (CE_Score a)) = false).
  assert (y = x \/ R x y) as [-> | [[E1 E2] | [_ H]]].
  { eapply (slice_stable_head _ R (fun a => is_nan (RS_Total (CE_Score a)) = false)); eauto.
    - intros a b _ _. unfold R, ranks_before. destruct (CE_Eligible a), (CE_Eligible b); simpl; auto.
      all: right; split; [done |]; destruct (feq _ _) eqn:Ef; simpl in *; [apply feq_flt; by rewrite feq_sym | by apply flt_asym].
    - intros a b _ _. unfold R, ranks_before. destruct (CE_Eligible a), (CE_Eligible b); simpl; auto.
      all: right; split; [done |]; destruct (feq _ _) eqn:Ef; simpl in *; [by apply feq_flt | done].
    - intros a b c Ha Hb Hc [[H1 H2] | [H1 H2]] [[H3 H4] | [H3 H4]]; unfold R;
        [congruence | left; split; congruence .. |].
      right. split; [congruence |]. by apply (flt_trans_false _ (RS_Total (CE_Score b))). }
  - apply flt_irrefl.
  - congruence.
  - done.
Qed.

(** The candidate [Select] explains under a name. *)
Definition picks (req : RouteRequirements) (all : list RouteCandidate) (c : RouteCandidate) (s : RouteSelection) : Prop :=
  c ∈ all /\ capable req c /\ s = mkSelection (Role_Name (RCa_Role c)) (Role_Runtime (RCa_Role c)) (ModelID (RCa_Role c)).
Definition total (req : RouteRequirements) (all : list RouteCandidate) (c : RouteCandidate) : float :=
  RS_Total (scoreCandidate u c req all).

(** No capable candidate scores better than [c], where the scores are numbers. *)
Definition unbeaten (req : RouteRequirements) (all : list RouteCandidate) (c : RouteCandidate) : Prop :=
  (forall c', c' ∈ all -> is_nan (total req all c') = false) ->
  forall c', c' ∈ all -> capable req c' -> flt (total req all c') (total req all c) = false.

(** A choice that is right: [best] is unbeaten, and chosen unless the work is
    consequential and a capable candidate of a known, dearer tier is. *)
Definition right_choice (req : RouteRequirements) (all : list RouteCandidate) (ex : Explanation) : Prop :=
  exists best c, best ∈ all /\ capable req best /\ unbeaten req all best /\ picks req all c (Ex_Selected ex)
  /\ (Ex_Uplift ex = "" -> c = best)
  /\ (Ex_Uplift ex <> "" -> HighConsequence u (RQ_Title req) (RQ_Paths req) = true
      /\ tier_of (RCa_Role best) < tier_of (RCa_Role c) < tierUnknown).

Lemma explain_eligible req all c : CE_Eligible (explain u req all c) = true <-> capable req c.
Proof. unfold explain. cbn [CE_Eligible]. by rewrite bool_decide_eq_true, exclusions_nil. Qed.

(** The head of the ranking, when it is eligible. *)
Lemma ranked_best req all c k :
  slice_stable ranks_before (map (explain u req all) all) = explain u req all c :: k ->
  capable req c -> unbeaten req all c.
Proof.
  intros E Hc Hn c' Hc' Hcap. apply (slice_least (map (explain u req all) all) (explain u req all c) k) with (y := explain u req all c'); [| done | |].
  - intros y (x & -> & Hx)%list_elem_of_fmap. by apply Hn.
  - apply list_elem_of_fmap. by exists c'.
  - apply (explain_eligible req all) in Hc, Hcap. by rewrite Hc.
Qed.

(** C39: [Select] chooses a capable candidate whenever there is one and nothing
    otherwise.  Without an uplift no capable candidate scores better than the
    chosen one; an uplift is for consequential work only, and goes from that best
    candidate to a capable one of a known, dearer tier.  Every candidate is
    explained. *)
Theorem Select_spec req all :
  let ex := Select u req all in
  Ex_Candidates ex ≡ₚ map (explain u req all) all
  /\ ((forall c, c ∈ all -> ~ capable req c) -> Ex_Selected ex = mkSelection "" "" "")
  /\ ((exists c, c ∈ all /\ capable req c) -> right_choice req all ex).
Proof.
  cbv zeta. unfold Select. set (l := map (explain u req all) all).
  pose proof (slice_stable_Permutation ranks_before l) as Hp.
  destruct (slice_stable ranks_before l) as [| pick k] eqn:E.
  { apply Permutation_nil in Hp. unfold l in Hp. destruct all; [| done]. simpl.
    split_and!; [done | done |]. by intros (? & ?%elem_of_nil & _). }
  assert (forall x, x ∈ pick :: k -> exists c, c ∈ all /\ x = explain u req all c) as Hx.
  { intros x Hx. rewrite Hp in Hx. apply list_elem_of_fmap in Hx as (c & -> & Hc). by exists c. }
  destruct (Hx pick ltac:(left)) as (best & Hb & ->).
  destruct (CE_Eligible (explain u req all best)) eqn:Ee; cbn [negb].
  2: { split_and!; [done | done |]. intros (c0 & Hc0 & Hcap). apply (explain_eligible req all) in Hcap.
       rewrite (slice_eligible _ _ _ E Ee) in Hcap; [done |]. apply list_elem_of_fmap. by exists c0. }
  apply explain_eligible in Ee. pose proof (ranked_best _ _ _ _ E Ee) as Hbest.
  assert (forall ex, Ex_Candidates ex = explain u req all best :: k -> Ex_Selected ex = selection_of (explain u req all best) ->
    Ex_Uplift ex = "" -> Ex_Candidates ex ≡ₚ l /\ ((forall c, c ∈ all -> ~ capable req c) -> Ex_Selected ex = mkSelection "" "" "")
    /\ ((exists c, c ∈ all /\ capable req c) -> right_choice req all ex)) as Hplain.
  { intros ex E1 E2 E3. rewrite E1. split_and!; [done | by intros H; destruct (H best Hb) |].
    intros _. exists best, best. rewrite E2, E3. split_and!; done. }
  destruct (HighConsequence u (RQ_Title req) (RQ_Paths req)) eqn:Eh; [| by apply Hplain].
  destruct (List.find _ (explain u req all best :: k)) as [x |] eqn:Ef; [| by apply Hplain].
  apply find_some in Ef as [Hin%list_elem_of_In Hf]. bool_facts. destruct (Hx x Hin) as (c & Hc & ->).
  split_and!; [done | by intros H'; destruct (H' best Hb) |]. intros _. exists best, c.
  split_and!; [done | done | done | split_and!; [done | by eapply explain_eligible | done] | done |].
  intros _. split; [done |]. cbn in *. lia.
Qed.

Lemma tier_bound r : tier_of r <= tierUnknown.
Proof. unfold tier_of, ModelTier, tierUnknown. destruct (_ || _) eqn:E; bool_facts; lia. Qed.

(** [CheapestCapable] finds a role exactly when one of the kind can hold the
    task, and one of the least price tier, roles without a known price last. *)
Theorem CheapestCapable_spec roles kind te files title body :
  match CheapestCapableForTitled u roles kind te files title body with
  | Some r => r ∈ roles /\ may_take u kind te r = true
      /\ forall r', r' ∈ roles -> may_take u kind te r' = true -> tier_of r <= tier_of r'
  | None => forall r, r ∈ roles -> may_take u kind te r = false
  end.
Proof.
  unfold CheapestCapableForTitled. set (fit := List.filter _ roles).
  assert (forall r, r ∈ fit <-> r ∈ roles /\ may_take u kind te r = true) as Hfit.
  { intros r. unfold fit. by rewrite list_elem_of_In, filter_In, <- list_elem_of_In. }
  set (less := cheaper _ _ _). pose proof (slice_stable_Permutation less fit) as Hp.
  destruct (slice_stable less fit) as [| r k] eqn:E.
  - intros r Hr. apply not_true_iff_false. intros Hm. assert (r ∈ fit) as Hin by by apply Hfit.
    rewrite <- Hp in Hin. by apply elem_of_nil in Hin.
  - assert (r ∈ fit) as [Hr Hm]%Hfit by (rewrite <- Hp; left). split_and!; [done | done |].
    intros r' Hr' Hm'.
    destruct (slice_stable_head less (fun a b => tier_of a <= tier_of b) (fun _ => True)) with (l := fit) (x := r) (k := k) (y := r')
      as [-> | ?]; try done; [ | | lia | by apply Hfit].
    all: intros a b _ _; unfold less, cheaper.
    all: pose proof (tier_bound a); pose proof (tier_bound b).
    all: destruct (tier_of a =? tierUnknown) eqn:Ea, (tier_of b =? tierUnknown) eqn:Eb; bool_facts; simpl; unfold tierUnknown in *;
      try lia; try done.
    all: destruct (tier_of a =? tier_of b) eqn:Eab; bool_facts; simpl; [lia |]; intros; bool_facts; lia.
Qed.
End choice.

(** ** An example roster *)

Definition role_at (name summary : string) (scope : list string) (tier points : Z) : Role :=
  mkRole name summary [] scope ["internal/secret/**"%string] [] "rw" [Human] 2 "implementer" "codex" name
    (mkModelProfile "" tier zero 0 ["go"%string]) [] (of_int points) "".
Definition candidate_at (r : Role) : RouteCandidate :=
  mkCandidate r true 0 1 zero false false (mkMetrics zero 0 zero 0 zero).
Definition junior := role_at "junior" "small fixes" ["internal/**"]%string 1 3.
Definition senior := role_at "senior" "database work" ["**"]%string 3 0.
Definition outsider := role_at "outsider" "docs" ["docs/*.md"]%string 2 8.
Definition requirement (title : string) (points : Z) : RouteRequirements :=
  mkRequirements "Implementer" "rw" title "" ["Go"]%string ["internal/store/dep.go"]%string (of_int points) 0 zero false.

Example choices :
  let all := map candidate_at [junior; senior; outsider] in
  map (fun '(title, n) => RSel_Role (Ex_Selected (Select ascii_unicode (requirement title n) all)))
    [("Rename a flag", 2); ("Rename a flag", 5); ("Fix the lease migration", 2)]%string
  = ["junior"; "senior"; "senior"]%string
  /\ map CE_Exclusions (Ex_Candidates (Select ascii_unicode (requirement "Rename a flag" 5) all))
     = [[]; ["task capacity 3.0 is below 5.0"]; ["scope excludes internal/store/dep.go"]]%string
  /\ Role_Name <$> CheapestCapable ascii_unicode [senior; outsider; junior] "implementer" (of_int 4) []
     = Some "outsider"%string.
Proof. vm_compute. split_and!; reflexivity. Qed.
