(* ===== verification/Disclosure.v ===== *)
(** * Disclosure policy and publication assessments

    [internal/publication/policy.go]: which projected fields a GitHub
    publication may carry, as a function of repository visibility and of the
    recorded authority ([New], [Allows], [ReasonFor]).

    [internal/governance/policy/publication.go]: the pure evaluator
    [EvaluatePublication] that turns an observation into a verdict with its
    reasons and obligations.

    A [Field] and an [Action] are strings, as in the source, because requests
    carry arbitrary ones.  The sanitizer of [publication.Policy] (regular
    expressions over text) is not modelled. *)

From S2P Require Import Prelude GoStd.
#[local] Open Scope Z_scope.

(** Go's [<=] on strings and the sort it induces. *)
Definition sort_strings : list string -> list string := merge_sort String.le.
Definition sort_unique : list string -> list string := sort_dedup String.le.

(** ** internal/publication *)

Inductive Visibility := VisibilityUnknown | VisibilityPrivate | VisibilityPublic.

#[export] Instance Visibility_eq_dec : EqDecision Visibility.
Proof. solve_decision. Defined.

Definition FieldTitle := "title"%string.
Definition FieldSummary := "summary"%string.
Definition FieldAcceptance := "acceptance"%string.
Definition FieldIssueRef := "issue_reference"%string.
Definition FieldIssueClose := "issue_closure"%string.
Definition FieldFindings := "findings"%string.
Definition FieldVerdicts := "verdicts"%string.
Definition FieldDecisions := "decisions"%string.
Definition FieldTranscripts := "transcripts"%string.
Definition FieldJournals := "journals"%string.
Definition FieldRecovery := "recovery_details"%string.
Definition FieldLocalPaths := "local_paths"%string.
Definition FieldCosts := "tokens_and_costs"%string.
Definition FieldIdentities := "agent_identities"%string.

Definition publicAllowlist : list string :=
  [FieldTitle; FieldSummary; FieldAcceptance; FieldIssueRef].
Definition internalFields : list string :=
  [FieldFindings; FieldVerdicts; FieldDecisions; FieldTranscripts; FieldJournals;
   FieldRecovery; FieldLocalPaths; FieldCosts; FieldIdentities].

Record Withheld := mkWithheld { Withheld_Field : string; Withheld_Reason : string }.

Record Policy := mkPolicy {
  Policy_Schema : string;
  Policy_Visibility : Visibility;
  Policy_Mode : string;
  Policy_Repository : string;
  Policy_InternalAuthority : bool;
  Policy_TerminalAuthority : bool;
  Policy_Allowed : list string;
  Policy_Withheld : list Withheld
}.

Definition Schema := "github-publication/v1"%string.

Definition ParseVisibility (raw : string) : Visibility :=
  let w := ToUpper (TrimSpace raw) in
  if (w =? "PRIVATE")%string || (w =? "INTERNAL")%string then VisibilityPrivate
  else if (w =? "PUBLIC")%string then VisibilityPublic
  else VisibilityUnknown.

Definition withheld_le (a b : Withheld) : Prop :=
  String.le (Withheld_Field a) (Withheld_Field b).
#[export] Instance withheld_le_dec : RelDecision withheld_le.
Proof. intros a b. unfold withheld_le. apply _. Defined.

Definition verdict_reason :=
  "verdict publication requires the explicit --with-verdicts request"%string.
Definition safe_reason :=
  "public-safe allowlist: separate recorded internal-disclosure authority is required"%string.
Definition unknown_reason :=
  "repository visibility is unknown; disclosure fails closed to the public-safe allowlist"%string.
Definition close_reason :=
  "nonterminal delivery uses a non-closing issue reference"%string.

Definition is_visibility (v w : Visibility) : bool := bool_decide (v = w).

Definition New (repository rawVisibility : string)
    (includeInternal recordedInternal terminal : bool) : Policy :=
  let visibility := ParseVisibility rawVisibility in
  let '(mode, authority, allowed, withheld) :=
    if is_visibility visibility VisibilityPrivate then
      ("private-explicit"%string, true,
       publicAllowlist
         ++ List.filter (fun field => negb (field =? FieldVerdicts)%string || includeInternal)
              internalFields,
       if includeInternal then [] else [mkWithheld FieldVerdicts verdict_reason])
    else
      let authority := is_visibility visibility VisibilityPublic
                       && includeInternal && recordedInternal in
      if authority then
        ("public-disclosed"%string, true, publicAllowlist ++ internalFields, [])
      else
        let reason := if is_visibility visibility VisibilityUnknown
                      then unknown_reason else safe_reason in
        ("public-safe"%string, false, publicAllowlist,
         map (fun field => mkWithheld field reason) internalFields) in
  let allowed := if terminal then allowed ++ [FieldIssueClose] else allowed in
  let withheld := if terminal then withheld
                  else withheld ++ [mkWithheld FieldIssueClose close_reason] in
  mkPolicy Schema visibility mode repository authority terminal
    (sort_strings allowed) (merge_sort withheld_le withheld).

Definition Allows (p : Policy) (field : string) : bool :=
  existsb (fun allowed => (allowed =? field)%string) (Policy_Allowed p).

Definition outside_reason := "field is outside the selected publication policy"%string.

Definition ReasonFor (p : Policy) (field : string) : string :=
  match List.find (fun w => (Withheld_Field w =? field)%string) (Policy_Withheld p) with
  | Some w => Withheld_Reason w
  | None => outside_reason
  end.

(** ** internal/governance/policy *)

Inductive Verdict := Allow | Deny | NeedsApproval.

#[export] Instance Verdict_eq_dec : EqDecision Verdict.
Proof. solve_decision. Defined.

Inductive ReasonCode :=
  | InvalidRequest | UnsupportedAction | UnsupportedClosure | FieldDenied
  | DisclosureApproval | PolicyAllows
  | NativePolicyDenied | NativeApprovalRequired | NativePolicyAllows.

#[export] Instance ReasonCode_eq_dec : EqDecision ReasonCode.
Proof. solve_decision. Defined.

Inductive Obligation :=
  | CurrentAuthorityConsumption | ExactProjectedPayload | RecordedDisclosure.

#[export] Instance Obligation_eq_dec : EqDecision Obligation.
Proof. solve_decision. Defined.

Definition IssueCreate := "issue-create"%string.
Definition IssueUpdate := "issue-update"%string.

(** [policy.Observation]: caller-supplied data. *)
Record Observation := mkObservation {
  Obs_ActorID : string;
  Obs_SessionID : string;
  Obs_AttemptID : string;
  Obs_WorkspaceID : string;
  Obs_InstallationID : string;
  Obs_AuthorityID : string;
  Obs_Repository : string;
  Obs_Resource : string;
  Obs_Action : string;
  Obs_Fields : list string;
  Obs_ProjectedPayloadSHA256 : string;
  Obs_PolicyRevision : string;
  Obs_LeaseID : string;
  Obs_LeaseGeneration : Z;
  Obs_NotBefore : time;
  Obs_ExpiresAt : time;
  Obs_ObservedAt : time;
  Obs_Visibility : string;
  Obs_IncludeInternal : bool;
  Obs_RecordedInternal : bool
}.

#[export] Instance Observation_settable : Settable Observation := fun o =>
  mkObservation (Obs_ActorID o) (Obs_SessionID o) (Obs_AttemptID o) (Obs_WorkspaceID o)
    (Obs_InstallationID o) (Obs_AuthorityID o) (Obs_Repository o) (Obs_Resource o)
    (Obs_Action o) (Obs_Fields o) (Obs_ProjectedPayloadSHA256 o) (Obs_PolicyRevision o)
    (Obs_LeaseID o) (Obs_LeaseGeneration o) (Obs_NotBefore o) (Obs_ExpiresAt o)
    (Obs_ObservedAt o) (Obs_Visibility o) (Obs_IncludeInternal o) (Obs_RecordedInternal o).

#[export] Instance Observation_json : ToJSON Observation := fun o =>
  JObject [("ActorID", JString (Obs_ActorID o)); ("SessionID", JString (Obs_SessionID o));
    ("AttemptID", JString (Obs_AttemptID o)); ("WorkspaceID", JString (Obs_WorkspaceID o));
    ("InstallationID", JString (Obs_InstallationID o));
    ("AuthorityID", JString (Obs_AuthorityID o)); ("Repository", JString (Obs_Repository o));
    ("Resource", JString (Obs_Resource o)); ("Action", JString (Obs_Action o));
    ("Fields", JStrings (Obs_Fields o));
    ("ProjectedPayloadSHA256", JString (Obs_ProjectedPayloadSHA256 o));
    ("PolicyRevision", JString (Obs_PolicyRevision o)); ("LeaseID", JString (Obs_LeaseID o));
    ("LeaseGeneration", JInt (Obs_LeaseGeneration o)); ("NotBefore", JTime (Obs_NotBefore o));
    ("ExpiresAt", JTime (Obs_ExpiresAt o)); ("ObservedAt", JTime (Obs_ObservedAt o));
    ("Visibility", JString (Obs_Visibility o)); ("IncludeInternal", JBool (Obs_IncludeInternal o));
    ("RecordedInternal", JBool (Obs_RecordedInternal o))]%string.

Record Reason := mkReason { Reason_Code : ReasonCode; Reason_Field : string; Reason_Detail : string }.

Record Assessment := mkAssessment {
  As_Verdict : Verdict;
  As_Assurance : string;
  As_Binding : Observation;
  As_ActionDigest : string;
  As_Reasons : list Reason;
  As_Obligations : list Obligation
}.

(** ** internal/governance/policy/native_acceptance.go *)

Record NativeAcceptanceObservation := mkNativeObservation {
  NAO_ActorID : string; NAO_Action : string; NAO_TaskID : string; NAO_ActionDigest : string;
  NAO_PolicyRevision : string;
  NAO_Allowed : bool; NAO_ApprovalRequired : bool; NAO_Approved : bool; NAO_Stopped : bool
}.
Record NativeAcceptanceAssessment := mkNativeAssessment {
  NAA_Verdict : Verdict;
  NAA_Assurance : string;
  NAA_Binding : NativeAcceptanceObservation;
  NAA_Reasons : list Reason;
  NAA_Obligations : list Obligation
}.
#[export] Instance NativeAcceptanceAssessment_settable : Settable NativeAcceptanceAssessment :=
  fun a => mkNativeAssessment (NAA_Verdict a) (NAA_Assurance a) (NAA_Binding a) (NAA_Reasons a)
    (NAA_Obligations a).

Definition EvaluateNativeAcceptance (o : NativeAcceptanceObservation) : NativeAcceptanceAssessment :=
  let out verdict code detail :=
    mkNativeAssessment verdict "observed-advisory" o [mkReason code "" detail]
      [CurrentAuthorityConsumption; ExactProjectedPayload] in
  if negb (NAO_Action o =? "native-task-accept")%string || (NAO_ActorID o =? "")%string
     || (NAO_TaskID o =? "")%string || (NAO_ActionDigest o =? "")%string
     || (NAO_PolicyRevision o =? "")%string
  then out Deny InvalidRequest "exact native action binding required"%string
  else if NAO_Stopped o || negb (NAO_Allowed o)
  then out Deny NativePolicyDenied "owner policy denies native acceptance"%string
  else if NAO_ApprovalRequired o && negb (NAO_Approved o)
  then out NeedsApproval NativeApprovalRequired "exact recorded owner approval required"%string
  else out Allow NativePolicyAllows "native acceptance policy allows exact local action"%string.

#[export] Instance Assessment_settable : Settable Assessment := fun a =>
  mkAssessment (As_Verdict a) (As_Assurance a) (As_Binding a) (As_ActionDigest a)
    (As_Reasons a) (As_Obligations a).

Definition alnum (c : ascii) : bool :=
  let z := byte_of c in
  ((48 <=? z) && (z <=? 57)) || ((65 <=? z) && (z <=? 90)) || ((97 <=? z) && (z <=? 122)).

(** [[A-Za-z0-9][A-Za-z0-9_.-]*] *)
Definition repository_segment (s : string) : bool :=
  match list_ascii_of_string s with
  | c :: rest =>
    alnum c && forallb (fun c => alnum c || existsb (Ascii.eqb c) ["_"; "."; "-"]%char) rest
  | [] => false
  end.
(** [repositoryPattern] *)
Definition repositoryPattern (s : string) : bool :=
  match Split slash s with
  | [owner; name] => repository_segment owner && repository_segment name
  | _ => false
  end.

Definition digit (c : ascii) : bool := let z := byte_of c in (48 <=? z) && (z <=? 57).
(** [issuePattern] *)
Definition issuePattern (s : string) : bool :=
  match list_ascii_of_string s with
  | c :: rest => digit c && negb (Ascii.eqb c "0") && forallb digit rest
  | [] => false
  end.

(** The identifiers [EvaluatePublication] refuses. *)
Definition invalid_binding_id (id : string) : bool :=
  blank id || negb (trimmed id) || ContainsAny id [NUL; CR; LF].

(** The canonical binding: sorted, deduplicated fields. *)
Definition canonical_observation (o : Observation) : Observation :=
  o <| Obs_Fields := sort_unique (Obs_Fields o) |>.

Definition refuse (code : ReasonCode) (field detail : string)
    (a : Verdict * list Reason) : Verdict * list Reason :=
  (Deny, snd a ++ [mkReason code field detail]).

(** [if c { refuse(...) }] *)
Definition refuse_if (c : bool) (code : ReasonCode) (field detail : string)
    (a : Verdict * list Reason) : Verdict * list Reason :=
  if c then refuse code field detail a else a.

Definition check_ids (b : Observation) : bool :=
  existsb invalid_binding_id
    [Obs_ActorID b; Obs_SessionID b; Obs_AttemptID b; Obs_WorkspaceID b;
     Obs_InstallationID b; Obs_AuthorityID b; Obs_PolicyRevision b; Obs_LeaseID b].

Definition check_payload (b : Observation) : bool :=
  negb (hex_decodable (Obs_ProjectedPayloadSHA256 b))
  || negb (len (Obs_ProjectedPayloadSHA256 b) =? 64)
  || negb (ToLower (Obs_ProjectedPayloadSHA256 b) =? Obs_ProjectedPayloadSHA256 b)%string.

Definition check_window (b : Observation) : bool :=
  negb (repositoryPattern (Obs_Repository b)) || (Obs_LeaseGeneration b =? 0)
  || bool_decide (Obs_Fields b = []) || (Obs_NotBefore b =? 0) || (Obs_ExpiresAt b =? 0)
  || (Obs_ObservedAt b =? 0) || negb (Obs_NotBefore b <? Obs_ExpiresAt b)
  || (Obs_ObservedAt b <? Obs_NotBefore b) || negb (Obs_ObservedAt b <? Obs_ExpiresAt b).

Definition check_action (b : Observation) (a : Verdict * list Reason) : Verdict * list Reason :=
  if (Obs_Action b =? IssueCreate)%string then
    refuse_if (negb (Obs_Resource b =? Obs_Repository b)%string)
      InvalidRequest "" "create resource must be exact repository" a
  else if (Obs_Action b =? IssueUpdate)%string then
    refuse_if (negb (issuePattern (Obs_Resource b)))
      InvalidRequest "" "update resource must be positive issue number" a
  else refuse UnsupportedAction "" "only issue create/update are supported" a.

(** One iteration of the loop over the requested fields. *)
Definition check_field (b : Observation) (p approved : Policy)
    (a : Verdict * list Reason) (f : string) : Verdict * list Reason :=
  if (f =? FieldIssueClose)%string then refuse UnsupportedClosure f (ReasonFor p f) a
  else if Allows p f then a
  else if is_visibility (Policy_Visibility p) VisibilityPublic
          && Obs_IncludeInternal b && negb (Obs_RecordedInternal b) && Allows approved f
  then (if decide (fst a = Deny) then Deny else NeedsApproval,
        snd a ++ [mkReason DisclosureApproval f (ReasonFor p f)])
  else refuse FieldDenied f (ReasonFor p f) a.

Definition EvaluatePublication (input : Observation) : Assessment :=
  let b := canonical_observation input in
  let obligations := [CurrentAuthorityConsumption; ExactProjectedPayload] in
  match marshal (JObject [("Domain", JString "dacli-publication-assessment/v1");
                          ("Binding", to_json b)]%string) with
  | None =>
    mkAssessment Deny "observed/advisory" b ""
      [mkReason InvalidRequest "" "binding cannot be canonically encoded"] obligations
  | Some encoded =>
    let a := (Allow, []) in
    let a := refuse_if (check_ids b) InvalidRequest "" "invalid binding identifier" a in
    let a := refuse_if (check_payload b) InvalidRequest ""
               "expected lowercase SHA256 projected payload digest" a in
    let a := refuse_if (check_window b) InvalidRequest ""
               "invalid repository, lease or validity window" a in
    let a := check_action b a in
    let p := New (Obs_Repository b) (Obs_Visibility b) (Obs_IncludeInternal b)
               (Obs_RecordedInternal b) false in
    let approved := New (Obs_Repository b) (Obs_Visibility b) (Obs_IncludeInternal b)
                      true false in
    let '(verdict, reasons) := fold_left (check_field b p approved) (Obs_Fields b) a in
    mkAssessment verdict "observed/advisory" b (sha256_hex encoded)
      (if decide (reasons = [])
       then [mkReason PolicyAllows "" "supplied publication policy allows requested fields"]
       else reasons)
      (if decide (verdict = NeedsApproval) then obligations ++ [RecordedDisclosure]
       else obligations)
  end.

(** ** The disclosure decision *)

Lemma Allows_elem p f : Allows p f = true <-> f ∈ Policy_Allowed p.
Proof.
  unfold Allows. rewrite existsb_elem. split.
  - intros (x & Hx & ->%String.eqb_eq). done.
  - intros Hf. exists f. by rewrite String.eqb_refl.
Qed.

Definition withholds (p : Policy) (f : string) : bool :=
  existsb (fun w => (Withheld_Field w =? f)%string) (Policy_Withheld p).

(** What each visibility discloses, stated without lists. *)
Definition discloses (v : Visibility) (includeInternal recordedInternal terminal : bool)
    (f : string) : Prop :=
  f ∈ publicAllowlist
  \/ (f = FieldIssueClose /\ terminal = true)
  \/ (f ∈ internalFields /\
      match v with
      | VisibilityPrivate => f <> FieldVerdicts \/ includeInternal = true
      | VisibilityPublic => includeInternal = true /\ recordedInternal = true
      | VisibilityUnknown => False
      end).

Lemma New_Allows repo raw inc rec term f :
  Allows (New repo raw inc rec term) f = true
  <-> discloses (ParseVisibility raw) inc rec term f.
Proof.
  rewrite Allows_elem. unfold New.
  destruct (ParseVisibility raw), inc, rec, term; simpl;
    unfold sort_strings; rewrite merge_sort_Permutation;
    unfold discloses, publicAllowlist, internalFields; simpl; set_unfold;
    split; intros; destruct_or?; naive_solver.
Qed.

Lemma withholds_elem p f : withholds p f = true <-> f ∈ map Withheld_Field (Policy_Withheld p).
Proof.
  unfold withholds. rewrite existsb_elem, list_elem_of_fmap. split.
  - intros (x & Hx & <-%String.eqb_eq). eauto.
  - intros (x & -> & Hx). exists x. by rewrite String.eqb_refl.
Qed.

Definition known_fields : list string := publicAllowlist ++ internalFields ++ [FieldIssueClose].

(** the disclosure policy allows a field exactly when its visibility
    discloses it: safe fields always, closure only of terminal issues, internal
    fields on private repositories (verdicts only by choice), on public ones
    only with recorded authority, and never when visibility is unknown. *)
Theorem New_discloses repo raw inc rec term f :
  Allows (New repo raw inc rec term) f = true
  <-> discloses (ParseVisibility raw) inc rec term f.
Proof. apply New_Allows. Qed.

(** Every known field is either allowed or withheld, never both. *)
Theorem New_partition repo raw inc rec term f :
  f ∈ known_fields ->
  withholds (New repo raw inc rec term) f = negb (Allows (New repo raw inc rec term) f).
Proof.
  intros Hf. unfold New. generalize (ParseVisibility raw). intros v.
  unfold known_fields, publicAllowlist, internalFields in Hf. simpl in Hf.
  repeat (apply elem_of_cons in Hf as [-> | Hf];
          [destruct v, inc, rec, term; vm_compute; reflexivity |]).
  by apply elem_of_nil in Hf.
Qed.

Lemma New_partition_witness :
  FieldCosts ∈ known_fields
  /\ withholds (New "o/r" "public" true false false) FieldCosts
     = negb (Allows (New "o/r" "public" true false false) FieldCosts).
Proof.
  assert (FieldCosts ∈ known_fields) as H by (vm_compute; set_solver).
  split; [exact H |]. apply (New_partition "o/r" "public" true false false FieldCosts H).
Defined.

(** ** The verdict of an assessment *)

(** The request-level conditions, every one a refusal of its own. *)
Definition request_valid (b : Observation) : bool :=
  negb (check_ids b) && negb (check_payload b) && negb (check_window b)
  && (if (Obs_Action b =? IssueCreate)%string then (Obs_Resource b =? Obs_Repository b)%string
      else if (Obs_Action b =? IssueUpdate)%string then issuePattern (Obs_Resource b)
      else false).

Definition encodable (b : Observation) : bool :=
  match marshal (JObject [("Domain", JString "dacli-publication-assessment/v1");
                          ("Binding", to_json b)]%string) with
  | Some _ => true | None => false
  end.

(** A field the visibility discloses without further authority. *)
Definition permitted (b : Observation) (f : string) : Prop :=
  discloses (ParseVisibility (Obs_Visibility b)) (Obs_IncludeInternal b)
    (Obs_RecordedInternal b) false f.

(** A field that only lacks the recorded disclosure authority. *)
Definition approvable (b : Observation) (f : string) : Prop :=
  ParseVisibility (Obs_Visibility b) = VisibilityPublic
  /\ Obs_IncludeInternal b = true /\ Obs_RecordedInternal b = false
  /\ f ∈ internalFields.

Definition acc_ok (a : Verdict * list Reason) : Prop := fst a = Allow <-> snd a = [].

Lemma refuse_if_acc_ok c code f d a : acc_ok a -> acc_ok (refuse_if c code f d a).
Proof.
  unfold acc_ok, refuse_if, refuse. destruct c; simpl; [| done].
  intros _. split; [done |]. by intros []%snoc_not_nil.
Qed.

Lemma refuse_if_fst c code f d a :
  fst (refuse_if c code f d a) = if c then Deny else fst a.
Proof. by destruct c. Qed.

Lemma close_not_internal : FieldIssueClose ∉ internalFields.
Proof. apply (bool_decide_unpack _). vm_compute. exact I. Qed.

Lemma close_not_public : FieldIssueClose ∉ publicAllowlist.
Proof. apply (bool_decide_unpack _). vm_compute. exact I. Qed.

Section fields.
Context (b : Observation).
Let p := New (Obs_Repository b) (Obs_Visibility b) (Obs_IncludeInternal b)
           (Obs_RecordedInternal b) false.
Let approved := New (Obs_Repository b) (Obs_Visibility b) (Obs_IncludeInternal b) true false.

Lemma p_visibility : Policy_Visibility p = ParseVisibility (Obs_Visibility b).
Proof.
  unfold p, New.
  by destruct (ParseVisibility (Obs_Visibility b)), (Obs_IncludeInternal b),
    (Obs_RecordedInternal b).
Qed.

Lemma permitted_not_close f : permitted b f -> f <> FieldIssueClose.
Proof.
  intros [H | [[_ ?] | [H _]]] ->;
    [by apply close_not_public | done | by apply close_not_internal].
Qed.

(** How one field changes the verdict. *)
Lemma check_field_verdict a f :
  fst (check_field b p approved a f)
  = if decide (f <> FieldIssueClose /\ Allows p f = true) then fst a
    else if decide (approvable b f) then
      if decide (fst a = Deny) then Deny else NeedsApproval
    else Deny.
Proof.
  assert (approvable b f -> f <> FieldIssueClose) as Hac
    by (intros (_ & _ & _ & H) ->; by apply close_not_internal).
  unfold check_field. destruct (String.eqb_spec f FieldIssueClose) as [Hc | Hc]; simpl.
  { rewrite !decide_False by tauto. done. }
  destruct (Allows p f) eqn:Hp; [by rewrite decide_True |].
  rewrite (decide_False (P := _ /\ _)) by (intros [_ ?]; congruence). unfold is_visibility. rewrite p_visibility.
  assert (bool_decide (ParseVisibility (Obs_Visibility b) = VisibilityPublic)
          && Obs_IncludeInternal b && negb (Obs_RecordedInternal b) && Allows approved f = true
          <-> approvable b f) as Hiff.
  { rewrite !andb_true_iff, bool_decide_eq_true, negb_true_iff.
    unfold approved. rewrite New_Allows.
    assert (~ discloses (ParseVisibility (Obs_Visibility b)) (Obs_IncludeInternal b)
              (Obs_RecordedInternal b) false f) as Hn.
    { rewrite <- (New_Allows (Obs_Repository b)). fold p. by rewrite Hp. }
    unfold approvable, discloses in *. split.
    - intros [[[Hv Hi] Hr] Hd]. rewrite Hv in Hn, Hd.
      destruct Hd as [? | [[_ ?] | [? _]]]; [tauto | done | tauto].
    - intros (Hv & Hi & Hr & Hf). rewrite Hv. tauto. }
  destruct (_ && _) eqn:Hb; simpl.
  - rewrite (decide_True (P := approvable b f)) by (by apply Hiff). done.
  - rewrite (decide_False (P := approvable b f)); [done |]. by rewrite <- Hiff.
Qed.

Lemma check_field_acc_ok a f : acc_ok a -> acc_ok (check_field b p approved a f).
Proof.
  unfold acc_ok, check_field, refuse. intros Ha.
  repeat case_match; simpl; try done;
    (split; [try done | by intros []%snoc_not_nil]); by case_decide.
Qed.
End fields.

#[export] Instance permitted_dec b f : Decision (permitted b f).
Proof.
  destruct (Allows (New (Obs_Repository b) (Obs_Visibility b) (Obs_IncludeInternal b)
                      (Obs_RecordedInternal b) false) f) eqn:E.
  - left. apply New_Allows in E. exact E.
  - right. unfold permitted. rewrite <- (New_Allows (Obs_Repository b)). by rewrite E.
Defined.

Lemma permitted_Allows b f :
  permitted b f <->
  f <> FieldIssueClose
  /\ Allows (New (Obs_Repository b) (Obs_Visibility b) (Obs_IncludeInternal b)
               (Obs_RecordedInternal b) false) f = true.
Proof.
  rewrite New_Allows. split; [| by intros []].
  intros H. split; [by eapply permitted_not_close | exact H].
Qed.

Section fold.
Context (b : Observation).
Let step := check_field b
  (New (Obs_Repository b) (Obs_Visibility b) (Obs_IncludeInternal b) (Obs_RecordedInternal b) false)
  (New (Obs_Repository b) (Obs_Visibility b) (Obs_IncludeInternal b) true false).

Lemma step_verdict a f :
  fst (step a f) = if decide (permitted b f) then fst a
                   else if decide (approvable b f) then
                     if decide (fst a = Deny) then Deny else NeedsApproval
                   else Deny.
Proof.
  unfold step. rewrite check_field_verdict.
  destruct (decide (permitted b f)) as [H | H]; rewrite permitted_Allows in H.
  - by rewrite decide_True.
  - by rewrite (decide_False (P := _ /\ _)).
Qed.

Lemma fold_acc_ok fs a : acc_ok a -> acc_ok (fold_left step fs a).
Proof.
  revert a. induction fs as [|f fs IH]; intros a Ha; simpl; [done |].
  by apply IH, check_field_acc_ok.
Qed.

Lemma fold_Deny fs a :
  fst (fold_left step fs a) = Deny <->
  fst a = Deny \/ exists f, f ∈ fs /\ ~ permitted b f /\ ~ approvable b f.
Proof.
  revert a. induction fs as [|f fs IH]; intros a; simpl.
  { split; [auto | intros [? | (f & ?%elem_of_nil & _)]; done]. }
  rewrite IH, step_verdict. setoid_rewrite elem_of_cons.
  repeat case_decide; naive_solver.
Qed.

Lemma fold_Allow fs a :
  fst (fold_left step fs a) = Allow <->
  fst a = Allow /\ forall f, f ∈ fs -> permitted b f.
Proof.
  revert a. induction fs as [|f fs IH]; intros a; simpl.
  { split; [| by intros []]. intros; split; [done |]. by intros f ?%elem_of_nil. }
  rewrite IH, step_verdict. setoid_rewrite elem_of_cons.
  repeat case_decide; naive_solver.
Qed.
End fold.

(** The verdict before the fields are looked at. *)
Definition request_verdict (b : Observation) : Verdict * list Reason :=
  check_action b
    (refuse_if (check_window b) InvalidRequest "" "invalid repository, lease or validity window"
      (refuse_if (check_payload b) InvalidRequest ""
         "expected lowercase SHA256 projected payload digest"
        (refuse_if (check_ids b) InvalidRequest "" "invalid binding identifier" (Allow, [])))).

Lemma request_verdict_valid b :
  fst (request_verdict b) = if request_valid b then Allow else Deny.
Proof.
  unfold request_verdict, check_action, request_valid.
  destruct (check_ids b), (check_payload b), (check_window b),
    (Obs_Action b =? IssueCreate)%string, (Obs_Action b =? IssueUpdate)%string; simpl;
    rewrite ?refuse_if_fst; simpl;
    by destruct (Obs_Resource b =? Obs_Repository b)%string, (issuePattern (Obs_Resource b)).
Qed.

Lemma request_verdict_acc_ok b : acc_ok (request_verdict b).
Proof.
  unfold request_verdict, check_action.
  repeat case_match; repeat apply refuse_if_acc_ok; try done;
    unfold refuse; split; try done; by intros []%snoc_not_nil.
Qed.

Lemma EvaluatePublication_verdict o :
  let b := canonical_observation o in
  As_Verdict (EvaluatePublication o) =
  if encodable b then
    fst (fold_left (check_field b
      (New (Obs_Repository b) (Obs_Visibility b) (Obs_IncludeInternal b) (Obs_RecordedInternal b) false)
      (New (Obs_Repository b) (Obs_Visibility b) (Obs_IncludeInternal b) true false))
      (Obs_Fields b) (request_verdict b))
  else Deny.
Proof.
  intros b. unfold EvaluatePublication, encodable. fold b.
  destruct (marshal _); [| done]. fold (request_verdict b). by destruct (fold_left _ _ _).
Qed.

Lemma canonical_fields o f : f ∈ Obs_Fields (canonical_observation o) <-> f ∈ Obs_Fields o.
Proof. apply elem_of_sort_dedup. Qed.

Lemma EvaluatePublication_cases o :
  let b := canonical_observation o in
  (As_Verdict (EvaluatePublication o) = Allow <->
   encodable b = true /\ request_valid b = true
   /\ forall f, f ∈ Obs_Fields o -> permitted o f)
  /\
  (As_Verdict (EvaluatePublication o) = NeedsApproval <->
   encodable b = true /\ request_valid b = true
   /\ (forall f, f ∈ Obs_Fields o -> permitted o f \/ approvable o f)
   /\ exists f, f ∈ Obs_Fields o /\ ~ permitted o f).
Proof.
  intros b. rewrite EvaluatePublication_verdict. fold b.
  assert (forall v, v = NeedsApproval <-> v <> Allow /\ v <> Deny) as Hv by (by intros []; naive_solver).
  destruct (encodable b); [| split; split; [done | by intros [] | done | by intros []]].
  rewrite Hv, fold_Allow, fold_Deny, request_verdict_valid.
  assert (forall f, f ∈ Obs_Fields b <-> f ∈ Obs_Fields o) as Hf by apply canonical_fields.
  setoid_rewrite Hf. clear Hf.
  change (permitted b) with (permitted o). change (approvable b) with (approvable o).
  destruct (request_valid b); [| naive_solver].
  split; [naive_solver |]. split.
  - intros [Ha Hd]. split_and!; [done | done | |].
    + intros f Hf. destruct (decide (permitted o f)); [by left |]. right.
      destruct (decide (approvable o f)); [done |]. naive_solver.
    + destruct (decide (Forall (permitted o) (Obs_Fields o))) as [Hall | Hall].
      * destruct Ha. split; [done |]. by apply list.Forall_forall.
      * apply not_Forall_Exists in Hall; [| apply _].
        apply list.Exists_exists in Hall as (f & Hf & Hnp). eauto.
  - intros (_ & _ & Hall & f & Hf & Hnp). split; [naive_solver |].
    intros [? | (g & Hg & ? & ?)]; [done |]. by destruct (Hall g Hg).
Qed.

(** C34: the publication kernel allows a request exactly when it is encodable,
    well formed and every requested field is disclosed; it asks for approval
    exactly when it is well formed, every field is disclosed or merely lacks
    recorded authority, and some field is not disclosed; otherwise it denies. *)
Theorem EvaluatePublication_spec o :
  let b := canonical_observation o in
  (As_Verdict (EvaluatePublication o) = Allow <->
   encodable b = true /\ request_valid b = true
   /\ forall f, f ∈ Obs_Fields o -> permitted o f)
  /\
  (As_Verdict (EvaluatePublication o) = NeedsApproval <->
   encodable b = true /\ request_valid b = true
   /\ (forall f, f ∈ Obs_Fields o -> permitted o f \/ approvable o f)
   /\ exists f, f ∈ Obs_Fields o /\ ~ permitted o f).
Proof. apply EvaluatePublication_cases. Qed.

Lemma EvaluatePublication_spec_witness :
  let o := mkObservation "s" "s" "a" "w" "i" "auth" "o/r" "7" IssueUpdate
             [FieldTitle; FieldCosts]
             "e3b0c44298fc1c149afbf4c8996fb92427ae41e4649b934ca495991b7852b855"
             "p" "l" 1 second hour (2 * second) "public" true false in
  As_Verdict (EvaluatePublication o) = NeedsApproval.
Proof.
  intros o. apply (EvaluatePublication_spec o).
  split; [vm_compute; reflexivity |]. split; [vm_compute; reflexivity |]. split.
  - intros f [-> | [-> | []%elem_of_nil]%elem_of_cons]%elem_of_cons.
    + left. left. vm_compute. constructor.
    + right. split_and!; [reflexivity.. |]. apply (bool_decide_unpack _). vm_compute. exact I.
  - exists FieldCosts. split; [vm_compute; set_solver |].
    intros [H | [[H _] | [_ [_ H]]]]; [| discriminate H | discriminate H].
    revert H. apply (bool_decide_unpack _). vm_compute. exact I.
Defined.

(** the order and repetition of the requested fields never matter: the whole
    assessment, its digest included, is a function of the field set. *)
Theorem EvaluatePublication_field_set o fields :
  (forall f, f ∈ fields <-> f ∈ Obs_Fields o) ->
  EvaluatePublication (o <| Obs_Fields := fields |>) = EvaluatePublication o.
Proof.
  intros H. unfold EvaluatePublication.
  replace (canonical_observation (o <| Obs_Fields := fields |>))
    with (canonical_observation o); [done |].
  unfold canonical_observation, set_field; simpl. f_equal.
  symmetry. by apply sort_dedup_ext; try apply _.
Qed.

Lemma EvaluatePublication_field_set_witness :
  let o := mkObservation "s" "s" "a" "w" "i" "auth" "o/r" "7" IssueUpdate
             [FieldTitle; FieldCosts] "" "p" "l" 1 second hour (2 * second) "public" true false in
  EvaluatePublication (o <| Obs_Fields := [FieldCosts; FieldTitle; FieldCosts] |>)
  = EvaluatePublication o.
Proof.
  intros o. apply (EvaluatePublication_field_set o).
  intros f. simpl. set_solver.
Defined.
