(* ===== verification/State.v ===== *)
(** * The durable authority aggregate

    The data of [internal/governance/sessions]: the records each file of the
    package declares, the single [state] all operations read and write, and
    what the operations observe of their surroundings ([Env]).

    Struct fields keep their Go names, prefixed with the record's name.  An
    instant is a [time] (see GoStd); a pointer that may be nil is an
    [option]; a slice is a list, so a nil and an empty slice coincide; a map is
    a [gomap], which can be nil.  The maps of the component this development
    does not model (schema 16, the controller) hold their values as uninterpreted
    JSON. *)

From S2P Require Import Prelude Floats GoStd Prci Team Disclosure.
#[local] Open Scope Z_scope.

(** ** sessions.go *)

Record Binding := mkBinding { Binding_Workspace : string; Binding_Installation : string }.
#[export] Instance Binding_eq_dec : EqDecision Binding. Proof. solve_decision. Defined.

Record Scope := mkScope { Scope_Actions : list string; Scope_Resources : list string }.

Record Session := mkSession {
  Session_ID : string;
  Session_Parent : string;
  Session_Scope : Scope;
  Session_ExpiresAt : time;
  Session_Revoked : bool
}.
#[export] Instance Session_settable : Settable Session := fun s =>
  mkSession (Session_ID s) (Session_Parent s) (Session_Scope s) (Session_ExpiresAt s)
    (Session_Revoked s).

(** [record]: the embedded session and the digest of its credential. *)
Record record := mkRecord { record_Session : Session; record_Hash : string }.
#[export] Instance record_settable : Settable record := fun r =>
  mkRecord (record_Session r) (record_Hash r).

Definition r_ID (r : record) := Session_ID (record_Session r).
Definition r_Parent (r : record) := Session_Parent (record_Session r).
Definition r_Actions (r : record) := Scope_Actions (Session_Scope (record_Session r)).
Definition r_Resources (r : record) := Scope_Resources (Session_Scope (record_Session r)).
Definition r_ExpiresAt (r : record) := Session_ExpiresAt (record_Session r).
Definition r_Revoked (r : record) := Session_Revoked (record_Session r).

(** ** attempts.go and internal/governance/checkout *)

Record CheckoutObservation := mkCheckout {
  Locator : string; Repository : string; Commit : string; Tree : string;
  ObservedAt : time
}.
#[export] Instance CheckoutObservation_eq_dec : EqDecision CheckoutObservation.
Proof. solve_decision. Defined.

Record TaskBinding := mkTaskBinding {
  TB_TaskID : string; TB_ProjectID : string; TB_Repository : string;
  TB_AdmissionEnabled : bool
}.
#[export] Instance TaskBinding_eq_dec : EqDecision TaskBinding. Proof. solve_decision. Defined.

Record AttemptRequest := mkAttemptRequest {
  AR_RequestID : string; AR_TaskID : string; AR_Checkout : string; AR_HostLabel : string
}.
#[export] Instance AttemptRequest_eq_dec : EqDecision AttemptRequest.
Proof. solve_decision. Defined.

Record Attempt := mkAttempt {
  Attempt_ID : string;
  Attempt_SessionID : string;
  Attempt_Request : AttemptRequest;
  Attempt_ProjectID : string;
  Attempt_Observation : CheckoutObservation;
  Attempt_RegisteredAt : time
}.

Definition at_task (a : Attempt) := AR_TaskID (Attempt_Request a).

(** ** leases.go *)

Record Resource := mkResource { Resource_Kind : string; Resource_Path : string }.
#[export] Instance Resource_eq_dec : EqDecision Resource. Proof. solve_decision. Defined.

Record Lease := mkLease {
  Lease_ID : string;
  Lease_AttemptID : string;
  Lease_SessionID : string;
  Lease_TaskID : string;
  Lease_Repository : string;
  Lease_Checkout : string;
  Lease_Resources : list Resource;
  Lease_Fence : Z;
  Lease_ExpiresAt : time;
  Lease_Released : bool
}.
#[export] Instance Lease_eq_dec : EqDecision Lease. Proof. solve_decision. Defined.
#[export] Instance Lease_settable : Settable Lease := fun l =>
  mkLease (Lease_ID l) (Lease_AttemptID l) (Lease_SessionID l) (Lease_TaskID l)
    (Lease_Repository l) (Lease_Checkout l) (Lease_Resources l) (Lease_Fence l)
    (Lease_ExpiresAt l) (Lease_Released l).
Definition zero_lease : Lease := mkLease "" "" "" "" "" "" [] 0 0 false.

(** ** evidence.go *)

Record AttemptRevision := mkRevision {
  Rev_ID : string; Rev_AttemptID : string; Rev_SessionID : string; Rev_LeaseID : string;
  Rev_Sequence : Z; Rev_Fence : Z;
  Rev_Observation : CheckoutObservation;
  Rev_PublishedAt : time
}.
#[export] Instance AttemptRevision_eq_dec : EqDecision AttemptRevision.
Proof. solve_decision. Defined.

Record VerificationGrant := mkGrant {
  VG_ID : string; VG_RunnerSession : string; VG_TaskID : string; VG_Repository : string;
  VG_CheckID : string; VG_CommandDigest : string;
  VG_ExpiresAt : time;
  VG_Revoked : bool
}.
#[export] Instance VerificationGrant_settable : Settable VerificationGrant := fun g =>
  mkGrant (VG_ID g) (VG_RunnerSession g) (VG_TaskID g) (VG_Repository g) (VG_CheckID g)
    (VG_CommandDigest g) (VG_ExpiresAt g) (VG_Revoked g).

Record Evidence := mkEvidence {
  Ev_ID : string; Ev_IssuerSession : string; Ev_Provenance : string; Ev_GrantID : string;
  Ev_Revision : AttemptRevision;
  Ev_CheckID : string; Ev_CommandDigest : string; Ev_OutputDigest : string;
  Ev_ExitCode : Z;
  Ev_RecordedAt : time
}.

Record VerificationRequest := mkVerificationRequest {
  VR_OperationKey : string; VR_WorkerSession : string; VR_AttemptID : string;
  VR_LeaseID : string; VR_RevisionID : string; VR_CheckID : string; VR_GrantID : string;
  VR_ExpectedFence : Z
}.
#[export] Instance VerificationRequest_eq_dec : EqDecision VerificationRequest. Proof. solve_decision. Defined.

Record CheckpointVerificationBinding := mkCheckpointBinding {
  CVB_ProjectID : string; CVB_TaskID : string; CVB_RunnerSession : string;
  CVB_DescriptorDigest : string;
  CVB_Request : VerificationRequest
}.

(** ** native_review.go, preflight.go *)

Record RequiredCheck := mkRequiredCheck { RC_ID : string; RC_CommandDigest : string }.
#[export] Instance RequiredCheck_eq_dec : EqDecision RequiredCheck.
Proof. solve_decision. Defined.

Record RequiredVerificationSet := mkRequiredSet {
  RVS_PolicyDigest : string; RVS_PolicyBytesDigest : string; RVS_BaseCommit : string;
  RVS_RevisionID : string; RVS_RevisionCommit : string; RVS_RevisionTree : string;
  RVS_PlanDigest : string;
  RVS_Checks : list RequiredCheck;
  RVS_GrantIDs : list string
}.
#[export] Instance RequiredVerificationSet_eq_dec : EqDecision RequiredVerificationSet.
Proof. solve_decision. Defined.

Record ReviewObservation := mkReviewObservation {
  RO_RequiredSet : option RequiredVerificationSet;
  RO_ChecklistDigest : string; RO_PolicyRevision : string;
  RO_Checks : list RequiredCheck
}.
#[export] Instance ReviewObservation_eq_dec : EqDecision ReviewObservation.
Proof. solve_decision. Defined.
#[export] Instance ReviewObservation_settable : Settable ReviewObservation := fun o =>
  mkReviewObservation (RO_RequiredSet o) (RO_ChecklistDigest o) (RO_PolicyRevision o)
    (RO_Checks o).

Record ReviewGrant := mkReviewGrant {
  RG_ID : string; RG_ReviewerSession : string; RG_WorkerRoot : string; RG_TaskID : string;
  RG_Repository : string;
  RG_Observation : ReviewObservation;
  RG_ExpiresAt : time;
  RG_Revoked : bool
}.
#[export] Instance ReviewGrant_settable : Settable ReviewGrant := fun g =>
  mkReviewGrant (RG_ID g) (RG_ReviewerSession g) (RG_WorkerRoot g) (RG_TaskID g)
    (RG_Repository g) (RG_Observation g) (RG_ExpiresAt g) (RG_Revoked g).

Record ReviewRequest := mkReviewRequest {
  RR_OperationKey : string; RR_GrantID : string; RR_AttemptID : string; RR_LeaseID : string;
  RR_RevisionID : string;
  RR_ExpectedFence : Z;
  RR_Outcome : string; RR_Rationale : string;
  RR_EvidenceIDs : list string
}.
#[export] Instance ReviewRequest_settable : Settable ReviewRequest := fun r =>
  mkReviewRequest (RR_OperationKey r) (RR_GrantID r) (RR_AttemptID r) (RR_LeaseID r)
    (RR_RevisionID r) (RR_ExpectedFence r) (RR_Outcome r) (RR_Rationale r) (RR_EvidenceIDs r).

Record Review := mkReview {
  Review_ID : string; Review_IssuerSession : string;
  Review_Request : ReviewRequest;
  Review_Revision : AttemptRevision;
  Review_Observation : ReviewObservation;
  Review_CreatedAt : time
}.

(** ** publication.go *)

Record PublicationPolicy := mkPublicationPolicy {
  PP_TaskID : string; PP_Repository : string; PP_Visibility : string;
  PP_IncludeInternal : bool; PP_RecordedInternal : bool;
  PP_Generation : Z;
  PP_Digest : string
}.
#[export] Instance PublicationPolicy_eq_dec : EqDecision PublicationPolicy.
Proof. solve_decision. Defined.
#[export] Instance PublicationPolicy_settable : Settable PublicationPolicy := fun p =>
  mkPublicationPolicy (PP_TaskID p) (PP_Repository p) (PP_Visibility p) (PP_IncludeInternal p)
    (PP_RecordedInternal p) (PP_Generation p) (PP_Digest p).

Record PublicationAction := mkPublicationAction {
  PA_Action : string;
  PA_Repository : string; PA_Issue : string; PA_PayloadSHA256 : string;
  PA_Fields : list string
}.
#[export] Instance PublicationAction_eq_dec : EqDecision PublicationAction.
Proof. solve_decision. Defined.
#[export] Instance PublicationAction_settable : Settable PublicationAction := fun a =>
  mkPublicationAction (PA_Action a) (PA_Repository a) (PA_Issue a) (PA_PayloadSHA256 a)
    (PA_Fields a).

Record PublicationDecisionRequest := mkPublicationDecisionRequest {
  PDR_OperationKey : string; PDR_AttemptID : string; PDR_LeaseID : string;
  PDR_RevisionID : string;
  PDR_ExpectedFence : Z;
  PDR_ExpiresAt : time;
  PDR_Action : PublicationAction
}.
#[export] Instance PublicationDecisionRequest_settable : Settable PublicationDecisionRequest :=
  fun r => mkPublicationDecisionRequest (PDR_OperationKey r) (PDR_AttemptID r) (PDR_LeaseID r)
    (PDR_RevisionID r) (PDR_ExpectedFence r) (PDR_ExpiresAt r) (PDR_Action r).

Record PublicationDecision := mkPublicationDecision {
  PD_ID : string; PD_SessionID : string;
  PD_Request : PublicationDecisionRequest;
  PD_Policy : PublicationPolicy;
  PD_Revision : AttemptRevision;
  PD_Assessment : Assessment
}.

Record PublicationConsumption := mkPublicationConsumption {
  PC_DecisionID : string; PC_OperationKey : string; PC_ActionDigest : string;
  PC_Assurance : string;
  PC_ConsumedAt : time;
  PC_Historical : bool
}.

(** [operation]: the receipt kept under an operation key. *)
Record operation := mkOperation {
  op_CheckpointVerification : option CheckpointVerificationBinding;
  op_Digest : string;
  op_PublicationDecision : option PublicationDecision;
  op_PublicationConsumption : option PublicationConsumption;
  op_Receipt : Lease;
  op_Review : option Review;
  op_Revision : option AttemptRevision;
  op_Evidence : option Evidence;
  op_ResultDigest : string;
  op_Pending : bool
}.
#[export] Instance operation_settable : Settable operation := fun o =>
  mkOperation (op_CheckpointVerification o) (op_Digest o) (op_PublicationDecision o)
    (op_PublicationConsumption o) (op_Receipt o) (op_Review o) (op_Revision o) (op_Evidence o)
    (op_ResultDigest o) (op_Pending o).
(** [operation{Digest: digest}] *)
Definition new_operation (digest : string) : operation :=
  mkOperation None digest None None zero_lease None None None "" false.

(** ** swarms.go *)

Record SwarmRole := mkSwarmRole {
  SR_ID : string; SR_Kind : string; SR_Harness : string; SR_Capacity : Z
}.
#[export] Instance SwarmRole_eq_dec : EqDecision SwarmRole. Proof. solve_decision. Defined.

Record SwarmPlacement := mkSwarmPlacement {
  SPl_Checkout : string; SPl_ImplementKind : string; SPl_ReviewKind : string
}.
#[export] Instance SwarmPlacement_eq_dec : EqDecision SwarmPlacement.
Proof. solve_decision. Defined.

Record SwarmPolicy := mkSwarmPolicy {
  SP_ProjectID : string; SP_Revision : string; SP_Harness : string;
  SP_CapabilityDigest : string;
  SP_Width : Z; SP_WIP : Z;
  SP_TTL : Z;
  SP_Stopped : bool;
  SP_Roles : list SwarmRole;
  SP_Placements : gomap SwarmPlacement
}.
#[export] Instance SwarmPolicy_eq_dec : EqDecision SwarmPolicy. Proof. solve_decision. Defined.

Record RolePolicyReference := mkRolePolicyReference {
  RPR_Kind : string; RPR_Version : string; RPR_Digest : string
}.
#[export] Instance RolePolicyReference_eq_dec : EqDecision RolePolicyReference. Proof. solve_decision. Defined.

Record RoleRegistryProvenance := mkProvenance {
  RRP_RoleID : string; RRP_Version : string; RRP_ContentDigest : string;
  RRP_PublisherKeyID : string; RRP_LifecycleDigest : string; RRP_LifecycleExpiresAt : time;
  RRP_LifecycleGeneration : Z; RRP_PinGeneration : Z; RRP_ProjectGeneration : Z;
  RRP_PolicyReferences : list RolePolicyReference
}.
#[export] Instance RoleRegistryProvenance_eq_dec : EqDecision RoleRegistryProvenance. Proof. solve_decision. Defined.

(** ** preflight.go *)

Record PreflightTask := mkPreflightTask {
  PT_ImplementationRole : string; PT_ReviewRole : string; PT_RecoveryRole : string;
  PT_FallbackRoles : list string; PT_WorkerConnection : string; PT_ReviewerProfile : string;
  PT_RunnerProfile : string; PT_ContractProfile : string; PT_RequireReview : bool;
  PT_RequireVerification : bool; PT_RequireIntegration : bool; PT_RequireEnforcedTokens : bool;
  PT_RequireEnforcedBudget : bool; PT_OwnerAuthorizedIntegration : bool
}.
#[export] Instance PreflightTask_eq_dec : EqDecision PreflightTask. Proof. solve_decision. Defined.

Record PreflightPolicy := mkPreflightPolicy {
  PfP_SchemaVersion : Z; PfP_ProjectID : string; PfP_Revision : string; PfP_Harness : string;
  PfP_Rationale : string; PfP_AcceptManualAssurance : bool; PfP_ExpiresAt : time;
  PfP_TransientRetries : Z; PfP_Tasks : gomap PreflightTask
}.
#[export] Instance PreflightPolicy_eq_dec : EqDecision PreflightPolicy. Proof. solve_decision. Defined.
#[export] Instance PreflightPolicy_settable : Settable PreflightPolicy := fun x =>
  mkPreflightPolicy (PfP_SchemaVersion x) (PfP_ProjectID x) (PfP_Revision x) (PfP_Harness x)
    (PfP_Rationale x) (PfP_AcceptManualAssurance x) (PfP_ExpiresAt x) (PfP_TransientRetries x)
    (PfP_Tasks x).

Record PreflightActor := mkPreflightActor {
  PAc_SessionID : string; PAc_GrantID : string; PAc_CredentialHash : string
}.

Record PreflightPhase := mkPreflightPhase {
  PPh_Phase : string; PPh_Verdict : string; PPh_Assurance : string; PPh_EvidenceDigest : string;
  PPh_Remediation : string; PPh_Required : bool
}.

Record PreflightObservation := mkPreflightObservation {
  PO_RequiredSet : option RequiredVerificationSet; PO_AvailableChecks : list RequiredCheck;
  PO_AvailableGrantIDs : list string; PO_ReviewerRepository : string; PO_RunnerRepository : string;
  PO_TaskDigest : string; PO_RosterDigest : string; PO_ClaimsDigest : string;
  PO_ProfileDigest : string; PO_Harness : string; PO_AuthorityPath : string;
  PO_InstallationID : string; PO_ClaimResources : list string;
  PO_VerificationGrantIDs : list string; PO_RoleRegistry : list RoleRegistryProvenance;
  PO_Required : float; PO_Sized : bool; PO_Implementation : Role; PO_Review : Role;
  PO_Recovery : Role; PO_Fallback : list Role; PO_Worker : PreflightActor;
  PO_Reviewer : PreflightActor; PO_Runner : PreflightActor;
  PO_ReviewObservation : ReviewObservation; PO_Checks : list RequiredCheck;
  PO_Phases : list PreflightPhase; PO_ExpiresAt : time
}.

Record PreflightRoleCapacity := mkRoleCapacity {
  PRC_Phase : string; PRC_RoleID : string; PRC_RoleDigest : string; PRC_OverrideID : string;
  PRC_Capacity : TaskCapacityVerdict
}.

Record PreflightReport := mkPreflightReport {
  PR_RequiredSet : option RequiredVerificationSet; PR_RoutingPolicyDigest : string;
  PR_RoutingRole : string; PR_AuthorityDigest : string;
  PR_RoleCapacities : list PreflightRoleCapacity; PR_RoleRegistry : list RoleRegistryProvenance;
  PR_SchemaVersion : Z; PR_Workspace : string; PR_ProjectID : string; PR_TaskID : string;
  PR_PolicyRevision : string; PR_Harness : string; PR_TaskDigest : string; PR_RoleDigest : string;
  PR_RosterDigest : string; PR_ClaimsDigest : string; PR_ProfileDigest : string;
  PR_ProofDigest : string; PR_Capacity : TaskCapacityVerdict; PR_OverrideID : string;
  PR_Allowed : bool; PR_FailureClass : string; PR_Phases : list PreflightPhase;
  PR_ObservedAt : time; PR_ExpiresAt : time
}.
#[export] Instance PreflightReport_settable : Settable PreflightReport := fun x =>
  mkPreflightReport (PR_RequiredSet x) (PR_RoutingPolicyDigest x) (PR_RoutingRole x)
    (PR_AuthorityDigest x) (PR_RoleCapacities x) (PR_RoleRegistry x) (PR_SchemaVersion x)
    (PR_Workspace x) (PR_ProjectID x) (PR_TaskID x) (PR_PolicyRevision x) (PR_Harness x)
    (PR_TaskDigest x) (PR_RoleDigest x) (PR_RosterDigest x) (PR_ClaimsDigest x)
    (PR_ProfileDigest x) (PR_ProofDigest x) (PR_Capacity x) (PR_OverrideID x) (PR_Allowed x)
    (PR_FailureClass x) (PR_Phases x) (PR_ObservedAt x) (PR_ExpiresAt x).

Record CapacityOverride := mkCapacityOverride {
  CO_ID : string; CO_Workspace : string; CO_ProjectID : string; CO_TaskID : string;
  CO_PolicyRevision : string; CO_Harness : string; CO_TaskDigest : string; CO_RoleDigest : string;
  CO_RoleID : string; CO_Reason : string; CO_Actor : string; CO_Required : float; CO_Delta : float;
  CO_ExpiresAt : time
}.
#[export] Instance CapacityOverride_eq_dec : EqDecision CapacityOverride. Proof. solve_decision. Defined.

Record PreflightReceipt := mkPreflightReceipt {
  PRec_RequestDigest : string; PRec_Report : PreflightReport; PRec_TransientAttempts : Z
}.

(** ** native_budgets.go, native_budget_outcomes.go *)

Record BudgetEstimate := mkBudgetEstimate {
  BE_RoleID : string; BE_Model : string; BE_Provenance : string; BE_Tokens : Z; BE_Samples : Z;
  BE_ObservedAt : time
}.
#[export] Instance BudgetEstimate_eq_dec : EqDecision BudgetEstimate. Proof. solve_decision. Defined.

Record BudgetTask := mkBudgetTask {
  BT_Phases : gomap BudgetEstimate; BT_Alternatives : gomap BudgetEstimate;
  BT_IntegrationOperationID : string; BT_AcceptanceOperationID : string
}.
#[export] Instance BudgetTask_eq_dec : EqDecision BudgetTask. Proof. solve_decision. Defined.
#[export] Instance BudgetTask_settable : Settable BudgetTask := fun x =>
  mkBudgetTask (BT_Phases x) (BT_Alternatives x) (BT_IntegrationOperationID x)
    (BT_AcceptanceOperationID x).

Record BudgetPolicy := mkBudgetPolicy {
  BP_SchemaVersion : Z; BP_ProjectID : string; BP_Revision : string; BP_Harness : string;
  BP_CycleID : string; BP_Rationale : string; BP_CycleLimit : Z; BP_WindowLimit : Z;
  BP_RecoveryFloor : Z; BP_Window : Z; BP_WindowOrigin : time; BP_ExpiresAt : time;
  BP_CooldownUntil : time; BP_Tasks : gomap BudgetTask
}.
#[export] Instance BudgetPolicy_eq_dec : EqDecision BudgetPolicy. Proof. solve_decision. Defined.
#[export] Instance BudgetPolicy_settable : Settable BudgetPolicy := fun x =>
  mkBudgetPolicy (BP_SchemaVersion x) (BP_ProjectID x) (BP_Revision x) (BP_Harness x)
    (BP_CycleID x) (BP_Rationale x) (BP_CycleLimit x) (BP_WindowLimit x) (BP_RecoveryFloor x)
    (BP_Window x) (BP_WindowOrigin x) (BP_ExpiresAt x) (BP_CooldownUntil x) (BP_Tasks x).

Record BudgetPhase := mkBudgetPhase {
  BPh_Phase : string; BPh_Estimate : BudgetEstimate; BPh_State : string; BPh_ProducerID : string;
  BPh_Outcome : string; BPh_SettledAt : time; BPh_ProviderUsage : option Z
}.
#[export] Instance BudgetPhase_settable : Settable BudgetPhase := fun x =>
  mkBudgetPhase (BPh_Phase x) (BPh_Estimate x) (BPh_State x) (BPh_ProducerID x) (BPh_Outcome x)
    (BPh_SettledAt x) (BPh_ProviderUsage x).

Record BudgetProducer := mkBudgetProducer {
  BPr_Phase : string; BPr_ID : string; BPr_Knowledge : string
}.

Record BudgetAllocation := mkBudgetAllocation {
  BA_AvailableProducers : list BudgetProducer; BA_ID : string; BA_DispatchID : string;
  BA_WaveID : string; BA_ProjectID : string; BA_TaskID : string; BA_PolicyRevision : string;
  BA_CycleID : string; BA_Harness : string; BA_QuoteDigest : string; BA_ReservationFence : Z;
  BA_AllocatedAt : time; BA_Phases : list BudgetPhase
}.
#[export] Instance BudgetAllocation_settable : Settable BudgetAllocation := fun x =>
  mkBudgetAllocation (BA_AvailableProducers x) (BA_ID x) (BA_DispatchID x) (BA_WaveID x)
    (BA_ProjectID x) (BA_TaskID x) (BA_PolicyRevision x) (BA_CycleID x) (BA_Harness x)
    (BA_QuoteDigest x) (BA_ReservationFence x) (BA_AllocatedAt x) (BA_Phases x).

Record BudgetReceipt := mkBudgetReceipt {
  BR_Digest : string; BR_Allocation : BudgetAllocation
}.

Record BudgetTotals := mkBudgetTotals {
  BTo_Limit : Z; BTo_Spent : Z; BTo_Reserved : Z; BTo_Remaining : Z
}.

Record BudgetStatus := mkBudgetStatus {
  BS_SchemaVersion : Z; BS_ProjectID : string; BS_PolicyRevision : string; BS_CycleID : string;
  BS_Units : string; BS_Provenance : string; BS_Enforcement : string; BS_UsageKnowledge : string;
  BS_ObservedAt : time; BS_CooldownUntil : time; BS_WindowReset : option time;
  BS_Window : BudgetTotals; BS_Cycle : BudgetTotals; BS_ReviewReserved : Z;
  BS_IntegrationReserved : Z; BS_RecoveryReserved : Z; BS_RecoveryFloor : Z;
  BS_UnallocatedHeadroom : Z; BS_ProviderUsage : option Z; BS_STOP : bool;
  BS_Allocations : list BudgetAllocation; BS_LedgerDigest : string
}.

Record BudgetAlternative := mkBudgetAlternative {
  BAl_RoleID : string; BAl_Model : string; BAl_Reason : string; BAl_MarginalEstimate : option Z;
  BAl_CostTier : Z; BAl_EstimateKnowledge : string; BAl_CapabilityKnowledge : string;
  BAl_Capable : bool; BAl_Selected : bool
}.

Record BudgetQuote := mkBudgetQuote {
  BQ_SchemaVersion : Z; BQ_ProjectID : string; BQ_TaskID : string; BQ_PolicyRevision : string;
  BQ_CycleID : string; BQ_LedgerDigest : string; BQ_Digest : string; BQ_Reason : string;
  BQ_Harness : string; BQ_Allowed : bool; BQ_Total : Z; BQ_Implementation : Z; BQ_Review : Z;
  BQ_Correction : Z; BQ_Integration : Z; BQ_Recovery : Z; BQ_Phases : list BudgetPhase;
  BQ_Alternatives : list BudgetAlternative; BQ_Enforcement : string; BQ_UsageKnowledge : string
}.
#[export] Instance BudgetQuote_settable : Settable BudgetQuote := fun x =>
  mkBudgetQuote (BQ_SchemaVersion x) (BQ_ProjectID x) (BQ_TaskID x) (BQ_PolicyRevision x)
    (BQ_CycleID x) (BQ_LedgerDigest x) (BQ_Digest x) (BQ_Reason x) (BQ_Harness x) (BQ_Allowed x)
    (BQ_Total x) (BQ_Implementation x) (BQ_Review x) (BQ_Correction x) (BQ_Integration x)
    (BQ_Recovery x) (BQ_Phases x) (BQ_Alternatives x) (BQ_Enforcement x) (BQ_UsageKnowledge x).

(** ** native_controller.go, native_model_routing.go *)

Record ControllerCheckRoute := mkCheckRoute {
  CCR_CheckID : string; CCR_GrantID : string
}.
#[export] Instance ControllerCheckRoute_eq_dec : EqDecision ControllerCheckRoute. Proof. solve_decision. Defined.

Record ControllerTaskRoute := mkTaskRoute {
  CTR_Checks : list ControllerCheckRoute; CTR_BridgeSession : string; CTR_WorkerSession : string;
  CTR_RunnerSession : string; CTR_ReviewerSession : string; CTR_VerificationGrantID : string;
  CTR_ReviewGrantID : string; CTR_CheckID : string; CTR_PromptSpecDigest : string
}.
#[export] Instance ControllerTaskRoute_eq_dec : EqDecision ControllerTaskRoute. Proof. solve_decision. Defined.

Record NativeModelRoutingCandidate := mkRoutingCandidate {
  MRC_DifficultyTier : Z; MRC_Route : ControllerTaskRoute; MRC_RoleID : string; MRC_Model : string;
  MRC_Preflight : PreflightTask; MRC_ContextNeeded : Z; MRC_Tools : list string;
  MRC_Available : bool; MRC_ObservedAt : time; MRC_ExpiresAt : time
}.
#[export] Instance NativeModelRoutingCandidate_eq_dec : EqDecision NativeModelRoutingCandidate. Proof. solve_decision. Defined.
#[export] Instance NativeModelRoutingCandidate_settable : Settable NativeModelRoutingCandidate := fun x =>
  mkRoutingCandidate (MRC_DifficultyTier x) (MRC_Route x) (MRC_RoleID x) (MRC_Model x)
    (MRC_Preflight x) (MRC_ContextNeeded x) (MRC_Tools x) (MRC_Available x) (MRC_ObservedAt x)
    (MRC_ExpiresAt x).

Record NativeModelRoutingTask := mkRoutingTask {
  MRT_Candidates : list NativeModelRoutingCandidate; MRT_MaxCorrectionRounds : Z
}.
#[export] Instance NativeModelRoutingTask_eq_dec : EqDecision NativeModelRoutingTask. Proof. solve_decision. Defined.
#[export] Instance NativeModelRoutingTask_settable : Settable NativeModelRoutingTask := fun x =>
  mkRoutingTask (MRT_Candidates x) (MRT_MaxCorrectionRounds x).

Record NativeModelRoutingPolicy := mkRoutingPolicy {
  MRP_SchemaVersion : Z; MRP_ProjectID : string; MRP_Revision : string; MRP_Harness : string;
  MRP_ExpiresAt : time; MRP_Tasks : gomap NativeModelRoutingTask
}.
#[export] Instance NativeModelRoutingPolicy_eq_dec : EqDecision NativeModelRoutingPolicy. Proof. solve_decision. Defined.
#[export] Instance NativeModelRoutingPolicy_settable : Settable NativeModelRoutingPolicy := fun x =>
  mkRoutingPolicy (MRP_SchemaVersion x) (MRP_ProjectID x) (MRP_Revision x) (MRP_Harness x)
    (MRP_ExpiresAt x) (MRP_Tasks x).

Record NativeModelRoutingSelection := mkRoutingSelection {
  MRS_DifficultyTier : Z; MRS_Route : ControllerTaskRoute; MRS_SchemaVersion : Z;
  MRS_ProjectID : string; MRS_TaskID : string; MRS_PolicyRevision : string; MRS_RoleID : string;
  MRS_Model : string; MRS_Harness : string; MRS_Reason : string; MRS_Assurance : string;
  MRS_BindingDigest : string; MRS_RequiredPoints : float; MRS_Sized : bool;
  MRS_CorrectionRound : Z; MRS_ExpiresAt : time; MRS_Explanation : Explanation;
  MRS_WorkerSessionID : string; MRS_RoleRegistry : list RoleRegistryProvenance;
  MRS_NextTurnOnly : bool
}.

(** ** swarms.go: plans *)

Record SwarmCandidate := mkSwarmCandidate {
  SC_TaskID : string; SC_ProjectID : string; SC_Status : string; SC_Reason : string;
  SC_Priority : Z; SC_RequiredPoints : float; SC_Sized : bool; SC_Resources : list Resource
}.

Record SwarmSnapshot := mkSwarmSnapshot {
  SS_Digest : string; SS_Candidates : list SwarmCandidate;
  SS_RoleRegistry : list RoleRegistryProvenance
}.

Record SwarmVerdict := mkSwarmVerdict {
  SV_Routing : option NativeModelRoutingSelection; SV_TaskID : string; SV_Reason : string;
  SV_ImplementationRole : string; SV_ReviewRole : string; SV_Preflight : option PreflightReport;
  SV_Budget : option BudgetQuote; SV_Selected : bool; SV_Resources : list Resource;
  SV_Checkout : string; SV_Repository : string; SV_BaseCommit : string; SV_BaseTree : string
}.
#[export] Instance SwarmVerdict_settable : Settable SwarmVerdict := fun x =>
  mkSwarmVerdict (SV_Routing x) (SV_TaskID x) (SV_Reason x) (SV_ImplementationRole x)
    (SV_ReviewRole x) (SV_Preflight x) (SV_Budget x) (SV_Selected x) (SV_Resources x)
    (SV_Checkout x) (SV_Repository x) (SV_BaseCommit x) (SV_BaseTree x).

Record SwarmPlan := mkSwarmPlan {
  SPn_SchemaVersion : Z; SPn_ID : string; SPn_SessionID : string; SPn_ProjectID : string;
  SPn_PolicyRevision : string; SPn_SnapshotDigest : string; SPn_Fence : Z;
  SPn_Verdicts : list SwarmVerdict; SPn_RoleRegistry : list RoleRegistryProvenance
}.
#[export] Instance SwarmPlan_settable : Settable SwarmPlan := fun x =>
  mkSwarmPlan (SPn_SchemaVersion x) (SPn_ID x) (SPn_SessionID x) (SPn_ProjectID x)
    (SPn_PolicyRevision x) (SPn_SnapshotDigest x) (SPn_Fence x) (SPn_Verdicts x)
    (SPn_RoleRegistry x).

Record ReserveWaveRequest := mkReserveWave {
  RWR_CheckpointID : string; RWR_InvocationID : string; RWR_ReconciliationDigest : string;
  RWR_CheckpointSequence : Z; RWR_OperationKey : string; RWR_Plan : SwarmPlan; RWR_ExpiresAt : time
}.
#[export] Instance ReserveWaveRequest_settable : Settable ReserveWaveRequest := fun x =>
  mkReserveWave (RWR_CheckpointID x) (RWR_InvocationID x) (RWR_ReconciliationDigest x)
    (RWR_CheckpointSequence x) (RWR_OperationKey x) (RWR_Plan x) (RWR_ExpiresAt x).

(** ** swarms.go: reservations *)

Record DispatchReservation := mkDispatch {
  DR_Routing : option NativeModelRoutingSelection;
  DR_ID : string; DR_ControllerSessionID : string; DR_ProjectID : string;
  DR_PolicyRevision : string; DR_ImplementationRole : string; DR_ReviewRole : string;
  DR_Harness : string; DR_BaseCommit : string; DR_BaseTree : string;
  DR_Reservation : Lease;
  DR_PreflightExpiresAt : time;
  DR_PreflightDigest : string;
  DR_RoleRegistry : list RoleRegistryProvenance;
  DR_Converted : bool;
  DR_WorkerSessionID : string; DR_AttemptID : string
}.
#[export] Instance DispatchReservation_settable : Settable DispatchReservation := fun d =>
  mkDispatch (DR_Routing d) (DR_ID d) (DR_ControllerSessionID d) (DR_ProjectID d)
    (DR_PolicyRevision d) (DR_ImplementationRole d) (DR_ReviewRole d) (DR_Harness d)
    (DR_BaseCommit d) (DR_BaseTree d) (DR_Reservation d) (DR_PreflightExpiresAt d)
    (DR_PreflightDigest d) (DR_RoleRegistry d) (DR_Converted d) (DR_WorkerSessionID d)
    (DR_AttemptID d).

Record SwarmWave := mkSwarmWave {
  SW_ID : string; SW_PlanID : string; SW_Dispatches : list DispatchReservation
}.
Record SwarmReceipt := mkSwarmReceipt {
  SRc_Digest : string;
  SRc_Wave : option SwarmWave;
  SRc_Dispatch : option DispatchReservation;
  SRc_Lease : option Lease
}.

(** ** dispatch_intents.go *)

Record DispatchIntent := mkDispatchIntent {
  DI_SchemaVersion : Z;
  DI_Sequence : Z;
  DI_ID : string; DI_OperationKey : string; DI_DispatchID : string;
  DI_ControllerSessionID : string; DI_BridgeSessionID : string; DI_WorkerSessionID : string;
  DI_PromptSpecDigest : string; DI_CapabilityDigest : string; DI_State : string;
  DI_HostAgentID : string;
  DI_Reservation : DispatchReservation;
  DI_RequestedAt : time; DI_ObservedAt : time;
  DI_Lease : option Lease
}.
Record DispatchIntentReceipt := mkDispatchIntentReceipt {
  DIR_Digest : string; DIR_Intent : DispatchIntent
}.

(** ** lifecycle.go *)

Record LifecyclePolicy := mkLifecyclePolicy {
  LP_SchemaVersion : Z;
  LP_ProjectID : string; LP_Revision : string; LP_Source : string;
  LP_CancellationChannel : string;
  LP_Freshness : Z;
  LP_CancellationEnabled : bool
}.
#[export] Instance LifecyclePolicy_eq_dec : EqDecision LifecyclePolicy.
Proof. solve_decision. Defined.

Record LifecycleBinding := mkLifecycleBinding {
  LB_DispatchID : string; LB_IntentID : string; LB_BridgeSessionID : string;
  LB_WorkerSessionID : string; LB_TaskID : string; LB_Checkout : string;
  LB_BaseCommit : string; LB_HostAgentID : string; LB_AttemptID : string;
  LB_LeaseID : string;
  LB_ReservationFence : Z; LB_LeaseFence : Z
}.
#[export] Instance LifecycleBinding_eq_dec : EqDecision LifecycleBinding.
Proof. solve_decision. Defined.

Record LifecycleObservation := mkLifecycleObservation {
  LO_Sequence : Z; LO_HostSequence : Z;
  LO_Binding : LifecycleBinding;
  LO_State : string; LO_Source : string; LO_Assurance : string; LO_EvidenceDigest : string;
  LO_SourceTime : time; LO_ReceivedAt : time
}.
#[export] Instance LifecycleObservation_eq_dec : EqDecision LifecycleObservation.
Proof. solve_decision. Defined.

Record LifecycleCancellation := mkLifecycleCancellation {
  LC_Sequence : Z;
  LC_Binding : LifecycleBinding;
  LC_OperationKey : string; LC_PolicyRevision : string; LC_Channel : string;
  LC_State : string; LC_EvidenceDigest : string;
  LC_RequestedBy : string;
  LC_RequestedAt : time; LC_AcknowledgedAt : time
}.
#[export] Instance LifecycleCancellation_settable : Settable LifecycleCancellation := fun c =>
  mkLifecycleCancellation (LC_Sequence c) (LC_Binding c) (LC_OperationKey c)
    (LC_PolicyRevision c) (LC_Channel c) (LC_State c) (LC_EvidenceDigest c)
    (LC_RequestedBy c) (LC_RequestedAt c) (LC_AcknowledgedAt c).

Record LifecycleReceipt := mkLifecycleReceipt {
  LR_Digest : string;
  LR_Observation : option LifecycleObservation;
  LR_Cancellation : option LifecycleCancellation
}.

(** ** recovery.go *)

Record RecoveryPolicy := mkRecoveryPolicy {
  RP_SchemaVersion : Z;
  RP_ProjectID : string; RP_Revision : string; RP_Rationale : string;
  RP_AcceptCooperativeTerminal : bool
}.
#[export] Instance RecoveryPolicy_eq_dec : EqDecision RecoveryPolicy.
Proof. solve_decision. Defined.

Record RecoveryTarget := mkRecoveryTarget {
  RT_Workspace : string; RT_Kind : string; RT_TaskID : string; RT_DispatchID : string;
  RT_IntentID : string; RT_AttemptID : string; RT_ProtectionID : string;
  RT_SessionID : string; RT_WorkerFamilyID : string; RT_Repository : string;
  RT_Checkout : string;
  RT_ExpectedFence : Z
}.
#[export] Instance RecoveryTarget_eq_dec : EqDecision RecoveryTarget.
Proof. solve_decision. Defined.
#[export] Instance RecoveryTarget_settable : Settable RecoveryTarget := fun t =>
  mkRecoveryTarget (RT_Workspace t) (RT_Kind t) (RT_TaskID t) (RT_DispatchID t) (RT_IntentID t)
    (RT_AttemptID t) (RT_ProtectionID t) (RT_SessionID t) (RT_WorkerFamilyID t)
    (RT_Repository t) (RT_Checkout t) (RT_ExpectedFence t).

Record RecoveryReceipt := mkRecoveryReceipt {
  RRc_ID : string; RRc_OperationKey : string; RRc_RequestDigest : string; RRc_Actor : string;
  RRc_Mode : string; RRc_Rationale : string; RRc_Uncertainty : string;
  RRc_ReleaseRisk : string; RRc_PolicyRevision : string;
  RRc_Target : RecoveryTarget;
  RRc_Observation : option LifecycleObservation;
  RRc_ReleasedResources : list Resource;
  RRc_PreviousGlobalFence : Z; RRc_GlobalFence : Z;
  RRc_RecordedAt : time
}.

(** ** native_acceptance.go *)

Record NativeAcceptanceInput := mkAcceptanceInput {
  NAI_SchemaVersion : Z;
  NAI_OperationKey : string; NAI_WorkspaceID : string; NAI_InstallationID : string;
  NAI_ProjectID : string; NAI_TaskID : string;
  NAI_ReviewID : string; NAI_AttemptID : string; NAI_LeaseID : string;
  NAI_RevisionID : string; NAI_Repository : string; NAI_Commit : string; NAI_Tree : string;
  NAI_ExpectedFence : Z;
  NAI_ChecklistDigest : string; NAI_PolicyRevision : string; NAI_CandidateDigest : string
}.
#[export] Instance NativeAcceptanceInput_eq_dec : EqDecision NativeAcceptanceInput.
Proof. solve_decision. Defined.
#[export] Instance NativeAcceptanceInput_settable : Settable NativeAcceptanceInput := fun r =>
  mkAcceptanceInput (NAI_SchemaVersion r) (NAI_OperationKey r) (NAI_WorkspaceID r)
    (NAI_InstallationID r) (NAI_ProjectID r) (NAI_TaskID r) (NAI_ReviewID r) (NAI_AttemptID r)
    (NAI_LeaseID r) (NAI_RevisionID r) (NAI_Repository r) (NAI_Commit r) (NAI_Tree r)
    (NAI_ExpectedFence r) (NAI_ChecklistDigest r) (NAI_PolicyRevision r) (NAI_CandidateDigest r).

Record NativeAcceptanceEvidence := mkAcceptanceEvidence {
  NAE_ID : string; NAE_RunnerSessionID : string; NAE_CheckID : string;
  NAE_CommandDigest : string; NAE_OutputDigest : string
}.
#[export] Instance NativeAcceptanceEvidence_eq_dec : EqDecision NativeAcceptanceEvidence.
Proof. solve_decision. Defined.

Record NativeAcceptanceCandidate := mkAcceptanceCandidate {
  NAC_Input : NativeAcceptanceInput;
  NAC_ReviewerSessionID : string; NAC_WorkerSessionID : string; NAC_WorkerFamilyID : string;
  NAC_Evidence : list NativeAcceptanceEvidence
}.
#[export] Instance NativeAcceptanceCandidate_eq_dec : EqDecision NativeAcceptanceCandidate.
Proof. solve_decision. Defined.
#[export] Instance NativeAcceptanceCandidate_settable : Settable NativeAcceptanceCandidate :=
  fun c => mkAcceptanceCandidate (NAC_Input c) (NAC_ReviewerSessionID c) (NAC_WorkerSessionID c)
    (NAC_WorkerFamilyID c) (NAC_Evidence c).

Record NativeAcceptanceRecord := mkAcceptanceRecord {
  NAR_OperationKey : string; NAR_InputDigest : string; NAR_State : string;
  NAR_CanonicalReceiptDigest : string; NAR_CanonicalOutcomeDigest : string;
  NAR_Candidate : NativeAcceptanceCandidate;
  NAR_CreatedAt : time; NAR_ClosedAt : time
}.
#[export] Instance NativeAcceptanceRecord_eq_dec : EqDecision NativeAcceptanceRecord.
Proof. solve_decision. Defined.
#[export] Instance NativeAcceptanceRecord_settable : Settable NativeAcceptanceRecord := fun r =>
  mkAcceptanceRecord (NAR_OperationKey r) (NAR_InputDigest r) (NAR_State r)
    (NAR_CanonicalReceiptDigest r) (NAR_CanonicalOutcomeDigest r) (NAR_Candidate r)
    (NAR_CreatedAt r) (NAR_ClosedAt r).

(** ** native_policy.go *)

Record NativePolicy := mkNativePolicy {
  NP_SchemaVersion : Z;
  NP_ProjectID : string; NP_TaskID : string; NP_Revision : string;
  NP_Allow : bool; NP_RequireApproval : bool; NP_Stopped : bool;
  NP_ExpiresAt : time
}.
#[export] Instance NativePolicy_eq_dec : EqDecision NativePolicy.
Proof. solve_decision. Defined.

Record NativePolicyDecision := mkNativePolicyDecision {
  NPD_ID : string; NPD_ActorID : string; NPD_PolicyDigest : string; NPD_ActionDigest : string;
  NPD_Input : NativeAcceptanceInput;
  NPD_Policy : NativePolicy;
  NPD_Assessment : NativeAcceptanceAssessment;
  NPD_Prepared : NativeAcceptanceRecord;
  NPD_CreatedAt : time; NPD_ExpiresAt : time
}.
Record NativePolicyApproval := mkNativePolicyApproval {
  NPA_DecisionID : string; NPA_OperationKey : string; NPA_ActionDigest : string;
  NPA_CreatedAt : time; NPA_ExpiresAt : time
}.
Record NativePolicyConsumption := mkNativePolicyConsumption {
  NPC_DecisionID : string; NPC_OperationKey : string; NPC_ActionDigest : string;
  NPC_CanonicalOutcomeDigest : string;
  NPC_ConsumedAt : time
}.
Record NativePolicyOutcome := mkNativePolicyOutcome {
  NPO_OperationKey : string; NPO_DecisionID : string; NPO_State : string;
  NPO_ExpectedOutcomeDigest : string; NPO_ObservedOutcomeDigest : string;
  NPO_ObservedAt : time
}.

(** ** native_integration.go *)

Record NativeIntegrationPolicy := mkIntegrationPolicy {
  NIP_SchemaVersion : Z;
  NIP_ProjectID : string; NIP_TaskID : string; NIP_Revision : string;
  NIP_Repository : string; NIP_TargetCheckout : string; NIP_TargetRef : string;
  NIP_ExpectedCommit : string; NIP_ExpectedTree : string;
  NIP_NativePolicyRevision : string;
  NIP_Allow : bool; NIP_Stopped : bool;
  NIP_ExpiresAt : time; NIP_ConfiguredAt : time
}.
#[export] Instance NativeIntegrationPolicy_settable : Settable NativeIntegrationPolicy := fun p =>
  mkIntegrationPolicy (NIP_SchemaVersion p) (NIP_ProjectID p) (NIP_TaskID p) (NIP_Revision p) (NIP_Repository p)
    (NIP_TargetCheckout p) (NIP_TargetRef p) (NIP_ExpectedCommit p) (NIP_ExpectedTree p) (NIP_NativePolicyRevision p)
    (NIP_Allow p) (NIP_Stopped p) (NIP_ExpiresAt p) (NIP_ConfiguredAt p).
#[export] Instance NativeIntegrationPolicy_eq_dec : EqDecision NativeIntegrationPolicy. Proof. solve_decision. Defined.

Record NativeIntegrationInput := mkIntegrationInput {
  NII_OperationKey : string; NII_PolicyRevision : string;
  NII_Candidate : NativeAcceptanceInput
}.
#[export] Instance NativeIntegrationInput_eq_dec : EqDecision NativeIntegrationInput. Proof. solve_decision. Defined.

Record NativeIntegrationObservation := mkIntegrationObservation {
  NIO_Commit : string; NIO_Tree : string; NIO_Clean : bool; NIO_ObservedAt : time
}.
Record NativeIntegrationRecord := mkIntegrationRecord {
  NIR_OperationKey : string; NIR_InputDigest : string; NIR_State : string; NIR_ReceiptDigest : string;
  NIR_Input : NativeIntegrationInput;
  NIR_Policy : NativeIntegrationPolicy;
  NIR_Before : NativeIntegrationObservation; NIR_Outcome : NativeIntegrationObservation;
  NIR_CreatedAt : time; NIR_CompletedAt : time
}.
#[export] Instance NativeIntegrationRecord_settable : Settable NativeIntegrationRecord := fun r =>
  mkIntegrationRecord (NIR_OperationKey r) (NIR_InputDigest r) (NIR_State r) (NIR_ReceiptDigest r) (NIR_Input r)
    (NIR_Policy r) (NIR_Before r) (NIR_Outcome r) (NIR_CreatedAt r) (NIR_CompletedAt r).

(** ** native_external.go *)

Record NativeExternalPolicy := mkExternalPolicy {
  NEP_SchemaVersion : Z;
  NEP_ProjectID : string; NEP_TaskID : string; NEP_Revision : string; NEP_NativePolicyRevision : string;
  NEP_Repository : string; NEP_Checkout : string; NEP_GitHubRepository : string;
  NEP_SourceBranch : string; NEP_TargetBranch : string;
  NEP_Commit : string; NEP_Tree : string; NEP_ExpectedTrunk : string; NEP_ExpectedRemoteHead : string;
  NEP_Generation : Z; NEP_SliceGeneration : Z;
  NEP_RequiredChecks : list string;
  NEP_AllowPush : bool; NEP_AllowCreatePR : bool; NEP_Required : bool; NEP_Stopped : bool;
  NEP_ExpiresAt : time; NEP_ConfiguredAt : time
}.
#[export] Instance NativeExternalPolicy_settable : Settable NativeExternalPolicy := fun p =>
  mkExternalPolicy (NEP_SchemaVersion p) (NEP_ProjectID p) (NEP_TaskID p) (NEP_Revision p) (NEP_NativePolicyRevision p)
    (NEP_Repository p) (NEP_Checkout p) (NEP_GitHubRepository p) (NEP_SourceBranch p) (NEP_TargetBranch p)
    (NEP_Commit p) (NEP_Tree p) (NEP_ExpectedTrunk p) (NEP_ExpectedRemoteHead p) (NEP_Generation p)
    (NEP_SliceGeneration p) (NEP_RequiredChecks p) (NEP_AllowPush p) (NEP_AllowCreatePR p) (NEP_Required p)
    (NEP_Stopped p) (NEP_ExpiresAt p) (NEP_ConfiguredAt p).
#[export] Instance NativeExternalPolicy_eq_dec : EqDecision NativeExternalPolicy. Proof. solve_decision. Defined.

Record NativeExternalInput := mkExternalInput {
  NEI_OperationKey : string; NEI_PolicyRevision : string; NEI_Action : string;
  NEI_Candidate : NativeAcceptanceInput
}.
#[export] Instance NativeExternalInput_eq_dec : EqDecision NativeExternalInput. Proof. solve_decision. Defined.

Record NativeExternalObservation := mkExternalObservation {
  NEO_Generation : Z; NEO_SliceGeneration : Z;
  NEO_Branch : string; NEO_Commit : string; NEO_Tree : string; NEO_Trunk : string; NEO_RemoteHead : string;
  NEO_Clean : bool;
  NEO_PullRequestNumber : Z;
  NEO_PullRequestURL : string; NEO_PullRequestState : string; NEO_MergeCommit : string;
  NEO_ChecksSatisfied : bool; NEO_APIComplete : bool;
  NEO_Diagnosis : prci.Result;
  NEO_ObservedAt : time
}.
Record NativeExternalRecord := mkExternalRecord {
  NER_OperationKey : string; NER_InputDigest : string; NER_State : string; NER_ReceiptDigest : string;
  NER_Input : NativeExternalInput;
  NER_Policy : NativeExternalPolicy;
  NER_Before : NativeExternalObservation; NER_Outcome : NativeExternalObservation;
  NER_CreatedAt : time; NER_UpdatedAt : time
}.
#[export] Instance NativeExternalRecord_settable : Settable NativeExternalRecord := fun r =>
  mkExternalRecord (NER_OperationKey r) (NER_InputDigest r) (NER_State r) (NER_ReceiptDigest r) (NER_Input r)
    (NER_Policy r) (NER_Before r) (NER_Outcome r) (NER_CreatedAt r) (NER_UpdatedAt r).

(** ** native_checkpoints.go *)

Record CheckpointPolicy := mkCheckpointPolicy {
  CPol_SchemaVersion : Z; CPol_ProjectID : string; CPol_Revision : string; CPol_Harness : string;
  CPol_TaskIDs : list string; CPol_MaxCycles : Z; CPol_MaxNoProgress : Z; CPol_ExpiresAt : time;
  CPol_RequireEnforcedBudget : bool
}.
#[export] Instance CheckpointPolicy_eq_dec : EqDecision CheckpointPolicy. Proof. solve_decision. Defined.
#[export] Instance CheckpointPolicy_settable : Settable CheckpointPolicy := fun x =>
  mkCheckpointPolicy (CPol_SchemaVersion x) (CPol_ProjectID x) (CPol_Revision x) (CPol_Harness x)
    (CPol_TaskIDs x) (CPol_MaxCycles x) (CPol_MaxNoProgress x) (CPol_ExpiresAt x)
    (CPol_RequireEnforcedBudget x).

Record CheckpointRefs := mkCheckpointRefs {
  CRf_TaskID : string; CRf_DispatchID : string; CRf_IntentID : string;
  CRf_VerificationKey : string; CRf_EvidenceID : string; CRf_ReviewID : string;
  CRf_IntegrationOperationID : string; CRf_AcceptanceOperationID : string;
  CRf_RunnerSession : string; CRf_Verification : VerificationRequest
}.
#[export] Instance CheckpointRefs_eq_dec : EqDecision CheckpointRefs. Proof. solve_decision. Defined.

Record CheckpointFinding := mkCheckpointFinding {
  CFi_Class : string; CFi_Knowledge : string; CFi_TaskID : string; CFi_Reference : string;
  CFi_NextAction : string; CFi_Retryable : bool
}.

Record CheckpointFact := mkCheckpointFact {
  CFa_Kind : string; CFa_TaskID : string; CFa_ID : string; CFa_State : string;
  CFa_Knowledge : string; CFa_LeaseID : string; CFa_HostAgentID : string; CFa_Freshness : string;
  CFa_Fence : Z
}.

Record CheckpointStatus := mkCheckpointStatus {
  CS_HistoricalConditionDigest : string; CS_ObservedTrunkRef : string;
  CS_Diagnostics : list CheckpointFinding; CS_PreflightReports : list PreflightReport;
  CS_ReconciliationCurrent : bool; CS_Facts : list CheckpointFact; CS_BudgetKnowledge : string;
  CS_SchemaVersion : Z; CS_ID : string; CS_ProjectID : string; CS_InvocationID : string;
  CS_Phase : string; CS_PolicyRevision : string; CS_Harness : string; CS_Sequence : Z;
  CS_Cycle : Z; CS_NoProgress : Z; CS_MaxCycles : Z; CS_MaxNoProgress : Z;
  CS_Refs : list CheckpointRefs; CS_Findings : list CheckpointFinding; CS_HaltClass : string;
  CS_NextAction : string; CS_ObservedTrunk : string; CS_ConditionDigest : string;
  CS_ProgressDigest : string; CS_Retryable : bool; CS_WaveAllowed : bool; CS_ObservedAt : time;
  CS_GateExpiresAt : time; CS_ConsumedWave : string
}.
#[export] Instance CheckpointStatus_settable : Settable CheckpointStatus := fun x =>
  mkCheckpointStatus (CS_HistoricalConditionDigest x) (CS_ObservedTrunkRef x) (CS_Diagnostics x)
    (CS_PreflightReports x) (CS_ReconciliationCurrent x) (CS_Facts x) (CS_BudgetKnowledge x)
    (CS_SchemaVersion x) (CS_ID x) (CS_ProjectID x) (CS_InvocationID x) (CS_Phase x)
    (CS_PolicyRevision x) (CS_Harness x) (CS_Sequence x) (CS_Cycle x) (CS_NoProgress x)
    (CS_MaxCycles x) (CS_MaxNoProgress x) (CS_Refs x) (CS_Findings x) (CS_HaltClass x)
    (CS_NextAction x) (CS_ObservedTrunk x) (CS_ConditionDigest x) (CS_ProgressDigest x)
    (CS_Retryable x) (CS_WaveAllowed x) (CS_ObservedAt x) (CS_GateExpiresAt x) (CS_ConsumedWave x).

Record CheckpointReceipt := mkCheckpointReceipt {
  CRc_Digest : string; CRc_Status : CheckpointStatus
}.

(** ** The aggregate

    The maps a schema adds together form one record each; schemas 2 to 6
    add the maps held directly by [state]. *)

(** schema 7 *)
Record SwarmMaps := mkSwarmMaps {
  SwarmPolicies : gomap SwarmPolicy;
  Dispatches : gomap DispatchReservation;
  SwarmOperations : gomap SwarmReceipt
}.
#[export] Instance SwarmMaps_settable : Settable SwarmMaps := fun m =>
  mkSwarmMaps (SwarmPolicies m) (Dispatches m) (SwarmOperations m).
(** schema 8 *)
Record IntentMaps := mkIntentMaps {
  DispatchIntents : gomap DispatchIntent;
  DispatchIntentOperations : gomap DispatchIntentReceipt
}.
(** schema 9 *)
Record LifecycleMaps := mkLifecycleMaps {
  LifecyclePolicyHistory : gomap (gmap string LifecyclePolicy);
  LifecyclePolicies : gomap LifecyclePolicy;
  LifecycleObservations : gomap (list LifecycleObservation);
  LifecycleCancellations : gomap LifecycleCancellation;
  LifecycleOperations : gomap LifecycleReceipt
}.
#[export] Instance LifecycleMaps_settable : Settable LifecycleMaps := fun m =>
  mkLifecycleMaps (LifecyclePolicyHistory m) (LifecyclePolicies m) (LifecycleObservations m)
    (LifecycleCancellations m) (LifecycleOperations m).
(** schema 10 *)
Record RecoveryMaps := mkRecoveryMaps {
  RecoveryPolicies : gomap RecoveryPolicy;
  RecoveryPolicyHistory : gomap (gmap string RecoveryPolicy);
  Recoveries : gomap RecoveryReceipt;
  RecoveryOperations : gomap RecoveryReceipt
}.
#[export] Instance RecoveryMaps_settable : Settable RecoveryMaps := fun m =>
  mkRecoveryMaps (RecoveryPolicies m) (RecoveryPolicyHistory m) (Recoveries m)
    (RecoveryOperations m).
(** schema 14 *)
Record AcceptanceMaps := mkAcceptanceMaps {
  TaskTerminals : gomap NativeAcceptanceRecord;
  NativeAcceptanceOperations : gomap NativeAcceptanceRecord
}.
(** schema 15 *)
Record NativePolicyMaps := mkNativePolicyMaps {
  NativePolicies : gomap NativePolicy; NativePolicyHistory : gomap NativePolicy;
  NativePolicyDecisions : gomap NativePolicyDecision;
  NativePolicyApprovals : gomap NativePolicyApproval;
  NativePolicyConsumptions : gomap NativePolicyConsumption;
  NativePolicyOutcomes : gomap NativePolicyOutcome
}.
#[export] Instance NativePolicyMaps_settable : Settable NativePolicyMaps := fun m =>
  mkNativePolicyMaps (NativePolicies m) (NativePolicyHistory m) (NativePolicyDecisions m)
    (NativePolicyApprovals m) (NativePolicyConsumptions m) (NativePolicyOutcomes m).
(** schema 11 *)
Record PreflightMaps := mkPreflightMaps {
  PreflightPolicies : gomap PreflightPolicy;
  PreflightPolicyHistory : gomap (gmap string PreflightPolicy);
  CapacityOverrides : gomap CapacityOverride;
  PreflightOperations : gomap PreflightReceipt;
  PreflightRetryBudgets : gomap Z
}.
#[export] Instance PreflightMaps_settable : Settable PreflightMaps := fun m =>
  mkPreflightMaps (PreflightPolicies m) (PreflightPolicyHistory m) (CapacityOverrides m)
    (PreflightOperations m) (PreflightRetryBudgets m).
(** schema 13 *)
Record BudgetMaps := mkBudgetMaps {
  BudgetPolicies : gomap BudgetPolicy;
  BudgetPolicyHistory : gomap (gmap string BudgetPolicy);
  BudgetAllocations : gomap BudgetAllocation;
  BudgetOperations : gomap BudgetReceipt
}.
#[export] Instance BudgetMaps_settable : Settable BudgetMaps := fun m =>
  mkBudgetMaps (BudgetPolicies m) (BudgetPolicyHistory m) (BudgetAllocations m) (BudgetOperations m).
(** schema 17 *)
Record RoutingMaps := mkRoutingMaps {
  ModelRoutingPolicies : gomap NativeModelRoutingPolicy;
  ModelRoutingHistory : gomap NativeModelRoutingPolicy;
  ModelRoutingSelections : gomap NativeModelRoutingSelection
}.
#[export] Instance RoutingMaps_settable : Settable RoutingMaps := fun m =>
  mkRoutingMaps (ModelRoutingPolicies m) (ModelRoutingHistory m) (ModelRoutingSelections m).
(** schema 12 *)
Record CheckpointMaps := mkCheckpointMaps {
  CheckpointPolicies : gomap CheckpointPolicy;
  CheckpointPolicyHistory : gomap (gmap string CheckpointPolicy);
  Checkpoints : gomap (list CheckpointStatus);
  CheckpointOperations : gomap CheckpointReceipt
}.
#[export] Instance CheckpointMaps_settable : Settable CheckpointMaps := fun m =>
  mkCheckpointMaps (CheckpointPolicies m) (CheckpointPolicyHistory m) (Checkpoints m) (CheckpointOperations m).
(** schema 16: values not interpreted *)
Record ControllerMaps := mkControllerMaps {
  ControllerPolicies : gomap json; ControllerPolicyHistory : gomap json;
  ControllerInvocations : gomap json; ControllerHistory : gomap json;
  ControllerOperations : gomap json
}.
(** schema 18 *)
Record IntegrationMaps := mkIntegrationMaps {
  NativeIntegrationPolicies : gomap NativeIntegrationPolicy;
  NativeIntegrationHistory : gomap NativeIntegrationPolicy;
  NativeIntegrationOperations : gomap NativeIntegrationRecord
}.
#[export] Instance IntegrationMaps_settable : Settable IntegrationMaps := fun m =>
  mkIntegrationMaps (NativeIntegrationPolicies m) (NativeIntegrationHistory m) (NativeIntegrationOperations m).
(** schema 19 *)
Record ExternalMaps := mkExternalMaps {
  NativeExternalPolicies : gomap NativeExternalPolicy;
  NativeExternalHistory : gomap NativeExternalPolicy;
  NativeExternalOperations : gomap NativeExternalRecord
}.
#[export] Instance ExternalMaps_settable : Settable ExternalMaps := fun m =>
  mkExternalMaps (NativeExternalPolicies m) (NativeExternalHistory m) (NativeExternalOperations m).

Record state := mkState {
  Version : Z;
  st_Binding : Binding;
  OwnerHash : string;
  Sessions : gomap record;
  Tasks : gomap TaskBinding;
  Attempts : gomap Attempt;
  Leases : gomap Lease;
  Operations : gomap operation;
  Fence : Z;
  Revisions : gomap (list AttemptRevision);
  Grants : gomap VerificationGrant;
  st_Evidence : gomap Evidence;
  ReviewGrants : gomap ReviewGrant;
  Reviews : gomap Review;
  PublicationPolicies : gomap (list PublicationPolicy);
  PublicationDecisions : gomap PublicationDecision;
  PublicationConsumed : gomap PublicationConsumption;
  st_Swarm : SwarmMaps;
  st_Intents : IntentMaps;
  st_Lifecycle : LifecycleMaps;
  st_Recovery : RecoveryMaps;
  st_Preflight : PreflightMaps;
  st_Checkpoint : CheckpointMaps;
  st_Budget : BudgetMaps;
  st_Acceptance : AcceptanceMaps;
  st_NativePolicy : NativePolicyMaps;
  st_Controller : ControllerMaps;
  st_Routing : RoutingMaps;
  st_Integration : IntegrationMaps;
  st_External : ExternalMaps
}.
#[export] Instance state_settable : Settable state := fun s =>
  mkState (Version s) (st_Binding s) (OwnerHash s) (Sessions s) (Tasks s) (Attempts s)
    (Leases s) (Operations s) (Fence s) (Revisions s) (Grants s) (st_Evidence s)
    (ReviewGrants s) (Reviews s) (PublicationPolicies s) (PublicationDecisions s)
    (PublicationConsumed s) (st_Swarm s) (st_Intents s) (st_Lifecycle s) (st_Recovery s)
    (st_Preflight s) (st_Checkpoint s) (st_Budget s) (st_Acceptance s) (st_NativePolicy s)
    (st_Controller s) (st_Routing s) (st_Integration s) (st_External s).

Definition swarm_policies s := SwarmPolicies (st_Swarm s).
Definition dispatches s := Dispatches (st_Swarm s).
Definition intents s := DispatchIntents (st_Intents s).
Definition observations s := LifecycleObservations (st_Lifecycle s).
Definition cancellations s := LifecycleCancellations (st_Lifecycle s).
Definition recoveries s := Recoveries (st_Recovery s).
Definition terminals s := TaskTerminals (st_Acceptance s).
Definition acceptances s := NativeAcceptanceOperations (st_Acceptance s).
Definition policies s := NativePolicies (st_NativePolicy s).
Definition policy_revisions s := NativePolicyHistory (st_NativePolicy s).
Definition decisions s := NativePolicyDecisions (st_NativePolicy s).
Definition approvals s := NativePolicyApprovals (st_NativePolicy s).
Definition consumptions s := NativePolicyConsumptions (st_NativePolicy s).
Definition outcomes s := NativePolicyOutcomes (st_NativePolicy s).
Definition preflight_policies s := PreflightPolicies (st_Preflight s).
Definition budget_policies s := BudgetPolicies (st_Budget s).
Definition allocations s := BudgetAllocations (st_Budget s).
Definition checkpoints s := Checkpoints (st_Checkpoint s).
Definition checkpoint_policies s := CheckpointPolicies (st_Checkpoint s).
Definition routing_policies s := ModelRoutingPolicies (st_Routing s).
Definition swarm_operations s := SwarmOperations (st_Swarm s).
Definition integration_policies s := NativeIntegrationPolicies (st_Integration s).
Definition integrations s := NativeIntegrationOperations (st_Integration s).
Definition external_policies s := NativeExternalPolicies (st_External s).
Definition externals s := NativeExternalOperations (st_External s).
Definition intent_operations s := DispatchIntentOperations (st_Intents s).

(** ** What an operation observes

    [time.Now], [crypto/rand], the file system, the Git runner of
    [internal/governance/checkout] and the adapters the owner configures.  A
    value read more than once in one transaction is indexed by the reading, so
    that time passes and checkouts change between two readings. *)

Inductive lstat_result := LstatNotExist | LstatError | LstatDir | LstatSymlink | LstatOther.

Record Env := mkEnv {
  now : nat -> time;
  mint : nat -> res string;
  observe : nat -> string -> option CheckoutObservation;
  observe_identity : string -> option CheckoutObservation;
  eval_symlinks : string -> option string;
  lstat : string -> lstat_result;
  admit_lease : option (string -> string -> string -> bool);
  review_observer : option (nat -> string -> string -> string -> option ReviewObservation);
  required_observer : option (string -> string -> string -> AttemptRevision ->
                              res (option RequiredVerificationSet))
}.

(** The further interfaces the admission adapter may implement: swarm.go,
    dispatch_intents.go, preflight.go.  [None] is a failed type assertion, or the
    error of an observation; [observe_preflight] returns its error.  Each call is
    indexed by the observation it is. *)
Record Adapters := mkAdapters {
  observe_swarm : option (nat -> string -> string -> option SwarmSnapshot);
  admit_capability : option (nat -> string -> string -> string -> string -> bool);
  admit_dispatch : option (nat -> string -> string -> string -> string -> bool);
  observe_preflight : option (nat -> string -> string -> string -> PreflightTask -> SwarmPlacement ->
                              res PreflightObservation)
}.

(** [Authority]: the configured handle.  The adapters and the storage are in
    [Env] and in the transaction. *)
Record Authority := mkAuthority {
  a_path : string;
  a_binding : Binding;
  a_version : Z
}.
#[export] Instance Authority_settable : Settable Authority := fun a =>
  mkAuthority (a_path a) (a_binding a) (a_version a).
