(* ===== verification/Session.v ===== *)
(** * Scoped bearer sessions

    [internal/governance/sessions/sessions.go]: credentials, scopes, the
    ancestor walk behind every authentication, and the operations [Enroll],
    [Delegate], [Authenticate], [Authorize], [Revoke]; [rootSession] of
    [native_review.go]; [InspectNativeCompatibility] of [compatibility.go];
    the identity digests of [leases.go].

    A write operation is a [tx]: it maps the loaded state to an error or to its
    result and the state to persist.  A read operation only returns a result. *)

From S2P Require Import Prelude GoStd Disclosure State.
#[local] Open Scope Z_scope.

Definition tx (A : Type) := state -> res (A * state).

(** ** Credentials and digests *)

Definition hash (token : string) : string := sha256_hex token.

(** [identity]: a failed [json.Marshal] contributes no bytes. *)
Definition identity {A} `{ToJSON A} (action session : string) (req : A) : string :=
  hash (action ++ String NUL (session ++ String NUL (default ""%string (marshal (to_json req)))))%string.

Lemma hash_length token : len (hash token) = 64.
Proof. apply sha256_hex_length. Qed.

Lemma identity_nonempty {A} `{ToJSON A} action session (req : A) : identity action session req <> ""%string.
Proof. unfold identity. intros E. match type of E with hash ?x = _ => pose proof (hash_length x) as H1 end. by rewrite E in H1. Qed.

#[global] Opaque hash identity.

(** [len(owner) != 64 || hash(owner) != s.OwnerHash] *)
Definition not_owner (s : state) (owner : string) : bool :=
  negb (len owner =? 64) || negb (hash owner =? OwnerHash s)%string.

Definition validID (id : string) : bool :=
  negb (id =? "")%string && (len id <=? 256) && (TrimSpace id =? id)%string
  && negb (ContainsAny id [slash; backslash; NUL; CR; LF]).

Definition validDigest (s : string) : bool :=
  (len s =? 71) && (String.substring 0 7 s =? "sha256:")%string
  && forallb (fun c => let z := byte_of c in
                ((48 <=? z) && (z <=? 57)) || ((97 <=? z) && (z <=? 102)))
       (list_ascii_of_string (String.substring 7 64 s)).

(** The inner loop of [validScope]. *)
Fixpoint distinct_nonempty (seen : list string) (l : list string) : bool :=
  match l with
  | [] => true
  | v :: l' =>
    if (v =? "")%string || existsb (String.eqb v) seen then false
    else distinct_nonempty (v :: seen) l'
  end.

Definition validScope (sc : Scope) : bool :=
  negb (bool_decide (Scope_Actions sc = []) || bool_decide (Scope_Resources sc = []))
  && distinct_nonempty [] (Scope_Actions sc) && distinct_nonempty [] (Scope_Resources sc).

Definition subset (child parent : list string) : bool :=
  forallb (fun v => existsb (String.eqb v) parent) child.

(** ** The ancestor walk

    The loop of [authenticate] and of [rootSession]: it fails on a revoked,
    expired, repeated or missing ancestor and ends at a session without
    parent, whose identifier it yields.  [None] is an exhausted fuel, which
    [climb_total] excludes. *)

Fixpoint climb (fuel : nat) (s : state) (t : time) (seen : gset string) (cur : record)
    : option (res string) :=
  match fuel with
  | O => None
  | S fuel =>
    if bool_decide (r_ID cur ∈ seen) || r_Revoked cur || negb (t <? r_ExpiresAt cur)
    then Some (Err ErrDenied)
    else if (r_Parent cur =? "")%string then Some (Ok (r_ID cur))
    else match mget (Sessions s) (r_Parent cur) with
         | None => Some (Err ErrDenied)
         | Some next => climb fuel s t ({[ r_ID cur ]} ∪ seen) next
         end
  end.

Definition session_fuel (s : state) : nat := S (List.length (mvals (Sessions s))).

Definition walk (s : state) (t : time) (r : record) : res string :=
  match climb (session_fuel s) s t ∅ r with Some x => x | None => Err ErrDenied end.

Definition authenticate (s : state) (token id : string) (t : time) : res record :=
  r ← must (mget (Sessions s) id);
  deny_if (negb (len token =? 64) || negb (hash token =? record_Hash r)%string);;
  _ ← walk s t r;
  Ok r.

(** [rootSession]: the same walk without a credential. *)
Definition rootSession (s : state) (id : string) (t : time) : res (record * string) :=
  r ← must (mget (Sessions s) id);
  root ← walk s t r;
  Ok (r, root).

(** ** Operations *)

Definition insert_session (s : state) (id : string) (r : record) : res state :=
  m ← mset (Sessions s) id r; Ok (s <| Sessions := m |>).

(** [issue]: the two random values are the first two of the transaction. *)
Definition issue (e : Env) (credential parent : string) (scope : Scope) (expires : time)
    : tx (Session * string) := fun s =>
  token ← mint e 0;
  id ← mint e 1;
  let session := mkSession id parent scope expires false in
  let t := now e 0 in
  deny_if (negb (validScope scope) || negb (t <? expires));;
  (if (parent =? "")%string then deny_if (not_owner s credential)
   else p ← authenticate s credential parent t;
        deny_if ((r_ExpiresAt p <? expires)
                 || negb (subset (Scope_Actions scope) (r_Actions p))
                 || negb (subset (Scope_Resources scope) (r_Resources p))));;
  s' ← insert_session s id (mkRecord session (hash token));
  Ok ((session, token), s').

Definition Enroll (e : Env) (owner : string) (scope : Scope) (expires : time)
    : tx (Session * string) := issue e owner "" scope expires.

Definition Delegate (e : Env) (token parent : string) (scope : Scope) (expires : time)
    : tx (Session * string) := issue e token parent scope expires.

Definition Authenticate (e : Env) (token id : string) (s : state) : res Session :=
  r ← authenticate s token id (now e 0);
  Ok (record_Session r).

Definition Authorize (a : Authority) (e : Env) (token id workspace action resource : string)
    (s : state) : res Session :=
  deny_if ((workspace =? "")%string
           || negb (Binding_Workspace (a_binding a) =? workspace)%string
           || (action =? "")%string || (resource =? "")%string);;
  r ← authenticate s token id (now e 0);
  deny_if (negb (subset [action] (r_Actions r)) || negb (subset [resource] (r_Resources r)));;
  Ok (record_Session r).

Definition Revoke (owner id : string) : tx unit := fun s =>
  deny_if (not_owner s owner);;
  r ← must (mget (Sessions s) id);
  s' ← insert_session s id (r <| record_Session := (record_Session r) <| Session_Revoked := true |> |>);
  Ok (tt, s').

(** [AuthenticateOwner] of swarms.go *)
Definition AuthenticateOwner (owner : string) (s : state) : res unit :=
  deny_if (not_owner s owner).

(** [Bootstrap]: the state of an absent authority gets its owner. *)
Definition Bootstrap (e : Env) : tx string := fun s =>
  token ← mint e 0;
  Ok (token, s <| OwnerHash := hash token |>).

(** ** compatibility.go *)

Record NativeCompatibility := mkCompat { NC_Status : string; NC_AuthoritySchema : Z }.

Fixpoint compat_walk (fuel : nat) (s : state) (clock : nat -> time) (i : nat)
    (seen : gset string) (actor : record) : option NativeCompatibility :=
  match fuel with
  | O => None
  | S fuel =>
    if (r_ID actor =? "")%string || bool_decide (r_ID actor ∈ seen)
    then Some (mkCompat "profile_schema_mismatch" 0)
    else if r_Revoked actor then Some (mkCompat "revoked_actor" 0)
    else if negb (clock i <? r_ExpiresAt actor) then Some (mkCompat "expired_enrollment" 0)
    else if (r_Parent actor =? "")%string then Some (mkCompat "authorized" (Version s))
    else match mget (Sessions s) (r_Parent actor) with
         | None => Some (mkCompat "profile_schema_mismatch" 0)
         | Some next => compat_walk fuel s clock (S i) ({[ r_ID actor ]} ∪ seen) next
         end
  end.

(** [InspectNativeCompatibility] on a loaded state; a state that cannot be
    loaded is reported as "unknown". *)
Definition InspectNativeCompatibility (e : Env) (token id : string) (s : state)
    : NativeCompatibility :=
  if (id =? "")%string || negb (len token =? 64) then mkCompat "unknown" 0
  else match mget (Sessions s) id with
       | None => mkCompat "missing_enrollment" 0
       | Some actor =>
         if negb (record_Hash actor =? hash token)%string then mkCompat "missing_enrollment" 0
         else default (mkCompat "unknown" 0) (compat_walk (session_fuel s) s (now e) 0 ∅ actor)
       end.

#[global] Arguments subset : simpl never.
#[global] Arguments validScope : simpl never.
#[global] Arguments validID : simpl never.
#[global] Arguments validDigest : simpl never.
#[global] Arguments not_owner : simpl never.

(** ** Scopes *)

Lemma subset_spec child parent :
  subset child parent = true <-> forall v, v ∈ child -> v ∈ parent.
Proof.
  unfold subset. rewrite forallb_elem. split; intros H v Hv; specialize (H v Hv).
  - apply existsb_elem in H as (x & Hx & ->%String.eqb_eq). done.
  - apply existsb_elem. exists v. by rewrite String.eqb_refl.
Qed.

Lemma subset_one v l : subset [v] l = true <-> v ∈ l.
Proof. rewrite subset_spec. set_solver. Qed.

Lemma subset_trans a b c : subset a b = true -> subset b c = true -> subset a c = true.
Proof. rewrite !subset_spec. auto. Qed.

Lemma distinct_nonempty_spec seen l :
  distinct_nonempty seen l = true <->
  "" ∉ l /\ NoDup l /\ forall v, v ∈ l -> v ∉ seen.
Proof.
  revert seen. induction l as [|v l IH]; intros seen; simpl.
  { split; [| done]. intros _. split_and!; [by apply not_elem_of_nil | constructor |].
    by intros v ?%elem_of_nil. }
  assert (existsb (String.eqb v) seen = true <-> v ∈ seen) as Hs.
  { rewrite existsb_elem. split.
    - intros (x & Hx & ->%String.eqb_eq). done.
    - intros Hv. exists v. by rewrite String.eqb_refl. }
  rewrite list.NoDup_cons. destruct (String.eqb_spec v "") as [-> | Hv]; simpl.
  { split; [done | set_solver]. }
  destruct (existsb (String.eqb v) seen) eqn:E.
  - split; [done |]. intros (_ & _ & H). exfalso. apply (H v); [by left | by apply Hs].
  - rewrite IH. assert (v ∉ seen) by (by rewrite <- Hs). set_solver.
Qed.

(** A valid scope names at least one action and one resource, each once and
    none of them empty. *)
Lemma validScope_spec sc :
  validScope sc = true <->
  (Scope_Actions sc <> [] /\ NoDup (Scope_Actions sc) /\ "" ∉ Scope_Actions sc)
  /\ (Scope_Resources sc <> [] /\ NoDup (Scope_Resources sc) /\ "" ∉ Scope_Resources sc).
Proof.
  unfold validScope.
  rewrite !andb_true_iff, negb_true_iff, orb_false_iff, !bool_decide_eq_false,
    !distinct_nonempty_spec.
  pose proof (not_elem_of_nil (A := string)). naive_solver.
Qed.

(** ** The walk terminates and decides liveness of the whole ancestry *)

(** The live path from a session to its root: the identifiers visited, none
    twice, and the root's identifier. *)
Inductive live_path (s : state) (t : time) : record -> list string -> string -> Prop :=
  | live_root r :
      r_Revoked r = false -> t < r_ExpiresAt r -> r_Parent r = ""%string ->
      live_path s t r [r_ID r] (r_ID r)
  | live_child r p ids root :
      r_Revoked r = false -> t < r_ExpiresAt r -> r_Parent r <> ""%string ->
      mget (Sessions s) (r_Parent r) = Some p ->
      live_path s t p ids root -> r_ID r ∉ ids ->
      live_path s t r (r_ID r :: ids) root.

Definition session_ids (s : state) : gset string :=
  list_to_set (r_ID <$> mvals (Sessions s)).

Lemma size_list_to_set_le (l : list string) :
  (size (list_to_set (C := gset string) l) <= List.length l)%nat.
Proof.
  induction l as [|x l IH]; [by rewrite list_to_set_nil, size_empty |].
  rewrite list_to_set_cons, length_cons, size_union_alt, size_singleton.
  pose proof (subseteq_size (list_to_set l ∖ {[ x ]} : gset string) (list_to_set l)
    ltac:(set_solver)). lia.
Qed.

Lemma session_ids_size s : (size (session_ids s) < session_fuel s)%nat.
Proof.
  unfold session_ids, session_fuel. rewrite Nat.lt_succ_r.
  rewrite <- (length_fmap r_ID). apply size_list_to_set_le.
Qed.

Lemma elem_of_session_ids s id r : mget (Sessions s) id = Some r -> r_ID r ∈ session_ids s.
Proof.
  intros H. unfold session_ids. apply elem_of_list_to_set, list_elem_of_fmap.
  exists r. split; [done |]. apply elem_of_mvals. eauto.
Qed.

Lemma climb_total fuel s t seen r :
  r_ID r ∈ session_ids s -> (size (session_ids s ∖ seen) < fuel)%nat ->
  is_Some (climb fuel s t seen r).
Proof.
  revert seen r. induction fuel as [|fuel IH]; intros seen r Hr Hf; [lia |].
  simpl. case_bool_decide as Hs; simpl; [by eexists |].
  destruct (r_Revoked r || negb (t <? r_ExpiresAt r)); [by eexists |].
  destruct (r_Parent r =? "")%string; [by eexists |].
  destruct (mget (Sessions s) (r_Parent r)) eqn:Hp; [| by eexists].
  apply IH; [by eapply elem_of_session_ids |].
  enough (size (session_ids s ∖ ({[r_ID r]} ∪ seen)) < size (session_ids s ∖ seen))%nat by lia.
  apply subset_size. set_solver.
Qed.

Lemma climb_sound fuel s t seen r root :
  climb fuel s t seen r = Some (Ok root) ->
  exists ids, live_path s t r ids root /\ forall x, x ∈ ids -> x ∉ seen.
Proof.
  revert seen r. induction fuel as [|fuel IH]; intros seen r H; simpl in H; [done |].
  destruct (bool_decide (r_ID r ∈ seen) || r_Revoked r || negb (t <? r_ExpiresAt r)) eqn:E;
    [done |]. bool_facts.
  destruct (String.eqb_spec (r_Parent r) "") as [Hp | Hp].
  { injection H as <-. exists [r_ID r]. split; [by constructor | set_solver]. }
  destruct (mget (Sessions s) (r_Parent r)) as [p |] eqn:Hm; [| done].
  destruct (IH _ _ H) as (ids & Hl & Hd). exists (r_ID r :: ids). split.
  - eapply live_child; eauto. intros Hin. by apply (Hd _ Hin); set_solver.
  - intros x [-> | Hx]%elem_of_cons; [done |]. specialize (Hd x Hx). set_solver.
Qed.

Lemma climb_complete fuel s t seen r ids root :
  live_path s t r ids root -> (forall x, x ∈ ids -> x ∉ seen) ->
  is_Some (climb fuel s t seen r) -> climb fuel s t seen r = Some (Ok root).
Proof.
  intros Hl. revert fuel seen.
  induction Hl as [r Hr He Hp | r p ids root Hr He Hp Hm Hl IH Hn];
    intros [|fuel] seen Hd; simpl; try (by intros [? ?]);
    (rewrite bool_decide_eq_false_2 by (apply Hd; by left));
    rewrite Hr, (proj2 (Z.ltb_lt _ _) He); simpl.
  - by rewrite Hp.
  - rewrite (proj2 (String.eqb_neq _ _) Hp), Hm. apply IH. set_solver.
Qed.

Lemma walk_spec s t id r root :
  mget (Sessions s) id = Some r ->
  walk s t r = Ok root <-> exists ids, live_path s t r ids root.
Proof.
  intros Hm. unfold walk.
  assert (is_Some (climb (session_fuel s) s t ∅ r)) as [x Hx].
  { apply climb_total; [by eapply elem_of_session_ids |].
    rewrite difference_empty_L. apply session_ids_size. }
  rewrite Hx. split.
  - intros ->. apply climb_sound in Hx as (ids & ? & _). eauto.
  - intros [ids Hl]. rewrite (climb_complete _ _ _ _ _ _ _ Hl) in Hx by (eauto; set_solver).
    by injection Hx as <-.
Qed.

Lemma authenticate_ok s token id t r :
  authenticate s token id t = Ok r <->
  mget (Sessions s) id = Some r /\ len token = 64 /\ hash token = record_Hash r
  /\ exists ids root, live_path s t r ids root.
Proof.
  unfold authenticate. split.
  - intros H. inv_ok. match goal with H : walk _ _ _ = _ |- _ => eapply walk_spec in H; [| done] end.
    naive_solver.
  - intros (Hm & Hl & Hh & ids & root & Hp). rewrite Hm. simpl.
    rewrite Hl, Hh, String.eqb_refl. simpl.
    by rewrite (proj2 (walk_spec s t id r root Hm) (ex_intro _ ids Hp)).
Qed.

Lemma rootSession_ok s id t r root :
  rootSession s id t = Ok (r, root) <->
  mget (Sessions s) id = Some r /\ exists ids, live_path s t r ids root.
Proof.
  unfold rootSession. split.
  - intros H. inv_ok. simplify_eq.
    match goal with H : walk _ _ _ = _ |- _ => eapply walk_spec in H; [| done] end. done.
  - intros (Hm & Hp). rewrite Hm. simpl. by rewrite (proj2 (walk_spec s t id r root Hm) Hp).
Qed.

(** ** Ancestry *)

Definition parent_of (s : state) (r p : record) : Prop :=
  r_Parent r <> ""%string /\ mget (Sessions s) (r_Parent r) = Some p.

(** [ancestor s r q]: [q] is [r] or lies above it. *)
Definition ancestor (s : state) : relation record := rtc (parent_of s).

Lemma live_path_ancestor s t r ids root q :
  live_path s t r ids root -> ancestor s r q ->
  r_Revoked q = false /\ t < r_ExpiresAt q /\ r_ID q ∈ ids.
Proof.
  intros Hl Ha. revert ids Hl. induction Ha as [r | r p q [Hp Hm] _ IH]; intros ids Hl.
  - destruct Hl; split_and!; try done; by left.
  - destruct Hl as [|r p' ids root ? ? ? Hm' Hl]; [done |].
    rewrite Hm in Hm'. injection Hm' as <-. destruct (IH _ Hl) as (? & ? & ?).
    split_and!; [done.. | by right].
Qed.

(** ** Well-formed session stores

    Every entry is stored under its own non-empty identifier with a valid
    scope, and a child's parent is present, at least as long-lived and at least
    as widely scoped. *)

Record session_ok (s : state) (id : string) (r : record) : Prop := {
  sok_id : r_ID r = id;
  sok_nonempty : id <> ""%string;
  sok_scope : validScope (Session_Scope (record_Session r)) = true;
  sok_parent : r_Parent r <> ""%string -> exists p,
    mget (Sessions s) (r_Parent r) = Some p /\ r_ExpiresAt r <= r_ExpiresAt p
    /\ subset (r_Actions r) (r_Actions p) = true
    /\ subset (r_Resources r) (r_Resources p) = true
}.

Definition sessions_wf (s : state) : Prop :=
  forall id r, mget (Sessions s) id = Some r -> session_ok s id r.

(** What [issue] relies on of [mint]: 256 fresh random bits name no session
    yet. *)
Definition fresh_session (e : Env) (s : state) : Prop :=
  forall id, mint e 1 = Ok id -> id <> ""%string /\ mget (Sessions s) id = None.

Lemma insert_session_ok s id r s' :
  insert_session s id r = Ok s' ->
  exists m, mset (Sessions s) id r = Ok m /\ s' = s <| Sessions := m |>.
Proof. unfold insert_session. intros H. inv_ok. eauto. Qed.

Lemma issue_ok e cred parent scope expires s session token s' :
  issue e cred parent scope expires s = Ok ((session, token), s') <->
  exists id m,
    mint e 0 = Ok token /\ mint e 1 = Ok id
    /\ session = mkSession id parent scope expires false
    /\ validScope scope = true /\ now e 0 < expires
    /\ (if decide (parent = ""%string) then not_owner s cred = false
        else exists p, authenticate s cred parent (now e 0) = Ok p
             /\ expires <= r_ExpiresAt p
             /\ subset (Scope_Actions scope) (r_Actions p) = true
             /\ subset (Scope_Resources scope) (r_Resources p) = true)
    /\ mset (Sessions s) id (mkRecord session (hash token)) = Ok m
    /\ s' = s <| Sessions := m |>.
Proof.
  unfold issue, insert_session. split.
  - intros H. inv_ok. simplify_eq. repeat eexists; eauto.
    destruct (String.eqb_spec parent "") as [-> | Hp]; inv_ok; [done |].
    rewrite decide_False by done. naive_solver.
  - intros (id & m & Ht & Hi & -> & Hv & Hn & Hp & Hm & ->).
    rewrite Ht, Hi. simpl. rewrite Hv, (proj2 (Z.ltb_lt _ _) Hn), Hm. simpl.
    destruct (String.eqb_spec parent "") as [-> | Hne].
    + by rewrite Hp.
    + rewrite decide_False in Hp by done. destruct Hp as (p & -> & Hx & Ha & Hr). simpl.
      by rewrite Ha, Hr, (proj2 (Z.ltb_ge _ _) Hx).
Qed.

Lemma session_ok_insert s s' id r m k q :
  mset (Sessions s) id r = Ok m -> Sessions s' = m -> mget (Sessions s) id = None ->
  session_ok s k q -> session_ok s' k q.
Proof.
  intros Hm <- Hf [? ? ? Hp]. split; [done.. |].
  intros Hne. destruct (Hp Hne) as (p & Hg & ?). exists p. split; [| done].
  by rewrite (mget_mset_ne _ _ _ _ _ Hm) by congruence.
Qed.

(** Issuing a session keeps the store well formed. *)
Lemma issue_wf e cred parent scope expires s x s' :
  sessions_wf s -> fresh_session e s ->
  issue e cred parent scope expires s = Ok (x, s') -> sessions_wf s'.
Proof.
  destruct x as [session token]. intros Hwf Hf
    (id & m & Ht & Hi & -> & Hv & Hn & Hp & Hm & ->)%issue_ok k q Hk.
  destruct (Hf _ Hi) as [Hne Hnone]. simpl in Hk.
  rewrite (mget_mset _ _ _ _ _ Hm) in Hk. case_decide as E.
  - injection Hk as <-. subst k. split; [done | done | done |]. cbn. intros Hpn.
    rewrite decide_False in Hp by done. destruct Hp as (p & Hau & ? & ? & ?).
    apply authenticate_ok in Hau as (Hg & _). exists p. split; [| done].
    by rewrite (mget_mset_ne _ _ _ _ _ Hm) by congruence.
  - eapply session_ok_insert; eauto.
Qed.

Lemma Revoke_ok owner id s x s' :
  Revoke owner id s = Ok (x, s') <->
  not_owner s owner = false /\ exists r m, mget (Sessions s) id = Some r
  /\ mset (Sessions s) id (r <| record_Session := (record_Session r) <| Session_Revoked := true |> |>)
     = Ok m
  /\ s' = s <| Sessions := m |>.
Proof.
  unfold Revoke, insert_session. split.
  - intros H. inv_ok. simplify_eq. eauto 10.
  - intros (Ho & r & m & Hr & Hm & ->). rewrite Ho, Hr. simpl. rewrite Hm. by destruct x.
Qed.

(** [session_le s s']: sessions are never removed, re-parented or un-revoked,
    and their scopes, expiries and credentials never change.  Every operation
    of the authority satisfies it. *)
Definition session_le (s s' : state) : Prop :=
  forall id r, mget (Sessions s) id = Some r -> exists r', mget (Sessions s') id = Some r'
    /\ r_ID r' = r_ID r /\ r_Parent r' = r_Parent r /\ record_Hash r' = record_Hash r
    /\ Session_Scope (record_Session r') = Session_Scope (record_Session r)
    /\ r_ExpiresAt r' = r_ExpiresAt r
    /\ (r_Revoked r = true -> r_Revoked r' = true).

#[export] Instance session_le_preorder : PreOrder session_le.
Proof.
  split.
  - intros s id r H. exists r. split_and!; done.
  - intros s1 s2 s3 H12 H23 id r H.
    destruct (H12 id r H) as (r2 & Hm2 & E1 & E2 & E3 & E4 & E5 & E6).
    destruct (H23 id r2 Hm2) as (r3 & Hm3 & F1 & F2 & F3 & F4 & F5 & F6).
    exists r3. split_and!; [done | congruence.. | auto].
Qed.

Lemma session_le_same s s' : Sessions s' = Sessions s -> session_le s s'.
Proof. intros E id r H. exists r. rewrite E. split_and!; done. Qed.

Lemma issue_le e cred parent scope expires s x s' :
  fresh_session e s -> issue e cred parent scope expires s = Ok (x, s') -> session_le s s'.
Proof.
  destruct x as [session token].
  intros Hf (id & m & _ & Hi & _ & _ & _ & _ & Hm & ->)%issue_ok k r Hk.
  destruct (Hf _ Hi) as [_ Hnone]. exists r. simpl.
  rewrite (mget_mset_ne _ _ _ _ _ Hm) by congruence. split_and!; done.
Qed.

Lemma Revoke_le owner id s x s' : Revoke owner id s = Ok (x, s') -> session_le s s'.
Proof.
  intros (_ & r & m & Hr & Hm & ->)%Revoke_ok k q Hk. simpl.
  rewrite (mget_mset _ _ _ _ _ Hm). case_decide as E.
  - subst k. rewrite Hr in Hk. injection Hk as <-. eexists. split; [done |]. cbn. done.
  - exists q. split_and!; done.
Qed.

Lemma Revoke_wf owner id s x s' :
  sessions_wf s -> Revoke owner id s = Ok (x, s') -> sessions_wf s'.
Proof.
  intros Hwf H. pose proof (Revoke_le _ _ _ _ _ H) as Hle.
  apply Revoke_ok in H as (_ & r & m & Hr & Hm & ->). intros k q Hk.
  assert (exists q0, mget (Sessions s) k = Some q0 /\ r_ID q = r_ID q0
    /\ r_Parent q = r_Parent q0 /\ Session_Scope (record_Session q) = Session_Scope (record_Session q0)
    /\ r_ExpiresAt q = r_ExpiresAt q0) as (q0 & H0 & E1 & E2 & E3 & E4).
  { simpl in Hk. rewrite (mget_mset _ _ _ _ _ Hm) in Hk. case_decide as E.
    - subst k. injection Hk as <-. exists r. split_and!; done.
    - exists q. split_and!; done. }
  destruct (Hwf k q0 H0) as [? ? ? Hp]. split; [congruence | done | by rewrite E3 |].
  rewrite E2. intros Hne. destruct (Hp Hne) as (p & Hg & Hx & Ha & Hb).
  destruct (Hle _ _ Hg) as (p' & Hg' & _ & _ & _ & F4 & F5 & _).
  exists p'. unfold r_Actions, r_Resources in *. rewrite E3, E4, F4, F5. done.
Qed.

(** Ancestors persist, and a revoked ancestor stays revoked. *)
Lemma ancestor_le s s' r q r' :
  session_le s s' -> ancestor s r q -> r_ID r' = r_ID r -> r_Parent r' = r_Parent r ->
  (r_Revoked r = true -> r_Revoked r' = true) ->
  exists q', ancestor s' r' q' /\ r_ID q' = r_ID q /\ r_Parent q' = r_Parent q
             /\ (r_Revoked q = true -> r_Revoked q' = true).
Proof.
  intros Hle Ha. revert r'. induction Ha as [r | r p q [Hp Hm] _ IH]; intros r' Hi Hpa Hrv.
  - exists r'. split_and!; [apply rtc_refl | done..].
  - destruct (Hle _ _ Hm) as (p' & Hm' & E1 & E2 & _ & _ & _ & E6).
    destruct (IH p' E1 E2 E6) as (q' & Ha' & ? & ? & ?). exists q'.
    split_and!; try done. apply rtc_l with p'; [| done]. split; by rewrite Hpa.
Qed.

Lemma climb_err fuel s t seen r e : climb fuel s t seen r = Some (Err e) -> e = ErrDenied.
Proof.
  revert seen r. induction fuel as [|fuel IH]; intros seen r; simpl; [done |].
  repeat case_match; naive_solver.
Qed.

Lemma walk_err s t r e : walk s t r = Err e -> e = ErrDenied.
Proof.
  unfold walk. destruct (climb _ _ _ _ _) as [[] |] eqn:E; intros ?; simplify_eq; [| done].
  by eapply climb_err.
Qed.

Lemma authenticate_err s token id t e : authenticate s token id t = Err e -> e = ErrDenied.
Proof.
  unfold authenticate, deny_if. destruct (mget _ _) as [r |]; simpl; [| naive_solver].
  destruct (_ || _); simpl; [naive_solver |].
  destruct (walk s t r) eqn:E; simpl; intros ?; simplify_eq. by eapply walk_err.
Qed.

(** A session below a revoked one does not authenticate. *)
Lemma revoked_ancestor_denied s id r q token t :
  mget (Sessions s) id = Some r -> ancestor s r q -> r_Revoked q = true ->
  authenticate s token id t = Err ErrDenied.
Proof.
  intros Hm Ha Hq. destruct (authenticate s token id t) as [r' | e] eqn:E.
  - apply authenticate_ok in E as (Hm' & _ & _ & ids & root & Hl).
    rewrite Hm in Hm'. injection Hm' as <-.
    destruct (live_path_ancestor _ _ _ _ _ _ Hl Ha) as (? & _). congruence.
  - by apply authenticate_err in E as ->.
Qed.

(** Adding a session under a fresh name leaves the paths of the others alone. *)
Lemma live_path_insert s id m x t r ids root :
  mget (Sessions s) id = None -> mset (Sessions s) id x = Ok m ->
  live_path s t r ids root -> live_path (s <| Sessions := m |>) t r ids root.
Proof.
  intros Hn Hm. induction 1; [by constructor |].
  eapply live_child; eauto. simpl.
  by rewrite (mget_mset_ne _ _ _ _ _ Hm) by congruence.
Qed.

Lemma live_path_ids s t r ids root x :
  sessions_wf s -> live_path s t r ids root -> x ∈ ids ->
  x = r_ID r \/ is_Some (mget (Sessions s) x).
Proof.
  intros Hwf. induction 1 as [| r p ids root _ _ _ Hm _ IH _];
    intros [-> | Hx]%elem_of_cons; auto; [by apply elem_of_nil in Hx |].
  destruct (IH Hx) as [-> | ?]; [right | auto].
  destruct (Hwf _ _ Hm) as [-> _ _ _]. by eexists.
Qed.

Lemma ancestor_bounds s r q id :
  sessions_wf s -> mget (Sessions s) id = Some r -> ancestor s r q ->
  r_ExpiresAt r <= r_ExpiresAt q /\ subset (r_Actions r) (r_Actions q) = true
  /\ subset (r_Resources r) (r_Resources q) = true.
Proof.
  intros Hwf Hr Ha. revert id Hr. induction Ha as [r | r p q [Hp Hm] _ IH]; intros id Hr.
  - rewrite !subset_spec. auto with lia.
  - destruct (Hwf _ _ Hr) as [_ _ _ Hpar]. destruct (Hpar Hp) as (p' & Hm' & ? & ? & ?).
    rewrite Hm in Hm'. injection Hm' as <-. destruct (IH _ Hm) as (? & ? & ?).
    split_and!; [lia | by eapply subset_trans..].
Qed.

Lemma ancestor_stored s id r q :
  sessions_wf s -> mget (Sessions s) id = Some r -> ancestor s r q ->
  mget (Sessions s) (r_ID q) = Some q.
Proof.
  intros Hwf Hr Ha. revert id Hr. induction Ha as [r | r p q [Hp Hm] _ IH]; intros id Hr.
  - by destruct (Hwf _ _ Hr) as [-> _ _ _].
  - eauto.
Qed.

(** ** Properties *)

(** C28: [authenticate] succeeds exactly when the session exists, the presented
    token is the 64-character preimage of the stored digest, and the walk over
    the whole chain of parents - which always terminates, even on cyclic data -
    meets only distinct, unrevoked and unexpired sessions up to one without a
    parent; every failure is [ErrDenied]. *)
Theorem authenticate_spec s token id t :
  (forall r, authenticate s token id t = Ok r <->
     mget (Sessions s) id = Some r /\ len token = 64 /\ hash token = record_Hash r
     /\ exists ids root, live_path s t r ids root)
  /\ (forall e, authenticate s token id t = Err e -> e = ErrDenied).
Proof. split; [intros r; apply authenticate_ok | apply authenticate_err]. Qed.

(** in a well-formed store no session outlives or out-scopes any of its
    ancestors, so whatever [Authorize] grants to a session was within the scope
    and lifetime of every session above it. *)
Theorem Authorize_within_ancestors a e token id workspace action resource s session q :
  sessions_wf s ->
  Authorize a e token id workspace action resource s = Ok session ->
  (exists r, mget (Sessions s) id = Some r /\ ancestor s r q) ->
  workspace = Binding_Workspace (a_binding a)
  /\ action ∈ r_Actions q /\ resource ∈ r_Resources q
  /\ r_Revoked q = false /\ now e 0 < r_ExpiresAt q
  /\ Session_ExpiresAt session <= r_ExpiresAt q.
Proof.
  intros Hwf H (r & Hr & Ha). unfold Authorize in H. inv_ok.
  match goal with H : authenticate _ _ _ _ = _ |- _ =>
    apply authenticate_ok in H as (Hm & _ & _ & ids & root & Hl) end.
  rewrite Hr in Hm. injection Hm as <-. simplify_eq.
  destruct (live_path_ancestor _ _ _ _ _ _ Hl Ha) as (? & ? & _).
  destruct (ancestor_bounds _ _ _ _ Hwf Hr Ha) as (? & Hact & Hres).
  rewrite subset_one in *. rewrite subset_spec in Hact, Hres. split_and!; auto.
Qed.

(** a session issued under a fresh name can be used at once: in the state
    the operation persists its token authenticates it, with the requested scope
    and expiry. *)
Theorem issue_authenticates e cred parent scope expires s session token s' :
  sessions_wf s -> fresh_session e s -> len token = 64 ->
  issue e cred parent scope expires s = Ok ((session, token), s') ->
  authenticate s' token (Session_ID session) (now e 0) = Ok (mkRecord session (hash token))
  /\ session = mkSession (Session_ID session) parent scope expires false.
Proof.
  intros Hwf Hf Hlen (id & m & Ht & Hi & -> & Hv & Hn & Hp & Hm & ->)%issue_ok.
  split; [| done]. destruct (Hf _ Hi) as [Hne Hnone].
  apply authenticate_ok. cbn. split_and!; [by eapply mget_mset_eq | done | done |].
  case_decide as Hpar.
  - exists [id], id. subst parent. 
    by apply (live_root _ _ (mkRecord (mkSession id "" scope expires false) (hash token))).
  - destruct Hp as (p & (Hg & _ & _ & ids & root & Hl)%authenticate_ok & _).
    exists (id :: ids), root.
    apply (live_child _ _ (mkRecord (mkSession id parent scope expires false) (hash token)) p);
      try done; cbn.
    + by rewrite (mget_mset_ne _ _ _ _ _ Hm) by congruence.
    + by eapply live_path_insert.
    + intros Hin. destruct (live_path_ids _ _ _ _ _ _ Hwf Hl Hin) as [E | [? E]]; [| congruence].
      destruct (Hwf _ _ Hg) as [E' _ _ _]. congruence.
Qed.

(** Revocation is final and transitive: once the owner has revoked a
    session, neither it nor any session below it authenticates with any token
    at any time in any later state, where later states are those that extend
    the revoked one in the order [session_le] every operation respects. *)
Theorem Revoke_denies_descendants owner id s s' later child r q token t :
  sessions_wf s -> Revoke owner id s = Ok (tt, s') -> session_le s' later ->
  mget (Sessions s) child = Some r -> ancestor s r q -> r_ID q = id ->
  authenticate later token child t = Err ErrDenied.
Proof.
  intros Hwf Hrev Hle Hr Ha Hq.
  pose proof (Revoke_wf _ _ _ _ _ Hwf Hrev) as Hwf'.
  destruct (Revoke_le _ _ _ _ _ Hrev child r Hr) as (r' & Hr' & E1 & E2 & _ & _ & _ & E6).
  destruct (ancestor_le _ _ _ _ _ (Revoke_le _ _ _ _ _ Hrev) Ha E1 E2 E6)
    as (q' & Ha' & Hi & _).
  assert (r_Revoked q' = true) as Hq'.
  { pose proof (ancestor_stored _ _ _ _ Hwf' Hr' Ha') as Hs. rewrite Hi, Hq in Hs.
    apply Revoke_ok in Hrev as (_ & q0 & m & _ & Hm & ->). simpl in Hs.
    rewrite (mget_mset_eq _ _ _ _ Hm) in Hs. by injection Hs as <-. }
  destruct (Hle child r' Hr') as (r'' & Hr'' & F1 & F2 & _ & _ & _ & F6).
  destruct (ancestor_le _ _ _ _ _ Hle Ha' F1 F2 F6) as (q'' & Ha'' & _ & _ & Hq'').
  eapply revoked_ancestor_denied; eauto.
Qed.

Lemma compat_walk_climb fuel s t i seen r :
  (forall id q, mget (Sessions s) id = Some q -> r_ID q <> ""%string) -> r_ID r <> ""%string ->
  compat_walk fuel s (fun _ => t) i seen r = Some (mkCompat "authorized" (Version s)) <->
  exists root, climb fuel s t seen r = Some (Ok root).
Proof.
  intros Hne. revert i seen r. induction fuel as [|fuel IH]; intros i seen r Hr; simpl.
  { naive_solver. }
  rewrite (proj2 (String.eqb_neq _ _) Hr). simpl.
  case_bool_decide; simpl; [naive_solver |].
  destruct (r_Revoked r); simpl; [naive_solver |].
  destruct (t <? r_ExpiresAt r); simpl; [| naive_solver].
  destruct (r_Parent r =? "")%string; [naive_solver |].
  destruct (mget (Sessions s) (r_Parent r)) as [p |] eqn:Hp; [| naive_solver].
  apply IH. by eapply Hne.
Qed.

Lemma compat_walk_clock fuel s clock t i seen r :
  (forall j, clock j = t) ->
  compat_walk fuel s clock i seen r = compat_walk fuel s (fun _ => t) i seen r.
Proof.
  intros Ht. revert i seen r. induction fuel as [|fuel IH]; intros i seen r; simpl; [done |].
  rewrite Ht. by repeat (case_match; try done).
Qed.

(** the compatibility inspector agrees with [authenticate]: in a
    well-formed store, for a non-empty session name and a clock that stands
    still, it reports "authorized" with the stored schema exactly when
    [authenticate] accepts the same credential. *)
Theorem InspectNativeCompatibility_authenticate e token id s :
  sessions_wf s -> id <> ""%string -> (forall i, now e i = now e 0) ->
  InspectNativeCompatibility e token id s = mkCompat "authorized" (Version s)
  <-> is_ok (authenticate s token id (now e 0)) = true.
Proof.
  intros Hwf Hid Ht. rewrite is_ok_true. unfold InspectNativeCompatibility, authenticate, walk.
  generalize (session_fuel s). intros n.
  rewrite (proj2 (String.eqb_neq _ _) Hid). simpl.
  destruct (len token =? 64); simpl.
  2: { destruct (mget _ _); simpl; naive_solver. }
  destruct (mget (Sessions s) id) as [r |] eqn:Hr; simpl; [| naive_solver].
  rewrite (String.eqb_sym (hash token)).
  destruct (record_Hash r =? hash token)%string; simpl; [| naive_solver].
  rewrite (compat_walk_clock _ _ _ (now e 0) _ _ _ Ht).
  assert (compat_walk n s (fun _ => now e 0) 0 ∅ r
            = Some (mkCompat "authorized" (Version s))
          <-> exists root, climb n s (now e 0) ∅ r = Some (Ok root)) as Hc.
  { apply compat_walk_climb.
    - intros k q Hq. by destruct (Hwf _ _ Hq) as [-> ? _ _].
    - by destruct (Hwf _ _ Hr) as [-> ? _ _]. }
  destruct (compat_walk _ _ _ _ _ _) as [c |], (climb _ _ _ _ _) as [[] |]; naive_solver.
Qed.
