(* ===== verification/Schema.v ===== *)
(** * Schemas, migrations and the transaction

    [internal/governance/sessions]: [transaction], [readAuthority],
    [decodeAuthorityState], [validateAuthorityMaps] (sessions.go,
    authority_io.go), [Bootstrap], and the migrations each file of the package
    contributes.

    [transaction_over] is the body of [transaction] over anything that can hold the
    file.  Here what holds it is [disk], what a reader finds: a stored state is a
    [state], whether it can be marshalled within [MaxAuthorityBytes] and what its
    replacement came to are observations ([IO]).  [Storage] runs the same body over
    a directory, with [persist] operation by operation, and proves that it comes to
    one of these outcomes. *)

From S2P Require Import Prelude GoStd Disclosure State Session.
#[local] Open Scope Z_scope.

(** ** Validity of the maps *)

(** One line pair of [validateAuthorityMaps]: below schema [v] the maps are
    nil, from [v] on none is; [nils] tells which are nil. *)
Definition group_check (s : state) (v : Z) (e : error) (nils : list bool) : res unit :=
  fail_if e ((Version s <? v) && existsb negb nils);;
  fail_if e ((v <=? Version s) && existsb id nils).

Definition external_nils (s : state) : list bool :=
  let m := st_External s in
  [is_nil (NativeExternalPolicies m); is_nil (NativeExternalHistory m);
   is_nil (NativeExternalOperations m)].
Definition integration_nils (s : state) : list bool :=
  let m := st_Integration s in
  [is_nil (NativeIntegrationPolicies m); is_nil (NativeIntegrationHistory m);
   is_nil (NativeIntegrationOperations m)].
Definition swarm_nils (s : state) : list bool :=
  let m := st_Swarm s in
  [is_nil (SwarmPolicies m); is_nil (Dispatches m); is_nil (SwarmOperations m)].
Definition intent_nils (s : state) : list bool :=
  let m := st_Intents s in [is_nil (DispatchIntents m); is_nil (DispatchIntentOperations m)].
Definition lifecycle_nils (s : state) : list bool :=
  let m := st_Lifecycle s in
  [is_nil (LifecyclePolicyHistory m); is_nil (LifecyclePolicies m);
   is_nil (LifecycleObservations m); is_nil (LifecycleCancellations m);
   is_nil (LifecycleOperations m)].
Definition recovery_nils (s : state) : list bool :=
  let m := st_Recovery s in
  [is_nil (RecoveryPolicies m); is_nil (RecoveryPolicyHistory m); is_nil (Recoveries m);
   is_nil (RecoveryOperations m)].
Definition checkpoint_nils (s : state) : list bool :=
  let m := st_Checkpoint s in
  [is_nil (CheckpointPolicies m); is_nil (CheckpointPolicyHistory m); is_nil (Checkpoints m);
   is_nil (CheckpointOperations m)].
Definition routing_nils (s : state) : list bool :=
  let m := st_Routing s in
  [is_nil (ModelRoutingPolicies m); is_nil (ModelRoutingHistory m); is_nil (ModelRoutingSelections m)].
Definition controller_nils (s : state) : list bool :=
  let m := st_Controller s in
  [is_nil (ControllerPolicies m); is_nil (ControllerPolicyHistory m);
   is_nil (ControllerInvocations m); is_nil (ControllerHistory m); is_nil (ControllerOperations m)].
Definition native_policy_nils (s : state) : list bool :=
  let m := st_NativePolicy s in
  [is_nil (NativePolicies m); is_nil (NativePolicyHistory m); is_nil (NativePolicyDecisions m);
   is_nil (NativePolicyApprovals m); is_nil (NativePolicyConsumptions m);
   is_nil (NativePolicyOutcomes m)].
Definition acceptance_nils (s : state) : list bool :=
  let m := st_Acceptance s in [is_nil (TaskTerminals m); is_nil (NativeAcceptanceOperations m)].
Definition budget_nils (s : state) : list bool :=
  let m := st_Budget s in
  [is_nil (BudgetPolicies m); is_nil (BudgetPolicyHistory m); is_nil (BudgetAllocations m);
   is_nil (BudgetOperations m)].
Definition preflight_nils (s : state) : list bool :=
  let m := st_Preflight s in
  [is_nil (PreflightPolicies m); is_nil (PreflightPolicyHistory m); is_nil (CapacityOverrides m);
   is_nil (PreflightOperations m); is_nil (PreflightRetryBudgets m)].

Definition checkpoint_binding_present (op : operation) : bool :=
  match op_CheckpointVerification op with Some _ => true | None => false end.

Definition validateAuthorityMaps (s : state) : res unit :=
  group_check s 19 ErrStorage (external_nils s);;
  group_check s 18 ErrStorage (integration_nils s);;
  group_check s 7 ErrStorage (swarm_nils s);;
  group_check s 8 ErrStorage (intent_nils s);;
  group_check s 9 ErrStorage (lifecycle_nils s);;
  group_check s 10 ErrStorage (recovery_nils s);;
  deny_if ((Version s <? 12) && existsb checkpoint_binding_present (mvals (Operations s)));;
  group_check s 12 ErrDenied (checkpoint_nils s);;
  group_check s 17 ErrDenied (routing_nils s);;
  group_check s 16 ErrStorage (controller_nils s);;
  group_check s 15 ErrDenied (native_policy_nils s);;
  group_check s 14 ErrDenied (acceptance_nils s);;
  group_check s 13 ErrStorage (budget_nils s);;
  group_check s 11 ErrStorage (preflight_nils s).

(** The condition of [decodeAuthorityState] on the maps held directly. *)
Definition core_maps_missing (s : state) : bool :=
  is_nil (Sessions s)
  || ((2 <=? Version s) && (is_nil (Tasks s) || is_nil (Attempts s)))
  || ((3 <=? Version s) && (is_nil (Leases s) || is_nil (Operations s)))
  || ((4 <=? Version s) && (is_nil (Revisions s) || is_nil (Grants s) || is_nil (st_Evidence s)))
  || ((5 <=? Version s) && (is_nil (ReviewGrants s) || is_nil (Reviews s)))
  || ((6 <=? Version s) && (is_nil (PublicationPolicies s) || is_nil (PublicationDecisions s)
                            || is_nil (PublicationConsumed s))).

Definition version_readable (stored version : Z) : bool :=
  (stored =? version)
  || ((6 <=? version) && (version <=? 12) && (version <=? stored) && (stored <=? 19)).

Definition decodeAuthorityState (s : state) (binding : Binding) (version : Z) : res state :=
  fail_if ErrStorage (negb (version_readable (Version s) version)
                      || negb (bool_decide (st_Binding s = binding))
                      || (OwnerHash s =? "")%string || core_maps_missing s);;
  validateAuthorityMaps s;;
  Ok s.

(** ** The transaction *)

Inductive disk :=
  | Absent                      (* no directory entry *)
  | Unreadable                  (* not a regular private file, too large, or not JSON *)
  | Stored (s : state).

(** What a replacement can come to: an error that left the old file, an error
    that left the new one, or success. *)
Inductive persist_outcome := PersistOk | FailedBefore | FailedAfterRename.

Record IO := mkIO {
  io_lock : bool;               (* the lock is obtained before the deadline *)
  io_regular : bool;            (* [regularOrAbsent] of the authority path *)
  io_encodable : state -> bool; (* marshals within [MaxAuthorityBytes] *)
  io_persist : persist_outcome
}.

Definition no_swarms : SwarmMaps := mkSwarmMaps None None None.
Definition initializeSwarms : SwarmMaps := mkSwarmMaps make_map make_map make_map.

(** The state a create transaction starts from; the maps not mentioned in the
    literal are nil. *)
Definition initial_state (a : Authority) : state :=
  mkState (a_version a) (a_binding a) "" make_map make_map make_map make_map make_map 0
    make_map make_map make_map make_map make_map make_map make_map make_map
    (if 7 <=? a_version a then initializeSwarms else no_swarms)
    (mkIntentMaps None None) (mkLifecycleMaps None None None None None)
    (mkRecoveryMaps None None None None) (mkPreflightMaps None None None None None)
    (mkCheckpointMaps None None None None) (mkBudgetMaps None None None None)
    (mkAcceptanceMaps None None) (mkNativePolicyMaps None None None None None None)
    (mkControllerMaps None None None None None) (mkRoutingMaps None None None)
    (mkIntegrationMaps None None None) (mkExternalMaps None None None).

Definition load (a : Authority) (create : bool) (d : disk) : res state :=
  if create then
    match d with
    | Absent => Ok (initial_state a)
    | Unreadable | Stored _ => Err ErrDenied
    end
  else
    match d with
    | Stored s => decodeAuthorityState s (a_binding a) (a_version a)
    | Absent | Unreadable => Err ErrStorage
    end.

(** The body of [transaction]: [held] is what a reader of the file finds, [encode]
    the marshalling within the bound, [replace] the replacement of the file. *)
Definition transaction_over {A D E} (held : D -> disk) (encode : state -> option E) (replace : E -> D -> res unit * D)
    (a : Authority) (locked regular create write : bool) (fn : tx A) (d : D) : res A * D :=
  match (fail_if ErrStorage (negb locked);;
         fail_if ErrStorage (negb regular);;
         s ← load a create (held d);
         validateAuthorityMaps s;;
         fn s)
  with
  | Err e => (Err e, d)
  | Ok (x, s) =>
    if negb write then (Ok x, d)
    else if negb create && (OwnerHash s =? "")%string then (Err ErrStorage, d)
    else match encode s with
         | None => (Err ErrStorage, d)
         | Some data => match replace data d with
                        | (Ok _, d') => (Ok x, d')
                        | (Err e, d') => (Err e, d')
                        end
         end
  end.

Definition replaced (o : persist_outcome) (s : state) (d : disk) : res unit * disk :=
  match o with
  | PersistOk => (Ok tt, Stored s)
  | FailedBefore => (Err ErrStorage, d)
  | FailedAfterRename => (Err ErrStorage, Stored s)
  end.

Definition transaction {A} (a : Authority) (io : IO) (create write : bool) (fn : tx A) (d : disk)
    : res A * disk :=
  transaction_over id (fun s => if io_encodable io s then Some s else None) (replaced (io_persist io))
    a (io_lock io) (io_regular io) create write fn d.

(** ** Migrations *)

(** [initializeEvidence], [initializeReviews], [initializePublication] *)
Definition initializeEvidence (s : state) : state :=
  s <| Revisions := make_map |> <| Grants := make_map |> <| st_Evidence := make_map |>.
Definition initializeReviews (s : state) : state :=
  s <| ReviewGrants := make_map |> <| Reviews := make_map |>.
Definition initializePublication (s : state) : state :=
  s <| PublicationPolicies := make_map |> <| PublicationDecisions := make_map |>
    <| PublicationConsumed := make_map |>.

(** [s.Version != v || len(owner) != 64 || hash(owner) != s.OwnerHash] *)
Definition from_schema (v : Z) (owner : string) (s : state) : res unit :=
  deny_if (negb (Version s =? v) || not_owner s owner).

Definition Upgrade (owner : string) : tx unit := fun s =>
  deny_if (not_owner s owner);;
  Ok (tt, (initializeReviews (initializeEvidence ((initializePublication s) <| Version := 6 |>)))
            <| Leases := make_map |> <| Operations := make_map |> <| Tasks := make_map |>
            <| Attempts := make_map |>).

Definition UpgradeLeases (owner : string) : tx unit := fun s =>
  deny_if (not_owner s owner);;
  Ok (tt, (initializeReviews (initializeEvidence ((initializePublication s) <| Version := 6 |>)))
            <| Leases := make_map |> <| Operations := make_map |> <| Fence := 0 |>).

Definition UpgradeEvidence (owner : string) : tx unit := fun s =>
  deny_if (not_owner s owner);;
  Ok (tt, (initializePublication (initializeReviews (initializeEvidence s))) <| Version := 6 |>).

Definition UpgradeReviews (owner : string) : tx unit := fun s =>
  deny_if (not_owner s owner);;
  Ok (tt, (initializePublication (initializeReviews s)) <| Version := 6 |>).

Definition UpgradePublication (owner : string) : tx unit := fun s =>
  deny_if (not_owner s owner);;
  Ok (tt, (initializePublication s) <| Version := 6 |>).

Definition UpgradeSwarms (owner : string) : tx unit := fun s =>
  from_schema 6 owner s;;
  fail_if ErrStorage (existsb negb (swarm_nils s));;
  Ok (tt, s <| st_Swarm := initializeSwarms |> <| Version := 7 |>).

Definition UpgradeDispatchIntents (owner : string) : tx unit := fun s =>
  from_schema 7 owner s;;
  Ok (tt, s <| st_Intents := mkIntentMaps make_map make_map |> <| Version := 8 |>).

Definition UpgradeLifecycle (owner : string) : tx unit := fun s =>
  from_schema 8 owner s;;
  Ok (tt, s <| st_Lifecycle := mkLifecycleMaps make_map make_map make_map make_map make_map |>
            <| Version := 9 |>).

Definition UpgradeRecovery (owner : string) : tx unit := fun s =>
  from_schema 9 owner s;;
  Ok (tt, s <| st_Recovery := mkRecoveryMaps make_map make_map make_map make_map |>
            <| Version := 10 |>).

Definition UpgradePreflight (owner : string) : tx unit := fun s =>
  from_schema 10 owner s;;
  Ok (tt, s <| st_Preflight := mkPreflightMaps make_map make_map make_map make_map make_map |>
            <| Version := 11 |>).

Definition UpgradeCheckpoints (owner : string) : tx unit := fun s =>
  from_schema 11 owner s;;
  Ok (tt, s <| st_Checkpoint := mkCheckpointMaps make_map make_map make_map make_map |>
            <| Version := 12 |>).

Definition UpgradeBudgets (owner : string) : tx unit := fun s =>
  from_schema 12 owner s;;
  Ok (tt, s <| st_Budget := mkBudgetMaps make_map make_map make_map make_map |> <| Version := 13 |>).

Definition UpgradeNativeAcceptance (owner : string) : tx unit := fun s =>
  from_schema 13 owner s;;
  Ok (tt, s <| st_Acceptance := mkAcceptanceMaps make_map make_map |> <| Version := 14 |>).

Definition UpgradeNativePolicy (owner : string) : tx unit := fun s =>
  from_schema 14 owner s;;
  Ok (tt, s <| st_NativePolicy := mkNativePolicyMaps make_map make_map make_map make_map make_map make_map |>
            <| Version := 15 |>).

Definition UpgradeController (owner : string) : tx unit := fun s =>
  from_schema 15 owner s;;
  Ok (tt, s <| st_Controller := mkControllerMaps make_map make_map make_map make_map make_map |>
            <| Version := 16 |>).

Definition UpgradeNativeModelRouting (owner : string) : tx unit := fun s =>
  from_schema 16 owner s;;
  Ok (tt, s <| st_Routing := mkRoutingMaps make_map make_map make_map |> <| Version := 17 |>).

Definition UpgradeNativeIntegration (owner : string) : tx unit := fun s =>
  from_schema 17 owner s;;
  Ok (tt, s <| st_Integration := mkIntegrationMaps make_map make_map make_map |> <| Version := 18 |>).

Definition UpgradeNativeExternal (owner : string) : tx unit := fun s =>
  from_schema 18 owner s;;
  Ok (tt, s <| st_External := mkExternalMaps make_map make_map make_map |> <| Version := 19 |>).

Definition UpgradeNativeRoleRegistry (owner : string) : tx unit := fun s =>
  from_schema 19 owner s;;
  Ok (tt, s <| Version := 20 |>).

(** The migrations, by name. *)
Inductive migration :=
  | MUpgrade | MLeases | MEvidence | MReviews | MPublication | MSwarms | MDispatchIntents
  | MLifecycle | MRecovery | MPreflight | MCheckpoints | MBudgets | MNativeAcceptance
  | MNativePolicy | MController | MNativeModelRouting | MNativeIntegration | MNativeExternal
  | MNativeRoleRegistry.

Definition run_migration (m : migration) : string -> tx unit :=
  match m with
  | MUpgrade => Upgrade | MLeases => UpgradeLeases | MEvidence => UpgradeEvidence
  | MReviews => UpgradeReviews | MPublication => UpgradePublication
  | MSwarms => UpgradeSwarms | MDispatchIntents => UpgradeDispatchIntents
  | MLifecycle => UpgradeLifecycle | MRecovery => UpgradeRecovery
  | MPreflight => UpgradePreflight | MCheckpoints => UpgradeCheckpoints
  | MBudgets => UpgradeBudgets | MNativeAcceptance => UpgradeNativeAcceptance
  | MNativePolicy => UpgradeNativePolicy | MController => UpgradeController
  | MNativeModelRouting => UpgradeNativeModelRouting
  | MNativeIntegration => UpgradeNativeIntegration | MNativeExternal => UpgradeNativeExternal
  | MNativeRoleRegistry => UpgradeNativeRoleRegistry
  end.

(** The schema a migration starts from and the one it reaches. *)
Definition source (m : migration) : Z :=
  match m with
  | MUpgrade => 1 | MLeases => 2 | MEvidence => 3 | MReviews => 4 | MPublication => 5
  | MSwarms => 6 | MDispatchIntents => 7 | MLifecycle => 8 | MRecovery => 9
  | MPreflight => 10 | MCheckpoints => 11 | MBudgets => 12 | MNativeAcceptance => 13
  | MNativePolicy => 14 | MController => 15 | MNativeModelRouting => 16
  | MNativeIntegration => 17 | MNativeExternal => 18 | MNativeRoleRegistry => 19
  end.
Definition target (m : migration) : Z := Z.max 6 (source m + 1).

(** The version the migration's transaction reads with: its own, or the one
    the handle was opened with. *)
Definition reader (m : migration) (a : Authority) : Z :=
  match m with
  | MNativeAcceptance | MNativePolicy | MController | MNativeModelRouting
  | MNativeIntegration | MNativeExternal => a_version a
  | _ => source m
  end.

Definition migrate (m : migration) (a : Authority) (io : IO) (owner : string) (d : disk)
    : res unit * disk :=
  transaction (a <| a_version := reader m a |>) io false true (run_migration m owner) d.

(** [Authority.Bootstrap] *)
Definition bootstrap (a : Authority) (io : IO) (e : Env) (d : disk) : res string * disk :=
  transaction a io true true (Bootstrap e) d.

(** ** Opening *)

(** [Open]: [parent_ok] is the resolution of the parent directory. *)
Definition Open (e : Env) (io : IO) (path parent base : string) (binding : Binding) : res Authority :=
  deny_if (negb (IsAbs path) || (Binding_Workspace binding =? "")%string
           || (Binding_Installation binding =? "")%string);;
  parent ← (match eval_symlinks e parent with Some p => Ok p | None => Err ErrStorage end);
  fail_if ErrStorage (negb (io_regular io));;
  Ok (mkAuthority (PathJoin parent base) binding 6).

(** [OpenCurrent]: the version found in the file, then a read transaction. *)
Definition OpenCurrent (io : IO) (a : Authority) (d : disk) : res Authority :=
  v ← (match d with Stored s => Ok (Version s) | Absent | Unreadable => Err ErrStorage end);
  fail_if ErrStorage ((v <? 6) || (20 <? v));;
  let a := a <| a_version := v |> in
  fst (transaction a io false false (fun s => Ok (tt, s)) d);;
  Ok a.

(** [OpenSwarm] *)
Definition OpenSwarm (io : IO) (a : Authority) (d : disk) : res Authority :=
  a ← OpenCurrent io a d;
  Ok (if a_version a =? 6 then a <| a_version := 7 |> else a).

(** ** Valid states *)

(** What [group_check] accepts. *)
Definition group_ok (s : state) (v : Z) (nils : list bool) : Prop :=
  if v <=? Version s then existsb id nils = false else existsb negb nils = false.

Lemma group_check_ok s v e nils u : group_check s v e nils = Ok u <-> group_ok s v nils.
Proof.
  unfold group_check, group_ok. destruct u.
  destruct (Z.leb_spec v (Version s)) as [H | H].
  - rewrite (proj2 (Z.ltb_ge _ _) H). simpl. by destruct (existsb id nils).
  - rewrite (proj2 (Z.ltb_lt _ _) H). simpl. by destruct (existsb negb nils).
Qed.

(** A state [decodeAuthorityState] accepts, whatever the reader. *)
Record valid (s : state) : Prop := {
  v_core : core_maps_missing s = false;
  v_external : group_ok s 19 (external_nils s);
  v_integration : group_ok s 18 (integration_nils s);
  v_swarm : group_ok s 7 (swarm_nils s);
  v_intent : group_ok s 8 (intent_nils s);
  v_lifecycle : group_ok s 9 (lifecycle_nils s);
  v_recovery : group_ok s 10 (recovery_nils s);
  v_binding : Version s < 12 -> forall k op, mget (Operations s) k = Some op ->
    op_CheckpointVerification op = None;
  v_checkpoint : group_ok s 12 (checkpoint_nils s);
  v_routing : group_ok s 17 (routing_nils s);
  v_controller : group_ok s 16 (controller_nils s);
  v_native_policy : group_ok s 15 (native_policy_nils s);
  v_acceptance : group_ok s 14 (acceptance_nils s);
  v_budget : group_ok s 13 (budget_nils s);
  v_preflight : group_ok s 11 (preflight_nils s)
}.

Lemma binding_check_false s :
  (Version s <? 12) && existsb checkpoint_binding_present (mvals (Operations s)) = false <->
  (Version s < 12 -> forall k op, mget (Operations s) k = Some op -> op_CheckpointVerification op = None).
Proof.
  rewrite andb_false_iff, Z.ltb_ge, existsb_not_elem. split.
  - intros [? | H] ? k op Hk; [lia |]. specialize (H op ltac:(apply elem_of_mvals; eauto)).
    unfold checkpoint_binding_present in H. by destruct (op_CheckpointVerification op).
  - intros H. destruct (Z.le_gt_cases 12 (Version s)); [by left | right].
    intros op [k Hk]%elem_of_mvals. unfold checkpoint_binding_present. by erewrite H by eauto.
Qed.

Ltac group_checks :=
  repeat match goal with
  | |- context [group_check ?s ?v ?e ?n] =>
    rewrite (proj2 (group_check_ok s v e n tt)) by done; simpl
  end.

Lemma validateAuthorityMaps_ok s u :
  validateAuthorityMaps s = Ok u /\ core_maps_missing s = false <-> valid s.
Proof.
  unfold validateAuthorityMaps. split.
  - intros [H Hc].
    repeat match type of H with
    | mbind _ _ = Ok _ => apply bind_ok in H as (? & ? & H)
    end.
    repeat match goal with
    | H : group_check _ _ _ _ = Ok _ |- _ => apply group_check_ok in H
    end.
    match goal with H : deny_if _ = Ok _ |- _ => apply deny_if_ok in H; pose proof (proj1 (binding_check_false s) H) end.
    constructor; assumption.
  - intros [Hc H19 H18 H7 H8 H9 H10 Hb H12 H17 H16 H15 H14 H13 H11]. split; [| done].
    group_checks. rewrite (proj2 (binding_check_false s)) by done. simpl.
    by destruct u.
Qed.

Lemma decodeAuthorityState_ok s b v s' :
  decodeAuthorityState s b v = Ok s' <->
  s' = s /\ version_readable (Version s) v = true /\ st_Binding s = b
  /\ OwnerHash s <> ""%string /\ valid s.
Proof.
  unfold decodeAuthorityState. split.
  - intros H. inv_ok. split_and!; try done. by eapply validateAuthorityMaps_ok.
  - intros (-> & Hv & <- & Ho & [Hm Hc]%(validateAuthorityMaps_ok _ tt)).
    rewrite Hv, Hc, Hm, (proj2 (String.eqb_neq _ _) Ho), bool_decide_eq_true_2 by done. done.
Qed.

Lemma load_valid a d s : load a false d = Ok s -> d = Stored s /\ valid s.
Proof. unfold load. destruct d; [done | done |]. by intros (-> & _ & _ & _ & ?)%decodeAuthorityState_ok. Qed.

(** ** The transaction, by outcome *)

Section transactions.
Context {A : Type} (a : Authority) (io : IO).
Implicit Types (fn : tx A) (d : disk).

(** A transaction either leaves the file alone, or the closure ran to its
    end on the loaded state and the file holds the state it returned. *)
Lemma transaction_cases create write fn d r d' :
  transaction a io create write fn d = (r, d') ->
  (d' = d /\ (is_ok r = true -> write = false /\
     exists s s', load a create d = Ok s /\ exists x, r = Ok x /\ fn s = Ok (x, s')))
  \/ exists s x s', load a create d = Ok s /\ fn s = Ok (x, s') /\ write = true
       /\ d' = Stored s' /\ (create = false -> OwnerHash s' <> ""%string)
       /\ (exists u, validateAuthorityMaps s = Ok u)
       /\ (r = Ok x \/ r = Err ErrStorage /\ io_persist io = FailedAfterRename).
Proof.
  unfold transaction, transaction_over. intros H.
  match type of H with match ?m with _ => _ end = _ => destruct m as [[x s'] | e] eqn:E end;
    [| injection H as <- <-; by left].
  apply bind_ok in E as (? & _ & E). apply bind_ok in E as (? & _ & E).
  apply bind_ok in E as (s & Hl & E). apply bind_ok in E as (u & Hm & E).
  destruct write; simpl in H; [| injection H as <- <-; left; eauto 10].
  destruct (negb create && _) eqn:Ho; [injection H as <- <-; by left |].
  destruct (io_encodable io s'); [| injection H as <- <-; by left].
  destruct (io_persist io) eqn:Hp; injection H as <- <-; [right | by left | right];
    exists s, x, s'; split_and!; eauto; intros ->; simpl in Ho; by apply String.eqb_neq.
Qed.
End transactions.

(** ** The migrations *)

(** What a migration from schema [v] keeps: who the authority is, its
    sessions, and every map schema [v] has. *)
Record keeps (v : Z) (s s' : state) : Prop := {
  k_binding : st_Binding s' = st_Binding s;
  k_owner : OwnerHash s' = OwnerHash s;
  k_sessions : Sessions s' = Sessions s;
  k_tasks : 2 <= v -> Tasks s' = Tasks s /\ Attempts s' = Attempts s;
  k_leases : 3 <= v -> Leases s' = Leases s /\ Operations s' = Operations s /\ Fence s' = Fence s;
  k_evidence : 4 <= v ->
    Revisions s' = Revisions s /\ Grants s' = Grants s /\ st_Evidence s' = st_Evidence s;
  k_reviews : 5 <= v -> ReviewGrants s' = ReviewGrants s /\ Reviews s' = Reviews s;
  k_publication : 6 <= v ->
    PublicationPolicies s' = PublicationPolicies s
    /\ PublicationDecisions s' = PublicationDecisions s
    /\ PublicationConsumed s' = PublicationConsumed s;
  k_swarm : 7 <= v -> st_Swarm s' = st_Swarm s;
  k_intents : 8 <= v -> st_Intents s' = st_Intents s;
  k_lifecycle : 9 <= v -> st_Lifecycle s' = st_Lifecycle s;
  k_recovery : 10 <= v -> st_Recovery s' = st_Recovery s;
  k_preflight : 11 <= v -> st_Preflight s' = st_Preflight s;
  k_checkpoint : 12 <= v -> st_Checkpoint s' = st_Checkpoint s;
  k_budget : 13 <= v -> st_Budget s' = st_Budget s;
  k_acceptance : 14 <= v -> st_Acceptance s' = st_Acceptance s;
  k_policy : 15 <= v -> st_NativePolicy s' = st_NativePolicy s;
  k_controller : 16 <= v -> st_Controller s' = st_Controller s;
  k_routing : 17 <= v -> st_Routing s' = st_Routing s;
  k_integration : 18 <= v -> st_Integration s' = st_Integration s;
  k_external : 19 <= v -> st_External s' = st_External s
}.

Tactic Notation "unfold_migrations" "in" hyp(H) :=
  unfold Upgrade, UpgradeLeases, UpgradeEvidence,
    UpgradeReviews, UpgradePublication, UpgradeSwarms, UpgradeDispatchIntents, UpgradeLifecycle,
    UpgradeRecovery, UpgradePreflight, UpgradeCheckpoints, UpgradeBudgets,
    UpgradeNativeAcceptance, UpgradeNativePolicy, UpgradeController, UpgradeNativeModelRouting,
    UpgradeNativeIntegration, UpgradeNativeExternal, UpgradeNativeRoleRegistry, from_schema in H.

(** The closure of a migration, on a state of its source schema. *)
Lemma run_migration_ok m owner s s' u :
  Version s = source m -> run_migration m owner s = Ok (u, s') ->
  not_owner s owner = false /\ Version s' = target m /\ keeps (source m) s s'.
Proof.
  intros HV H.
  destruct m; cbn [run_migration source] in *; unfold_migrations in H;
    inv_ok; (split_and!; [done | done |]); constructor; simpl; try done; intros; lia.
Qed.

(** A map group on either side of its schema. *)
Lemma group_ok_at_least s v nils : v <= Version s -> group_ok s v nils -> existsb id nils = false.
Proof. unfold group_ok. by intros ->%Z.leb_le. Qed.

Lemma group_ok_below s v nils : Version s < v -> group_ok s v nils -> existsb negb nils = false.
Proof. unfold group_ok. by intros ->%Z.leb_gt. Qed.

(** A group no migration step touches stays well formed when both schemas are
    on the same side of it. *)
Lemma group_ok_shift s s' v nils :
  (v <=? Version s') = (v <=? Version s) -> group_ok s v nils -> group_ok s' v nils.
Proof. unfold group_ok. by intros ->. Qed.

Lemma run_migration_valid m owner s s' u :
  Version s = source m -> run_migration m owner s = Ok (u, s') -> valid s -> valid s'.
Proof.
  intros HV H [Hc H19 H18 H7 H8 H9 H10 Hb H12 H17 H16 H15 H14 H13 H11].
  unfold core_maps_missing in Hc.
  destruct m; cbn [run_migration source] in *; unfold_migrations in H;
    rewrite HV in Hc; simpl in Hc; inv_ok;
    (constructor; simpl;
      [ unfold core_maps_missing; simpl; repeat (apply orb_false_iff; split); done
      | try done; unfold group_ok in *; rewrite HV in *; simpl in *; done .. ]).
Qed.

(** ** Bootstrap *)

Lemma bootstrap_ok a io e d token d' :
  bootstrap a io e d = (Ok token, d') ->
  let s := (initial_state a) <| OwnerHash := hash token |> in
  d = Absent /\ mint e 0 = Ok token /\ d' = Stored s
  /\ decodeAuthorityState s (a_binding a) (a_version a) = Ok s.
Proof.
  unfold bootstrap. intros [(-> & Hr) | (s & x & s' & Hl & Hf & _ & -> & _ & (u & Hm) & Hr)]%transaction_cases;
    [by destruct (Hr eq_refl) |].
  unfold load in Hl. destruct d; [| done | done]. injection Hl as <-.
  destruct Hr as [[= ->] | [[=] _]]. unfold Bootstrap in Hf. inv_ok.
  split_and!; [done | done | done |]. apply decodeAuthorityState_ok. simpl.
  split_and!; [done | | done | |].
  - unfold version_readable. by rewrite Z.eqb_refl.
  - intros Hh. pose proof (hash_length x) as Hlen. by rewrite Hh in Hlen.
  - apply (validateAuthorityMaps_ok _ u). split; [exact Hm |].
    unfold core_maps_missing. simpl. by rewrite !andb_false_r.
Qed.

(** ** Properties *)

(** Bootstrap creates the authority once. On a path that exists in any
    form it changes nothing and fails; when it succeeds the path was absent and
    now holds an authority of the handle's schema, with no session, that the
    same handle can read back and whose owner is the returned token. *)
Theorem Bootstrap_once a io e d r d' :
  bootstrap a io e d = (r, d') ->
  (d <> Absent -> d' = d /\ is_ok r = false)
  /\ forall token, r = Ok token -> d = Absent /\ exists s,
       d' = Stored s /\ mint e 0 = Ok token /\ OwnerHash s = hash token
       /\ (forall id, mget (Sessions s) id = None)
       /\ decodeAuthorityState s (a_binding a) (a_version a) = Ok s.
Proof.
  unfold bootstrap. intros H. split.
  - intros Hd. apply transaction_cases in H as [(-> & Hr) | (s & _ & _ & Hl & _)].
    + split; [done |]. destruct r; [| done]. by destruct (Hr eq_refl).
    + unfold load in Hl. by destruct d.
  - intros token ->. apply bootstrap_ok in H as (-> & Hm & -> & Hd). split; [done |].
    by eexists.
Qed.

(** C32: A migration either leaves the file as it was, or takes a well-formed
    authority of its source schema, presented with the owner credential, to a
    well-formed one of its target schema with the same identity, sessions and
    every map the source schema had; the result is readable at that schema. *)
Theorem migrate_preserves m a io owner d r d' :
  migrate m a io owner d = (r, d') ->
  d' = d \/ exists s s',
    d = Stored s /\ d' = Stored s' /\ not_owner s owner = false
    /\ Version s = source m /\ Version s' = target m /\ keeps (source m) s s'
    /\ decodeAuthorityState s' (st_Binding s) (target m) = Ok s'.
Proof.
  unfold migrate.
  intros [[? _] | (s & [] & s' & Hl & Hf & _ & -> & Ho & _)]%transaction_cases; [by left | right].
  pose proof Hl as [-> Hv]%load_valid. simpl in Hl.
  apply decodeAuthorityState_ok in Hl as (_ & Hr & _). simpl in Hr.
  assert (Version s = source m) as HV.
  { unfold version_readable in Hr. destruct m; simpl in *; unfold_migrations in Hf;
      inv_ok; try done; rewrite orb_false_r in Hr; by bool_facts. }
  destruct (run_migration_ok _ _ _ _ _ HV Hf) as (Hown & Ht & Hk).
  exists s, s'. split_and!; try done. apply decodeAuthorityState_ok. split_and!; auto.
  - unfold version_readable. by rewrite Ht, Z.eqb_refl.
  - apply Hk.
  - by eapply run_migration_valid.
Qed.
