(* ===== verification/Storage.v ===== *)
(** * The authority file

    [internal/governance/sessions/sessions.go]: [persist], operation by operation
    over the directory of [Files], and [transaction] over it.  Every operation may
    report an error; the deferred removal of the temporary file runs on every path.
    [json.Marshal] and [json.Unmarshal] are parameters; a deployment has no
    [persistOverride].  The lock file and what is in the directory besides are not
    touched by [persist].  [transaction_refines] says that this transaction is the
    one of [Schema], whatever fails. *)

From S2P Require Import Prelude GoStd Text Disclosure State Session Schema Files.
#[local] Open Scope Z_scope.

Definition MaxAuthorityBytes : Z := Z.shiftl 32 20.
Definition oversized (data : text) : bool := MaxAuthorityBytes <? Z.of_nat (List.length data).

(** ** [persist] *)

Inductive op :=
  | OpCreateTemp | OpWrite | OpSync | OpClose | OpLstat | OpRename | OpOpenDir | OpSyncDir | OpCloseDir | OpRemove.
#[export] Instance op_eq_dec : EqDecision op.
Proof. solve_decision. Defined.

(** What the code meets: the lock, the first look at the path, the encoding, the
    operations that fail, how much a failed write wrote, the temporary name. *)
Record Volume := mkVolume {
  vol_lock : bool;
  vol_regular : bool;
  marshal : state -> option text;
  unmarshal : text -> option state;
  faults : op -> bool;
  short : nat;
  temp : string
}.

Section persist.
Context (v : Volume) (path : string).

(** From the open temporary file [f] to the result; both [err] and [closeErr] count. *)
Definition replace_with (f : nat) (data : text) (w : world) : res unit * world :=
  let wrote := negb (faults v OpWrite) in
  let w := advance (write_to f (if wrote then data else take (short v) data)) w in
  let synced := wrote && negb (faults v OpSync) in
  let w := if wrote then advance (if synced then sync f else id) w else w in
  let w := advance id w in
  if negb synced || faults v OpClose then (Err ErrStorage, w)
  else if faults v OpLstat then (Err ErrStorage, w)
  else if faults v OpRename then (Err ErrStorage, advance id w)
  else
    let w := advance (rename (temp v) path) w in
    if faults v OpOpenDir then (Err ErrStorage, w)
    else
      let w := advance id (advance (if faults v OpSyncDir then id else sync_dir) w) in
      (if faults v OpSyncDir || faults v OpCloseDir then Err ErrStorage else Ok tt, w).

Definition persist (data : text) (w : world) : res unit * world :=
  if oversized data then (Err ErrStorage, w)
  else if faults v OpCreateTemp then (Err ErrStorage, advance id w)
  else
    let '(r, w') := replace_with (next_inode (here w)) data (advance (create_temp (temp v)) w) in
    (r, advance (if faults v OpRemove then id else remove (temp v)) w').
End persist.

(** What [readAuthority] and [decodeAuthorityState] find in the file. *)
Definition held (v : Volume) (t : option text) : disk :=
  match t with
  | None => Absent
  | Some t => if oversized t then Unreadable else match unmarshal v t with Some s => Stored s | None => Unreadable end
  end.
Definition encode (v : Volume) (s : state) : option text :=
  t ← marshal v s; if oversized t then None else Some t.

Definition transaction {A} (v : Volume) (a : Authority) (create write : bool) (fn : tx A) (w : world) : res A * world :=
  transaction_over (fun w => held v (read (here w) (a_path a))) (encode v) (persist v (a_path a))
    a (vol_lock v) (vol_regular v) create write fn w.

(** [persist] fails late once the new file has its name. *)
Definition late (v : Volume) : bool := faults v OpOpenDir || faults v OpSyncDir || faults v OpCloseDir.

(** ** [persist] from a directory at rest *)

Section run.
Context (v : Volume) (path : string) (data : text) (s0 : fs).
Hypothesis Hrest : at_rest s0.
Hypothesis Hpath : path <> temp v.

#[local] Abbreviation safe := (safe (temp v) path data 384 s0).
#[local] Abbreviation at_stage := (at_stage (temp v) path data 384 s0).

(** At stage [g], and safe at every moment so far. *)
Definition on_track (g : stage) (w : world) : Prop := at_stage g (here w) /\ Forall safe (states w).

Lemma on_track_start : on_track Old (mkWorld s0 []).
Proof.
  split; [by apply start_stage |]. by apply Forall_singleton, (stage_safe _ _ _ _ _ Hrest Old), start_stage.
Qed.

Lemma on_track_step g g' f w :
  (forall s, at_stage g s -> at_stage g' (f s)) -> on_track g w -> on_track g' (advance f w).
Proof.
  intros Hf [Hw Hs]. split; [by apply Hf |]. constructor; [| done]. by eapply stage_safe, Hf.
Qed.

Lemma on_track_id g w : on_track g w -> on_track g (advance id w).
Proof. by apply on_track_step. Qed.

(** How [replace_with] and [persist] end. *)
Definition replacing (r : res unit) (w : world) : Prop :=
  (exists x, on_track (Temp x) w /\ r = Err ErrStorage)
  \/ on_track Moved w /\ r = Err ErrStorage /\ late v = true
  \/ on_track Final w /\ (r = Ok tt \/ r = Err ErrStorage /\ late v = true).

Lemma replace_with_track w :
  on_track (Temp (mkInode [] false 384)) w ->
  let o := replace_with v path (fd s0) data w in replacing o.1 o.2.
Proof.
  intros Hw. unfold replace_with. cbv zeta.
  assert (forall d, on_track (Temp (mkInode d false 384)) (advance (write_to (fd s0) d) w)) as Hwrite.
  { intros d. eapply on_track_step, Hw. intros s Hs. by apply (write_stage _ _ _ _ _ _ d) in Hs. }
  destruct (faults v OpWrite); simpl; [left; eexists; split; [by apply on_track_id | done] |].
  specialize (Hwrite data).
  destruct (faults v OpSync); simpl; [left; eexists; split; [by do 2 apply on_track_id | done] |].
  assert (on_track (Temp (done_inode data 384)) (advance id (advance (sync (fd s0)) (advance (write_to (fd s0) data) w)))) as Hsync.
  { eapply on_track_id, on_track_step, Hwrite. intros s. apply sync_stage. }
  destruct (faults v OpClose); simpl; [left; by eexists |].
  destruct (faults v OpLstat); simpl; [left; by eexists |].
  destruct (faults v OpRename); simpl; [left; eexists; split; [by apply on_track_id | done] |].
  apply (on_track_step _ Moved (rename (temp v) path)) in Hsync; [| apply rename_stage]. unfold replacing, late.
  destruct (faults v OpOpenDir); simpl; [by right; left |].
  destruct (faults v OpSyncDir); simpl; [right; left; split_and!; [by do 2 apply on_track_id | done..] |].
  right; right. split; [| destruct (faults v OpCloseDir); auto].
  eapply on_track_id, on_track_step, Hsync. apply sync_dir_stage.
Qed.

(** How [persist] ends: before the rename nothing has changed for anyone; between
    the rename and the directory's sync the new file is there and may be lost; and
    then it stays. *)
Definition persisted (r : res unit) (w : world) : Prop :=
  (exists g, unmoved g /\ on_track g w /\ r = Err ErrStorage)
  \/ on_track Moved w /\ r = Err ErrStorage /\ late v = true
  \/ on_track Final w /\ (r = Ok tt \/ r = Err ErrStorage /\ late v = true).

Lemma persisted_safe r w : persisted r w -> Forall safe (states w).
Proof. intros [(g & _ & [] & _) | [([] & _) | ([] & _)]]; done. Qed.

Lemma persist_ends : let o := persist v path data (mkWorld s0 []) in persisted o.1 o.2.
Proof.
  cbv zeta. pose proof on_track_start as Hstart. unfold persist, persisted.
  destruct (oversized data); [left; by exists Old |].
  destruct (faults v OpCreateTemp); [left; exists Old; split_and!; [done | by apply on_track_id | done] |].
  pose proof (replace_with_track (advance (create_temp (temp v)) (mkWorld s0 []))) as H. cbv zeta in H. unfold fd in H.
  destruct (replace_with _ _ _ _ _) as [r w]. simpl in H |- *. destruct H as [(x & Hw & ->) | H].
  { eapply on_track_step, Hstart. intros s. apply create_stage. }
  - left. destruct (faults v OpRemove).
    + exists (Temp x). split_and!; [done | by apply on_track_id | done].
    + exists (Removed x). split_and!; [done | | done]. eapply on_track_step, Hw. intros s. by apply remove_stage.
  - right. assert (forall g, g = Moved \/ g = Final -> on_track g w ->
      on_track g (advance (if faults v OpRemove then id else remove (temp v)) w)) as Hrm.
    { intros g Hg. apply on_track_step. intros s Hs. destruct (faults v OpRemove); [done |]. by erewrite remove_moved. }
    destruct H as [(Hw & ?) | (Hw & ?)]; [left | right]; split; auto.
Qed.
End run.

(** ** The transaction *)

(** What a transaction may commit: the state its closure returned. *)
Definition committed {A} (a : Authority) (create : bool) (fn : tx A) (d d' : disk) : Prop :=
  exists s x s', load a create d = Ok s /\ fn s = Ok (x, s') /\ d' = Stored s'.

(** [json.Unmarshal] gives back the state that is committed. *)
Definition reads_back {A} (v : Volume) (a : Authority) (create : bool) (fn : tx A) (d : disk) : Prop :=
  forall s x s' t, load a create d = Ok s -> fn s = Ok (x, s') -> marshal v s' = Some t -> unmarshal v t = Some s'.

Lemma encode_held v s t : encode v s = Some t -> marshal v s = Some t /\ (unmarshal v t = Some s -> held v (Some t) = Stored s).
Proof.
  unfold encode, held. intros H. apply bind_Some in H as (t' & Hm & H). destruct (oversized t') eqn:E; [done |].
  injection H as ->. split; [done |]. rewrite E. by intros ->.
Qed.

Section transaction.
Context {A : Type} (v : Volume) (a : Authority) (create write : bool) (fn : tx A) (f : fs).
Hypothesis Hrest : at_rest f.
Hypothesis Hpath : a_path a <> temp v.

Let d := held v (read f (a_path a)).
Hypothesis Hback : reads_back v a create fn d.

(** Either nothing happened to the directory, or [persist] ran on the encoding of
    the state the closure returned. *)
Lemma transaction_persists r w :
  transaction v a create write fn (mkWorld f []) = (r, w) ->
  w = mkWorld f [] /\ (forall x, r = Ok x -> write = false /\ exists s s', load a create d = Ok s /\ fn s = Ok (x, s'))
  \/ exists s x s' t o, load a create d = Ok s /\ fn s = Ok (x, s') /\ write = true /\ held v (Some t) = Stored s'
     /\ persisted v (a_path a) t f o w /\ r = (match o with Ok _ => Ok x | Err e => Err e end).
Proof.
  unfold transaction, transaction_over. intros H.
  match type of H with match ?m with _ => _ end = _ => destruct m as [[x s'] | e] eqn:E end;
    [| injection H as <- <-; by left].
  apply bind_ok in E as (? & _ & E). apply bind_ok in E as (? & _ & E).
  apply bind_ok in E as (s & Hl & E). apply bind_ok in E as (u & _ & E). change (load a create d = Ok s) in Hl.
  destruct write; simpl in H; [| injection H as <- <-; left; split; [done |]; intros ? [= <-]; eauto].
  destruct (negb create && _); [injection H as <- <-; by left |].
  destruct (encode v s') as [t |] eqn:Et; [| injection H as <- <-; by left].
  apply encode_held in Et as [Hm Hh]. pose proof (persist_ends v (a_path a) t f Hrest Hpath) as Hp. cbv zeta in Hp.
  destruct (persist _ _ _ _) as [o w'] eqn:Ep. right. exists s, x, s', t, o.
  split_and!; [done | done | done | by apply Hh, (Hback s x s' t) | |]; destruct o; by injection H as <- <-.
Qed.
End transaction.

(** The transaction over the directory is the one of [Schema] over what the file
    holds, with some outcome of the replacement: what is proved of that one - that
    migrations preserve, that the authority is created once - holds of the file. *)
Theorem transaction_refines {A} v a create write (fn : tx A) f r w :
  at_rest f -> a_path a <> temp v -> reads_back v a create fn (held v (read f (a_path a))) ->
  transaction v a create write fn (mkWorld f []) = (r, w) ->
  exists o, Schema.transaction a (mkIO (vol_lock v) (vol_regular v) (fun s => bool_decide (is_Some (encode v s))) o)
              create write fn (held v (read f (a_path a)))
            = (r, held v (read (here w) (a_path a)))
  /\ (o = PersistOk \/ o = FailedBefore \/ o = FailedAfterRename /\ late v = true).
Proof.
  intros Hrest Hpath Hback H. unfold transaction, Schema.transaction, transaction_over, id in *. simpl in *.
  destruct (_ ;; _) as [[x s'] | e] eqn:E; [| injection H as <- <-; exists PersistOk; auto].
  do 2 (apply bind_ok in E as (? & _ & E)). apply bind_ok in E as (s & Hl & E). apply bind_ok in E as (u & _ & E).
  destruct write; simpl in *; [| injection H as <- <-; exists PersistOk; auto].
  destruct (negb create && _); [injection H as <- <-; exists PersistOk; auto |].
  destruct (encode v s') as [t |] eqn:Et; [| injection H as <- <-; exists PersistOk; auto].
  rewrite bool_decide_eq_true_2 by done. apply encode_held in Et as [Hm Hh]. specialize (Hh (Hback s x s' t Hl E Hm)).
  pose proof (persist_ends v (a_path a) t f Hrest Hpath) as Hp. cbv zeta in Hp.
  destruct (persist _ _ _ _) as [o w'].
  destruct Hp as [(g & Hg & [Hw _] & Hr) | [([Hw _] & Hr & Hlate) | ([Hw _] & Hr)]]; simpl in Hw, Hr.
  - subst o. injection H as <- <-. exists FailedBefore. split; [| auto]. simpl.
    by destruct (unmoved_keeps _ _ _ _ _ Hrest _ _ (a_path a) Hg Hw Hpath) as [-> _].
  - subst o. injection H as <- <-. exists FailedAfterRename. split; [| auto]. simpl. by erewrite read_new, Hh.
  - destruct Hr as [-> | [-> Hlate]]; injection H as <- <-; [exists PersistOk | exists FailedAfterRename];
      (split; [simpl; by erewrite read_new, Hh | auto]).
Qed.

(** ** Property *)

(** C29: A transaction is atomic, whatever operations of [persist] fail and wherever
    the machine stops.  At every moment of it, what a reader finds under the path,
    and what is there after a crash, is the old content or exactly the state the
    closure returned when run on the loaded, validated state, and no other file
    changes.  Success means that state for a writing transaction and the old content
    for a reading one, in a directory that every crash keeps.  An error means the
    old content, now and after every crash, unless an operation after the rename
    failed: opening, syncing or closing the directory. *)
Theorem transaction_atomic {A} v a create write (fn : tx A) f r w :
  at_rest f -> a_path a <> temp v -> reads_back v a create fn (held v (read f (a_path a))) ->
  transaction v a create write fn (mkWorld f []) = (r, w) ->
  let d := held v (read f (a_path a)) in
  (forall g after, g ∈ states w -> crash g after ->
     (forall t, t = read g (a_path a) \/ t = after !! a_path a ->
        held v t = d \/ write = true /\ committed a create fn d (held v t))
     /\ forall n, n <> a_path a -> n <> temp v -> read g n = read f n /\ after !! n = read f n)
  /\ (forall x, r = Ok x -> at_rest (here w) /\ exists s s', load a create d = Ok s /\ fn s = Ok (x, s')
       /\ forall after, crash (here w) after -> held v (after !! a_path a) = if write then Stored s' else d)
  /\ (forall e, r = Err e ->
       held v (read (here w) (a_path a)) = d /\ (forall after, crash (here w) after -> held v (after !! a_path a) = d)
       \/ e = ErrStorage /\ write = true /\ (faults v OpOpenDir || faults v OpSyncDir || faults v OpCloseDir) = true).
Proof.
  intros Hrest Hpath Hback H. cbv zeta.
  apply transaction_persists in H as [(-> & Hr) | (s & x & s' & t & o & Hl & Hf & -> & Ht & Hp & ->)]; [| | done..].
  - split_and!.
    + intros g after ->%list_elem_of_singleton Hc. split.
      * intros t [-> | ->]; left; [done |]. by rewrite (rest_crash _ _ _ Hrest Hc).
      * intros n _ _. split; [done | by apply rest_crash].
    + intros x ->. split; [done |]. destruct (Hr x eq_refl) as (-> & s & s' & Hl & Hf). exists s, s'. split_and!; [done.. |].
      intros after Hc. by rewrite (rest_crash _ _ _ Hrest Hc).
    + intros e ->. left. split; [done |]. intros after Hc. by rewrite (rest_crash _ _ _ Hrest Hc).
  - assert (committed a create fn (held v (read f (a_path a))) (held v (Some t))) as Hcm by by exists s, x, s'.
    pose proof (persisted_safe _ _ _ _ _ _ Hp) as Hsafe. split_and!.
    + intros g after Hg Hc. rewrite Forall_forall in Hsafe. specialize (Hsafe g (proj1 (list_elem_of_In _ _) Hg)). split.
      * intros t' Ht'. assert (t' = read f (a_path a) \/ t' = Some t) as [-> | ->]; [| by left | by right].
        destruct Ht' as [-> | ->]; [edestruct safe_read as [? | [_ ?]] | edestruct safe_crash as [? | [_ ?]]]; eauto.
      * intros n Hn Ht'. split; [by edestruct safe_read as [? | [? _]]; eauto | by edestruct safe_crash as [? | [? _]]; eauto].
    + intros x' Hx. destruct Hp as [(g & _ & _ & ->) | [(_ & -> & _) | ([Hw _] & [-> | [-> _]])]]; try done.
      injection Hx as ->. pose proof (final_at_rest _ _ _ _ _ Hrest _ Hw) as Hr. split; [done |]. exists s, s'.
      split_and!; [done.. |]. intros after Hc. rewrite (rest_crash _ _ _ Hr Hc). by erewrite read_new.
    + intros e He. destruct Hp as [(g & Hg & [Hw _] & ->) | [(_ & -> & Hlate) | (_ & [-> | [-> Hlate]])]]; try done;
        injection He as <-; [left | by right..].
      destruct (unmoved_keeps _ _ _ _ _ Hrest _ _ (a_path a) Hg Hw Hpath) as [-> Hcr]. split; [done |].
      intros after Hc. by rewrite (Hcr after Hc).
Qed.
