(* ===== verification/Withdrawal.v ===== *)
(** * Withdrawal of task authority

    The predicates every worker operation consults before it acts:
    [workerTaskWithdrawn] and its variant for a closing acceptance
    (lifecycle.go), [recoveryTaskWithdrawn], [historicalWorkerFamily] and
    [reservationRetained] (recovery.go), [currentLease] (leases.go),
    [lifecycleTerminal] and [lifecycleDispatchEligible] (lifecycle.go).

    The three loops that follow [Parent] from a session visit the same
    identifiers; [lineage] is the list of them. *)

From S2P Require Import Prelude GoStd Disclosure State Session.
#[local] Open Scope Z_scope.

(** ** The lineage of a session

    [for id != "" && !seen[id] { ...; seen[id] = true; r, ok := s.Sessions[id];
     if !ok { break }; id = r.Parent }]: the identifiers for which the body
    runs.  [None] is an exhausted fuel, which [lineage_go_total] excludes. *)

Fixpoint lineage_go (fuel : nat) (s : state) (seen : gset string) (id : string)
    : option (list string) :=
  match fuel with
  | O => None
  | S fuel =>
    if (id =? "")%string || bool_decide (id ∈ seen) then Some []
    else match mget (Sessions s) id with
         | None => Some [id]
         | Some r => cons id <$> lineage_go fuel s ({[ id ]} ∪ seen) (r_Parent r)
         end
  end.

Definition lineage (s : state) (id : string) : list string :=
  default [] (lineage_go (session_fuel s) s ∅ id).

Definition recoveryTaskWithdrawn (s : state) (session task : string) : bool :=
  existsb (fun id =>
    existsb (fun r => (RT_WorkerFamilyID (RRc_Target r) =? id)%string
                      && (RT_TaskID (RRc_Target r) =? task)%string) (mvals (recoveries s)))
    (lineage s session).

Definition terminal_withdraws (closing : string) (t : NativeAcceptanceRecord) : bool :=
  (closing =? "")%string || negb (NAR_OperationKey t =? closing)%string
  || negb (NAR_State t =? "closing")%string.

Definition workerTaskWithdrawnExcept (s : state) (session task closing : string) : bool :=
  if (match mget (terminals s) task with Some t => terminal_withdraws closing t | None => false end)
  then true
  else if recoveryTaskWithdrawn s session task then true
  else existsb (fun c =>
         (LB_TaskID (LC_Binding c) =? task)%string
         && existsb (fun id => (id =? LB_WorkerSessionID (LC_Binding c))%string) (lineage s session))
       (mvals (cancellations s)).

Definition workerTaskWithdrawn (s : state) (session task : string) : bool :=
  workerTaskWithdrawnExcept s session task "".

Definition reservationRetained (s : state) (d : DispatchReservation) : bool :=
  let recovered := mhas (recoveries s) ("reservation:" ++ DR_ID d) in
  negb (DR_Converted d) && negb recovered.

Fixpoint family_go (fuel : nat) (s : state) (seen : gset string) (id : string)
    : option (res string) :=
  match fuel with
  | O => None
  | S fuel =>
    if (id =? "")%string || bool_decide (id ∈ seen) then Some (Err ErrDenied)
    else match mget (Sessions s) id with
         | None => Some (Err ErrDenied)
         | Some r => if (r_Parent r =? "")%string then Some (Ok id)
                     else family_go fuel s ({[ id ]} ∪ seen) (r_Parent r)
         end
  end.

Definition historicalWorkerFamily (s : state) (id : string) : res string :=
  default (Err ErrDenied) (family_go (session_fuel s) s ∅ id).

Definition currentLeaseExcept (s : state) (l : Lease) (now : time) (closing : string) : bool :=
  negb (Lease_Released l) && (now <? Lease_ExpiresAt l)
  && negb (workerTaskWithdrawnExcept s (Lease_SessionID l) (Lease_TaskID l) closing).

Definition currentLease (s : state) (l : Lease) (now : time) : bool :=
  currentLeaseExcept s l now "".

Definition lifecycleTerminal (st : string) : bool :=
  (st =? "completed")%string || (st =? "failed")%string || (st =? "cancelled")%string.

Definition history (s : state) (dispatch : string) : list LifecycleObservation :=
  default [] (mget (observations s) dispatch).

Definition lifecycleDispatchEligible (s : state) (dispatch : string) : bool :=
  match list.last (history s dispatch) with
  | None => true
  | Some o => negb (lifecycleTerminal (LO_State o))
  end.

#[global] Arguments workerTaskWithdrawn : simpl never.
#[global] Arguments workerTaskWithdrawnExcept : simpl never.
#[global] Arguments recoveryTaskWithdrawn : simpl never.
#[global] Arguments reservationRetained : simpl never.
#[global] Arguments currentLease : simpl never.
#[global] Arguments currentLeaseExcept : simpl never.
#[global] Arguments lineage : simpl never.
#[global] Arguments lifecycleTerminal : simpl never.
#[global] Arguments historicalWorkerFamily : simpl never.

(** ** The walk terminates and visits exactly the ancestry *)

Definition session_keys (s : state) : gset string := list_to_set (mentries (Sessions s)).*1.

Lemma session_keys_size s : (size (session_keys s) < session_fuel s)%nat.
Proof.
  unfold session_keys, session_fuel, mvals. rewrite Nat.lt_succ_r, length_fmap.
  rewrite <- (length_fmap fst). apply size_list_to_set_le.
Qed.

Lemma elem_of_session_keys s id : id ∈ session_keys s <-> is_Some (mget (Sessions s) id).
Proof.
  unfold session_keys. rewrite elem_of_list_to_set, list_elem_of_fmap. split.
  - intros ([k r] & -> & H%elem_of_mentries). by eexists.
  - intros [r H%elem_of_mentries]. by exists (id, r).
Qed.

(** Recording a visited session leaves fewer to visit. *)
Lemma session_keys_visit s seen id r n :
  mget (Sessions s) id = Some r -> id ∉ seen ->
  (size (session_keys s ∖ seen) < S n)%nat ->
  (size (session_keys s ∖ ({[ id ]} ∪ seen)) < n)%nat.
Proof.
  intros Hr Hs Hf.
  assert (id ∈ session_keys s) as Hin by (apply elem_of_session_keys; by eexists).
  enough (size (session_keys s ∖ ({[ id ]} ∪ seen)) < size (session_keys s ∖ seen))%nat by lia.
  apply subset_size. set_solver.
Qed.

Lemma lineage_go_total fuel s seen id :
  (size (session_keys s ∖ seen) < fuel)%nat -> is_Some (lineage_go fuel s seen id).
Proof.
  revert seen id. induction fuel as [|fuel IH]; intros seen id Hf; simpl; [lia |].
  destruct (id =? "")%string; [by eexists |]. case_bool_decide; [by eexists |]. simpl.
  destruct (mget (Sessions s) id) as [r |] eqn:Hr; [| by eexists].
  apply fmap_is_Some, IH. by eapply session_keys_visit.
Qed.

(** [up s x y]: [y] is the parent recorded for the session [x]. *)
Definition up (s : state) (x y : string) : Prop :=
  x <> ""%string /\ exists r, mget (Sessions s) x = Some r /\ r_Parent r = y.

Lemma lineage_go_sound fuel s seen id l a :
  lineage_go fuel s seen id = Some l -> a ∈ l -> a <> ""%string /\ rtc (up s) id a.
Proof.
  revert seen id l. induction fuel as [|fuel IH]; intros seen id l; simpl; [done |].
  destruct (String.eqb_spec id "") as [-> | Hid]; simpl; [by intros [= <-] ?%elem_of_nil |].
  case_bool_decide; [by intros [= <-] ?%elem_of_nil |].
  destruct (mget (Sessions s) id) as [r |] eqn:Hr.
  - intros (l' & Hl & ->)%fmap_Some [-> | Ha]%elem_of_cons; [by split; [| apply rtc_refl] |].
    destruct (IH _ _ _ Hl Ha) as [? ?]. split; [done |].
    apply rtc_l with (r_Parent r); [split; eauto | done].
  - intros [= <-] [-> | []%elem_of_nil]%elem_of_cons. split; [done | apply rtc_refl].
Qed.

Lemma lineage_go_closed fuel s seen id l :
  lineage_go fuel s seen id = Some l ->
  (id <> ""%string -> id ∈ seen \/ id ∈ l)
  /\ forall x y, x ∈ l -> up s x y -> y <> ""%string -> y ∈ seen \/ y ∈ l.
Proof.
  revert seen id l. induction fuel as [|fuel IH]; intros seen id l; simpl; [done |].
  destruct (String.eqb_spec id "") as [-> | Hid]; simpl; [intros [= <-]; set_solver |].
  case_bool_decide as Hs; [intros [= <-]; set_solver |].
  destruct (mget (Sessions s) id) as [r |] eqn:Hr.
  - intros (l' & Hl & ->)%fmap_Some. destruct (IH _ _ _ Hl) as [H1 H2].
    split; [right; by left |].
    intros x y [-> | Hx]%elem_of_cons Hu Hy.
    + destruct Hu as (_ & r' & Hr' & <-). rewrite Hr in Hr'. injection Hr' as <-.
      specialize (H1 Hy). set_solver.
    + specialize (H2 x y Hx Hu Hy). set_solver.
  - intros [= <-]. split; [set_solver |].
    intros x y [-> | []%elem_of_nil]%elem_of_cons (_ & r' & Hr' & _). congruence.
Qed.

Lemma lineage_spec s id a : a ∈ lineage s id <-> a <> ""%string /\ rtc (up s) id a.
Proof.
  unfold lineage.
  destruct (lineage_go_total (session_fuel s) s ∅ id) as [l Hl].
  { rewrite difference_empty_L. apply session_keys_size. }
  rewrite Hl. simpl. split; [by apply (lineage_go_sound _ _ _ _ _ _ Hl) |].
  intros [Ha Hr]. destruct (lineage_go_closed _ _ _ _ _ Hl) as [H1 H2].
  assert (id <> ""%string -> id ∈ l) as Hid by set_solver.
  assert (forall x y, x ∈ l -> up s x y -> y <> ""%string -> y ∈ l) as Hc by set_solver.
  clear H1 H2 Hl. induction Hr as [x | x y z Hu _ IH]; [auto |].
  apply IH; [done |]. intros Hy. apply (Hc x y); [by apply Hid, Hu | done..].
Qed.

(** ** Withdrawal *)

Lemma recoveryTaskWithdrawn_spec s session task :
  recoveryTaskWithdrawn s session task = true <->
  exists k r, mget (recoveries s) k = Some r /\ RT_TaskID (RRc_Target r) = task
    /\ RT_WorkerFamilyID (RRc_Target r) <> ""%string
    /\ rtc (up s) session (RT_WorkerFamilyID (RRc_Target r)).
Proof.
  unfold recoveryTaskWithdrawn. rewrite existsb_elem. split.
  - intros (id & [? ?]%lineage_spec & (r & [k Hk]%elem_of_mvals & Hp)%existsb_elem).
    bool_facts. subst. eauto 10.
  - intros (k & r & Hk & <- & ? & ?). exists (RT_WorkerFamilyID (RRc_Target r)).
    split; [by apply lineage_spec |]. apply existsb_elem. exists r.
    rewrite !String.eqb_refl. split; [apply elem_of_mvals; eauto | done].
Qed.

Lemma cancelled_spec s session task :
  existsb (fun c => (LB_TaskID (LC_Binding c) =? task)%string
         && existsb (fun id => (id =? LB_WorkerSessionID (LC_Binding c))%string) (lineage s session))
       (mvals (cancellations s)) = true <->
  exists k c, mget (cancellations s) k = Some c /\ LB_TaskID (LC_Binding c) = task
    /\ LB_WorkerSessionID (LC_Binding c) <> ""%string
    /\ rtc (up s) session (LB_WorkerSessionID (LC_Binding c)).
Proof.
  rewrite existsb_elem. split.
  - intros (c & [k Hk]%elem_of_mvals & Hp). bool_facts.
    match goal with H : existsb _ _ = true |- _ => apply existsb_elem in H as (id & Hid & E) end.
    bool_facts. apply lineage_spec in Hid as [? ?]. subst. eauto 10.
  - intros (k & c & Hk & <- & ? & ?). exists c. split; [apply elem_of_mvals; eauto |].
    rewrite String.eqb_refl. apply existsb_elem. eexists. rewrite lineage_spec, String.eqb_refl.
    done.
Qed.

(** The facts that withdraw a task from a session. *)
Inductive withdrawal (s : state) (session task : string) : Prop :=
  | withdrawn_terminal t : mget (terminals s) task = Some t -> withdrawal s session task
  | withdrawn_recovery k r :
      mget (recoveries s) k = Some r -> RT_TaskID (RRc_Target r) = task ->
      RT_WorkerFamilyID (RRc_Target r) <> ""%string ->
      rtc (up s) session (RT_WorkerFamilyID (RRc_Target r)) -> withdrawal s session task
  | withdrawn_cancellation k c :
      mget (cancellations s) k = Some c -> LB_TaskID (LC_Binding c) = task ->
      LB_WorkerSessionID (LC_Binding c) <> ""%string ->
      rtc (up s) session (LB_WorkerSessionID (LC_Binding c)) -> withdrawal s session task.

Lemma workerTaskWithdrawn_true s session task :
  workerTaskWithdrawn s session task = true <-> withdrawal s session task.
Proof.
  unfold workerTaskWithdrawn, workerTaskWithdrawnExcept.
  destruct (mget (terminals s) task) as [t |] eqn:Ht; simpl.
  { split; [intros _; by eapply withdrawn_terminal | done]. }
  destruct (recoveryTaskWithdrawn s session task) eqn:Hr.
  - split; [intros _ | done].
    apply recoveryTaskWithdrawn_spec in Hr as (k & r & ? & ? & ? & ?).
    by eapply withdrawn_recovery.
  - rewrite cancelled_spec. split.
    + intros (k & c & ? & ? & ? & ?). by eapply withdrawn_cancellation.
    + intros [t' | k r ? ? ? ? | k c ? ? ? ?]; [congruence | | eauto 10].
      rewrite <- not_true_iff_false, recoveryTaskWithdrawn_spec in Hr. destruct Hr. eauto 10.
Qed.

(** Closing an acceptance only exempts its own terminal. *)
Lemma withdrawnExcept_weaken s session task closing :
  workerTaskWithdrawnExcept s session task closing = true ->
  workerTaskWithdrawn s session task = true.
Proof.
  unfold workerTaskWithdrawn, workerTaskWithdrawnExcept.
  destruct (mget (terminals s) task) as [t |]; simpl; [by intros _ | done].
Qed.

(** [withdrawal_le s s']: what withdraws a task is never taken back. *)
Record withdrawal_le (s s' : state) : Prop := {
  wle_sessions : session_le s s';
  wle_terminals k t : mget (terminals s) k = Some t -> is_Some (mget (terminals s') k);
  wle_recoveries k r : mget (recoveries s) k = Some r -> exists r',
    mget (recoveries s') k = Some r' /\ RRc_Target r' = RRc_Target r;
  wle_cancellations k c : mget (cancellations s) k = Some c -> exists c',
    mget (cancellations s') k = Some c' /\ LC_Binding c' = LC_Binding c
}.

#[export] Instance withdrawal_le_preorder : PreOrder withdrawal_le.
Proof.
  split.
  - intros s. split; [done | by eexists | eauto | eauto].
  - intros s1 s2 s3 [A1 A2 A3 A4] [B1 B2 B3 B4]. split.
    + by etrans.
    + intros k t [t' H]%A2. eauto.
    + intros k r (r' & H & E)%A3. destruct (B3 _ _ H) as (r'' & ? & ?).
      exists r''. split; congruence.
    + intros k r (r' & H & E)%A4. destruct (B4 _ _ H) as (r'' & ? & ?).
      exists r''. split; congruence.
Qed.

Lemma up_le s s' x y : session_le s s' -> rtc (up s) x y -> rtc (up s') x y.
Proof.
  intros Hle. induction 1 as [x | x y z (Hx & r & Hr & <-) _ IH]; [apply rtc_refl |].
  destruct (Hle _ _ Hr) as (r' & Hr' & _ & E & _).
  apply rtc_l with (r_Parent r); [| done]. split; eauto.
Qed.

Lemma withdrawal_mono s s' session task :
  withdrawal_le s s' -> withdrawal s session task -> withdrawal s' session task.
Proof.
  intros [Hs Ht Hr Hc] [t H | k r H ? ? ? | k c H ? ? ?].
  - destruct (Ht _ _ H). by eapply withdrawn_terminal.
  - destruct (Hr _ _ H) as (r' & ? & E). rewrite <- E in *.
    eapply withdrawn_recovery; eauto using up_le.
  - destruct (Hc _ _ H) as (c' & ? & E). rewrite <- E in *.
    eapply withdrawn_cancellation; eauto using up_le.
Qed.

(** A session below a withdrawn one is withdrawn too. *)
Lemma withdrawal_descendant s child session task :
  rtc (up s) child session -> withdrawal s session task -> withdrawal s child task.
Proof.
  intros Hup [t H | k r ? ? ? ? | k c ? ? ? ?].
  - by eapply withdrawn_terminal.
  - eapply withdrawn_recovery; [done.. |]. by etrans.
  - eapply withdrawn_cancellation; [done.. |]. by etrans.
Qed.

Lemma currentLease_true s l now :
  currentLease s l now = true <->
  Lease_Released l = false /\ now < Lease_ExpiresAt l
  /\ ~ withdrawal s (Lease_SessionID l) (Lease_TaskID l).
Proof.
  unfold currentLease, currentLeaseExcept.
  change (workerTaskWithdrawnExcept s (Lease_SessionID l) (Lease_TaskID l) "")
    with (workerTaskWithdrawn s (Lease_SessionID l) (Lease_TaskID l)).
  rewrite <- workerTaskWithdrawn_true, !andb_true_iff, !negb_true_iff, Z.ltb_lt, not_true_iff_false.
  tauto.
Qed.

Lemma reservationRetained_true s d :
  reservationRetained s d = true <->
  DR_Converted d = false /\ mget (recoveries s) ("reservation:" ++ DR_ID d)%string = None.
Proof.
  unfold reservationRetained. by rewrite andb_true_iff, !negb_true_iff, mhas_false.
Qed.

(** ** The family of a worker *)

Lemma family_go_total fuel s seen id :
  (size (session_keys s ∖ seen) < fuel)%nat -> is_Some (family_go fuel s seen id).
Proof.
  revert seen id. induction fuel as [|fuel IH]; intros seen id Hf; simpl; [lia |].
  destruct (id =? "")%string; [by eexists |]. case_bool_decide; [by eexists |]. simpl.
  destruct (mget (Sessions s) id) as [r |] eqn:Hr; [| by eexists].
  destruct (r_Parent r =? "")%string; [by eexists |].
  apply IH. by eapply session_keys_visit.
Qed.

Lemma family_go_sound fuel s seen id root :
  family_go fuel s seen id = Some (Ok root) ->
  rtc (up s) id root /\ up s root "".
Proof.
  revert seen id. induction fuel as [|fuel IH]; intros seen id; simpl; [done |].
  destruct (String.eqb_spec id ""); [done |]. simpl.
  case_bool_decide; [done |].
  destruct (mget (Sessions s) id) as [r |] eqn:Hr; [| done].
  destruct (String.eqb_spec (r_Parent r) "") as [E | Hp].
  - intros [= <-]. split; [apply rtc_refl | split; eauto].
  - intros [? ?]%IH. split; [| done]. apply rtc_l with (r_Parent r); [split; eauto | done].
Qed.

Lemma up_fun s x y z : up s x y -> up s x z -> y = z.
Proof. intros (_ & r & Hr & <-) (_ & r' & Hr' & <-). congruence. Qed.

(** A path that ends at a root repeats no session. *)
Lemma up_root_acyclic s x root :
  rtc (up s) x root -> up s root "" -> forall y, up s x y -> rtc (up s) y x -> False.
Proof.
  intros Hp Hroot. induction Hp as [x | x y z Hxy Hyz IH]; intros w Hw Hc.
  - rewrite (up_fun _ _ _ _ Hw Hroot) in Hc.
    apply rtc_inv in Hc as [E | (v & [? _] & _)]; [| done]. subst x. by destruct Hroot.
  - rewrite (up_fun _ _ _ _ Hw Hxy) in Hc.
    apply rtc_inv in Hc as [E | (v & Hv & Hc)].
    + subst y. apply (IH Hroot x); [done | apply rtc_refl].
    + apply (IH Hroot v Hv). by eapply rtc_r.
Qed.

Lemma family_go_complete fuel s seen id root :
  rtc (up s) id root -> up s root "" ->
  (forall x, x ∈ seen -> rtc (up s) id x -> False) ->
  is_Some (family_go fuel s seen id) -> family_go fuel s seen id = Some (Ok root).
Proof.
  revert seen id. induction fuel as [|fuel IH]; intros seen id Hr Hroot Hd; simpl;
    [by intros [] |].
  assert (exists y, up s id y) as (y & Hid & r & Hg & Hy).
  { apply rtc_inv in Hr as [-> | (v & ? & _)]; eauto. }
  rewrite (proj2 (String.eqb_neq _ _) Hid). simpl.
  rewrite bool_decide_eq_false_2 by (intros Hin; apply (Hd _ Hin), rtc_refl).
  rewrite Hg, Hy. destruct (String.eqb_spec y "") as [-> | Hne].
  - intros _. do 2 f_equal. apply rtc_inv in Hr as [-> | (v & Hv & Hr)]; [done |].
    assert (v = "") as -> by (apply (up_fun s id); [done | split; eauto]).
    apply rtc_inv in Hr as [<- | (v' & [? _] & _)]; [| done]. by destruct Hroot.
  - assert (up s id y) as Hu by (split; eauto).
    apply IH; [| done |].
    + apply rtc_inv in Hr as [-> | (v & Hv & Hr)].
      * destruct Hroot as (_ & r' & Hg' & ?). congruence.
      * by rewrite (up_fun _ _ _ _ Hu Hv).
    + intros x [->%elem_of_singleton | Hx]%elem_of_union Hyx.
      * by eapply (up_root_acyclic s id root).
      * apply (Hd x Hx). by eapply rtc_l.
Qed.

Lemma historicalWorkerFamily_ok s id root :
  historicalWorkerFamily s id = Ok root <-> rtc (up s) id root /\ up s root "".
Proof.
  unfold historicalWorkerFamily.
  destruct (family_go_total (session_fuel s) s ∅ id) as [x Hx].
  { rewrite difference_empty_L. apply session_keys_size. }
  split.
  - rewrite Hx. simpl. intros ->. by eapply family_go_sound.
  - intros [Hr Hroot]. rewrite (family_go_complete _ _ _ _ root); [done.. | |].
    + by intros y ?%elem_of_empty.
    + by rewrite Hx.
Qed.

Lemma family_go_err fuel s seen id e : family_go fuel s seen id = Some (Err e) -> e = ErrDenied.
Proof.
  revert seen id. induction fuel as [|fuel IH]; intros seen id; simpl; [done |].
  repeat case_match; naive_solver.
Qed.

(** ** Properties *)

(** a task is withdrawn from a session exactly when the task has an
    acceptance terminal, or a recovery receipt names the task and a worker
    family at or above the session, or a cancellation names the task and a
    worker at or above the session; the walk terminates on cyclic data. *)
Theorem workerTaskWithdrawn_spec s session task :
  workerTaskWithdrawn s session task = true <-> withdrawal s session task.
Proof. apply workerTaskWithdrawn_true. Qed.

(** Withdrawal is permanent and inherited: in any later state no session
    at or below a withdrawn one holds the task, and no lease of such a session on it is
    current at any time. *)
Theorem withdrawal_permanent s s' session child task l :
  workerTaskWithdrawn s session task = true -> withdrawal_le s s' ->
  rtc (up s') child session -> Lease_SessionID l = child -> Lease_TaskID l = task ->
  workerTaskWithdrawn s' child task = true /\ forall now, currentLease s' l now = false.
Proof.
  intros Hw%workerTaskWithdrawn_true Hle Hup <- <-.
  pose proof (withdrawal_descendant _ _ _ _ Hup (withdrawal_mono _ _ _ _ Hle Hw)) as Hd.
  split; [by apply workerTaskWithdrawn_true |].
  intros now. apply not_true_iff_false. rewrite currentLease_true. tauto.
Qed.

(** the worker family of a session is the parentless session at the top of
    its recorded lineage; a missing or cyclic lineage has none, and the search
    always ends. *)
Theorem historicalWorkerFamily_spec s id :
  (forall root, historicalWorkerFamily s id = Ok root <-> rtc (up s) id root /\ up s root "")
  /\ (forall e, historicalWorkerFamily s id = Err e -> e = ErrDenied).
Proof.
  split; [intros root; apply historicalWorkerFamily_ok |].
  unfold historicalWorkerFamily. intros e.
  destruct (family_go_total (session_fuel s) s ∅ id) as [x Hx].
  { rewrite difference_empty_L. apply session_keys_size. }
  rewrite Hx. simpl. intros ->. by eapply family_go_err.
Qed.
