(* ===== verification/Resources.v ===== *)
(** * Lease resources

    [canonicalResources], [prefix] and [overlaps] of
    [internal/governance/sessions/leases.go]: which resources a lease may name,
    the normal form they are stored in, and when two leases conflict. *)

From S2P Require Import Prelude GoStd Disclosure State.
#[local] Open Scope Z_scope.

(** The comparison of [sort.Slice]. *)
Definition resource_le (x y : Resource) : Prop :=
  if decide (Resource_Kind x = Resource_Kind y)
  then String.le (Resource_Path x) (Resource_Path y)
  else String.le (Resource_Kind x) (Resource_Kind y).

#[export] Instance resource_le_dec : RelDecision resource_le.
Proof. intros x y. unfold resource_le. case_decide; apply _. Defined.

#[export] Instance resource_le_trans : Transitive resource_le.
Proof.
  intros x y z. unfold resource_le.
  destruct (decide (Resource_Kind x = Resource_Kind y)) as [E1 | E1],
    (decide (Resource_Kind y = Resource_Kind z)) as [E2 | E2],
    (decide (Resource_Kind x = Resource_Kind z)) as [E3 | E3]; try congruence.
  all: intros H1 H2; first [by etrans | idtac].
  exfalso. apply E1. apply (anti_symm String.le); [done | by rewrite E3].
Qed.

#[export] Instance resource_le_total : Total resource_le.
Proof.
  intros x y. unfold resource_le.
  destruct (decide (Resource_Kind x = Resource_Kind y)) as [E | E],
    (decide (Resource_Kind y = Resource_Kind x)); try congruence; apply (total String.le).
Qed.

#[export] Instance resource_le_antisymm : AntiSymm (=) resource_le.
Proof.
  intros x y. unfold resource_le.
  destruct (decide (Resource_Kind x = Resource_Kind y)) as [E | E],
    (decide (Resource_Kind y = Resource_Kind x)); try congruence; intros H1 H2.
  - destruct x, y; simpl in *; subst. f_equal. by apply (anti_symm String.le).
  - destruct E. by apply (anti_symm String.le).
Qed.

Definition path_rune (r : option Z) : bool :=
  match r with
  | Some c => ((97 <=? c) && (c <=? 122)) || ((48 <=? c) && (c <=? 57))
              || (c =? 45) || (c =? 95) || (c =? 46)
  | None => false
  end.

Definition segment_ok (seg : string) : bool :=
  negb ((seg =? ".")%string || (seg =? "..")%string || (seg =? ".git")%string || (seg =? "")%string)
  && forallb path_rune (runes seg).

(** The loop over the segments with the growing path [p]. *)
Fixpoint no_symlinks (e : Env) (p : string) (segs : list string) : bool :=
  match segs with
  | [] => true
  | seg :: segs' =>
    let p := PathJoin p seg in
    match lstat e p with
    | LstatNotExist => no_symlinks e p segs'
    | LstatError | LstatSymlink => false
    | LstatDir | LstatOther => no_symlinks e p segs'
    end
  end.

(** The [switch] on [r.Kind]. *)
Definition check_resource (e : Env) (root task : string) (r : Resource) : bool :=
  let p := Resource_Path r in
  if (Resource_Kind r =? "task")%string then (p =? task)%string
  else if (Resource_Kind r =? "checkout")%string then (p =? "")%string
  else if (Resource_Kind r =? "path")%string then
    negb ((p =? "")%string || IsAbs p || negb (ToLower p =? p)%string || negb (Clean p =? p)%string)
    && forallb segment_ok (Split slash p)
    && no_symlinks e root (Split slash p)
  else false.

Definition canonicalResources (e : Env) (root task : string) (input : list Resource)
    : res (list Resource) :=
  deny_if (negb (bool_decide (eval_symlinks e root = Some root)));;
  deny_if (match lstat e root with LstatDir => false | _ => true end);;
  deny_if (negb (forallb (check_resource e root task) input));;
  deny_if (bool_decide (input = []));;
  Ok (sort_dedup resource_le (mkResource "task" task :: input)).

Definition prefix (a b : string) : bool :=
  (a =? b)%string || HasPrefix a (b ++ "/") || HasPrefix b (a ++ "/").

Definition resource_conflict (same_repository : bool) (x y : Resource) : bool :=
  ((Resource_Kind x =? "task")%string && (Resource_Kind y =? "task")%string
   && (Resource_Path x =? Resource_Path y)%string)
  || (same_repository && (Resource_Kind x =? "path")%string && (Resource_Kind y =? "path")%string
      && prefix (Resource_Path x) (Resource_Path y))
  || (same_repository
      && ((Resource_Kind x =? "checkout")%string || (Resource_Kind y =? "checkout")%string)).

Definition overlaps (a b : Lease) : bool :=
  if (Lease_Checkout a =? Lease_Checkout b)%string then true
  else existsb (fun x => existsb (fun y =>
         resource_conflict (Lease_Repository a =? Lease_Repository b)%string x y)
         (Lease_Resources b)) (Lease_Resources a).

#[global] Arguments overlaps : simpl never.
#[global] Arguments prefix : simpl never.
#[global] Arguments canonicalResources : simpl never.
#[global] Arguments check_resource : simpl never.

(** ** Paths as lists of segments *)

Lemma HasPrefix_spec s p : HasPrefix s p = true <-> exists r, s = (p ++ r)%string.
Proof.
  unfold HasPrefix. revert s. induction p as [|c p IH]; intros s.
  { destruct s; simpl; split; eauto. }
  destruct s as [|d s]; simpl; [by split; [| intros []] |].
  destruct (ascii_dec c d) as [-> | Hcd].
  - rewrite IH. split; intros [r Hr]; exists r; [by rewrite Hr | by injection Hr].
  - split; [done |]. intros [r Hr]. by injection Hr.
Qed.

Lemma Split_not_nil sep s : Split sep s <> [].
Proof. destruct s as [|c s]; simpl; [done |]. repeat case_match; done. Qed.

Lemma Split_app_sep sep a b :
  Split sep (a ++ String sep b)%string = Split sep a ++ Split sep b.
Proof.
  induction a as [|c a IH]; simpl; [by rewrite Ascii.eqb_refl |].
  destruct (Ascii.eqb c sep); [by rewrite IH |].
  rewrite IH. pose proof (Split_not_nil sep a). by destruct (Split sep a).
Qed.

(** [Split] loses nothing: the segments determine the string. *)
Fixpoint glue (sep : ascii) (l : list string) : string :=
  match l with
  | [] => ""
  | [w] => w
  | w :: ws => w ++ String sep (glue sep ws)
  end.

Lemma glue_Split sep s : glue sep (Split sep s) = s.
Proof.
  induction s as [|c s IH]; [done |]. simpl.
  pose proof (Split_not_nil sep s). destruct (Ascii.eqb_spec c sep) as [-> | Hc].
  - destruct (Split sep s); [done |]. simpl in *. by rewrite IH.
  - destruct (Split sep s) as [|w [|w' ws]]; [done | simpl in *; by subst |].
    simpl in *. by rewrite <- IH.
Qed.

Lemma glue_app sep a b : a <> [] -> b <> [] ->
  glue sep (a ++ b) = (glue sep a ++ String sep (glue sep b))%string.
Proof.
  induction a as [|w a IH]; [done |]. intros _ Hb. destruct a as [|w' a].
  - simpl. by destruct b.
  - change (glue sep ((w :: w' :: a) ++ b)) with (w ++ String sep (glue sep ((w' :: a) ++ b)))%string.
    rewrite IH by done.
    change (glue sep (w :: w' :: a)) with (w ++ String sep (glue sep (w' :: a)))%string.
    by rewrite string_app_assoc.
Qed.

Lemma Split_inj sep a b : Split sep a = Split sep b -> a = b.
Proof. intros E. by rewrite <- (glue_Split sep a), E, glue_Split. Qed.

(** A string is below another, seen as paths, when its segments extend the
    other's. *)
Lemma below_segments a b :
  a = b \/ HasPrefix a (b ++ "/") = true <-> Split slash b `prefix_of` Split slash a.
Proof.
  rewrite HasPrefix_spec. split.
  - intros [-> | [r ->]]; [done |]. rewrite string_app_assoc. simpl.
    exists (Split slash r). apply (Split_app_sep slash).
  - intros [k Hk]. destruct (decide (k = [])) as [-> | Hne].
    + left. rewrite app_nil_r in Hk. by apply (Split_inj slash).
    + right. exists (glue slash k).
      rewrite <- (glue_Split slash a), Hk, glue_app; [| apply Split_not_nil | done].
      rewrite glue_Split. by rewrite string_app_assoc.
Qed.

Lemma prefix_sym a b : prefix a b = prefix b a.
Proof.
  unfold prefix. rewrite (String.eqb_sym b a).
  destruct (a =? b)%string, (HasPrefix a (b ++ "/")), (HasPrefix b (a ++ "/")); done.
Qed.

Lemma resource_conflict_sym same x y : resource_conflict same x y = resource_conflict same y x.
Proof.
  unfold resource_conflict.
  rewrite (String.eqb_sym (Resource_Path y)), (prefix_sym (Resource_Path y)).
  destruct same, (Resource_Kind x =? "task")%string, (Resource_Kind y =? "task")%string,
    (Resource_Kind x =? "path")%string, (Resource_Kind y =? "path")%string,
    (Resource_Kind x =? "checkout")%string, (Resource_Kind y =? "checkout")%string; done.
Qed.

Lemma resource_conflict_true (p q : string) x y :
  resource_conflict (p =? q)%string x y = true <->
  (Resource_Kind x = "task"%string /\ Resource_Kind y = "task"%string
   /\ Resource_Path x = Resource_Path y)
  \/ (p = q /\
      ((Resource_Kind x = "path"%string /\ Resource_Kind y = "path"%string
        /\ prefix (Resource_Path x) (Resource_Path y) = true)
       \/ Resource_Kind x = "checkout"%string \/ Resource_Kind y = "checkout"%string)).
Proof.
  unfold resource_conflict. rewrite !orb_true_iff, !andb_true_iff, orb_true_iff, !String.eqb_eq.
  tauto.
Qed.

Lemma overlaps_true a b :
  overlaps a b = true <->
  Lease_Checkout a = Lease_Checkout b \/
  exists x y, x ∈ Lease_Resources a /\ y ∈ Lease_Resources b
    /\ resource_conflict (Lease_Repository a =? Lease_Repository b)%string x y = true.
Proof.
  unfold overlaps. destruct (String.eqb_spec (Lease_Checkout a) (Lease_Checkout b)) as [-> | Hn].
  { split; [by left | done]. }
  rewrite existsb_elem. setoid_rewrite existsb_elem. split.
  - intros (x & Hx & y & Hy & E). right. eauto.
  - intros [E | (x & y & Hx & Hy & E)]; [done |]. eauto.
Qed.

Lemma overlaps_flip a b : overlaps a b = true -> overlaps b a = true.
Proof.
  rewrite !overlaps_true, (String.eqb_sym (Lease_Repository b)).
  intros [E | (x & y & Hx & Hy & E)]; [by left |]. right.
  exists y, x. by rewrite resource_conflict_sym.
Qed.

Lemma overlaps_comm a b : overlaps a b = overlaps b a.
Proof. apply eq_iff_eq_true. split; apply overlaps_flip. Qed.

(** Overlap only reads what a renewal or a release leaves alone. *)
Lemma overlaps_same a a' b :
  Lease_Checkout a' = Lease_Checkout a -> Lease_Repository a' = Lease_Repository a ->
  Lease_Resources a' = Lease_Resources a -> overlaps a' b = overlaps a b.
Proof. unfold overlaps. by intros -> -> ->. Qed.

Lemma canonicalResources_ok e root task input out :
  canonicalResources e root task input = Ok out ->
  eval_symlinks e root = Some root /\ lstat e root = LstatDir
  /\ (forall r, r ∈ input -> check_resource e root task r = true)
  /\ input <> [] /\ out = sort_dedup resource_le (mkResource "task" task :: input).
Proof.
  unfold canonicalResources. intros H. inv_ok. rewrite forallb_elem in *.
  split_and!; try done. by case_match.
Qed.

Lemma canonicalResources_intro e root task input :
  eval_symlinks e root = Some root -> lstat e root = LstatDir ->
  (forall r, r ∈ input -> check_resource e root task r = true) -> input <> [] ->
  canonicalResources e root task input
  = Ok (sort_dedup resource_le (mkResource "task" task :: input)).
Proof.
  intros He Hl Hc Hn. unfold canonicalResources.
  rewrite (bool_decide_eq_true_2 _ He), Hl. simpl.
  rewrite (proj2 (forallb_elem _ _) Hc). simpl.
  by rewrite (bool_decide_eq_false_2 _ Hn).
Qed.

(** ** Properties *)

(** [prefix] compares whole path segments: it holds exactly when the
    segments of one path are an initial part of the segments of the other. *)
Theorem prefix_spec a b :
  prefix a b = true <->
  Split slash b `prefix_of` Split slash a \/ Split slash a `prefix_of` Split slash b.
Proof.
  unfold prefix. rewrite !orb_true_iff, String.eqb_eq, <- !below_segments.
  assert (a = b <-> b = a) by (split; congruence). tauto.
Qed.

(** conflict between leases is symmetric and is exactly: the same checkout,
    or the same task, or in one repository two paths of which one contains the
    other, or in one repository a resource that is a whole checkout. *)
Theorem overlaps_spec a b :
  overlaps a b = overlaps b a /\
  (overlaps a b = true <->
     Lease_Checkout a = Lease_Checkout b \/
     exists x y, x ∈ Lease_Resources a /\ y ∈ Lease_Resources b /\
       ((Resource_Kind x = "task"%string /\ Resource_Kind y = "task"%string
         /\ Resource_Path x = Resource_Path y)
        \/ (Lease_Repository a = Lease_Repository b /\
            ((Resource_Kind x = "path"%string /\ Resource_Kind y = "path"%string
              /\ prefix (Resource_Path x) (Resource_Path y) = true)
             \/ Resource_Kind x = "checkout"%string \/ Resource_Kind y = "checkout"%string)))).
Proof.
  split; [apply overlaps_comm |]. rewrite overlaps_true.
  by setoid_rewrite resource_conflict_true.
Qed.

(** the canonical form of a resource list is a strictly sorted list of the
    requested resources and the task itself; it only depends on the set
    requested, is its own canonical form, and every path in it is relative,
    lower case, free of dot segments and of ".git". *)
Theorem canonicalResources_spec e root task input out :
  canonicalResources e root task input = Ok out ->
  StronglySorted (fun x y => resource_le x y /\ x <> y) out
  /\ (forall r, r ∈ out <-> r = mkResource "task" task \/ r ∈ input)
  /\ canonicalResources e root task out = Ok out
  /\ (forall input', (forall r, r ∈ input' <-> r ∈ input) ->
        canonicalResources e root task input' = Ok out)
  /\ (forall r, r ∈ out -> Resource_Kind r = "path"%string ->
        IsAbs (Resource_Path r) = false /\ ToLower (Resource_Path r) = Resource_Path r
        /\ forall seg, seg ∈ Split slash (Resource_Path r) ->
             seg ∉ [""; "."; ".."; ".git"]%string).
Proof.
  intros (He & Hl & Hc & Hn & ->)%canonicalResources_ok.
  assert (forall r, r ∈ sort_dedup resource_le (mkResource "task" task :: input)
            <-> r = mkResource "task" task \/ r ∈ input) as Hin.
  { intros r. by rewrite elem_of_sort_dedup, elem_of_cons. }
  assert (check_resource e root task (mkResource "task" task) = true) as Ht
    by apply String.eqb_refl.
  split_and!.
  - apply sort_dedup_strict; apply _.
  - done.
  - rewrite canonicalResources_intro; [| done | done | |].
    + f_equal. apply sort_dedup_ext; [apply _.. |].
      intros r. rewrite elem_of_cons, Hin. rewrite elem_of_cons. naive_solver.
    + intros r [-> | Hr]%Hin; auto.
    + intros E. assert (mkResource "task" task ∈ @nil Resource) as Hbad; [| by apply elem_of_nil in Hbad].
      rewrite <- E. apply Hin. by left.
  - intros input' Hset. rewrite canonicalResources_intro; [| done | done | |].
    + f_equal. apply sort_dedup_ext; [apply _.. |]. intros r. by rewrite !elem_of_cons, Hset.
    + intros r Hr%Hset. auto.
    + intros ->. destruct input as [|r input]; [done |].
      assert (r ∈ @nil Resource) as Hbad by (apply Hset; by left). by apply elem_of_nil in Hbad.
  - intros r [-> | Hr]%Hin Hk; [done |].
    specialize (Hc r Hr). unfold check_resource in Hc. rewrite Hk in Hc. simpl in Hc.
    bool_facts. split_and!; [done.. |]. intros seg Hseg.
    rewrite forallb_elem in *.
    match goal with H : forall x, x ∈ Split _ _ -> _ |- _ => specialize (H seg Hseg) end.
    unfold segment_ok in *. bool_facts. set_solver.
Qed.
