(* ===== verification/Attempts.v ===== *)
(** * Task bindings and work attempts

    [internal/governance/sessions/attempts.go]: [OwnerTaskBinding], [BindTask]
    and [RegisterAttempt].  [Upgrade] is with the other migrations (Schema).

    [RegisterAttempt] runs two transactions with the observation of the
    checkout in between; the two states it is given are the ones the two
    transactions load, and nothing relates them. *)

From S2P Require Import Prelude GoStd Disclosure State Session Withdrawal.
#[local] Open Scope Z_scope.

Definition OwnerTaskBinding (owner taskID : string) (s : state) : res TaskBinding :=
  deny_if (not_owner s owner);;
  must (mget (Tasks s) taskID).

Definition BindTask (owner : string) (b : TaskBinding) : tx unit := fun s =>
  deny_if (negb (validID (TB_TaskID b)) || negb (validID (TB_ProjectID b))
           || negb (IsAbs (TB_Repository b)));;
  deny_if (not_owner s owner);;
  deny_if (match mget (Tasks s) (TB_TaskID b) with
           | Some old => negb (TB_ProjectID old =? TB_ProjectID b)%string
                         || negb (TB_Repository old =? TB_Repository b)%string
           | None => false
           end);;
  fail_if ErrStorage (is_nil (Tasks s));;
  m ← mset (Tasks s) (TB_TaskID b) b;
  Ok (tt, s <| Tasks := m |>).

(** The checks both transactions of [RegisterAttempt] make. *)
Definition attempt_guard (s : state) (token sessionID : string) (req : AttemptRequest) (t : time)
    : res TaskBinding :=
  r ← authenticate s token sessionID t;
  deny_if (workerTaskWithdrawn s sessionID (AR_TaskID req));;
  deny_if (negb (subset ["attempt.register"%string] (r_Actions r))
           || negb (subset ["task:" ++ AR_TaskID req]%string (r_Resources r)));;
  b ← must (mget (Tasks s) (AR_TaskID req));
  deny_if (negb (TB_AdmissionEnabled b));;
  Ok b.

(** [old.Observation] differs from [obs] in locator, commit or tree. *)
Definition observation_differs (old obs : CheckoutObservation) : bool :=
  negb (Locator old =? Locator obs)%string || negb (Commit old =? Commit obs)%string
  || negb (Tree old =? Tree obs)%string.

(** The second transaction. *)
Definition record_attempt (e : Env) (token sessionID : string) (req : AttemptRequest)
    (obs : CheckoutObservation) : tx Attempt := fun s =>
  b ← attempt_guard s token sessionID req (now e 1);
  deny_if (negb (TB_Repository b =? Repository obs)%string);;
  fail_if ErrStorage (is_nil (Attempts s));;
  match mget (Attempts s) (AR_RequestID req) with
  | Some old =>
    deny_if (negb (Attempt_SessionID old =? sessionID)%string
             || negb (bool_decide (Attempt_Request old = req))
             || observation_differs (Attempt_Observation old) obs);;
    Ok (old, s)
  | None =>
    id ← mint e 0;
    let result := mkAttempt id sessionID req (TB_ProjectID b) obs (now e 2) in
    m ← mset (Attempts s) (AR_RequestID req) result;
    Ok (result, s <| Attempts := m |>)
  end.

Definition RegisterAttempt (e : Env) (token sessionID : string) (req : AttemptRequest)
    (first second : state) : res (Attempt * state) :=
  deny_if (negb (validID (AR_RequestID req)) || negb (validID (AR_TaskID req))
           || (256 <? len (AR_HostLabel req)));;
  attempt_guard first token sessionID req (now e 0);;
  obs ← must (observe e 0 (AR_Checkout req));
  record_attempt e token sessionID req obs second.

#[global] Arguments observation_differs : simpl never.

(** ** Lemmas *)

(** Attempts and task identities are never rewritten. *)
Definition attempt_le (s s' : state) : Prop :=
  (forall k a, mget (Attempts s) k = Some a -> mget (Attempts s') k = Some a)
  /\ (forall k b, mget (Tasks s) k = Some b -> exists b', mget (Tasks s') k = Some b'
        /\ TB_ProjectID b' = TB_ProjectID b /\ TB_Repository b' = TB_Repository b).

#[export] Instance attempt_le_preorder : PreOrder attempt_le.
Proof.
  split.
  - intros s. split; eauto.
  - intros s1 s2 s3 [A1 T1] [A2 T2]. split; [eauto |].
    intros k b (b' & H & E1 & E2)%T1. destruct (T2 _ _ H) as (b'' & ? & ? & ?).
    exists b''. split_and!; congruence.
Qed.

Lemma BindTask_ok owner b s x s' :
  BindTask owner b s = Ok (x, s') ->
  not_owner s owner = false /\ validID (TB_TaskID b) = true /\ validID (TB_ProjectID b) = true
  /\ IsAbs (TB_Repository b) = true
  /\ (forall old, mget (Tasks s) (TB_TaskID b) = Some old ->
        TB_ProjectID old = TB_ProjectID b /\ TB_Repository old = TB_Repository b)
  /\ exists m, mset (Tasks s) (TB_TaskID b) b = Ok m /\ s' = s <| Tasks := m |>.
Proof.
  unfold BindTask. intros H. inv_ok. simplify_eq. split_and!; try done; [| by eexists; split; [eassumption |]].
  intros old E.
  match goal with H : match _ with _ => _ end = false |- _ => rewrite E in H end.
  by bool_facts.
Qed.

Lemma BindTask_le owner b s x s' : BindTask owner b s = Ok (x, s') -> attempt_le s s'.
Proof.
  intros (_ & _ & _ & _ & Ho & m & Hm & ->)%BindTask_ok. split; [done |].
  intros k old Hk. simpl. rewrite (mget_mset _ _ _ _ _ Hm). case_decide as E.
  - subst k. destruct (Ho _ Hk). exists b. done.
  - exists old. done.
Qed.

Lemma attempt_guard_ok s token sid req t b :
  attempt_guard s token sid req t = Ok b ->
  exists r, authenticate s token sid t = Ok r
  /\ workerTaskWithdrawn s sid (AR_TaskID req) = false
  /\ "attempt.register"%string ∈ r_Actions r
  /\ ("task:" ++ AR_TaskID req)%string ∈ r_Resources r
  /\ mget (Tasks s) (AR_TaskID req) = Some b /\ TB_AdmissionEnabled b = true.
Proof.
  unfold attempt_guard. intros H. inv_ok. rewrite !subset_one in *. subst. eauto 10.
Qed.

Lemma record_attempt_ok e token sid req obs s a s' :
  record_attempt e token sid req obs s = Ok (a, s') ->
  exists b, attempt_guard s token sid req (now e 1) = Ok b /\ TB_Repository b = Repository obs
  /\ ((mget (Attempts s) (AR_RequestID req) = Some a /\ s' = s
       /\ Attempt_SessionID a = sid /\ Attempt_Request a = req
       /\ observation_differs (Attempt_Observation a) obs = false)
      \/ (mget (Attempts s) (AR_RequestID req) = None
          /\ exists m, mset (Attempts s) (AR_RequestID req) a = Ok m
             /\ s' = s <| Attempts := m |>
             /\ mint e 0 = Ok (Attempt_ID a)
             /\ a = mkAttempt (Attempt_ID a) sid req (TB_ProjectID b) obs (now e 2))).
Proof.
  unfold record_attempt. intros H.
  apply bind_ok in H as (b & Hb & H). exists b. split; [done |].
  apply bind_ok in H as (? & Hd%deny_if_ok & H). bool_facts. split; [done |].
  apply bind_ok in H as (? & ? & H).
  destruct (mget (Attempts s) (AR_RequestID req)) as [old |] eqn:E.
  - left. inv_ok. by simplify_eq.
  - right. inv_ok. simplify_eq. split; [done |]. eauto 10.
Qed.

Lemma record_attempt_le e token sid req obs s a s' :
  record_attempt e token sid req obs s = Ok (a, s') -> attempt_le s s'.
Proof.
  intros (b & _ & _ & [(_ & -> & _) | (Hn & m & Hm & -> & _)])%record_attempt_ok; [done |].
  split; [| simpl; eauto]. intros k q Hk. simpl.
  by rewrite (mget_mset_ne _ _ _ _ _ Hm) by congruence.
Qed.

Lemma RegisterAttempt_ok e token sid req s1 s2 a s' :
  RegisterAttempt e token sid req s1 s2 = Ok (a, s') ->
  validID (AR_RequestID req) = true /\ validID (AR_TaskID req) = true
  /\ len (AR_HostLabel req) <= 256
  /\ is_Some (mget (Tasks s1) (AR_TaskID req))
  /\ exists obs, observe e 0 (AR_Checkout req) = Some obs
     /\ record_attempt e token sid req obs s2 = Ok (a, s').
Proof.
  unfold RegisterAttempt. intros H.
  apply bind_ok in H as (? & Hv%deny_if_ok & H). bool_facts.
  apply bind_ok in H as (b & Hb & H). apply bind_ok in H as (obs & Ho & H).
  apply must_ok in Ho. apply attempt_guard_ok in Hb as (r & _ & _ & _ & _ & Hb & _).
  split_and!; [done.. | by eexists | by eauto].
Qed.

(** ** Properties *)

(** registering an attempt succeeds only when, at the moment it is
    persisted, the session authenticates, holds the action and the task, the
    task is bound with admission enabled to the very repository just observed
    and is not withdrawn from the session; and it rewrites nothing: every
    attempt already recorded stays as it is, and a request identifier used
    before yields the old attempt only for the same session, request and
    checkout content. *)
Theorem RegisterAttempt_spec e token sid req s1 s2 a s' :
  RegisterAttempt e token sid req s1 s2 = Ok (a, s') ->
  (exists r b, authenticate s2 token sid (now e 1) = Ok r
     /\ "attempt.register"%string ∈ r_Actions r
     /\ ("task:" ++ AR_TaskID req)%string ∈ r_Resources r
     /\ mget (Tasks s2) (AR_TaskID req) = Some b /\ TB_AdmissionEnabled b = true
     /\ workerTaskWithdrawn s2 sid (AR_TaskID req) = false
     /\ exists obs, observe e 0 (AR_Checkout req) = Some obs
        /\ TB_Repository b = Repository obs
        /\ observation_differs (Attempt_Observation a) obs = false)
  /\ Attempt_SessionID a = sid /\ Attempt_Request a = req
  /\ mget (Attempts s') (AR_RequestID req) = Some a
  /\ attempt_le s2 s'
  /\ (forall k, k <> AR_RequestID req -> mget (Attempts s') k = mget (Attempts s2) k).
Proof.
  intros (_ & _ & _ & _ & obs & Ho & H)%RegisterAttempt_ok.
  pose proof (record_attempt_le _ _ _ _ _ _ _ _ H) as Hle.
  apply record_attempt_ok in H as (b & Hb & Hrep & Hcase).
  apply attempt_guard_ok in Hb as (r & ? & ? & ? & ? & ? & ?).
  destruct Hcase as [(Hg & -> & ? & ? & ?) | (Hn & m & Hm & -> & _ & Ha)].
  - split_and!; try done. exists r, b. eauto 10.
  - rewrite Ha in *. simpl in *. split_and!; try done.
    + exists r, b. split_and!; try done. exists obs. split_and!; [done.. |].
      unfold observation_differs. by rewrite !String.eqb_refl.
    + by eapply mget_mset_eq.
    + intros k Hk. by rewrite (mget_mset_ne _ _ _ _ _ Hm).
Qed.
