(* ===== verification/Leases.v ===== *)
(** * Leases

    [internal/governance/sessions/leases.go]: [AcquireLease], [RenewLease],
    [ReleaseLease] with [attemptFor], [leaseAuth], [retry],
    [checkLeaseCheckout] and [changeLease].  [UpgradeLeases] is with the other
    migrations (Schema). *)

From S2P Require Import Prelude GoStd Disclosure State Session Withdrawal Resources Attempts.
#[local] Open Scope Z_scope.

Record AcquireLeaseRequest := mkAcquire {
  AL_OperationKey : string; AL_AttemptID : string; AL_Resources : list Resource;
  AL_ExpiresAt : time
}.
#[export] Instance AcquireLeaseRequest_settable : Settable AcquireLeaseRequest := fun r =>
  mkAcquire (AL_OperationKey r) (AL_AttemptID r) (AL_Resources r) (AL_ExpiresAt r).
Record RenewLeaseRequest := mkRenew {
  RL_OperationKey : string; RL_AttemptID : string; RL_LeaseID : string;
  RL_ExpectedFence : Z;
  RL_ExpiresAt : time
}.
Record ReleaseLeaseRequest := mkRelease {
  RLS_OperationKey : string; RLS_AttemptID : string; RLS_LeaseID : string;
  RLS_ExpectedFence : Z
}.

#[export] Instance Resource_json : ToJSON Resource := fun r =>
  JObject [("Kind", JString (Resource_Kind r)); ("Path", JString (Resource_Path r))]%string.
#[export] Instance AcquireLeaseRequest_json : ToJSON AcquireLeaseRequest := fun r =>
  JObject [("OperationKey", JString (AL_OperationKey r)); ("AttemptID", JString (AL_AttemptID r));
           ("Resources", JArray (map to_json (AL_Resources r)));
           ("ExpiresAt", JTime (AL_ExpiresAt r))]%string.
#[export] Instance RenewLeaseRequest_json : ToJSON RenewLeaseRequest := fun r =>
  JObject [("OperationKey", JString (RL_OperationKey r)); ("AttemptID", JString (RL_AttemptID r));
           ("LeaseID", JString (RL_LeaseID r)); ("ExpectedFence", JInt (RL_ExpectedFence r));
           ("ExpiresAt", JTime (RL_ExpiresAt r))]%string.
#[export] Instance ReleaseLeaseRequest_json : ToJSON ReleaseLeaseRequest := fun r =>
  JObject [("OperationKey", JString (RLS_OperationKey r)); ("AttemptID", JString (RLS_AttemptID r));
           ("LeaseID", JString (RLS_LeaseID r)); ("ExpectedFence", JInt (RLS_ExpectedFence r))]%string.

(** The loop over the map returns the attempt with this identifier and
    session; identifiers are minted, so at most one matches. *)
Definition attemptFor (s : state) (id session : string) : res Attempt :=
  must (List.find (fun a => (Attempt_ID a =? id)%string && (Attempt_SessionID a =? session)%string)
          (mvals (Attempts s))).

Definition task_resource (task : string) : string := ("task:" ++ task)%string.

Definition leaseAuth (s : state) (token session attemptID action : string) (t : time)
    : res (record * Attempt) :=
  r ← authenticate s token session t;
  at_ ← attemptFor s attemptID session;
  deny_if (workerTaskWithdrawn s session (at_task at_));;
  deny_if (negb (subset [action] (r_Actions r))
           || negb (subset [task_resource (at_task at_)] (r_Resources r)));;
  Ok (r, at_).

(** [retry]: [None] when the key is new; otherwise the receipt or the refusal. *)
Definition retry (s : state) (key digest : string) : option (res Lease) :=
  match mget (Operations s) key with
  | Some op => Some (if negb (op_Digest op =? digest)%string then Err ErrDenied
                     else Ok (op_Receipt op))
  | None => None
  end.

Definition checkLeaseCheckout (e : Env) (a : Attempt) : res unit :=
  let at_obs := Attempt_Observation a in
  obs ← must (observe_identity e (Locator at_obs));
  deny_if (negb (Locator obs =? Locator at_obs)%string
           || negb (Repository obs =? Repository at_obs)%string).

Definition resource_name (x : Resource) : string := (Resource_Kind x ++ ":" ++ Resource_Path x)%string.

(** Some resource other than the task is outside the session's scope. *)
Definition out_of_scope (r : record) (resources : list Resource) : bool :=
  existsb (fun x => negb (Resource_Kind x =? "task")%string
                    && negb (subset [resource_name x] (r_Resources r))) resources.

(** The two loops over the leases and the dispatch reservations. *)
Definition conflicts (s : state) (l : Lease) : bool :=
  existsb (fun old => negb (Lease_Released old) && overlaps l old) (mvals (Leases s))
  || existsb (fun d => reservationRetained s d && overlaps l (DR_Reservation d))
       (mvals (dispatches s)).

Definition AcquireLease (e : Env) (token session : string)
    (req : AcquireLeaseRequest) : tx Lease := fun s =>
  let t := now e 0 in
  '(r, at_) ← leaseAuth s token session (AL_AttemptID req) "lease.acquire" t;
  deny_if (negb (validID (AL_OperationKey req)));;
  resources ← canonicalResources e (Locator (Attempt_Observation at_)) (at_task at_) (AL_Resources req);
  let req := req <| AL_Resources := resources |> in
  deny_if (out_of_scope r resources);;
  let digest := identity "acquire" session req in
  match retry s (AL_OperationKey req) digest with
  | Some old => l ← old; Ok (l, s)
  | None =>
    admission ← must (admit_lease e);
    deny_if (negb (t <? AL_ExpiresAt req) || (r_ExpiresAt r <? AL_ExpiresAt req));;
    deny_if (negb (admission (Binding_Workspace (st_Binding s)) (Attempt_ProjectID at_) (at_task at_)));;
    checkLeaseCheckout e at_;;
    let t := now e 1 in
    authenticate s token session t;;
    deny_if (negb (t <? AL_ExpiresAt req));;
    let result := mkLease "" (Attempt_ID at_) session (at_task at_)
      (Repository (Attempt_Observation at_)) (Locator (Attempt_Observation at_))
      resources 0 (AL_ExpiresAt req) false in
    deny_if (conflicts s result);;
    deny_if (Fence s =? max_uint64);;
    id ← mint e 0;
    let fence := incr_u64 (Fence s) in
    let result := result <| Lease_ID := id |> <| Lease_Fence := fence |> in
    leases ← mset (Leases s) id result;
    ops ← mset (Operations s) (AL_OperationKey req)
            ((new_operation digest) <| op_Receipt := result |>);
    Ok (result, s <| Fence := fence |> <| Leases := leases |> <| Operations := ops |>)
  end.

(** [changeLease]; [expires] is [None] for a release. *)
Definition changeLease (e : Env) (token session key attempt id : string) (fence : Z)
    (expires : time) (release : bool) (digest : string) : tx Lease := fun s =>
  let action := (if release then "lease.release" else "lease.renew")%string in
  '(r, at_) ← leaseAuth s token session attempt action (now e 0);
  deny_if (negb (validID key));;
  old ← must (mget (Leases s) id);
  deny_if (negb (Lease_SessionID old =? session)%string || negb (Lease_AttemptID old =? attempt)%string
           || negb (Lease_Fence old =? fence));;
  match retry s key digest with
  | Some receipt => l ← receipt; Ok (l, s)
  | None =>
    checkLeaseCheckout e at_;;
    let t := now e 1 in
    leaseAuth s token session attempt action t;;
    deny_if (negb (currentLease s old t));;
    old ← (if release then Ok (old <| Lease_Released := true |>)
           else deny_if (negb (t <? expires) || (r_ExpiresAt r <? expires));;
                Ok (old <| Lease_ExpiresAt := expires |>));
    leases ← mset (Leases s) id old;
    ops ← mset (Operations s) key ((new_operation digest) <| op_Receipt := old |>);
    Ok (old, s <| Leases := leases |> <| Operations := ops |>)
  end.

Definition RenewLease (e : Env) (token session : string) (req : RenewLeaseRequest) : tx Lease :=
  changeLease e token session (RL_OperationKey req) (RL_AttemptID req) (RL_LeaseID req)
    (RL_ExpectedFence req) (RL_ExpiresAt req) false (identity "renew" session req).

Definition ReleaseLease (e : Env) (token session : string) (req : ReleaseLeaseRequest) : tx Lease :=
  changeLease e token session (RLS_OperationKey req) (RLS_AttemptID req) (RLS_LeaseID req)
    (RLS_ExpectedFence req) 0 true (identity "release" session req).

#[global] Arguments conflicts : simpl never.
#[global] Arguments out_of_scope : simpl never.
#[global] Arguments attemptFor : simpl never.
#[global] Arguments leaseAuth : simpl never.
#[global] Arguments retry : simpl never.
#[global] Arguments checkLeaseCheckout : simpl never.
#[global] Arguments task_resource : simpl never.
#[global] Arguments resource_name : simpl never.
#[global] Arguments incr_u64 : simpl never.
#[global] Arguments new_operation : simpl never.

(** ** What a successful run went through *)

Lemma find_elem {A} (p : A -> bool) l x : List.find p l = Some x -> x ∈ l /\ p x = true.
Proof. intros H%List.find_some. by rewrite list_elem_of_In. Qed.

Lemma attemptFor_ok s id session a :
  attemptFor s id session = Ok a ->
  (exists k, mget (Attempts s) k = Some a) /\ Attempt_ID a = id /\ Attempt_SessionID a = session.
Proof.
  unfold attemptFor. intros (H%elem_of_mvals & ?)%must_ok%find_elem. by bool_facts.
Qed.

Lemma leaseAuth_ok s token session attemptID action t r a :
  leaseAuth s token session attemptID action t = Ok (r, a) ->
  authenticate s token session t = Ok r /\ attemptFor s attemptID session = Ok a
  /\ workerTaskWithdrawn s session (at_task a) = false
  /\ action ∈ r_Actions r /\ task_resource (at_task a) ∈ r_Resources r.
Proof.
  unfold leaseAuth. intros H. inv_ok. simplify_eq. by rewrite !subset_one in *.
Qed.

Lemma retry_none s key digest : retry s key digest = None <-> mget (Operations s) key = None.
Proof. unfold retry. by destruct (mget (Operations s) key). Qed.

Lemma retry_ok s key digest l :
  retry s key digest = Some (Ok l) <->
  exists op, mget (Operations s) key = Some op /\ op_Digest op = digest /\ op_Receipt op = l.
Proof.
  unfold retry. destruct (mget (Operations s) key) as [op |]; [| naive_solver].
  destruct (String.eqb_spec (op_Digest op) digest); simpl; naive_solver.
Qed.

Lemma checkLeaseCheckout_ok e a u :
  checkLeaseCheckout e a = Ok u ->
  exists obs, observe_identity e (Locator (Attempt_Observation a)) = Some obs
    /\ Locator obs = Locator (Attempt_Observation a)
    /\ Repository obs = Repository (Attempt_Observation a).
Proof. unfold checkLeaseCheckout. intros H. inv_ok. eauto. Qed.

Lemma conflicts_false s l :
  conflicts s l = false <->
  (forall k old, mget (Leases s) k = Some old -> Lease_Released old = false -> overlaps l old = false)
  /\ (forall k d, mget (dispatches s) k = Some d -> reservationRetained s d = true ->
        overlaps l (DR_Reservation d) = false).
Proof.
  unfold conflicts. rewrite orb_false_iff, !existsb_not_elem. split.
  - intros [H1 H2]. split.
    + intros k old Hk Hr. specialize (H1 old ltac:(apply elem_of_mvals; eauto)).
      by rewrite Hr in H1.
    + intros k d Hk Hr. specialize (H2 d ltac:(apply elem_of_mvals; eauto)).
      by rewrite Hr in H2.
  - intros [H1 H2]. split.
    + intros old [k Hk]%elem_of_mvals. destruct (Lease_Released old) eqn:E; simpl; eauto.
    + intros d [k Hk]%elem_of_mvals. destruct (reservationRetained s d) eqn:E; simpl; eauto.
Qed.

Lemma out_of_scope_false r resources :
  out_of_scope r resources = false <->
  forall x, x ∈ resources -> Resource_Kind x <> "task"%string -> resource_name x ∈ r_Resources r.
Proof.
  unfold out_of_scope. rewrite existsb_not_elem. split.
  - intros H x Hx Hk. specialize (H x Hx). rewrite (proj2 (String.eqb_neq _ _) Hk) in H.
    simpl in H. bool_facts. by rewrite subset_one in *.
  - intros H x Hx. destruct (String.eqb_spec (Resource_Kind x) "task"); [done |].
    simpl. by rewrite (proj2 (subset_one _ _) (H x Hx n)).
Qed.

(** A lease granted by [AcquireLease] under a new key. *)
Record acquired (e : Env) (session : string) (req : AcquireLeaseRequest)
    (resources : list Resource) (r : record) (a : Attempt) (s : state) (l : Lease) (s' : state)
    : Prop := {
  acq_new : mget (Operations s) (AL_OperationKey req) = None;
  acq_admitted : exists admission, admit_lease e = Some admission
    /\ admission (Binding_Workspace (st_Binding s)) (Attempt_ProjectID a) (at_task a) = true;
  acq_expiry : now e 0 < AL_ExpiresAt req /\ now e 1 < AL_ExpiresAt req
    /\ AL_ExpiresAt req <= r_ExpiresAt r;
  acq_free : conflicts s l = false;
  acq_fence : Fence s <> max_uint64 /\ Lease_Fence l = incr_u64 (Fence s);
  acq_minted : mint e 0 = Ok (Lease_ID l);
  acq_lease : l = mkLease (Lease_ID l) (Attempt_ID a) session (at_task a)
    (Repository (Attempt_Observation a)) (Locator (Attempt_Observation a)) resources
    (Lease_Fence l) (AL_ExpiresAt req) false;
  acq_state : exists leases ops,
    mset (Leases s) (Lease_ID l) l = Ok leases
    /\ mset (Operations s) (AL_OperationKey req)
         ((new_operation (identity "acquire" session (req <| AL_Resources := resources |>)))
            <| op_Receipt := l |>) = Ok ops
    /\ s' = s <| Fence := Lease_Fence l |> <| Leases := leases |> <| Operations := ops |>
}.

Lemma AcquireLease_ok e token session req s l s' :
  AcquireLease e token session req s = Ok (l, s') ->
  exists r a resources,
    leaseAuth s token session (AL_AttemptID req) "lease.acquire" (now e 0) = Ok (r, a)
    /\ validID (AL_OperationKey req) = true
    /\ canonicalResources e (Locator (Attempt_Observation a)) (at_task a) (AL_Resources req)
       = Ok resources
    /\ out_of_scope r resources = false
    /\ ((retry s (AL_OperationKey req)
           (identity "acquire" session (req <| AL_Resources := resources |>)) = Some (Ok l)
         /\ s' = s)
        \/ ((exists r', authenticate s token session (now e 1) = Ok r')
            /\ (exists u, checkLeaseCheckout e a = Ok u)
            /\ acquired e session req resources r a s l s')).
Proof.
  unfold AcquireLease. intros H.
  apply bind_ok in H as ([r a] & Hauth & H). apply bind_ok in H as (? & Hk%deny_if_ok & H).
  apply bind_ok in H as (resources & Hres & H). apply bind_ok in H as (? & Hsc%deny_if_ok & H).
  exists r, a, resources. bool_facts. split_and!; try done.
  match type of H with (match ?x with _ => _ end) = _ => destruct x as [old |] eqn:Hretry end.
  - left. inv_ok. by simplify_eq.
  - right. apply retry_none in Hretry. simpl in *. inv_ok. simplify_eq.
    split; [by eexists |]. split; [by eexists |].
    constructor; simpl; eauto 10.
Qed.

(** A lease renewed or released by [changeLease] under a new key. *)
Record changed (e : Env) (key id : string) (expires : time) (release : bool)
    (digest : string) (r : record) (old : Lease) (s : state) (l : Lease) (s' : state) : Prop := {
  chg_new : mget (Operations s) key = None;
  chg_current : currentLease s old (now e 1) = true;
  chg_expiry : release = false -> now e 1 < expires /\ expires <= r_ExpiresAt r;
  chg_lease : l = if release then old <| Lease_Released := true |>
                  else old <| Lease_ExpiresAt := expires |>;
  chg_state : exists leases ops,
    mset (Leases s) id l = Ok leases
    /\ mset (Operations s) key ((new_operation digest) <| op_Receipt := l |>) = Ok ops
    /\ s' = s <| Leases := leases |> <| Operations := ops |>
}.

Definition change_action (release : bool) : string :=
  if release then "lease.release" else "lease.renew".

Lemma changeLease_ok e token session key attempt id fence expires release digest s l s' :
  changeLease e token session key attempt id fence expires release digest s = Ok (l, s') ->
  exists r a old,
    leaseAuth s token session attempt (change_action release) (now e 0) = Ok (r, a)
    /\ validID key = true /\ mget (Leases s) id = Some old
    /\ Lease_SessionID old = session /\ Lease_AttemptID old = attempt /\ Lease_Fence old = fence
    /\ ((retry s key digest = Some (Ok l) /\ s' = s)
        \/ ((exists x, leaseAuth s token session attempt (change_action release) (now e 1) = Ok x)
            /\ (exists u, checkLeaseCheckout e a = Ok u)
            /\ changed e key id expires release digest r old s l s')).
Proof.
  unfold changeLease. intros H.
  apply bind_ok in H as ([r a] & Hauth & H). apply bind_ok in H as (? & Hk%deny_if_ok & H).
  apply bind_ok in H as (old & Ho%must_ok & H). apply bind_ok in H as (? & Hc%deny_if_ok & H).
  exists r, a, old. bool_facts. split_and!; try done.
  destruct (retry s key digest) as [receipt |] eqn:Hretry.
  - left. inv_ok. by simplify_eq.
  - right. apply retry_none in Hretry.
    apply bind_ok in H as (? & Hcc & H). apply bind_ok in H as (? & Ha & H).
    apply bind_ok in H as (? & Hcur%deny_if_ok & H). apply bind_ok in H as (new & Hnew & H).
    bool_facts. split; [by eexists |]. split; [by eexists |].
    assert (l = new /\ exists leases ops, mset (Leases s) id l = Ok leases
      /\ mset (Operations s) key ((new_operation digest) <| op_Receipt := l |>) = Ok ops
      /\ s' = s <| Leases := leases |> <| Operations := ops |>) as [-> Hst].
    { inv_ok. simplify_eq. eauto 10. }
    destruct release; inv_ok; constructor; done.
Qed.

(** ** The lease table *)

(** Fences are unique, positive and bounded by the global fence; distinct
    unreleased leases, and an unreleased lease and a retained reservation, do
    not conflict. *)
Record lease_inv (s : state) : Prop := {
  inv_global : 0 <= Fence s <= max_uint64;
  inv_key k l : mget (Leases s) k = Some l -> Lease_ID l = k /\ 0 < Lease_Fence l <= Fence s;
  inv_unique k1 k2 l1 l2 :
    mget (Leases s) k1 = Some l1 -> mget (Leases s) k2 = Some l2 ->
    Lease_Fence l1 = Lease_Fence l2 -> k1 = k2;
  inv_exclusive k1 k2 l1 l2 :
    mget (Leases s) k1 = Some l1 -> mget (Leases s) k2 = Some l2 -> k1 <> k2 ->
    Lease_Released l1 = false -> Lease_Released l2 = false -> overlaps l1 l2 = false;
  inv_reserved k l kd d :
    mget (Leases s) k = Some l -> Lease_Released l = false ->
    mget (dispatches s) kd = Some d -> reservationRetained s d = true ->
    overlaps l (DR_Reservation d) = false
}.

(** What a lease keeps for ever: everything but its expiry and its release. *)
Definition same_lease (l l' : Lease) : Prop :=
  Lease_ID l' = Lease_ID l /\ Lease_AttemptID l' = Lease_AttemptID l
  /\ Lease_SessionID l' = Lease_SessionID l /\ Lease_TaskID l' = Lease_TaskID l
  /\ Lease_Repository l' = Lease_Repository l /\ Lease_Checkout l' = Lease_Checkout l
  /\ Lease_Resources l' = Lease_Resources l /\ Lease_Fence l' = Lease_Fence l.

#[export] Instance same_lease_preorder : PreOrder same_lease.
Proof.
  split.
  - intros l. repeat split.
  - unfold same_lease. intros l1 l2 l3 H1 H2. destruct_and?. split_and!; congruence.
Qed.

Lemma same_lease_overlaps l l' k : same_lease l l' -> overlaps l' k = overlaps l k.
Proof. unfold same_lease. intros H. destruct_and?. by apply overlaps_same. Qed.

(** An operation that creates no lease and frees no reservation keeps the
    table consistent. *)
Lemma lease_inv_shrink s s' :
  lease_inv s -> Fence s <= Fence s' <= max_uint64 ->
  (forall k l', mget (Leases s') k = Some l' -> exists l, mget (Leases s) k = Some l
     /\ same_lease l l' /\ (Lease_Released l' = false -> Lease_Released l = false)) ->
  (forall k d', mget (dispatches s') k = Some d' -> reservationRetained s' d' = true ->
     exists d, mget (dispatches s) k = Some d /\ reservationRetained s d = true
       /\ DR_Reservation d' = DR_Reservation d) ->
  lease_inv s'.
Proof.
  intros [Hg Hk Hu He Hr] Hf Hl Hd. split.
  - lia.
  - intros k l' (l & Hm & Hs & _)%Hl. destruct (Hk _ _ Hm) as [? ?].
    unfold same_lease in Hs. destruct_and?. split; [congruence | lia].
  - intros k1 k2 l1' l2' (l1 & H1 & S1 & _)%Hl (l2 & H2 & S2 & _)%Hl E.
    unfold same_lease in S1, S2. destruct_and?. apply (Hu k1 k2 l1 l2); [done.. | congruence].
  - intros k1 k2 l1' l2' (l1 & H1 & S1 & R1)%Hl (l2 & H2 & S2 & R2)%Hl Hne N1 N2.
    rewrite (same_lease_overlaps _ _ _ S1), overlaps_comm, (same_lease_overlaps _ _ _ S2), overlaps_comm.
    eauto.
  - intros k l' kd d' (l & H1 & S1 & R1)%Hl N1 Hd' Hrt.
    destruct (Hd _ _ Hd' Hrt) as (d & ? & ? & ->).
    rewrite (same_lease_overlaps _ _ _ S1). eauto.
Qed.

Lemma lease_inv_same s s' :
  Leases s' = Leases s -> Fence s' = Fence s -> dispatches s' = dispatches s ->
  recoveries s' = recoveries s -> lease_inv s -> lease_inv s'.
Proof.
  intros El Ef Ed Er Hinv. apply (lease_inv_shrink s); [done | | |].
  - rewrite Ef. destruct Hinv. lia.
  - intros k l. rewrite El. intros H. exists l. done.
  - intros k d. rewrite Ed. unfold reservationRetained. rewrite Er. eauto.
Qed.

(** Leases are never dropped or re-fenced, and a released one never changes
    again. *)
Definition lease_le (s s' : state) : Prop :=
  Fence s <= Fence s' /\
  forall k l, mget (Leases s) k = Some l -> exists l', mget (Leases s') k = Some l'
    /\ same_lease l l' /\ (Lease_Released l = true -> l' = l).

#[export] Instance lease_le_preorder : PreOrder lease_le.
Proof.
  split.
  - intros s. split; [lia |]. intros k l H. by exists l.
  - intros s1 s2 s3 [F1 L1] [F2 L2]. split; [lia |].
    intros k l (l2 & H2 & S2 & R2)%L1. destruct (L2 _ _ H2) as (l3 & H3 & S3 & R3).
    exists l3. split_and!; [done | by etrans |].
    intros Hr. specialize (R2 Hr). subst l2. auto.
Qed.

Lemma lease_le_same s s' : Leases s' = Leases s -> Fence s' = Fence s -> lease_le s s'.
Proof. intros El Ef. split; [lia |]. intros k l H. exists l. by rewrite El. Qed.

(** [mint] names no lease yet. *)
Definition fresh_lease (e : Env) (s : state) : Prop :=
  forall id, mint e 0 = Ok id -> mget (Leases s) id = None.

Lemma acquired_fence e session req resources r a s l s' :
  0 <= Fence s <= max_uint64 -> acquired e session req resources r a s l s' ->
  Lease_Fence l = Fence s + 1 /\ Fence s' = Fence s + 1 /\ Fence s < max_uint64.
Proof.
  intros Hg [_ _ _ _ [Hne Hf] _ _ (leases & ops & _ & _ & ->)]. simpl.
  rewrite incr_u64_small in Hf by lia. lia.
Qed.

Lemma acquired_inv e session req resources r a s l s' :
  fresh_lease e s -> lease_inv s -> acquired e session req resources r a s l s' -> lease_inv s'.
Proof.
  intros Hf Hinv Hacq. destruct (acquired_fence _ _ _ _ _ _ _ _ _ (inv_global _ Hinv) Hacq)
    as (Hlf & Hsf & Hlt).
  destruct Hinv as [Hg Hk Hu He Hr].
  destruct Hacq as [_ _ _ Hfree _ Hmint Hl (leases & ops & Hm & _ & ->)].
  apply conflicts_false in Hfree as [Hfl Hfd]. pose proof (Hf _ Hmint) as Hn.
  assert (forall k q, mget leases k = Some q ->
    (k = Lease_ID l /\ q = l) \/ (k <> Lease_ID l /\ mget (Leases s) k = Some q)) as Hget.
  { intros k q. rewrite (mget_mset _ _ _ _ _ Hm). case_decide; naive_solver. }
  split; simpl in *.
  - lia.
  - intros k q [[-> ->] | [_ Hq]]%Hget.
    + split; [done | lia].
    + destruct (Hk _ _ Hq). split; [done | lia].
  - intros k1 k2 l1 l2 [[-> ->] | [? H1]]%Hget [[-> ->] | [? H2]]%Hget E; [done | | |].
    + destruct (Hk _ _ H2). lia.
    + destruct (Hk _ _ H1). lia.
    + by eapply Hu.
  - intros k1 k2 l1 l2 [[-> ->] | [? H1]]%Hget [[-> ->] | [? H2]]%Hget Hne R1 R2; [done | | |].
    + eauto.
    + rewrite overlaps_comm. eauto.
    + eauto.
  - intros k q kd d [[-> ->] | [? H1]]%Hget R1 Hd Hrt; [by eapply Hfd | by eapply Hr].
Qed.

Lemma AcquireLease_inv e token session req s l s' :
  fresh_lease e s -> lease_inv s -> AcquireLease e token session req s = Ok (l, s') -> lease_inv s'.
Proof.
  intros Hf Hinv (r & a & res & _ & _ & _ & _ & [[_ ->] | (_ & _ & Hacq)])%AcquireLease_ok; [done |].
  by eapply acquired_inv.
Qed.

Lemma AcquireLease_le e token session req s l s' :
  fresh_lease e s -> lease_inv s -> AcquireLease e token session req s = Ok (l, s') -> lease_le s s'.
Proof.
  intros Hf Hinv (r & a & res & _ & _ & _ & _ & [[_ ->] | (_ & _ & Hacq)])%AcquireLease_ok; [done |].
  destruct (acquired_fence _ _ _ _ _ _ _ _ _ (inv_global _ Hinv) Hacq) as (_ & Hsf & _).
  split; [lia |]. intros k q Hk. exists q. split; [| done].
  destruct Hacq as [_ _ _ _ _ Hmint _ (leases & ops & Hm & _ & ->)]. simpl.
  rewrite (mget_mset_ne _ _ _ _ _ Hm); [done |]. intros <-. by rewrite (Hf _ Hmint) in Hk.
Qed.

Lemma changed_same e key id expires release digest r old s l s' :
  changed e key id expires release digest r old s l s' ->
  same_lease old l /\ Lease_Released old = false.
Proof.
  intros [_ (? & _)%currentLease_true _ -> _]. split; [| done]. by destruct release.
Qed.

Lemma changeLease_inv_le e token session key attempt id fence expires release digest s l s' :
  lease_inv s ->
  changeLease e token session key attempt id fence expires release digest s = Ok (l, s') ->
  lease_inv s' /\ lease_le s s'.
Proof.
  intros Hinv (r & a & old & _ & _ & Ho & _ & _ & _ & [[_ ->] | (_ & _ & Hc)])%changeLease_ok;
    [by split |].
  destruct (changed_same _ _ _ _ _ _ _ _ _ _ _ Hc) as [Hs Hrel].
  destruct Hc as [_ _ _ _ (leases & ops & Hm & _ & ->)].
  split.
  - apply (lease_inv_shrink s); simpl; [done | destruct Hinv; lia | | eauto].
    intros k q. rewrite (mget_mset _ _ _ _ _ Hm). case_decide as E.
    + intros [= <-]. subst k. exists old. done.
    + intros Hq. exists q. done.
  - split; simpl; [lia |]. intros k q Hk. rewrite (mget_mset _ _ _ _ _ Hm). case_decide as E.
    + subst k. rewrite Ho in Hk. injection Hk as <-. exists l. split_and!; [done.. |].
      intros. congruence.
    + exists q. done.
Qed.

Lemma canonicalResources_task e root task input out x :
  canonicalResources e root task input = Ok out -> x ∈ out ->
  Resource_Kind x = "task"%string -> x = mkResource "task" task.
Proof.
  intros (_ & _ & Hc & _ & ->)%canonicalResources_ok Hx%elem_of_sort_dedup Hk.
  apply elem_of_cons in Hx as [-> | Hx]; [done |].
  specialize (Hc x Hx). unfold check_resource in Hc. rewrite Hk in Hc. simpl in Hc.
  bool_facts. destruct x. simpl in *. by subst.
Qed.

(** Every success leaves a receipt under the request's canonical digest. *)
Lemma AcquireLease_receipt e token session req s l s' :
  AcquireLease e token session req s = Ok (l, s') ->
  exists a op, attemptFor s' (AL_AttemptID req) session = Ok a
  /\ mget (Operations s') (AL_OperationKey req) = Some op
  /\ op_Digest op = identity "acquire" session
       (req <| AL_Resources := sort_dedup resource_le
                 (mkResource "task" (at_task a) :: AL_Resources req) |>)
  /\ op_Receipt op = l.
Proof.
  intros (r & a & res & (_ & Ha & _)%leaseAuth_ok & _ & Hres & _ & H)%AcquireLease_ok.
  apply canonicalResources_ok in Hres as (_ & _ & _ & _ & ->). exists a.
  destruct H as [[(op & ? & ? & ?)%retry_ok ->] | (_ & _ & [_ _ _ _ _ _ _ (ls & ops & _ & Ho & ->)])].
  - exists op. done.
  - eexists. split; [exact Ha |]. split; [by eapply mget_mset_eq | done].
Qed.

(** ** Properties *)

(** C27: a lease granted under a new operation key was authenticated before and
    after admission, lies within the session's scope and lifetime, conflicts
    with no unreleased lease and no retained reservation, carries a fence above
    every fence issued before - the counter does not wrap - and is stored with
    its receipt; every other lease is untouched. *)
Theorem AcquireLease_grant e token session req s l s' :
  lease_inv s -> fresh_lease e s ->
  mget (Operations s) (AL_OperationKey req) = None ->
  AcquireLease e token session req s = Ok (l, s') ->
  (exists r r', authenticate s token session (now e 0) = Ok r
     /\ authenticate s token session (now e 1) = Ok r'
     /\ "lease.acquire"%string ∈ r_Actions r
     /\ (forall x, x ∈ Lease_Resources l -> resource_name x ∈ r_Resources r)
     /\ now e 0 < Lease_ExpiresAt l /\ now e 1 < Lease_ExpiresAt l
     /\ Lease_ExpiresAt l <= r_ExpiresAt r)
  /\ workerTaskWithdrawn s session (Lease_TaskID l) = false
  /\ mkResource "task" (Lease_TaskID l) ∈ Lease_Resources l
  /\ (forall k old, mget (Leases s) k = Some old -> Lease_Released old = false -> overlaps l old = false)
  /\ (forall k d, mget (dispatches s) k = Some d -> reservationRetained s d = true ->
        overlaps l (DR_Reservation d) = false)
  /\ (forall k old, mget (Leases s) k = Some old -> Lease_Fence old < Lease_Fence l)
  /\ Lease_Fence l = Fence s + 1 /\ Fence s' = Fence s + 1 /\ Fence s' <= max_uint64
  /\ mget (Leases s') (Lease_ID l) = Some l /\ Lease_Released l = false
  /\ (exists op, mget (Operations s') (AL_OperationKey req) = Some op /\ op_Receipt op = l)
  /\ (forall k, k <> Lease_ID l -> mget (Leases s') k = mget (Leases s) k).
Proof.
  intros Hinv Hf Hnew (r & a & res & Hauth & _ & Hres & Hsc &
    [[(op & Hop & _)%retry_ok _] | ([r' Hr'] & _ & Hacq)])%AcquireLease_ok; [congruence |].
  apply leaseAuth_ok in Hauth as (Hr & _ & Hw & Hact & Htask).
  destruct (acquired_fence _ _ _ _ _ _ _ _ _ (inv_global _ Hinv) Hacq) as (Hlf & Hsf & Hlt).
  rewrite out_of_scope_false in Hsc.
  destruct Hacq as [_ _ (He0 & He1 & He2) [Hfl Hfd]%conflicts_false _ _ Hl (leases & ops & Hm & Ho & ->)].
  assert (Lease_Resources l = res) as Elr by by rewrite Hl.
  assert (Lease_ExpiresAt l = AL_ExpiresAt req) as Ele by by rewrite Hl.
  assert (Lease_TaskID l = at_task a) as Elt by by rewrite Hl.
  assert (Lease_Released l = false) as Erl by by rewrite Hl.
  rewrite Elr, Ele, Elt. split_and!; try done.
  - exists r, r'. split_and!; try done. intros x Hx.
    destruct (decide (Resource_Kind x = "task"%string)) as [E |]; [| by apply Hsc].
    apply (canonicalResources_task _ _ _ _ _ _ Hres Hx) in E as ->. done.
  - apply canonicalResources_ok in Hres as (_ & _ & _ & _ & ->).
    rewrite elem_of_sort_dedup. by left.
  - intros k old Hk. destruct (inv_key _ Hinv _ _ Hk). lia.
  - simpl in *. lia.
  - simpl. by eapply mget_mset_eq.
  - simpl. eexists. split; [by eapply mget_mset_eq | done].
  - intros k Hk. simpl. by apply (mget_mset_ne _ _ _ _ _ Hm).
Qed.

(** acquiring a lease is idempotent: repeating a successful request, at any
    later time and whatever the environment answers by then, is either refused
    or returns the same lease and leaves the authority unchanged. *)
Theorem AcquireLease_idempotent e e' token session req s l s' l2 s2 :
  AcquireLease e token session req s = Ok (l, s') ->
  AcquireLease e' token session req s' = Ok (l2, s2) ->
  l2 = l /\ s2 = s'.
Proof.
  intros H1 H2. destruct (AcquireLease_receipt _ _ _ _ _ _ _ H1) as (a & op & Ha & Hop & Hd & Hr).
  apply AcquireLease_ok in H2 as (r2 & a2 & res2 & (_ & Ha2 & _)%leaseAuth_ok & _ & Hres2 & _ & H2).
  rewrite Ha in Ha2. injection Ha2 as <-.
  apply canonicalResources_ok in Hres2 as (_ & _ & _ & _ & ->).
  destruct H2 as [[(op' & Hop' & _ & <-)%retry_ok ->] | (_ & _ & [Hn _ _ _ _ _ _ _])].
  - rewrite Hop in Hop'. injection Hop' as <-. done.
  - congruence.
Qed.

(** a renewal or release is fenced: it succeeds only for the session,
    attempt and exact fence of the stored lease; under a new operation key the
    lease must also be unreleased, unexpired and not withdrawn at that moment,
    the result differs from it only in its expiry or release, and no other
    lease changes. *)
Theorem changeLease_fenced e token session key attempt id fence expires release digest s l s' :
  changeLease e token session key attempt id fence expires release digest s = Ok (l, s') ->
  exists old, mget (Leases s) id = Some old
  /\ Lease_SessionID old = session /\ Lease_AttemptID old = attempt /\ Lease_Fence old = fence
  /\ (exists r, authenticate s token session (now e 0) = Ok r /\ change_action release ∈ r_Actions r)
  /\ (mget (Operations s) key = None ->
        currentLease s old (now e 1) = true
        /\ same_lease old l /\ Lease_Released l = release
        /\ (release = false -> now e 1 < Lease_ExpiresAt l)
        /\ mget (Leases s') id = Some l
        /\ (forall k, k <> id -> mget (Leases s') k = mget (Leases s) k))
  /\ (is_Some (mget (Operations s) key) -> s' = s).
Proof.
  intros (r & a & old & (Hr & _ & _ & Hact & _)%leaseAuth_ok & _ & Ho & Es & Ea & Ef & H)%changeLease_ok.
  exists old. split_and!; try done; [by exists r | |].
  - intros Hn. destruct H as [[(op & Hop & _)%retry_ok _] | (_ & _ & Hc)]; [congruence |].
    destruct (changed_same _ _ _ _ _ _ _ _ _ _ _ Hc) as [Hs Hrel].
    destruct Hc as [_ Hcur Hexp Hl (leases & ops & Hm & _ & ->)]. split_and!; try done.
    + rewrite Hl. by destruct release.
    + intros E. rewrite Hl, E. simpl. by apply Hexp.
    + by eapply mget_mset_eq.
    + intros k Hk. by apply (mget_mset_ne _ _ _ _ _ Hm).
  - intros [op Hop]. destruct H as [[_ ->] | (_ & _ & [Hn _ _ _ _])]; [done | congruence].
Qed.

(** release is final: once a lease is released, in every later state a
    renewal or release of it can only replay a recorded operation - it changes
    nothing - and the lease is never current again. *)
Theorem released_lease_final s later id l e token session key attempt fence expires release digest x s' :
  mget (Leases s) id = Some l -> Lease_Released l = true -> lease_le s later ->
  mget (Leases later) id = Some l /\ (forall now, currentLease later l now = false)
  /\ (changeLease e token session key attempt id fence expires release digest later = Ok (x, s') ->
      s' = later /\ is_Some (mget (Operations later) key)).
Proof.
  intros Hl Hrel [_ Hle]. destruct (Hle _ _ Hl) as (l' & Hl' & _ & E).
  rewrite (E Hrel) in Hl'. clear l' E. split_and!; [done | |].
  - intros t. apply not_true_iff_false. intros (? & _)%currentLease_true. congruence.
  - intros (r & a & old & _ & _ & Ho & _ & _ & _ & H)%changeLease_ok.
    rewrite Hl' in Ho. injection Ho as <-.
    destruct H as [[(op & ? & _)%retry_ok ->] | (_ & _ & Hc)]; [split; [done | by eexists] |].
    destruct (changed_same _ _ _ _ _ _ _ _ _ _ _ Hc). congruence.
Qed.
