(* ===== verification/Lifecycle.v ===== *)
(** * Host lifecycle observations and cancellations

    [internal/governance/sessions/lifecycle.go], with [dispatchActor] of
    dispatch_intents.go.  [UpgradeLifecycle] is with the other migrations
    (Schema); the withdrawal predicates are in Withdrawal. *)

From S2P Require Import Prelude GoStd Disclosure State Session Withdrawal Resources Leases.
#[local] Open Scope Z_scope.

Record ObserveLifecycleRequest := mkObserveLifecycle {
  OL_OperationKey : string; OL_Binding : LifecycleBinding;
  OL_ExpectedSequence : Z; OL_HostSequence : Z;
  OL_State : string; OL_Source : string; OL_EvidenceDigest : string;
  OL_SourceTime : time
}.
Record CancelLifecycleRequest := mkCancelLifecycle {
  CL_OperationKey : string; CL_Binding : LifecycleBinding
}.
Record AcknowledgeCancellationRequest := mkAcknowledge {
  AC_ExpectedSequence : Z; AC_OperationKey : string; AC_Binding : LifecycleBinding;
  AC_State : string; AC_EvidenceDigest : string
}.
Record LifecycleCancellationResult := mkCancellationResult {
  LCR_Cancellation : LifecycleCancellation; LCR_HostActionAuthorized : bool
}.
Record LifecycleStatus_t := mkLifecycleStatus {
  LS_Binding : LifecycleBinding; LS_Observations : list LifecycleObservation;
  LS_Cancellation : option LifecycleCancellation;
  LS_State : string; LS_Freshness : string;
  LS_ObservedAt : time; LS_FreshUntil : time;
  LS_ResourcesRetained : bool
}.

#[export] Instance LifecycleBinding_json : ToJSON LifecycleBinding := fun b =>
  JObject [("DispatchID", JString (LB_DispatchID b)); ("IntentID", JString (LB_IntentID b));
           ("BridgeSessionID", JString (LB_BridgeSessionID b));
           ("WorkerSessionID", JString (LB_WorkerSessionID b)); ("TaskID", JString (LB_TaskID b));
           ("Checkout", JString (LB_Checkout b)); ("BaseCommit", JString (LB_BaseCommit b));
           ("HostAgentID", JString (LB_HostAgentID b)); ("AttemptID", JString (LB_AttemptID b));
           ("LeaseID", JString (LB_LeaseID b)); ("ReservationFence", JInt (LB_ReservationFence b));
           ("LeaseFence", JInt (LB_LeaseFence b))]%string.
#[export] Instance ObserveLifecycleRequest_json : ToJSON ObserveLifecycleRequest := fun r =>
  JObject [("OperationKey", JString (OL_OperationKey r)); ("Binding", to_json (OL_Binding r));
           ("ExpectedSequence", JInt (OL_ExpectedSequence r));
           ("HostSequence", JInt (OL_HostSequence r)); ("State", JString (OL_State r));
           ("Source", JString (OL_Source r)); ("EvidenceDigest", JString (OL_EvidenceDigest r));
           ("SourceTime", JTime (OL_SourceTime r))]%string.
#[export] Instance CancelLifecycleRequest_json : ToJSON CancelLifecycleRequest := fun r =>
  JObject [("OperationKey", JString (CL_OperationKey r)); ("Binding", to_json (CL_Binding r))]%string.
#[export] Instance AcknowledgeCancellationRequest_json : ToJSON AcknowledgeCancellationRequest :=
  fun r => JObject
    [("ExpectedSequence", JInt (AC_ExpectedSequence r)); ("OperationKey", JString (AC_OperationKey r));
     ("Binding", to_json (AC_Binding r)); ("State", JString (AC_State r));
     ("EvidenceDigest", JString (AC_EvidenceDigest r))]%string.

(** [uint64(len(l))] *)
Definition u64_length {A} (l : list A) : Z := Z.of_nat (List.length l) mod 2 ^ 64.

Definition dispatchActor (s : state) (token id project action : string) (t : time) : res record :=
  r ← authenticate s token id t;
  deny_if (negb (subset [action] (r_Actions r))
           || negb (subset ["project:" ++ project]%string (r_Resources r)));;
  Ok r.

Definition lifecycle_project (i : DispatchIntent) : string := DR_ProjectID (DI_Reservation i).

Definition lifecycle_policy_ok (p : LifecyclePolicy) : bool :=
  negb (negb (LP_SchemaVersion p =? 1) || negb (validID (LP_ProjectID p))
        || negb (validID (LP_Revision p))
        || negb (LP_Source p =? "owner-manual-native-host")%string
        || (LP_Freshness p <=? 0) || (hour <? LP_Freshness p)
        || (negb (LP_CancellationChannel p =? "unsupported")%string
            && negb (LP_CancellationChannel p =? "owner-manual-native-host")%string)).

Definition ConfigureLifecycle (owner : string) (p : LifecyclePolicy) : tx unit := fun s =>
  deny_if ((Version s <? 9) || not_owner s owner || negb (lifecycle_policy_ok p));;
  deny_if (negb (mhas (swarm_policies s) (LP_ProjectID p)));;
  let lc := st_Lifecycle s in
  let revisions := default ∅ (mget (LifecyclePolicyHistory lc) (LP_ProjectID p)) in
  match revisions !! LP_Revision p with
  | Some old => deny_if (negb (bool_decide (old = p)));; Ok (tt, s)
  | None =>
    h ← mset (LifecyclePolicyHistory lc) (LP_ProjectID p) (<[LP_Revision p := p]> revisions);
    c ← mset (LifecyclePolicies lc) (LP_ProjectID p) p;
    Ok (tt, s <| st_Lifecycle := lc <| LifecyclePolicyHistory := h |> <| LifecyclePolicies := c |> |>)
  end.

Definition lifecycleBinding (i : DispatchIntent) : LifecycleBinding :=
  let d := DI_Reservation i in
  let l := DI_Lease i in
  mkLifecycleBinding (DI_DispatchID i) (DI_ID i) (DI_BridgeSessionID i) (DI_WorkerSessionID i)
    (Lease_TaskID (DR_Reservation d)) (Lease_Checkout (DR_Reservation d)) (DR_BaseCommit d)
    (DI_HostAgentID i)
    (match l with Some l => Lease_AttemptID l | None => "" end)
    (match l with Some l => Lease_ID l | None => "" end)
    (Lease_Fence (DR_Reservation d))
    (match l with Some l => Lease_Fence l | None => 0 end).

Definition lifecycleIntent (s : state) (b : LifecycleBinding) : res DispatchIntent :=
  deny_if (Version s <? 9);;
  i ← must (mget (intents s) (LB_DispatchID b));
  deny_if (negb (bool_decide (lifecycleBinding i = b)));;
  Ok i.

(** The intent an operation names, before anything is authenticated. *)
Definition named_intent (s : state) (b : LifecycleBinding) : res DispatchIntent :=
  deny_if (Version s <? 9);;
  i ← must (mget (intents s) (LB_DispatchID b));
  deny_if (negb (DI_ID i =? LB_IntentID b)%string);;
  Ok i.

Definition put_observations (s : state) (dispatch : string) (h : list LifecycleObservation)
    (key : string) (r : LifecycleReceipt) : res state :=
  let lc := st_Lifecycle s in
  obs ← mset (LifecycleObservations lc) dispatch h;
  ops ← mset (LifecycleOperations lc) key r;
  Ok (s <| st_Lifecycle := lc <| LifecycleObservations := obs |> <| LifecycleOperations := ops |> |>).

Definition put_cancellation (s : state) (dispatch : string) (c : LifecycleCancellation)
    (key : string) (r : LifecycleReceipt) : res state :=
  let lc := st_Lifecycle s in
  cs ← mset (LifecycleCancellations lc) dispatch c;
  ops ← mset (LifecycleOperations lc) key r;
  Ok (s <| st_Lifecycle := lc <| LifecycleCancellations := cs |> <| LifecycleOperations := ops |> |>).

Definition observation_state_ok (st : string) : bool :=
  (st =? "running")%string || (st =? "unknown")%string || lifecycleTerminal st.

(** The report does not continue the history. *)
Definition out_of_order (req : ObserveLifecycleRequest) (h : list LifecycleObservation) : bool :=
  match list.last h with
  | None => false
  | Some o => (OL_HostSequence req <=? LO_HostSequence o) || (OL_SourceTime req <? LO_SourceTime o)
              || lifecycleTerminal (LO_State o)
  end.

Definition ObserveLifecycle (e : Env) (token bridge : string) (req : ObserveLifecycleRequest)
    : tx LifecycleObservation := fun s =>
  i ← named_intent s (OL_Binding req);
  deny_if (negb (bridge =? DI_BridgeSessionID i)%string);;
  dispatchActor s token bridge (lifecycle_project i) "dispatch.observe" (now e 0);;
  deny_if (negb (validID (OL_OperationKey req)));;
  let digest := identity "lifecycle.observe" bridge req in
  match mget (LifecycleOperations (st_Lifecycle s)) (OL_OperationKey req) with
  | Some old =>
    deny_if (negb (LR_Digest old =? digest)%string);;
    o ← must (LR_Observation old);
    Ok (o, s)
  | None =>
    lifecycleIntent s (OL_Binding req);;
    p ← must (mget (LifecyclePolicies (st_Lifecycle s)) (lifecycle_project i));
    let t := now e 1 in
    deny_if (negb (OL_Source req =? LP_Source p)%string || negb (validDigest (OL_EvidenceDigest req))
             || (OL_SourceTime req =? 0) || (t + minute <? OL_SourceTime req)
             || (DI_HostAgentID i =? "")%string || negb (observation_state_ok (OL_State req)));;
    let h := history s (DI_DispatchID i) in
    deny_if (negb (OL_ExpectedSequence req =? u64_length h) || (OL_HostSequence req =? 0));;
    deny_if (out_of_order req h);;
    let result := mkLifecycleObservation (incr_u64 (u64_length h)) (OL_HostSequence req)
      (OL_Binding req) (OL_State req) (OL_Source req) "cooperative-owner-provisioned-bridge"
      (OL_EvidenceDigest req) (OL_SourceTime req) t in
    dispatchActor s token bridge (lifecycle_project i) "dispatch.observe" (now e 2);;
    s' ← put_observations s (DI_DispatchID i) (h ++ [result]) (OL_OperationKey req)
           (mkLifecycleReceipt digest (Some result) None);
    Ok (result, s')
  end.

(** [state] and [permit] of [CancelLifecycle]. *)
Definition cancellation_permit (p : LifecyclePolicy) (i : DispatchIntent) : string * bool :=
  if (LP_CancellationChannel p =? "unsupported")%string then ("unsupported"%string, false)
  else if (DI_HostAgentID i =? "")%string then ("manual_handoff_required"%string, false)
  else ("requested"%string, true).

Definition CancelLifecycle (e : Env) (token controller : string) (req : CancelLifecycleRequest)
    : tx LifecycleCancellationResult := fun s =>
  i ← named_intent s (CL_Binding req);
  deny_if (negb (DI_ControllerSessionID i =? controller)%string);;
  dispatchActor s token controller (lifecycle_project i) "dispatch.cancel" (now e 0);;
  deny_if (negb (validID (CL_OperationKey req)));;
  let digest := identity "lifecycle.cancel" controller req in
  match mget (LifecycleOperations (st_Lifecycle s)) (CL_OperationKey req) with
  | Some old =>
    deny_if (negb (LR_Digest old =? digest)%string);;
    c ← must (LR_Cancellation old);
    Ok (mkCancellationResult c false, s)
  | None =>
    lifecycleIntent s (CL_Binding req);;
    deny_if (mhas (cancellations s) (DI_DispatchID i));;
    lifecycleIntent s (CL_Binding req);;
    p ← must (mget (LifecyclePolicies (st_Lifecycle s)) (lifecycle_project i));
    deny_if (negb (LP_CancellationEnabled p));;
    let scope := match mget (Sessions s) controller with Some r => r_Resources r | None => [] end in
    deny_if (existsb (fun x => negb (subset [resource_name x] scope))
               (Lease_Resources (DR_Reservation (DI_Reservation i))));;
    let (st, permit) := cancellation_permit p i in
    let c := mkLifecycleCancellation 1 (CL_Binding req) (CL_OperationKey req) (LP_Revision p)
      (LP_CancellationChannel p) st "" controller (now e 1) 0 in
    dispatchActor s token controller (lifecycle_project i) "dispatch.cancel" (now e 2);;
    s' ← put_cancellation s (DI_DispatchID i) c (CL_OperationKey req)
           (mkLifecycleReceipt digest None (Some c));
    Ok (mkCancellationResult c permit, s')
  end.

Definition AcknowledgeCancellation (e : Env) (token bridge : string)
    (req : AcknowledgeCancellationRequest) : tx LifecycleCancellation := fun s =>
  i ← named_intent s (AC_Binding req);
  deny_if (negb (bridge =? DI_BridgeSessionID i)%string);;
  dispatchActor s token bridge (lifecycle_project i) "dispatch.observe" (now e 0);;
  deny_if (negb (validID (AC_OperationKey req)) || negb (validDigest (AC_EvidenceDigest req)));;
  let digest := identity "lifecycle.cancel-ack" bridge req in
  match mget (LifecycleOperations (st_Lifecycle s)) (AC_OperationKey req) with
  | Some old =>
    deny_if (negb (LR_Digest old =? digest)%string);;
    c ← must (LR_Cancellation old);
    Ok (c, s)
  | None =>
    lifecycleIntent s (AC_Binding req);;
    c ← must (mget (cancellations s) (DI_DispatchID i));
    deny_if (negb (AC_ExpectedSequence req =? LC_Sequence c) || (LC_State c =? "acknowledged")%string
             || (negb (AC_State req =? "acknowledged")%string
                 && negb (AC_State req =? "dispatch_unknown")%string
                 && negb (AC_State req =? "unsupported")%string)
             || ((AC_State req =? "acknowledged")%string
                 && (negb (LC_Channel c =? "owner-manual-native-host")%string
                     || (DI_HostAgentID i =? "")%string)));;
    let c := c <| LC_Sequence := incr_u64 (LC_Sequence c) |> <| LC_State := AC_State req |>
               <| LC_EvidenceDigest := AC_EvidenceDigest req |> <| LC_AcknowledgedAt := now e 1 |> in
    dispatchActor s token bridge (lifecycle_project i) "dispatch.observe" (now e 2);;
    s' ← put_cancellation s (DI_DispatchID i) c (AC_OperationKey req)
           (mkLifecycleReceipt digest None (Some c));
    Ok (c, s')
  end.

Definition LifecycleStatus (e : Env) (token session dispatch : string) (s : state)
    : res LifecycleStatus_t :=
  deny_if (Version s <? 9);;
  i ← must (mget (intents s) dispatch);
  r ← authenticate s token session (now e 0);
  deny_if (negb (subset ["read"%string] (r_Actions r))
           || negb (subset [task_resource (Lease_TaskID (DR_Reservation (DI_Reservation i)))] (r_Resources r))
           || (negb (session =? DI_ControllerSessionID i)%string
               && negb (session =? DI_BridgeSessionID i)%string
               && negb (session =? DI_WorkerSessionID i)%string));;
  p ← must (mget (LifecyclePolicies (st_Lifecycle s)) (lifecycle_project i));
  let h := history s dispatch in
  let t := now e 1 in
  let reserved := match mget (dispatches s) dispatch with
                  | Some d => reservationRetained s d
                  | None => negb (mhas (recoveries s) "reservation:")
                  end in
  let retained := match DI_Lease i with
                  | Some l => match mget (Leases s) (Lease_ID l) with
                              | Some l => negb (Lease_Released l)
                              | None => reserved
                              end
                  | None => reserved
                  end in
  let '(st, freshness, until) :=
    match list.last h with
    | None => ("unknown"%string, "missing"%string, 0)
    | Some o =>
      let until := LO_SourceTime o + LP_Freshness p in
      if t <? until then (LO_State o, "fresh"%string, until)
      else (if lifecycleTerminal (LO_State o) then LO_State o else "unknown"%string, "stale"%string, until)
    end in
  Ok (mkLifecycleStatus (lifecycleBinding i) h (mget (cancellations s) dispatch) st freshness t until
        retained).

Definition OwnerLifecyclePolicy (owner project : string) (s : state) : res LifecyclePolicy :=
  deny_if ((Version s <? 9) || not_owner s owner);;
  must (mget (LifecyclePolicies (st_Lifecycle s)) project).

#[global] Arguments lifecycleBinding : simpl never.
#[global] Arguments lifecycle_policy_ok : simpl never.
#[global] Arguments lifecycle_project : simpl never.
#[global] Arguments dispatchActor : simpl never.
#[global] Arguments named_intent : simpl never.
#[global] Arguments lifecycleIntent : simpl never.
#[global] Arguments history : simpl never.
#[global] Arguments u64_length : simpl never.
#[global] Arguments out_of_order : simpl never.
#[global] Arguments observation_state_ok : simpl never.
#[global] Arguments cancellation_permit : simpl never.
#[global] Arguments put_observations : simpl never.
#[global] Arguments put_cancellation : simpl never.

(** ** What a successful run went through *)

Lemma named_intent_ok s b i :
  named_intent s b = Ok i ->
  9 <= Version s /\ mget (intents s) (LB_DispatchID b) = Some i /\ DI_ID i = LB_IntentID b.
Proof. unfold named_intent. intros H. by inv_ok; subst. Qed.

Lemma lifecycleIntent_ok s b i :
  lifecycleIntent s b = Ok i -> mget (intents s) (LB_DispatchID b) = Some i /\ lifecycleBinding i = b.
Proof. unfold lifecycleIntent. intros H. by inv_ok; subst. Qed.

Lemma dispatchActor_ok s token id project action t r :
  dispatchActor s token id project action t = Ok r ->
  authenticate s token id t = Ok r /\ action ∈ r_Actions r
  /\ ("project:" ++ project)%string ∈ r_Resources r.
Proof. unfold dispatchActor. intros H. inv_ok. subst. by rewrite !subset_one in *. Qed.

Lemma put_observations_ok s d h key r s' :
  put_observations s d h key r = Ok s' ->
  exists obs ops, mset (observations s) d h = Ok obs
    /\ mset (LifecycleOperations (st_Lifecycle s)) key r = Ok ops
    /\ s' = s <| st_Lifecycle := (st_Lifecycle s) <| LifecycleObservations := obs |>
                                   <| LifecycleOperations := ops |> |>.
Proof. unfold put_observations. intros H. inv_ok. eauto. Qed.

Lemma put_cancellation_ok s d c key r s' :
  put_cancellation s d c key r = Ok s' ->
  exists cs ops, mset (cancellations s) d c = Ok cs
    /\ mset (LifecycleOperations (st_Lifecycle s)) key r = Ok ops
    /\ s' = s <| st_Lifecycle := (st_Lifecycle s) <| LifecycleCancellations := cs |>
                                   <| LifecycleOperations := ops |> |>.
Proof. unfold put_cancellation. intros H. inv_ok. eauto. Qed.

(** A report recorded under a new key. *)
Record observed (e : Env) (req : ObserveLifecycleRequest) (digest : string) (i : DispatchIntent)
    (s : state) (o : LifecycleObservation) (s' : state) : Prop := {
  obs_binding : lifecycleBinding i = OL_Binding req;
  obs_host : DI_HostAgentID i <> ""%string;
  obs_policy : exists p, mget (LifecyclePolicies (st_Lifecycle s)) (lifecycle_project i) = Some p
    /\ OL_Source req = LP_Source p;
  obs_checked : validDigest (OL_EvidenceDigest req) = true /\ OL_SourceTime req <> 0
    /\ OL_SourceTime req <= now e 1 + minute /\ observation_state_ok (OL_State req) = true;
  obs_sequence : OL_ExpectedSequence req = u64_length (history s (DI_DispatchID i))
    /\ OL_HostSequence req <> 0;
  obs_order : out_of_order req (history s (DI_DispatchID i)) = false;
  obs_result : o = mkLifecycleObservation (incr_u64 (u64_length (history s (DI_DispatchID i))))
    (OL_HostSequence req) (OL_Binding req) (OL_State req) (OL_Source req)
    "cooperative-owner-provisioned-bridge" (OL_EvidenceDigest req) (OL_SourceTime req) (now e 1);
  obs_state : put_observations s (DI_DispatchID i) (history s (DI_DispatchID i) ++ [o])
    (OL_OperationKey req) (mkLifecycleReceipt digest (Some o) None) = Ok s'
}.

Lemma ObserveLifecycle_ok e token bridge req s o s' :
  ObserveLifecycle e token bridge req s = Ok (o, s') ->
  exists i, named_intent s (OL_Binding req) = Ok i /\ bridge = DI_BridgeSessionID i
  /\ (exists r, dispatchActor s token bridge (lifecycle_project i) "dispatch.observe" (now e 0) = Ok r)
  /\ validID (OL_OperationKey req) = true
  /\ ((exists old, mget (LifecycleOperations (st_Lifecycle s)) (OL_OperationKey req) = Some old
        /\ LR_Digest old = identity "lifecycle.observe" bridge req
        /\ LR_Observation old = Some o /\ s' = s)
      \/ (mget (LifecycleOperations (st_Lifecycle s)) (OL_OperationKey req) = None
          /\ observed e req (identity "lifecycle.observe" bridge req) i s o s')).
Proof.
  unfold ObserveLifecycle. intros H.
  apply bind_ok in H as (i & Hi & H). apply bind_ok in H as (? & Hb%deny_if_ok & H).
  apply bind_ok in H as (r & Hr & H). apply bind_ok in H as (? & Hk%deny_if_ok & H).
  exists i. bool_facts. split_and!; [done.. | by eexists | done |].
  destruct (mget (LifecycleOperations _) _) as [old |].
  - left. inv_ok. simplify_eq. eauto 10.
  - right. split; [done |]. inv_ok. simplify_eq.
    match goal with H : lifecycleIntent _ _ = Ok _ |- _ => apply lifecycleIntent_ok in H as [Hm Hbind] end.
    apply named_intent_ok in Hi as (_ & Hi & _). rewrite Hi in Hm. injection Hm as <-.
    constructor; eauto 10.
Qed.

(** A cancellation recorded under a new key. *)
Record cancelled (e : Env) (controller : string) (req : CancelLifecycleRequest) (digest : string)
    (i : DispatchIntent) (s : state) (x : LifecycleCancellationResult) (s' : state) : Prop := {
  can_binding : lifecycleBinding i = CL_Binding req;
  can_first : mget (cancellations s) (DI_DispatchID i) = None;
  can_result : exists p, mget (LifecyclePolicies (st_Lifecycle s)) (lifecycle_project i) = Some p
    /\ LP_CancellationEnabled p = true
    /\ x = mkCancellationResult
         (mkLifecycleCancellation 1 (CL_Binding req) (CL_OperationKey req) (LP_Revision p)
            (LP_CancellationChannel p) (fst (cancellation_permit p i)) "" controller (now e 1) 0)
         (snd (cancellation_permit p i));
  can_scope : exists r, mget (Sessions s) controller = Some r
    /\ forall y, y ∈ Lease_Resources (DR_Reservation (DI_Reservation i)) ->
         resource_name y ∈ r_Resources r;
  can_state : put_cancellation s (DI_DispatchID i) (LCR_Cancellation x) (CL_OperationKey req)
    (mkLifecycleReceipt digest None (Some (LCR_Cancellation x))) = Ok s'
}.

Lemma CancelLifecycle_ok e token controller req s x s' :
  CancelLifecycle e token controller req s = Ok (x, s') ->
  exists i, named_intent s (CL_Binding req) = Ok i /\ controller = DI_ControllerSessionID i
  /\ (exists r, dispatchActor s token controller (lifecycle_project i) "dispatch.cancel" (now e 0) = Ok r)
  /\ validID (CL_OperationKey req) = true
  /\ ((exists old c, mget (LifecycleOperations (st_Lifecycle s)) (CL_OperationKey req) = Some old
        /\ LR_Digest old = identity "lifecycle.cancel" controller req
        /\ LR_Cancellation old = Some c /\ x = mkCancellationResult c false /\ s' = s)
      \/ (mget (LifecycleOperations (st_Lifecycle s)) (CL_OperationKey req) = None
          /\ cancelled e controller req (identity "lifecycle.cancel" controller req) i s x s')).
Proof.
  unfold CancelLifecycle. intros H.
  apply bind_ok in H as (i & Hi & H). apply bind_ok in H as (? & Hb%deny_if_ok & H).
  apply bind_ok in H as (r & Hr & H). apply bind_ok in H as (? & Hk%deny_if_ok & H).
  exists i. bool_facts. split_and!; [done.. | by eexists | done |].
  destruct (mget (LifecycleOperations _) _) as [old |].
  - left. inv_ok. simplify_eq. eauto 10.
  - right. split; [done |].
    apply bind_ok in H as (i' & Hi' & H). apply lifecycleIntent_ok in Hi' as [Hm Hbind].
    apply named_intent_ok in Hi as (_ & Hi & _). rewrite Hi in Hm. injection Hm as <-.
    apply bind_ok in H as (? & Hfirst%deny_if_ok & H). apply bind_ok in H as (? & _ & H).
    apply bind_ok in H as (p & Hp%must_ok & H). apply bind_ok in H as (? & Hen%deny_if_ok & H).
    apply bind_ok in H as (? & Hsc%deny_if_ok & H).
    rewrite mhas_false in Hfirst. rewrite existsb_not_elem in Hsc.
    apply dispatchActor_ok in Hr as (Hr & _). apply authenticate_ok in Hr as (Hr & _).
    subst controller. rewrite Hr in Hsc.
    destruct (cancellation_permit p i) as [st permit] eqn:Eper.
    inv_ok. simplify_eq. constructor; try done.
    + exists p. rewrite Eper. done.
    + exists r. split; [done |]. intros y Hy. specialize (Hsc y Hy). bool_facts.
      by rewrite subset_one in *.
Qed.

(** An acknowledgement recorded under a new key. *)
Record acknowledged (e : Env) (req : AcknowledgeCancellationRequest) (digest : string)
    (i : DispatchIntent) (s : state) (c' : LifecycleCancellation) (s' : state) : Prop := {
  ack_binding : lifecycleBinding i = AC_Binding req;
  ack_prior : exists c, mget (cancellations s) (DI_DispatchID i) = Some c
    /\ AC_ExpectedSequence req = LC_Sequence c /\ LC_State c <> "acknowledged"%string
    /\ (AC_State req = "acknowledged"%string ->
          LC_Channel c = "owner-manual-native-host"%string /\ DI_HostAgentID i <> ""%string)
    /\ c' = c <| LC_Sequence := incr_u64 (LC_Sequence c) |> <| LC_State := AC_State req |>
              <| LC_EvidenceDigest := AC_EvidenceDigest req |> <| LC_AcknowledgedAt := now e 1 |>;
  ack_word : AC_State req ∈ ["acknowledged"; "dispatch_unknown"; "unsupported"]%string;
  ack_state : put_cancellation s (DI_DispatchID i) c' (AC_OperationKey req)
    (mkLifecycleReceipt digest None (Some c')) = Ok s'
}.

Lemma AcknowledgeCancellation_ok e token bridge req s c s' :
  AcknowledgeCancellation e token bridge req s = Ok (c, s') ->
  exists i, named_intent s (AC_Binding req) = Ok i /\ bridge = DI_BridgeSessionID i
  /\ (exists r, dispatchActor s token bridge (lifecycle_project i) "dispatch.observe" (now e 0) = Ok r)
  /\ validID (AC_OperationKey req) = true /\ validDigest (AC_EvidenceDigest req) = true
  /\ ((exists old, mget (LifecycleOperations (st_Lifecycle s)) (AC_OperationKey req) = Some old
        /\ LR_Digest old = identity "lifecycle.cancel-ack" bridge req
        /\ LR_Cancellation old = Some c /\ s' = s)
      \/ (mget (LifecycleOperations (st_Lifecycle s)) (AC_OperationKey req) = None
          /\ acknowledged e req (identity "lifecycle.cancel-ack" bridge req) i s c s')).
Proof.
  unfold AcknowledgeCancellation. intros H.
  apply bind_ok in H as (i & Hi & H). apply bind_ok in H as (? & Hb%deny_if_ok & H).
  apply bind_ok in H as (r & Hr & H). apply bind_ok in H as (? & Hk%deny_if_ok & H).
  exists i. bool_facts. split_and!; [done.. | by eexists | done | done |].
  destruct (mget (LifecycleOperations _) _) as [old |].
  - left. inv_ok. simplify_eq. eauto 10.
  - right. split; [done |].
    apply bind_ok in H as (i' & Hi' & H). apply lifecycleIntent_ok in Hi' as [Hm Hbind].
    apply named_intent_ok in Hi as (_ & Hi & _). rewrite Hi in Hm. injection Hm as <-.
    apply bind_ok in H as (old & Ho%must_ok & H). apply bind_ok in H as (? & Hc%deny_if_ok & H).
    apply orb_false_iff in Hc as [Hc Hchan]. apply orb_false_iff in Hc as [Hc Hword].
    inv_ok. simplify_eq. constructor; try done.
    + exists old. split_and!; try done. intros E. rewrite E in Hchan. simpl in Hchan. by bool_facts.
    + rewrite !elem_of_cons.
      destruct (String.eqb_spec (AC_State req) "acknowledged"); [by left |].
      destruct (String.eqb_spec (AC_State req) "dispatch_unknown"); [by right; left |].
      destruct (String.eqb_spec (AC_State req) "unsupported"); [by right; right; left | done].
Qed.

(** ** Histories *)

(** The observations of one dispatch: numbered from one, each about that
    dispatch, in host order, and only the last one terminal. *)
Record history_ok (d : string) (h : list LifecycleObservation) : Prop := {
  hist_entry i o : h !! i = Some o ->
    LO_Sequence o = incr_u64 (Z.of_nat i mod 2 ^ 64) /\ LB_DispatchID (LO_Binding o) = d
    /\ LO_HostSequence o <> 0 /\ observation_state_ok (LO_State o) = true;
  hist_order i o o' : h !! i = Some o -> h !! S i = Some o' ->
    LO_HostSequence o < LO_HostSequence o' /\ LO_SourceTime o <= LO_SourceTime o'
    /\ lifecycleTerminal (LO_State o) = false
}.

Definition histories_ok (s : state) : Prop := forall d, history_ok d (history s d).

Lemma history_ok_nil d : history_ok d [].
Proof. split; intros i *; by rewrite lookup_nil. Qed.

Lemma history_ok_snoc d h o :
  history_ok d h ->
  LO_Sequence o = incr_u64 (u64_length h) -> LB_DispatchID (LO_Binding o) = d ->
  LO_HostSequence o <> 0 -> observation_state_ok (LO_State o) = true ->
  (forall l, list.last h = Some l -> LO_HostSequence l < LO_HostSequence o
     /\ LO_SourceTime l <= LO_SourceTime o /\ lifecycleTerminal (LO_State l) = false) ->
  history_ok d (h ++ [o]).
Proof.
  intros [He Ho] Hs Hd Hh Hst Hl. split.
  - intros i x [[_ H] | [-> <-]]%lookup_snoc_Some; [by apply He | done].
  - intros i x y [[Hi Hx] | [Hi _]]%lookup_snoc_Some [[Hj Hy] | [Hj <-]]%lookup_snoc_Some;
      [by eapply Ho | | lia | lia].
    apply Hl. rewrite last_lookup. by rewrite <- Hj.
Qed.

Lemma out_of_order_false req h :
  out_of_order req h = false ->
  forall l, list.last h = Some l -> LO_HostSequence l < OL_HostSequence req
    /\ LO_SourceTime l <= OL_SourceTime req /\ lifecycleTerminal (LO_State l) = false.
Proof. unfold out_of_order. intros H l Hl. rewrite Hl in H. by bool_facts. Qed.

(** [lifecycle_le s s']: observations are only appended, a cancellation keeps
    its binding and origin, and configured policy revisions and receipts stay. *)
Record lifecycle_le (s s' : state) : Prop := {
  lle_history d : history s d `prefix_of` history s' d;
  lle_cancellation d c : mget (cancellations s) d = Some c -> exists c',
    mget (cancellations s') d = Some c' /\ LC_Binding c' = LC_Binding c
    /\ LC_OperationKey c' = LC_OperationKey c /\ LC_Channel c' = LC_Channel c
    /\ LC_PolicyRevision c' = LC_PolicyRevision c /\ LC_RequestedBy c' = LC_RequestedBy c
    /\ LC_RequestedAt c' = LC_RequestedAt c;
  lle_receipt k r : mget (LifecycleOperations (st_Lifecycle s)) k = Some r ->
    mget (LifecycleOperations (st_Lifecycle s')) k = Some r;
  lle_policy p v q :
    default ∅ (mget (LifecyclePolicyHistory (st_Lifecycle s)) p) !! v = Some q ->
    default ∅ (mget (LifecyclePolicyHistory (st_Lifecycle s')) p) !! v = Some q
}.

#[export] Instance lifecycle_le_preorder : PreOrder lifecycle_le.
Proof.
  split.
  - intros s. split; [intros d; reflexivity | intros d c H; by exists c | done | done].
  - intros s1 s2 s3 [A1 A2 A3 A4] [B1 B2 B3 B4]. split; [| | auto | auto].
    + intros d. etrans; [apply A1 | apply B1].
    + intros d c (c2 & H2 & E)%A2. destruct (B2 _ _ H2) as (c3 & H3 & F). exists c3.
      destruct_and?. split_and!; congruence.
Qed.

Lemma lifecycle_le_same s s' : st_Lifecycle s' = st_Lifecycle s -> lifecycle_le s s'.
Proof.
  intros E. unfold history, observations, cancellations.
  split; unfold history, observations, cancellations; rewrite ?E; try done.
  intros d c H. by exists c.
Qed.

Lemma put_observations_history s d h key r s' d' :
  put_observations s d h key r = Ok s' ->
  history s' d' = if decide (d = d') then h else history s d'.
Proof.
  intros (obs & ops & Hm & _ & ->)%put_observations_ok. unfold history, observations in *. simpl.
  rewrite (mget_mset _ _ _ _ _ Hm). by case_decide.
Qed.

Lemma observed_le e req digest i s o s' :
  mget (LifecycleOperations (st_Lifecycle s)) (OL_OperationKey req) = None ->
  observed e req digest i s o s' -> lifecycle_le s s'.
Proof.
  intros Hn [_ _ _ _ _ _ _ Hst]. split.
  - intros d. rewrite (put_observations_history _ _ _ _ _ _ _ Hst).
    case_decide as E; [subst d; by apply prefix_app_r | reflexivity].
  - apply put_observations_ok in Hst as (obs & ops & _ & _ & ->). intros d c H. by exists c.
  - apply put_observations_ok in Hst as (obs & ops & _ & Ho & ->). intros k r Hk. simpl.
    by rewrite (mget_mset_ne _ _ _ _ _ Ho) by congruence.
  - apply put_observations_ok in Hst as (obs & ops & _ & _ & ->). done.
Qed.

Lemma observed_histories e req digest i s o s' :
  histories_ok s -> observed e req digest i s o s' -> histories_ok s'.
Proof.
  intros Hok [Hb _ _ (_ & _ & _ & Hs) [_ Hh] Ho Hr Hst] d.
  pose proof (out_of_order_false _ _ Ho) as Hord.
  rewrite (put_observations_history _ _ _ _ _ _ _ Hst). case_decide as E; [subst d | apply Hok].
  apply history_ok_snoc; rewrite ?Hr; try done.
  simpl. by rewrite <- Hb.
Qed.

Lemma put_cancellation_le s d c key r s' :
  (forall old, mget (cancellations s) d = Some old -> LC_Binding c = LC_Binding old
    /\ LC_OperationKey c = LC_OperationKey old /\ LC_Channel c = LC_Channel old
    /\ LC_PolicyRevision c = LC_PolicyRevision old /\ LC_RequestedBy c = LC_RequestedBy old
    /\ LC_RequestedAt c = LC_RequestedAt old) ->
  mget (LifecycleOperations (st_Lifecycle s)) key = None ->
  put_cancellation s d c key r = Ok s' -> lifecycle_le s s'.
Proof.
  intros Hc Hn (cs & ops & Hm & Ho & ->)%put_cancellation_ok. split; [intros ?; reflexivity | | | done].
  - intros d' old Hd. unfold cancellations at 1. simpl. rewrite (mget_mset _ _ _ _ _ Hm).
    case_decide as E; [subst d'; exists c; split; [done | auto] | by exists old].
  - intros k q Hk. simpl. by rewrite (mget_mset_ne _ _ _ _ _ Ho) by congruence.
Qed.

Lemma cancelled_le e controller req digest i s x s' :
  mget (LifecycleOperations (st_Lifecycle s)) (CL_OperationKey req) = None ->
  cancelled e controller req digest i s x s' -> lifecycle_le s s'.
Proof.
  intros Hn [_ Hf _ _ Hst]. eapply put_cancellation_le; [| exact Hn | exact Hst].
  intros old Ho. congruence.
Qed.

Lemma acknowledged_le e req digest i s c s' :
  mget (LifecycleOperations (st_Lifecycle s)) (AC_OperationKey req) = None ->
  acknowledged e req digest i s c s' -> lifecycle_le s s'.
Proof.
  intros Hn [_ (old & Ho & _ & _ & _ & ->) _ Hst].
  eapply put_cancellation_le; [| exact Hn | exact Hst].
  intros old' Ho'. rewrite Ho in Ho'. injection Ho' as <-. done.
Qed.

Lemma ConfigureLifecycle_ok owner p s x s' :
  ConfigureLifecycle owner p s = Ok (x, s') ->
  not_owner s owner = false /\ lifecycle_policy_ok p = true
  /\ (s' = s \/ exists h c, mset (LifecyclePolicyHistory (st_Lifecycle s)) (LP_ProjectID p)
        (<[LP_Revision p := p]> (default ∅ (mget (LifecyclePolicyHistory (st_Lifecycle s)) (LP_ProjectID p))))
        = Ok h
      /\ mset (LifecyclePolicies (st_Lifecycle s)) (LP_ProjectID p) p = Ok c
      /\ default ∅ (mget (LifecyclePolicyHistory (st_Lifecycle s)) (LP_ProjectID p)) !! LP_Revision p = None
      /\ s' = s <| st_Lifecycle := (st_Lifecycle s) <| LifecyclePolicyHistory := h |>
                    <| LifecyclePolicies := c |> |>).
Proof.
  unfold ConfigureLifecycle. intros H.
  apply bind_ok in H as (? & Hg%deny_if_ok & H). apply bind_ok in H as (? & Hs%deny_if_ok & H).
  bool_facts. split_and!; [done.. |].
  destruct (_ !! LP_Revision p) as [old |] eqn:E; inv_ok; simplify_eq; [by left |].
  right. eauto 10.
Qed.

Lemma ConfigureLifecycle_le owner p s x s' :
  ConfigureLifecycle owner p s = Ok (x, s') -> lifecycle_le s s'.
Proof.
  intros (_ & _ & [-> | (h & c & Hm & _ & Hn & ->)])%ConfigureLifecycle_ok; [done |].
  split; [intros ?; reflexivity | | done |].
  - intros d q H. by exists q.
  - intros pr v q Hq. simpl. rewrite (mget_mset _ _ _ _ _ Hm). case_decide as E; [| done].
    subst pr. simpl. rewrite lookup_insert_ne; [done |].
    intros E. rewrite E in Hn. congruence.
Qed.

(** ** Properties *)

(** a lifecycle observation is accepted only from the dispatch's own
    bridge, about the exact current binding, under the configured source, and
    as the next entry of the history; what it appends keeps the history
    numbered, in host order and closed by its first terminal state, and no
    other dispatch's history changes. *)
Theorem ObserveLifecycle_history e token bridge req s o s' :
  histories_ok s -> ObserveLifecycle e token bridge req s = Ok (o, s') ->
  histories_ok s' /\ lifecycle_le s s'
  /\ exists i, mget (intents s) (LB_DispatchID (OL_Binding req)) = Some i
     /\ bridge = DI_BridgeSessionID i
     /\ (exists r, authenticate s token bridge (now e 0) = Ok r /\ "dispatch.observe"%string ∈ r_Actions r)
     /\ (mget (LifecycleOperations (st_Lifecycle s)) (OL_OperationKey req) = None ->
           lifecycleBinding i = OL_Binding req
           /\ OL_ExpectedSequence req = u64_length (history s (DI_DispatchID i))
           /\ history s' (DI_DispatchID i) = history s (DI_DispatchID i) ++ [o]
           /\ LO_State o = OL_State req /\ LO_Binding o = OL_Binding req
           /\ lifecycleDispatchEligible s (DI_DispatchID i) = true
           /\ (forall d, d <> DI_DispatchID i -> history s' d = history s d)).
Proof.
  intros Hok (i & (_ & Hi & _)%named_intent_ok & Hb & [r (Hr & Ha & _)%dispatchActor_ok] & _ & H)%ObserveLifecycle_ok.
  assert (histories_ok s' /\ lifecycle_le s s') as [? ?].
  { destruct H as [(old & _ & _ & _ & ->) | [Hn Hobs]]; [done |].
    split; [by eapply observed_histories | by eapply observed_le]. }
  split_and!; [done.. |]. exists i. split_and!; [done | done | by exists r |].
  intros Hn. destruct H as [(old & ? & _) | [_ [Hbi _ _ _ [Hseq _] Hord Hres Hst]]]; [congruence |].
  split_and!; try done.
  - rewrite (put_observations_history _ _ _ _ _ _ _ Hst). by rewrite decide_True.
  - by rewrite Hres.
  - by rewrite Hres.
  - unfold lifecycleDispatchEligible. destruct (list.last _) as [l |] eqn:El; [| done].
    by destruct (out_of_order_false _ _ Hord _ El) as (_ & _ & ->).
  - intros d Hd. rewrite (put_observations_history _ _ _ _ _ _ _ Hst). by rewrite decide_False.
Qed.

(** a cancellation withdraws before it permits: the host action is only
    authorised by the transaction that first records the dispatch's
    cancellation, and in the state that transaction persists the worker and
    every session below it have lost the task, while every lease and
    reservation is still held. *)
Theorem CancelLifecycle_withdraws e token controller req s x s' child :
  CancelLifecycle e token controller req s = Ok (x, s') ->
  LCR_HostActionAuthorized x = true ->
  exists i, mget (intents s) (LB_DispatchID (CL_Binding req)) = Some i
  /\ controller = DI_ControllerSessionID i /\ DI_HostAgentID i <> ""%string
  /\ mget (cancellations s) (DI_DispatchID i) = None
  /\ (DI_WorkerSessionID i <> ""%string -> rtc (up s') child (DI_WorkerSessionID i) ->
        workerTaskWithdrawn s' child (Lease_TaskID (DR_Reservation (DI_Reservation i))) = true)
  /\ Leases s' = Leases s /\ dispatches s' = dispatches s /\ Sessions s' = Sessions s.
Proof.
  intros (i & (_ & Hi & _)%named_intent_ok & Hc & _ & _ & H)%CancelLifecycle_ok Hauth.
  destruct H as [(old & c & _ & _ & _ & -> & _) | [_ [Hb Hf (p & _ & _ & Hx) _ Hst]]]; [done |].
  exists i. apply put_cancellation_ok in Hst as (cs & ops & Hm & _ & ->).
  split_and!; try done.
  - intros E. rewrite Hx in Hauth. simpl in Hauth. unfold cancellation_permit in Hauth.
    rewrite E in Hauth. simpl in Hauth. by case_match.
  - intros Hne Hup. apply workerTaskWithdrawn_true.
    eapply withdrawn_cancellation; [by eapply mget_mset_eq | | |]; rewrite Hx; simpl;
      rewrite <- Hb; done.
Qed.

(** the host is authorised to act at most once per dispatch: once a
    dispatch has a cancellation, in every later state a cancel request for its
    binding either fails or replays a receipt without authorising anything and
    without changing the state. *)
Theorem CancelLifecycle_once s later e token controller req i c x s' :
  mget (intents later) (LB_DispatchID (CL_Binding req)) = Some i ->
  mget (cancellations s) (DI_DispatchID i) = Some c -> lifecycle_le s later ->
  CancelLifecycle e token controller req later = Ok (x, s') ->
  LCR_HostActionAuthorized x = false /\ s' = later.
Proof.
  intros Hi Hc Hle (i' & (_ & Hi' & _)%named_intent_ok & _ & _ & _ & H)%CancelLifecycle_ok.
  rewrite Hi in Hi'. injection Hi' as <-.
  destruct H as [(old & c' & _ & _ & _ & -> & ->) | [_ [_ Hf _ _ _]]]; [done |].
  destruct (lle_cancellation _ _ Hle _ _ Hc) as (c' & Hc' & _). congruence.
Qed.

(** An acknowledgement comes from the dispatch's bridge, names the current
    sequence of an existing, not yet acknowledged cancellation and only claims
    the host's consent on the supported channel for a known host; it changes
    neither what was withdrawn nor any lease. *)
Theorem AcknowledgeCancellation_spec e token bridge req s c s' :
  AcknowledgeCancellation e token bridge req s = Ok (c, s') ->
  lifecycle_le s s' /\ Leases s' = Leases s /\ dispatches s' = dispatches s
  /\ exists i, mget (intents s) (LB_DispatchID (AC_Binding req)) = Some i
     /\ bridge = DI_BridgeSessionID i
     /\ (mget (LifecycleOperations (st_Lifecycle s)) (AC_OperationKey req) = None ->
           exists old, mget (cancellations s) (DI_DispatchID i) = Some old
           /\ LC_State old <> "acknowledged"%string /\ AC_ExpectedSequence req = LC_Sequence old
           /\ mget (cancellations s') (DI_DispatchID i) = Some c
           /\ LC_Binding c = LC_Binding old /\ LC_State c = AC_State req
           /\ LC_Sequence c = incr_u64 (LC_Sequence old)
           /\ (LC_State c = "acknowledged"%string -> DI_HostAgentID i <> ""%string
                 /\ LC_Channel c = "owner-manual-native-host"%string)).
Proof.
  intros (i & (_ & Hi & _)%named_intent_ok & Hb & _ & _ & _ & H)%AcknowledgeCancellation_ok.
  destruct H as [(old & Hold & _ & _ & ->) | [Hn Hack]].
  - split_and!; [done.. |]. exists i. split_and!; [done.. |]. congruence.
  - pose proof (acknowledged_le _ _ _ _ _ _ _ Hn Hack) as Hle.
    destruct Hack as [_ (old & Ho & Hseq & Hst & Hch & ->) _ Hput].
    apply put_cancellation_ok in Hput as (cs & ops & Hm & _ & ->).
    split_and!; [done.. |]. exists i. split_and!; [done.. |]. intros _. exists old.
    split_and!; try done.
    + by eapply mget_mset_eq.
    + intros E. simpl in *. by destruct (Hch E).
Qed.
