(* ===== verification/Recovery.v ===== *)
(** * Owner recovery of stuck protections

    [internal/governance/sessions/recovery.go]: [ConfigureRecovery],
    [recoveryTarget], [OwnerRecoveryTarget] and [Recover].  [UpgradeRecovery]
    is with the other migrations (Schema); [reservationRetained],
    [historicalWorkerFamily] and [recoveryTaskWithdrawn] are in Withdrawal. *)

From S2P Require Import Prelude GoStd Disclosure State Session Withdrawal Resources Leases Lifecycle.
#[local] Open Scope Z_scope.

Record RecoveryRequest := mkRecoveryRequest {
  RQ_OperationKey : string; RQ_Target : RecoveryTarget;
  RQ_Mode : string; RQ_Rationale : string; RQ_Uncertainty : string; RQ_ReleaseRisk : string;
  RQ_PolicyRevision : string;
  RQ_ObservationSequence : Z; RQ_EvidenceDigest : string
}.

#[export] Instance RecoveryTarget_json : ToJSON RecoveryTarget := fun t =>
  JObject [("Workspace", JString (RT_Workspace t)); ("Kind", JString (RT_Kind t));
           ("TaskID", JString (RT_TaskID t)); ("DispatchID", JString (RT_DispatchID t));
           ("IntentID", JString (RT_IntentID t)); ("AttemptID", JString (RT_AttemptID t));
           ("ProtectionID", JString (RT_ProtectionID t)); ("SessionID", JString (RT_SessionID t));
           ("WorkerFamilyID", JString (RT_WorkerFamilyID t));
           ("Repository", JString (RT_Repository t)); ("Checkout", JString (RT_Checkout t));
           ("ExpectedFence", JInt (RT_ExpectedFence t))]%string.
#[export] Instance RecoveryRequest_json : ToJSON RecoveryRequest := fun r =>
  JObject [("OperationKey", JString (RQ_OperationKey r)); ("Target", to_json (RQ_Target r));
           ("Mode", JString (RQ_Mode r)); ("Rationale", JString (RQ_Rationale r));
           ("Uncertainty", JString (RQ_Uncertainty r)); ("ReleaseRisk", JString (RQ_ReleaseRisk r));
           ("PolicyRevision", JString (RQ_PolicyRevision r));
           ("ObservationSequence", JInt (RQ_ObservationSequence r));
           ("EvidenceDigest", JString (RQ_EvidenceDigest r))]%string.

Definition recovery_digest (req : RecoveryRequest) : string :=
  hash (default ""%string (marshal (to_json req))).
#[global] Opaque recovery_digest.

Definition recovery_policy_ok (p : RecoveryPolicy) : bool :=
  negb (negb (RP_SchemaVersion p =? 1) || negb (validID (RP_ProjectID p))
        || negb (validID (RP_Revision p)) || blank (RP_Rationale p) || (8192 <? len (RP_Rationale p))).

Definition ConfigureRecovery (owner : string) (p : RecoveryPolicy) : tx unit := fun s =>
  deny_if ((Version s <? 10) || not_owner s owner || negb (recovery_policy_ok p));;
  deny_if (negb (mhas (swarm_policies s) (RP_ProjectID p)));;
  let rc := st_Recovery s in
  let revisions := default ∅ (mget (RecoveryPolicyHistory rc) (RP_ProjectID p)) in
  match revisions !! RP_Revision p with
  | Some old => deny_if (negb (bool_decide (old = p)));; Ok (tt, s)
  | None =>
    h ← mset (RecoveryPolicyHistory rc) (RP_ProjectID p) (<[RP_Revision p := p]> revisions);
    c ← mset (RecoveryPolicies rc) (RP_ProjectID p) p;
    Ok (tt, s <| st_Recovery := rc <| RecoveryPolicyHistory := h |> <| RecoveryPolicies := c |> |>)
  end.

(** The loop over the dispatches in the "lease" case: the identifiers of the
    one converted dispatch behind the lease and of its intent. *)
Fixpoint lease_dispatch (s : state) (id : string) (ds : list DispatchReservation)
    (dispatch intent : string) : res (string * string) :=
  match ds with
  | [] => Ok (dispatch, intent)
  | d :: ds =>
    if DR_Converted d && (Lease_ID (DR_Reservation d) =? id)%string then
      deny_if (negb (dispatch =? "")%string);;
      lease_dispatch s id ds (DR_ID d)
        (match mget (intents s) (DR_ID d) with Some i => DI_ID i | None => intent end)
    else lease_dispatch s id ds dispatch intent
  end.

(** The [switch] on [kind]: the protecting lease and the dispatch, intent and
    session of the target. *)
Definition recovery_protection (s : state) (kind id : string)
    : res (Lease * string * string * string) :=
  if (kind =? "reservation")%string then
    d ← must (mget (dispatches s) id);
    deny_if (negb (reservationRetained s d));;
    Ok (match mget (intents s) (DR_ID d) with
        | Some i => (DR_Reservation d, DR_ID d, DI_ID i, DI_WorkerSessionID i)
        | None => (DR_Reservation d, DR_ID d, ""%string, ""%string)
        end)
  else if (kind =? "lease")%string then
    l ← must (mget (Leases s) id);
    deny_if (Lease_Released l);;
    '(dispatch, intent) ← lease_dispatch s id (mvals (dispatches s)) "" "";
    Ok (l, dispatch, intent, Lease_SessionID l)
  else Err ErrDenied.

Definition recoveryTarget (s : state) (kind id : string) : res (RecoveryTarget * Lease) :=
  '(l, dispatch, intent, session) ← recovery_protection s kind id;
  family ← (if (session =? "")%string then Ok ""%string else historicalWorkerFamily s session);
  Ok (mkRecoveryTarget (Binding_Workspace (st_Binding s)) kind (Lease_TaskID l) dispatch intent
        (Lease_AttemptID l) id session family (Lease_Repository l) (Lease_Checkout l)
        (Lease_Fence l), l).

Definition OwnerRecoveryTarget (owner kind id : string) (s : state) : res RecoveryTarget :=
  deny_if ((Version s <? 10) || not_owner s owner);;
  '(t, _) ← recoveryTarget s kind id;
  Ok t.

(** The [switch] on [req.Mode]: the observation the receipt cites. *)
Definition recovery_evidence (s : state) (req : RecoveryRequest) (target : RecoveryTarget)
    : res (option LifecycleObservation) :=
  if (RQ_Mode req =? "owner-reconciliation")%string then
    deny_if (blank (RQ_Uncertainty req) || blank (RQ_ReleaseRisk req)
             || (8192 <? len (RQ_Uncertainty req)) || (8192 <? len (RQ_ReleaseRisk req))
             || negb (RQ_PolicyRevision req =? "")%string || negb (RQ_ObservationSequence req =? 0)
             || negb (RQ_EvidenceDigest req =? "")%string);;
    Ok None
  else if (RQ_Mode req =? "authenticated-terminal")%string then
    binding ← must (mget (Tasks s) (RT_TaskID target));
    p ← must (mget (RecoveryPolicies (st_Recovery s)) (TB_ProjectID binding));
    deny_if (negb (RP_AcceptCooperativeTerminal p)
             || negb (RP_Revision p =? RQ_PolicyRevision req)%string
             || (RT_DispatchID target =? "")%string || (RT_IntentID target =? "")%string);;
    o ← must (list.last (history s (RT_DispatchID target)));
    i ← must (mget (intents s) (RT_DispatchID target));
    deny_if (negb (lifecycleTerminal (LO_State o))
             || negb (LO_Sequence o =? RQ_ObservationSequence req)
             || negb (LO_EvidenceDigest o =? RQ_EvidenceDigest req)%string
             || negb (LO_Assurance o =? "cooperative-owner-provisioned-bridge")%string
             || negb (bool_decide (LO_Binding o = lifecycleBinding i)));;
    Ok (Some o)
  else Err ErrDenied.

(** The key of a tombstone: [Kind + ":" + ProtectionID]. *)
Definition tombstone_key (kind id : string) : string := (kind ++ ":" ++ id)%string.

Definition Recover (e : Env) (owner : string) (req : RecoveryRequest) : tx RecoveryReceipt :=
  fun s =>
  deny_if ((Version s <? 10) || not_owner s owner || negb (validID (RQ_OperationKey req)));;
  let digest := recovery_digest req in
  match mget (RecoveryOperations (st_Recovery s)) (RQ_OperationKey req) with
  | Some r => deny_if (negb (RRc_RequestDigest r =? digest)%string);; Ok (r, s)
  | None =>
    deny_if (mhas (recoveries s) (tombstone_key (RT_Kind (RQ_Target req)) (RT_ProtectionID (RQ_Target req))));;
    '(target, l) ← recoveryTarget s (RT_Kind (RQ_Target req)) (RT_ProtectionID (RQ_Target req));
    deny_if (negb (bool_decide (target = RQ_Target req)) || (RT_ExpectedFence target =? 0)
             || (Fence s =? max_uint64) || blank (RQ_Rationale req) || (8192 <? len (RQ_Rationale req)));;
    observation ← recovery_evidence s req target;
    id ← mint e 0;
    let previous := Fence s in
    let fence := incr_u64 previous in
    let result := mkRecoveryReceipt id (RQ_OperationKey req) digest ("owner:" ++ OwnerHash s)
      (RQ_Mode req) (RQ_Rationale req) (RQ_Uncertainty req) (RQ_ReleaseRisk req)
      (RQ_PolicyRevision req) target observation (Lease_Resources l) previous fence (now e 0) in
    rs ← mset (recoveries s) (tombstone_key (RT_Kind target) (RT_ProtectionID target)) result;
    ops ← mset (RecoveryOperations (st_Recovery s)) (RQ_OperationKey req) result;
    leases ← (if (RT_Kind target =? "lease")%string
              then mset (Leases s) (Lease_ID l) (l <| Lease_Released := true |>)
              else Ok (Leases s));
    Ok (result, s <| Fence := fence |> <| Leases := leases |>
                  <| st_Recovery := (st_Recovery s) <| Recoveries := rs |> <| RecoveryOperations := ops |> |>)
  end.

#[global] Arguments recovery_policy_ok : simpl never.
#[global] Arguments recovery_protection : simpl never.
#[global] Arguments recoveryTarget : simpl never.
#[global] Arguments recovery_evidence : simpl never.
#[global] Arguments tombstone_key : simpl never.
#[global] Arguments recoveries : simpl never.

(** ** What a successful run went through *)

Lemma recoveryTarget_ok s kind id t l :
  recoveryTarget s kind id = Ok (t, l) ->
  RT_Kind t = kind /\ RT_ProtectionID t = id /\ RT_TaskID t = Lease_TaskID l
  /\ RT_ExpectedFence t = Lease_Fence l
  /\ (RT_SessionID t <> ""%string -> rtc (up s) (RT_SessionID t) (RT_WorkerFamilyID t)
        /\ up s (RT_WorkerFamilyID t) "")
  /\ ((kind = "reservation"%string /\ exists d, mget (dispatches s) id = Some d
         /\ reservationRetained s d = true /\ l = DR_Reservation d /\ RT_DispatchID t = DR_ID d)
      \/ (kind = "lease"%string /\ mget (Leases s) id = Some l /\ Lease_Released l = false
          /\ RT_SessionID t = Lease_SessionID l)).
Proof.
  unfold recoveryTarget, recovery_protection. intros H.
  apply bind_ok in H as ([[[l' dispatch] intent] session] & Hp & H).
  apply bind_ok in H as (family & Hf & H). injection H as <- <-. simpl.
  split_and!; try done.
  - intros Hne. rewrite (proj2 (String.eqb_neq _ _) Hne) in Hf. by apply historicalWorkerFamily_ok.
  - destruct (String.eqb_spec kind "reservation") as [-> | _].
    + left. split; [done |]. apply bind_ok in Hp as (d & Hd%must_ok & Hp).
      apply bind_ok in Hp as (? & Hr%deny_if_ok & Hp). bool_facts.
      exists d. destruct (mget (intents s) (DR_ID d)); injection Hp as <- <- <- <-; done.
    + destruct (String.eqb_spec kind "lease") as [-> | _]; [| done].
      right. split; [done |]. apply bind_ok in Hp as (q & Hq%must_ok & Hp).
      apply bind_ok in Hp as (? & Hr%deny_if_ok & Hp).
      apply bind_ok in Hp as ([? ?] & _ & Hp). by injection Hp as <- <- <- <-.
Qed.

(** A recovery recorded under a new key. *)
Record recovered (e : Env) (req : RecoveryRequest) (l : Lease) (s : state)
    (r : RecoveryReceipt) (s' : state) : Prop := {
  rec_first : mget (recoveries s)
    (tombstone_key (RT_Kind (RQ_Target req)) (RT_ProtectionID (RQ_Target req))) = None;
  rec_target : recoveryTarget s (RT_Kind (RQ_Target req)) (RT_ProtectionID (RQ_Target req))
    = Ok (RQ_Target req, l);
  rec_fence : RT_ExpectedFence (RQ_Target req) <> 0 /\ Fence s <> max_uint64;
  rec_evidence : recovery_evidence s req (RQ_Target req) = Ok (RRc_Observation r);
  rec_receipt : RRc_Target r = RQ_Target req /\ RRc_PreviousGlobalFence r = Fence s
    /\ RRc_GlobalFence r = incr_u64 (Fence s) /\ RRc_ReleasedResources r = Lease_Resources l
    /\ RRc_RequestDigest r = recovery_digest req;
  rec_state : exists rs ops leases,
    mset (recoveries s) (tombstone_key (RT_Kind (RQ_Target req)) (RT_ProtectionID (RQ_Target req))) r
      = Ok rs
    /\ mset (RecoveryOperations (st_Recovery s)) (RQ_OperationKey req) r = Ok ops
    /\ (if (RT_Kind (RQ_Target req) =? "lease")%string
        then mset (Leases s) (Lease_ID l) (l <| Lease_Released := true |>) = Ok leases
        else leases = Leases s)
    /\ s' = s <| Fence := incr_u64 (Fence s) |> <| Leases := leases |>
              <| st_Recovery := (st_Recovery s) <| Recoveries := rs |> <| RecoveryOperations := ops |> |>
}.

Lemma Recover_ok e owner req s r s' :
  Recover e owner req s = Ok (r, s') ->
  not_owner s owner = false /\ validID (RQ_OperationKey req) = true
  /\ ((mget (RecoveryOperations (st_Recovery s)) (RQ_OperationKey req) = Some r
        /\ RRc_RequestDigest r = recovery_digest req /\ s' = s)
      \/ (mget (RecoveryOperations (st_Recovery s)) (RQ_OperationKey req) = None
          /\ exists l, recovered e req l s r s')).
Proof.
  unfold Recover. intros H. apply bind_ok in H as (? & Hg%deny_if_ok & H). bool_facts.
  split_and!; [done.. |].
  destruct (mget (RecoveryOperations _) _) as [old |].
  - left. apply bind_ok in H as (? & Hd%deny_if_ok & H). injection H as <- <-. by bool_facts.
  - right. split; [done |].
    apply bind_ok in H as (? & Hf%deny_if_ok & H). apply bind_ok in H as ([t l] & Ht & H).
    apply bind_ok in H as (? & Hc%deny_if_ok & H). bool_facts. subst t. exists l.
    apply bind_ok in H as (o & Ho & H). apply bind_ok in H as (id & Hid & H).
    apply bind_ok in H as (rs & Hrs & H). apply bind_ok in H as (ops & Hops & H).
    apply bind_ok in H as (leases & Hls & H). injection H as <- <-. rewrite mhas_false in Hf.
    constructor; try done. exists rs, ops, leases. split_and!; try done.
    destruct (_ =? "lease")%string; [done | by injection Hls].
Qed.

(** ** Tombstones *)

(** Recovery receipts and tombstones are never removed or rewritten. *)
Definition recovery_le (s s' : state) : Prop :=
  (forall k r, mget (recoveries s) k = Some r -> mget (recoveries s') k = Some r)
  /\ (forall k r, mget (RecoveryOperations (st_Recovery s)) k = Some r ->
        mget (RecoveryOperations (st_Recovery s')) k = Some r).

#[export] Instance recovery_le_preorder : PreOrder recovery_le.
Proof. split; [intros s; by split | intros s1 s2 s3 [? ?] [? ?]; split; auto]. Qed.

Lemma recovery_le_same s s' : st_Recovery s' = st_Recovery s -> recovery_le s s'.
Proof. intros E. unfold recovery_le, recoveries. by rewrite E. Qed.

Lemma ConfigureRecovery_ok owner p s x s' :
  ConfigureRecovery owner p s = Ok (x, s') ->
  not_owner s owner = false /\ recovery_policy_ok p = true
  /\ (s' = s \/ exists h c revisions,
        mset (RecoveryPolicyHistory (st_Recovery s)) (RP_ProjectID p) revisions = Ok h
        /\ mset (RecoveryPolicies (st_Recovery s)) (RP_ProjectID p) p = Ok c
        /\ s' = s <| st_Recovery := (st_Recovery s)
             <| RecoveryPolicyHistory := h |> <| RecoveryPolicies := c |> |>).
Proof.
  unfold ConfigureRecovery. intros H.
  apply bind_ok in H as (? & Hg%deny_if_ok & H). apply bind_ok in H as (? & Hs%deny_if_ok & H).
  bool_facts. split_and!; [done.. |].
  destruct (_ !! RP_Revision p) as [old |] eqn:E; inv_ok; simplify_eq; [by left | right; eauto 10].
Qed.

Lemma recovered_le e req l s r s' :
  mget (RecoveryOperations (st_Recovery s)) (RQ_OperationKey req) = None ->
  recovered e req l s r s' -> recovery_le s s'.
Proof.
  intros Hn [Hf _ _ _ _ (rs & ops & ls & Hrs & Hops & _ & ->)]. split; intros k q Hk; simpl.
  - unfold recoveries. simpl. rewrite (mget_mset_ne _ _ _ _ _ Hrs); [done |].
    intros E. rewrite E in Hf. congruence.
  - by rewrite (mget_mset_ne _ _ _ _ _ Hops) by congruence.
Qed.

Lemma tombstone_reservation id : tombstone_key "reservation" id = ("reservation:" ++ id)%string.
Proof. reflexivity. Qed.

Lemma recovered_inv_le e req l s r s' :
  lease_inv s -> recovered e req l s r s' -> lease_inv s' /\ lease_le s s'.
Proof.
  intros Hinv [Hf (Hk & Hid & _ & _ & _ & Hcase)%recoveryTarget_ok [_ Hmax] _ _
    (rs & ops & ls & Hrs & _ & Hls & ->)].
  pose proof (inv_global _ Hinv) as Hg.
  assert (incr_u64 (Fence s) = Fence s + 1) as Hfence by (apply incr_u64_small; lia).
  assert (forall k q, mget (Leases s) k = Some q -> exists q', mget ls k = Some q'
    /\ same_lease q q' /\ (Lease_Released q = true -> q' = q)
    /\ (Lease_Released q' = false -> Lease_Released q = false)) as Hto.
  { intros k q Hq. destruct (String.eqb_spec (RT_Kind (RQ_Target req)) "lease") as [E | E].
    - destruct Hcase as [[? _] | (_ & Hl & Hrel & _)]; [congruence |].
      destruct (inv_key _ Hinv _ _ Hl) as [El _].
      rewrite (mget_mset _ _ _ _ _ Hls). case_decide as Ek; [| by exists q].
      rewrite El in Ek. rewrite <- Ek, Hl in Hq. injection Hq as <-.
      eexists. split; [done |]. split; [done |]. split; [congruence | done].
    - subst ls. by exists q. }
  assert (forall k q', mget ls k = Some q' -> is_Some (mget (Leases s) k)) as Hfrom.
  { intros k q' Hq. destruct (String.eqb_spec (RT_Kind (RQ_Target req)) "lease") as [E | E].
    - destruct Hcase as [[? _] | (_ & Hl & _ & _)]; [congruence |].
      destruct (inv_key _ Hinv _ _ Hl) as [El _].
      rewrite (mget_mset _ _ _ _ _ Hls) in Hq. case_decide as Ek; [| by eexists].
      rewrite <- Ek, El. by eexists.
    - subst ls. by eexists. }
  split.
  - apply (lease_inv_shrink s); simpl; [done | lia | |].
    + intros k q' Hq. destruct (Hfrom _ _ Hq) as [q Hq0]. destruct (Hto _ _ Hq0) as (x & Hx & ? & _ & ?).
      rewrite Hq in Hx. injection Hx as <-. exists q. done.
    + intros k d Hd [Hc Hn]%reservationRetained_true. exists d. split_and!; try done.
      apply reservationRetained_true. split; [done |]. unfold recoveries in Hn. simpl in Hn.
      rewrite (mget_mset _ _ _ _ _ Hrs) in Hn. by case_decide.
  - split; simpl; [lia |]. intros k q Hq. destruct (Hto _ _ Hq) as (q' & ? & ? & ? & _). by exists q'.
Qed.

(** ** Properties *)

(** a recovery recorded under a new key describes the protection exactly as
    it stands, advances the global fence without wrapping, leaves a tombstone
    and releases precisely that protection: a recovered lease is released, a
    recovered reservation is no longer retained, the worker family has lost the
    task, and every other lease is untouched. *)
Theorem Recover_effect e owner req s r s' child :
  lease_inv s ->
  mget (RecoveryOperations (st_Recovery s)) (RQ_OperationKey req) = None ->
  Recover e owner req s = Ok (r, s') ->
  exists l, recoveryTarget s (RT_Kind (RQ_Target req)) (RT_ProtectionID (RQ_Target req))
            = Ok (RRc_Target r, l)
  /\ RRc_Target r = RQ_Target req /\ RRc_ReleasedResources r = Lease_Resources l
  /\ Fence s' = Fence s + 1 /\ Fence s' <= max_uint64 /\ RRc_GlobalFence r = Fence s'
  /\ mget (recoveries s') (tombstone_key (RT_Kind (RRc_Target r)) (RT_ProtectionID (RRc_Target r))) = Some r
  /\ (RT_Kind (RRc_Target r) = "lease"%string ->
        mget (Leases s') (Lease_ID l) = Some (l <| Lease_Released := true |>))
  /\ (RT_Kind (RRc_Target r) = "reservation"%string -> forall d,
        DR_ID d = RT_ProtectionID (RRc_Target r) -> reservationRetained s' d = false)
  /\ (RT_WorkerFamilyID (RRc_Target r) <> ""%string ->
        rtc (up s') child (RT_WorkerFamilyID (RRc_Target r)) ->
        workerTaskWithdrawn s' child (RT_TaskID (RRc_Target r)) = true)
  /\ (forall k, k <> Lease_ID l -> mget (Leases s') k = mget (Leases s) k).
Proof.
  intros Hinv Hn (_ & _ & [(? & _) | (_ & l & Hrec)])%Recover_ok; [congruence |].
  destruct Hrec as [Hf Ht [_ Hmax] _ (Et & _ & Eg & Er & _) (rs & ops & ls & Hrs & _ & Hls & ->)].
  pose proof (inv_global _ Hinv) as Hg.
  assert (incr_u64 (Fence s) = Fence s + 1) as Hfence by (apply incr_u64_small; lia).
  exists l. rewrite Et, Eg. simpl. rewrite Hfence.
  pose proof (mget_mset_eq _ _ _ _ Hrs) as Hstone.
  split_and!; try done; [lia | | | |].
  - intros E. rewrite E in Hls. simpl in Hls. by eapply mget_mset_eq.
  - intros E d Hd. apply not_true_iff_false. intros [_ Hnone]%reservationRetained_true.
    unfold recoveries in Hnone. simpl in Hnone. rewrite Hd in Hnone.
    rewrite E, tombstone_reservation in Hstone. congruence.
  - intros Hne Hup. apply workerTaskWithdrawn_true.
    eapply withdrawn_recovery; [exact Hstone | by rewrite Et | by rewrite Et | by rewrite Et].
  - intros k Hk. destruct (_ =? "lease")%string; [| by subst ls].
    by apply (mget_mset_ne _ _ _ _ _ Hls).
Qed.

(** a protection is recovered at most once: when its tombstone exists, in
    every later state a recovery of it either fails or replays the receipt of
    its own operation key for the very same request, changing nothing. *)
Theorem Recover_once s later e owner req r0 r s' :
  mget (recoveries s) (tombstone_key (RT_Kind (RQ_Target req)) (RT_ProtectionID (RQ_Target req))) = Some r0 ->
  recovery_le s later -> Recover e owner req later = Ok (r, s') ->
  s' = later /\ RRc_RequestDigest r = recovery_digest req
  /\ mget (RecoveryOperations (st_Recovery later)) (RQ_OperationKey req) = Some r.
Proof.
  intros H0 [Hle _] (_ & _ & [(? & ? & ->) | (_ & l & [Hf _ _ _ _ _])])%Recover_ok; [done |].
  apply Hle in H0. congruence.
Qed.
