(* ===== verification/Evidence.v ===== *)
(** * Revisions, verification grants and evidence

    [internal/governance/sessions/evidence.go]: [PublishAttemptRevision],
    [GrantVerification], [RevokeVerification], [SubmitEvidence], the
    verification protocol [BeginVerification] / [CompleteVerification] /
    [InterruptVerification] / [LookupVerification] with its observers, and
    [EligibleVerification].  [UpgradeEvidence] is with the other migrations
    (Schema). *)

From S2P Require Import Prelude GoStd Disclosure State Session Withdrawal Resources Attempts Leases Lifecycle.
#[local] Open Scope Z_scope.

Record PublishRevisionRequest := mkPublishRevision {
  PR_OperationKey : string; PR_AttemptID : string; PR_LeaseID : string;
  PR_ExpectedFence : Z; PR_ExpectedRevision : Z
}.
Record CheckDescriptor := mkCheckDescriptor {
  CD_ID : string; CD_Command : string;
  CD_Deadline : Z;
  CD_Version : Z; CD_Argv : list string; CD_Cwd : string; CD_Environment : string;
  CD_RoutingDigest : string; CD_RoutingBytesDigest : string; CD_BaseCommit : string
}.
Record EvidenceRequest := mkEvidenceRequest {
  ER_OperationKey : string; ER_AttemptID : string; ER_LeaseID : string; ER_RevisionID : string;
  ER_CheckID : string;
  ER_ExpectedFence : Z; ER_ExitCode : Z;
  ER_OutputDigest : string
}.
(** [Output] is [None] for a nil slice. *)
Record VerificationResult := mkVerificationResult {
  VRes_Commit : string; VRes_Tree : string; VRes_Directory : string;
  VRes_CommandDigest : string; VRes_OutputDigest : string;
  VRes_Output : option string; VRes_ExitCode : Z; VRes_Clean : bool
}.
Record VerificationInterruption := mkInterruption {
  VI_RunnerSession : string; VI_Reason : string; VI_ResultDigest : string;
  VI_Assurance : string; VI_Request : VerificationRequest
}.
Inductive VerificationOperationState :=
  | VerificationAbsent | VerificationPending | VerificationCompleted | VerificationInterrupted.
Record VerificationLookup := mkLookup {
  VL_Interruption : option VerificationInterruption; VL_State : VerificationOperationState;
  VL_Evidence : option Evidence
}.

#[export] Instance PublishRevisionRequest_json : ToJSON PublishRevisionRequest := fun r =>
  JObject [("OperationKey", JString (PR_OperationKey r)); ("AttemptID", JString (PR_AttemptID r));
           ("LeaseID", JString (PR_LeaseID r)); ("ExpectedFence", JInt (PR_ExpectedFence r));
           ("ExpectedRevision", JInt (PR_ExpectedRevision r))]%string.
#[export] Instance EvidenceRequest_json : ToJSON EvidenceRequest := fun r =>
  JObject [("OperationKey", JString (ER_OperationKey r)); ("AttemptID", JString (ER_AttemptID r));
           ("LeaseID", JString (ER_LeaseID r)); ("RevisionID", JString (ER_RevisionID r));
           ("CheckID", JString (ER_CheckID r)); ("ExpectedFence", JInt (ER_ExpectedFence r));
           ("ExitCode", JInt (ER_ExitCode r)); ("OutputDigest", JString (ER_OutputDigest r))]%string.
#[export] Instance VerificationRequest_json : ToJSON VerificationRequest := fun r =>
  JObject [("OperationKey", JString (VR_OperationKey r)); ("WorkerSession", JString (VR_WorkerSession r));
           ("AttemptID", JString (VR_AttemptID r)); ("LeaseID", JString (VR_LeaseID r));
           ("RevisionID", JString (VR_RevisionID r)); ("CheckID", JString (VR_CheckID r));
           ("GrantID", JString (VR_GrantID r)); ("ExpectedFence", JInt (VR_ExpectedFence r))]%string.
#[export] Instance VerificationResult_json : ToJSON VerificationResult := fun r =>
  JObject [("Commit", JString (VRes_Commit r)); ("Tree", JString (VRes_Tree r));
           ("Directory", JString (VRes_Directory r)); ("CommandDigest", JString (VRes_CommandDigest r));
           ("OutputDigest", JString (VRes_OutputDigest r));
           ("Output", match VRes_Output r with Some b => JBytes b | None => JNull end);
           ("ExitCode", JInt (VRes_ExitCode r)); ("Clean", JBool (VRes_Clean r))]%string.

(** [`json:",omitempty"`] on a string *)
Definition omit_empty (name value : string) : list (string * json) :=
  if (value =? "")%string then [] else [(name, JString value)].

#[export] Instance CheckDescriptor_json : ToJSON CheckDescriptor := fun c =>
  JObject ([("ID", JString (CD_ID c)); ("Command", JString (CD_Command c));
            ("Deadline", JInt (CD_Deadline c))]%string
           ++ (if CD_Version c =? 0 then [] else [("Version"%string, JInt (CD_Version c))])
           ++ (match CD_Argv c with [] => [] | l => [("Argv"%string, JStrings l)] end)
           ++ omit_empty "Cwd" (CD_Cwd c) ++ omit_empty "Environment" (CD_Environment c)
           ++ omit_empty "RoutingDigest" (CD_RoutingDigest c)
           ++ omit_empty "RoutingBytesDigest" (CD_RoutingBytesDigest c)
           ++ omit_empty "BaseCommit" (CD_BaseCommit c)).

(** The anonymous struct of [CheckDigest]. *)
Record LegacyCheck := mkLegacyCheck { LgC_ID : string; LgC_Command : string; LgC_Deadline : Z }.
#[export] Instance LegacyCheck_json : ToJSON LegacyCheck := fun c =>
  JObject [("ID", JString (LgC_ID c)); ("Command", JString (LgC_Command c));
           ("Deadline", JInt (LgC_Deadline c))]%string.

Definition CheckDigest (c : CheckDescriptor) : string :=
  if (CD_Version c =? 0) || (CD_Version c =? 1)
  then identity "check" "" (mkLegacyCheck (CD_ID c) (CD_Command c) (CD_Deadline c))
  else identity "check" "" c.

(** [validVerificationText]; in a valid string no rune is [None]. *)
Definition validVerificationText (s : string) : bool :=
  ValidString s
  && forallb (fun r => match r with Some z => negb (IsControl z) | None => true end) (runes s).

Definition ValidCheckDescriptor (c : CheckDescriptor) : bool :=
  if negb (validID (CD_ID c)) || (CD_Deadline c <=? 0) || (10 * minute <? CD_Deadline c) then false
  else if (CD_Version c =? 0) || (CD_Version c =? 1) then
    negb (blank (CD_Command c)) && bool_decide (CD_Argv c = []) && (CD_Cwd c =? "")%string
    && (CD_Environment c =? "")%string && (CD_RoutingDigest c =? "")%string
    && (CD_RoutingBytesDigest c =? "")%string && (CD_BaseCommit c =? "")%string
  else if negb (CD_Version c =? 2) || negb (CD_Command c =? "")%string
          || bool_decide (CD_Argv c = []) || (128 <? Z.of_nat (List.length (CD_Argv c)))
          || blank (hd ""%string (CD_Argv c))
          || negb (CD_Environment c =? "verification-sanitized-v1")%string
          || (CD_Cwd c =? "")%string || negb (Clean (CD_Cwd c) =? CD_Cwd c)%string
          || HasPrefix (CD_Cwd c) "/" || (CD_Cwd c =? "..")%string || HasPrefix (CD_Cwd c) "../"
          || ContainsAny (CD_Cwd c) [backslash; NUL; CR; LF] || negb (validVerificationText (CD_Cwd c))
  then false
  else if negb (forallb validVerificationText (CD_Argv c)) then false
  else (fold_left Z.add (map len (CD_Argv c)) 0 <=? 16384) && negb (CD_RoutingDigest c =? "")%string
       && negb (CD_RoutingBytesDigest c =? "")%string && negb (CD_BaseCommit c =? "")%string.

Definition OutputDigest (output : string) : string := ("sha256:" ++ hash output)%string.

(** ** Current work *)

(** A receipt stored under a used key: [None] when the key is new. *)
Definition replay {A} (s : state) (key digest : string) (select : operation -> option A)
    : option (res A) :=
  match mget (Operations s) key with
  | Some op => Some (if negb (op_Digest op =? digest)%string then Err ErrDenied else must (select op))
  | None => None
  end.

Definition put_operation (s : state) (key : string) (op : operation) : res state :=
  ops ← mset (Operations s) key op; Ok (s <| Operations := ops |>).

(** [activeAttempt]; its two clock readings are [i] and [S i]. *)
Definition activeAttempt (e : Env) (i : nat) (s : state)
    (token session attempt lease : string) (fence : Z) (action : string) : res Attempt :=
  '(_, at_) ← leaseAuth s token session attempt action (now e i);
  l ← must (mget (Leases s) lease);
  deny_if (negb (Lease_AttemptID l =? attempt)%string || negb (Lease_SessionID l =? session)%string
           || negb (Lease_Fence l =? fence) || negb (currentLease s l (now e (S i))));;
  Ok at_.

Definition sameCheckout (a : Attempt) (obs : CheckoutObservation) : bool :=
  (Locator obs =? Locator (Attempt_Observation a))%string
  && (Repository obs =? Repository (Attempt_Observation a))%string.

Definition revisions (s : state) (attempt : string) : list AttemptRevision :=
  default [] (mget (Revisions s) attempt).

Definition PublishAttemptRevision (e : Env) (token session : string) (req : PublishRevisionRequest)
    : tx AttemptRevision := fun s =>
  '(_, at_) ← leaseAuth s token session (PR_AttemptID req) "attempt.publish" (now e 0);
  deny_if (negb (validID (PR_OperationKey req)));;
  let digest := identity "revision" session req in
  match replay s (PR_OperationKey req) digest op_Revision with
  | Some old => r ← old; Ok (r, s)
  | None =>
    activeAttempt e 1 s token session (PR_AttemptID req) (PR_LeaseID req) (PR_ExpectedFence req)
      "attempt.publish";;
    let h := revisions s (Attempt_ID at_) in
    deny_if (negb (u64_length h =? PR_ExpectedRevision req) || (PR_ExpectedRevision req =? max_uint64));;
    obs ← must (observe e 0 (Locator (Attempt_Observation at_)));
    deny_if (negb (sameCheckout at_ obs));;
    activeAttempt e 3 s token session (PR_AttemptID req) (PR_LeaseID req) (PR_ExpectedFence req)
      "attempt.publish";;
    id ← mint e 0;
    let result := mkRevision id (Attempt_ID at_) session (PR_LeaseID req)
      (incr_u64 (PR_ExpectedRevision req)) (PR_ExpectedFence req) obs (now e 5) in
    m ← mset (Revisions s) (Attempt_ID at_) (h ++ [result]);
    s' ← put_operation (s <| Revisions := m |>) (PR_OperationKey req)
           ((new_operation digest) <| op_Revision := Some result |>);
    Ok (result, s')
  end.

Definition currentRevisionExcept (s : state) (a : Attempt) (id lease : string) (fence : Z)
    (closing : string) : res AttemptRevision :=
  deny_if (workerTaskWithdrawnExcept s (Attempt_SessionID a) (at_task a) closing);;
  rev ← must (list.last (revisions s (Attempt_ID a)));
  deny_if (negb (Rev_ID rev =? id)%string || negb (Rev_LeaseID rev =? lease)%string
           || negb (Rev_Fence rev =? fence));;
  Ok rev.

Definition currentRevision (s : state) (a : Attempt) (id lease : string) (fence : Z)
    : res AttemptRevision := currentRevisionExcept s a id lease fence "".

(** [observeRevision]; the observation is the [k]-th of the transaction. *)
Definition observeRevision (e : Env) (k : nat) (a : Attempt) (rev : AttemptRevision) : res unit :=
  obs ← must (observe e k (Locator (Attempt_Observation a)));
  deny_if (negb (sameCheckout a obs) || negb (Commit obs =? Commit (Rev_Observation rev))%string
           || negb (Tree obs =? Tree (Rev_Observation rev))%string).

(** ** Grants *)

Definition put_grant (s : state) (id : string) (g : VerificationGrant) : res state :=
  m ← mset (Grants s) id g; Ok (s <| Grants := m |>).

Definition GrantVerification (e : Env) (owner runner task repository : string)
    (check : CheckDescriptor) (expires : time) : tx VerificationGrant := fun s =>
  deny_if (not_owner s owner);;
  r ← must (mget (Sessions s) runner);
  b ← must (mget (Tasks s) task);
  deny_if (negb (r_Parent r =? "")%string || r_Revoked r || negb (now e 0 <? r_ExpiresAt r)
           || negb (subset ["verification.run"%string] (r_Actions r))
           || negb (subset [task_resource task] (r_Resources r))
           || negb (TB_Repository b =? repository)%string || negb (ValidCheckDescriptor check)
           || negb (now e 1 <? expires) || (r_ExpiresAt r <? expires));;
  id ← mint e 0;
  let result := mkGrant id runner task repository (CD_ID check) (CheckDigest check) expires false in
  s' ← put_grant s id result;
  Ok (result, s').

Definition RevokeVerification (owner id : string) : tx unit := fun s =>
  deny_if (not_owner s owner);;
  g ← must (mget (Grants s) id);
  s' ← put_grant s id (g <| VG_Revoked := true |>);
  Ok (tt, s').

(** [runnerAuth]; its two clock readings are [i] and [S i]. *)
Definition runnerAuth (e : Env) (i : nat) (s : state) (token session : string)
    (req : VerificationRequest) (a : Attempt) (descriptor : string) : res VerificationGrant :=
  r ← authenticate s token session (now e i);
  g ← must (mget (Grants s) (VR_GrantID req));
  deny_if (negb (r_Parent r =? "")%string || VG_Revoked g || negb (now e (S i) <? VG_ExpiresAt g)
           || negb (VG_RunnerSession g =? r_ID r)%string || (r_ID r =? VR_WorkerSession req)%string
           || negb (VG_TaskID g =? at_task a)%string
           || negb (VG_Repository g =? Repository (Attempt_Observation a))%string
           || negb (VG_CheckID g =? VR_CheckID req)%string
           || negb (VG_CommandDigest g =? descriptor)%string
           || negb (subset ["verification.run"%string] (r_Actions r))
           || negb (subset [task_resource (VG_TaskID g)] (r_Resources r)));;
  Ok g.

(** ** Evidence *)

Definition put_evidence (s : state) (id : string) (ev : Evidence) : res state :=
  m ← mset (st_Evidence s) id ev; Ok (s <| st_Evidence := m |>).

Definition SubmitEvidence (e : Env) (token session : string) (req : EvidenceRequest)
    : tx Evidence := fun s =>
  '(_, at_) ← leaseAuth s token session (ER_AttemptID req) "evidence.submit" (now e 0);
  deny_if (negb (validID (ER_OperationKey req)) || negb (validID (ER_CheckID req))
           || negb (validDigest (ER_OutputDigest req)));;
  let digest := identity "self-report" session req in
  match replay s (ER_OperationKey req) digest op_Evidence with
  | Some old => ev ← old; Ok (ev, s)
  | None =>
    activeAttempt e 1 s token session (ER_AttemptID req) (ER_LeaseID req) (ER_ExpectedFence req)
      "evidence.submit";;
    rev ← currentRevision s at_ (ER_RevisionID req) (ER_LeaseID req) (ER_ExpectedFence req);
    observeRevision e 0 at_ rev;;
    activeAttempt e 3 s token session (ER_AttemptID req) (ER_LeaseID req) (ER_ExpectedFence req)
      "evidence.submit";;
    id ← mint e 0;
    let result := mkEvidence id session "self-reported" "" rev (ER_CheckID req) "" (ER_OutputDigest req)
      (ER_ExitCode req) (now e 5) in
    s' ← put_evidence s id result;
    s' ← put_operation s' (ER_OperationKey req) ((new_operation digest) <| op_Evidence := Some result |>);
    Ok (result, s')
  end.

(** ** The verification protocol *)

Definition interruption_reasons : list string :=
  ["cancelled_before_start"; "deadline_before_start"; "cancelled_owned_group_cleanup";
   "deadline_owned_group_cleanup"]%string.

Definition interruptionReason (reason : string) : bool := existsb (String.eqb reason) interruption_reasons.

Definition interruption_digest (reason runner : string) (req : VerificationRequest) : string :=
  identity ("interruption:" ++ reason) runner req.

Definition verificationInterruption (op : operation) (runner : string) (req : VerificationRequest)
    : option VerificationInterruption :=
  if op_Pending op || bool_decide (is_Some (op_Evidence op)) then None
  else (fun reason => mkInterruption runner reason (op_ResultDigest op) "cooperative-native-executor" req)
       <$> List.find (fun reason => (op_ResultDigest op =? interruption_digest reason runner req)%string)
             interruption_reasons.

Definition run_digest (descriptor runner : string) (req : VerificationRequest) : string :=
  identity ("run:" ++ descriptor) runner req.

Definition request_action : string := "verification.request".

(** [leaseAuth] of the worker in a verification request. *)
Definition request_auth (e : Env) (i : nat) (s : state) (workerToken : string)
    (req : VerificationRequest) : res (record * Attempt) :=
  leaseAuth s workerToken (VR_WorkerSession req) (VR_AttemptID req) request_action (now e i).

Definition request_active (e : Env) (i : nat) (s : state) (workerToken : string)
    (req : VerificationRequest) : res Attempt :=
  activeAttempt e i s workerToken (VR_WorkerSession req) (VR_AttemptID req) (VR_LeaseID req)
    (VR_ExpectedFence req) request_action.

Definition InterruptVerification (e : Env) (workerToken runnerToken runnerSession : string)
    (req : VerificationRequest) (descriptor reason : string) : tx VerificationInterruption := fun s =>
  '(_, at_) ← request_auth e 0 s workerToken req;
  deny_if (negb (validID (VR_OperationKey req)) || negb (interruptionReason reason));;
  runnerAuth e 1 s runnerToken runnerSession req at_ descriptor;;
  op ← must (mget (Operations s) (VR_OperationKey req));
  deny_if (negb (op_Digest op =? run_digest descriptor runnerSession req)%string
           || bool_decide (is_Some (op_Evidence op)));;
  match verificationInterruption op runnerSession req with
  | Some prior => deny_if (negb (VI_Reason prior =? reason)%string);; Ok (prior, s)
  | None =>
    deny_if (negb (op_Pending op) || negb (op_ResultDigest op =? "")%string);;
    request_active e 3 s workerToken req;;
    let op := op <| op_Pending := false |>
                <| op_ResultDigest := interruption_digest reason runnerSession req |> in
    s' ← put_operation s (VR_OperationKey req) op;
    match verificationInterruption op runnerSession req with
    | Some result => Ok (result, s')
    | None => Err Panic
    end
  end.

Definition LookupVerification (e : Env) (workerToken runnerToken runnerSession : string)
    (req : VerificationRequest) (descriptor : string) (s : state) : res VerificationLookup :=
  '(_, at_) ← request_auth e 0 s workerToken req;
  deny_if (negb (validID (VR_OperationKey req)));;
  runnerAuth e 1 s runnerToken runnerSession req at_ descriptor;;
  match mget (Operations s) (VR_OperationKey req) with
  | None => Ok (mkLookup None VerificationAbsent None)
  | Some op =>
    deny_if (negb (op_Digest op =? run_digest descriptor runnerSession req)%string);;
    match op_Evidence op with
    | Some ev => Ok (mkLookup None VerificationCompleted (Some ev))
    | None =>
      match verificationInterruption op runnerSession req with
      | Some interrupted => Ok (mkLookup (Some interrupted) VerificationInterrupted None)
      | None => fail_if ErrReconcile (negb (op_Pending op));; Ok (mkLookup None VerificationPending None)
      end
    end
  end.

Definition ObserveVerificationRevision (e : Env) (workerToken runnerToken runnerSession : string)
    (req : VerificationRequest) (descriptor : string) (s : state) : res AttemptRevision :=
  at_ ← request_active e 0 s workerToken req;
  runnerAuth e 2 s runnerToken runnerSession req at_ descriptor;;
  rev ← currentRevision s at_ (VR_RevisionID req) (VR_LeaseID req) (VR_ExpectedFence req);
  observeRevision e 0 at_ rev;;
  request_active e 4 s workerToken req;;
  runnerAuth e 6 s runnerToken runnerSession req at_ descriptor;;
  Ok rev.

(** [BeginVerification] returns the reserved revision or the receipt of a
    completed run. *)
Definition BeginVerification (e : Env) (workerToken runnerToken runnerSession : string)
    (req : VerificationRequest) (descriptor : string) : tx (AttemptRevision + Evidence) := fun s =>
  '(_, at_) ← request_auth e 0 s workerToken req;
  deny_if (negb (validID (VR_OperationKey req)));;
  runnerAuth e 1 s runnerToken runnerSession req at_ descriptor;;
  let digest := run_digest descriptor runnerSession req in
  match mget (Operations s) (VR_OperationKey req) with
  | Some op =>
    deny_if (negb (op_Digest op =? digest)%string);;
    match op_Evidence op with
    | Some ev => Ok (inr ev, s)
    | None => Err ErrReconcile
    end
  | None =>
    request_active e 3 s workerToken req;;
    rev ← currentRevision s at_ (VR_RevisionID req) (VR_LeaseID req) (VR_ExpectedFence req);
    observeRevision e 0 at_ rev;;
    request_active e 5 s workerToken req;;
    runnerAuth e 7 s runnerToken runnerSession req at_ descriptor;;
    let op := (new_operation digest) <| op_Pending := true |> in
    let op := if 12 <=? Version s
              then op <| op_CheckpointVerification := Some (mkCheckpointBinding (Attempt_ProjectID at_)
                           (at_task at_) runnerSession descriptor req) |>
              else op in
    s' ← put_operation s (VR_OperationKey req) op;
    Ok (inl rev, s')
  end.

(** What the executor reports about the revision. *)
Definition result_matches (res : VerificationResult) (rev : AttemptRevision) : bool :=
  let obs := Rev_Observation rev in
  let output := default ""%string (VRes_Output res) in
  VRes_Clean res && (VRes_Commit res =? Commit obs)%string && (VRes_Tree res =? Tree obs)%string
  && (VRes_Directory res =? Locator obs)%string && (len output <=? 65536)
  && (VRes_OutputDigest res =? OutputDigest output)%string.

Definition CompleteVerification (e : Env) (workerToken runnerToken runnerSession : string)
    (req : VerificationRequest) (res : VerificationResult) : tx Evidence := fun s =>
  at_ ← request_active e 0 s workerToken req;
  g ← runnerAuth e 2 s runnerToken runnerSession req at_ (VRes_CommandDigest res);
  let digest := run_digest (VRes_CommandDigest res) runnerSession req in
  op ← must (mget (Operations s) (VR_OperationKey req));
  deny_if (negb (op_Digest op =? digest)%string);;
  match op_Evidence op with
  | Some ev => deny_if (negb (op_ResultDigest op =? identity "result" runnerSession res)%string);; Ok (ev, s)
  | None =>
    deny_if (negb (op_Pending op));;
    rev ← currentRevision s at_ (VR_RevisionID req) (VR_LeaseID req) (VR_ExpectedFence req);
    deny_if (negb (result_matches res rev));;
    observeRevision e 0 at_ rev;;
    request_active e 4 s workerToken req;;
    runnerAuth e 6 s runnerToken runnerSession req at_ (VRes_CommandDigest res);;
    id ← mint e 0;
    let result := mkEvidence id runnerSession "trusted-local-runner" (VG_ID g) rev (VG_CheckID g)
      (VG_CommandDigest g) (VRes_OutputDigest res) (VRes_ExitCode res) (now e 8) in
    s' ← put_evidence s id result;
    s' ← put_operation s' (VR_OperationKey req)
           ((new_operation digest) <| op_Evidence := Some result |>
              <| op_ResultDigest := identity "result" runnerSession res |>
              <| op_CheckpointVerification := op_CheckpointVerification op |>);
    Ok (result, s')
  end.

(** The grant behind [ev] and its runner still stand. *)
Definition grant_stands (g : VerificationGrant) (r : record) (a : Attempt) (ev : Evidence)
    (t t' : time) : bool :=
  negb (VG_Revoked g || r_Revoked r || negb (r_Parent r =? "")%string
        || negb (VG_RunnerSession g =? r_ID r)%string || negb (VG_TaskID g =? at_task a)%string
        || negb (VG_Repository g =? Repository (Attempt_Observation a))%string
        || negb (VG_CheckID g =? Ev_CheckID ev)%string
        || negb (VG_CommandDigest g =? Ev_CommandDigest ev)%string
        || negb (subset ["verification.run"%string] (r_Actions r))
        || negb (subset [task_resource (VG_TaskID g)] (r_Resources r))
        || negb (t <? VG_ExpiresAt g) || negb (t' <? r_ExpiresAt r)).

Definition EligibleVerification (e : Env) (token session id : string) (s : state) : res bool :=
  ev ← must (mget (st_Evidence s) id);
  let rev := Ev_Revision ev in
  let active i := activeAttempt e i s token session (Rev_AttemptID rev) (Rev_LeaseID rev)
                    (Rev_Fence rev) request_action in
  at_ ← active 0%nat;
  if negb (Ev_Provenance ev =? "trusted-local-runner")%string || negb (Ev_ExitCode ev =? 0) then Ok false
  else if negb (is_ok (currentRevision s at_ (Rev_ID rev) (Rev_LeaseID rev) (Rev_Fence rev))) then Ok false
  else match mget (Grants s) (Ev_GrantID ev), mget (Sessions s) (Ev_IssuerSession ev) with
       | Some g, Some r =>
         if negb (grant_stands g r at_ ev (now e 2) (now e 3)) then Ok false
         else if negb (is_ok (observeRevision e 0 at_ rev)) then Ok false
         else active 4%nat;;
              Ok ((now e 6 <? VG_ExpiresAt g) && (now e 7 <? r_ExpiresAt r))
       | _, _ => Ok false
       end.

#[global] Arguments activeAttempt : simpl never.
#[global] Arguments currentRevision : simpl never.
#[global] Arguments currentRevisionExcept : simpl never.
#[global] Arguments observeRevision : simpl never.
#[global] Arguments runnerAuth : simpl never.
#[global] Arguments replay : simpl never.
#[global] Arguments put_operation : simpl never.
#[global] Arguments put_evidence : simpl never.
#[global] Arguments put_grant : simpl never.
#[global] Arguments revisions : simpl never.
#[global] Arguments sameCheckout : simpl never.
#[global] Arguments ValidCheckDescriptor : simpl never.
#[global] Arguments run_digest : simpl never.
#[global] Arguments interruption_digest : simpl never.
#[global] Arguments result_matches : simpl never.
#[global] Arguments grant_stands : simpl never.
#[global] Arguments request_auth : simpl never.
#[global] Arguments request_active : simpl never.
#[global] Arguments verificationInterruption : simpl never.
#[global] Arguments CheckDigest : simpl never.

(** ** What a successful run went through *)

Lemma replay_none {A} s key digest (sel : operation -> option A) :
  replay s key digest sel = None <-> mget (Operations s) key = None.
Proof. unfold replay. by destruct (mget (Operations s) key). Qed.

Lemma replay_ok {A} s key digest (sel : operation -> option A) a :
  replay s key digest sel = Some (Ok a) <->
  exists op, mget (Operations s) key = Some op /\ op_Digest op = digest /\ sel op = Some a.
Proof.
  unfold replay. destruct (mget (Operations s) key) as [op |]; [| naive_solver].
  destruct (String.eqb_spec (op_Digest op) digest); simpl; [| naive_solver].
  destruct (sel op) eqn:E; simpl; naive_solver.
Qed.

Lemma put_operation_ok s key op s' :
  put_operation s key op = Ok s' ->
  exists ops, mset (Operations s) key op = Ok ops /\ s' = s <| Operations := ops |>.
Proof. unfold put_operation. intros H. inv_ok. eauto. Qed.

Lemma put_evidence_ok s id ev s' :
  put_evidence s id ev = Ok s' ->
  exists m, mset (st_Evidence s) id ev = Ok m /\ s' = s <| st_Evidence := m |>.
Proof. unfold put_evidence. intros H. inv_ok. eauto. Qed.

Lemma put_grant_ok s id g s' :
  put_grant s id g = Ok s' ->
  exists m, mset (Grants s) id g = Ok m /\ s' = s <| Grants := m |>.
Proof. unfold put_grant. intros H. inv_ok. eauto. Qed.

(** The worker holds the current lease [lease] for the attempt. *)
Record active (e : Env) (i : nat) (s : state) (token session attempt lease : string) (fence : Z)
    (action : string) (a : Attempt) : Prop := {
  act_auth : exists r, authenticate s token session (now e i) = Ok r /\ action ∈ r_Actions r
    /\ task_resource (at_task a) ∈ r_Resources r;
  act_attempt : attemptFor s attempt session = Ok a;
  act_lease : exists l, mget (Leases s) lease = Some l /\ Lease_AttemptID l = attempt
    /\ Lease_SessionID l = session /\ Lease_Fence l = fence
    /\ currentLease s l (now e (S i)) = true;
  act_task : workerTaskWithdrawn s session (at_task a) = false
}.

Lemma activeAttempt_ok e i s token session attempt lease fence action a :
  activeAttempt e i s token session attempt lease fence action = Ok a ->
  active e i s token session attempt lease fence action a.
Proof.
  unfold activeAttempt. intros H. apply bind_ok in H as ([r a'] & Ha & H).
  apply bind_ok in H as (l & Hl%must_ok & H). apply bind_ok in H as (? & Hc%deny_if_ok & H).
  injection H as <-. bool_facts. apply leaseAuth_ok in Ha as (? & ? & ? & ? & ?).
  constructor; eauto 10.
Qed.

Lemma active_fun e i j s token token' session attempt lease lease' fence fence' action action' a a' :
  active e i s token session attempt lease fence action a ->
  active e j s token' session attempt lease' fence' action' a' -> a = a'.
Proof. intros [_ H _ _] [_ H' _ _]. rewrite H in H'. by injection H'. Qed.

Lemma currentRevision_ok s a id lease fence rev :
  currentRevision s a id lease fence = Ok rev ->
  workerTaskWithdrawn s (Attempt_SessionID a) (at_task a) = false
  /\ list.last (revisions s (Attempt_ID a)) = Some rev
  /\ Rev_ID rev = id /\ Rev_LeaseID rev = lease /\ Rev_Fence rev = fence.
Proof.
  unfold currentRevision, currentRevisionExcept. intros H. by inv_ok; subst.
Qed.

Lemma observeRevision_ok e k a rev u :
  observeRevision e k a rev = Ok u ->
  exists obs, observe e k (Locator (Attempt_Observation a)) = Some obs
  /\ sameCheckout a obs = true /\ Commit obs = Commit (Rev_Observation rev)
  /\ Tree obs = Tree (Rev_Observation rev).
Proof. unfold observeRevision. intros H. inv_ok. eauto. Qed.

(** A runner that holds a grant for exactly this check. *)
Record runner_ok (e : Env) (i : nat) (s : state) (token session : string) (req : VerificationRequest)
    (a : Attempt) (descriptor : string) (g : VerificationGrant) : Prop := {
  run_auth : exists r, authenticate s token session (now e i) = Ok r /\ r_Parent r = ""%string
    /\ VG_RunnerSession g = r_ID r /\ r_ID r <> VR_WorkerSession req
    /\ "verification.run"%string ∈ r_Actions r /\ task_resource (at_task a) ∈ r_Resources r;
  run_grant : mget (Grants s) (VR_GrantID req) = Some g /\ VG_Revoked g = false
    /\ now e (S i) < VG_ExpiresAt g;
  run_check : VG_TaskID g = at_task a /\ VG_Repository g = Repository (Attempt_Observation a)
    /\ VG_CheckID g = VR_CheckID req /\ VG_CommandDigest g = descriptor
}.

Lemma runnerAuth_ok e i s token session req a descriptor g :
  runnerAuth e i s token session req a descriptor = Ok g ->
  runner_ok e i s token session req a descriptor g.
Proof.
  unfold runnerAuth. intros H. apply bind_ok in H as (r & Hr & H).
  apply bind_ok in H as (g' & Hg%must_ok & H). apply bind_ok in H as (? & Hc%deny_if_ok & H).
  injection H as <-. bool_facts. rewrite !subset_one in *.
  repeat match goal with H : VG_TaskID _ = _ |- _ => rewrite H in * end.
  constructor; [exists r; done | done | done].
Qed.

(** ** Operation receipts *)

(** A receipt only changes while its run is pending: it is decided, or a checkpoint
    binds it once. *)
Definition decides (op op' : operation) : Prop :=
  op' = op \/ op_Pending op = true /\ op_Digest op' = op_Digest op
              /\ (forall b, op_CheckpointVerification op = Some b -> op_CheckpointVerification op' = Some b)
              /\ (op_Pending op' = true -> op' = op <| op_CheckpointVerification := op_CheckpointVerification op' |>).

Lemma decides_decided op op' :
  op_Pending op = true -> op_Pending op' = false -> op_Digest op' = op_Digest op ->
  op_CheckpointVerification op' = op_CheckpointVerification op -> decides op op'.
Proof. intros H1 H2 H3 H4. right. split_and!; [done | done | congruence | congruence]. Qed.

Definition operation_le (s s' : state) : Prop :=
  forall k op, mget (Operations s) k = Some op ->
    exists op', mget (Operations s') k = Some op' /\ decides op op'.

#[export] Instance operation_le_preorder : PreOrder operation_le.
Proof.
  split.
  - intros s k op H. exists op. split; [done | by left].
  - intros s1 s2 s3 H12 H23 k op H. destruct (H12 _ _ H) as (op2 & H2 & D).
    destruct (H23 _ _ H2) as (op3 & H3 & D'). exists op3. split; [done |].
    destruct D as [-> | (P1 & G1 & C1 & K1)]; [done |]. destruct D' as [-> | (P2 & G2 & C2 & K2)]; [by right |].
    right. split_and!; [done | congruence | auto |]. intros P3. rewrite (K2 P3), (K1 P2). done.
Qed.

Lemma operation_le_same s s' : Operations s' = Operations s -> operation_le s s'.
Proof. intros E k op H. exists op. rewrite E. split; [done | by left]. Qed.

Lemma operation_le_new s s' key op ops :
  mget (Operations s) key = None -> mset (Operations s) key op = Ok ops -> Operations s' = ops ->
  operation_le s s'.
Proof.
  intros Hn Hm <- k o Ho. exists o. rewrite (mget_mset_ne _ _ _ _ _ Hm) by congruence.
  split; [done | by left].
Qed.

Lemma operation_le_decide s s' key old op ops :
  mget (Operations s) key = Some old -> decides old op -> mset (Operations s) key op = Ok ops ->
  Operations s' = ops -> operation_le s s'.
Proof.
  intros Ho Hd Hm <- k o Hk. rewrite (mget_mset _ _ _ _ _ Hm). case_decide as E.
  - exists op. split; [done |]. congruence.
  - exists o. split; [done | by left].
Qed.

(** The status of a verification run, as the receipts tell it. *)
Inductive run_status :=
  | RunAbsent
  | RunPending
  | RunCompleted (ev : Evidence)
  | RunInterrupted.

Definition status (s : state) (key : string) : run_status :=
  match mget (Operations s) key with
  | None => RunAbsent
  | Some op => match op_Evidence op with
               | Some ev => RunCompleted ev
               | None => if op_Pending op then RunPending else RunInterrupted
               end
  end.

Lemma status_put s key op s' : put_operation s key op = Ok s' ->
  status s' key = match op_Evidence op with
                  | Some ev => RunCompleted ev
                  | None => if op_Pending op then RunPending else RunInterrupted
                  end.
Proof.
  intros (ops & Hm & ->)%put_operation_ok. unfold status. simpl.
  by rewrite (mget_mset_eq _ _ _ _ Hm).
Qed.

Lemma status_other s key op s' k : put_operation s key op = Ok s' -> k <> key ->
  status s' k = status s k.
Proof.
  intros (ops & Hm & ->)%put_operation_ok Hk. unfold status. simpl.
  by rewrite (mget_mset_ne _ _ _ _ _ Hm).
Qed.

Lemma BeginVerification_ok e wt rt runner req descriptor s x s' :
  BeginVerification e wt rt runner req descriptor s = Ok (x, s') ->
  exists a, (exists r, request_auth e 0 s wt req = Ok (r, a))
  /\ validID (VR_OperationKey req) = true
  /\ (exists g, runner_ok e 1 s rt runner req a descriptor g)
  /\ ((exists op ev, mget (Operations s) (VR_OperationKey req) = Some op
         /\ op_Digest op = run_digest descriptor runner req
         /\ op_Evidence op = Some ev /\ x = inr ev /\ s' = s)
      \/ (mget (Operations s) (VR_OperationKey req) = None
          /\ exists rev op, x = inl rev
             /\ active e 5 s wt (VR_WorkerSession req) (VR_AttemptID req) (VR_LeaseID req)
                  (VR_ExpectedFence req) request_action a
             /\ (exists g, runner_ok e 7 s rt runner req a descriptor g)
             /\ currentRevision s a (VR_RevisionID req) (VR_LeaseID req) (VR_ExpectedFence req) = Ok rev
             /\ (exists u, observeRevision e 0 a rev = Ok u)
             /\ op_Digest op = run_digest descriptor runner req /\ op_Pending op = true
             /\ op_Evidence op = None
             /\ op_CheckpointVerification op = (if 12 <=? Version s then
                   Some (mkCheckpointBinding (Attempt_ProjectID a) (at_task a) runner descriptor req)
                 else None)
             /\ put_operation s (VR_OperationKey req) op = Ok s')).
Proof.
  unfold BeginVerification. intros H. apply bind_ok in H as ([r a] & Ha & H).
  apply bind_ok in H as (? & Hk%deny_if_ok & H). apply bind_ok in H as (g & Hg%runnerAuth_ok & H).
  bool_facts. exists a. split_and!; [by eexists | done | by eexists |].
  destruct (mget (Operations s) (VR_OperationKey req)) as [op |].
  - left. apply bind_ok in H as (? & Hd%deny_if_ok & H). bool_facts. exists op.
    destruct (op_Evidence op) as [ev |]; [| done]. injection H as <- <-. by exists ev.
  - right. split; [done |].
    apply bind_ok in H as (a1 & _ & H). apply bind_ok in H as (rev & Hrev & H).
    apply bind_ok in H as (u & Hu & H). apply bind_ok in H as (a2 & Ha2%activeAttempt_ok & H).
    apply bind_ok in H as (g2 & Hg2%runnerAuth_ok & H). apply bind_ok in H as (s1 & Hs1 & H).
    injection H as <- <-. exists rev.
    assert (a2 = a) as ->.
    { unfold request_auth in Ha. apply leaseAuth_ok in Ha as (_ & Ha & _).
      destruct Ha2 as [_ Ha' _ _]. rewrite Ha in Ha'. by injection Ha'. }
    eexists. split_and!; try done; try by eexists.
    + by case_match.
    + by case_match.
    + by case_match.
    + by case_match.
Qed.

Lemma CompleteVerification_ok e wt rt runner req vres s ev s' :
  CompleteVerification e wt rt runner req vres s = Ok (ev, s') ->
  exists a g op,
    active e 0 s wt (VR_WorkerSession req) (VR_AttemptID req) (VR_LeaseID req)
      (VR_ExpectedFence req) request_action a
  /\ runner_ok e 2 s rt runner req a (VRes_CommandDigest vres) g
  /\ mget (Operations s) (VR_OperationKey req) = Some op
  /\ op_Digest op = run_digest (VRes_CommandDigest vres) runner req
  /\ ((op_Evidence op = Some ev /\ op_ResultDigest op = identity "result" runner vres /\ s' = s)
      \/ (op_Evidence op = None /\ op_Pending op = true
          /\ exists rev op' s1,
             currentRevision s a (VR_RevisionID req) (VR_LeaseID req) (VR_ExpectedFence req) = Ok rev
             /\ result_matches vres rev = true
             /\ (exists u, observeRevision e 0 a rev = Ok u)
             /\ active e 4 s wt (VR_WorkerSession req) (VR_AttemptID req) (VR_LeaseID req)
                  (VR_ExpectedFence req) request_action a
             /\ mint e 0 = Ok (Ev_ID ev)
             /\ ev = mkEvidence (Ev_ID ev) runner "trusted-local-runner" (VG_ID g) rev (VG_CheckID g)
                  (VG_CommandDigest g) (VRes_OutputDigest vres) (VRes_ExitCode vres) (now e 8)
             /\ op_Evidence op' = Some ev /\ op_Pending op' = false /\ op_Digest op' = op_Digest op
             /\ op_CheckpointVerification op' = op_CheckpointVerification op
             /\ op_ResultDigest op' = identity "result" runner vres
             /\ put_evidence s (Ev_ID ev) ev = Ok s1
             /\ put_operation s1 (VR_OperationKey req) op' = Ok s')).
Proof.
  unfold CompleteVerification. intros H. apply bind_ok in H as (a & Ha%activeAttempt_ok & H).
  apply bind_ok in H as (g & Hg%runnerAuth_ok & H). apply bind_ok in H as (op & Hop%must_ok & H).
  apply bind_ok in H as (? & Hd%deny_if_ok & H). bool_facts. exists a, g, op.
  split_and!; [done.. |].
  destruct (op_Evidence op) as [old |].
  - left. apply bind_ok in H as (? & Hr%deny_if_ok & H). injection H as <- <-. by bool_facts.
  - right. apply bind_ok in H as (? & Hp%deny_if_ok & H). apply bind_ok in H as (rev & Hrev & H).
    apply bind_ok in H as (? & Hm%deny_if_ok & H). apply bind_ok in H as (u & Hu & H).
    apply bind_ok in H as (a2 & Ha2%activeAttempt_ok & H). apply bind_ok in H as (g2 & _ & H).
    apply bind_ok in H as (id & Hid & H). apply bind_ok in H as (s1 & Hs1 & H).
    apply bind_ok in H as (s2 & Hs2 & H). injection H as <- <-. bool_facts.
    rewrite <- (active_fun _ _ _ _ _ _ _ _ _ _ _ _ _ _ _ _ Ha Ha2) in Ha2.
    split_and!; [done.. |]. 
    match type of Hs2 with put_operation _ _ ?op' = _ => exists rev, op', s1 end.
    simpl. split_and!; try done; by eexists.
Qed.

Lemma interruption_found op runner req reason :
  interruptionReason reason = true -> op_Pending op = false -> op_Evidence op = None ->
  op_ResultDigest op = interruption_digest reason runner req ->
  is_Some (verificationInterruption op runner req).
Proof.
  intros Hr Hp He Hd. unfold verificationInterruption. rewrite Hp, He.
  rewrite bool_decide_eq_false_2 by (by intros []). cbn [orb].
  apply fmap_is_Some. match goal with |- is_Some ?x => destruct x eqn:Hf; [by eexists |] end.
  unfold interruptionReason in Hr. apply existsb_elem in Hr as (x & Hx & ->%String.eqb_eq).
  pose proof (List.find_none _ _ Hf x) as Hn. rewrite list_elem_of_In in Hx. specialize (Hn Hx).
  simpl in Hn. by rewrite Hd, String.eqb_refl in Hn.
Qed.

Lemma InterruptVerification_ok e wt rt runner req descriptor reason s x s' :
  InterruptVerification e wt rt runner req descriptor reason s = Ok (x, s') ->
  exists op, mget (Operations s) (VR_OperationKey req) = Some op
  /\ op_Digest op = run_digest descriptor runner req /\ op_Evidence op = None
  /\ ((op_Pending op = false /\ VI_Reason x = reason /\ s' = s)
      \/ (op_Pending op = true /\ exists op',
             op_Pending op' = false /\ op_Evidence op' = None /\ op_Digest op' = op_Digest op
             /\ op_CheckpointVerification op' = op_CheckpointVerification op
             /\ op_ResultDigest op' = interruption_digest reason runner req
             /\ put_operation s (VR_OperationKey req) op' = Ok s')).
Proof.
  unfold InterruptVerification. intros H. apply bind_ok in H as ([r a] & _ & H).
  apply bind_ok in H as (? & _ & H). apply bind_ok in H as (g & _ & H).
  apply bind_ok in H as (op & Hop%must_ok & H). apply bind_ok in H as (? & Hd%deny_if_ok & H).
  bool_facts. exists op.
  assert (op_Evidence op = None) as He by (destruct (op_Evidence op); [exfalso; eauto | done]).
  split_and!; [done.. |]. destruct (verificationInterruption op runner req) as [prior |] eqn:Ev.
  - left. apply bind_ok in H as (? & Hr%deny_if_ok & H). injection H as <- <-. bool_facts.
    split_and!; try done. unfold verificationInterruption in Ev.
    by destruct (op_Pending op).
  - right. apply bind_ok in H as (? & Hp%deny_if_ok & H). apply bind_ok in H as (a2 & _ & H).
    apply bind_ok in H as (s1 & Hs1 & H). bool_facts. split; [done |].
    match type of Hs1 with put_operation _ _ ?op' = _ => exists op' end.
    match type of H with match ?o with _ => _ end = _ => destruct o; [| done] end.
    by injection H as <- <-.
Qed.

Lemma InterruptVerification_no_panic e wt rt runner req descriptor reason s :
  is_nil (Operations s) = false ->
  InterruptVerification e wt rt runner req descriptor reason s <> Err Panic.
Proof.
  intros Hnil. unfold InterruptVerification.
  assert (forall {A B} (m : res A) (f : A -> res B), m <> Err Panic ->
    (forall a, m = Ok a -> f a <> Err Panic) -> m ≫= f <> Err Panic) as Hbind.
  { intros A B [a | er] f Hm Hf; simpl; [by apply Hf | congruence]. }
  assert (forall {A} (o : option A), must o <> Err Panic) as Hmust by by intros ? [].
  assert (forall b, deny_if b <> Err Panic) as Hdeny by by intros [].
  assert (forall tok i t, authenticate s tok i t <> Err Panic) as Hauth.
  { intros tok i t E. apply authenticate_err in E. done. }
  assert (forall i, request_auth e i s wt req <> Err Panic) as Hreq.
  { intros i. unfold request_auth, leaseAuth, attemptFor. apply Hbind; [done |]. intros r _.
    apply Hbind; [done |]. intros a _. apply Hbind; [done |]. intros _ _.
    apply Hbind; [done |]. done. }
  assert (forall i a, runnerAuth e i s rt runner req a descriptor <> Err Panic) as Hrun.
  { intros i a. unfold runnerAuth. apply Hbind; [done |]. intros r _.
    apply Hbind; [done |]. intros g _. apply Hbind; [done |]. done. }
  assert (forall i, request_active e i s wt req <> Err Panic) as Hact.
  { intros i. unfold request_active, activeAttempt. apply Hbind; [apply Hreq |]. intros [r a] _.
    apply Hbind; [done |]. intros l _. apply Hbind; [done |]. done. }
  apply Hbind; [done |]. intros [r a] _. apply Hbind; [done |]. intros _ Hk%deny_if_ok.
  apply Hbind; [done |]. intros _ _. apply Hbind; [done |]. intros op _.
  apply Hbind; [done |]. intros _ Hd%deny_if_ok. bool_facts.
  destruct (verificationInterruption op runner req); [apply Hbind; [done |]; done |].
  apply Hbind; [done |]. intros _ _. apply Hbind; [done |]. intros _ _.
  set (op' := op <| op_Pending := _ |> <| op_ResultDigest := _ |>).
  assert (is_Some (verificationInterruption op' runner req)) as [y ->].
  { apply (interruption_found _ _ _ reason); try done. simpl.
    destruct (op_Evidence op); [exfalso; eauto | done]. }
  apply Hbind; [| done]. unfold put_operation. destruct (mset_total (Operations s)
    (VR_OperationKey req) op' Hnil) as [ops ->]. done.
Qed.

(** ** Revisions *)

(** Revisions of one attempt: numbered from one, under the attempt's key. *)
Definition revisions_ok (s : state) : Prop := forall a i rev,
  revisions s a !! i = Some rev ->
  Rev_AttemptID rev = a /\ Rev_Sequence rev = incr_u64 (Z.of_nat i mod 2 ^ 64).

Definition revision_le (s s' : state) : Prop :=
  forall a, revisions s a `prefix_of` revisions s' a.

#[export] Instance revision_le_preorder : PreOrder revision_le.
Proof. split; [intros s a; reflexivity | intros s1 s2 s3 H1 H2 a; etrans; [apply H1 | apply H2]]. Qed.

Lemma revision_le_same s s' : Revisions s' = Revisions s -> revision_le s s'.
Proof. intros E a. unfold revisions. by rewrite E. Qed.

(** A revision published under a new key. *)
Record published (e : Env) (token session : string) (req : PublishRevisionRequest) (a : Attempt)
    (s : state) (rev : AttemptRevision) (s' : state) : Prop := {
  pub_new : mget (Operations s) (PR_OperationKey req) = None;
  pub_before : active e 1 s token session (PR_AttemptID req) (PR_LeaseID req) (PR_ExpectedFence req)
    "attempt.publish" a;
  pub_after : active e 3 s token session (PR_AttemptID req) (PR_LeaseID req) (PR_ExpectedFence req)
    "attempt.publish" a;
  pub_expected : PR_ExpectedRevision req = u64_length (revisions s (Attempt_ID a));
  pub_observed : observe e 0 (Locator (Attempt_Observation a)) = Some (Rev_Observation rev)
    /\ sameCheckout a (Rev_Observation rev) = true;
  pub_result : rev = mkRevision (Rev_ID rev) (Attempt_ID a) session (PR_LeaseID req)
    (incr_u64 (PR_ExpectedRevision req)) (PR_ExpectedFence req) (Rev_Observation rev) (now e 5);
  pub_state : exists m ops,
    mset (Revisions s) (Attempt_ID a) (revisions s (Attempt_ID a) ++ [rev]) = Ok m
    /\ mset (Operations s) (PR_OperationKey req)
         ((new_operation (identity "revision" session req)) <| op_Revision := Some rev |>) = Ok ops
    /\ s' = s <| Revisions := m |> <| Operations := ops |>
}.

Lemma PublishAttemptRevision_ok e token session req s rev s' :
  PublishAttemptRevision e token session req s = Ok (rev, s') ->
  exists r a, leaseAuth s token session (PR_AttemptID req) "attempt.publish" (now e 0) = Ok (r, a)
  /\ validID (PR_OperationKey req) = true
  /\ ((replay s (PR_OperationKey req) (identity "revision" session req) op_Revision = Some (Ok rev)
       /\ s' = s)
      \/ published e token session req a s rev s').
Proof.
  unfold PublishAttemptRevision. intros H. apply bind_ok in H as ([r a] & Ha & H).
  apply bind_ok in H as (? & Hk%deny_if_ok & H). bool_facts. exists r, a. split_and!; [done.. |].
  destruct (replay _ _ _ _) as [old |] eqn:Hrep.
  - left. inv_ok. by simplify_eq.
  - right. apply replay_none in Hrep. apply bind_ok in H as (a1 & Ha1%activeAttempt_ok & H).
    apply bind_ok in H as (? & Hx%deny_if_ok & H). apply bind_ok in H as (obs & Hobs%must_ok & H).
    apply bind_ok in H as (? & Hc%deny_if_ok & H). apply bind_ok in H as (a2 & Ha2%activeAttempt_ok & H).
    apply bind_ok in H as (id & Hid & H). apply bind_ok in H as (m & Hm & H).
    apply bind_ok in H as (s1 & Hs1%put_operation_ok & H). injection H as <- <-. bool_facts.
    assert (a1 = a) as ->.
    { apply leaseAuth_ok in Ha as (_ & Ha & _). destruct Ha1 as [_ Ha1 _ _]. congruence. }
    assert (a2 = a) as -> by (eapply active_fun; eauto).
    destruct Hs1 as (ops & Hops & ->). constructor; simpl in *; eauto.
Qed.

Lemma published_revisions e token session req a s rev s' d :
  published e token session req a s rev s' ->
  revisions s' d = if decide (Attempt_ID a = d) then revisions s d ++ [rev] else revisions s d.
Proof.
  intros [_ _ _ _ _ _ (m & ops & Hm & _ & ->)]. unfold revisions at 1. simpl.
  rewrite (mget_mset _ _ _ _ _ Hm). case_decide as E; [by subst d | done].
Qed.

Lemma published_ok e token session req a s rev s' :
  revisions_ok s -> published e token session req a s rev s' ->
  revisions_ok s' /\ revision_le s s' /\ operation_le s s'.
Proof.
  intros Hok Hp. split_and!.
  - intros d i q. rewrite (published_revisions _ _ _ _ _ _ _ _ d Hp). case_decide as E; [| apply Hok].
    intros [[_ Hq] | [-> <-]]%lookup_snoc_Some; [by apply Hok |].
    destruct Hp as [_ _ _ Hx _ -> _]. simpl. split; [done |]. by rewrite Hx, <- E.
  - intros d. rewrite (published_revisions _ _ _ _ _ _ _ _ d Hp). case_decide; [| done].
    by apply prefix_app_r.
  - destruct Hp as [Hn _ _ _ _ _ (m & ops & _ & Hops & ->)].
    by eapply operation_le_new.
Qed.

(** A report submitted under a new key. *)
Lemma SubmitEvidence_ok e token session req s ev s' :
  SubmitEvidence e token session req s = Ok (ev, s') ->
  exists r a, leaseAuth s token session (ER_AttemptID req) "evidence.submit" (now e 0) = Ok (r, a)
  /\ ((replay s (ER_OperationKey req) (identity "self-report" session req) op_Evidence = Some (Ok ev)
       /\ s' = s)
      \/ (mget (Operations s) (ER_OperationKey req) = None
          /\ exists rev s1,
             currentRevision s a (ER_RevisionID req) (ER_LeaseID req) (ER_ExpectedFence req) = Ok rev
             /\ (exists u, observeRevision e 0 a rev = Ok u)
             /\ active e 3 s token session (ER_AttemptID req) (ER_LeaseID req) (ER_ExpectedFence req)
                  "evidence.submit" a
             /\ mint e 0 = Ok (Ev_ID ev)
             /\ ev = mkEvidence (Ev_ID ev) session "self-reported" "" rev (ER_CheckID req) ""
                  (ER_OutputDigest req) (ER_ExitCode req) (now e 5)
             /\ put_evidence s (Ev_ID ev) ev = Ok s1
             /\ put_operation s1 (ER_OperationKey req)
                  ((new_operation (identity "self-report" session req)) <| op_Evidence := Some ev |>)
                = Ok s')).
Proof.
  unfold SubmitEvidence. intros H. apply bind_ok in H as ([r a] & Ha & H).
  apply bind_ok in H as (? & Hk%deny_if_ok & H). bool_facts. exists r, a. split; [done |].
  destruct (replay _ _ _ _) as [old |] eqn:Hrep.
  - left. inv_ok. by simplify_eq.
  - right. apply replay_none in Hrep. split; [done |].
    apply bind_ok in H as (a1 & Ha1%activeAttempt_ok & H). apply bind_ok in H as (rev & Hrev & H).
    apply bind_ok in H as (u & Hu & H). apply bind_ok in H as (a2 & Ha2%activeAttempt_ok & H).
    apply bind_ok in H as (id & Hid & H). apply bind_ok in H as (s1 & Hs1 & H).
    apply bind_ok in H as (s2 & Hs2 & H). injection H as <- <-.
    assert (a1 = a) as ->.
    { apply leaseAuth_ok in Ha as (_ & Ha & _). destruct Ha1 as [_ Ha1 _ _]. congruence. }
    assert (a2 = a) as -> by (eapply active_fun; eauto).
    exists rev, s1. simpl. split_and!; try done; by eexists.
Qed.

(** ** Provenance *)

(** Grants belong to parentless runners; evidence that claims the trusted runner
    names the grant it was produced under, for the same runner, check and
    command; everything else is a self report. *)
Record evidence_inv (s : state) : Prop := {
  grant_entry id g : mget (Grants s) id = Some g ->
    VG_ID g = id /\ exists r, mget (Sessions s) (VG_RunnerSession g) = Some r /\ r_Parent r = ""%string;
  evidence_entry id ev : mget (st_Evidence s) id = Some ev ->
    Ev_ID ev = id
    /\ ((Ev_Provenance ev = "self-reported"%string /\ Ev_GrantID ev = ""%string
         /\ Ev_CommandDigest ev = ""%string)
        \/ (Ev_Provenance ev = "trusted-local-runner"%string
            /\ exists g, mget (Grants s) (Ev_GrantID ev) = Some g
               /\ VG_RunnerSession g = Ev_IssuerSession ev /\ VG_CheckID g = Ev_CheckID ev
               /\ VG_CommandDigest g = Ev_CommandDigest ev))
}.

Definition same_grant (g g' : VerificationGrant) : Prop :=
  VG_ID g' = VG_ID g /\ VG_RunnerSession g' = VG_RunnerSession g /\ VG_TaskID g' = VG_TaskID g
  /\ VG_Repository g' = VG_Repository g /\ VG_CheckID g' = VG_CheckID g
  /\ VG_CommandDigest g' = VG_CommandDigest g /\ VG_ExpiresAt g' = VG_ExpiresAt g
  /\ (VG_Revoked g = true -> VG_Revoked g' = true).

(** Evidence is immutable and a grant only changes by being revoked. *)
Record evidence_le (s s' : state) : Prop := {
  ele_evidence id ev : mget (st_Evidence s) id = Some ev -> mget (st_Evidence s') id = Some ev;
  ele_grant id g : mget (Grants s) id = Some g ->
    exists g', mget (Grants s') id = Some g' /\ same_grant g g'
}.

#[export] Instance evidence_le_preorder : PreOrder evidence_le.
Proof.
  split.
  - intros s. split; [done |]. intros id g H. by exists g.
  - intros s1 s2 s3 [E1 G1] [E2 G2]. split; [auto |].
    intros id g (g2 & H2 & S2)%G1. destruct (G2 _ _ H2) as (g3 & H3 & S3). exists g3.
    unfold same_grant in *. destruct_and?. split_and!; [done | congruence.. | auto].
Qed.

Lemma evidence_le_same s s' :
  st_Evidence s' = st_Evidence s -> Grants s' = Grants s -> evidence_le s s'.
Proof. intros E G. split; rewrite ?E, ?G; [done |]. intros id g H. by exists g. Qed.

Lemma evidence_inv_le s s' :
  evidence_inv s -> session_le s s' ->
  (forall id ev, mget (st_Evidence s') id = Some ev -> mget (st_Evidence s) id = Some ev) ->
  (forall id g', mget (Grants s') id = Some g' -> exists g, mget (Grants s) id = Some g /\ same_grant g g') ->
  evidence_le s s' -> evidence_inv s'.
Proof.
  intros [Hg He] Hs Hev Hgr [_ Hle]. split.
  - intros id g' (g & H & S)%Hgr. destruct (Hg _ _ H) as (? & r & Hr & Hp).
    destruct (Hs _ _ Hr) as (r' & Hr' & _ & E & _). unfold same_grant in S. destruct_and?.
    split; [congruence |]. exists r'. split; congruence.
  - intros id ev H%Hev. destruct (He _ _ H) as [? [? | (? & g & Hm & ? & ? & ?)]]; [by split; [| left] |].
    split; [done | right]. split; [done |].
    destruct (Hle _ _ Hm) as (g' & Hm' & S). exists g'. unfold same_grant in S. destruct_and?.
    split_and!; congruence.
Qed.

Definition fresh_evidence (e : Env) (s : state) : Prop :=
  forall id, mint e 0 = Ok id -> mget (st_Evidence s) id = None /\ mget (Grants s) id = None.

Lemma put_evidence_inv s id ev s' :
  evidence_inv s -> mget (st_Evidence s) id = None -> Ev_ID ev = id ->
  ((Ev_Provenance ev = "self-reported"%string /\ Ev_GrantID ev = ""%string
    /\ Ev_CommandDigest ev = ""%string)
   \/ (Ev_Provenance ev = "trusted-local-runner"%string
       /\ exists g, mget (Grants s) (Ev_GrantID ev) = Some g
          /\ VG_RunnerSession g = Ev_IssuerSession ev /\ VG_CheckID g = Ev_CheckID ev
          /\ VG_CommandDigest g = Ev_CommandDigest ev)) ->
  put_evidence s id ev = Ok s' -> evidence_inv s' /\ evidence_le s s'.
Proof.
  intros [Hg He] Hn Hid Hev (m & Hm & ->)%put_evidence_ok. split.
  - split; [done |]. intros k x. simpl. rewrite (mget_mset _ _ _ _ _ Hm). case_decide as E.
    + intros [= <-]. by subst k.
    + apply He.
  - split; simpl; [| intros k g Hk; by exists g]. intros k x Hk.
    by rewrite (mget_mset_ne _ _ _ _ _ Hm) by congruence.
Qed.

Lemma GrantVerification_ok e owner runner task repository check expires s g s' :
  GrantVerification e owner runner task repository check expires s = Ok (g, s') ->
  not_owner s owner = false
  /\ (exists r b, mget (Sessions s) runner = Some r /\ mget (Tasks s) task = Some b
      /\ r_Parent r = ""%string /\ r_Revoked r = false /\ now e 0 < r_ExpiresAt r
      /\ "verification.run"%string ∈ r_Actions r /\ task_resource task ∈ r_Resources r
      /\ TB_Repository b = repository /\ now e 1 < expires /\ expires <= r_ExpiresAt r)
  /\ ValidCheckDescriptor check = true /\ mint e 0 = Ok (VG_ID g)
  /\ g = mkGrant (VG_ID g) runner task repository (CD_ID check) (CheckDigest check) expires false
  /\ put_grant s (VG_ID g) g = Ok s'.
Proof.
  unfold GrantVerification. intros H. apply bind_ok in H as (? & Ho%deny_if_ok & H).
  apply bind_ok in H as (r & Hr%must_ok & H). apply bind_ok in H as (b & Hb%must_ok & H).
  apply bind_ok in H as (? & Hc%deny_if_ok & H). apply bind_ok in H as (id & Hid & H).
  apply bind_ok in H as (s1 & Hs1 & H). injection H as <- <-. bool_facts.
  rewrite !subset_one in *. split_and!; try done. exists r, b. done.
Qed.

Lemma GrantVerification_inv_le e owner runner task repository check expires s g s' :
  fresh_evidence e s -> evidence_inv s ->
  GrantVerification e owner runner task repository check expires s = Ok (g, s') ->
  evidence_inv s' /\ evidence_le s s'.
Proof.
  intros Hf [Hg He] (_ & (r & b & Hr & _ & Hp & _) & _ & Hmint & Heq & (m & Hm & ->)%put_grant_ok)%GrantVerification_ok.
  destruct (Hf _ Hmint) as [_ Hn].
  assert (forall id q, mget (Grants s) id = Some q -> mget m id = Some q) as Hto.
  { intros id q Hq. by rewrite (mget_mset_ne _ _ _ _ _ Hm) by congruence. }
  split; split; simpl.
  - intros id q. rewrite (mget_mset _ _ _ _ _ Hm). case_decide as E; [| apply Hg].
    intros [= <-]. split; [done |]. exists r. by rewrite Heq.
  - intros id ev H. destruct (He _ _ H) as [? [? | (? & q & Hq & ?)]]; [by split; [| left] |].
    split; [done | right]. split; [done |]. exists q. split; [by apply Hto | done].
  - done.
  - intros id q Hq. exists q. split; [by apply Hto | done].
Qed.

Lemma RevokeVerification_inv_le owner id s x s' :
  evidence_inv s -> RevokeVerification owner id s = Ok (x, s') -> evidence_inv s' /\ evidence_le s s'.
Proof.
  unfold RevokeVerification. intros Hinv H. apply bind_ok in H as (? & Ho & H).
  apply bind_ok in H as (g & Hg%must_ok & H).
  apply bind_ok in H as (s1 & (m & Hm & ->)%put_grant_ok & H). injection H as <- <-.
  assert (evidence_le s (s <| Grants := m |>)) as Hle.
  { split; simpl; [done |]. intros k q Hk. rewrite (mget_mset _ _ _ _ _ Hm). case_decide as E.
    - subst k. rewrite Hg in Hk. injection Hk as <-. eexists. done.
    - by exists q. }
  split; [| done]. apply (evidence_inv_le s); [done | by apply session_le_same | done | | done].
  simpl. intros k q. rewrite (mget_mset _ _ _ _ _ Hm). case_decide as E.
  - intros [= <-]. subst k. by exists g.
  - intros Hk. by exists q.
Qed.

Lemma SubmitEvidence_inv_le e token session req s ev s' :
  fresh_evidence e s -> evidence_inv s -> SubmitEvidence e token session req s = Ok (ev, s') ->
  evidence_inv s' /\ evidence_le s s' /\ operation_le s s'.
Proof.
  intros Hf Hinv (r & a & _ & [[_ ->] | (Hn & rev & s1 & _ & _ & _ & Hid & Hev & Hput & Hop)])%SubmitEvidence_ok;
    [done |].
  destruct (Hf _ Hid) as [Hnone _].
  assert (evidence_inv s1 /\ evidence_le s s1) as [Hi1 Hl1].
  { eapply put_evidence_inv; try done. left. by rewrite Hev. }
  apply put_evidence_ok in Hput as (m & _ & ->).
  apply put_operation_ok in Hop as (ops & Hops & ->).
  split_and!; [by destruct Hi1; split | by destruct Hl1; split | by eapply operation_le_new].
Qed.

Lemma CompleteVerification_inv_le e wt rt runner req vres s ev s' :
  sessions_wf s -> fresh_evidence e s -> evidence_inv s ->
  CompleteVerification e wt rt runner req vres s = Ok (ev, s') ->
  evidence_inv s' /\ evidence_le s s' /\ operation_le s s'.
Proof.
  intros Hwf Hf Hinv (a & g & op & _ & Hrun & Hop & _ & Hcase)%CompleteVerification_ok.
  destruct Hcase as [(_ & _ & ->) | (_ & Hpend & rev & op' & s1 & _ & _ & _ & _ & Hid & Hev & _ & Hp' & Hd' & Hc' & _ & Hput & Hop')];
    [done |].
  destruct (Hf _ Hid) as [Hnone _].
  destruct Hrun as [(r & (Hm & _)%authenticate_ok & _ & Hrid & _) (Hg & _) _].
  destruct (grant_entry _ Hinv _ _ Hg) as [Hgid _]. destruct (Hwf _ _ Hm) as [Hr _ _ _].
  assert (evidence_inv s1 /\ evidence_le s s1) as [Hi1 Hl1].
  { eapply put_evidence_inv; try done. right. rewrite Hev. simpl. split; [done |].
    exists g. rewrite Hgid. split_and!; try done. congruence. }
  apply put_evidence_ok in Hput as (m & _ & ->).
  apply put_operation_ok in Hop' as (ops & Hops & ->).
  split_and!; [by destruct Hi1; split | by destruct Hl1; split |].
  eapply operation_le_decide; [exact Hop | | exact Hops | done]. by apply decides_decided.
Qed.

Lemma BeginVerification_le e wt rt runner req descriptor s x s' :
  BeginVerification e wt rt runner req descriptor s = Ok (x, s') -> operation_le s s'.
Proof.
  intros (a & _ & _ & _ & [(op & ev & _ & _ & _ & _ & ->) | (Hn & rev & op & _ & _ & _ & _ & _ & _ & _ & _ & _ & Hput)])%BeginVerification_ok;
    [done |].
  apply put_operation_ok in Hput as (ops & Hops & ->). by eapply operation_le_new.
Qed.

Lemma InterruptVerification_le e wt rt runner req descriptor reason s x s' :
  InterruptVerification e wt rt runner req descriptor reason s = Ok (x, s') -> operation_le s s'.
Proof.
  intros (op & Hop & _ & _ & [(_ & _ & ->) | (Hp & op' & Hp' & _ & Hd & Hc & _ & Hput)])%InterruptVerification_ok;
    [done |].
  apply put_operation_ok in Hput as (ops & Hops & ->).
  eapply operation_le_decide; [exact Hop | by apply decides_decided | exact Hops | done].
Qed.

(** ** Properties *)

(** C33: the verification protocol is a state machine over the receipts: a begin
    either reserves an absent run or replays a completed one, a completion turns
    a pending run into a completed one or replays it, an interruption turns a
    pending run into an interrupted one or replays it; nothing else changes any
    run's status. *)
Theorem verification_machine e wt rt runner req descriptor reason vres s s' :
  let key := VR_OperationKey req in
  (forall x, BeginVerification e wt rt runner req descriptor s = Ok (x, s') ->
     (exists rev, x = inl rev /\ status s key = RunAbsent /\ status s' key = RunPending
        /\ forall k, k <> key -> status s' k = status s k)
     \/ (exists ev, x = inr ev /\ status s key = RunCompleted ev /\ s' = s))
  /\ (forall ev, CompleteVerification e wt rt runner req vres s = Ok (ev, s') ->
     (status s key = RunPending /\ status s' key = RunCompleted ev
        /\ forall k, k <> key -> status s' k = status s k)
     \/ (status s key = RunCompleted ev /\ s' = s))
  /\ (forall x, InterruptVerification e wt rt runner req descriptor reason s = Ok (x, s') ->
     (status s key = RunPending /\ status s' key = RunInterrupted
        /\ forall k, k <> key -> status s' k = status s k)
     \/ (status s key = RunInterrupted /\ s' = s)).
Proof.
  intros key. subst key. split_and!.
  - intros x (a & _ & _ & _ & [(op & ev & Hop & _ & He & -> & ->) | (Hn & rev & op & -> & _ & _ & _ & _ & _ & Hp & He & _ & Hput)])%BeginVerification_ok.
    + right. exists ev. unfold status. by rewrite Hop, He.
    + left. exists rev. rewrite (status_put _ _ _ _ Hput), He, Hp. split_and!; [done | | done |].
      * unfold status. by rewrite Hn.
      * intros k Hk. by eapply status_other.
  - intros ev (a & g & op & _ & _ & Hop & _ & [(He & _ & ->) | (He & Hp & rev & op' & s1 & _ & _ & _ & _ & _ & _ & He' & _ & _ & _ & _ & Hev & Hput)])%CompleteVerification_ok.
    + right. unfold status. by rewrite Hop, He.
    + apply put_evidence_ok in Hev as (m & _ & ->). left.
      rewrite (status_put _ _ _ _ Hput), He'. split_and!; [| done |].
      * unfold status. by rewrite Hop, He, Hp.
      * intros k Hk. by rewrite (status_other _ _ _ _ _ Hput Hk).
  - intros x (op & Hop & _ & He & [(Hp & _ & ->) | (Hp & op' & Hp' & He' & _ & _ & _ & Hput)])%InterruptVerification_ok.
    + right. unfold status. by rewrite Hop, He, Hp.
    + left. rewrite (status_put _ _ _ _ Hput), He', Hp'. split_and!; [| done |].
      * unfold status. by rewrite Hop, He, Hp.
      * intros k Hk. by eapply status_other.
Qed.

(** a reserved run executes at most once: after a begin has reserved a key,
    in every later state a begin under that key reserves nothing again - it
    fails or returns the receipt of the completed run, unchanged. *)
Theorem BeginVerification_once e e' wt rt runner req descriptor wt' rt' runner' req' descriptor' s rev s' later x s2 :
  BeginVerification e wt rt runner req descriptor s = Ok (inl rev, s') ->
  operation_le s' later -> VR_OperationKey req' = VR_OperationKey req ->
  BeginVerification e' wt' rt' runner' req' descriptor' later = Ok (x, s2) ->
  exists ev, x = inr ev /\ s2 = later /\ status later (VR_OperationKey req) = RunCompleted ev.
Proof.
  intros (a & _ & _ & _ & [(op & ev & _ & _ & _ & ? & _) | (Hn & rev1 & op & _ & _ & _ & _ & _ & _ & Hp & _ & _ & Hput)])%BeginVerification_ok
    Hle Hkey; [done |].
  apply put_operation_ok in Hput as (ops & Hops & ->).
  destruct (Hle (VR_OperationKey req) op) as (op2 & Hop2 & _); [by eapply mget_mset_eq |].
  intros (a' & _ & _ & _ & [(op' & ev & Hop' & _ & He & -> & ->) | (Hn' & _)])%BeginVerification_ok;
    [| congruence].
  exists ev. split_and!; try done. unfold status. rewrite <- Hkey, Hop', He. done.
Qed.

(** C30: trusted evidence is independent and exact: completing a pending run
    records evidence issued by an authenticated parentless runner that is not
    the worker, under a live grant for exactly this task, repository, check and
    command, about the attempt's current revision, whose content the checkout
    showed again and the executor reported, while the worker's fenced lease was
    current. *)
Theorem CompleteVerification_independent e wt rt runner req vres s ev s' :
  sessions_wf s -> status s (VR_OperationKey req) = RunPending ->
  CompleteVerification e wt rt runner req vres s = Ok (ev, s') ->
  Ev_Provenance ev = "trusted-local-runner"%string /\ Ev_IssuerSession ev = runner
  /\ runner <> VR_WorkerSession req
  /\ Ev_ExitCode ev = VRes_ExitCode vres /\ Ev_OutputDigest ev = OutputDigest (default ""%string (VRes_Output vres))
  /\ (exists r g, authenticate s rt runner (now e 2) = Ok r /\ r_Parent r = ""%string
        /\ mget (Grants s) (VR_GrantID req) = Some g /\ VG_Revoked g = false
        /\ now e 3 < VG_ExpiresAt g /\ VG_RunnerSession g = runner
        /\ VG_CheckID g = Ev_CheckID ev /\ Ev_CheckID ev = VR_CheckID req
        /\ VG_CommandDigest g = Ev_CommandDigest ev /\ Ev_CommandDigest ev = VRes_CommandDigest vres)
  /\ (exists a obs l, attemptFor s (VR_AttemptID req) (VR_WorkerSession req) = Ok a
        /\ list.last (revisions s (Attempt_ID a)) = Some (Ev_Revision ev)
        /\ observe e 0 (Locator (Attempt_Observation a)) = Some obs
        /\ Commit obs = VRes_Commit vres /\ Tree obs = VRes_Tree vres
        /\ Commit (Rev_Observation (Ev_Revision ev)) = VRes_Commit vres
        /\ Tree (Rev_Observation (Ev_Revision ev)) = VRes_Tree vres
        /\ mget (Leases s) (VR_LeaseID req) = Some l /\ Lease_Fence l = VR_ExpectedFence req
        /\ currentLease s l (now e 5) = true).
Proof.
  intros Hwf Hst (a & g & op & Hact & Hrun & Hop & Hd & Hcase)%CompleteVerification_ok.
  unfold status in Hst. rewrite Hop in Hst.
  destruct Hcase as [(He & _) | (_ & _ & rev & op' & s1 & Hrev & Hm & (u & Hu) & Hact' & _ & Hev & _)];
    [by rewrite He in Hst |].
  apply currentRevision_ok in Hrev as (_ & Hlast & _). apply observeRevision_ok in Hu as (obs & Ho & _ & Hc & Ht).
  unfold result_matches in Hm. bool_facts.
  destruct Hrun as [(r & Hr & Hp & Hg & Hw & _) (Hgr & Hrv & Hx) (_ & _ & Hci & Hcd)].
  destruct Hact as [_ Hat _ _]. destruct Hact' as [_ _ (l & Hl & _ & _ & Hf & Hcl) _].
  pose proof Hr as (Hmr & _)%authenticate_ok. destruct (Hwf _ _ Hmr) as [Hid _ _ _].
  rewrite Hev. simpl. split_and!; try done; [congruence | |].
  - exists r, g. split_and!; try done. congruence.
  - exists a, obs, l. split_and!; try done; congruence.
Qed.

(** a completed or interrupted run is final: in every later state its
    receipt is the same, so a run that was interrupted never becomes evidence
    and one that completed is never interrupted. *)
Theorem decided_run_final s later key op e wt rt runner req vres ev s' :
  mget (Operations s) key = Some op -> op_Pending op = false -> operation_le s later ->
  VR_OperationKey req = key ->
  mget (Operations later) key = Some op
  /\ (CompleteVerification e wt rt runner req vres later = Ok (ev, s') ->
        op_Evidence op = Some ev /\ s' = later)
  /\ (forall descriptor reason x,
        InterruptVerification e wt rt runner req descriptor reason later = Ok (x, s') ->
        op_Evidence op = None /\ s' = later).
Proof.
  intros Hop Hp Hle <-. destruct (Hle _ _ Hop) as (op' & Hop' & [-> | (? & _)]); [| congruence].
  split_and!; [done | |].
  - intros (a & g & op2 & _ & _ & Hop2 & _ & [(He & _ & ->) | (_ & Hp2 & _)])%CompleteVerification_ok;
      rewrite Hop' in Hop2; injection Hop2 as <-; [done | congruence].
  - intros descriptor reason x (op2 & Hop2 & _ & He & [(_ & _ & ->) | (Hp2 & _)])%InterruptVerification_ok;
      rewrite Hop' in Hop2; injection Hop2 as <-; [done | congruence].
Qed.

(** publishing a revision under a new key appends exactly one, numbered
    after the expected one and holding what the checkout showed, between two
    checks that the session still holds the current lease with the given fence;
    no revision is ever changed. *)
Theorem PublishAttemptRevision_append e token session req s rev s' :
  revisions_ok s -> mget (Operations s) (PR_OperationKey req) = None ->
  PublishAttemptRevision e token session req s = Ok (rev, s') ->
  revisions_ok s' /\ revision_le s s'
  /\ exists a, attemptFor s (PR_AttemptID req) session = Ok a
     /\ revisions s' (Attempt_ID a) = revisions s (Attempt_ID a) ++ [rev]
     /\ (forall d, d <> Attempt_ID a -> revisions s' d = revisions s d)
     /\ PR_ExpectedRevision req = u64_length (revisions s (Attempt_ID a))
     /\ observe e 0 (Locator (Attempt_Observation a)) = Some (Rev_Observation rev)
     /\ Locator (Rev_Observation rev) = Locator (Attempt_Observation a)
     /\ Repository (Rev_Observation rev) = Repository (Attempt_Observation a)
     /\ forall i, i = 2%nat \/ i = 4%nat -> exists l, mget (Leases s) (PR_LeaseID req) = Some l
          /\ Lease_Fence l = PR_ExpectedFence req /\ Lease_SessionID l = session
          /\ currentLease s l (now e i) = true.
Proof.
  intros Hok Hn (r & a & _ & _ & [[(op & Hop & _)%replay_ok _] | Hp])%PublishAttemptRevision_ok;
    [congruence |].
  destruct (published_ok _ _ _ _ _ _ _ _ Hok Hp) as (? & ? & _).
  pose proof (published_revisions _ _ _ _ _ _ _ _ (Attempt_ID a) Hp) as Happ.
  rewrite decide_True in Happ by done.
  split_and!; [done.. |]. exists a.
  assert (forall d, d <> Attempt_ID a -> revisions s' d = revisions s d) as Hoth.
  { intros d Hd. rewrite (published_revisions _ _ _ _ _ _ _ _ d Hp). by rewrite decide_False. }
  destruct Hp as [_ [_ Hat (l1 & ? & ? & ? & ? & ?) _] [_ _ (l2 & ? & ? & ? & ? & ?) _] Hx [Hobs Hsame] _ _].
  unfold sameCheckout in Hsame. bool_facts. split_and!; try done.
  intros i [-> | ->]; [by exists l1 | by exists l2].
Qed.
