(* ===== verification/Reviews.v ===== *)
(** * Independent review

    [internal/governance/sessions/native_review.go]: [GrantReview],
    [RevokeReview], [ProposeReview], [EvaluateReview] and the predicates they
    share.  [rootSession] is in Session, [UpgradeReviews] with the other
    migrations (Schema).  The observers the owner installs ([ReviewObserver],
    [RequiredVerificationObserver]) are fields of [Env]. *)

From S2P Require Import Prelude GoStd Disclosure State Session Withdrawal Resources Attempts Leases Lifecycle Evidence.
#[local] Open Scope Z_scope.

Record ReviewGrantRequest := mkReviewGrantRequest {
  RGR_ReviewerSession : string; RGR_WorkerSession : string; RGR_TaskID : string;
  RGR_Repository : string;
  RGR_ExpiresAt : time
}.
Inductive ReviewReason :=
  | ReviewEligible | ReviewChangesRequested | ReviewAuthorityInvalid | ReviewWorkerInvalid
  | ReviewRevisionStale | ReviewPolicyChanged | ReviewEvidenceInvalid.
Record ReviewEligibility := mkReviewEligibility {
  RE_Eligible : bool; RE_Reason : ReviewReason; RE_Assurance : string
}.

#[export] Instance ReviewRequest_json : ToJSON ReviewRequest := fun r =>
  JObject [("OperationKey", JString (RR_OperationKey r)); ("GrantID", JString (RR_GrantID r));
           ("AttemptID", JString (RR_AttemptID r)); ("LeaseID", JString (RR_LeaseID r));
           ("RevisionID", JString (RR_RevisionID r)); ("ExpectedFence", JInt (RR_ExpectedFence r));
           ("Outcome", JString (RR_Outcome r)); ("Rationale", JString (RR_Rationale r));
           ("EvidenceIDs", JStrings (RR_EvidenceIDs r))]%string.

(** [sort.Slice] by identifier. *)
Definition check_le (a b : RequiredCheck) : Prop := String.le (RC_ID a) (RC_ID b).
#[export] Instance check_le_dec : RelDecision check_le.
Proof. intros a b. unfold check_le. apply _. Defined.

(** Every element passes [p] and differs under [key] from the one before it. *)
Fixpoint each_distinct {A} (p : A -> bool) (key : A -> string) (prev : option A) (l : list A) : bool :=
  match l with
  | [] => true
  | x :: l' =>
    p x && negb (match prev with Some y => (key x =? key y)%string | None => false end)
    && each_distinct p key (Some x) l'
  end.

Definition required_check_ok (c : RequiredCheck) : bool :=
  validID (RC_ID c) && (len (RC_CommandDigest c) =? 64)
  && validDigest ("sha256:" ++ RC_CommandDigest c).

Definition reviewObservation (o : ReviewObservation) : res ReviewObservation :=
  deny_if (negb (validDigest (RO_ChecklistDigest o)) || negb (validID (RO_PolicyRevision o))
           || bool_decide (RO_Checks o = []) || (32 <? Z.of_nat (List.length (RO_Checks o))));;
  let checks := merge_sort check_le (RO_Checks o) in
  deny_if (negb (each_distinct required_check_ok RC_ID None checks));;
  Ok (o <| RO_Checks := checks |>).

(** [observeReview]; the observation is the [k]-th of the transaction. *)
Definition observeReview (a : Authority) (e : Env) (k : nat) (b : TaskBinding) : res ReviewObservation :=
  observer ← must (review_observer e);
  o ← must (observer k (Binding_Workspace (a_binding a)) (TB_ProjectID b) (TB_TaskID b));
  reviewObservation o.

Definition review_action (action : string) : bool :=
  (action =? "review.propose")%string || (action =? "review.evaluate")%string || (action =? "read")%string.

Definition reviewOnly (r : record) (task : string) : bool :=
  subset ["review.propose"; "review.evaluate"]%string (r_Actions r)
  && subset [task_resource task] (r_Resources r)
  && forallb review_action (r_Actions r).

(** The loop over the ancestors of an attempt's session, from [cur]. *)
Fixpoint family_hits (fuel : nat) (s : state) (root : string) (seen : gset string)
    (cur : option record) : option bool :=
  match fuel with
  | O => None
  | S fuel =>
    match cur with
    | None => Some false
    | Some r =>
      if bool_decide (r_ID r ∈ seen) then Some false
      else if (r_ID r =? root)%string then Some true
      else if (r_Parent r =? "")%string then Some false
      else family_hits fuel s root ({[ r_ID r ]} ∪ seen) (mget (Sessions s) (r_Parent r))
    end
  end.

Definition in_family (s : state) (root session : string) : bool :=
  default false (family_hits (session_fuel s) s root ∅ (mget (Sessions s) session)).

Definition reviewIndependence (s : state) (reviewer worker task : string) (t : time) : res string :=
  '(r, root) ← rootSession s reviewer t;
  '(_, workerRoot) ← rootSession s worker t;
  deny_if (negb (r_Parent r =? "")%string || (root =? workerRoot)%string || negb (reviewOnly r task));;
  deny_if (existsb (fun a => (at_task a =? task)%string && in_family s root (Attempt_SessionID a))
             (mvals (Attempts s)));;
  Ok workerRoot.

Definition put_review_grant (s : state) (id : string) (g : ReviewGrant) : res state :=
  m ← mset (ReviewGrants s) id g; Ok (s <| ReviewGrants := m |>).

Definition GrantReview (a : Authority) (e : Env) (owner : string) (req : ReviewGrantRequest)
    : tx ReviewGrant := fun s =>
  deny_if (not_owner s owner);;
  b ← must (mget (Tasks s) (RGR_TaskID req));
  deny_if (negb (TB_Repository b =? RGR_Repository req)%string);;
  root ← reviewIndependence s (RGR_ReviewerSession req) (RGR_WorkerSession req) (RGR_TaskID req) (now e 0);
  o ← observeReview a e 0 b;
  reviewIndependence s (RGR_ReviewerSession req) (RGR_WorkerSession req) (RGR_TaskID req) (now e 1);;
  r ← must (mget (Sessions s) (RGR_ReviewerSession req));
  deny_if (negb (now e 2 <? RGR_ExpiresAt req) || (r_ExpiresAt r <? RGR_ExpiresAt req));;
  id ← mint e 0;
  let result := mkReviewGrant id (RGR_ReviewerSession req) root (RGR_TaskID req) (RGR_Repository req)
    o (RGR_ExpiresAt req) false in
  s' ← put_review_grant s id result;
  Ok (result, s').

Definition RevokeReview (owner id : string) : tx unit := fun s =>
  deny_if (not_owner s owner);;
  g ← must (mget (ReviewGrants s) id);
  s' ← put_review_grant s id (g <| RG_Revoked := true |>);
  Ok (tt, s').

Definition reviewAttempt (s : state) (id : string) : res Attempt :=
  must (List.find (fun a => (Attempt_ID a =? id)%string) (mvals (Attempts s))).

(** Its two clock readings are [i] and [S i]. *)
Definition reviewWorkerExcept (e : Env) (i : nat) (s : state) (a : Attempt) (req : ReviewRequest)
    (closing : string) : res unit :=
  '(r, _) ← rootSession s (Attempt_SessionID a) (now e i);
  b ← must (mget (Tasks s) (at_task a));
  l ← must (mget (Leases s) (RR_LeaseID req));
  deny_if (negb (TB_Repository b =? Repository (Attempt_Observation a))%string
           || negb (TB_ProjectID b =? Attempt_ProjectID a)%string || negb (TB_AdmissionEnabled b)
           || negb (subset [request_action] (r_Actions r))
           || negb (subset [task_resource (at_task a)] (r_Resources r))
           || negb (Lease_AttemptID l =? Attempt_ID a)%string
           || negb (Lease_SessionID l =? Attempt_SessionID a)%string
           || negb (Lease_Fence l =? RR_ExpectedFence req)
           || negb (currentLeaseExcept s l (now e (S i)) closing)).

(** Its two clock readings are [i] and [S i]. *)
Definition reviewGrantCurrent (e : Env) (i : nat) (s : state) (session : string) (a : Attempt)
    (g : ReviewGrant) : bool :=
  match reviewIndependence s session (Attempt_SessionID a) (at_task a) (now e i) with
  | Ok root =>
    negb (RG_Revoked g) && (now e (S i) <? RG_ExpiresAt g) && (RG_ReviewerSession g =? session)%string
    && (RG_WorkerRoot g =? root)%string && (RG_TaskID g =? at_task a)%string
    && (RG_Repository g =? Repository (Attempt_Observation a))%string
  | Err _ => false
  end.

(** One piece of evidence stands for the revision; the three clock readings
    are [i], [S i] and [S (S i)]. *)
Definition evidence_stands (e : Env) (i : nat) (s : state) (a : Attempt) (rev : AttemptRevision)
    (ev : Evidence) : bool :=
  (Ev_Provenance ev =? "trusted-local-runner")%string && (Ev_ExitCode ev =? 0)
  && bool_decide (Ev_Revision ev = rev) && validDigest (Ev_OutputDigest ev)
  && match mget (Grants s) (Ev_GrantID ev), rootSession s (Ev_IssuerSession ev) (now e i),
           rootSession s (Attempt_SessionID a) (now e (S i)) with
     | Some g, Ok (r, root), Ok (_, workerRoot) =>
       negb ((root =? workerRoot)%string || negb (r_Parent r =? "")%string || VG_Revoked g
             || negb (now e (S (S i)) <? VG_ExpiresAt g) || negb (VG_RunnerSession g =? r_ID r)%string
             || negb (VG_TaskID g =? at_task a)%string
             || negb (VG_Repository g =? Repository (Attempt_Observation a))%string
             || negb (VG_CheckID g =? Ev_CheckID ev)%string
             || negb (VG_CommandDigest g =? Ev_CommandDigest ev)%string
             || negb (subset ["verification.run"%string] (r_Actions r))
             || negb (subset [task_resource (at_task a)] (r_Resources r)))
     | _, _, _ => false
     end.

(** The inner loop: the first required check this evidence satisfies that has
    not been found yet. *)
Definition matching_check (checks : list RequiredCheck) (found : gset string) (ev : Evidence)
    : option RequiredCheck :=
  List.find (fun c => (RC_ID c =? Ev_CheckID ev)%string
                      && (RC_CommandDigest c =? Ev_CommandDigest ev)%string
                      && negb (bool_decide (RC_ID c ∈ found))) checks.

Fixpoint review_evidence_go (e : Env) (i : nat) (s : state) (a : Attempt) (rev : AttemptRevision)
    (checks : list RequiredCheck) (found : gset string) (ids : list string) : option (gset string) :=
  match ids with
  | [] => Some found
  | id :: ids =>
    ev ← mget (st_Evidence s) id;
    if negb (evidence_stands e i s a rev ev) then None
    else c ← matching_check checks found ev;
         review_evidence_go e (3 + i) s a rev checks ({[ RC_ID c ]} ∪ found) ids
  end.

Definition reviewEvidence (e : Env) (i : nat) (s : state) (a : Attempt) (rev : AttemptRevision)
    (ids : list string) (checks : list RequiredCheck) : bool :=
  (List.length ids =? List.length checks)%nat
  && match review_evidence_go e i s a rev checks ∅ ids with
     | Some found => (size found =? List.length checks)%nat
     | None => false
     end.

(** The verification set required for this very revision narrows the checks;
    [None] is the return of [ReviewPolicyChanged]. *)
Definition apply_required (s : state) (e : Env) (a : Attempt) (rev : AttemptRevision)
    (obs : ReviewObservation) : option ReviewObservation :=
  match required_observer e with
  | None => Some obs
  | Some observer =>
    match observer (Binding_Workspace (st_Binding s)) (Attempt_ProjectID a) (at_task a) rev with
    | Err _ => None
    | Ok None => Some obs
    | Ok (Some required) =>
      if negb (RVS_RevisionID required =? Rev_ID rev)%string
         || negb (RVS_RevisionCommit required =? Commit (Rev_Observation rev))%string
         || negb (RVS_RevisionTree required =? Tree (Rev_Observation rev))%string
         || (RVS_PlanDigest required =? "")%string || bool_decide (RVS_Checks required = [])
      then None
      else if negb (forallb (fun c => existsb (fun allowed => bool_decide (c = allowed)) (RO_Checks obs))
                      (RVS_Checks required))
      then None
      else Some (obs <| RO_RequiredSet := Some required |> <| RO_Checks := RVS_Checks required |>)
    end
  end.

(** [reviewCurrentExcept]: the current revision and observation, or the reason
    there is none.  The clock readings start at [i]. *)
Definition reviewCurrentExcept (au : Authority) (e : Env) (i : nat) (s : state) (session : string)
    (req : ReviewRequest) (closing : string)
    : (AttemptRevision * ReviewObservation) + ReviewReason :=
  match reviewAttempt s (RR_AttemptID req) with
  | Err _ => inr ReviewWorkerInvalid
  | Ok a =>
    match mget (ReviewGrants s) (RR_GrantID req) with
    | None => inr ReviewAuthorityInvalid
    | Some g =>
      if negb (reviewGrantCurrent e i s session a g) then inr ReviewAuthorityInvalid
      else if negb (is_ok (reviewWorkerExcept e (2 + i) s a req closing)) then inr ReviewWorkerInvalid
      else match currentRevisionExcept s a (RR_RevisionID req) (RR_LeaseID req) (RR_ExpectedFence req)
                   closing with
           | Err _ => inr ReviewRevisionStale
           | Ok rev =>
             match (b ← must (mget (Tasks s) (at_task a)); observeReview au e 0 b) with
             | Err _ => inr ReviewPolicyChanged
             | Ok obs =>
               if negb (bool_decide (obs <| RO_RequiredSet := None |> = RG_Observation g))
               then inr ReviewPolicyChanged
               else if negb (is_ok (observeRevision e 0 a rev)) then inr ReviewRevisionStale
               else match apply_required s e a rev obs with
                    | None => inr ReviewPolicyChanged
                    | Some obs =>
                      let n := (3 * List.length (RR_EvidenceIDs req))%nat in
                      if negb (reviewEvidence e (4 + i) s a rev (RR_EvidenceIDs req) (RO_Checks obs))
                      then inr ReviewEvidenceInvalid
                      else if negb (reviewGrantCurrent e (4 + n + i) s session a g)
                      then inr ReviewAuthorityInvalid
                      else if negb (is_ok (reviewWorkerExcept e (6 + n + i) s a req closing))
                      then inr ReviewWorkerInvalid
                      else inl (rev, obs)
                    end
             end
           end
    end
  end.

Definition reviewCurrent (au : Authority) (e : Env) (i : nat) (s : state) (session : string)
    (req : ReviewRequest) : (AttemptRevision * ReviewObservation) + ReviewReason :=
  reviewCurrentExcept au e i s session req "".

Definition put_review (s : state) (id : string) (r : Review) : res state :=
  m ← mset (Reviews s) id r; Ok (s <| Reviews := m |>).

Definition ProposeReview (au : Authority) (e : Env) (token session : string) (req : ReviewRequest)
    : tx Review := fun s =>
  r ← authenticate s token session (now e 0);
  let count := Z.of_nat (List.length (RR_EvidenceIDs req)) in
  deny_if (negb (validID (RR_OperationKey req))
           || (negb (RR_Outcome req =? "approve")%string
               && negb (RR_Outcome req =? "request-changes")%string)
           || (4096 <? len (RR_Rationale req)) || negb (ValidString (RR_Rationale req))
           || (count =? 0) || (32 <? count));;
  let ids := sort_strings (RR_EvidenceIDs req) in
  let req := req <| RR_EvidenceIDs := ids |> in
  deny_if (negb (each_distinct validID id None ids));;
  a ← reviewAttempt s (RR_AttemptID req);
  deny_if (negb (reviewOnly r (at_task a)));;
  let digest := identity "review" session req in
  match replay s (RR_OperationKey req) digest op_Review with
  | Some old => x ← old; Ok (x, s)
  | None =>
    match reviewCurrent au e 1 s session req with
    | inr _ => Err ErrDenied
    | inl (rev, obs) =>
      id ← mint e 0;
      let result := mkReview id session req rev obs (now e 200) in
      s' ← put_review s id result;
      s' ← put_operation s' (RR_OperationKey req) ((new_operation digest) <| op_Review := Some result |>);
      Ok (result, s')
    end
  end.

Definition EvaluateReview (au : Authority) (e : Env) (token session id : string) (s : state)
    : res ReviewEligibility :=
  let result eligible reason := mkReviewEligibility eligible reason "cooperative-credential-separation" in
  r ← authenticate s token session (now e 0);
  p ← must (mget (Reviews s) id);
  deny_if (negb (Review_IssuerSession p =? session)%string);;
  a ← reviewAttempt s (RR_AttemptID (Review_Request p));
  deny_if (negb (reviewOnly r (at_task a)));;
  match reviewCurrent au e 1 s session (Review_Request p) with
  | inr reason => Ok (result false reason)
  | inl (rev, obs) =>
    if negb (bool_decide (rev = Review_Revision p)) then Ok (result false ReviewRevisionStale)
    else if negb (bool_decide (obs = Review_Observation p)) then Ok (result false ReviewPolicyChanged)
    else if negb (RR_Outcome (Review_Request p) =? "approve")%string
    then Ok (result false ReviewChangesRequested)
    else Ok (result true ReviewEligible)
  end.

#[global] Arguments reviewObservation : simpl never.
#[global] Arguments observeReview : simpl never.
#[global] Arguments reviewOnly : simpl never.
#[global] Arguments in_family : simpl never.
#[global] Arguments reviewIndependence : simpl never.
#[global] Arguments put_review_grant : simpl never.
#[global] Arguments put_review : simpl never.
#[global] Arguments reviewAttempt : simpl never.
#[global] Arguments reviewWorkerExcept : simpl never.
#[global] Arguments reviewGrantCurrent : simpl never.
#[global] Arguments evidence_stands : simpl never.
#[global] Arguments matching_check : simpl never.
#[global] Arguments reviewEvidence : simpl never.
#[global] Arguments apply_required : simpl never.
#[global] Arguments reviewCurrentExcept : simpl never.

(** ** Families *)

Lemma family_hits_lineage fuel s root seen id l :
  sessions_wf s -> is_Some (mget (Sessions s) root) -> id <> ""%string ->
  lineage_go fuel s seen id = Some l ->
  family_hits fuel s root seen (mget (Sessions s) id) = Some (existsb (String.eqb root) l).
Proof.
  intros Hwf Hroot. revert seen id l. induction fuel as [|fuel IH]; intros seen id l Hid; simpl; [done |].
  rewrite (proj2 (String.eqb_neq _ _) Hid). simpl.
  destruct (mget (Sessions s) id) as [r |] eqn:Hr.
  - destruct (Hwf _ _ Hr) as [Erid _ _ _]. rewrite Erid.
    case_bool_decide; [by intros [= <-] |].
    intros (l' & Hl & ->)%fmap_Some. cbn [existsb]. rewrite (String.eqb_sym root).
    destruct (String.eqb_spec id root); [done |]. cbn [orb].
    destruct (String.eqb_spec (r_Parent r) "") as [E | Hne]; [| by apply IH].
    rewrite E in Hl. destruct fuel; simpl in Hl; [done | by injection Hl as <-].
  - case_bool_decide as Hs; intros [= <-]; [done |]. cbn [existsb].
    destruct (String.eqb_spec root id) as [-> |]; [| done]. destruct Hroot. congruence.
Qed.

Lemma in_family_spec s root id :
  sessions_wf s -> is_Some (mget (Sessions s) root) ->
  in_family s root id = true <-> root ∈ lineage s id.
Proof.
  intros Hwf Hroot. unfold in_family, lineage. destruct (String.eqb_spec id "") as [-> | Hid].
  - destruct (mget (Sessions s) "") as [r |] eqn:Hr.
    { by destruct (Hwf _ _ Hr) as [_ [] _ _]. }
    unfold session_fuel. simpl. split; [done | by intros ?%elem_of_nil].
  - destruct (lineage_go_total (session_fuel s) s ∅ id) as [l Hl].
    { rewrite difference_empty_L. apply session_keys_size. }
    rewrite Hl, (family_hits_lineage _ _ _ _ _ _ Hwf Hroot Hid Hl). simpl.
    rewrite existsb_elem. split.
    + by intros (x & Hx & ->%String.eqb_eq).
    + intros Hx. exists root. by rewrite String.eqb_refl.
Qed.

Lemma live_path_root_self s t r ids root :
  live_path s t r ids root -> r_Parent r = ""%string -> root = r_ID r.
Proof. by destruct 1. Qed.

(** A reviewer that stands apart from the worker's family and from every
    attempt on the task. *)
Record independent (s : state) (reviewer worker task root : string) (t : time) : Prop := {
  ind_reviewer : exists r, rootSession s reviewer t = Ok (r, reviewer) /\ r_Parent r = ""%string
    /\ reviewOnly r task = true;
  ind_worker : exists w, rootSession s worker t = Ok (w, root);
  ind_distinct : reviewer <> root;
  ind_attempts k a : mget (Attempts s) k = Some a -> at_task a = task ->
    ~ rtc (up s) (Attempt_SessionID a) reviewer
}.

Lemma reviewIndependence_ok s reviewer worker task t root :
  sessions_wf s -> reviewIndependence s reviewer worker task t = Ok root ->
  independent s reviewer worker task root t.
Proof.
  unfold reviewIndependence. intros Hwf H. apply bind_ok in H as ([r rroot] & Hr & H).
  apply bind_ok in H as ([w wroot] & Hw & H). apply bind_ok in H as (? & Hc%deny_if_ok & H).
  apply bind_ok in H as (? & Ha%deny_if_ok & H). injection H as <-. bool_facts.
  pose proof Hr as (Hm & ids & Hl)%rootSession_ok.
  destruct (Hwf _ _ Hm) as [Hid Hne _ _].
  assert (rroot = reviewer) as -> by (rewrite <- Hid; by eapply live_path_root_self).
  constructor; [exists r; done | by exists w | done |].
  intros k a Hk Ht Hup. rewrite existsb_not_elem in Ha.
  specialize (Ha a ltac:(apply elem_of_mvals; eauto)).
  rewrite Ht, String.eqb_refl in Ha. simpl in Ha.
  apply not_true_iff_false in Ha. apply Ha. apply in_family_spec; [done | by eexists |].
  by apply lineage_spec.
Qed.

(** ** Evidence for a review *)

Lemma evidence_stands_ok e i s a rev ev :
  evidence_stands e i s a rev ev = true ->
  Ev_Provenance ev = "trusted-local-runner"%string /\ Ev_ExitCode ev = 0 /\ Ev_Revision ev = rev
  /\ exists g r root wroot w,
     mget (Grants s) (Ev_GrantID ev) = Some g /\ VG_Revoked g = false
     /\ rootSession s (Ev_IssuerSession ev) (now e i) = Ok (r, root) /\ r_Parent r = ""%string
     /\ rootSession s (Attempt_SessionID a) (now e (S i)) = Ok (w, wroot) /\ root <> wroot
     /\ VG_RunnerSession g = r_ID r /\ VG_TaskID g = at_task a
     /\ VG_CheckID g = Ev_CheckID ev /\ VG_CommandDigest g = Ev_CommandDigest ev.
Proof.
  unfold evidence_stands. intros H. apply andb_true_iff in H as [H Hg]. bool_facts.
  destruct (mget (Grants s) _) as [g |]; [| done].
  destruct (rootSession s (Ev_IssuerSession ev) _) as [[r root] |]; [| done].
  destruct (rootSession s (Attempt_SessionID a) _) as [[w wroot] |]; [| done].
  bool_facts. split_and!; try done. exists g, r, root, wroot, w. done.
Qed.

(** [ev] satisfies the check [c]. *)
Definition satisfies (e : Env) (s : state) (a : Attempt) (rev : AttemptRevision) (c : RequiredCheck)
    (ev : Evidence) : Prop :=
  Ev_CheckID ev = RC_ID c /\ Ev_CommandDigest ev = RC_CommandDigest c
  /\ exists i, evidence_stands e i s a rev ev = true.

Lemma matching_check_ok checks found ev c :
  matching_check checks found ev = Some c ->
  c ∈ checks /\ RC_ID c = Ev_CheckID ev /\ RC_CommandDigest c = Ev_CommandDigest ev
  /\ RC_ID c ∉ found.
Proof. unfold matching_check. intros [? ?]%find_elem. by bool_facts. Qed.

Lemma review_evidence_go_ok e i s a rev checks found ids out :
  review_evidence_go e i s a rev checks found ids = Some out ->
  (forall x, x ∈ out -> x ∈ found \/ exists id ev c, id ∈ ids /\ mget (st_Evidence s) id = Some ev
     /\ c ∈ checks /\ RC_ID c = x /\ satisfies e s a rev c ev)
  /\ (forall id, id ∈ ids -> exists ev c, mget (st_Evidence s) id = Some ev /\ c ∈ checks
     /\ satisfies e s a rev c ev).
Proof.
  revert i found. induction ids as [|id ids IH]; intros i found; simpl.
  { intros [= <-]. split; [by left | by intros ? ?%elem_of_nil]. }
  destruct (mget (st_Evidence s) id) as [ev |] eqn:Hev; simpl; [| done].
  destruct (evidence_stands e i s a rev ev) eqn:Hst; simpl; [| done].
  destruct (matching_check checks found ev) as [c |] eqn:Hc; simpl; [| done].
  intros H. destruct (IH _ _ H) as [H1 H2].
  apply matching_check_ok in Hc as (Hin & Hid & Hd & _).
  assert (satisfies e s a rev c ev) as Hsat by (split_and!; eauto).
  split.
  - intros x Hx. destruct (H1 x Hx) as [[->%elem_of_singleton | ?]%elem_of_union | (id' & ev' & c' & ? & ?)].
    + right. exists id, ev, c. split_and!; [by left | done..].
    + by left.
    + right. exists id', ev', c'. split; [by right | done].
  - intros x [-> | Hx]%elem_of_cons; [by exists ev, c | by apply H2].
Qed.

Lemma size_list_to_set_NoDup (l : list string) :
  size (list_to_set (C := gset string) l) = List.length l -> NoDup l.
Proof.
  induction l as [|x l IH]; [constructor |].
  rewrite list_to_set_cons, size_union_alt, size_singleton, length_cons. intros H.
  pose proof (size_list_to_set_le l) as Hle.
  destruct (decide (x ∈ (list_to_set l : gset string))) as [Hx | Hx].
  - assert (size (list_to_set l ∖ {[ x ]} : gset string) < size (list_to_set l : gset string))%nat.
    { apply subset_size. set_solver. }
    lia.
  - assert (list_to_set l ∖ {[ x ]} = (list_to_set l : gset string)) as E by set_solver.
    rewrite E in H. constructor; [by rewrite elem_of_list_to_set in Hx | apply IH; lia].
Qed.

Lemma reviewEvidence_ok e i s a rev ids checks :
  reviewEvidence e i s a rev ids checks = true ->
  List.length ids = List.length checks /\ NoDup (RC_ID <$> checks)
  /\ (forall c, c ∈ checks -> exists id ev, id ∈ ids /\ mget (st_Evidence s) id = Some ev
        /\ satisfies e s a rev c ev)
  /\ (forall id, id ∈ ids -> exists ev c, mget (st_Evidence s) id = Some ev /\ c ∈ checks
        /\ satisfies e s a rev c ev).
Proof.
  unfold reviewEvidence. intros [Hlen%Nat.eqb_eq H]%andb_true_iff.
  destruct (review_evidence_go _ _ _ _ _ _ _ _) as [out |] eqn:Hgo; [| done].
  apply Nat.eqb_eq in H. destruct (review_evidence_go_ok _ _ _ _ _ _ _ _ _ Hgo) as [H1 H2].
  assert (out ⊆ list_to_set (RC_ID <$> checks)) as Hsub.
  { intros x Hx. destruct (H1 x Hx) as [? | (id & ev & c & _ & _ & Hc & <- & _)]; [set_solver |].
    apply elem_of_list_to_set, list_elem_of_fmap. by exists c. }
  pose proof (subseteq_size _ _ Hsub) as Hsz.
  pose proof (size_list_to_set_le (RC_ID <$> checks)) as Hle. rewrite length_fmap in Hle.
  assert (NoDup (RC_ID <$> checks)) as Hnd.
  { apply size_list_to_set_NoDup. rewrite length_fmap. lia. }
  split_and!; [done | done | | done].
  assert (out = list_to_set (RC_ID <$> checks)) as Heq.
  { apply set_subseteq_size_eq; [done | lia]. }
  intros c Hc. assert (RC_ID c ∈ out) as Hx.
  { rewrite Heq. apply elem_of_list_to_set, list_elem_of_fmap. by exists c. }
  destruct (H1 _ Hx) as [? | (id & ev & c' & Hid & Hev & Hc' & E & Hs)]; [set_solver |].
  exists id, ev. split_and!; [done.. |].
  enough (c' = c) as <- by done.
  clear -Hnd Hc Hc' E. induction checks as [|d checks IH]; [by apply elem_of_nil in Hc |].
  rewrite fmap_cons in Hnd. apply list.NoDup_cons in Hnd as [Hd Hnd].
  apply elem_of_cons in Hc as [-> | Hc], Hc' as [-> | Hc']; [done | | | by apply IH].
  - destruct Hd. rewrite <- E. apply list_elem_of_fmap. by exists c'.
  - destruct Hd. rewrite E. apply list_elem_of_fmap. by exists c.
Qed.

(** ** What a successful run went through *)

Lemma currentRevisionExcept_ok s a id lease fence closing rev :
  currentRevisionExcept s a id lease fence closing = Ok rev ->
  list.last (revisions s (Attempt_ID a)) = Some rev
  /\ Rev_ID rev = id /\ Rev_LeaseID rev = lease /\ Rev_Fence rev = fence.
Proof. unfold currentRevisionExcept. intros H. by inv_ok; subst. Qed.

Lemma reviewGrantCurrent_ok e i s session a g :
  sessions_wf s -> reviewGrantCurrent e i s session a g = true ->
  independent s session (Attempt_SessionID a) (at_task a) (RG_WorkerRoot g) (now e i)
  /\ RG_Revoked g = false /\ now e (S i) < RG_ExpiresAt g /\ RG_ReviewerSession g = session
  /\ RG_TaskID g = at_task a /\ RG_Repository g = Repository (Attempt_Observation a).
Proof.
  unfold reviewGrantCurrent. intros Hwf H.
  destruct (reviewIndependence _ _ _ _ _) as [root |] eqn:Hi; [| done].
  bool_facts. apply reviewIndependence_ok in Hi; [| done]. by subst root.
Qed.

(** The conditions under which a review counts, all holding at once. *)
Record reviewable (au : Authority) (e : Env) (i : nat) (s : state) (session : string)
    (req : ReviewRequest) (closing : string) (rev : AttemptRevision) (obs : ReviewObservation)
    : Prop := {
  rvb_attempt : exists a g base, reviewAttempt s (RR_AttemptID req) = Ok a
    /\ mget (ReviewGrants s) (RR_GrantID req) = Some g
    /\ reviewGrantCurrent e i s session a g = true
    /\ reviewGrantCurrent e (4 + 3 * List.length (RR_EvidenceIDs req) + i) s session a g = true
    /\ (exists u, reviewWorkerExcept e (6 + 3 * List.length (RR_EvidenceIDs req) + i) s a req
          closing = Ok u)
    /\ list.last (revisions s (Attempt_ID a)) = Some rev
    /\ Rev_ID rev = RR_RevisionID req /\ Rev_LeaseID rev = RR_LeaseID req
    /\ Rev_Fence rev = RR_ExpectedFence req
    /\ (exists u, observeRevision e 0 a rev = Ok u)
    /\ base <| RO_RequiredSet := None |> = RG_Observation g
    /\ apply_required s e a rev base = Some obs
    /\ reviewEvidence e (4 + i) s a rev (RR_EvidenceIDs req) (RO_Checks obs) = true
}.

Lemma reviewCurrentExcept_ok au e i s session req closing rev obs :
  reviewCurrentExcept au e i s session req closing = inl (rev, obs) ->
  reviewable au e i s session req closing rev obs.
Proof.
  unfold reviewCurrentExcept. intros H.
  destruct (reviewAttempt _ _) as [a |] eqn:Ha; [| done].
  destruct (mget (ReviewGrants s) _) as [g |] eqn:Hg; [| done].
  destruct (reviewGrantCurrent e i s session a g) eqn:Hg1; [| done]. simpl negb in H. cbv iota in H.
  destruct (is_ok (reviewWorkerExcept _ _ _ _ _ _)); [| done]. simpl negb in H. cbv iota in H.
  destruct (currentRevisionExcept _ _ _ _ _ _) as [rev' |] eqn:Hrev; [| done].
  destruct (b ← _; _) as [base |]; [| done].
  destruct (bool_decide (base <| RO_RequiredSet := None |> = RG_Observation g)) eqn:Hb; [| done].
  simpl negb in H. cbv iota in H.
  destruct (is_ok (observeRevision _ _ _ _)) eqn:Ho; [| done]. simpl negb in H. cbv iota in H.
  destruct (apply_required _ _ _ _ _) as [obs' |] eqn:Hq; [| done].
  match type of H with (if negb ?c then _ else _) = _ => destruct c eqn:Hev; [| done] end.
  match type of H with (if negb true then _ else if negb ?c then _ else _) = _ =>
    destruct c eqn:Hg2; [| done] end.
  match type of H with (if negb true then _ else if negb true then _ else if negb ?c then _ else _) = _ =>
    destruct c eqn:Hw; [| done] end.
  injection H as -> ->. bool_facts.
  apply is_ok_true in Ho. apply is_ok_true in Hw.
  apply currentRevisionExcept_ok in Hrev as (? & ? & ? & ?).
  constructor. exists a, g, base. done.
Qed.

Lemma ProposeReview_ok au e token session req s x s' :
  ProposeReview au e token session req s = Ok (x, s') ->
  exists r a, authenticate s token session (now e 0) = Ok r
  /\ reviewAttempt s (RR_AttemptID req) = Ok a /\ reviewOnly r (at_task a) = true
  /\ (RR_Outcome req = "approve"%string \/ RR_Outcome req = "request-changes"%string)
  /\ let req := req <| RR_EvidenceIDs := sort_strings (RR_EvidenceIDs req) |> in
     (replay s (RR_OperationKey req) (identity "review" session req) op_Review = Some (Ok x) /\ s' = s)
     \/ (mget (Operations s) (RR_OperationKey req) = None
         /\ exists rev obs s1, reviewable au e 1 s session req "" rev obs
            /\ mint e 0 = Ok (Review_ID x)
            /\ x = mkReview (Review_ID x) session req rev obs (now e 200)
            /\ put_review s (Review_ID x) x = Ok s1
            /\ put_operation s1 (RR_OperationKey req)
                 ((new_operation (identity "review" session req)) <| op_Review := Some x |>) = Ok s').
Proof.
  unfold ProposeReview. intros H. apply bind_ok in H as (r & Hr & H).
  apply bind_ok in H as (? & Hc%deny_if_ok & H). apply bind_ok in H as (? & Hd%deny_if_ok & H).
  apply bind_ok in H as (a & Ha & H). apply bind_ok in H as (? & Hro%deny_if_ok & H).
  exists r, a.
  assert (RR_Outcome req = "approve"%string \/ RR_Outcome req = "request-changes"%string) as Hout.
  { destruct (String.eqb_spec (RR_Outcome req) "approve"); [by left |].
    destruct (String.eqb_spec (RR_Outcome req) "request-changes"); [by right |].
    exfalso. repeat (apply orb_false_iff in Hc as [Hc ?]). done. }
  clear Hc. bool_facts. split_and!; [done.. |]. cbv zeta.
  destruct (replay _ _ _ _) as [old |] eqn:Hrep.
  - left. apply bind_ok in H as (y & -> & H). by injection H as <- <-.
  - right. apply replay_none in Hrep. split; [done |].
    destruct (reviewCurrent _ _ _ _ _ _) as [[rev obs] |] eqn:Hcur; [| done].
    apply bind_ok in H as (id & Hid & H). apply bind_ok in H as (s1 & Hs1 & H).
    apply bind_ok in H as (s2 & Hs2 & H). injection H as <- <-.
    apply reviewCurrentExcept_ok in Hcur. exists rev, obs, s1. done.
Qed.

Lemma put_review_ok s id r s' : put_review s id r = Ok s' ->
  exists m, mset (Reviews s) id r = Ok m /\ s' = s <| Reviews := m |>.
Proof. unfold put_review. intros H. inv_ok. eauto. Qed.

Lemma put_review_grant_ok s id g s' : put_review_grant s id g = Ok s' ->
  exists m, mset (ReviewGrants s) id g = Ok m /\ s' = s <| ReviewGrants := m |>.
Proof. unfold put_review_grant. intros H. inv_ok. eauto. Qed.

Lemma GrantReview_ok a e owner req s g s' :
  GrantReview a e owner req s = Ok (g, s') ->
  not_owner s owner = false
  /\ (exists root, reviewIndependence s (RGR_ReviewerSession req) (RGR_WorkerSession req)
        (RGR_TaskID req) (now e 1) = Ok root)
  /\ mint e 0 = Ok (RG_ID g)
  /\ (exists o r, g = mkReviewGrant (RG_ID g) (RGR_ReviewerSession req) (RG_WorkerRoot g)
        (RGR_TaskID req) (RGR_Repository req) o (RGR_ExpiresAt req) false
        /\ mget (Sessions s) (RGR_ReviewerSession req) = Some r
        /\ now e 2 < RGR_ExpiresAt req /\ RGR_ExpiresAt req <= r_ExpiresAt r)
  /\ put_review_grant s (RG_ID g) g = Ok s'.
Proof.
  unfold GrantReview. intros H. apply bind_ok in H as (? & Ho%deny_if_ok & H).
  apply bind_ok in H as (b & _ & H). apply bind_ok in H as (? & _ & H).
  apply bind_ok in H as (root & _ & H). apply bind_ok in H as (o & _ & H).
  apply bind_ok in H as (root2 & Hr2 & H). apply bind_ok in H as (r & Hr%must_ok & H).
  apply bind_ok in H as (? & Hx%deny_if_ok & H). apply bind_ok in H as (id & Hid & H).
  apply bind_ok in H as (s1 & Hs1 & H). injection H as <- <-. bool_facts.
  split_and!; [done | by eexists | done | | done]. exists o, r. done.
Qed.

(** ** Properties *)

(** C31: a review is independent: one recorded under a new key comes from an
    authenticated parentless reviewer that holds only review capabilities,
    stands outside the worker's family, and has no session at or below it that
    ever registered an attempt on the task; it is bound to the attempt's
    current revision as the checkout shows it, and every required check is
    satisfied by cited trusted evidence with exit code zero. *)
Theorem ProposeReview_independent au e token session req s x s' :
  sessions_wf s -> mget (Operations s) (RR_OperationKey req) = None ->
  ProposeReview au e token session req s = Ok (x, s') ->
  exists a g, reviewAttempt s (RR_AttemptID req) = Ok a
  /\ mget (ReviewGrants s) (RR_GrantID req) = Some g /\ RG_Revoked g = false
  /\ RG_ReviewerSession g = session
  /\ (exists r, authenticate s token session (now e 0) = Ok r /\ r_Parent r = ""%string
        /\ forall action, action ∈ r_Actions r ->
             action ∈ ["review.propose"; "review.evaluate"; "read"]%string)
  /\ session <> RG_WorkerRoot g
  /\ (forall k b, mget (Attempts s) k = Some b -> at_task b = at_task a ->
        ~ rtc (up s) (Attempt_SessionID b) session)
  /\ list.last (revisions s (Attempt_ID a)) = Some (Review_Revision x)
  /\ (exists u, observeRevision e 0 a (Review_Revision x) = Ok u)
  /\ NoDup (RC_ID <$> RO_Checks (Review_Observation x))
  /\ (forall c, c ∈ RO_Checks (Review_Observation x) -> exists id ev, id ∈ RR_EvidenceIDs req
        /\ mget (st_Evidence s) id = Some ev /\ Ev_CheckID ev = RC_ID c
        /\ Ev_CommandDigest ev = RC_CommandDigest c /\ Ev_Revision ev = Review_Revision x
        /\ Ev_Provenance ev = "trusted-local-runner"%string /\ Ev_ExitCode ev = 0)
  /\ mget (Reviews s') (Review_ID x) = Some x.
Proof.
  intros Hwf Hn (r & a & Hr & Ha & Hro & _ & [[(op & Hop & _)%replay_ok _] | (_ & rev & obs & s1 & Hrv & _ & Hx & Hput & Hop)])%ProposeReview_ok;
    [simpl in Hop; congruence |].
  destruct Hrv as [(a' & g & base & Ha' & Hg & Hg1 & _ & _ & Hlast & _ & _ & _ & Hu & _ & _ & Hev)].
  simpl in *. rewrite Ha in Ha'. injection Ha' as <-.
  apply reviewGrantCurrent_ok in Hg1 as ([(q & Hq & Hp & _) _ Hne Hatt] & Hrv & _ & Hrs & _ & _); [| done].
  apply reviewEvidence_ok in Hev as (_ & Hnd & Hcov & _).
  exists a, g. rewrite Hx. simpl. split_and!; try done.
  - exists r. split; [done |]. pose proof Hr as (Hm & _)%authenticate_ok.
    apply rootSession_ok in Hq as (Hm' & _). rewrite Hm in Hm'. injection Hm' as <-.
    split; [done |]. unfold reviewOnly in Hro. apply andb_true_iff in Hro as [_ Hro].
    rewrite forallb_elem in Hro. intros action Hin. specialize (Hro _ Hin).
    unfold review_action in Hro. rewrite !orb_true_iff, !String.eqb_eq in Hro. set_solver.
  - intros c Hc. destruct (Hcov c Hc) as (id & ev & Hid & Hev & Hci & Hcd & j & Hst).
    apply evidence_stands_ok in Hst as (? & ? & ? & _). exists id, ev. split_and!; try done.
    revert Hid. unfold sort_strings. by rewrite merge_sort_Permutation.
  - apply put_review_ok in Hput as (m & Hm & ->). apply put_operation_ok in Hop as (ops & _ & ->).
    simpl. rewrite Hx in Hm. by eapply mget_mset_eq.
Qed.

(** Evidence covers a checklist exactly: when [reviewEvidence] accepts, the
    checks have distinct identifiers, every check is satisfied by one of the
    cited pieces of evidence, every cited piece satisfies one of the checks, and
    there are as many of one as of the other. *)
Theorem reviewEvidence_covers e i s a rev ids checks :
  reviewEvidence e i s a rev ids checks = true ->
  List.length ids = List.length checks /\ NoDup (RC_ID <$> checks)
  /\ (forall c, c ∈ checks -> exists id ev, id ∈ ids /\ mget (st_Evidence s) id = Some ev
        /\ satisfies e s a rev c ev)
  /\ (forall id, id ∈ ids -> exists ev c, mget (st_Evidence s) id = Some ev /\ c ∈ checks
        /\ satisfies e s a rev c ev).
Proof. apply reviewEvidence_ok. Qed.

(** a review is eligible only while everything it asserted still holds: the
    evaluator is its own issuer, the outcome was "approve", and the revision and
    the observation it was made on are exactly the ones current now. *)
Theorem EvaluateReview_eligible au e token session id s x :
  sessions_wf s -> EvaluateReview au e token session id s = Ok x -> RE_Eligible x = true ->
  exists p a g, mget (Reviews s) id = Some p /\ Review_IssuerSession p = session
  /\ RR_Outcome (Review_Request p) = "approve"%string
  /\ reviewAttempt s (RR_AttemptID (Review_Request p)) = Ok a
  /\ list.last (revisions s (Attempt_ID a)) = Some (Review_Revision p)
  /\ mget (ReviewGrants s) (RR_GrantID (Review_Request p)) = Some g /\ RG_Revoked g = false
  /\ independent s session (Attempt_SessionID a) (at_task a) (RG_WorkerRoot g) (now e 1)
  /\ (forall c, c ∈ RO_Checks (Review_Observation p) -> exists eid ev,
        eid ∈ RR_EvidenceIDs (Review_Request p) /\ mget (st_Evidence s) eid = Some ev
        /\ satisfies e s a (Review_Revision p) c ev).
Proof.
  intros Hwf. unfold EvaluateReview. intros H Hel. apply bind_ok in H as (r & _ & H).
  apply bind_ok in H as (p & Hp%must_ok & H). apply bind_ok in H as (? & Hi%deny_if_ok & H).
  apply bind_ok in H as (a & Ha & H). apply bind_ok in H as (? & _ & H). bool_facts.
  destruct (reviewCurrent _ _ _ _ _ _) as [[rev obs] | reason] eqn:Hc; [| injection H as <-; done].
  destruct (bool_decide (rev = _)) eqn:E1; [| by injection H as <-].
  destruct (bool_decide (obs = _)) eqn:E2; [| by injection H as <-].
  destruct (String.eqb_spec (RR_Outcome (Review_Request p)) "approve") as [Ho |]; [| by injection H as <-].
  bool_facts. subst rev obs.
  apply reviewCurrentExcept_ok in Hc as [(a' & g & base & Ha' & Hg & Hg1 & _ & _ & Hlast & _ & _ & _ & _ & _ & _ & Hev)].
  rewrite Ha in Ha'. injection Ha' as <-.
  apply reviewGrantCurrent_ok in Hg1 as (? & ? & _); [| done].
  apply reviewEvidence_ok in Hev as (_ & _ & Hcov & _).
  exists p, a, g. by split_and!.
Qed.
