(* ===== verification/Publication.v ===== *)
(** * Publication decisions

    [internal/governance/sessions/publication.go]: [SetPublicationPolicy],
    [EvaluatePublication] and [ConsumePublication].  The policy kernel they
    consult is [Disclosure.EvaluatePublication]; [UpgradePublication] is with
    the other migrations (Schema). *)

From S2P Require Import Prelude GoStd Disclosure State Session Withdrawal Resources Attempts Leases Lifecycle Evidence.
#[local] Open Scope Z_scope.

Record SetPublicationPolicyRequest := mkSetPolicy {
  SPR_TaskID : string; SPR_Repository : string; SPR_Visibility : string;
  SPR_IncludeInternal : bool; SPR_RecordedInternal : bool;
  SPR_ExpectedGeneration : Z
}.
Record ConsumePublicationRequest := mkConsume {
  CP_OperationKey : string; CP_DecisionID : string; CP_Action : PublicationAction
}.
#[export] Instance ConsumePublicationRequest_settable : Settable ConsumePublicationRequest := fun r =>
  mkConsume (CP_OperationKey r) (CP_DecisionID r) (CP_Action r).

#[export] Instance PublicationPolicy_json : ToJSON PublicationPolicy := fun p =>
  JObject [("TaskID", JString (PP_TaskID p)); ("Repository", JString (PP_Repository p));
           ("Visibility", JString (PP_Visibility p)); ("IncludeInternal", JBool (PP_IncludeInternal p));
           ("RecordedInternal", JBool (PP_RecordedInternal p));
           ("Generation", JInt (PP_Generation p)); ("Digest", JString (PP_Digest p))]%string.
#[export] Instance PublicationAction_json : ToJSON PublicationAction := fun a =>
  JObject [("Action", JString (PA_Action a)); ("Repository", JString (PA_Repository a));
           ("Issue", JString (PA_Issue a)); ("PayloadSHA256", JString (PA_PayloadSHA256 a));
           ("Fields", JStrings (PA_Fields a))]%string.
#[export] Instance PublicationDecisionRequest_json : ToJSON PublicationDecisionRequest := fun r =>
  JObject [("OperationKey", JString (PDR_OperationKey r)); ("AttemptID", JString (PDR_AttemptID r));
           ("LeaseID", JString (PDR_LeaseID r)); ("RevisionID", JString (PDR_RevisionID r));
           ("ExpectedFence", JInt (PDR_ExpectedFence r)); ("ExpiresAt", JTime (PDR_ExpiresAt r));
           ("Action", to_json (PDR_Action r))]%string.
#[export] Instance ConsumePublicationRequest_json : ToJSON ConsumePublicationRequest := fun r =>
  JObject [("OperationKey", JString (CP_OperationKey r)); ("DecisionID", JString (CP_DecisionID r));
           ("Action", to_json (CP_Action r))]%string.
#[export] Instance CheckoutObservation_json : ToJSON CheckoutObservation := fun o =>
  JObject [("Locator", JString (Locator o)); ("Repository", JString (Repository o));
           ("Commit", JString (Commit o)); ("Tree", JString (Tree o));
           ("ObservedAt", JTime (ObservedAt o))]%string.
#[export] Instance AttemptRevision_json : ToJSON AttemptRevision := fun r =>
  JObject [("ID", JString (Rev_ID r)); ("AttemptID", JString (Rev_AttemptID r));
           ("SessionID", JString (Rev_SessionID r)); ("LeaseID", JString (Rev_LeaseID r));
           ("Sequence", JInt (Rev_Sequence r)); ("Fence", JInt (Rev_Fence r));
           ("Observation", to_json (Rev_Observation r)); ("PublishedAt", JTime (Rev_PublishedAt r))]%string.
#[export] Instance Binding_json : ToJSON Binding := fun b =>
  JObject [("Workspace", JString (Binding_Workspace b)); ("Installation", JString (Binding_Installation b))]%string.

(** The two anonymous structs digested by [EvaluatePublication]. *)
Record AuthorityPlace := mkPlace { Place_Binding : Binding; Place_Path : string }.
#[export] Instance AuthorityPlace_json : ToJSON AuthorityPlace := fun p =>
  JObject [("Binding", to_json (Place_Binding p)); ("Path", JString (Place_Path p))]%string.
Record BoundRevision := mkBound { Bound_Binding : Observation; Bound_Revision : AttemptRevision }.
#[export] Instance BoundRevision_json : ToJSON BoundRevision := fun b =>
  JObject [("Binding", to_json (Bound_Binding b)); ("Revision", to_json (Bound_Revision b))]%string.

Definition policy_history (s : state) (task : string) : list PublicationPolicy :=
  default [] (mget (PublicationPolicies s) task).

Definition SetPublicationPolicy (owner : string) (req : SetPublicationPolicyRequest)
    : tx PublicationPolicy := fun s =>
  deny_if (not_owner s owner);;
  deny_if (negb (validID (SPR_TaskID req)) || negb (repositoryPattern (SPR_Repository req))
           || (negb (SPR_Visibility req =? "public")%string
               && negb (SPR_Visibility req =? "private")%string
               && negb (SPR_Visibility req =? "unknown")%string));;
  deny_if (negb (mhas (Tasks s) (SPR_TaskID req)));;
  let h := policy_history s (SPR_TaskID req) in
  deny_if (negb (u64_length h =? SPR_ExpectedGeneration req)
           || (SPR_ExpectedGeneration req =? max_uint64));;
  let p := mkPublicationPolicy (SPR_TaskID req) (SPR_Repository req) (SPR_Visibility req)
    (SPR_IncludeInternal req) (SPR_RecordedInternal req) (incr_u64 (SPR_ExpectedGeneration req)) "" in
  let result := p <| PP_Digest := identity "publication-policy/v1" "" p |> in
  m ← mset (PublicationPolicies s) (SPR_TaskID req) (h ++ [result]);
  Ok (result, s <| PublicationPolicies := m |>).

Definition normalizePublicationAction (a : PublicationAction) : res PublicationAction :=
  deny_if (bool_decide (PA_Fields a = []) || (32 <? Z.of_nat (List.length (PA_Fields a))));;
  Ok (a <| PA_Fields := sort_unique (PA_Fields a) |>).

(** [publicationCurrent]; its clock readings are [i] to [2 + i]. *)
Definition publicationCurrent (e : Env) (i : nat) (s : state) (session : string)
    (req : PublicationDecisionRequest) : res (Attempt * AttemptRevision * PublicationPolicy) :=
  '(r, _) ← rootSession s session (now e i);
  a ← attemptFor s (PDR_AttemptID req) session;
  b ← must (mget (Tasks s) (at_task a));
  l ← must (mget (Leases s) (PDR_LeaseID req));
  p ← must (list.last (policy_history s (at_task a)));
  deny_if (negb (TB_AdmissionEnabled b)
           || negb (TB_Repository b =? Repository (Attempt_Observation a))%string
           || negb (TB_ProjectID b =? Attempt_ProjectID a)%string
           || negb (Lease_SessionID l =? session)%string
           || negb (Lease_AttemptID l =? Attempt_ID a)%string
           || negb (Lease_Fence l =? PDR_ExpectedFence req)
           || negb (currentLease s l (now e (S i))) || negb (now e (S (S i)) <? PDR_ExpiresAt req));;
  deny_if (negb (subset ["publication.evaluate"%string] (r_Actions r))
           || negb (subset [task_resource (at_task a); ("repository:" ++ PP_Repository p)%string]
                      (r_Resources r))
           || negb (PA_Repository (PDR_Action req) =? PP_Repository p)%string);;
  rev ← currentRevision s a (PDR_RevisionID req) (PDR_LeaseID req) (PDR_ExpectedFence req);
  Ok (a, rev, p).

(** [a.admission == nil || a.admission.AdmitLease(...) != nil] *)
Definition admits (e : Env) (s : state) (a : Attempt) : bool :=
  match admit_lease e with
  | Some admission =>
    admission (Binding_Workspace (st_Binding s)) (Attempt_ProjectID a) (at_task a)
  | None => false
  end.

(** The assessment of a decision taken at [t]. *)
Definition assess (au : Authority) (session : string) (req : PublicationDecisionRequest)
    (a : Attempt) (rev : AttemptRevision) (p : PublicationPolicy) (t : time) : Assessment :=
  let action := PDR_Action req in
  let assessment := Disclosure.EvaluatePublication
    (mkObservation session session (Attempt_ID a) (Binding_Workspace (a_binding au))
       (Binding_Installation (a_binding au))
       (identity "publication-authority/v1" "" (mkPlace (a_binding au) (a_path au)))
       (PP_Repository p) (PA_Issue action) (PA_Action action) (PA_Fields action)
       (PA_PayloadSHA256 action) (PP_Digest p) (PDR_LeaseID req) (PDR_ExpectedFence req) t
       (PDR_ExpiresAt req) t (PP_Visibility p) (PP_IncludeInternal p) (PP_RecordedInternal p)) in
  let assessment :=
    if negb (PA_Action action =? IssueUpdate)%string
    then assessment <| As_Verdict := Deny |>
           <| As_Reasons := As_Reasons assessment
                ++ [mkReason UnsupportedAction "" "native decisions support issue-update only"] |>
    else assessment in
  let assessment := assessment <| As_Assurance := "cooperative-session"%string |> in
  assessment <| As_ActionDigest :=
    identity "native-publication-decision/v1" session (mkBound (As_Binding assessment) rev) |>.

Definition put_decision (s : state) (id : string) (d : PublicationDecision) : res state :=
  m ← mset (PublicationDecisions s) id d; Ok (s <| PublicationDecisions := m |>).

Definition put_consumption (s : state) (id : string) (c : PublicationConsumption) : res state :=
  m ← mset (PublicationConsumed s) id c; Ok (s <| PublicationConsumed := m |>).

Definition EvaluatePublication (au : Authority) (e : Env) (token session : string)
    (req : PublicationDecisionRequest) : tx PublicationDecision := fun s =>
  action ← normalizePublicationAction (PDR_Action req);
  let req := req <| PDR_Action := action |> in
  authenticate s token session (now e 0);;
  deny_if (negb (validID (PDR_OperationKey req)));;
  let digest := identity "publication-decision/v1" session req in
  match replay s (PDR_OperationKey req) digest op_PublicationDecision with
  | Some old => d ← old; Ok (d, s)
  | None =>
    '(a, rev, p) ← publicationCurrent e 1 s session req;
    deny_if (negb (admits e s a));;
    observeRevision e 0 a rev;;
    publicationCurrent e 4 s session req;;
    let t := now e 7 in
    deny_if (negb (t <? PDR_ExpiresAt req));;
    let assessment := assess au session req a rev p t in
    id ← mint e 0;
    let result := mkPublicationDecision id session req p rev assessment in
    s' ← put_decision s id result;
    s' ← put_operation s' (PDR_OperationKey req)
           ((new_operation digest) <| op_PublicationDecision := Some result |>);
    Ok (result, s')
  end.

Definition ConsumePublication (e : Env) (owner : string) (req : ConsumePublicationRequest)
    : tx PublicationConsumption := fun s =>
  action ← normalizePublicationAction (CP_Action req);
  let req := req <| CP_Action := action |> in
  deny_if (not_owner s owner);;
  deny_if (negb (validID (CP_OperationKey req)) || negb (validID (CP_DecisionID req)));;
  let digest := identity "publication-consumption/v1" "owner" req in
  match replay s (CP_OperationKey req) digest op_PublicationConsumption with
  | Some old => c ← old; Ok (c, s)
  | None =>
    d ← must (mget (PublicationDecisions s) (CP_DecisionID req));
    deny_if (negb (bool_decide (As_Verdict (PD_Assessment d) = Allow))
             || negb (PA_Action (PDR_Action (PD_Request d)) =? IssueUpdate)%string
             || negb (bool_decide (CP_Action req = PDR_Action (PD_Request d))));;
    deny_if (mhas (PublicationConsumed s) (PD_ID d));;
    '(a, rev, p) ← publicationCurrent e 0 s (PD_SessionID d) (PD_Request d);
    deny_if (negb (bool_decide (p = PD_Policy d)) || negb (bool_decide (rev = PD_Revision d)));;
    deny_if (negb (admits e s a));;
    observeRevision e 0 a rev;;
    publicationCurrent e 3 s (PD_SessionID d) (PD_Request d);;
    let result := mkPublicationConsumption (PD_ID d) (CP_OperationKey req)
      (As_ActionDigest (PD_Assessment d)) "cooperative-session" (now e 6) true in
    s' ← put_consumption s (PD_ID d) result;
    s' ← put_operation s' (CP_OperationKey req)
           ((new_operation digest) <| op_PublicationConsumption := Some result |>);
    Ok (result, s')
  end.

#[global] Arguments policy_history : simpl never.
#[global] Arguments normalizePublicationAction : simpl never.
#[global] Arguments publicationCurrent : simpl never.
#[global] Arguments assess : simpl never.
#[global] Arguments admits : simpl never.
#[global] Arguments put_decision : simpl never.
#[global] Arguments put_consumption : simpl never.
#[global] Arguments Disclosure.EvaluatePublication : simpl never.

(** ** What a successful run went through *)

(** Everything a decision needs, current at once. *)
Record publishable (e : Env) (i : nat) (s : state) (session : string)
    (req : PublicationDecisionRequest) (a : Attempt) (rev : AttemptRevision) (p : PublicationPolicy)
    : Prop := {
  pbl_session : exists r root, rootSession s session (now e i) = Ok (r, root)
    /\ "publication.evaluate"%string ∈ r_Actions r
    /\ task_resource (at_task a) ∈ r_Resources r
    /\ ("repository:" ++ PP_Repository p)%string ∈ r_Resources r;
  pbl_attempt : attemptFor s (PDR_AttemptID req) session = Ok a;
  pbl_task : exists b, mget (Tasks s) (at_task a) = Some b /\ TB_AdmissionEnabled b = true
    /\ TB_Repository b = Repository (Attempt_Observation a) /\ TB_ProjectID b = Attempt_ProjectID a;
  pbl_lease : exists l, mget (Leases s) (PDR_LeaseID req) = Some l /\ Lease_SessionID l = session
    /\ Lease_AttemptID l = Attempt_ID a /\ Lease_Fence l = PDR_ExpectedFence req
    /\ currentLease s l (now e (S i)) = true;
  pbl_expiry : now e (S (S i)) < PDR_ExpiresAt req;
  pbl_policy : list.last (policy_history s (at_task a)) = Some p
    /\ PA_Repository (PDR_Action req) = PP_Repository p;
  pbl_revision : list.last (revisions s (Attempt_ID a)) = Some rev /\ Rev_ID rev = PDR_RevisionID req
    /\ Rev_LeaseID rev = PDR_LeaseID req /\ Rev_Fence rev = PDR_ExpectedFence req;
  pbl_open : workerTaskWithdrawn s (Attempt_SessionID a) (at_task a) = false
}.

Lemma publicationCurrent_ok e i s session req a rev p :
  publicationCurrent e i s session req = Ok (a, rev, p) -> publishable e i s session req a rev p.
Proof.
  unfold publicationCurrent. intros H. apply bind_ok in H as ([r root] & Hr & H).
  apply bind_ok in H as (a' & Ha & H). apply bind_ok in H as (b & Hb%must_ok & H).
  apply bind_ok in H as (l & Hl%must_ok & H). apply bind_ok in H as (p' & Hp%must_ok & H).
  apply bind_ok in H as (? & Hc%deny_if_ok & H). apply bind_ok in H as (? & Hs%deny_if_ok & H).
  apply bind_ok in H as (rev' & Hrev%currentRevision_ok & H). injection H as -> -> ->.
  bool_facts. destruct Hrev as (? & ? & ? & ? & ?).
  rewrite subset_one in *. rewrite subset_spec in *.
  constructor; [exists r, root; set_solver | done | by exists b | by exists l | done | done | done | done].
Qed.

Lemma put_decision_ok s id d s' : put_decision s id d = Ok s' ->
  exists m, mset (PublicationDecisions s) id d = Ok m /\ s' = s <| PublicationDecisions := m |>.
Proof. unfold put_decision. intros H. inv_ok. eauto. Qed.

Lemma put_consumption_ok s id c s' : put_consumption s id c = Ok s' ->
  exists m, mset (PublicationConsumed s) id c = Ok m /\ s' = s <| PublicationConsumed := m |>.
Proof. unfold put_consumption. intros H. inv_ok. eauto. Qed.

Lemma normalize_ok a a' :
  normalizePublicationAction a = Ok a' ->
  PA_Fields a <> [] /\ a' = a <| PA_Fields := sort_unique (PA_Fields a) |>.
Proof. unfold normalizePublicationAction. intros H. by inv_ok; subst. Qed.

Lemma EvaluatePublication_ok au e token session req s d s' :
  EvaluatePublication au e token session req s = Ok (d, s') ->
  exists action r, normalizePublicationAction (PDR_Action req) = Ok action
  /\ authenticate s token session (now e 0) = Ok r
  /\ let req := req <| PDR_Action := action |> in
     (replay s (PDR_OperationKey req) (identity "publication-decision/v1" session req)
        op_PublicationDecision = Some (Ok d) /\ s' = s)
     \/ (mget (Operations s) (PDR_OperationKey req) = None
         /\ exists a rev p s1, publishable e 1 s session req a rev p
            /\ admits e s a = true /\ (exists u, observeRevision e 0 a rev = Ok u)
            /\ now e 7 < PDR_ExpiresAt req /\ mint e 0 = Ok (PD_ID d)
            /\ d = mkPublicationDecision (PD_ID d) session req p rev
                     (assess au session req a rev p (now e 7))
            /\ put_decision s (PD_ID d) d = Ok s1
            /\ put_operation s1 (PDR_OperationKey req)
                 ((new_operation (identity "publication-decision/v1" session req))
                    <| op_PublicationDecision := Some d |>) = Ok s').
Proof.
  unfold EvaluatePublication. intros H. apply bind_ok in H as (action & Hn & H).
  apply bind_ok in H as (r & Hr & H). apply bind_ok in H as (? & _ & H).
  exists action, r. split_and!; [done.. |]. cbv zeta.
  destruct (replay _ _ _ _) as [old |] eqn:Hrep.
  - left. apply bind_ok in H as (y & -> & H). by injection H as <- <-.
  - right. apply replay_none in Hrep. split; [done |].
    apply bind_ok in H as ([[a rev] p] & Hc%publicationCurrent_ok & H).
    apply bind_ok in H as (? & Had%deny_if_ok & H). apply bind_ok in H as (u & Hu & H).
    apply bind_ok in H as ([[? ?] ?] & _ & H). apply bind_ok in H as (? & Hx%deny_if_ok & H).
    apply bind_ok in H as (id & Hid & H). apply bind_ok in H as (s1 & Hs1 & H).
    apply bind_ok in H as (s2 & Hs2 & H). injection H as <- <-. bool_facts.
    exists a, rev, p, s1. split_and!; try done. by exists u.
Qed.

Lemma ConsumePublication_ok e owner req s c s' :
  ConsumePublication e owner req s = Ok (c, s') ->
  exists action, normalizePublicationAction (CP_Action req) = Ok action
  /\ not_owner s owner = false
  /\ let req := req <| CP_Action := action |> in
     (replay s (CP_OperationKey req) (identity "publication-consumption/v1" "owner" req)
        op_PublicationConsumption = Some (Ok c) /\ s' = s)
     \/ (mget (Operations s) (CP_OperationKey req) = None
         /\ exists d a s1, mget (PublicationDecisions s) (CP_DecisionID req) = Some d
            /\ As_Verdict (PD_Assessment d) = Allow
            /\ PA_Action (PDR_Action (PD_Request d)) = IssueUpdate
            /\ action = PDR_Action (PD_Request d)
            /\ mget (PublicationConsumed s) (PD_ID d) = None
            /\ publishable e 0 s (PD_SessionID d) (PD_Request d) a (PD_Revision d) (PD_Policy d)
            /\ admits e s a = true /\ (exists u, observeRevision e 0 a (PD_Revision d) = Ok u)
            /\ c = mkPublicationConsumption (PD_ID d) (CP_OperationKey req)
                     (As_ActionDigest (PD_Assessment d)) "cooperative-session" (now e 6) true
            /\ put_consumption s (PD_ID d) c = Ok s1
            /\ put_operation s1 (CP_OperationKey req)
                 ((new_operation (identity "publication-consumption/v1" "owner" req))
                    <| op_PublicationConsumption := Some c |>) = Ok s').
Proof.
  unfold ConsumePublication. intros H. apply bind_ok in H as (action & Hn & H).
  apply bind_ok in H as (? & Ho%deny_if_ok & H). apply bind_ok in H as (? & _ & H).
  exists action. split_and!; [done.. |]. cbv zeta.
  destruct (replay _ _ _ _) as [old |] eqn:Hrep.
  - left. apply bind_ok in H as (y & -> & H). by injection H as <- <-.
  - right. apply replay_none in Hrep. split; [done |].
    apply bind_ok in H as (d & Hd%must_ok & H). apply bind_ok in H as (? & Hv%deny_if_ok & H).
    apply bind_ok in H as (? & Hf%deny_if_ok & H).
    apply bind_ok in H as ([[a rev] p] & Hc%publicationCurrent_ok & H).
    apply bind_ok in H as (? & Heq%deny_if_ok & H). apply bind_ok in H as (? & Had%deny_if_ok & H).
    apply bind_ok in H as (u & Hu & H). apply bind_ok in H as ([[? ?] ?] & _ & H).
    apply bind_ok in H as (s1 & Hs1 & H). apply bind_ok in H as (s2 & Hs2 & H).
    injection H as <- <-. bool_facts. rewrite mhas_false in Hf. subst p rev.
    exists d, a, s1. split_and!; try done. by exists u.
Qed.

(** ** Histories *)

(** Decisions are stored under their identifiers; a consumption belongs to an
    allowed decision and carries its digest. *)
Record publication_inv (s : state) : Prop := {
  pinv_decision id d : mget (PublicationDecisions s) id = Some d -> PD_ID d = id;
  pinv_consumed id c : mget (PublicationConsumed s) id = Some c -> PC_DecisionID c = id
    /\ exists d, mget (PublicationDecisions s) id = Some d /\ As_Verdict (PD_Assessment d) = Allow
       /\ PC_ActionDigest c = As_ActionDigest (PD_Assessment d)
}.

(** Policies are only appended; decisions and consumptions are immutable. *)
Record publication_le (s s' : state) : Prop := {
  ple_policy t : policy_history s t `prefix_of` policy_history s' t;
  ple_decision id d : mget (PublicationDecisions s) id = Some d -> mget (PublicationDecisions s') id = Some d;
  ple_consumed id c : mget (PublicationConsumed s) id = Some c -> mget (PublicationConsumed s') id = Some c
}.

#[export] Instance publication_le_preorder : PreOrder publication_le.
Proof.
  split.
  - intros s. split; [intros t; reflexivity | done | done].
  - intros s1 s2 s3 [P1 D1 C1] [P2 D2 C2]. split; [| auto | auto].
    intros t. etrans; [apply P1 | apply P2].
Qed.

Lemma publication_le_same s s' :
  PublicationPolicies s' = PublicationPolicies s -> PublicationDecisions s' = PublicationDecisions s ->
  PublicationConsumed s' = PublicationConsumed s -> publication_le s s'.
Proof. intros P D C. split; unfold policy_history; rewrite ?P, ?D, ?C; done. Qed.

Lemma publication_inv_same s s' :
  PublicationDecisions s' = PublicationDecisions s -> PublicationConsumed s' = PublicationConsumed s ->
  publication_inv s -> publication_inv s'.
Proof. intros D C [H1 H2]. split; rewrite ?D, ?C; done. Qed.

Definition fresh_decision (e : Env) (s : state) : Prop :=
  forall id, mint e 0 = Ok id -> mget (PublicationDecisions s) id = None.

Lemma EvaluatePublication_inv_le au e token session req s d s' :
  fresh_decision e s -> publication_inv s ->
  EvaluatePublication au e token session req s = Ok (d, s') ->
  publication_inv s' /\ publication_le s s' /\ operation_le s s'.
Proof.
  intros Hf [Hi Hc] (action & r & _ & _ & [[_ ->] | (Hn & a & rev & p & s1 & _ & _ & _ & _ & Hid & _ & Hput & Hop)])%EvaluatePublication_ok;
    [done |].
  apply put_decision_ok in Hput as (m & Hm & ->). apply put_operation_ok in Hop as (ops & Hops & ->).
  pose proof (Hf _ Hid) as Hnone.
  assert (forall k q, mget (PublicationDecisions s) k = Some q -> mget m k = Some q) as Hto.
  { intros k q Hk. by rewrite (mget_mset_ne _ _ _ _ _ Hm) by congruence. }
  split_and!; [split; simpl | split; simpl | by eapply operation_le_new].
  - intros k q. rewrite (mget_mset _ _ _ _ _ Hm). case_decide; [by intros [= <-] | apply Hi].
  - intros k c Hk. destruct (Hc _ _ Hk) as (? & q & ? & ? & ?). split; [done |]. exists q. auto.
  - intros t. reflexivity.
  - done.
  - done.
Qed.

Lemma ConsumePublication_inv_le e owner req s c s' :
  publication_inv s -> ConsumePublication e owner req s = Ok (c, s') ->
  publication_inv s' /\ publication_le s s' /\ operation_le s s'.
Proof.
  intros [Hi Hc] (action & _ & _ & [[_ ->] | (Hn & d & a & s1 & Hd & Hv & _ & _ & Hf & _ & _ & _ & Hcq & Hput & Hop)])%ConsumePublication_ok;
    [done |].
  apply put_consumption_ok in Hput as (m & Hm & ->). apply put_operation_ok in Hop as (ops & Hops & ->).
  split_and!; [split; simpl | split; simpl | by eapply operation_le_new].
  - done.
  - intros k q. rewrite (mget_mset _ _ _ _ _ Hm). case_decide as E; [| apply Hc].
    intros [= <-]. subst k. rewrite Hcq. simpl. split; [done |]. exists d.
    split; [| done]. by rewrite (Hi _ _ Hd).
  - intros t. reflexivity.
  - done.
  - intros k q Hk. by rewrite (mget_mset_ne _ _ _ _ _ Hm) by congruence.
Qed.

Lemma SetPublicationPolicy_ok owner req s p s' :
  SetPublicationPolicy owner req s = Ok (p, s') ->
  not_owner s owner = false /\ is_Some (mget (Tasks s) (SPR_TaskID req))
  /\ SPR_ExpectedGeneration req = u64_length (policy_history s (SPR_TaskID req))
  /\ PP_Generation p = incr_u64 (SPR_ExpectedGeneration req) /\ PP_TaskID p = SPR_TaskID req
  /\ exists m, mset (PublicationPolicies s) (SPR_TaskID req)
        (policy_history s (SPR_TaskID req) ++ [p]) = Ok m
     /\ s' = s <| PublicationPolicies := m |>.
Proof.
  unfold SetPublicationPolicy. intros H. apply bind_ok in H as (? & Ho%deny_if_ok & H).
  apply bind_ok in H as (? & _ & H). apply bind_ok in H as (? & Ht%deny_if_ok & H).
  apply bind_ok in H as (? & Hg%deny_if_ok & H). apply bind_ok in H as (m & Hm & H).
  injection H as <- <-. bool_facts. rewrite mhas_true in Ht. split_and!; try done. by exists m.
Qed.

Lemma SetPublicationPolicy_le owner req s p s' :
  SetPublicationPolicy owner req s = Ok (p, s') -> publication_le s s'.
Proof.
  intros (_ & _ & _ & _ & _ & m & Hm & ->)%SetPublicationPolicy_ok. split; [| done | done].
  intros t. unfold policy_history at 2. simpl. rewrite (mget_mset _ _ _ _ _ Hm).
  case_decide as E; [subst t; by apply prefix_app_r | done].
Qed.

(** ** Properties *)

(** a publication decision that allows is sound: under a new key it is only
    recorded as allowed for an issue update whose every field the task's current
    disclosure policy discloses, while the session's scope names the task and
    the repository, its fenced lease is current and the checkout shows the
    current revision. *)
Theorem EvaluatePublication_allow au e token session req s d s' :
  mget (Operations s) (PDR_OperationKey req) = None ->
  EvaluatePublication au e token session req s = Ok (d, s') ->
  As_Verdict (PD_Assessment d) = Allow ->
  PA_Action (PDR_Action req) = IssueUpdate
  /\ (forall f, f ∈ PA_Fields (PDR_Action req) ->
        discloses (ParseVisibility (PP_Visibility (PD_Policy d))) (PP_IncludeInternal (PD_Policy d))
          (PP_RecordedInternal (PD_Policy d)) false f)
  /\ exists a, attemptFor s (PDR_AttemptID req) session = Ok a
     /\ list.last (policy_history s (at_task a)) = Some (PD_Policy d)
     /\ list.last (revisions s (Attempt_ID a)) = Some (PD_Revision d)
     /\ PA_Repository (PDR_Action req) = PP_Repository (PD_Policy d)
     /\ (exists l, mget (Leases s) (PDR_LeaseID req) = Some l /\ Lease_Fence l = PDR_ExpectedFence req
           /\ currentLease s l (now e 2) = true)
     /\ (exists u, observeRevision e 0 a (PD_Revision d) = Ok u)
     /\ mget (PublicationDecisions s') (PD_ID d) = Some d.
Proof.
  intros Hnew (action & r & (_ & ->)%normalize_ok & _ & [[(op & Hop & _)%replay_ok _] | (_ & a & rev & p & s1 & Hp & _ & Hu & _ & _ & Hd & Hput & Hop)])%EvaluatePublication_ok Hv;
    [simpl in Hop; congruence |].
  assert (As_Verdict (assess au session
            (req <| PDR_Action := (PDR_Action req) <| PA_Fields := sort_unique (PA_Fields (PDR_Action req)) |> |>)
            a rev p (now e 7)) = Allow) as Hall by (rewrite Hd in Hv; exact Hv).
  assert (PA_Action (PDR_Action req) = IssueUpdate
    /\ forall f, f ∈ PA_Fields (PDR_Action req) ->
        discloses (ParseVisibility (PP_Visibility p)) (PP_IncludeInternal p) (PP_RecordedInternal p) false f)
    as [Hact Hfields].
  { unfold assess in Hall. simpl in Hall.
    destruct (String.eqb_spec (PA_Action (PDR_Action req)) IssueUpdate) as [Hact |]; simpl in Hall; [| done].
    split; [done |]. apply EvaluatePublication_cases in Hall as (_ & _ & Hf).
    intros f Hin. apply (Hf f). simpl. by apply elem_of_sort_dedup. }
  destruct Hp as [_ Hat _ (l & ? & _ & _ & ? & ?) _ [Hlast Hrep] [Hrev _] _]. simpl in *.
  apply put_decision_ok in Hput as (m & Hm & ->). apply put_operation_ok in Hop as (ops & _ & ->).
  assert (PD_Policy d = p) as -> by by rewrite Hd.
  assert (PD_Revision d = rev) as -> by by rewrite Hd.
  split_and!; [done.. |]. exists a. split_and!; try done; [by exists l |].
  simpl. by eapply mget_mset_eq.
Qed.

(** a decision is consumed at most once: when it has been consumed, in every
    later state a consumption naming it either fails or replays the receipt of
    its own operation key, changing nothing. *)
Theorem ConsumePublication_once s later e owner req c0 c s' :
  publication_inv later ->
  mget (PublicationConsumed s) (CP_DecisionID req) = Some c0 -> publication_le s later ->
  ConsumePublication e owner req later = Ok (c, s') ->
  s' = later /\ exists op, mget (Operations later) (CP_OperationKey req) = Some op
                /\ op_PublicationConsumption op = Some c.
Proof.
  intros [Hi _] H0 [_ _ Hle] (action & _ & _ & [[(op & Hop & _ & Hsel)%replay_ok ->] | (_ & d & a & s1 & Hd & _ & _ & _ & Hf & _)])%ConsumePublication_ok.
  - split; [done |]. by exists op.
  - simpl in Hd. apply Hle in H0. rewrite (Hi _ _ Hd) in Hf. congruence.
Qed.

(** consumption re-checks what was decided: it needs the owner, an allowed
    decision for exactly this action, and - current at once - the very policy
    generation and revision the decision was taken on, the session's lease and
    the task's admission; it records the decision's digest as historical. *)
Theorem ConsumePublication_current e owner req s c s' :
  mget (Operations s) (CP_OperationKey req) = None ->
  ConsumePublication e owner req s = Ok (c, s') ->
  not_owner s owner = false
  /\ exists d a, mget (PublicationDecisions s) (CP_DecisionID req) = Some d
  /\ As_Verdict (PD_Assessment d) = Allow
  /\ (forall f, f ∈ PA_Fields (CP_Action req) <-> f ∈ PA_Fields (PDR_Action (PD_Request d)))
  /\ PA_PayloadSHA256 (CP_Action req) = PA_PayloadSHA256 (PDR_Action (PD_Request d))
  /\ PA_Issue (CP_Action req) = PA_Issue (PDR_Action (PD_Request d))
  /\ mget (PublicationConsumed s) (PD_ID d) = None
  /\ list.last (policy_history s (at_task a)) = Some (PD_Policy d)
  /\ list.last (revisions s (Attempt_ID a)) = Some (PD_Revision d)
  /\ publishable e 0 s (PD_SessionID d) (PD_Request d) a (PD_Revision d) (PD_Policy d)
  /\ admits e s a = true
  /\ PC_ActionDigest c = As_ActionDigest (PD_Assessment d) /\ PC_Historical c = true
  /\ mget (PublicationConsumed s') (PD_ID d) = Some c.
Proof.
  intros Hnew (action & (_ & ->)%normalize_ok & Ho & [[(op & Hop & _)%replay_ok _] | (_ & d & a & s1 & Hd & Hv & _ & Heq & Hf & Hp & Had & _ & Hc & Hput & Hop)])%ConsumePublication_ok;
    [simpl in Hop; congruence |].
  split; [done |]. exists d, a. simpl in Hd.
  apply put_consumption_ok in Hput as (m & Hm & ->). apply put_operation_ok in Hop as (ops & _ & ->).
  destruct (pbl_policy _ _ _ _ _ _ _ _ Hp) as [? _]. destruct (pbl_revision _ _ _ _ _ _ _ _ Hp) as [? _].
  rewrite <- Heq. split_and!; try done.
  - intros f. simpl. unfold sort_unique. by rewrite elem_of_sort_dedup.
  - by rewrite Hc.
  - by rewrite Hc.
  - simpl. by eapply mget_mset_eq.
Qed.

(** policy generations count: a policy is only set by the owner who names
    the current generation, becomes the last one with the next number, and no
    earlier generation changes. *)
Theorem SetPublicationPolicy_generation owner req s p s' :
  SetPublicationPolicy owner req s = Ok (p, s') ->
  not_owner s owner = false
  /\ SPR_ExpectedGeneration req = u64_length (policy_history s (SPR_TaskID req))
  /\ PP_Generation p = incr_u64 (SPR_ExpectedGeneration req)
  /\ policy_history s' (SPR_TaskID req) = policy_history s (SPR_TaskID req) ++ [p]
  /\ publication_le s s'
  /\ (forall t, t <> SPR_TaskID req -> policy_history s' t = policy_history s t).
Proof.
  intros H. pose proof (SetPublicationPolicy_le _ _ _ _ _ H) as Hle.
  apply SetPublicationPolicy_ok in H as (? & _ & ? & ? & _ & m & Hm & ->).
  split_and!; try done.
  - unfold policy_history at 1. simpl. by rewrite (mget_mset_eq _ _ _ _ Hm).
  - intros t Ht. unfold policy_history at 1. simpl.
    rewrite (mget_mset_ne _ _ _ _ _ Hm) by congruence. done.
Qed.
