(* ===== verification/Encodings.v ===== *)
(** * JSON of the structures the schedulers hash

    [encoding/json]'s form of the records whose text enters a digest: policies,
    role provenance, reports, ledgers, quotes, routes and plans, field by field in
    declaration order, [omitempty] where the tag says so, maps with their keys
    sorted.  A slice without elements is written [[]]; the code writes [null] for
    one that is nil, which the model does not tell apart. *)

From S2P Require Import Prelude Floats GoStd Team Disclosure State Session Withdrawal Resources Attempts Leases Lifecycle Evidence.
#[local] Open Scope Z_scope.

(** ** Maps, pointers and omitted fields *)

#[local] Instance key_le_dec {V} : RelDecision (fun a b : string * V => String.le a.1 b.1).
Proof. intros a b. apply _. Defined.

Definition JMap {V} `{ToJSON V} (m : gomap V) : json :=
  match m with
  | None => JNull
  | Some g => JObject (map (fun e => (e.1, to_json e.2)) (merge_sort (fun a b : string * V => String.le a.1 b.1) (map_to_list g)))
  end.
#[export] Instance json_json : ToJSON json := fun j => j.
Definition JOption {A} (f : A -> json) (o : option A) : json := match o with Some a => f a | None => JNull end.
Definition omit_nil {A} `{ToJSON A} (name : string) (l : list A) : list (string * json) :=
  match l with [] => [] | _ => [(name, JArray (map to_json l))] end.
Definition omit_none {A} `{ToJSON A} (name : string) (o : option A) : list (string * json) :=
  match o with Some a => [(name, to_json a)] | None => [] end.
Definition omit_zero (name : string) (x : float) : list (string * json) :=
  if is_zero x then [] else [(name, JFloat x)].
Definition omit_strings (name : string) (l : list string) : list (string * json) :=
  match l with [] => [] | _ => [(name, JStrings l)] end.

(** ** internal/team *)

#[export] Instance ModelProfile_json : ToJSON ModelProfile := fun x =>
  JObject [("ID", JString (MP_ID x)); ("CostTier", JInt (MP_CostTier x));
    ("MaxTaskPoints", JFloat (MP_MaxTaskPoints x)); ("ContextLimit", JInt (MP_ContextLimit x));
    ("CapabilityTags", JStrings (MP_CapabilityTags x))]%string.

#[export] Instance Role_json : ToJSON Role := fun x =>
  JObject [("Name", JString (Role_Name x)); ("Summary", JString (Role_Summary x));
    ("Skills", JStrings (Role_Skills x)); ("Scope", JStrings (Role_Scope x));
    ("OutOfScope", JStrings (Role_OutOfScope x)); ("Shortcuts", JStrings (Role_Shortcuts x));
    ("Grant", JString (Role_Grant x)); ("EscalateTo", JStrings (Role_EscalateTo x));
    ("WIP", JInt (Role_WIP x)); ("Kind", JString (Role_Kind x)); ("Runtime", JString (Role_Runtime x));
    ("Model", JString (Role_Model x)); ("Profile", to_json (Role_Profile x));
    ("FallbackTo", JStrings (Role_FallbackTo x)); ("MaxPoints", JFloat (Role_MaxPoints x));
    ("Prompt", JString (Role_Prompt x))]%string.

#[export] Instance TaskCapacityVerdict_json : ToJSON TaskCapacityVerdict := fun x =>
  JObject ([("fits", JBool (TCV_Fits x)); ("sized", JBool (TCV_Sized x))]%string
    ++ omit_zero "required_points" (TCV_Required x) ++ omit_zero "limit_points" (TCV_Limit x)
    ++ omit_zero "capacity_delta" (TCV_Delta x) ++ omit_empty "reason" (TCV_Reason x)).

#[export] Instance RouteScore_json : ToJSON RouteScore := fun x =>
  JObject [("cost_tier", JInt (RS_CostTier x)); ("tokens_per_completed", JFloat (RS_TokensPerCompleted x));
    ("token_samples", JInt (RS_TokenSamples x)); ("first_pass_success", JFloat (RS_FirstPassSuccess x));
    ("success_samples", JInt (RS_SuccessSamples x)); ("latency_seconds", JFloat (RS_LatencySeconds x));
    ("domain_fit", JInt (RS_DomainFit x)); ("total", JFloat (RS_Total x))]%string.

#[export] Instance CandidateExplanation_json : ToJSON CandidateExplanation := fun x =>
  JObject ([("role", JString (CE_Role x)); ("runtime", JString (CE_Runtime x)); ("model", JString (CE_Model x));
     ("eligible", JBool (CE_Eligible x))]%string
    ++ omit_strings "exclusions" (CE_Exclusions x) ++ [("score"%string, to_json (CE_Score x))]).

#[export] Instance RouteSelection_json : ToJSON RouteSelection := fun x =>
  JObject [("Role", JString (RSel_Role x)); ("Runtime", JString (RSel_Runtime x));
    ("Model", JString (RSel_Model x))]%string.

#[export] Instance Explanation_json : ToJSON Explanation := fun x =>
  JObject ([("candidates", JArray (map to_json (Ex_Candidates x))); ("selected", to_json (Ex_Selected x))]%string
    ++ omit_empty "source" (Ex_Source x) ++ omit_empty "consequence_uplift" (Ex_Uplift x)).

(** ** internal/governance/sessions *)

#[export] Instance SwarmRole_json : ToJSON SwarmRole := fun x =>
  JObject ([("ID"%string, JString (SR_ID x)); ("Kind"%string, JString (SR_Kind x));
     ("Harness"%string, JString (SR_Harness x)); ("Capacity"%string, JInt (SR_Capacity x))]).

#[export] Instance SwarmPlacement_json : ToJSON SwarmPlacement := fun x =>
  JObject ([("Checkout"%string, JString (SPl_Checkout x));
     ("ImplementKind"%string, JString (SPl_ImplementKind x));
     ("ReviewKind"%string, JString (SPl_ReviewKind x))]).

#[export] Instance SwarmPolicy_json : ToJSON SwarmPolicy := fun x =>
  JObject ([("ProjectID"%string, JString (SP_ProjectID x)); ("Revision"%string, JString (SP_Revision x));
     ("Harness"%string, JString (SP_Harness x));
     ("CapabilityDigest"%string, JString (SP_CapabilityDigest x));
     ("Width"%string, JInt (SP_Width x)); ("WIP"%string, JInt (SP_WIP x));
     ("TTL"%string, JInt (SP_TTL x)); ("Stopped"%string, JBool (SP_Stopped x));
     ("Roles"%string, JArray (map to_json (SP_Roles x)));
     ("Placements"%string, JMap (SP_Placements x))]).

#[export] Instance RequiredCheck_json : ToJSON RequiredCheck := fun x =>
  JObject ([("ID"%string, JString (RC_ID x)); ("CommandDigest"%string, JString (RC_CommandDigest x))]).

#[export] Instance RequiredVerificationSet_json : ToJSON RequiredVerificationSet := fun x =>
  JObject ([("PolicyDigest"%string, JString (RVS_PolicyDigest x));
     ("PolicyBytesDigest"%string, JString (RVS_PolicyBytesDigest x));
     ("BaseCommit"%string, JString (RVS_BaseCommit x));
     ("RevisionID"%string, JString (RVS_RevisionID x));
     ("RevisionCommit"%string, JString (RVS_RevisionCommit x));
     ("RevisionTree"%string, JString (RVS_RevisionTree x));
     ("PlanDigest"%string, JString (RVS_PlanDigest x));
     ("Checks"%string, JArray (map to_json (RVS_Checks x)));
     ("GrantIDs"%string, JStrings (RVS_GrantIDs x))]).

#[export] Instance ReviewObservation_json : ToJSON ReviewObservation := fun x =>
  JObject (omit_none "RequiredSet" (RO_RequiredSet x)
    ++ [("ChecklistDigest"%string, JString (RO_ChecklistDigest x));
     ("PolicyRevision"%string, JString (RO_PolicyRevision x));
     ("Checks"%string, JArray (map to_json (RO_Checks x)))]).

#[export] Instance ReviewGrant_json : ToJSON ReviewGrant := fun x =>
  JObject ([("ID"%string, JString (RG_ID x)); ("ReviewerSession"%string, JString (RG_ReviewerSession x));
     ("WorkerRoot"%string, JString (RG_WorkerRoot x)); ("TaskID"%string, JString (RG_TaskID x));
     ("Repository"%string, JString (RG_Repository x));
     ("Observation"%string, to_json (RG_Observation x));
     ("ExpiresAt"%string, JTime (RG_ExpiresAt x)); ("Revoked"%string, JBool (RG_Revoked x))]).

#[export] Instance VerificationGrant_json : ToJSON VerificationGrant := fun x =>
  JObject ([("ID"%string, JString (VG_ID x)); ("RunnerSession"%string, JString (VG_RunnerSession x));
     ("TaskID"%string, JString (VG_TaskID x)); ("Repository"%string, JString (VG_Repository x));
     ("CheckID"%string, JString (VG_CheckID x));
     ("CommandDigest"%string, JString (VG_CommandDigest x));
     ("ExpiresAt"%string, JTime (VG_ExpiresAt x)); ("Revoked"%string, JBool (VG_Revoked x))]).

#[export] Instance Scope_json : ToJSON Scope := fun x =>
  JObject ([("Actions"%string, JStrings (Scope_Actions x));
     ("Resources"%string, JStrings (Scope_Resources x))]).

#[export] Instance Session_json : ToJSON Session := fun x =>
  JObject ([("ID"%string, JString (Session_ID x)); ("Parent"%string, JString (Session_Parent x));
     ("Scope"%string, to_json (Session_Scope x));
     ("ExpiresAt"%string, JTime (Session_ExpiresAt x));
     ("Revoked"%string, JBool (Session_Revoked x))]).

#[export] Instance LifecycleObservation_json : ToJSON LifecycleObservation := fun x =>
  JObject ([("Sequence"%string, JInt (LO_Sequence x)); ("HostSequence"%string, JInt (LO_HostSequence x));
     ("Binding"%string, to_json (LO_Binding x)); ("State"%string, JString (LO_State x));
     ("Source"%string, JString (LO_Source x)); ("Assurance"%string, JString (LO_Assurance x));
     ("EvidenceDigest"%string, JString (LO_EvidenceDigest x));
     ("SourceTime"%string, JTime (LO_SourceTime x)); ("ReceivedAt"%string, JTime (LO_ReceivedAt x))]).

#[export] Instance RolePolicyReference_json : ToJSON RolePolicyReference := fun x =>
  JObject ([("Kind"%string, JString (RPR_Kind x)); ("Version"%string, JString (RPR_Version x));
     ("Digest"%string, JString (RPR_Digest x))]).

#[export] Instance RoleRegistryProvenance_json : ToJSON RoleRegistryProvenance := fun x =>
  JObject ([("RoleID"%string, JString (RRP_RoleID x)); ("Version"%string, JString (RRP_Version x));
     ("ContentDigest"%string, JString (RRP_ContentDigest x));
     ("PublisherKeyID"%string, JString (RRP_PublisherKeyID x));
     ("LifecycleDigest"%string, JString (RRP_LifecycleDigest x));
     ("LifecycleExpiresAt"%string, JTime (RRP_LifecycleExpiresAt x));
     ("LifecycleGeneration"%string, JInt (RRP_LifecycleGeneration x));
     ("PinGeneration"%string, JInt (RRP_PinGeneration x));
     ("ProjectGeneration"%string, JInt (RRP_ProjectGeneration x))]
    ++ omit_nil "PolicyReferences" (RRP_PolicyReferences x)).

#[export] Instance PreflightTask_json : ToJSON PreflightTask := fun x =>
  JObject ([("ImplementationRole"%string, JString (PT_ImplementationRole x));
     ("ReviewRole"%string, JString (PT_ReviewRole x));
     ("RecoveryRole"%string, JString (PT_RecoveryRole x));
     ("FallbackRoles"%string, JStrings (PT_FallbackRoles x));
     ("WorkerConnection"%string, JString (PT_WorkerConnection x));
     ("ReviewerProfile"%string, JString (PT_ReviewerProfile x));
     ("RunnerProfile"%string, JString (PT_RunnerProfile x));
     ("ContractProfile"%string, JString (PT_ContractProfile x));
     ("RequireReview"%string, JBool (PT_RequireReview x));
     ("RequireVerification"%string, JBool (PT_RequireVerification x));
     ("RequireIntegration"%string, JBool (PT_RequireIntegration x));
     ("RequireEnforcedTokens"%string, JBool (PT_RequireEnforcedTokens x));
     ("RequireEnforcedBudget"%string, JBool (PT_RequireEnforcedBudget x));
     ("OwnerAuthorizedIntegration"%string, JBool (PT_OwnerAuthorizedIntegration x))]).

#[export] Instance PreflightPolicy_json : ToJSON PreflightPolicy := fun x =>
  JObject ([("SchemaVersion"%string, JInt (PfP_SchemaVersion x));
     ("ProjectID"%string, JString (PfP_ProjectID x));
     ("Revision"%string, JString (PfP_Revision x)); ("Harness"%string, JString (PfP_Harness x));
     ("Rationale"%string, JString (PfP_Rationale x));
     ("AcceptManualAssurance"%string, JBool (PfP_AcceptManualAssurance x));
     ("ExpiresAt"%string, JTime (PfP_ExpiresAt x));
     ("TransientRetries"%string, JInt (PfP_TransientRetries x));
     ("Tasks"%string, JMap (PfP_Tasks x))]).

#[export] Instance PreflightPhase_json : ToJSON PreflightPhase := fun x =>
  JObject ([("Phase"%string, JString (PPh_Phase x)); ("Verdict"%string, JString (PPh_Verdict x));
     ("Assurance"%string, JString (PPh_Assurance x));
     ("EvidenceDigest"%string, JString (PPh_EvidenceDigest x));
     ("Remediation"%string, JString (PPh_Remediation x));
     ("Required"%string, JBool (PPh_Required x))]).

#[export] Instance PreflightRoleCapacity_json : ToJSON PreflightRoleCapacity := fun x =>
  JObject ([("Phase"%string, JString (PRC_Phase x)); ("RoleID"%string, JString (PRC_RoleID x));
     ("RoleDigest"%string, JString (PRC_RoleDigest x));
     ("OverrideID"%string, JString (PRC_OverrideID x));
     ("Capacity"%string, to_json (PRC_Capacity x))]).

#[export] Instance PreflightReport_json : ToJSON PreflightReport := fun x =>
  JObject (omit_none "RequiredSet" (PR_RequiredSet x)
    ++ omit_empty "RoutingPolicyDigest" (PR_RoutingPolicyDigest x)
    ++ omit_empty "RoutingRole" (PR_RoutingRole x)
    ++ [("AuthorityDigest"%string, JString (PR_AuthorityDigest x));
     ("RoleCapacities"%string, JArray (map to_json (PR_RoleCapacities x)))]
    ++ omit_nil "RoleRegistry" (PR_RoleRegistry x)
    ++ [("SchemaVersion"%string, JInt (PR_SchemaVersion x));
     ("Workspace"%string, JString (PR_Workspace x));
     ("ProjectID"%string, JString (PR_ProjectID x)); ("TaskID"%string, JString (PR_TaskID x));
     ("PolicyRevision"%string, JString (PR_PolicyRevision x));
     ("Harness"%string, JString (PR_Harness x)); ("TaskDigest"%string, JString (PR_TaskDigest x));
     ("RoleDigest"%string, JString (PR_RoleDigest x));
     ("RosterDigest"%string, JString (PR_RosterDigest x));
     ("ClaimsDigest"%string, JString (PR_ClaimsDigest x));
     ("ProfileDigest"%string, JString (PR_ProfileDigest x));
     ("ProofDigest"%string, JString (PR_ProofDigest x));
     ("Capacity"%string, to_json (PR_Capacity x));
     ("OverrideID"%string, JString (PR_OverrideID x)); ("Allowed"%string, JBool (PR_Allowed x));
     ("FailureClass"%string, JString (PR_FailureClass x));
     ("Phases"%string, JArray (map to_json (PR_Phases x)));
     ("ObservedAt"%string, JTime (PR_ObservedAt x)); ("ExpiresAt"%string, JTime (PR_ExpiresAt x))]).

#[export] Instance BudgetEstimate_json : ToJSON BudgetEstimate := fun x =>
  JObject ([("RoleID"%string, JString (BE_RoleID x)); ("Model"%string, JString (BE_Model x));
     ("Provenance"%string, JString (BE_Provenance x)); ("Tokens"%string, JInt (BE_Tokens x));
     ("Samples"%string, JInt (BE_Samples x)); ("ObservedAt"%string, JTime (BE_ObservedAt x))]).

#[export] Instance BudgetTask_json : ToJSON BudgetTask := fun x =>
  JObject ([("Phases"%string, JMap (BT_Phases x)); ("Alternatives"%string, JMap (BT_Alternatives x));
     ("IntegrationOperationID"%string, JString (BT_IntegrationOperationID x));
     ("AcceptanceOperationID"%string, JString (BT_AcceptanceOperationID x))]).

#[export] Instance BudgetPolicy_json : ToJSON BudgetPolicy := fun x =>
  JObject ([("SchemaVersion"%string, JInt (BP_SchemaVersion x));
     ("ProjectID"%string, JString (BP_ProjectID x)); ("Revision"%string, JString (BP_Revision x));
     ("Harness"%string, JString (BP_Harness x)); ("CycleID"%string, JString (BP_CycleID x));
     ("Rationale"%string, JString (BP_Rationale x)); ("CycleLimit"%string, JInt (BP_CycleLimit x));
     ("WindowLimit"%string, JInt (BP_WindowLimit x));
     ("RecoveryFloor"%string, JInt (BP_RecoveryFloor x)); ("Window"%string, JInt (BP_Window x));
     ("WindowOrigin"%string, JTime (BP_WindowOrigin x));
     ("ExpiresAt"%string, JTime (BP_ExpiresAt x));
     ("CooldownUntil"%string, JTime (BP_CooldownUntil x)); ("Tasks"%string, JMap (BP_Tasks x))]).

#[export] Instance BudgetPhase_json : ToJSON BudgetPhase := fun x =>
  JObject ([("Phase"%string, JString (BPh_Phase x)); ("Estimate"%string, to_json (BPh_Estimate x));
     ("State"%string, JString (BPh_State x)); ("ProducerID"%string, JString (BPh_ProducerID x));
     ("Outcome"%string, JString (BPh_Outcome x)); ("SettledAt"%string, JTime (BPh_SettledAt x));
     ("ProviderUsage"%string, JOption JInt (BPh_ProviderUsage x))]).

#[export] Instance BudgetProducer_json : ToJSON BudgetProducer := fun x =>
  JObject ([("Phase"%string, JString (BPr_Phase x)); ("ID"%string, JString (BPr_ID x));
     ("Knowledge"%string, JString (BPr_Knowledge x))]).

#[export] Instance BudgetAllocation_json : ToJSON BudgetAllocation := fun x =>
  JObject (omit_nil "AvailableProducers" (BA_AvailableProducers x)
    ++ [("ID"%string, JString (BA_ID x)); ("DispatchID"%string, JString (BA_DispatchID x));
     ("WaveID"%string, JString (BA_WaveID x)); ("ProjectID"%string, JString (BA_ProjectID x));
     ("TaskID"%string, JString (BA_TaskID x));
     ("PolicyRevision"%string, JString (BA_PolicyRevision x));
     ("CycleID"%string, JString (BA_CycleID x)); ("Harness"%string, JString (BA_Harness x));
     ("QuoteDigest"%string, JString (BA_QuoteDigest x));
     ("ReservationFence"%string, JInt (BA_ReservationFence x));
     ("AllocatedAt"%string, JTime (BA_AllocatedAt x));
     ("Phases"%string, JArray (map to_json (BA_Phases x)))]).

#[export] Instance BudgetAlternative_json : ToJSON BudgetAlternative := fun x =>
  JObject ([("RoleID"%string, JString (BAl_RoleID x)); ("Model"%string, JString (BAl_Model x));
     ("Reason"%string, JString (BAl_Reason x));
     ("MarginalEstimate"%string, JOption JInt (BAl_MarginalEstimate x));
     ("CostTier"%string, JInt (BAl_CostTier x));
     ("EstimateKnowledge"%string, JString (BAl_EstimateKnowledge x));
     ("CapabilityKnowledge"%string, JString (BAl_CapabilityKnowledge x));
     ("Capable"%string, JBool (BAl_Capable x)); ("Selected"%string, JBool (BAl_Selected x))]).

#[export] Instance BudgetQuote_json : ToJSON BudgetQuote := fun x =>
  JObject ([("SchemaVersion"%string, JInt (BQ_SchemaVersion x));
     ("ProjectID"%string, JString (BQ_ProjectID x)); ("TaskID"%string, JString (BQ_TaskID x));
     ("PolicyRevision"%string, JString (BQ_PolicyRevision x));
     ("CycleID"%string, JString (BQ_CycleID x));
     ("LedgerDigest"%string, JString (BQ_LedgerDigest x));
     ("Digest"%string, JString (BQ_Digest x)); ("Reason"%string, JString (BQ_Reason x));
     ("Harness"%string, JString (BQ_Harness x)); ("Allowed"%string, JBool (BQ_Allowed x));
     ("Total"%string, JInt (BQ_Total x)); ("Implementation"%string, JInt (BQ_Implementation x));
     ("Review"%string, JInt (BQ_Review x)); ("Correction"%string, JInt (BQ_Correction x));
     ("Integration"%string, JInt (BQ_Integration x)); ("Recovery"%string, JInt (BQ_Recovery x));
     ("Phases"%string, JArray (map to_json (BQ_Phases x)));
     ("Alternatives"%string, JArray (map to_json (BQ_Alternatives x)));
     ("Enforcement"%string, JString (BQ_Enforcement x));
     ("UsageKnowledge"%string, JString (BQ_UsageKnowledge x))]).

#[export] Instance ControllerCheckRoute_json : ToJSON ControllerCheckRoute := fun x =>
  JObject ([("CheckID"%string, JString (CCR_CheckID x)); ("GrantID"%string, JString (CCR_GrantID x))]).

#[export] Instance ControllerTaskRoute_json : ToJSON ControllerTaskRoute := fun x =>
  JObject (omit_nil "Checks" (CTR_Checks x)
    ++ [("BridgeSession"%string, JString (CTR_BridgeSession x));
     ("WorkerSession"%string, JString (CTR_WorkerSession x));
     ("RunnerSession"%string, JString (CTR_RunnerSession x));
     ("ReviewerSession"%string, JString (CTR_ReviewerSession x));
     ("VerificationGrantID"%string, JString (CTR_VerificationGrantID x));
     ("ReviewGrantID"%string, JString (CTR_ReviewGrantID x));
     ("CheckID"%string, JString (CTR_CheckID x));
     ("PromptSpecDigest"%string, JString (CTR_PromptSpecDigest x))]).

#[export] Instance NativeModelRoutingCandidate_json : ToJSON NativeModelRoutingCandidate := fun x =>
  JObject ([("DifficultyTier"%string, JInt (MRC_DifficultyTier x));
     ("Route"%string, to_json (MRC_Route x)); ("RoleID"%string, JString (MRC_RoleID x));
     ("Model"%string, JString (MRC_Model x)); ("Preflight"%string, to_json (MRC_Preflight x));
     ("ContextNeeded"%string, JInt (MRC_ContextNeeded x));
     ("Tools"%string, JStrings (MRC_Tools x)); ("Available"%string, JBool (MRC_Available x));
     ("ObservedAt"%string, JTime (MRC_ObservedAt x)); ("ExpiresAt"%string, JTime (MRC_ExpiresAt x))]).

#[export] Instance NativeModelRoutingTask_json : ToJSON NativeModelRoutingTask := fun x =>
  JObject ([("Candidates"%string, JArray (map to_json (MRT_Candidates x)));
     ("MaxCorrectionRounds"%string, JInt (MRT_MaxCorrectionRounds x))]).

#[export] Instance NativeModelRoutingPolicy_json : ToJSON NativeModelRoutingPolicy := fun x =>
  JObject ([("SchemaVersion"%string, JInt (MRP_SchemaVersion x));
     ("ProjectID"%string, JString (MRP_ProjectID x));
     ("Revision"%string, JString (MRP_Revision x)); ("Harness"%string, JString (MRP_Harness x));
     ("ExpiresAt"%string, JTime (MRP_ExpiresAt x)); ("Tasks"%string, JMap (MRP_Tasks x))]).

#[export] Instance NativeModelRoutingSelection_json : ToJSON NativeModelRoutingSelection := fun x =>
  JObject ([("DifficultyTier"%string, JInt (MRS_DifficultyTier x));
     ("Route"%string, to_json (MRS_Route x)); ("SchemaVersion"%string, JInt (MRS_SchemaVersion x));
     ("ProjectID"%string, JString (MRS_ProjectID x)); ("TaskID"%string, JString (MRS_TaskID x));
     ("PolicyRevision"%string, JString (MRS_PolicyRevision x));
     ("RoleID"%string, JString (MRS_RoleID x)); ("Model"%string, JString (MRS_Model x));
     ("Harness"%string, JString (MRS_Harness x)); ("Reason"%string, JString (MRS_Reason x));
     ("Assurance"%string, JString (MRS_Assurance x));
     ("BindingDigest"%string, JString (MRS_BindingDigest x));
     ("RequiredPoints"%string, JFloat (MRS_RequiredPoints x));
     ("Sized"%string, JBool (MRS_Sized x));
     ("CorrectionRound"%string, JInt (MRS_CorrectionRound x));
     ("ExpiresAt"%string, JTime (MRS_ExpiresAt x));
     ("Explanation"%string, to_json (MRS_Explanation x));
     ("WorkerSessionID"%string, JString (MRS_WorkerSessionID x))]
    ++ omit_nil "RoleRegistry" (MRS_RoleRegistry x)
    ++ [("NextTurnOnly"%string, JBool (MRS_NextTurnOnly x))]).

#[export] Instance SwarmVerdict_json : ToJSON SwarmVerdict := fun x =>
  JObject (omit_none "Routing" (SV_Routing x)
    ++ [("TaskID"%string, JString (SV_TaskID x)); ("Reason"%string, JString (SV_Reason x));
     ("ImplementationRole"%string, JString (SV_ImplementationRole x));
     ("ReviewRole"%string, JString (SV_ReviewRole x));
     ("Preflight"%string, JOption to_json (SV_Preflight x));
     ("Budget"%string, JOption to_json (SV_Budget x)); ("Selected"%string, JBool (SV_Selected x));
     ("Resources"%string, JArray (map to_json (SV_Resources x)));
     ("Checkout"%string, JString (SV_Checkout x));
     ("Repository"%string, JString (SV_Repository x));
     ("BaseCommit"%string, JString (SV_BaseCommit x)); ("BaseTree"%string, JString (SV_BaseTree x))]).

#[export] Instance SwarmPlan_json : ToJSON SwarmPlan := fun x =>
  JObject ([("SchemaVersion"%string, JInt (SPn_SchemaVersion x)); ("ID"%string, JString (SPn_ID x));
     ("SessionID"%string, JString (SPn_SessionID x));
     ("ProjectID"%string, JString (SPn_ProjectID x));
     ("PolicyRevision"%string, JString (SPn_PolicyRevision x));
     ("SnapshotDigest"%string, JString (SPn_SnapshotDigest x));
     ("Fence"%string, JInt (SPn_Fence x));
     ("Verdicts"%string, JArray (map to_json (SPn_Verdicts x)))]
    ++ omit_nil "RoleRegistry" (SPn_RoleRegistry x)).

#[export] Instance ReserveWaveRequest_json : ToJSON ReserveWaveRequest := fun x =>
  JObject ([("CheckpointID"%string, JString (RWR_CheckpointID x));
     ("InvocationID"%string, JString (RWR_InvocationID x));
     ("ReconciliationDigest"%string, JString (RWR_ReconciliationDigest x));
     ("CheckpointSequence"%string, JInt (RWR_CheckpointSequence x));
     ("OperationKey"%string, JString (RWR_OperationKey x)); ("Plan"%string, to_json (RWR_Plan x));
     ("ExpiresAt"%string, JTime (RWR_ExpiresAt x))]).

#[export] Instance CheckpointRefs_json : ToJSON CheckpointRefs := fun x =>
  JObject ([("TaskID"%string, JString (CRf_TaskID x)); ("DispatchID"%string, JString (CRf_DispatchID x));
     ("IntentID"%string, JString (CRf_IntentID x));
     ("VerificationKey"%string, JString (CRf_VerificationKey x));
     ("EvidenceID"%string, JString (CRf_EvidenceID x));
     ("ReviewID"%string, JString (CRf_ReviewID x));
     ("IntegrationOperationID"%string, JString (CRf_IntegrationOperationID x));
     ("AcceptanceOperationID"%string, JString (CRf_AcceptanceOperationID x));
     ("RunnerSession"%string, JString (CRf_RunnerSession x));
     ("Verification"%string, to_json (CRf_Verification x))]).
