(* ===== verification/Scheduling.v ===== *)
(** * Who may schedule, and under which policy

    The parts of swarms.go, native_controller.go, dispatch_intents.go and
    native_role_registry.go that the schedulers share: the scope of a controller,
    the lineage of a session that is not presented with its token, the swarm
    policy of the owner and its revisions, and the policies a signed role release
    refers to. *)

From S2P Require Import Prelude Floats GoStd Team Disclosure State Session Withdrawal Resources Attempts Leases Lifecycle Evidence Reviews Encodings.
#[local] Open Scope Z_scope.

(** ** Zero values *)

Definition zero_swarm_policy : SwarmPolicy := mkSwarmPolicy "" "" "" "" 0 0 0 false [] None.
Definition zero_placement : SwarmPlacement := mkSwarmPlacement "" "" "".
Definition zero_binding : TaskBinding := mkTaskBinding "" "" "" false.
Definition zero_record : record := mkRecord (mkSession "" "" (mkScope [] []) 0 false) "".

Definition swarm_policy (s : state) (project : string) : SwarmPolicy :=
  default zero_swarm_policy (mget (swarm_policies s) project).
Definition placement_of (s : state) (project task : string) : SwarmPlacement :=
  default zero_placement (mget (SP_Placements (swarm_policy s project)) task).
Definition task_repository (s : state) (task : string) : string :=
  TB_Repository (default zero_binding (mget (Tasks s) task)).

(** ** Actors *)

(** [controller] *)
Definition controller (s : state) (token id project action : string) (t : time) : res record :=
  r ← authenticate s token id t;
  deny_if (negb (subset [action] (r_Actions r)) || negb (subset [("project:" ++ project)%string] (r_Resources r)));;
  Ok r.

(** The walk of [genericControllerMutation] over the ancestors. *)
Fixpoint generic_go (fuel : nat) (s : state) (actor : record) : res unit :=
  match fuel with
  | O => Err ErrDenied
  | S fuel =>
    deny_if (subset ["controller.step"%string] (r_Actions actor)
             || subset ["controller.reconcile"%string] (r_Actions actor));;
    if (r_Parent actor =? "")%string then Ok tt
    else parent ← must (mget (Sessions s) (r_Parent actor)); generic_go fuel s parent
  end.

Definition genericControllerMutation (s : state) (token session : string) (t : time) : res unit :=
  actor ← authenticate s token session t;
  if 16 <=? Version s then generic_go (session_fuel s) s actor else Ok tt.

Definition controllerRoot (s : state) (id : string) (t : time) : string :=
  match rootSession s id t with Ok (_, root) => root | Err _ => ""%string end.
Definition controllerLive (s : state) (id : string) (t : time) : bool :=
  negb (controllerRoot s id t =? "")%string.

(** [swarmLineageCurrent]: every round marks another stored session. *)
Fixpoint lineage_current (fuel : nat) (s : state) (seen : gset string) (id : string) (t : time) : bool :=
  if (id =? "")%string then true
  else match fuel, mget (Sessions s) id with
       | S fuel, Some r =>
         if bool_decide (id ∈ seen) || r_Revoked r || negb (t <? r_ExpiresAt r) then false
         else lineage_current fuel s ({[id]} ∪ seen) (r_Parent r) t
       | _, _ => false
       end.
Definition swarmLineageCurrent (s : state) (id : string) (t : time) : bool :=
  lineage_current (session_fuel s) s ∅ id t.

(** Every resource is in the scope of the session. *)
Definition within_scope (r : record) (resources : list Resource) : bool :=
  forallb (fun x => subset [resource_name x] (r_Resources r)) resources.

(** [dispatchBoundActor] *)
Definition dispatchBoundActor (s : state) (id project action : string) (d : DispatchReservation) (t : time) : bool :=
  if (action =? "lease.acquire")%string && workerTaskWithdrawn s id (Lease_TaskID (DR_Reservation d)) then false
  else match mget (Sessions s) id with
  | Some r =>
    (r_Parent r =? "")%string && swarmLineageCurrent s id t && subset [action] (r_Actions r)
    && ((action =? "lease.acquire")%string || subset [("project:" ++ project)%string] (r_Resources r))
    && within_scope r (Lease_Resources (DR_Reservation d))
    && negb (r_ExpiresAt r <? Lease_ExpiresAt (DR_Reservation d))
  | None => false
  end.

(** ** References of a role release to owner policies *)

Definition RolePolicyDigest {A} `{ToJSON A} (kind : string) (policy : A) : string :=
  ("sha256:" ++ identity ("dacli-role-policy/" ++ kind ++ "/v1") "" policy)%string.

(** The revision and the digest of the current policy a reference of this kind
    names, when there is one and it is in force. *)
Definition referenced (s : state) (project kind : string) (t : time) : option (string * string) :=
  if (kind =? "native-swarm")%string then
    p ← mget (swarm_policies s) project;
    if SP_Stopped p || (SP_TTL p <=? 0) then None else Some (SP_Revision p, RolePolicyDigest kind p)
  else if (kind =? "native-preflight")%string then
    p ← mget (preflight_policies s) project;
    if negb (t <? PfP_ExpiresAt p) then None else Some (PfP_Revision p, RolePolicyDigest kind p)
  else if (kind =? "native-budget")%string then
    p ← mget (budget_policies s) project;
    if negb (t <? BP_ExpiresAt p) then None else Some (BP_Revision p, RolePolicyDigest kind p)
  else if (kind =? "native-model-routing")%string then
    p ← mget (routing_policies s) project;
    if negb (t <? MRP_ExpiresAt p) then None else Some (MRP_Revision p, RolePolicyDigest kind p)
  else None.

Fixpoint references_ok (s : state) (project : string) (t : time) (seen : list string)
    (refs : list RolePolicyReference) : bool :=
  match refs with
  | [] => true
  | ref :: refs =>
    if (RPR_Version ref =? "")%string || (RPR_Digest ref =? "")%string || bool_decide (RPR_Kind ref ∈ seen)
    then false
    else match referenced s project (RPR_Kind ref) t with
         | Some (revision, digest) =>
           (revision =? RPR_Version ref)%string && (digest =? RPR_Digest ref)%string
           && references_ok s project t (RPR_Kind ref :: seen) refs
         | None => false
         end
  end.

(** [resolveRolePolicyReferences] *)
Definition resolveRolePolicyReferences (s : state) (project : string) (roles : list RoleRegistryProvenance)
    (t : time) : res unit :=
  deny_if (negb (forallb (fun role => references_ok s project t [] (RRP_PolicyReferences role)) roles)).

(** A provenance whose lifecycle statement is in force. *)
Definition lifecycle_current (t : time) (p : RoleRegistryProvenance) : bool :=
  negb (RRP_LifecycleExpiresAt p =? 0) && (t <? RRP_LifecycleExpiresAt p).

(** [currentRoleRegistryMatches] *)
Definition currentRoleRegistryMatches (e : Env) (ad : Adapters) (s : state) (d : DispatchReservation) : prog unit :=
  observer ← lift (must (observe_swarm ad));
  snapshot ← ask 1 (fun n => must (observer n (Binding_Workspace (st_Binding s)) (DR_ProjectID d)));
  forbid_if (negb (bool_decide (DR_RoleRegistry d = SS_RoleRegistry snapshot)));;
  t ← look 1 (now e);
  lift (resolveRolePolicyReferences s (DR_ProjectID d) (SS_RoleRegistry snapshot) t);;
  forbid_if (negb (forallb (lifecycle_current t) (SS_RoleRegistry snapshot))).

(** ** The swarm policy of the owner *)

Fixpoint swarm_roles_ok (ids : list string) (roles : list SwarmRole) : bool :=
  match roles with
  | [] => true
  | r :: roles =>
    validID (SR_ID r) && validID (SR_Kind r) && validID (SR_Harness r) && negb (SR_Capacity r <? 1)
    && negb (bool_decide (SR_ID r ∈ ids)) && swarm_roles_ok (SR_ID r :: ids) roles
  end.

Definition swarm_policy_ok (p : SwarmPolicy) : bool :=
  validID (SP_ProjectID p) && validID (SP_Revision p) && validID (SP_Harness p) && validID (SP_CapabilityDigest p)
  && negb (SP_Width p <? 1) && negb (SP_WIP p <? SP_Width p) && negb (SP_TTL p <=? 0)
  && negb (24 * hour <? SP_TTL p) && negb (bool_decide (mentries (SP_Placements p) = []))
  && swarm_roles_ok [] (SP_Roles p)
  && forallb (fun '(task, v) => validID task && IsAbs (SPl_Checkout v) && validID (SPl_ImplementKind v)
                                && validID (SPl_ReviewKind v)) (mentries (SP_Placements p)).

(** The loop over the bindings a configuration brings along. *)
Fixpoint bind_tasks (p : SwarmPolicy) (bindings : list TaskBinding) (tasks : gomap TaskBinding) : res (gomap TaskBinding) :=
  match bindings with
  | [] => Ok tasks
  | b :: bindings =>
    deny_if (negb (validID (TB_TaskID b)) || negb (TB_ProjectID b =? SP_ProjectID p)%string
             || negb (TB_AdmissionEnabled b) || negb (IsAbs (TB_Repository b)));;
    deny_if (negb (mhas (SP_Placements p) (TB_TaskID b)));;
    deny_if (match mget tasks (TB_TaskID b) with Some old => negb (bool_decide (old = b)) | None => false end);;
    tasks ← mset tasks (TB_TaskID b) b;
    bind_tasks p bindings tasks
  end.

(** The key of a revision: the project, a NUL, the revision. *)
Definition revision_key (p : SwarmPolicy) : string := (SP_ProjectID p ++ String NUL (SP_Revision p))%string.

Definition placements_bound (p : SwarmPolicy) (tasks : gomap TaskBinding) : bool :=
  forallb (fun '(task, _) =>
      match mget tasks task with
      | Some b => (TB_ProjectID b =? SP_ProjectID p)%string && TB_AdmissionEnabled b
      | None => false
      end) (mentries (SP_Placements p)).

(** A revision that was configured before may be configured again only while it
    is the current one, unchanged. *)
Definition superseded (s : state) (p : SwarmPolicy) : bool :=
  match mget (swarm_policies s) (revision_key p) with
  | Some prior =>
    match mget (swarm_policies s) (SP_ProjectID p) with
    | Some current => negb (SP_Revision current =? SP_Revision prior)%string || negb (bool_decide (prior = p))
    | None => true
    end
  | None => false
  end.

Definition put_swarm_policy (s : state) (p : SwarmPolicy) : res state :=
  m ← mset (swarm_policies s) (revision_key p) p;
  m ← mset m (SP_ProjectID p) p;
  Ok (s <| st_Swarm := (st_Swarm s) <| SwarmPolicies := m |> |>).

Definition ConfigureSwarmWithBindings (owner : string) (p : SwarmPolicy) (bindings : list TaskBinding) : tx unit := fun s =>
  deny_if (negb (swarm_policy_ok p));;
  deny_if ((Version s <? 7) || not_owner s owner);;
  deny_if (match mget (swarm_policies s) (SP_ProjectID p) with
           | Some old => (SP_Revision old =? SP_Revision p)%string && negb (bool_decide (old = p))
           | None => false end);;
  tasks ← bind_tasks p bindings (Tasks s);
  let s := s <| Tasks := tasks |> in
  deny_if (negb (placements_bound p tasks));;
  deny_if (superseded s p);;
  s ← put_swarm_policy s p;
  Ok (tt, s).

Definition ConfigureSwarm (owner : string) (p : SwarmPolicy) : tx unit := ConfigureSwarmWithBindings owner p [].

Definition OwnerSwarmPolicy (owner project : string) (s : state) : res SwarmPolicy :=
  deny_if (not_owner s owner);;
  must (mget (swarm_policies s) project).
