(* ===== verification/Preflight.v ===== *)
(** * The complete-loop preflight

    preflight.go: the owner's preflight policy, the report that decides whether a
    task may be planned, reserved, dispatched and handed off, size overrides, and
    the bounded retries of transient refusals.  [routingPreflightSpec] and
    [modelRoutingCurrent] are of native_model_routing.go.  The report is built the
    way the code builds it, by appending phases and lowering its expiry. *)

From Stdlib Require Import SpecFloat.
From S2P Require Import Prelude Floats GoStd Team Disclosure State Session Withdrawal Resources Attempts Leases Lifecycle Evidence Reviews Encodings Scheduling.
#[local] Open Scope Z_scope.

Definition zero_task : PreflightTask := mkPreflightTask "" "" "" [] "" "" "" "" false false false false false false.
Definition zero_preflight_policy : PreflightPolicy := mkPreflightPolicy 0 "" "" "" "" false 0 0 None.
Definition zero_review_observation : ReviewObservation := mkReviewObservation None "" "" [].
Definition zero_review_grant : ReviewGrant := mkReviewGrant "" "" "" "" "" zero_review_observation 0 false.
Definition zero_grant : VerificationGrant := mkGrant "" "" "" "" "" "" 0 false.

Definition preflight_policy (s : state) (project : string) : PreflightPolicy :=
  default zero_preflight_policy (mget (preflight_policies s) project).
(** [s.PreflightPolicies[project].Tasks[task]] *)
Definition preflight_task (s : state) (project task : string) : option PreflightTask :=
  mget (PfP_Tasks (preflight_policy s project)) task.
Definition preflight_spec (s : state) (project task : string) : PreflightTask :=
  default zero_task (preflight_task s project task).

(** ** The policy of the owner *)

Definition preflight_task_ok (id : string) (t : PreflightTask) : bool :=
  validID id && validID (PT_ImplementationRole t) && validID (PT_ReviewRole t) && validID (PT_RecoveryRole t)
  && IsAbs (PT_WorkerConnection t) && IsAbs (PT_ContractProfile t)
  && negb (PT_RequireReview t && negb (IsAbs (PT_ReviewerProfile t)))
  && negb ((PT_RequireVerification t || PT_RequireReview t) && negb (IsAbs (PT_RunnerProfile t)))
  && negb (PT_RequireIntegration t && negb (PT_OwnerAuthorizedIntegration t))
  && forallb validID (PT_FallbackRoles t).

(** Its two clock readings are [now e i] and [now e (S i)]. *)
Definition validPreflightPolicy (e : Env) (i : nat) (p : PreflightPolicy) : bool :=
  let n := Z.of_nat (List.length (mentries (PfP_Tasks p))) in
  (PfP_SchemaVersion p =? 1) && validID (PfP_ProjectID p) && validID (PfP_Revision p)
  && (PfP_Harness p =? "codex")%string && negb (blank (PfP_Rationale p)) && negb (8192 <? len (PfP_Rationale p))
  && (now e i <? PfP_ExpiresAt p) && negb (now e (S i) + 24 * hour <? PfP_ExpiresAt p)
  && negb (PfP_TransientRetries p <? 0) && negb (3 <? PfP_TransientRetries p)
  && negb (n =? 0) && negb (256 <? n)
  && forallb (fun '(id, t) => preflight_task_ok id t) (mentries (PfP_Tasks p)).

(** [m[a][b]] and [m[a][b] = v] on a map of maps; the code makes the inner map. *)
Definition mget2 {V} (m : gomap (gmap string V)) (a b : string) : option V :=
  match mget m a with Some inner => inner !! b | None => None end.
Definition mset2 {V} (m : gomap (gmap string V)) (a b : string) (v : V) : res (gomap (gmap string V)) :=
  mset m a (<[b := v]> (default ∅ (mget m a))).

Definition put_preflight_policy (s : state) (p : PreflightPolicy) : res state :=
  h ← mset2 (PreflightPolicyHistory (st_Preflight s)) (PfP_ProjectID p) (PfP_Revision p) p;
  m ← mset (preflight_policies s) (PfP_ProjectID p) p;
  Ok (s <| st_Preflight := (st_Preflight s) <| PreflightPolicyHistory := h |> <| PreflightPolicies := m |> |>).

Definition ConfigurePreflight (e : Env) (owner : string) (p : PreflightPolicy) : tx unit := fun s =>
  deny_if ((Version s <? 11) || not_owner s owner || negb (validPreflightPolicy e 0 p));;
  swarm ← must (mget (swarm_policies s) (PfP_ProjectID p));
  deny_if (negb (SP_Harness swarm =? PfP_Harness p)%string);;
  deny_if (negb (forallb (fun '(task, _) => mhas (SP_Placements swarm) task) (mentries (PfP_Tasks p))));;
  match mget2 (PreflightPolicyHistory (st_Preflight s)) (PfP_ProjectID p) (PfP_Revision p) with
  | Some old => deny_if (negb (bool_decide (old = p)));; Ok (tt, s)
  | None => s' ← put_preflight_policy s p; Ok (tt, s')
  end.

(** ** Reports *)

Definition finiteNonnegative (x : float) : bool := finite x && fle zero x.
Definition roleDigest (r : Role) : string := identity "preflight.role" "" r.

Definition phase_names : list string :=
  ["implementation"; "review"; "verification"; "integration"; "recovery"; "fallback"; "tokens"; "budget"]%string.

Definition add_phase (p : PreflightPhase) (r : PreflightReport) : PreflightReport :=
  r <| PR_Phases := PR_Phases r ++ [p] |>.

(** [fail] *)
Definition fail_phase (phase remedy : string) (r : PreflightReport) : PreflightReport :=
  add_phase (mkPreflightPhase phase "policy_refused" "cooperative-current-authority" "" remedy true) r.
Definition fail_when (c : bool) (phase remedy : string) (r : PreflightReport) : PreflightReport :=
  if c then fail_phase phase remedy r else r.

(** The phase of a name no phase of the report has. *)
Definition not_evaluated (name : string) : PreflightPhase :=
  mkPreflightPhase name "not_evaluated" "unavailable" "" "resolve preceding owner-policy or canonical-profile refusal" true.
Definition complete_phase (r : PreflightReport) (name : string) : PreflightReport :=
  if existsb (fun p => (PPh_Phase p =? name)%string) (PR_Phases r) then r else add_phase (not_evaluated name) r.
Definition completePreflightPhases (r : PreflightReport) : PreflightReport := fold_left complete_phase phase_names r.

Definition preflightDigest (r : PreflightReport) : string :=
  hash (default ""%string (marshal (to_json (r <| PR_ObservedAt := 0 |> <| PR_ProofDigest := ""%string |>)))).

Definition sealed (r : PreflightReport) : PreflightReport := r <| PR_ProofDigest := preflightDigest r |>.

(** The early returns: the refusal is the report's last phase. *)
Definition refused (phase remedy : string) (r : PreflightReport) : PreflightReport :=
  sealed (completePreflightPhases ((fail_phase phase remedy r) <| PR_FailureClass := "permanent"%string |>)).

(** [bindExpiry] *)
Definition bind_expiry (t : time) (r : PreflightReport) : PreflightReport :=
  if t <? PR_ExpiresAt r then r <| PR_ExpiresAt := t |> else r.

Definition implementationCharter (kind : string) : bool := (kind =? "implement")%string || (kind =? "implementer")%string.
Definition reviewCharter (kind : string) : bool := (kind =? "review")%string || (kind =? "reviewer")%string.

Definition valid_role (p : PreflightPolicy) (r : Role) (name : string) : bool :=
  (Role_Name r =? name)%string && (Role_Runtime r =? PfP_Harness p)%string && negb (ModelID r =? "")%string
  && finiteNonnegative (Role_MaxPoints r) && finiteNonnegative (MP_MaxTaskPoints (Role_Profile r))
  && (0 <=? MP_ContextLimit (Role_Profile r)).

Definition samePreflightReviewPolicy (grant current : ReviewObservation) : bool :=
  bool_decide (grant = current <| RO_RequiredSet := None |>).

(** ** Routing policy of the project *)

Section routing_spec.
Context (e : Env).

(** The candidate of a role that is available and unexpired at its own reading. *)
Fixpoint available_candidate (i : nat) (s : state) (role : string) (l : list NativeModelRoutingCandidate) : option PreflightTask :=
  match l with
  | [] => None
  | c :: l =>
    if (MRC_RoleID c =? role)%string && MRC_Available c && (now e i <? MRC_ExpiresAt c) then Some (MRC_Preflight c)
    else available_candidate (S i) s role l
  end.

Definition routing_candidates (p : NativeModelRoutingPolicy) (task : string) : list NativeModelRoutingCandidate :=
  match mget (MRP_Tasks p) task with Some t => MRT_Candidates t | None => [] end.

Definition routingPreflightSpec (s : state) (project task role : string) : prog (option PreflightTask) :=
  match mget (routing_policies s) project with
  | Some p =>
    t ← look 1 (now e);
    if negb (t <? MRP_ExpiresAt p) then mret None
    else let l := routing_candidates p task in
         look (List.length l) (fun i => available_candidate i s role l)
  | None => mret (preflight_task s project task)
  end.

(** [modelRoutingCurrent] *)
Fixpoint routed_current (i : nat) (r : NativeModelRoutingSelection) (l : list NativeModelRoutingCandidate) : bool :=
  match l with
  | [] => false
  | c :: l =>
    (MRC_RoleID c =? MRS_RoleID r)%string && (MRC_Model c =? MRS_Model r)%string && MRC_Available c
    && (now e i <? MRC_ExpiresAt c) || routed_current (S i) r l
  end.

Definition modelRoutingCurrent (s : state) (d : DispatchReservation) : prog bool :=
  match DR_Routing d with
  | None => mret (negb (mhas (routing_policies s) (DR_ProjectID d)))
  | Some r =>
    match mget (routing_policies s) (DR_ProjectID d) with
    | None => mret false
    | Some p =>
      t1 ← look 1 (now e);
      t2 ← look 1 (now e);
      if negb (MRP_Revision p =? MRS_PolicyRevision r)%string
         || negb (MRS_TaskID r =? Lease_TaskID (DR_Reservation d))%string
         || negb (MRS_RoleID r =? DR_ImplementationRole d)%string || negb (MRS_Harness r =? DR_Harness d)%string
         || negb (t1 <? MRS_ExpiresAt r) || negb (t2 <? MRP_ExpiresAt p)
      then mret false
      else let l := routing_candidates p (MRS_TaskID r) in
           look (List.length l) (fun i => routed_current i r l)
    end
  end.
End routing_spec.

(** ** The report *)

(** [s.PreflightRetryBudgets[project + ":" + p.Revision + ":" + task]] *)
Definition retry_key (project : string) (p : PreflightPolicy) (task : string) : string :=
  (project ++ ":" ++ PfP_Revision p ++ ":" ++ task)%string.
Definition retries (s : state) (key : string) : Z :=
  default 0 (mget (PreflightRetryBudgets (st_Preflight s)) key).

(** Current overrides, the last to expire first, then by identifier. *)
Definition override_le (x y : string * CapacityOverride) : Prop :=
  CO_ExpiresAt y.2 < CO_ExpiresAt x.2
  \/ CO_ExpiresAt x.2 = CO_ExpiresAt y.2 /\ String.le (CO_ID x.2) (CO_ID y.2).
#[export] Instance override_le_dec : RelDecision override_le.
Proof. intros x y. unfold override_le. apply _. Defined.
Definition override_order (s : state) : list (string * CapacityOverride) :=
  merge_sort override_le (mentries (CapacityOverrides (st_Preflight s))).

(** The report with the authority facts collected so far. *)
Definition draft : Type := PreflightReport * list json.
(** [authorityFacts = append(authorityFacts, x); bindExpiry(x.ExpiresAt)] *)
Definition fact {A} `{ToJSON A} (x : A) (expires : time) (d : draft) : draft :=
  (bind_expiry expires d.1, d.2 ++ [to_json x]).
Definition draft_fail (c : bool) (phase remedy : string) (d : draft) : draft := (fail_when c phase remedy d.1, d.2).

(** The phases of the report that block it. *)
Definition blocks (manual : bool) (f : PreflightPhase) : bool :=
  PPh_Required f && (negb (PPh_Verdict f =? "ready")%string
                     || (PPh_Assurance f =? "owner-manual")%string && negb manual).
Definition is_transient (f : PreflightPhase) : bool := (PPh_Verdict f =? "transient")%string.

Section report.
Context (e : Env) (ad : Adapters) (au : Authority) (s : state).
Context (project task impl review worker : string) (p : PreflightPolicy) (spec : PreflightTask).

Definition zero_capacity : TaskCapacityVerdict := mkCapacityVerdict false false zero zero zero "".

Definition start_report (t : time) : PreflightReport :=
  mkPreflightReport None "" "" "" [] [] 1 (Binding_Workspace (st_Binding s)) project task (PfP_Revision p)
    (PfP_Harness p) "" "" "" "" "" "" zero_capacity "" false "" [] t (PfP_ExpiresAt p).

(** The expiry of the project's routing policy and of the role's candidates. *)
Definition routing_bounds (r : PreflightReport) : PreflightReport :=
  match mget (routing_policies s) project with
  | Some q =>
    fold_left (fun r c => if (MRC_RoleID c =? impl)%string then bind_expiry (MRC_ExpiresAt c) r else r)
      (routing_candidates q task)
      (bind_expiry (MRP_ExpiresAt q)
         (r <| PR_RoutingRole := impl |> <| PR_RoutingPolicyDigest := identity "model.routing.policy" "" q |>))
  | None => r
  end.

Definition provenance_phase (r : PreflightReport) (x : RoleRegistryProvenance) : PreflightReport :=
  if RRP_LifecycleExpiresAt x =? 0
  then fail_phase "role-registry" "refresh the signed lifecycle statement for the pinned role" r
  else bind_expiry (RRP_LifecycleExpiresAt x) r.

(** The digests and the provenance of the observation. *)
Definition take_observation (obs : PreflightObservation) (r : PreflightReport) : PreflightReport :=
  fold_left provenance_phase (PO_RoleRegistry obs)
    (r <| PR_RequiredSet := PO_RequiredSet obs |> <| PR_TaskDigest := PO_TaskDigest obs |>
       <| PR_RoleDigest := roleDigest (PO_Implementation obs) |> <| PR_RosterDigest := PO_RosterDigest obs |>
       <| PR_RoleRegistry := PO_RoleRegistry obs |>).
Definition take_phases (obs : PreflightObservation) (r : PreflightReport) : PreflightReport :=
  let r := bind_expiry (PO_ExpiresAt obs)
             (r <| PR_ClaimsDigest := PO_ClaimsDigest obs |> <| PR_ProfileDigest := PO_ProfileDigest obs |>) in
  r <| PR_Phases := PR_Phases r ++ PO_Phases obs |>.

Definition stale (obs : PreflightObservation) (t : time) (r : PreflightReport) : bool :=
  negb (t <? PR_ExpiresAt r) || negb (PO_AuthorityPath obs =? a_path au)%string
  || negb (PO_InstallationID obs =? Binding_Installation (st_Binding s))%string
  || negb (PO_Harness obs =? PfP_Harness p)%string || negb (PfP_Harness p =? "codex")%string
  || negb (len (PO_TaskDigest obs) =? 64) || negb (len (PO_RosterDigest obs) =? 64)
  || negb (len (PO_ClaimsDigest obs) =? 64) || negb (len (PO_ProfileDigest obs) =? 64).

Definition charters_ok (obs : PreflightObservation) : bool :=
  implementationCharter (Role_Kind (PO_Implementation obs))
  && negb (PT_RequireReview spec && negb (reviewCharter (Role_Kind (PO_Review obs))))
  && implementationCharter (Role_Kind (PO_Recovery obs)).
Definition roles_ok (obs : PreflightObservation) : bool :=
  valid_role p (PO_Implementation obs) (PT_ImplementationRole spec) && (impl =? PT_ImplementationRole spec)%string
  && valid_role p (PO_Review obs) (PT_ReviewRole spec) && (review =? PT_ReviewRole spec)%string
  && valid_role p (PO_Recovery obs) (PT_RecoveryRole spec).
(** The loop over [obs.Fallback] against the names of the policy. *)
Fixpoint fallbacks (roles : list Role) (names : list string) (r : PreflightReport) : PreflightReport :=
  match roles with
  | [] => r
  | x :: roles =>
    let bad := match names with
               | [] => true
               | name :: _ => negb (implementationCharter (Role_Kind x)) || negb (valid_role p x name)
               end in
    fallbacks roles (List.tl names) (fail_when bad "fallback" "pin every fallback to the same Codex harness" r)
  end.

Definition role_phases (obs : PreflightObservation) (r : PreflightReport) : PreflightReport :=
  let r := fail_when (negb (charters_ok obs)) "roles"
             "canonical role charter must match implementation, review and recovery phases" r in
  let r := fail_when (negb (roles_ok obs)) "roles" "resolve exact owner-selected Codex roster roles and models" r in
  let r := fallbacks (PO_Fallback obs) (PT_FallbackRoles spec) r in
  fail_when (negb (Nat.eqb (List.length (PO_Fallback obs)) (List.length (PT_FallbackRoles spec)))) "fallback"
    "resolve the complete fallback chain" r.

(** ** Capacity *)

Definition override_matches (obs : PreflightObservation) (role : Role) (delta : float) (o : CapacityOverride) : bool :=
  (CO_Workspace o =? Binding_Workspace (st_Binding s))%string && (CO_ProjectID o =? project)%string
  && (CO_TaskID o =? task)%string && (CO_PolicyRevision o =? PfP_Revision p)%string
  && (CO_Harness o =? PfP_Harness p)%string && (CO_TaskDigest o =? PO_TaskDigest obs)%string
  && (CO_RoleID o =? Role_Name role)%string && (CO_RoleDigest o =? roleDigest role)%string
  && feq (CO_Required o) (PO_Required obs) && feq (CO_Delta o) delta.

(** The first override that matches and is unexpired at its own reading. *)
Fixpoint find_override (i : nat) (matches : CapacityOverride -> bool) (l : list (string * CapacityOverride))
    : option (string * CapacityOverride) :=
  match l with
  | [] => None
  | (id, o) :: l => if matches o && (now e i <? CO_ExpiresAt o) then Some (id, o) else find_override (S i) matches l
  end.

Definition capacity_input_ok (obs : PreflightObservation) (role : Role) : bool :=
  finiteNonnegative (PO_Required obs) && finiteNonnegative (Role_MaxPoints role)
  && finiteNonnegative (MP_MaxTaskPoints (Role_Profile role))
  && finiteNonnegative (TCV_Limit (TaskCapacity role (PO_Required obs) (PO_Sized obs))).

Definition add_capacity (x : PreflightRoleCapacity) (r : PreflightReport) : PreflightReport :=
  let r := r <| PR_RoleCapacities := PR_RoleCapacities r ++ [x] |> in
  if (PRC_Phase x =? "implementation")%string
  then r <| PR_Capacity := PRC_Capacity x |> <| PR_OverrideID := PRC_OverrideID x |> else r.

Definition evaluateCapacity (obs : PreflightObservation) (phase : string) (r : PreflightReport) (role : Role)
    : prog PreflightReport :=
  let c := TaskCapacity role (PO_Required obs) (PO_Sized obs) in
  let entry := mkRoleCapacity phase (Role_Name role) (roleDigest role) in
  if negb (capacity_input_ok obs role) then
    mret (add_capacity
            (entry ""%string (mkCapacityVerdict false (PO_Sized obs) zero zero zero
                         "invalid nonfinite or negative capacity input"))
            (fail_phase phase "repair finite canonical task estimate and role task capacity" r))
  else if TCV_Fits c then mret (add_capacity (entry ""%string c) r)
  else
    let l := override_order s in
    o ← look (List.length l) (fun i => find_override i (override_matches obs role (TCV_Delta c)) l);
    match o with
    | Some (id, o) =>
      let r := bind_expiry (CO_ExpiresAt o) r in
      mret (add_capacity (entry id c)
              (fail_when (id =? "")%string phase
                 (TCV_Reason c ++ "; owner may record an exact role-specific expiring size-only override")%string r))
    | None =>
      mret (add_capacity (entry ""%string c)
              (fail_phase phase
                 (TCV_Reason c ++ "; owner may record an exact role-specific expiring size-only override")%string r))
    end.

Definition capacity_phases (obs : PreflightObservation) (r : PreflightReport) : prog PreflightReport :=
  r ← evaluateCapacity obs "implementation" r (PO_Implementation obs);
  r ← (if PT_RequireReview spec then evaluateCapacity obs "review" r (PO_Review obs) else mret r);
  r ← evaluateCapacity obs "recovery" r (PO_Recovery obs);
  each (evaluateCapacity obs "fallback") r (PO_Fallback obs).

(** ** Credentials and grants *)

Definition currentActor (actor : PreflightActor) (actions : list string) (d : draft)
    : prog (record * string * bool * draft) :=
  t ← look 1 (now e);
  let '(r, root, found) :=
    match rootSession s (PAc_SessionID actor) t with
    | Ok (r, root) => (r, root, true)
    | Err _ => (zero_record, ""%string, false)
    end in
  mret (r, root,
        found && (record_Hash r =? PAc_CredentialHash actor)%string && subset actions (r_Actions r)
        && subset [task_resource task] (r_Resources r) && negb (workerTaskWithdrawn s (r_ID r) task),
        fact (record_Session r) (r_ExpiresAt r) d).

Definition worker_actions : list string :=
  ["attempt.register"; "lease.acquire"; "lease.renew"; "lease.release"]%string
  ++ (if PT_RequireReview spec || PT_RequireVerification spec then ["attempt.publish"; "verification.request"]%string
      else []).

Definition worker_phase (obs : PreflightObservation) (d : draft) : prog (record * string * draft) :=
  '(wr, root, valid, d) ← currentActor (PO_Worker obs) worker_actions d;
  mret (wr, root,
        draft_fail
          (negb valid
           || negb (subset (PO_ClaimResources obs ++ [("checkout:" ++ SPl_Checkout (placement_of s project task))%string])
                      (r_Resources wr))
           || negb (r_Parent wr =? "")%string || negb (worker =? "")%string && negb (worker =? r_ID wr)%string)
          "implementation" "provision the exact current independent worker root and scoped credential" d).

Definition review_grant_of (id : string) : option ReviewGrant := mget (ReviewGrants s) id.

Definition review_phase (obs : PreflightObservation) (wr : record) (root : string) (d : draft) : prog draft :=
  '(rr, reviewRoot, valid, d) ← currentActor (PO_Reviewer obs) ["review.propose"; "review.evaluate"]%string d;
  let found := review_grant_of (PAc_GrantID (PO_Reviewer obs)) in
  let g := default zero_review_grant found in
  let d := fact g (RG_ExpiresAt g) d in
  t1 ← look 1 (now e);
  t2 ← look 1 (now e);
  mret (draft_fail
          (negb valid
           || negb (is_ok (reviewIndependence s (r_ID rr) (r_ID wr) task t1))
           || negb (PO_ReviewerRepository obs =? task_repository s task)%string || negb (r_Parent rr =? "")%string
           || (reviewRoot =? root)%string || negb (reviewOnly rr task) || negb (bool_decide (is_Some found))
           || RG_Revoked g || negb (t2 <? RG_ExpiresAt g) || negb (RG_ReviewerSession g =? r_ID rr)%string
           || negb (RG_WorkerRoot g =? root)%string || negb (RG_TaskID g =? task)%string
           || negb (RG_Repository g =? task_repository s task)%string
           || negb (samePreflightReviewPolicy (RG_Observation g) (PO_ReviewObservation obs)))
          "review"
          "owner must provision an independent reviewer, matching current grant, policy and private connection before implementation" d).

(** One refusal per check that is not among the allowed ones. *)
Definition require_checks (remedy : string) (required allowed : list RequiredCheck) (r : PreflightReport) : PreflightReport :=
  fold_left (fun r c => fail_when (negb (bool_decide (c ∈ allowed))) "verification" remedy r) required r.

Definition review_checks (obs : PreflightObservation) (r : PreflightReport) : PreflightReport :=
  let policy := RO_Checks (PO_ReviewObservation obs) in
  let remedy := "required reviewer checks must be present in the exact trusted runner profile"%string in
  match PO_RequiredSet obs with
  | Some set =>
    require_checks remedy (RVS_Checks set) (PO_Checks obs)
      (require_checks "every routed required check must be in the full owner review policy" (RVS_Checks set) policy r)
  | None => require_checks remedy policy (PO_Checks obs) r
  end.

Definition grant_serves (id : string) (runner : string) (c : RequiredCheck) (g : VerificationGrant) : bool :=
  (VG_ID g =? id)%string && negb (VG_Revoked g) && (VG_RunnerSession g =? runner)%string && (VG_TaskID g =? task)%string
  && (VG_Repository g =? task_repository s task)%string && (VG_CheckID g =? RC_ID c)%string
  && (VG_CommandDigest g =? RC_CommandDigest c)%string.
(** The search over [s.Grants], every grant against its own reading. *)
Fixpoint find_grant (i : nat) (serves : VerificationGrant -> bool) (l : list VerificationGrant) : bool :=
  match l with
  | [] => false
  | g :: l => serves g && (now e i <? VG_ExpiresAt g) || find_grant (S i) serves l
  end.

Definition check_phase (runner : string) (d : draft) (c : RequiredCheck * option string) : prog draft :=
  let remedy := "provision exact current check grants before implementation"%string in
  match c.2 with
  | Some id =>
    let g := default zero_grant (mget (Grants s) id) in
    found ← look (List.length (mvals (Grants s))) (fun i => find_grant i (grant_serves id runner c.1) (mvals (Grants s)));
    mret (draft_fail (negb found) "verification" remedy (fact g (VG_ExpiresAt g) d))
  | None => mret (draft_fail true "verification" remedy d)
  end.

(** [obs.Checks] with the grant at the same index, if there is one. *)
Fixpoint with_grants (checks : list RequiredCheck) (ids : list string) : list (RequiredCheck * option string) :=
  match checks with
  | [] => []
  | c :: checks => (c, hd_error ids) :: with_grants checks (List.tl ids)
  end.

Definition verification_phase (obs : PreflightObservation) (root : string) (d : draft) : prog draft :=
  let d := if PT_RequireReview spec then (review_checks obs d.1, d.2) else d in
  '(rr, runnerRoot, valid, d) ← currentActor (PO_Runner obs) ["verification.run"]%string d;
  let d := draft_fail
             (negb valid || negb (PO_RunnerRepository obs =? task_repository s task)%string
              || negb (r_Parent rr =? "")%string || (runnerRoot =? root)%string
              || Nat.eqb (List.length (PO_Checks obs)) 0
              || negb (Nat.eqb (List.length (PO_Checks obs)) (List.length (PO_VerificationGrantIDs obs))))
             "verification" "provision a current trusted runner and bounded check profile" d in
  each (check_phase (r_ID rr)) d (with_grants (PO_Checks obs) (PO_VerificationGrantIDs obs)).

Definition authority_phases (obs : PreflightObservation) (r : PreflightReport) : prog PreflightReport :=
  '(wr, root, d) ← worker_phase obs (r, []);
  d ← (if PT_RequireReview spec then review_phase obs wr root d else mret d);
  d ← (if PT_RequireVerification spec || PT_RequireReview spec then verification_phase obs root d else mret d);
  mret (d.1 <| PR_AuthorityDigest := identity "preflight.authority" "" (JArray d.2) |>).

(** ** The verdict *)

Definition verdict (r : PreflightReport) : PreflightReport :=
  let blocked := List.filter (blocks (PfP_AcceptManualAssurance p)) (PR_Phases r) in
  let transient := existsb is_transient blocked in
  let permanent := existsb (fun f => negb (is_transient f)) blocked in
  r <| PR_Allowed := negb permanent && negb transient |>
    <| PR_FailureClass := (if permanent then "permanent" else if transient then "transient" else "")%string |>.
Definition conclude (r : PreflightReport) : PreflightReport :=
  sealed (completePreflightPhases (verdict (completePreflightPhases r))).

(** From the observation to the check of its freshness. *)
Definition canonical_phases (obs : PreflightObservation) (r : PreflightReport) : prog PreflightReport :=
  let r := take_observation obs r in
  t ← look 1 (now e);
  let r := fail_when (negb (is_ok (resolveRolePolicyReferences s project (PR_RoleRegistry r) t)))
             "role-policy" "refresh or explicitly re-pin the exact native policy referenced by the signed role release" r in
  let r := take_phases obs r in
  t ← look 1 (now e);
  mret (fail_when (stale obs t r) "freshness" "refresh owner-selected canonical and private-profile observations" r).

(** The last two refusals. *)
Definition closing_phases (t : time) (r : PreflightReport) : PreflightReport :=
  let r := fail_when (negb (t <? PR_ExpiresAt r)) "freshness"
             "owner policy, capability contract or size override expired during observation" r in
  fail_when (PfP_TransientRetries p <? retries s (retry_key project p task)) "retry"
    "owner must reconcile the exhausted durable transient retry budget" r.

Definition observed_report (obs : PreflightObservation) (r : PreflightReport) : prog PreflightReport :=
  r ← canonical_phases obs r;
  r ← capacity_phases obs (role_phases obs r);
  r ← authority_phases obs r;
  t ← look 1 (now e);
  mret (conclude (closing_phases t r)).

(** [preflightSpec]; the code's error result is always nil. *)
Definition preflightSpec (present : bool) : prog PreflightReport :=
  t ← look 1 (now e);
  let r := routing_bounds (start_report t) in
  if mhas (terminals s) task then
    mret (refused "policy" "task execution retired by native acceptance; retained resources require separate owner cleanup" r)
  else
    t ← look 1 (now e);
    match observe_preflight ad with
    | Some observer =>
      if (Version s <? 11) || negb (mhas (preflight_policies s) project) || negb present || negb (t <? PfP_ExpiresAt p)
      then mret (refused "policy" "owner must configure a fresh complete-loop preflight policy" r)
      else
        o ← look 1 (fun n => observer n (Binding_Workspace (st_Binding s)) project task spec (placement_of s project task));
        match o with
        | Err _ =>
          mret (refused "observation"
                  "canonical or owner-selected profile observation unavailable; reconcile instead of unchanged retry" r)
        | Ok obs =>
          let r := fail_when (negb (PO_Sized obs)) "implementation"
                     "canonical PERT estimate is required before normal assignment or native allocation" r in
          match PO_RoleRegistry obs with
          | _ :: _ =>
            if Version s <? 20 then
              mret (refused "schema"
                      "owner must explicitly migrate the authority to schema 20 before using governed role pins" r)
            else observed_report obs r
          | [] => observed_report obs r
          end
        end
    | None => mret (refused "policy" "owner must configure a fresh complete-loop preflight policy" r)
    end.
End report.

(** [preflight] *)
Definition preflight (e : Env) (ad : Adapters) (au : Authority) (s : state)
    (project task impl review worker : string) : prog PreflightReport :=
  spec ← routingPreflightSpec e s project task impl;
  preflightSpec e ad au s project task impl review worker (preflight_policy s project) (default zero_task spec)
    (bool_decide (is_Some spec)).

(** The report the owner's own task entry asks for. *)
Definition owner_preflight (e : Env) (ad : Adapters) (au : Authority) (s : state) (project task : string) : prog PreflightReport :=
  let spec := preflight_spec s project task in
  preflight e ad au s project task (PT_ImplementationRole spec) (PT_ReviewRole spec) "".

(** ** Size overrides *)

Record CapacityOverrideRequest := mkOverrideRequest {
  COR_ID : string; COR_ProjectID : string; COR_TaskID : string; COR_RoleID : string; COR_Reason : string;
  COR_ExpiresAt : time
}.

(** [reflect.DeepEqual] on overrides: floating point fields by their value. *)
Definition same_override (x y : CapacityOverride) : bool :=
  feq (CO_Required x) (CO_Required y) && feq (CO_Delta x) (CO_Delta y)
  && bool_decide ((CO_ID x, CO_Workspace x, CO_ProjectID x, CO_TaskID x, CO_PolicyRevision x, CO_Harness x,
                   CO_TaskDigest x, CO_RoleDigest x, CO_RoleID x, CO_Reason x, CO_Actor x, CO_ExpiresAt x)
                  = (CO_ID y, CO_Workspace y, CO_ProjectID y, CO_TaskID y, CO_PolicyRevision y, CO_Harness y,
                     CO_TaskDigest y, CO_RoleDigest y, CO_RoleID y, CO_Reason y, CO_Actor y, CO_ExpiresAt y)).

Definition put_override (s : state) (id : string) (o : CapacityOverride) : res state :=
  m ← mset (CapacityOverrides (st_Preflight s)) id o;
  Ok (s <| st_Preflight := (st_Preflight s) <| CapacityOverrides := m |> |>).

Definition zero_role_capacity : PreflightRoleCapacity := mkRoleCapacity "" "" "" "" zero_capacity.
Definition capacity_of (roleID : string) (r : PreflightReport) : PreflightRoleCapacity :=
  default zero_role_capacity (List.find (fun c => (PRC_RoleID c =? roleID)%string) (PR_RoleCapacities r)).

Definition new_override (s : state) (req : CapacityOverrideRequest) (roleID : string) (r : PreflightReport)
    (c : PreflightRoleCapacity) : CapacityOverride :=
  let p := preflight_policy s (COR_ProjectID req) in
  mkCapacityOverride (COR_ID req) (Binding_Workspace (st_Binding s)) (COR_ProjectID req) (COR_TaskID req)
    (PfP_Revision p) (PfP_Harness p) (PR_TaskDigest r) (PRC_RoleDigest c) roleID (COR_Reason req)
    ("owner:" ++ Binding_Installation (st_Binding s)) (TCV_Required (PRC_Capacity c)) (TCV_Delta (PRC_Capacity c))
    (COR_ExpiresAt req).

Definition OverrideCapacity (e : Env) (ad : Adapters) (au : Authority) (owner : string) (req : CapacityOverrideRequest)
    : tx CapacityOverride := fun s => run (
  t ← look 1 (now e);
  forbid_if ((Version s <? 11) || not_owner s owner || negb (validID (COR_ID req)) || blank (COR_Reason req)
             || (8192 <? len (COR_Reason req)) || negb (t <? COR_ExpiresAt req));;
  let p := preflight_policy s (COR_ProjectID req) in
  let spec := preflight_spec s (COR_ProjectID req) (COR_TaskID req) in
  report ← owner_preflight e ad au s (COR_ProjectID req) (COR_TaskID req);
  let roleID := if (COR_RoleID req =? "")%string then PT_ImplementationRole spec else COR_RoleID req in
  let selected := capacity_of roleID report in
  t ← look 1 (now e);
  forbid_if (negb (t <? COR_ExpiresAt req) || (PRC_RoleID selected =? "")%string || TCV_Fits (PRC_Capacity selected)
             || fle zero (TCV_Delta (PRC_Capacity selected)) || (PfP_ExpiresAt p <? COR_ExpiresAt req));;
  let result := new_override s req roleID report selected in
  match mget (CapacityOverrides (st_Preflight s)) (COR_ID req) with
  | Some old => forbid_if (negb (same_override old result));; mret (old, s)
  | None => s' ← lift (put_override s (COR_ID req) result); mret (result, s')
  end).

(** ** Checks by a controller *)

(** [n++] on an int *)
Definition incr_int (n : Z) : Z := if n =? max_int64 then - 2 ^ 63 else n + 1.

Definition put_retries (s : state) (key : string) (n : Z) : res state :=
  m ← mset (PreflightRetryBudgets (st_Preflight s)) key n;
  Ok (s <| st_Preflight := (st_Preflight s) <| PreflightRetryBudgets := m |> |>).
Definition put_preflight_receipt (s : state) (key : string) (r : PreflightReceipt) : res state :=
  m ← mset (PreflightOperations (st_Preflight s)) key r;
  Ok (s <| st_Preflight := (st_Preflight s) <| PreflightOperations := m |> |>).

Definition check_digest (session project task : string) : string :=
  identity "preflight.check" session (JObject [("Project", JString project); ("Task", JString task)]%string).

Definition preflight_controller (s : state) (token session project task : string) (t : time) : res unit :=
  actor ← controller s token session project "swarm.plan" t;
  deny_if (negb (subset [task_resource task] (r_Resources actor))).

(** A transient report is counted against the task's retry budget and becomes
    permanent beyond it. *)
Definition count_transient (s : state) (p : PreflightPolicy) (key : string) (r : PreflightReport)
    : res (PreflightReport * state) :=
  if (PR_FailureClass r =? "transient")%string then
    let n := incr_int (retries s key) in
    s ← put_retries s key n;
    Ok (if PfP_TransientRetries p <? n
        then add_phase (mkPreflightPhase "retry" "policy_refused" "durable-bounded-policy" ""
                          "owner must reconcile exhausted transient retry budget" true)
               (r <| PR_FailureClass := "permanent"%string |>)
        else r, s)
  else Ok (r, s).

Definition CheckPreflight (e : Env) (ad : Adapters) (au : Authority) (token session project task key : string)
    : tx PreflightReceipt := fun s => run (
  t ← look 1 (now e);
  forbid_if ((Version s <? 11) || negb (validID key) || negb (validID task));;
  lift (preflight_controller s token session project task t);;
  let digest := check_digest session project task in
  match mget (PreflightOperations (st_Preflight s)) key with
  | Some old => forbid_if (negb (PRec_RequestDigest old =? digest)%string);; mret (old, s)
  | None =>
    let p := preflight_policy s project in
    let budget := retry_key project p task in
    report ← owner_preflight e ad au s project task;
    '(report, s') ← lift (count_transient s p budget report);
    t ← look 1 (now e);
    lift (preflight_controller s' token session project task t);;
    let result := mkPreflightReceipt digest (sealed report) (retries s' budget) in
    s'' ← lift (put_preflight_receipt s' key result);
    mret (result, s'')
  end).

(** ** Use at dispatch *)

Definition preflightReportError (r : PreflightReport) : error :=
  if (PR_FailureClass r =? "transient")%string then ErrPreflightTransient else ErrDenied.

Definition dispatchPreflight (e : Env) (ad : Adapters) (au : Authority) (s : state) (d : DispatchReservation)
    (worker : string) : prog unit :=
  if Version s <? 11 then mret tt
  else
    r ← preflight e ad au s (DR_ProjectID d) (Lease_TaskID (DR_Reservation d)) (DR_ImplementationRole d)
          (DR_ReviewRole d) worker;
    lift (fail_if (preflightReportError r) (negb (PR_Allowed r)));;
    forbid_if ((DR_PreflightDigest d =? "")%string || negb (DR_PreflightDigest d =? PR_ProofDigest r)%string);;
    forbid_if (negb (bool_decide (DR_RoleRegistry d = PR_RoleRegistry r))).

Definition preflightBoundCurrent (e : Env) (s : state) (d : DispatchReservation) : prog bool :=
  routed ← modelRoutingCurrent e s d;
  t ← look 1 (now e);
  mret (routed && ((Version s <? 11) || negb (DR_PreflightDigest d =? "")%string && (t <? DR_PreflightExpiresAt d))).

(** The verdicts of the fresh plan for the tasks the old one selected, or all of
    them when it selected none. *)
Definition concerned (fresh old : SwarmPlan) : list SwarmVerdict :=
  let selected := map SV_TaskID (List.filter SV_Selected (SPn_Verdicts old)) in
  match selected with
  | [] => SPn_Verdicts fresh
  | _ => List.filter (fun v => bool_decide (SV_TaskID v ∈ selected)) (SPn_Verdicts fresh)
  end.
Definition transient_verdict (v : SwarmVerdict) : bool :=
  match SV_Preflight v with Some r => (PR_FailureClass r =? "transient")%string | None => false end.

Definition preflightPlanError (fresh old : SwarmPlan) : error :=
  let refused := List.filter (fun v => negb (SV_Selected v)) (concerned fresh old) in
  if existsb (fun v => negb (transient_verdict v)) refused then ErrDenied
  else match refused with [] => ErrDenied | _ => ErrPreflightTransient end.
