(* ===== verification/PreflightLaws.v ===== *)
(** * What the complete-loop preflight promises

    The theorems about Preflight: what an allowed report guarantees, that every
    report is complete and sealed, the bound on transient refusals, and the
    histories the owner's operations keep. *)

From Stdlib Require Import SpecFloat.
From S2P Require Import Prelude Floats GoStd Team Disclosure State Session Schema Withdrawal Resources Attempts Leases Lifecycle Evidence Reviews Encodings Scheduling Preflight.
#[local] Open Scope Z_scope.

(** ** Growing a report *)

(** A phase that blocks the report whatever the policy accepts. *)
Definition refusal (f : PreflightPhase) : Prop := forall manual, blocks manual f = true.
(** A stage of the code itself only adds refusals and only lowers the expiry. *)
Definition grows (r r' : PreflightReport) : Prop :=
  (exists fs, PR_Phases r' = PR_Phases r ++ fs /\ Forall refusal fs) /\ PR_ExpiresAt r' <= PR_ExpiresAt r.
Definition clean (manual : bool) (r : PreflightReport) : Prop :=
  forall f, f ∈ PR_Phases r -> blocks manual f = false.

#[export] Instance grows_preorder : PreOrder grows.
Proof.
  split; [intros r; split; [exists []; by rewrite app_nil_r | lia] |].
  intros r1 r2 r3 [(fs & H1 & F1) E1] [(gs & H2 & F2) E2]. split; [| lia].
  exists (fs ++ gs). rewrite H2, H1, app_assoc. split; [done | by apply Forall_app].
Qed.

Lemma grows_clean m r r' : grows r r' -> clean m r' -> clean m r.
Proof. intros [(fs & E & _) _] Hc f Hf. apply Hc. rewrite E. set_solver. Qed.

(** A clean report has no phases but the ones it started with. *)
Lemma grows_clean_phases m r r' : grows r r' -> clean m r' -> PR_Phases r' = PR_Phases r.
Proof.
  intros [(fs & E & F) _] Hc. rewrite E. destruct F as [| f fs Hf _]; [apply app_nil_r |].
  specialize (Hf m). rewrite Hc in Hf; [done |]. rewrite E. set_solver.
Qed.

Lemma clean_refusals m r : Forall refusal (PR_Phases r) -> clean m r -> PR_Phases r = [].
Proof.
  intros F Hc. destruct (PR_Phases r) as [| f l] eqn:E; [done |]. apply Forall_inv in F as Hf.
  specialize (Hf m). rewrite Hc in Hf; [done |]. rewrite E. by left.
Qed.

Lemma grows_same r r' : PR_Phases r' = PR_Phases r -> PR_ExpiresAt r' <= PR_ExpiresAt r -> grows r r'.
Proof. intros E Ht. split; [| done]. exists []. by rewrite E, app_nil_r. Qed.

Lemma add_phase_grows f r : refusal f -> grows r (add_phase f r).
Proof. intros Hf. split; [| simpl; lia]. exists [f]. split; [done | by constructor]. Qed.

Lemma fail_phase_grows phase remedy r : grows r (fail_phase phase remedy r).
Proof. by apply add_phase_grows. Qed.

Lemma fail_phase_clean m phase remedy r : ~ clean m (fail_phase phase remedy r).
Proof.
  intros H.
  specialize (H (mkPreflightPhase phase "policy_refused" "cooperative-current-authority" "" remedy true)).
  enough (true = false) by done. rewrite <- H; [done |]. simpl. set_solver.
Qed.

Lemma fail_when_grows c phase remedy r : grows r (fail_when c phase remedy r).
Proof. destruct c; [apply fail_phase_grows | done]. Qed.

Lemma fail_when_clean m c phase remedy r : clean m (fail_when c phase remedy r) -> c = false.
Proof. destruct c; [| done]. by intros ?%fail_phase_clean. Qed.

Lemma bind_expiry_grows t r : grows r (bind_expiry t r).
Proof. unfold bind_expiry. destruct (t <? PR_ExpiresAt r) eqn:E; [| done]. apply grows_same; simpl; [done | lia]. Qed.

Lemma bind_expiry_le t r : PR_ExpiresAt (bind_expiry t r) <= t.
Proof. unfold bind_expiry. destruct (t <? PR_ExpiresAt r) eqn:E; simpl; lia. Qed.

Lemma bind_expiry_phases t r : PR_Phases (bind_expiry t r) = PR_Phases r.
Proof. unfold bind_expiry. by destruct (_ <? _). Qed.

Lemma add_capacity_grows x r : grows r (add_capacity x r).
Proof. unfold add_capacity. by destruct (_ =? _)%string; apply grows_same. Qed.

Lemma add_capacity_clean m x r : clean m (add_capacity x r) -> clean m r.
Proof. apply grows_clean, add_capacity_grows. Qed.

#[export] Hint Resolve fail_when_grows fail_phase_grows bind_expiry_grows add_capacity_grows : preflight.

(** A loop whose body grows the report: what a clean result says of every round,
    by a fact [P] that a lower expiry keeps. *)
Lemma fold_grows {B} m (P : B -> time -> Prop) (f : PreflightReport -> B -> PreflightReport) l r :
  (forall x t t', t' <= t -> P x t -> P x t') ->
  (forall r x, grows r (f r x) /\ (clean m (f r x) -> P x (PR_ExpiresAt (f r x)))) ->
  grows r (fold_left f l r)
  /\ (clean m (fold_left f l r) -> Forall (fun x => P x (PR_ExpiresAt (fold_left f l r))) l).
Proof.
  intros HP Hf. revert r. induction l as [| x l IH]; intros r; simpl; [split; [done | constructor] |].
  destruct (Hf r x) as [G1 C1], (IH (f r x)) as [G2 C2]. split; [by etrans |].
  intros Hc. constructor; [| by apply C2]. eapply HP; [apply G2 |]. apply C1. by eapply grows_clean.
Qed.

(** ** The completion and the verdict *)

Definition has_phase (r : PreflightReport) (name : string) : Prop := exists f, f ∈ PR_Phases r /\ PPh_Phase f = name.

Lemma has_phase_b r name : existsb (fun p => (PPh_Phase p =? name)%string) (PR_Phases r) = true <-> has_phase r name.
Proof. rewrite existsb_elem. by setoid_rewrite String.eqb_eq. Qed.

Lemma complete_phase_spec m r name :
  grows r (complete_phase r name) /\ has_phase (complete_phase r name) name
  /\ (clean m (complete_phase r name) -> complete_phase r name = r).
Proof.
  unfold complete_phase. destruct (existsb _ _) eqn:E.
  - split_and!; [done | by apply has_phase_b | done].
  - assert (Hin : not_evaluated name ∈ PR_Phases (add_phase (not_evaluated name) r)) by (simpl; set_solver).
    split_and!; [by apply add_phase_grows | by eexists | intros H; by specialize (H _ Hin)].
Qed.

Lemma complete_fold m l r :
  grows r (fold_left complete_phase l r) /\ (forall name, name ∈ l -> has_phase (fold_left complete_phase l r) name)
  /\ (clean m (fold_left complete_phase l r) -> fold_left complete_phase l r = r).
Proof.
  revert r. induction l as [| x l IH]; intros r; simpl; [split_and!; [done | set_solver | done] |].
  destruct (IH (complete_phase r x)) as (G & HP & Hc). destruct (complete_phase_spec m r x) as (G1 & P1 & C1).
  split_and!.
  - by etrans.
  - intros name [-> | H]%elem_of_cons; [| by apply HP].
    destruct P1 as (g & Hg & Hn). destruct G as [(fs & E & _) _]. exists g. rewrite E. set_solver.
  - intros H. rewrite (Hc H). apply C1. by eapply grows_clean.
Qed.

Lemma complete_grows r : grows r (completePreflightPhases r).
Proof. exact (proj1 (complete_fold false phase_names r)). Qed.

Lemma complete_has_all r name : name ∈ phase_names -> has_phase (completePreflightPhases r) name.
Proof. exact (proj1 (proj2 (complete_fold false phase_names r)) name). Qed.

Lemma complete_clean m r : clean m (completePreflightPhases r) -> completePreflightPhases r = r.
Proof. exact (proj2 (proj2 (complete_fold m phase_names r))). Qed.

Lemma filter_blocks_nil m r : List.filter (blocks m) (PR_Phases r) = [] <-> clean m r.
Proof.
  unfold clean. induction (PR_Phases r) as [| f l IH]; simpl; [set_solver |].
  destruct (blocks m f) eqn:E; split.
  - done.
  - intros H. rewrite H in E; [done | by left].
  - intros H g [-> | Hg]%elem_of_cons; [done | by apply IH].
  - intros H. apply IH. intros g Hg. apply H. by right.
Qed.

(** The completion touches only the phases. *)
Lemma complete_shape r : completePreflightPhases r = r <| PR_Phases := PR_Phases (completePreflightPhases r) |>.
Proof.
  unfold completePreflightPhases. revert r. induction phase_names as [| x l IH]; intros r; simpl; [by destruct r |].
  rewrite IH. unfold complete_phase. by destruct (existsb _ _).
Qed.

Lemma complete_id r : (forall name, name ∈ phase_names -> has_phase r name) -> completePreflightPhases r = r.
Proof.
  unfold completePreflightPhases. induction phase_names as [| x l IH]; intros H; simpl; [done |].
  unfold complete_phase at 2. rewrite (proj2 (has_phase_b r x)) by (apply H; by left).
  apply IH. intros name Hn. apply H. by right.
Qed.

#[global] Arguments completePreflightPhases : simpl never.

Lemma verdict_allowed p r :
  PR_Allowed (verdict p r) = true -> clean (PfP_AcceptManualAssurance p) r /\ PR_FailureClass (verdict p r) = ""%string.
Proof.
  unfold verdict. set (blocked := List.filter _ _). cbn. intros H.
  apply andb_true_iff in H as [Hp Ht]. apply negb_true_iff in Hp, Ht. rewrite Hp, Ht.
  split; [| done]. apply filter_blocks_nil. fold blocked. rewrite existsb_not_elem in Hp, Ht.
  destruct blocked as [| f l]; [done |].
  specialize (Hp f (list_elem_of_here _ _)). specialize (Ht f (list_elem_of_here _ _)). by rewrite Ht in Hp.
Qed.

Lemma conclude_allowed p r :
  PR_Allowed (conclude p r) = true ->
  clean (PfP_AcceptManualAssurance p) r /\ (forall name, name ∈ phase_names -> has_phase r name)
  /\ conclude p r = sealed (verdict p r) /\ PR_FailureClass (conclude p r) = ""%string.
Proof.
  intros H. unfold conclude in *. rewrite complete_shape in H. cbn in H.
  apply verdict_allowed in H as [Hc Hf].
  assert (Hr : completePreflightPhases r = r) by by eapply complete_clean. rewrite Hr in *.
  assert (Hn : forall name, name ∈ phase_names -> has_phase r name).
  { intros name Hn. rewrite <- Hr. by apply complete_has_all. }
  by rewrite (complete_id (verdict p r)).
Qed.

(** ** The stages *)

(** A loop of an operation: every round grows the report in [A] and, when the
    result is clean, establishes [P] of its element, which a lower expiry keeps. *)
Lemma each_grows {A B} (g : A -> PreflightReport) m (P : B -> time -> Prop) (f : A -> B -> prog A) l a n r k :
  (forall x t t', t' <= t -> P x t -> P x t') ->
  (forall a x n a' k, exec (f a x) n = Ok (a', k) ->
     grows (g a) (g a') /\ (clean m (g a') -> P x (PR_ExpiresAt (g a')))) ->
  exec (each f a l) n = Ok (r, k) ->
  grows (g a) (g r) /\ (clean m (g r) -> Forall (fun x => P x (PR_ExpiresAt (g r))) l).
Proof.
  intros HP Hf. revert a n. induction l as [| x l IH]; intros a n H; simpl each in H.
  - apply mret_ok in H as [-> _]. split; [done | constructor].
  - apply prog_bind_ok in H as (a' & k' & E1 & E2). apply Hf in E1 as [G1 C1]. apply IH in E2 as [G2 C2].
    split; [by etrans |]. intros Hc. constructor; [| by apply C2].
    apply (HP x (PR_ExpiresAt (g a'))); [apply G2 |]. apply C1. by eapply grows_clean.
Qed.

Section stages.
Context (e : Env) (s : state) (project task : string) (p : PreflightPolicy) (spec : PreflightTask).

(** The estimate fits the role, or a stored override is for exactly this
    observation, role and difference, and outlives [t]. *)
Definition capacity_admitted (obs : PreflightObservation) (role : Role) (t : time) : Prop :=
  let c := TaskCapacity role (PO_Required obs) (PO_Sized obs) in
  capacity_input_ok obs role = true
  /\ (TCV_Fits c = true
      \/ exists id o, mget (CapacityOverrides (st_Preflight s)) id = Some o /\ id <> ""%string
           /\ override_matches s project task p obs role (TCV_Delta c) o = true /\ t <= CO_ExpiresAt o).

Lemma capacity_admitted_anti obs role t t' : t' <= t -> capacity_admitted obs role t -> capacity_admitted obs role t'.
Proof.
  intros Ht (H1 & [H2 | (id & o & H2 & H3 & H4 & H5)]); split; [done | by left | done |].
  right. exists id, o. split_and!; [done | done | done | lia].
Qed.

Lemma find_override_spec i matches l id o :
  find_override e i matches l = Some (id, o) -> (id, o) ∈ l /\ matches o = true.
Proof.
  revert i. induction l as [| [id' o'] l IH]; intros i H; simpl in H; [done |].
  destruct (matches o' && _) eqn:E; simplify_eq.
  - apply andb_true_iff in E as [? _]. split; [by left | done].
  - apply IH in H as [? ?]. split; [by right | done].
Qed.

Lemma evaluateCapacity_spec m obs phase role r r' n k :
  exec (evaluateCapacity e s project task p obs phase r role) n = Ok (r', k) ->
  grows r r' /\ (clean m r' -> capacity_admitted obs role (PR_ExpiresAt r')).
Proof.
  unfold evaluateCapacity, capacity_admitted. set (c := TaskCapacity role (PO_Required obs) (PO_Sized obs)).
  destruct (capacity_input_ok obs role) eqn:Hi; [| ]; simpl negb; cbv iota.
  2: { intros [-> _]%mret_ok. split; [etrans; [| apply add_capacity_grows]; auto with preflight |].
       by intros ?%add_capacity_clean%fail_phase_clean. }
  destruct (TCV_Fits c) eqn:Hf.
  { intros [-> _]%mret_ok. split; [auto with preflight | auto]. }
  intros H. repeat inv_prog_step. 
  destruct (find_override _ _ _ _) as [[id o] |] eqn:Ho in H0; apply mret_ok in H0 as [-> _].
  - apply find_override_spec in Ho as [Hin Hm]. unfold override_order in Hin.
    rewrite merge_sort_Permutation, elem_of_mentries in Hin. split.
    + etrans; [apply (bind_expiry_grows (CO_ExpiresAt o)) |]. etrans; [| apply add_capacity_grows]. auto with preflight.
    + intros Hid%add_capacity_clean%fail_when_clean.
      split; [done |]. right. exists id, o. split_and!; [done | by apply String.eqb_neq | done |].
      rewrite Hid. simpl. etrans; [| apply (bind_expiry_le (CO_ExpiresAt o) r)]. apply add_capacity_grows.
  - split; [etrans; [| apply add_capacity_grows]; auto with preflight |].
    by intros ?%add_capacity_clean%fail_phase_clean.
Qed.

Definition needed_roles (obs : PreflightObservation) : list Role :=
  PO_Implementation obs :: PO_Recovery obs :: (if PT_RequireReview spec then [PO_Review obs] else []) ++ PO_Fallback obs.

Lemma capacity_phases_spec m obs r r' n k :
  exec (capacity_phases e s project task p spec obs r) n = Ok (r', k) ->
  grows r r' /\ (clean m r' -> Forall (fun role => capacity_admitted obs role (PR_ExpiresAt r')) (needed_roles obs)).
Proof.
  unfold capacity_phases, needed_roles. intros H. repeat inv_prog_step.
  apply (evaluateCapacity_spec m) in H as [G1 C1]. apply (evaluateCapacity_spec m) in H1 as [G3 C3].
  apply (each_grows id m (capacity_admitted obs)) in H2 as [G4 C4];
    [| intros ????; by apply capacity_admitted_anti | intros ?????; apply evaluateCapacity_spec].
  unfold id in *. rename x into r1, x1 into r2, x3 into r3.
  assert (H2 : grows r1 r2 /\ (PT_RequireReview spec = true -> clean m r2 -> capacity_admitted obs (PO_Review obs) (PR_ExpiresAt r2))).
  { destruct (PT_RequireReview spec).
    - apply (evaluateCapacity_spec m) in H0 as [G C]. split; [done | auto].
    - by apply mret_ok in H0 as [-> _]. }
  destruct H2 as [G2 C2].
  assert (G24 : grows r2 r') by by etrans. assert (G14 : grows r1 r') by by etrans.
  split; [by etrans |]. intros Hc. repeat apply Forall_cons_2.
  - eapply capacity_admitted_anti; [apply G14 |]. apply C1. by eapply grows_clean.
  - eapply capacity_admitted_anti; [apply G4 |]. apply C3. by eapply grows_clean.
  - apply Forall_app. split; [| by apply C4]. destruct (PT_RequireReview spec); [| constructor].
    constructor; [| constructor]. eapply capacity_admitted_anti; [apply G24 |]. apply C2; [done |]. by eapply grows_clean.
Qed.

(** ** Credentials *)

(** A session that is current at some reading, has the credential observed, may
    act on the task and outlives [t]. *)
Record actor_current (actor : PreflightActor) (actions : list string) (r : record) (root : string) (t : time) : Prop := {
  ac_session : exists i, rootSession s (PAc_SessionID actor) (now e i) = Ok (r, root);
  ac_credential : record_Hash r = PAc_CredentialHash actor;
  ac_actions : subset actions (r_Actions r) = true;
  ac_task : subset [task_resource task] (r_Resources r) = true;
  ac_open : workerTaskWithdrawn s (r_ID r) task = false;
  ac_expiry : t <= r_ExpiresAt r
}.

Lemma actor_current_anti actor actions r root t t' :
  t' <= t -> actor_current actor actions r root t -> actor_current actor actions r root t'.
Proof. intros ? []. by split; [.. | lia]. Qed.

Lemma currentActor_spec actor actions d r root valid d' n k :
  exec (currentActor e s task actor actions d) n = Ok (r, root, valid, d', k) ->
  grows d.1 d'.1 /\ (valid = true -> actor_current actor actions r root (PR_ExpiresAt d'.1)).
Proof.
  unfold currentActor. intros H. repeat inv_prog_step.
  destruct (rootSession s (PAc_SessionID actor) (now e n)) as [[r0 root0] | err] eqn:Hr;
    apply mret_ok in H0 as [E _]; simplify_eq; (split; [apply bind_expiry_grows |]).
  - intros H. bool_facts. split; [by exists n | done.. |]. apply bind_expiry_le.
  - done.
Qed.

Lemma draft_fail_grows c phase remedy d : grows d.1 (draft_fail c phase remedy d).1.
Proof. apply fail_when_grows. Qed.

(** The worker's credential is of an independent root whose scope holds the
    claimed resources and the checkout of the placement. *)
Definition worker_cleared (worker : string) (obs : PreflightObservation) (wr : record) (root : string) (t : time) : Prop :=
  actor_current (PO_Worker obs) (worker_actions spec) wr root t
  /\ subset (PO_ClaimResources obs ++ [("checkout:" ++ SPl_Checkout (placement_of s project task))%string]) (r_Resources wr) = true
  /\ r_Parent wr = ""%string /\ (worker = ""%string \/ worker = r_ID wr).

Lemma worker_phase_spec m worker obs d wr root d' n k :
  exec (worker_phase e s project task worker spec obs d) n = Ok (wr, root, d', k) ->
  grows d.1 d'.1 /\ (clean m d'.1 -> worker_cleared worker obs wr root (PR_ExpiresAt d'.1)).
Proof.
  unfold worker_phase. intros H. apply prog_bind_ok in H as ([[[r root'] valid] d1] & k1 & H1 & H2).
  apply mret_ok in H2 as [E _]. simplify_eq. apply currentActor_spec in H1 as [G1 C1].
  split; [etrans; [done | apply draft_fail_grows] |]. intros Hc. apply fail_when_clean in Hc as Hb.
  unfold draft_fail. rewrite Hb. simpl. apply orb_false_iff in Hb as [Hb Hw]. bool_facts.
  split_and!; [by apply C1 | done | done |].
  apply andb_false_iff in Hw as [Hw | Hw]; bool_facts; auto.
Qed.

(** The reviewer is independent of the worker and holds a current grant for this
    task, repository and review policy. *)
Record review_cleared (obs : PreflightObservation) (wr : record) (root : string) (t : time) (rr : record)
    (reviewRoot : string) (g : ReviewGrant) : Prop := {
  rc_actor : actor_current (PO_Reviewer obs) ["review.propose"; "review.evaluate"]%string rr reviewRoot t;
  rc_independent : exists i, is_ok (reviewIndependence s (r_ID rr) (r_ID wr) task (now e i)) = true;
  rc_root : r_Parent rr = ""%string /\ reviewRoot <> root /\ reviewOnly rr task = true;
  rc_grant : review_grant_of s (PAc_GrantID (PO_Reviewer obs)) = Some g;
  rc_live : RG_Revoked g = false /\ t <= RG_ExpiresAt g;
  rc_bound : RG_ReviewerSession g = r_ID rr /\ RG_WorkerRoot g = root /\ RG_TaskID g = task
             /\ RG_Repository g = task_repository s task /\ PO_ReviewerRepository obs = task_repository s task;
  rc_policy : RG_Observation g = (PO_ReviewObservation obs) <| RO_RequiredSet := None |>
}.

Lemma review_phase_spec m obs wr root d d' n k :
  exec (review_phase e s task obs wr root d) n = Ok (d', k) ->
  grows d.1 d'.1
  /\ (clean m d'.1 -> exists rr reviewRoot g, review_cleared obs wr root (PR_ExpiresAt d'.1) rr reviewRoot g).
Proof.
  unfold review_phase. intros H. apply prog_bind_ok in H as ([[[rr reviewRoot] valid] d1] & k1 & H1 & H2).
  repeat inv_prog_step. apply currentActor_spec in H1 as [G1 C1]. simplify_eq.
  set (g := default zero_review_grant (review_grant_of s (PAc_GrantID (PO_Reviewer obs)))) in *.
  assert (G2 : grows d1.1 (fact g (RG_ExpiresAt g) d1).1) by apply bind_expiry_grows.
  split; [etrans; [exact G1 |]; etrans; [exact G2 | apply draft_fail_grows] |].
  intros Hc. apply fail_when_clean in Hc as Hb. unfold draft_fail. rewrite Hb. cbn [fail_when fst].
  destruct (review_grant_of s (PAc_GrantID (PO_Reviewer obs))) as [g' |] eqn:Hg;
    [| exfalso; simpl in Hb; rewrite !orb_true_r in Hb; done].
  simpl in g. subst g. bool_facts. exists rr, reviewRoot, g'. split.
  - eapply actor_current_anti; [| by apply C1]. apply G2.
  - eexists. done.
  - done.
  - done.
  - split; [done |]. apply bind_expiry_le.
  - done.
  - unfold samePreflightReviewPolicy in *. by case_bool_decide.
Qed.

(** ** Verification *)

Lemma require_checks_spec m remedy required allowed r :
  grows r (require_checks remedy required allowed r)
  /\ (clean m (require_checks remedy required allowed r) -> Forall (fun c => c ∈ allowed) required).
Proof.
  unfold require_checks. apply (fold_grows m (fun c _ => c ∈ allowed)); [done |].
  intros r0 c. split; [auto with preflight |]. intros Hc%fail_when_clean. by case_bool_decide.
Qed.

(** Every check the reviewer will ask for is in the runner's profile, and the ones
    selected for the task are in the reviewer's policy. *)
Definition reviewer_checks_cleared (obs : PreflightObservation) : Prop :=
  match PO_RequiredSet obs with
  | Some set => Forall (fun c => c ∈ RO_Checks (PO_ReviewObservation obs)) (RVS_Checks set)
                /\ Forall (fun c => c ∈ PO_Checks obs) (RVS_Checks set)
  | None => Forall (fun c => c ∈ PO_Checks obs) (RO_Checks (PO_ReviewObservation obs))
  end.

Lemma review_checks_spec m obs r :
  grows r (review_checks obs r) /\ (clean m (review_checks obs r) -> reviewer_checks_cleared obs).
Proof.
  unfold review_checks, reviewer_checks_cleared. destruct (PO_RequiredSet obs) as [set |].
  - match goal with |- grows _ (require_checks ?x ?y ?z ?w) /\ _ =>
      destruct (require_checks_spec m x y z w) as [G2 C2] end.
    match type of G2 with grows (require_checks ?x ?y ?z ?w) _ =>
      destruct (require_checks_spec m x y z w) as [G1 C1] end.
    split; [by etrans |]. intros Hc. split; [| by apply C2]. apply C1. by eapply grows_clean.
  - apply require_checks_spec.
Qed.

(** The check of the runner's profile has a grant of its own that was current. *)
Definition check_granted (runner : string) (c : RequiredCheck * option string) (t : time) : Prop :=
  exists id g i, c.2 = Some id /\ g ∈ mvals (Grants s) /\ grant_serves s task id runner c.1 g = true
    /\ now e i < VG_ExpiresAt g.

Lemma find_grant_spec i serves l :
  find_grant e i serves l = true -> exists g j, g ∈ l /\ serves g = true /\ now e j < VG_ExpiresAt g.
Proof.
  revert i. induction l as [| g l IH]; intros i H; simpl in H; [done |].
  apply orb_true_iff in H as [H | H]; bool_facts.
  - exists g, i. split_and!; [by left | done | done].
  - apply IH in H as (g' & j & ? & ? & ?). exists g', j. split_and!; [by right | done | done].
Qed.

Lemma check_phase_spec m runner c d d' n k :
  exec (check_phase e s task runner d c) n = Ok (d', k) ->
  grows d.1 d'.1 /\ (clean m d'.1 -> check_granted runner c (PR_ExpiresAt d'.1)).
Proof.
  unfold check_phase, check_granted. destruct c as [c [id |]]; simpl fst; simpl snd; cbv iota beta; intros H.
  - repeat inv_prog_step. simplify_eq. split; [etrans; [| apply draft_fail_grows]; apply bind_expiry_grows |].
    intros Hb%fail_when_clean%negb_false_iff%find_grant_spec. destruct Hb as (g & j & ? & ? & ?). by exists id, g, j.
  - apply mret_ok in H as [-> _]. split; [apply draft_fail_grows |]. by intros ?%fail_phase_clean.
Qed.

Record verification_cleared (obs : PreflightObservation) (root : string) (t : time) (rr : record)
    (runnerRoot : string) : Prop := {
  vc_checks : PT_RequireReview spec = true -> reviewer_checks_cleared obs;
  vc_runner : actor_current (PO_Runner obs) ["verification.run"]%string rr runnerRoot t;
  vc_root : r_Parent rr = ""%string /\ runnerRoot <> root /\ PO_RunnerRepository obs = task_repository s task;
  vc_profile : PO_Checks obs <> [] /\ List.length (PO_Checks obs) = List.length (PO_VerificationGrantIDs obs);
  vc_grants : Forall (fun c => check_granted (r_ID rr) c t) (with_grants (PO_Checks obs) (PO_VerificationGrantIDs obs))
}.

Lemma verification_phase_spec m obs root d d' n k :
  exec (verification_phase e s task spec obs root d) n = Ok (d', k) ->
  grows d.1 d'.1
  /\ (clean m d'.1 -> exists rr runnerRoot, verification_cleared obs root (PR_ExpiresAt d'.1) rr runnerRoot).
Proof.
  unfold verification_phase. set (d0 := if PT_RequireReview spec then (review_checks obs d.1, d.2) else d). intros H.
  apply prog_bind_ok in H as ([[[rr runnerRoot] valid] d1] & k1 & H1 & H2).
  apply currentActor_spec in H1 as [G1 C1].
  assert (H0 : grows d.1 d0.1 /\ (clean m d0.1 -> PT_RequireReview spec = true -> reviewer_checks_cleared obs)).
  { unfold d0. destruct (PT_RequireReview spec); [| done].
    destruct (review_checks_spec m obs d.1) as [G C]. split; [done | auto]. }
  destruct H0 as [G0 C0].
  match type of H2 with exec (each _ ?x _) _ = _ => set (d2 := x) in * end.
  assert (G2 : grows d1.1 d2.1) by apply draft_fail_grows.
  apply (each_grows fst m (check_granted (r_ID rr))) in H2 as [G3 C3];
    [| done | intros ?????; apply check_phase_spec].
  assert (G23 : grows d2.1 d'.1) by done. assert (G13 : grows d1.1 d'.1) by by etrans.
  assert (G03 : grows d0.1 d'.1) by by etrans.
  split; [by etrans |]. intros Hc. exists rr, runnerRoot.
  assert (Hb : clean m d2.1) by by eapply grows_clean. apply fail_when_clean in Hb. bool_facts. split.
  - apply C0. by eapply grows_clean.
  - eapply actor_current_anti; [apply G13 |]. by apply C1.
  - done.
  - split; [| by apply Nat.eqb_eq]. intros Hn. by rewrite Hn in *.
  - by apply C3.
Qed.

(** ** The three parties together *)

Record authority_cleared (worker : string) (obs : PreflightObservation) (t : time) (wr : record) (root : string) : Prop := {
  au_worker : worker_cleared worker obs wr root t;
  au_review : PT_RequireReview spec = true -> exists rr reviewRoot g, review_cleared obs wr root t rr reviewRoot g;
  au_verification : PT_RequireVerification spec || PT_RequireReview spec = true ->
                    exists rr runnerRoot, verification_cleared obs root t rr runnerRoot
}.

Lemma review_cleared_anti obs wr root t t' rr reviewRoot g :
  t' <= t -> review_cleared obs wr root t rr reviewRoot g -> review_cleared obs wr root t' rr reviewRoot g.
Proof.
  intros Ht [H1 H2 H3 H4 [H5 H6] H7 H8]. split; [| done..| split; [done | lia] | done | done].
  by eapply actor_current_anti.
Qed.

Lemma authority_cleared_anti worker obs t t' wr root :
  t' <= t -> authority_cleared worker obs t wr root -> authority_cleared worker obs t' wr root.
Proof.
  intros Ht [[H1 H2] H3 H4]. split.
  - split; [by eapply actor_current_anti | done].
  - intros Hr. destruct (H3 Hr) as (rr & rroot & g & ?). exists rr, rroot, g. by eapply review_cleared_anti.
  - intros Hr. destruct (H4 Hr) as (rr & rroot & [V1 V2 V3 V4 V5]). exists rr, rroot.
    split; [done | by eapply actor_current_anti | done..].
Qed.

Lemma authority_phases_spec m worker obs r r' n k :
  exec (authority_phases e s project task worker spec obs r) n = Ok (r', k) ->
  grows r r' /\ (clean m r' -> exists wr root, authority_cleared worker obs (PR_ExpiresAt r') wr root).
Proof.
  unfold authority_phases. intros H.
  apply prog_bind_ok in H as ([[wr root] d1] & k1 & H1 & H). apply (worker_phase_spec m) in H1 as [G1 C1].
  apply prog_bind_ok in H as (d2 & k2 & H2 & H). apply prog_bind_ok in H as (d3 & k3 & H3 & H).
  apply mret_ok in H as [-> _].
  assert (S2 : grows d1.1 d2.1 /\ (clean m d2.1 -> PT_RequireReview spec = true ->
                exists rr reviewRoot g, review_cleared obs wr root (PR_ExpiresAt d2.1) rr reviewRoot g)).
  { destruct (PT_RequireReview spec); [| by apply mret_ok in H2 as [-> _]].
    apply (review_phase_spec m) in H2 as [? ?]. auto. }
  assert (S3 : grows d2.1 d3.1 /\ (clean m d3.1 -> PT_RequireVerification spec || PT_RequireReview spec = true ->
                exists rr runnerRoot, verification_cleared obs root (PR_ExpiresAt d3.1) rr runnerRoot)).
  { destruct (PT_RequireVerification spec || PT_RequireReview spec); [| by apply mret_ok in H3 as [-> _]].
    apply (verification_phase_spec m) in H3 as [? ?]. auto. }
  clear H2 H3. destruct S2 as [G2 C2], S3 as [G3 C3].
  assert (G13 : grows d1.1 d3.1) by by etrans.
  change (grows r d3.1 /\ (clean m d3.1 -> exists wr root, authority_cleared worker obs (PR_ExpiresAt d3.1) wr root)).
  split; [by etrans |]. intros Hc. exists wr, root. split.
  - destruct C1 as [H ?]; [by eapply grows_clean |]. split; [| done]. eapply actor_current_anti, H. apply G13.
  - intros Hr. destruct C2 as (rr & rroot & g & ?); [by eapply grows_clean | done |].
    exists rr, rroot, g. eapply review_cleared_anti; [apply G3 | done].
  - by apply C3.
Qed.

End stages.

(** ** The roles and the observation *)

Definition fallback_ok (p : PreflightPolicy) (x : Role) (name : string) : bool :=
  implementationCharter (Role_Kind x) && valid_role p x name.

Lemma fallbacks_spec m p roles names r :
  grows r (fallbacks p roles names r)
  /\ (List.length roles = List.length names -> clean m (fallbacks p roles names r) ->
      Forall2 (fun x name => fallback_ok p x name = true) roles names).
Proof.
  revert names r. induction roles as [| x roles IH]; intros names r; simpl.
  { split; [done |]. intros Hl _. destruct names; [constructor | done]. }
  set (r1 := fail_when _ _ _ r). destruct (IH (List.tl names) r1) as [G C].
  split; [etrans; [apply fail_when_grows | exact G] |].
  intros Hl Hc. destruct names as [| name names]; [done |]. simpl in *.
  eapply grows_clean in G; [| exact Hc]. apply fail_when_clean in G. unfold fallback_ok.
  constructor; [by bool_facts; apply andb_true_iff | apply C; [lia | done]].
Qed.

Lemma role_phases_spec m impl review p spec obs r :
  grows r (role_phases impl review p spec obs r)
  /\ (clean m (role_phases impl review p spec obs r) ->
      charters_ok spec obs = true /\ roles_ok impl review p spec obs = true
      /\ Forall2 (fun x name => fallback_ok p x name = true) (PO_Fallback obs) (PT_FallbackRoles spec)).
Proof.
  unfold role_phases. set (r1 := fail_when (negb (charters_ok spec obs)) _ _ r).
  set (r2 := fail_when (negb (roles_ok impl review p spec obs)) _ _ r1).
  destruct (fallbacks_spec m p (PO_Fallback obs) (PT_FallbackRoles spec) r2) as [G3 C3].
  set (r3 := fallbacks _ _ _ r2) in *. set (r4 := fail_when _ _ _ r3).
  assert (G1 : grows r r1) by apply fail_when_grows. assert (G2 : grows r1 r2) by apply fail_when_grows.
  assert (G4 : grows r3 r4) by apply fail_when_grows.
  split; [do 3 (etrans; [eassumption |]); exact G4 |]. intros Hc.
  assert (Hc3 : clean m r3) by by eapply grows_clean. assert (Hc2 : clean m r2) by by eapply grows_clean.
  assert (Hc1 : clean m r1) by by eapply grows_clean.
  apply fail_when_clean, negb_false_iff in Hc1, Hc2. apply fail_when_clean in Hc. bool_facts.
  split_and!; [done | done |]. apply C3; [by apply Nat.eqb_eq | done].
Qed.

Lemma take_observation_spec m obs r :
  grows r (take_observation obs r)
  /\ (clean m (take_observation obs r) ->
      Forall (fun x => RRP_LifecycleExpiresAt x <> 0 /\ PR_ExpiresAt (take_observation obs r) <= RRP_LifecycleExpiresAt x)
        (PO_RoleRegistry obs)).
Proof.
  unfold take_observation. match goal with |- grows _ (fold_left _ _ ?start) /\ _ =>
    destruct (fold_grows m (fun x t => RRP_LifecycleExpiresAt x <> 0 /\ t <= RRP_LifecycleExpiresAt x)
                provenance_phase (PO_RoleRegistry obs) start) as [G C] end.
  - intros x t t' ? []. split; [done | lia].
  - intros r0 x. unfold provenance_phase. destruct (_ =? 0) eqn:E.
    + split; [apply fail_phase_grows |]. by intros ?%fail_phase_clean.
    + split; [apply bind_expiry_grows |]. intros _. bool_facts. split; [done | apply bind_expiry_le].
  - split; [| done]. etrans; [| exact G]. by apply grows_same.
Qed.

Lemma take_observation_registry obs r : PR_RoleRegistry (take_observation obs r) = PO_RoleRegistry obs.
Proof.
  assert (H : forall l r0, PR_RoleRegistry (fold_left provenance_phase l r0) = PR_RoleRegistry r0).
  { induction l as [| x l IH]; intros r0; simpl; [done |]. rewrite IH.
    unfold provenance_phase, bind_expiry. destruct (_ =? 0); [done |]. by destruct (_ <? _). }
  unfold take_observation. by rewrite H.
Qed.

Lemma routing_bounds_grows s project task impl r :
  grows r (routing_bounds s project task impl r).
Proof.
  unfold routing_bounds. destruct (mget (routing_policies s) project) as [q |]; [| done].
  etrans; [| refine (proj1 (fold_grows false (fun _ _ => True) _ _ _ _ _)); [done |]].
  - etrans; [| apply bind_expiry_grows]. by apply grows_same.
  - intros r0 c. split; [| done]. destruct (_ =? _)%string; [apply bind_expiry_grows | done].
Qed.

(** ** The report as a whole *)

Section cleared.
Context (e : Env) (ad : Adapters) (au : Authority) (s : state).
Context (project task impl review worker : string) (p : PreflightPolicy) (spec : PreflightTask).

Record observation_cleared (obs : PreflightObservation) (r : PreflightReport) : Prop := {
  cl_sized : PO_Sized obs = true;
  cl_schema : PO_RoleRegistry obs = [] \/ 20 <= Version s;
  cl_registry : Forall (fun x => RRP_LifecycleExpiresAt x <> 0 /\ PR_ExpiresAt r <= RRP_LifecycleExpiresAt x)
                  (PO_RoleRegistry obs);
  cl_references : exists i, is_ok (resolveRolePolicyReferences s project (PO_RoleRegistry obs) (now e i)) = true;
  cl_source : PO_AuthorityPath obs = a_path au /\ PO_InstallationID obs = Binding_Installation (st_Binding s)
              /\ PO_Harness obs = "codex"%string /\ PfP_Harness p = "codex"%string;
  cl_digests : len (PO_TaskDigest obs) = 64 /\ len (PO_RosterDigest obs) = 64 /\ len (PO_ClaimsDigest obs) = 64
               /\ len (PO_ProfileDigest obs) = 64;
  cl_roles : charters_ok spec obs = true /\ roles_ok impl review p spec obs = true;
  cl_fallback : Forall2 (fun x name => fallback_ok p x name = true) (PO_Fallback obs) (PT_FallbackRoles spec);
  cl_capacity : Forall (fun role => capacity_admitted s project task p obs role (PR_ExpiresAt r)) (needed_roles spec obs);
  cl_authority : exists wr root, authority_cleared e s project task spec worker obs (PR_ExpiresAt r) wr root;
  cl_retries : retries s (retry_key project p task) <= PfP_TransientRetries p;
  cl_phases : PR_Phases r = PO_Phases obs /\ clean (PfP_AcceptManualAssurance p) r
              /\ forall name, name ∈ phase_names -> has_phase r name;
  cl_expiry : PR_ExpiresAt r <= PfP_ExpiresAt p /\ PR_ExpiresAt r <= PO_ExpiresAt obs
              /\ exists i, now e i < PR_ExpiresAt r
}.
Lemma canonical_phases_spec m obs r r' n k :
  exec (canonical_phases e au s project p obs r) n = Ok (r', k) -> Forall refusal (PR_Phases r) ->
  PR_ExpiresAt r' <= PR_ExpiresAt r /\ PR_ExpiresAt r' <= PO_ExpiresAt obs
  /\ (clean m r' ->
      clean m r /\ PR_Phases r' = PO_Phases obs
      /\ Forall (fun x => RRP_LifecycleExpiresAt x <> 0 /\ PR_ExpiresAt r' <= RRP_LifecycleExpiresAt x) (PO_RoleRegistry obs)
      /\ (exists i, is_ok (resolveRolePolicyReferences s project (PO_RoleRegistry obs) (now e i)) = true)
      /\ exists i x, stale au s p obs (now e i) x = false).
Proof.
  unfold canonical_phases. pose proof (take_observation_registry obs r) as Hreg.
  destruct (take_observation_spec m obs r) as [G1 C1]. set (r1 := take_observation obs r) in *. cbv zeta. intros H.
  apply prog_bind_ok in H as (t1 & k1 & H1 & H). apply look_ok in H1 as [-> ->].
  set (r2 := fail_when _ "role-policy" _ r1) in *. assert (G2 : grows r1 r2) by apply fail_when_grows.
  set (r3 := take_phases obs r2) in *.
  apply prog_bind_ok in H as (t2 & k2 & H1 & H). apply look_ok in H1 as [-> ->]. apply mret_ok in H as [-> _].
  set (r4 := fail_when _ "freshness" _ r3) in *. assert (G4 : grows r3 r4) by apply fail_when_grows.
  assert (Hr3 : PR_Phases r3 = PR_Phases r2 ++ PO_Phases obs).
  { unfold r3, take_phases. simpl. by rewrite bind_expiry_phases. }
  assert (E23 : PR_ExpiresAt r3 <= PO_ExpiresAt obs /\ PR_ExpiresAt r3 <= PR_ExpiresAt r2).
  { unfold r3, take_phases. simpl. split; [apply bind_expiry_le |].
    match goal with |- PR_ExpiresAt (bind_expiry ?t ?x) <= _ => destruct (bind_expiry_grows t x) as [_ Hx] end. exact Hx. }
  intros Hnil. pose proof (proj2 G1). pose proof (proj2 G2). pose proof (proj2 G4). split_and!; [lia | lia |]. intros Hc.
  assert (Hc2 : clean m r2).
  { intros f Hf. apply (grows_clean m r3 r4 G4 Hc). rewrite Hr3. set_solver. }
  assert (G02 : grows r r2) by by etrans. pose proof (grows_clean m _ _ G02 Hc2) as Hc0. split_and!; [done | ..].
  - by rewrite (grows_clean_phases m r3 r4 G4 Hc), Hr3, (grows_clean_phases m r r2 G02 Hc2), (clean_refusals m r).
  - eapply Forall_impl; [| exact (C1 (grows_clean m _ _ G2 Hc2))]. intros x [? ?]. split; [done | lia].
  - apply fail_when_clean, negb_false_iff in Hc2. rewrite <- Hreg. by eexists.
  - apply fail_when_clean in Hc. by eexists _, _.
Qed.

Lemma closing_phases_spec m t r :
  PR_ExpiresAt (closing_phases s project task p t r) = PR_ExpiresAt r
  /\ grows r (closing_phases s project task p t r)
  /\ (clean m (closing_phases s project task p t r) ->
      t < PR_ExpiresAt r /\ retries s (retry_key project p task) <= PfP_TransientRetries p).
Proof.
  unfold closing_phases. set (r1 := fail_when _ "freshness" _ r). set (r2 := fail_when _ "retry" _ r1).
  assert (G1 : grows r r1) by apply fail_when_grows. assert (G2 : grows r1 r2) by apply fail_when_grows.
  split_and!; [| by etrans |].
  - unfold r2, r1. by destruct (negb _), (_ <? _).
  - intros Hc. pose proof (grows_clean m _ _ G2 Hc) as Hc1. apply fail_when_clean in Hc, Hc1. bool_facts. done.
Qed.

Lemma observed_report_spec obs r r' n k :
  Forall refusal (PR_Phases r) -> PR_ExpiresAt r <= PfP_ExpiresAt p ->
  (clean (PfP_AcceptManualAssurance p) r -> PO_Sized obs = true) ->
  PO_RoleRegistry obs = [] \/ 20 <= Version s ->
  exec (observed_report e au s project task impl review worker p spec obs r) n = Ok (r', k) ->
  PR_Allowed r' = true -> observation_cleared obs r'.
Proof.
  intros Hnil Hexp Hsized Hschema. unfold observed_report. set (m := PfP_AcceptManualAssurance p). intros H.
  apply prog_bind_ok in H as (r4 & k4 & H4 & H).
  apply (canonical_phases_spec m) in H4 as (E0 & E1 & C4); [| done].
  destruct (role_phases_spec m impl review p spec obs r4) as [G5 C5]. set (r5 := role_phases _ _ _ _ _ r4) in *.
  apply prog_bind_ok in H as (r6 & k6 & H6 & H). apply (capacity_phases_spec _ _ _ _ _ _ m) in H6 as [G6 C6].
  apply prog_bind_ok in H as (r7 & k7 & H7 & H). apply (authority_phases_spec _ _ _ _ _ m) in H7 as [G7 C7].
  apply prog_bind_ok in H as (t8 & k8 & H1 & H). apply look_ok in H1 as [-> ->]. apply mret_ok in H as [-> _].
  destruct (closing_phases_spec m (now e k7) r7) as (E9 & G9 & C9). set (r9 := closing_phases _ _ _ _ _ r7) in *.
  intros Ha. apply conclude_allowed in Ha as (Hc & Hnames & E & _). rewrite E. fold m in Hc. clear E.
  assert (G69 : grows r6 r9) by by etrans. assert (G59 : grows r5 r9) by by etrans.
  assert (G49 : grows r4 r9) by by etrans.
  specialize (C4 (grows_clean m _ _ G49 Hc)) as (P0 & P1 & P2 & P3 & i & x & P4).
  specialize (C5 (grows_clean m _ _ G59 Hc)) as (R1 & R2 & R3).
  specialize (C6 (grows_clean m _ _ G69 Hc)). specialize (C7 (grows_clean m _ _ G9 Hc)) as (wr & root & C7).
  specialize (C9 Hc) as [L1 L2]. pose proof (proj2 G49). unfold stale in P4. bool_facts.
  assert (Hphases : PR_Phases r9 = PO_Phases obs) by by rewrite (grows_clean_phases m r4 r9 G49 Hc).
  split; try done; try (by apply Hsized); cbn [sealed verdict PR_ExpiresAt set_field].
  - eapply Forall_impl; [| exact P2]. intros y [? ?]. split; [done |]. change (PR_ExpiresAt r9 <= RRP_LifecycleExpiresAt y). lia.
  - split_and!; congruence.
  - eapply Forall_impl; [| exact C6]. intros role. apply capacity_admitted_anti. apply G69.
  - exists wr, root. eapply authority_cleared_anti; [| exact C7]. apply G9.
  - change (PR_ExpiresAt r9 <= PfP_ExpiresAt p /\ PR_ExpiresAt r9 <= PO_ExpiresAt obs /\ (exists i, now e i < PR_ExpiresAt r9)).
    split_and!; [lia | lia |]. rewrite E9. by eexists.
Qed.

End cleared.

(** ** From the start of the report *)

Lemma fold_left_keeps {A B} (I : A -> Prop) (f : A -> B -> A) l a :
  I a -> (forall a x, I a -> I (f a x)) -> I (fold_left f l a).
Proof. intros Ha Hf. revert a Ha. induction l as [| x l IH]; intros a Ha; simpl; [done |]. auto. Qed.

Lemma bind_expiry_keeps t r :
  PR_Allowed (bind_expiry t r) = PR_Allowed r /\ PR_Phases (bind_expiry t r) = PR_Phases r
  /\ PR_ExpiresAt (bind_expiry t r) <= PR_ExpiresAt r.
Proof. unfold bind_expiry. destruct (t <? PR_ExpiresAt r) eqn:E; simpl; bool_facts; split_and!; try done; lia. Qed.

(** The report before the first phase. *)
Definition fresh (p : PreflightPolicy) (r : PreflightReport) : Prop :=
  PR_Allowed r = false /\ PR_Phases r = [] /\ PR_ExpiresAt r <= PfP_ExpiresAt p.

Lemma fresh_bind p t r : fresh p r -> fresh p (bind_expiry t r).
Proof. intros (H1 & H2 & H3). unfold fresh. destruct (bind_expiry_keeps t r) as (-> & -> & ?). split_and!; [done | done | lia]. Qed.

Lemma routing_bounds_fresh s project task impl p r : fresh p r -> fresh p (routing_bounds s project task impl r).
Proof.
  intros H. unfold routing_bounds. destruct (mget _ _) as [q |]; [| done].
  apply fold_left_keeps; [by apply fresh_bind |].
  intros r0 c H0. destruct (_ =? _)%string; [by apply fresh_bind | done].
Qed.

Lemma refused_denied phase remedy r : PR_Allowed r = false -> PR_Allowed (refused phase remedy r) = false.
Proof. intros H. unfold refused, sealed. rewrite complete_shape. done. Qed.

Lemma preflightSpec_allowed e ad au s project task impl review worker p spec present n r k :
  exec (preflightSpec e ad au s project task impl review worker p spec present) n = Ok (r, k) ->
  PR_Allowed r = true ->
  present = true /\ mhas (terminals s) task = false /\ 11 <= Version s /\ mhas (preflight_policies s) project = true
  /\ exists observer i obs, observe_preflight ad = Some observer
     /\ observer i (Binding_Workspace (st_Binding s)) project task spec (placement_of s project task) = Ok obs
     /\ observation_cleared e au s project task impl review worker p spec obs r.
Proof.
  unfold preflightSpec. intros H Ha. apply prog_bind_ok in H as (t & k1 & H1 & H). apply look_ok in H1 as [-> ->].
  set (r0 := routing_bounds s project task impl _) in *.
  assert (F : fresh p r0) by (apply routing_bounds_fresh; split_and!; [done | done | simpl; lia]).
  destruct F as (F1 & F2 & F3).
  assert (Hno : forall phase remedy, r = refused phase remedy r0 -> False).
  { intros phase remedy ->. by rewrite refused_denied in Ha. }
  destruct (mhas (terminals s) task) eqn:Ht; [apply mret_ok in H as [? _]; by exfalso; eapply Hno |].
  apply prog_bind_ok in H as (t & k1 & H1 & H). apply look_ok in H1 as [-> ->].
  destruct (observe_preflight ad) as [observer |] eqn:Ho; [| apply mret_ok in H as [? _]; by exfalso; eapply Hno].
  destruct (_ || _) eqn:Hg in H; [apply mret_ok in H as [? _]; by exfalso; eapply Hno |]. bool_facts.
  apply prog_bind_ok in H as (o & k1 & Ho1 & H). apply look_ok in Ho1 as [-> ->].
  destruct (observer _ _ _ _ _ _) as [obs | err] eqn:Hobs in H; [| apply mret_ok in H as [? _]; by exfalso; eapply Hno].
  cbv zeta in H. set (r1 := fail_when (negb (PO_Sized obs)) _ _ r0) in H.
  assert (F1' : PR_Allowed r1 = false) by (unfold r1; by destruct (PO_Sized obs)).
  assert (G : grows r0 r1) by apply fail_when_grows.
  assert (H' : (exists j, exec (observed_report e au s project task impl review worker p spec obs r1) j = Ok (r, k))
               /\ (PO_RoleRegistry obs = [] \/ 20 <= Version s)).
  { destruct (PO_RoleRegistry obs); [by split; [eexists | left] |].
    destruct (Version s <? 20) eqn:Hv; [| apply Z.ltb_ge in Hv; by split; [eexists | right]].
    apply mret_ok in H as [-> _]. by rewrite refused_denied in Ha. }
  destruct H' as [[j H'] E]. split_and!; try done. eexists observer, _, obs. split_and!; [done | done |].
  apply (observed_report_spec e au s project task impl review worker p spec obs r1 r j k); try done.
  - destruct G as [(fs & -> & Hfs) _]. by rewrite F2.
  - pose proof (proj2 G). lia.
  - intros Hc%fail_when_clean. by bool_facts.
Qed.

(** C21: when the complete-loop preflight allows a task, everything it stands for
    holds: the task is not retired; the project has a preflight policy and the
    task an entry; the observer answered, from this authority, with canonical
    digests and a sized estimate; each role is the named Codex role with the
    right charter, and fits the estimate or has a stored override for exactly
    this role, observation and difference; worker, reviewer and runner hold
    current credentials of distinct roots with the scope and the unrevoked grants
    they need; every phase is the observer's and ready; the retry budget is not
    exhausted; and the report expires no later than any of these. *)
Theorem preflight_allowed e ad au s project task impl review worker n r k :
  exec (preflight e ad au s project task impl review worker) n = Ok (r, k) ->
  PR_Allowed r = true ->
  mhas (terminals s) task = false /\ 11 <= Version s /\ mhas (preflight_policies s) project = true
  /\ exists spec observer i obs k',
       exec (routingPreflightSpec e s project task impl) n = Ok (Some spec, k')
       /\ observe_preflight ad = Some observer
       /\ observer i (Binding_Workspace (st_Binding s)) project task spec (placement_of s project task) = Ok obs
       /\ observation_cleared e au s project task impl review worker (preflight_policy s project) spec obs r.
Proof.
  intros H Ha. apply prog_bind_ok in H as (spec & k1 & H1 & H).
  apply preflightSpec_allowed in H as (Hs & ? & ? & ? & observer & i & obs & ? & ? & ?); [| done].
  apply bool_decide_eq_true in Hs as [spec' ->].
  split_and!; try done. by exists spec', observer, i, obs, k1.
Qed.

(** ** Every preflight ends in a sealed report *)

Section total.
Context (e : Env) (ad : Adapters) (au : Authority) (s : state).
Context (project task : string) (p : PreflightPolicy) (spec : PreflightTask).

Lemma routingPreflightSpec_total impl : returns (routingPreflightSpec e s project task impl).
Proof. unfold routingPreflightSpec. totality. Qed.

Lemma evaluateCapacity_total obs phase r role : returns (evaluateCapacity e s project task p obs phase r role).
Proof. unfold evaluateCapacity. totality. Qed.

Lemma capacity_phases_total obs r : returns (capacity_phases e s project task p spec obs r).
Proof. unfold capacity_phases. totality; apply evaluateCapacity_total. Qed.

Lemma authority_phases_total worker obs r : returns (authority_phases e s project task worker spec obs r).
Proof.
  unfold authority_phases, worker_phase, review_phase, verification_phase, currentActor, check_phase. totality.
Qed.

(** The report has been sealed by a refusal, or by [conclude]. *)
Inductive ended : PreflightReport -> Prop :=
  | Ended_refused phase remedy r : PR_Allowed r = false -> ended (refused phase remedy r)
  | Ended_concluded t r : ended (conclude p (closing_phases s project task p t r)).

Lemma observed_report_ends impl review worker obs r :
  ensures (observed_report e au s project task impl review worker p spec obs r) ended.
Proof.
  unfold observed_report. eapply ensures_bind; [apply ensures_returns; unfold canonical_phases; totality | intros r1 _].
  eapply ensures_bind; [apply ensures_returns, capacity_phases_total | intros r2 _].
  eapply ensures_bind; [apply ensures_returns, authority_phases_total | intros r3 _].
  eapply ensures_bind; [apply ensures_returns, returns_look | intros t _]. apply ensures_ret, Ended_concluded.
Qed.

Lemma preflightSpec_ends impl review worker present :
  ensures (preflightSpec e ad au s project task impl review worker p spec present) ended.
Proof.
  unfold preflightSpec. eapply ensures_bind; [apply ensures_returns, returns_look | intros t _].
  assert (F : forall t, PR_Allowed (routing_bounds s project task impl (start_report s project task p t)) = false).
  { intros t0. apply (routing_bounds_fresh s project task impl p). split_and!; [done | done | simpl; lia]. }
  destruct (mhas _ _); [apply ensures_ret, Ended_refused, F |].
  eapply ensures_bind; [apply ensures_returns, returns_look | intros t1 _].
  destruct (observe_preflight ad) as [observer |]; [| apply ensures_ret, Ended_refused, F].
  destruct (_ || _); [apply ensures_ret, Ended_refused, F |].
  eapply ensures_bind; [apply ensures_returns, returns_look | intros [obs | err] _]; [| apply ensures_ret, Ended_refused, F].
  destruct (PO_RoleRegistry obs); [apply observed_report_ends |].
  destruct (_ <? _); [| apply observed_report_ends]. apply ensures_ret, Ended_refused. destruct (PO_Sized obs); apply F.
Qed.
End total.

Lemma preflight_ends e ad au s project task impl review worker :
  ensures (preflight e ad au s project task impl review worker) (ended s project task (preflight_policy s project)).
Proof.
  unfold preflight. eapply ensures_bind; [apply ensures_returns, routingPreflightSpec_total |].
  intros spec _. apply preflightSpec_ends.
Qed.

(** ** Sealed reports *)

#[global] Opaque preflightDigest.

Lemma preflightDigest_blind r r' :
  r' <| PR_ObservedAt := 0 |> <| PR_ProofDigest := ""%string |> = r <| PR_ObservedAt := 0 |> <| PR_ProofDigest := ""%string |> ->
  preflightDigest r' = preflightDigest r.
Proof. Transparent preflightDigest. unfold preflightDigest. by intros ->. Qed.
#[global] Opaque preflightDigest.

Lemma sealed_digest r : PR_ProofDigest (sealed r) = preflightDigest (sealed r).
Proof. symmetry. by apply preflightDigest_blind. Qed.

Lemma sealed_has_phase r name : has_phase r name -> has_phase (sealed r) name.
Proof. done. Qed.

Section ended.
Context (s : state) (project task : string) (p : PreflightPolicy).
Implicit Types (r : PreflightReport).

Lemma ended_sealed r : ended s project task p r -> PR_ProofDigest r = preflightDigest r.
Proof. intros []; apply sealed_digest. Qed.

Lemma ended_complete r name : ended s project task p r -> name ∈ phase_names -> has_phase r name.
Proof. intros [] Hn; by apply sealed_has_phase, complete_has_all. Qed.

Lemma ended_class r :
  ended s project task p r ->
  PR_FailureClass r ∈ (if PR_Allowed r then [""] else ["permanent"; "transient"])%string.
Proof.
  intros [phase remedy r0 Ha | t r0].
  - unfold refused, sealed. rewrite complete_shape. cbn. rewrite Ha. set_solver.
  - unfold conclude, sealed. rewrite complete_shape. cbn.
    destruct (existsb (fun f => negb (is_transient f)) _), (existsb is_transient _); cbn; set_solver.
Qed.

(** Only transient phases block a transient report. *)
Lemma conclude_transient r :
  PR_FailureClass (conclude p r) = "transient"%string ->
  forall f, f ∈ PR_Phases r -> blocks (PfP_AcceptManualAssurance p) f = true -> is_transient f = true.
Proof.
  intros H f Hf Hb. unfold conclude, sealed in H. rewrite complete_shape in H. cbn in H.
  destruct (existsb (fun f => negb (is_transient f)) _) eqn:Hp in H; [done |].
  rewrite existsb_not_elem in Hp. apply negb_false_iff, Hp.
  apply list_elem_of_In, filter_In. rewrite <- list_elem_of_In. split; [| done].
  destruct (complete_grows r) as [(fs & -> & _) _]. set_solver.
Qed.

Lemma ended_transient r :
  ended s project task p r -> PR_FailureClass r = "transient"%string ->
  retries s (retry_key project p task) <= PfP_TransientRetries p.
Proof.
  intros [phase remedy r0 _ | t r0] H.
  - unfold refused, sealed in H. rewrite complete_shape in H. done.
  - destruct (PfP_TransientRetries p <? retries s (retry_key project p task)) eqn:E; [| by bool_facts].
    exfalso. enough (true = false) by done. symmetry.
    pose proof (conclude_transient _ H) as Hf. unfold closing_phases in Hf. rewrite E in Hf. cbn [fail_when] in Hf.
    eapply (Hf (mkPreflightPhase "retry" "policy_refused" "cooperative-current-authority" ""
               "owner must reconcile the exhausted durable transient retry budget" true)); [| done].
    apply elem_of_app. right. by apply list_elem_of_singleton.
Qed.
End ended.

(** C22: the preflight of any task, in any state and against any adapter, ends with
    a report: it names every phase, its proof digest covers all of it but the
    time of the observation, and a report that does not allow the task is
    classified as permanent or transient. *)
Theorem preflight_total e ad au s project task impl review worker n :
  exists r k, exec (preflight e ad au s project task impl review worker) n = Ok (r, k)
    /\ PR_ProofDigest r = preflightDigest r
    /\ (forall name, name ∈ phase_names -> has_phase r name)
    /\ PR_FailureClass r ∈ (if PR_Allowed r then [""] else ["permanent"; "transient"])%string.
Proof.
  destruct (preflight_ends e ad au s project task impl review worker n) as (r & k & E & Hr).
  exists r, k. split_and!; [done | by eapply ended_sealed | intros name; by eapply ended_complete |].
  by eapply ended_class.
Qed.

(** ** The operations *)

Lemma mget2_mset2 {V} (m m' : gomap (gmap string V)) a b v a' b' :
  mset2 m a b v = Ok m' ->
  mget2 m' a' b' = if decide (a = a' /\ b = b') then Some v else mget2 m a' b'.
Proof.
  unfold mset2, mget2. intros H. rewrite (mget_mset _ _ _ _ _ H).
  destruct (decide (a = a')) as [<- | Hn]; [| rewrite decide_False by naive_solver; done].
  destruct (decide (b = b')) as [<- | Hb].
  - rewrite decide_True by done. apply lookup_insert_eq.
  - rewrite decide_False by naive_solver. rewrite lookup_insert_ne by done.
    destruct (mget m a); [done | apply lookup_empty].
Qed.

(** a preflight policy takes effect only for its owner and only under a revision
    that is new: the revision recorded is exactly the policy, no revision recorded
    before changes, and configuring a revision again changes nothing at all, so a
    superseded policy never comes back. *)
Theorem ConfigurePreflight_history e owner p s s' :
  ConfigurePreflight e owner p s = Ok (tt, s') ->
  let h := PreflightPolicyHistory (st_Preflight s) in
  let h' := PreflightPolicyHistory (st_Preflight s') in
  not_owner s owner = false /\ 11 <= Version s /\ validPreflightPolicy e 0 p = true
  /\ (forall task, is_Some (mget (PfP_Tasks p) task) -> is_Some (mget (SP_Placements (swarm_policy s (PfP_ProjectID p))) task))
  /\ mget2 h' (PfP_ProjectID p) (PfP_Revision p) = Some p
  /\ (forall project revision q, mget2 h project revision = Some q -> mget2 h' project revision = Some q)
  /\ (mget2 h (PfP_ProjectID p) (PfP_Revision p) <> None -> s' = s)
  /\ (mget2 h (PfP_ProjectID p) (PfP_Revision p) = None ->
      mget (preflight_policies s') (PfP_ProjectID p) = Some p
      /\ forall project, project <> PfP_ProjectID p -> mget (preflight_policies s') project = mget (preflight_policies s) project).
Proof.
  cbv zeta. unfold ConfigurePreflight. intros H.
  apply bind_ok in H as ([] & Hg & H). apply deny_if_ok in Hg.
  apply bind_ok in H as (swarm & Hsw & H). apply must_ok in Hsw.
  apply bind_ok in H as ([] & Hh & H). apply deny_if_ok in Hh.
  apply bind_ok in H as ([] & Hp & H). apply deny_if_ok, negb_false_iff in Hp. bool_facts.
  assert (Hplaced : forall task, is_Some (mget (PfP_Tasks p) task) ->
                    is_Some (mget (SP_Placements (swarm_policy s (PfP_ProjectID p))) task)).
  { intros task [t Ht]. unfold swarm_policy. rewrite Hsw. simpl. apply mhas_true.
    rewrite forallb_elem in Hp. apply (Hp (task, t)). by apply elem_of_mentries. }
  destruct (mget2 _ (PfP_ProjectID p) (PfP_Revision p)) as [old |] eqn:Ho in H.
  - apply bind_ok in H as ([] & Hd & H). apply deny_if_ok, negb_false_iff in Hd. simplify_eq. bool_facts. subst old.
    rewrite Ho. split_and!; done.
  - apply bind_ok in H as (s1 & Hput & H). simplify_eq. unfold put_preflight_policy in Hput.
    apply bind_ok in Hput as (h & Hm & Hput). apply bind_ok in Hput as (m & Hm' & Hput). simplify_eq.
    cbn.
    split_and!; try done.
    + rewrite (mget2_mset2 _ _ _ _ _ _ _ Hm). by rewrite decide_True.
    + intros project revision q Hq. rewrite (mget2_mset2 _ _ _ _ _ _ _ Hm). case_decide as Hc; [| done].
      destruct Hc as [<- <-]. congruence.
    + intros _. unfold preflight_policies. cbn. split; [by eapply mget_mset_eq |].
      intros project Hne. by apply (mget_mset_ne _ _ _ _ _ Hm').
Qed.

Lemma owner_preflight_transient e ad au s project task n r k :
  exec (owner_preflight e ad au s project task) n = Ok (r, k) -> PR_FailureClass r = "transient"%string ->
  PR_Allowed r = false
  /\ retries s (retry_key project (preflight_policy s project) task) <= PfP_TransientRetries (preflight_policy s project).
Proof.
  intros H Ht. destruct (preflight_ends e ad au s project task (PT_ImplementationRole (preflight_spec s project task))
    (PT_ReviewRole (preflight_spec s project task)) "" n) as (r' & k' & E & Hr).
  unfold owner_preflight in H. rewrite H in E. simplify_eq. split; [| by eapply ended_transient].
  apply ended_class in Hr. rewrite Ht in Hr. destruct (PR_Allowed r'); set_solver.
Qed.

(** What a check leaves of the preflight state. *)
Definition checked (s s' : state) (key : string) (rec : PreflightReceipt) : Prop :=
  mget (PreflightOperations (st_Preflight s')) key = Some rec
  /\ (forall other, other <> key ->
      mget (PreflightOperations (st_Preflight s')) other = mget (PreflightOperations (st_Preflight s)) other)
  /\ preflight_policies s' = preflight_policies s
  /\ CapacityOverrides (st_Preflight s') = CapacityOverrides (st_Preflight s).

Lemma count_transient_spec s p key r r' s' :
  count_transient s p key r = Ok (r', s') ->
  PreflightOperations (st_Preflight s') = PreflightOperations (st_Preflight s)
  /\ preflight_policies s' = preflight_policies s /\ CapacityOverrides (st_Preflight s') = CapacityOverrides (st_Preflight s)
  /\ Version s' = Version s
  /\ (PR_FailureClass r <> "transient"%string -> r' = r /\ s' = s)
  /\ (PR_FailureClass r = "transient"%string ->
      retries s' key = incr_int (retries s key)
      /\ (forall other, other <> key -> retries s' other = retries s other)
      /\ PR_FailureClass r' = (if PfP_TransientRetries p <? incr_int (retries s key) then "permanent"%string else "transient"%string)
      /\ PR_Allowed r' = PR_Allowed r).
Proof.
  unfold count_transient. intros H. destruct (_ =? _)%string eqn:E in H; bool_facts.
  - apply bind_ok in H as (s1 & Hput & H). unfold put_retries in Hput. apply bind_ok in Hput as (m & Hm & Hput).
    simplify_eq. cbn. split_and!; try done. intros _. unfold retries. cbn. split_and!.
    + by rewrite (mget_mset_eq _ _ _ _ Hm).
    + intros other Ho. by rewrite (mget_mset_ne _ _ _ _ _ Hm).
    + by destruct (_ <? _).
    + by destruct (_ <? _).
  - simplify_eq. by split_and!.
Qed.

(** a preflight check is answered once per operation key: a repeated request
    returns the stored receipt and changes nothing, a new one stores its receipt
    and no other.  A transient refusal is counted: the receipt says how many there
    were under this policy revision and task, at most the policy's bound, and a
    check beyond the bound is permanent; the counter never passes the bound by
    more than one. *)
Theorem CheckPreflight_bounded e ad au token session project task key s rec s' :
  CheckPreflight e ad au token session project task key s = Ok (rec, s') ->
  let p := preflight_policy s project in
  let budget := retry_key project p task in
  0 <= retries s budget -> PfP_TransientRetries p < max_int64 ->
  PRec_RequestDigest rec = check_digest session project task
  /\ (forall old, mget (PreflightOperations (st_Preflight s)) key = Some old -> rec = old /\ s' = s)
  /\ (mget (PreflightOperations (st_Preflight s)) key = None ->
      checked s s' key rec
      /\ (forall other, other <> budget -> retries s' other = retries s other)
      /\ PRec_TransientAttempts rec = retries s' budget
      /\ retries s budget <= retries s' budget <= Z.max (retries s budget) (PfP_TransientRetries p + 1)
      /\ (PR_FailureClass (PRec_Report rec) = "transient"%string ->
          retries s' budget = retries s budget + 1 /\ retries s' budget <= PfP_TransientRetries p
          /\ PR_Allowed (PRec_Report rec) = false)).
Proof.
  cbv zeta. intros H H0 Hmax. unfold CheckPreflight in H. apply run_ok in H as [k H].
  apply prog_bind_ok in H as (t & k1 & H1 & H). apply look_ok in H1 as [-> ->].
  apply prog_bind_ok in H as ([] & k1 & Hg & H). apply forbid_if_ok in Hg as [Hg ->].
  apply prog_bind_ok in H as ([] & k1 & Hc & H). apply lift_ok in Hc as [Hc ->]. cbv zeta in H.
  destruct (mget (PreflightOperations (st_Preflight s)) key) as [old |] eqn:Ho.
  { apply prog_bind_ok in H as ([] & k1 & Hd & H). apply forbid_if_ok in Hd as [Hd ->].
    apply mret_ok in H as [E _]. simplify_eq. bool_facts. split_and!; [done | | done]. intros ? [= <-]. done. }
  apply prog_bind_ok in H as (r & k1 & Hr & H).
  apply prog_bind_ok in H as ([r1 s1] & k2 & Hn & H). apply lift_ok in Hn as [Hn ->].
  apply prog_bind_ok in H as (t & k3 & H1 & H). apply look_ok in H1 as [-> ->].
  apply prog_bind_ok in H as ([] & k4 & Hc' & H). apply lift_ok in Hc' as [_ ->].
  apply prog_bind_ok in H as (s2 & k5 & Hp & H). apply lift_ok in Hp as [Hp ->]. apply mret_ok in H as [E _]. simplify_eq.
  unfold put_preflight_receipt in Hp. apply bind_ok in Hp as (m & Hm & Hp). simplify_eq.
  apply count_transient_spec in Hn as (N1 & N2 & N3 & N4 & N5 & N6).
  set (p := preflight_policy s project) in *. set (budget := retry_key project p task) in *.
  split_and!; [done | by intros ? [=] |]. intros _.
  assert (Hret : forall b, retries (s1 <| st_Preflight := (st_Preflight s1) <| PreflightOperations := m |> |>) b = retries s1 b) by done.
  assert (Hb : retries s budget <= retries s1 budget <= Z.max (retries s budget) (PfP_TransientRetries p + 1)).
  { destruct (decide (PR_FailureClass r = "transient"%string)) as [Ht | Ht].
    + destruct (N6 Ht) as (-> & _). apply owner_preflight_transient in Hr as [_ Hr]; [| done].
      fold p budget in Hr. unfold incr_int. destruct (_ =? max_int64) eqn:E; bool_facts; lia.
    + destruct (N5 Ht) as [_ ->]. lia. }
  rewrite N1 in Hm. split_and!.
  - unfold checked. cbn. split_and!; [by eapply mget_mset_eq | | done | done].
    intros other Hne. by rewrite (mget_mset_ne _ _ _ _ _ Hm).
  - intros other Hne. rewrite Hret. destruct (decide (PR_FailureClass r = "transient"%string)) as [Ht | Ht].
    + by apply N6. + by destruct (N5 Ht) as [_ ->].
  - done.
  - rewrite Hret. apply Hb.
  - rewrite Hret. apply Hb.
  - cbn [PRec_Report]. intros Hs. change (PR_FailureClass r1 = "transient"%string) in Hs.
    destruct (decide (PR_FailureClass r = "transient"%string)) as [Ht | Ht]; [| by destruct (N5 Ht) as [-> _]].
    destruct (N6 Ht) as (E1 & _ & E2 & E3). apply owner_preflight_transient in Hr as [Ha Hr]; [| done]. fold p budget in Hr.
    rewrite Hret, E1. rewrite Hs in E2. destruct (_ <? _) eqn:Hlt in E2; [done |].
    revert Hlt. unfold incr_int. destruct (_ =? max_int64) eqn:E; intros; bool_facts; [lia |].
    split_and!; [done | lia | change (PR_Allowed r1 = false); congruence].
Qed.

(** an owner's size override is for a role the current report found too small by
    a positive difference, records that role, observation and difference under the
    current policy, expires no later than the policy, and is never changed once
    recorded. *)
Theorem OverrideCapacity_exact e ad au owner req s o s' :
  OverrideCapacity e ad au owner req s = Ok (o, s') ->
  let p := preflight_policy s (COR_ProjectID req) in
  not_owner s owner = false /\ 11 <= Version s /\ COR_ExpiresAt req <= PfP_ExpiresAt p
  /\ (forall old, mget (CapacityOverrides (st_Preflight s)) (COR_ID req) = Some old -> o = old /\ s' = s)
  /\ (forall id, id <> COR_ID req ->
      mget (CapacityOverrides (st_Preflight s')) id = mget (CapacityOverrides (st_Preflight s)) id)
  /\ mget (CapacityOverrides (st_Preflight s')) (COR_ID req) = Some o
  /\ exists r c, c ∈ PR_RoleCapacities r
     /\ (COR_RoleID req <> ""%string -> PRC_RoleID c = COR_RoleID req)
     /\ (exists n k, exec (owner_preflight e ad au s (COR_ProjectID req) (COR_TaskID req)) n = Ok (r, k))
     /\ TCV_Fits (PRC_Capacity c) = false /\ fle zero (TCV_Delta (PRC_Capacity c)) = false
     /\ (o = new_override s req (PRC_RoleID c) r c \/ same_override o (new_override s req (PRC_RoleID c) r c) = true).
Proof.
  cbv zeta. intros H. unfold OverrideCapacity in H. apply run_ok in H as [k H].
  apply prog_bind_ok in H as (t & k1 & H1 & H). apply look_ok in H1 as [-> ->].
  apply prog_bind_ok in H as ([] & k1 & Hg & H). apply forbid_if_ok in Hg as [Hg ->]. cbv zeta in H.
  apply prog_bind_ok in H as (r & k1 & Hr & H).
  apply prog_bind_ok in H as (t & k2 & H1 & H). apply look_ok in H1 as [-> ->].
  remember (if (COR_RoleID req =? "")%string then PT_ImplementationRole (preflight_spec s (COR_ProjectID req) (COR_TaskID req))
            else COR_RoleID req) as roleID eqn:Hrole.
  assert (Hname : COR_RoleID req <> ""%string -> roleID = COR_RoleID req).
  { intros Hne. apply String.eqb_neq in Hne. by rewrite Hrole, Hne. }
  apply prog_bind_ok in H as ([] & k2 & Hd & H). apply forbid_if_ok in Hd as [Hd ->]. bool_facts.
  assert (Hc : capacity_of roleID r ∈ PR_RoleCapacities r /\ PRC_RoleID (capacity_of roleID r) = roleID).
  { unfold capacity_of in *. destruct (List.find _ _) as [c |] eqn:Hf; [| done].
    apply find_some in Hf as [Hin E]. bool_facts. split; [by apply list_elem_of_In | done]. }
  clear Hrole. destruct Hc as [Hin Hid]. set (c := capacity_of roleID r) in *. rewrite <- Hid in H, Hname. clearbody c.
  destruct (mget (CapacityOverrides (st_Preflight s)) (COR_ID req)) as [old |] eqn:Ho.
  - apply prog_bind_ok in H as ([] & k3 & Hs & H). apply forbid_if_ok in Hs as [Hs ->].
    apply mret_ok in H as [E _]. simplify_eq. apply negb_false_iff in Hs. split_and!; try done; [by intros ? [= <-] |].
    exists r, c. split_and!; try done; [eauto | by right].
  - apply prog_bind_ok in H as (s1 & k3 & Hp & H). apply lift_ok in Hp as [Hp ->].
    apply mret_ok in H as [E _]. simplify_eq. unfold put_override in Hp. apply bind_ok in Hp as (m & Hm & Hp). simplify_eq.
    split_and!; try done.
    + intros id Hne. cbn. by rewrite (mget_mset_ne _ _ _ _ _ Hm).
    + cbn. by eapply mget_mset_eq.
    + exists r, c. split_and!; try done; [eauto | by left].
Qed.

(** from schema 11 on a dispatch passes its preflight gate only when a report made
    at that moment allows the task for the roles of the reservation and this worker,
    has the digest the reservation was made with, which covers the whole report
    but its time, and names the role releases the reservation names. *)
Theorem dispatchPreflight_ok e ad au s d worker n k :
  exec (dispatchPreflight e ad au s d worker) n = Ok (tt, k) ->
  Version s < 11
  \/ exists r k',
       exec (preflight e ad au s (DR_ProjectID d) (Lease_TaskID (DR_Reservation d)) (DR_ImplementationRole d)
               (DR_ReviewRole d) worker) n = Ok (r, k')
       /\ PR_Allowed r = true /\ DR_PreflightDigest d = preflightDigest r /\ DR_RoleRegistry d = PR_RoleRegistry r.
Proof.
  unfold dispatchPreflight. destruct (Version s <? 11) eqn:Hv; [left; by bool_facts |]. intros H. right.
  apply prog_bind_ok in H as (r & k1 & Hr & H).
  apply prog_bind_ok in H as ([] & k2 & Ha & H). apply lift_ok in Ha as [Ha ->].
  apply prog_bind_ok in H as ([] & k3 & Hd & H). apply forbid_if_ok in Hd as [Hd ->].
  apply forbid_if_ok in H as [H ->]. exists r, k1.
  apply fail_if_ok, negb_false_iff in Ha. apply orb_false_iff in Hd as [_ Hd]. apply negb_false_iff, String.eqb_eq in Hd.
  apply negb_false_iff, bool_decide_eq_true in H. split_and!; try done. rewrite Hd. destruct (preflight_ends e ad au s (DR_ProjectID d) (Lease_TaskID (DR_Reservation d))
    (DR_ImplementationRole d) (DR_ReviewRole d) worker n) as (r' & k' & E & Hr').
  rewrite Hr in E. simplify_eq. by eapply ended_sealed.
Qed.

(** ** What the authority keeps about preflight *)

(** Policy revisions, capacity overrides and receipts are never rewritten. *)
Record preflight_le (s s' : state) : Prop := {
  pl_policies project revision q : mget2 (PreflightPolicyHistory (st_Preflight s)) project revision = Some q ->
    mget2 (PreflightPolicyHistory (st_Preflight s')) project revision = Some q;
  pl_overrides id o : mget (CapacityOverrides (st_Preflight s)) id = Some o -> mget (CapacityOverrides (st_Preflight s')) id = Some o;
  pl_receipts key r : mget (PreflightOperations (st_Preflight s)) key = Some r -> mget (PreflightOperations (st_Preflight s')) key = Some r
}.
#[export] Instance preflight_le_preorder : PreOrder preflight_le.
Proof. split; [done |]. intros s1 s2 s3 [A1 B1 C1] [A2 B2 C2]. split; auto. Qed.

Definition preflight_change (s s' : state) : Prop :=
  s' = s <| st_Preflight := st_Preflight s' |> /\ preflight_nils s' = preflight_nils s /\ preflight_le s s'.
Lemma preflight_change_refl s : preflight_change s s.
Proof. by split_and!; [destruct s | |]. Qed.

Lemma ConfigurePreflight_change e owner p s s' : ConfigurePreflight e owner p s = Ok (tt, s') -> preflight_change s s'.
Proof.
  unfold ConfigurePreflight. intros H. do 4 apply bind_ok in H as (? & _ & H).
  destruct (mget2 _ (PfP_ProjectID p) (PfP_Revision p)) as [old |] eqn:Ho in H.
  - apply bind_ok in H as ([] & _ & H). injection H as <-. apply preflight_change_refl.
  - apply bind_ok in H as (s1 & Hput & H). injection H as <-. unfold put_preflight_policy in Hput.
    apply bind_ok in Hput as (h & Hm & Hput). apply bind_ok in Hput as (m & Hm' & Hput). injection Hput as <-. split; [done |]. split.
    { unfold preflight_nils. cbn. unfold mset2 in Hm. by rewrite (is_nil_mset_eq _ _ _ _ Hm), (is_nil_mset_eq _ _ _ _ Hm'). }
    split; [| done..]. intros project revision q Hq. cbn. rewrite (mget2_mset2 _ _ _ _ _ _ _ Hm). case_decide as Hc; [| done].
    destruct Hc as [<- <-]. congruence.
Qed.

Lemma OverrideCapacity_change e ad au owner req s o s' :
  OverrideCapacity e ad au owner req s = Ok (o, s') -> preflight_change s s'.
Proof.
  unfold OverrideCapacity. intros H. apply run_ok in H as [k H]. do 5 skip_in H. cbv zeta in H.
  destruct (mget (CapacityOverrides (st_Preflight s)) (COR_ID req)) as [old |] eqn:Ho.
  - skip_in H. apply mret_ok in H as [E _]. injection E as _ ->. apply preflight_change_refl.
  - apply prog_bind_ok in H as (s1 & j & Hput & H). apply lift_ok in Hput as [Hput _]. apply mret_ok in H as [E _]. injection E as _ ->.
    unfold put_override in Hput. apply bind_ok in Hput as (m & Hm & Hput). injection Hput as <-. split; [done |]. split.
    { unfold preflight_nils. cbn. by rewrite (is_nil_mset_eq _ _ _ _ Hm). }
    split; [done | | done]. intros id y Hy. cbn. rewrite (mget_mset_ne _ _ _ _ _ Hm); [done |]. congruence.
Qed.

Lemma count_transient_frame s p key r r' s' : count_transient s p key r = Ok (r', s') -> preflight_change s s'.
Proof.
  unfold count_transient. destruct (_ =? _)%string; [| intros [= _ <-]; apply preflight_change_refl].
  intros H. apply bind_ok in H as (s1 & Hput & H). injection H as _ <-. unfold put_retries in Hput.
  apply bind_ok in Hput as (m & Hm & Hput). injection Hput as <-. split; [done |]. split; [| done].
  unfold preflight_nils. cbn. by rewrite (is_nil_mset_eq _ _ _ _ Hm).
Qed.

Lemma CheckPreflight_change e ad au token session project task key s rec s' :
  CheckPreflight e ad au token session project task key s = Ok (rec, s') -> preflight_change s s'.
Proof.
  unfold CheckPreflight. intros H. apply run_ok in H as [k H]. do 3 skip_in H. cbv zeta in H.
  destruct (mget (PreflightOperations (st_Preflight s)) key) as [old |] eqn:Ho.
  { skip_in H. apply mret_ok in H as [E _]. injection E as _ ->. apply preflight_change_refl. }
  skip_in H. apply prog_bind_ok in H as ([r1 s1] & j & Hn & H). apply lift_ok in Hn as [Hn _]. do 2 skip_in H.
  apply prog_bind_ok in H as (s2 & j1 & Hput & H). apply lift_ok in Hput as [Hput _]. apply mret_ok in H as [E _]. injection E as _ ->.
  apply count_transient_spec in Hn as Hspec. destruct Hspec as (Eops & _). apply count_transient_frame in Hn as (F & N & L).
  unfold put_preflight_receipt in Hput. apply bind_ok in Hput as (m & Hm & Hput). injection Hput as <-. split; [by rewrite F |]. split.
  - rewrite <- N. unfold preflight_nils. cbn. by rewrite (is_nil_mset_eq _ _ _ _ Hm).
  - destruct L as [L1 L2 L3]. split; [done | done |]. intros y z Hy. cbn. rewrite (mget_mset_ne _ _ _ _ _ Hm); [auto |]. congruence.
Qed.
