(* ===== verification/Budgets.v ===== *)
(** * Token budgets

    native_budgets.go and native_budget_outcomes.go: the owner's budget policy,
    the ledger of allocations with the totals of the rolling window and of the
    cycle, the quote that decides whether a task still fits, the allocation made
    when a task is reserved, and its settlement from the outcome a producer
    persisted.  Amounts are int64; [budgetAdd] is the only addition that could
    overflow. *)

From S2P Require Import Prelude Floats GoStd Team Disclosure State Session Withdrawal Resources Attempts Leases Lifecycle Evidence Reviews Encodings Scheduling Preflight.
#[local] Open Scope Z_scope.

(** ** Zero values and accessors *)

Definition zero_estimate : BudgetEstimate := mkBudgetEstimate "" "" "" 0 0 0.
Definition zero_budget_policy : BudgetPolicy := mkBudgetPolicy 0 "" "" "" "" "" 0 0 0 0 0 0 0 None.
Definition zero_budget_task : BudgetTask := mkBudgetTask None None "" "".
Definition zero_allocation : BudgetAllocation := mkBudgetAllocation [] "" "" "" "" "" "" "" "" "" 0 0 [].

Definition budget_task (p : BudgetPolicy) (task : string) : option BudgetTask := mget (BP_Tasks p) task.

(** ** The policy of the owner *)

Definition budgetPhaseName (name : string) : bool :=
  bool_decide (name ∈ ["implementation"; "review"; "correction"; "re-review"; "verification"; "integration"; "recovery"]%string).

Definition budgetAdd (x y : Z) : res Z :=
  deny_if ((x <? 0) || (y <? 0) || (max_int64 - y <? x));; Ok (x + y).

(** Sums in the order of the list, every addition checked. *)
Definition budget_sum (amounts : list Z) : res Z :=
  fold_left (fun acc v => total ← acc; budgetAdd total v) amounts (Ok 0).

Definition made {V} (m : gomap V) : gomap V := match m with None => make_map | _ => m end.
(** Instants are canonical already; the copies are never nil. *)
Definition canonicalBudgetPolicy (p : BudgetPolicy) : BudgetPolicy :=
  p <| BP_Tasks := Some (match BP_Tasks p with
                         | Some g => (fun t => t <| BT_Phases := made (BT_Phases t) |>) <$> g
                         | None => ∅ end) |>.

Definition budget_policy_ok (t : time) (p : BudgetPolicy) : bool :=
  let n := Z.of_nat (List.length (mentries (BP_Tasks p))) in
  (BP_SchemaVersion p =? 1) && validID (BP_ProjectID p) && validID (BP_Revision p) && validID (BP_CycleID p)
  && (BP_Harness p =? "codex")%string && negb (blank (BP_Rationale p)) && negb (8192 <? len (BP_Rationale p))
  && (0 <? BP_CycleLimit p) && (0 <? BP_WindowLimit p) && (0 <=? BP_RecoveryFloor p)
  && (BP_RecoveryFloor p <? BP_CycleLimit p) && (BP_RecoveryFloor p <? BP_WindowLimit p)
  && (0 <? BP_Window p) && (BP_Window p <=? 30 * 24 * hour) && negb (BP_WindowOrigin p =? 0)
  && negb (t <? BP_WindowOrigin p) && (t <? BP_ExpiresAt p) && negb (t + 24 * hour <? BP_ExpiresAt p)
  && negb (BP_ExpiresAt p <? BP_CooldownUntil p) && negb (n =? 0) && negb (256 <? n).

Definition required_phases (spec : PreflightTask) : list string :=
  ["implementation"; "correction"; "recovery"]%string
  ++ (if PT_RequireReview spec then ["review"; "re-review"] else [])%string
  ++ (if PT_RequireIntegration spec then ["integration"] else [])%string
  ++ (if PT_RequireVerification spec then ["verification"] else [])%string.

(** An owner's estimate made in the last thirty days. *)
Definition estimate_current (t : time) (v : BudgetEstimate) : bool :=
  (BE_Provenance v =? "owner-estimate")%string && negb (BE_Samples v <? 0) && negb (BE_ObservedAt v =? 0)
  && negb (t <? BE_ObservedAt v) && negb (BE_ObservedAt v <? t - 30 * 24 * hour).

Definition alternative_ok (t : time) (spec : PreflightTask) (role : string) (v : BudgetEstimate) : bool :=
  subset [role] (PT_FallbackRoles spec) && (BE_RoleID v =? role)%string && validID (BE_Model v)
  && (0 <? BE_Tokens v) && estimate_current t v.

Definition phase_role (spec : PreflightTask) (phase : string) : string :=
  if (phase =? "recovery")%string then PT_RecoveryRole spec
  else if (phase =? "review")%string || (phase =? "re-review")%string then PT_ReviewRole spec
  else PT_ImplementationRole spec.

Definition phase_estimate_ok (t : time) (spec : PreflightTask) (phase : string) (v : BudgetEstimate) : bool :=
  budgetPhaseName phase && negb (BE_Tokens v <? 0) && negb ((BE_Tokens v =? 0) && negb (phase =? "verification")%string)
  && estimate_current t v
  && ((phase =? "verification")%string || (BE_RoleID v =? phase_role spec phase)%string && validID (BE_Model v)).

Definition budget_task_ok (t : time) (spec : PreflightTask) (x : BudgetTask) : bool :=
  let n := Z.of_nat (List.length (mentries (BT_Phases x))) in
  negb (n <? 3) && negb (7 <? n) && forallb (mhas (BT_Phases x)) (required_phases spec)
  && ((BT_IntegrationOperationID x =? "")%string || validID (BT_IntegrationOperationID x))
  && ((BT_AcceptanceOperationID x =? "")%string || validID (BT_AcceptanceOperationID x))
  && negb (32 <? Z.of_nat (List.length (mentries (BT_Alternatives x))))
  && forallb (fun '(role, v) => alternative_ok t spec role v) (mentries (BT_Alternatives x))
  && forallb (fun '(phase, v) => phase_estimate_ok t spec phase v) (mentries (BT_Phases x))
  && is_ok (budget_sum (map BE_Tokens (mentries (BT_Phases x)).*2)).

Definition budget_tasks_ok (s : state) (t : time) (p : BudgetPolicy) : bool :=
  forallb (fun '(task, x) =>
      match preflight_task s (BP_ProjectID p) task with
      | Some spec => budget_task_ok t spec x
      | None => false
      end) (mentries (BP_Tasks p)).

(** Reusing the window or the cycle of the current policy with another extent. *)
Definition resets_accounting (s : state) (p : BudgetPolicy) : bool :=
  match mget (budget_policies s) (BP_ProjectID p) with
  | Some old =>
    negb (BP_WindowOrigin old =? BP_WindowOrigin p) || negb (BP_Window old =? BP_Window p)
    || (BP_CycleID old =? BP_CycleID p)%string && negb (BP_CycleLimit old =? BP_CycleLimit p)
  | None => false
  end.

Definition put_budget_policy (s : state) (p : BudgetPolicy) : res state :=
  h ← mset2 (BudgetPolicyHistory (st_Budget s)) (BP_ProjectID p) (BP_Revision p) p;
  m ← mset (budget_policies s) (BP_ProjectID p) p;
  Ok (s <| st_Budget := (st_Budget s) <| BudgetPolicyHistory := h |> <| BudgetPolicies := m |> |>).

Definition ConfigureBudget (e : Env) (owner : string) (policy : BudgetPolicy) : tx unit := fun s =>
  let p := canonicalBudgetPolicy policy in
  deny_if ((Version s <? 13) || not_owner s owner || negb (budget_policy_ok (now e 0) p));;
  swarm ← must (mget (swarm_policies s) (BP_ProjectID p));
  deny_if (negb (SP_Harness swarm =? BP_Harness p)%string);;
  deny_if (negb (budget_tasks_ok s (now e 0) p));;
  match mget2 (BudgetPolicyHistory (st_Budget s)) (BP_ProjectID p) (BP_Revision p) with
  | Some old => deny_if (negb (bool_decide (canonicalBudgetPolicy old = p)));; Ok (tt, s)
  | None => deny_if (resets_accounting s p);; s' ← put_budget_policy s p; Ok (tt, s')
  end.

(** [budgetAuth] *)
Definition budgetAuth (s : state) (token session project action : string) (t : time) : res BudgetPolicy :=
  actor ← controller s token session project action t;
  deny_if (Version s <? 13);;
  p ← must (mget (budget_policies s) project);
  deny_if (negb (forallb (fun '(task, _) => subset [task_resource task] (r_Resources actor)) (mentries (BP_Tasks p))));;
  deny_if (negb (forallb (fun a => negb (BA_ProjectID a =? project)%string || subset [task_resource (BA_TaskID a)] (r_Resources actor))
                   (mvals (allocations s))));;
  Ok p.

(** ** Outcomes of producers *)

Record BudgetSettleRequest := mkBudgetSettle {
  BSR_OperationKey : string; BSR_DispatchID : string; BSR_Phase : string; BSR_ProducerID : string; BSR_ExpectedFence : Z
}.
#[export] Instance BudgetSettleRequest_json : ToJSON BudgetSettleRequest := fun x =>
  JObject [("OperationKey", JString (BSR_OperationKey x)); ("DispatchID", JString (BSR_DispatchID x));
    ("Phase", JString (BSR_Phase x)); ("ProducerID", JString (BSR_ProducerID x));
    ("ExpectedFence", JInt (BSR_ExpectedFence x))]%string.

Definition BudgetLifecycleProducerID (o : LifecycleObservation) : string := identity "budget.lifecycle-producer" "" o.

(** The implementation phase: an acknowledged cancellation of this intent, else the
    observation whose identity is the producer. *)
Definition implementation_outcome (s : state) (alloc : BudgetAllocation) (dispatch : string) (intent : DispatchIntent)
    (producer : string) : res string :=
  let cancelled :=
    match mget (cancellations s) dispatch with
    | Some c => (LC_OperationKey c =? producer)%string && (LC_State c =? "acknowledged")%string
                && (LB_IntentID (LC_Binding c) =? DI_ID intent)%string
    | None => false
    end in
  if cancelled then Ok "acknowledged-unknown"%string
  else
    o ← must (List.find (fun o => (BudgetLifecycleProducerID o =? producer)%string)
                (default [] (mget (observations s) dispatch)));
    let b := LO_Binding o in
    deny_if (negb (LB_IntentID b =? DI_ID intent)%string || negb (LB_DispatchID b =? dispatch)%string
             || negb (LB_WorkerSessionID b =? DI_WorkerSessionID intent)%string
             || negb (LB_ReservationFence b =? BA_ReservationFence alloc));;
    Ok (if (LO_State o =? "completed")%string || (LO_State o =? "failed")%string then LO_State o else "unknown"%string).

Definition same_lease (attempt lease : string) (fence : Z) (l : Lease) : bool :=
  (attempt =? Lease_AttemptID l)%string && (lease =? Lease_ID l)%string && (fence =? Lease_Fence l).

Definition verification_of (alloc : BudgetAllocation) (l : Lease) (v : CheckpointVerificationBinding) : bool :=
  (CVB_ProjectID v =? BA_ProjectID alloc)%string && (CVB_TaskID v =? BA_TaskID alloc)%string
  && same_lease (VR_AttemptID (CVB_Request v)) (VR_LeaseID (CVB_Request v)) (VR_ExpectedFence (CVB_Request v)) l.

Definition verification_outcome (s : state) (alloc : BudgetAllocation) (intent : DispatchIntent) (producer : string) : res string :=
  op ← must (mget (Operations s) producer);
  v ← must (op_CheckpointVerification op);
  l ← must (DI_Lease intent);
  deny_if (negb (verification_of alloc l v));;
  match op_Evidence op with
  | Some ev => Ok (if op_Pending op then "unknown" else if (Ev_ExitCode ev =? 0)%Z then "completed" else "failed")%string
  | None => Ok "unknown"%string
  end.

Definition review_of (l : Lease) (r : Review) : bool :=
  same_lease (RR_AttemptID (Review_Request r)) (RR_LeaseID (Review_Request r)) (RR_ExpectedFence (Review_Request r)) l.

Definition review_outcome (s : state) (phase : string) (intent : DispatchIntent) (producer : string) : res string :=
  r ← must (mget (Reviews s) producer);
  l ← must (DI_Lease intent);
  let n := Rev_Sequence (Review_Revision r) in
  deny_if (negb (review_of l r) || (phase =? "re-review")%string && (n <? 2) || (phase =? "review")%string && negb (n =? 1));;
  Ok (if RR_Outcome (Review_Request r) =? "approve" then "completed" else "failed")%string.

Definition correction_of (l : Lease) (r : AttemptRevision) : bool :=
  (1 <? Rev_Sequence r) && (Rev_LeaseID r =? Lease_ID l)%string && (Rev_Fence r =? Lease_Fence l).
Definition revisions_of (s : state) (l : Lease) : list AttemptRevision := default [] (mget (Revisions s) (Lease_AttemptID l)).

Definition correction_outcome (s : state) (intent : DispatchIntent) (producer : string) : res string :=
  l ← must (DI_Lease intent);
  deny_if (negb (existsb (fun r => (Rev_ID r =? producer)%string && correction_of l r) (revisions_of s l)));;
  Ok "completed"%string.

Definition integration_reference (s : state) (alloc : BudgetAllocation) : string :=
  let p := default zero_budget_policy (mget2 (BudgetPolicyHistory (st_Budget s)) (BA_ProjectID alloc) (BA_PolicyRevision alloc)) in
  BT_IntegrationOperationID (default zero_budget_task (budget_task p (BA_TaskID alloc))).

Definition budgetProducerOutcome (s : state) (alloc : BudgetAllocation) (phase producer : string) : res string :=
  d ← must (mget (dispatches s) (BA_DispatchID alloc));
  deny_if (negb (Lease_Fence (DR_Reservation d) =? BA_ReservationFence alloc)
           || negb (DR_ProjectID d =? BA_ProjectID alloc)%string
           || negb (Lease_TaskID (DR_Reservation d) =? BA_TaskID alloc)%string);;
  intent ← must (mget (intents s) (DR_ID d));
  if (phase =? "implementation")%string then implementation_outcome s alloc (DR_ID d) intent producer
  else if (phase =? "verification")%string then verification_outcome s alloc intent producer
  else if (phase =? "review")%string || (phase =? "re-review")%string then review_outcome s phase intent producer
  else if (phase =? "correction")%string then correction_outcome s intent producer
  else if (phase =? "integration")%string then
    let ref := integration_reference s alloc in
    deny_if ((ref =? "")%string || negb (ref =? producer)%string);; Ok "unknown"%string
  else Err ErrDenied.

(** ** Producers a controller may settle with *)

Definition producer_le (x y : BudgetProducer) : Prop :=
  (BPr_Phase x <> BPr_Phase y /\ String.le (BPr_Phase x) (BPr_Phase y))
  \/ BPr_Phase x = BPr_Phase y /\ String.le (BPr_ID x) (BPr_ID y).
#[export] Instance producer_le_dec : RelDecision producer_le.
Proof. intros x y. unfold producer_le. apply _. Defined.

Definition lease_producers (s : state) (alloc : BudgetAllocation) (l : Lease) : list BudgetProducer :=
  omap (fun '(id, op) =>
      v ← op_CheckpointVerification op;
      if verification_of alloc l v then
        Some (mkBudgetProducer "verification" id
                (match op_Evidence op with Some _ => "known local command outcome; provider usage unknown" | None => "pending" end))
      else None) (mentries (Operations s))
  ++ omap (fun '(id, r) =>
      if review_of l r then
        Some (mkBudgetProducer (if 1 <? Rev_Sequence (Review_Revision r) then "re-review" else "review") id
                "historical proposal; current eligibility and acceptance separate")
      else None) (mentries (Reviews s))
  ++ map (fun r => mkBudgetProducer "correction" (Rev_ID r) "known published revision; model usage unknown")
       (List.filter (correction_of l) (revisions_of s l)).

Definition candidate_producers (s : state) (alloc : BudgetAllocation) (intent : DispatchIntent) : list BudgetProducer :=
  map (fun o => mkBudgetProducer "implementation" (BudgetLifecycleProducerID o)
                  "known cooperative observation; provider usage unknown")
    (default [] (mget (observations s) (BA_DispatchID alloc)))
  ++ match mget (cancellations s) (BA_DispatchID alloc) with
     | Some c => [mkBudgetProducer "implementation" (LC_OperationKey c) (LC_State c)]
     | None => []
     end
  ++ match DI_Lease intent with Some l => lease_producers s alloc l | None => [] end
  ++ (let ref := integration_reference s alloc in
      if (ref =? "")%string then []
      else [mkBudgetProducer "integration" ref "unknown contract reference; core592 authenticated outcome unavailable"]).

(** A producer of a phase of the allocation that is open, or was charged to it. *)
Definition actionable (s : state) (alloc : BudgetAllocation) (c : BudgetProducer) : bool :=
  existsb (fun f => (BPh_Phase f =? BPr_Phase c)%string
                    && (negb (BPh_State f =? "charged")%string || (BPh_ProducerID f =? BPr_ID c)%string)) (BA_Phases alloc)
  && is_ok (budgetProducerOutcome s alloc (BPr_Phase c) (BPr_ID c)).

Definition budgetProducers (s : state) (alloc : BudgetAllocation) : list BudgetProducer :=
  match mget (intents s) (BA_DispatchID alloc) with
  | Some intent => merge_sort producer_le (List.filter (actionable s alloc) (candidate_producers s alloc intent))
  | None => []
  end.

(** ** The ledger *)

(** What the loop over the allocations accumulates. *)
Record ledger := mkLedger {
  L_WindowSpent : Z; L_WindowReserved : Z; L_CycleSpent : Z; L_CycleReserved : Z;
  L_Review : Z; L_Integration : Z; L_Recovery : Z;
  L_Reset : option time; L_Charges : list string
}.
#[export] Instance ledger_settable : Settable ledger := fun l =>
  mkLedger (L_WindowSpent l) (L_WindowReserved l) (L_CycleSpent l) (L_CycleReserved l) (L_Review l) (L_Integration l)
    (L_Recovery l) (L_Reset l) (L_Charges l).
Definition empty_ledger : ledger := mkLedger 0 0 0 0 0 0 0 None [].

Definition charged (f : BudgetPhase) : bool := (BPh_State f =? "charged")%string.
Definition tokens (f : BudgetPhase) : Z := BE_Tokens (BPh_Estimate f).
Definition is_review (phase : string) : bool := (phase =? "review")%string || (phase =? "re-review")%string.

(** A liability not charged yet is reserved in the window and in the cycle. *)
Definition reserve_phase (l : ledger) (f : BudgetPhase) : res ledger :=
  w ← budgetAdd (L_WindowReserved l) (tokens f);
  c ← budgetAdd (L_CycleReserved l) (tokens f);
  let l := l <| L_WindowReserved := w |> <| L_CycleReserved := c |> in
  if is_review (BPh_Phase f) then v ← budgetAdd (L_Review l) (tokens f); Ok (l <| L_Review := v |>)
  else if (BPh_Phase f =? "integration")%string then
    v ← budgetAdd (L_Integration l) (tokens f); Ok (l <| L_Integration := v |>)
  else if (BPh_Phase f =? "recovery")%string then v ← budgetAdd (L_Recovery l) (tokens f); Ok (l <| L_Recovery := v |>)
  else Ok l.

(** A charge counts in the window for as long as the window lasts, and in the cycle
    it was allocated in. *)
Definition spend_phase (p : BudgetPolicy) (t : time) (alloc : BudgetAllocation) (l : ledger) (f : BudgetPhase) : res ledger :=
  l ← (if t - BP_Window p <? BPh_SettledAt f then
         let relief := BPh_SettledAt f + BP_Window p in
         w ← budgetAdd (L_WindowSpent l) (tokens f);
         Ok (l <| L_Charges := L_Charges l ++ [(BA_ID alloc ++ ":" ++ BPh_Phase f)%string] |>
               <| L_Reset := Some (match L_Reset l with Some r => if relief <? r then relief else r | None => relief end) |>
               <| L_WindowSpent := w |>)
       else Ok l);
  if (BA_CycleID alloc =? BP_CycleID p)%string then c ← budgetAdd (L_CycleSpent l) (tokens f); Ok (l <| L_CycleSpent := c |>)
  else Ok l.

Definition ledger_phase (p : BudgetPolicy) (t : time) (alloc : BudgetAllocation) (l : ledger) (f : BudgetPhase) : res ledger :=
  if charged f then
    deny_if ((BPh_SettledAt f =? 0) || (t <? BPh_SettledAt f));; spend_phase p t alloc l f
  else reserve_phase l f.

(** A loop that ends at its first error. *)
Fixpoint try_each {A B} (f : A -> B -> res A) (a : A) (l : list B) : res A :=
  match l with
  | [] => Ok a
  | x :: l => a ← f a x; try_each f a l
  end.

Definition ledger_allocation (p : BudgetPolicy) (t : time) (l : ledger) (alloc : BudgetAllocation) : res ledger :=
  deny_if (t <? BA_AllocatedAt alloc);;
  try_each (ledger_phase p t alloc) l (BA_Phases alloc).

#[local] Instance allocation_le_dec : RelDecision (fun x y : string * BudgetAllocation => String.le x.1 y.1).
Proof. intros x y. apply _. Defined.
(** The allocations of the project in the order of their identifiers. *)
Definition project_allocations (s : state) (project : string) : list BudgetAllocation :=
  (merge_sort (fun x y : string * BudgetAllocation => String.le x.1 y.1)
     (List.filter (fun x => (BA_ProjectID x.2 =? project)%string) (mentries (allocations s)))).*2.

Definition totals (limit spent reserved : Z) : res BudgetTotals :=
  used ← budgetAdd spent reserved;
  Ok (mkBudgetTotals limit spent reserved (if limit - used <? 0 then 0 else limit - used)).

Definition ledger_digest (p : BudgetPolicy) (l : list BudgetAllocation) (charges : list string) : string :=
  identity "budget.ledger" ""
    (JObject [("Policy", to_json p); ("Allocations", JArray (map to_json l)); ("ActiveCharges", JStrings charges)]%string).

Definition budgetStatus (s : state) (p : BudgetPolicy) (t : time) : res BudgetStatus :=
  deny_if (t <? BP_WindowOrigin p);;
  let allocs := project_allocations s (BP_ProjectID p) in
  l ← try_each (ledger_allocation p t) empty_ledger allocs;
  window ← totals (BP_WindowLimit p) (L_WindowSpent l) (L_WindowReserved l);
  cycle ← totals (BP_CycleLimit p) (L_CycleSpent l) (L_CycleReserved l);
  let least := if BTo_Remaining window <? BTo_Remaining cycle then BTo_Remaining window else BTo_Remaining cycle in
  let headroom := least - BP_RecoveryFloor p in
  let public := map (fun a => a <| BA_AvailableProducers := budgetProducers s a |>) allocs in
  Ok (mkBudgetStatus 1 (BP_ProjectID p) (BP_Revision p) (BP_CycleID p) "owner-estimated-tokens" "owner-estimate"
        "local-allocation-only; provider/host spend unsupported" "unknown" t (BP_CooldownUntil p) (L_Reset l)
        window cycle (L_Review l) (L_Integration l) (L_Recovery l) (BP_RecoveryFloor p)
        (if headroom <? 0 then 0 else headroom) None (SP_Stopped (swarm_policy s (BP_ProjectID p)))
        public (ledger_digest p public (L_Charges l))).

(** [Authority.BudgetStatus] *)
Definition ReadBudgetStatus (e : Env) (token session project : string) (s : state) : res BudgetStatus := run (
  t ← look 1 (now e);
  p ← lift (budgetAuth s token session project "budget.read" t);
  t ← look 1 (now e);
  lift (budgetStatus s p t)).

(** ** Quotes *)

Definition empty_quote : BudgetQuote :=
  mkBudgetQuote 0 "" "" "" "" "" "" "" "" false 0 0 0 0 0 0 [] [] "" "".
(** The quote before the task's phases. *)
Definition new_quote (p : BudgetPolicy) (task : string) (status : BudgetStatus) : BudgetQuote :=
  mkBudgetQuote 1 (BP_ProjectID p) task (BP_Revision p) (BP_CycleID p) (BS_LedgerDigest status) "" "" (BP_Harness p)
    false 0 0 0 0 0 0 [] [] (BS_Enforcement status) "unknown".

#[local] Instance phase_le_dec : RelDecision (fun x y : string * BudgetEstimate => String.le x.1 y.1).
Proof. intros x y. apply _. Defined.
Definition sorted_phases (x : BudgetTask) : list (string * BudgetEstimate) :=
  merge_sort (fun x y : string * BudgetEstimate => String.le x.1 y.1) (mentries (BT_Phases x)).

Definition quote_phase (q : BudgetQuote) (x : string * BudgetEstimate) : res BudgetQuote :=
  let '(name, estimate) := x in
  let v := BE_Tokens estimate in
  total ← budgetAdd (BQ_Total q) v;
  let q := q <| BQ_Phases := BQ_Phases q ++ [mkBudgetPhase name estimate "reserved" "" "" 0 None] |>
             <| BQ_Total := total |> in
  Ok (if (name =? "implementation")%string then q <| BQ_Implementation := v |>
      else if is_review name then q <| BQ_Review := BQ_Review q + v |>
      else if (name =? "correction")%string then q <| BQ_Correction := v |>
      else if (name =? "integration")%string then q <| BQ_Integration := v |>
      else if (name =? "recovery")%string then q <| BQ_Recovery := v |>
      else q).

(** The report allows the task and is unexpired, the project is not stopped and its
    policy is in force and not cooling down. *)
Definition quote_open (p : BudgetPolicy) (status : BudgetStatus) (report : option PreflightReport) (t : time) : bool :=
  match report with Some r => PR_Allowed r && (t <? PR_ExpiresAt r) | None => false end
  && negb (BS_STOP status) && (t <? BP_ExpiresAt p) && negb (t <? BP_CooldownUntil p).

Definition quote_reason (p : BudgetPolicy) (status : BudgetStatus) (report : option PreflightReport) (t : time) : string :=
  if quote_open p status report t then "selected_owner_pinned_model"
  else if BS_STOP status then "budget_STOP"
  else if negb (t <? BP_ExpiresAt p) then "budget_policy_expired"
  else if t <? BP_CooldownUntil p then "budget_cooldown"
  else "budget_preflight_unavailable".

Definition calculateBudgetQuote (p : BudgetPolicy) (task : string) (status : BudgetStatus)
    (report : option PreflightReport) (already : Z) (t : time) : res BudgetQuote :=
  match budget_task p task with
  | None => Ok ((new_quote p task status) <| BQ_Reason := "missing_complete_phase_estimate"%string |>)
  | Some spec =>
    q ← try_each quote_phase (new_quote p task status) (sorted_phases spec);
    let q := q <| BQ_Reason := quote_reason p status report t |> <| BQ_Allowed := quote_open p status report t |> in
    cost ← budgetAdd already (BQ_Total q);
    cost ← budgetAdd cost (BP_RecoveryFloor p);
    Ok (if (BTo_Remaining (BS_Cycle status) <? cost) || (BTo_Remaining (BS_Window status) <? cost)
        then q <| BQ_Allowed := false |> <| BQ_Reason := "insufficient_complete_cycle_headroom"%string |>
        else q)
  end.

Definition finishBudgetQuote (q : BudgetQuote) (report : option PreflightReport) : BudgetQuote :=
  let proof := match report with Some r => PR_ProofDigest r | None => ""%string end in
  q <| BQ_Digest := identity "budget.quote" "" (JObject [("Quote", to_json q); ("Preflight", JString proof)]%string) |>.

(** A report that routed the task to another role than the estimate's: the
    implementation and the correction are priced by that role's alternative. *)
Definition routed_policy (p : BudgetPolicy) (task : string) (report : option PreflightReport) : option BudgetPolicy :=
  let role := match report with Some r => PR_RoutingRole r | None => ""%string end in
  if (role =? "")%string then Some p
  else
    let x := default zero_budget_task (budget_task p task) in
    let chosen := default zero_estimate (mget (BT_Phases x) "implementation") in
    if (BE_RoleID chosen =? role)%string then Some p
    else
      alternative ← mget (BT_Alternatives x) role;
      let phases := <["implementation"%string := alternative]> (default ∅ (BT_Phases x)) in
      let phases := if mhas (Some phases) "correction" then <["correction"%string := alternative]> phases else phases in
      Some (p <| BP_Tasks := Some (<[task := x <| BT_Phases := Some phases |>]> (default ∅ (BP_Tasks p))) |>).

Definition obs_roles (obs : PreflightObservation) : list (string * Role) :=
  [("implementation", PO_Implementation obs); ("review", PO_Review obs); ("recovery", PO_Recovery obs)]%string
  ++ map (pair "fallback"%string) (PO_Fallback obs).
(** The roles of the report are still the roles observed. *)
Definition roles_unchanged (obs : PreflightObservation) (r : PreflightReport) : bool :=
  forallb (fun '(phase, role) =>
      forallb (fun c => negb ((PRC_Phase c =? phase)%string && (PRC_RoleID c =? Role_Name role)%string
                              && negb (PRC_RoleDigest c =? roleDigest role)%string)) (PR_RoleCapacities r))
    (obs_roles obs).
Definition digests_unchanged (obs : PreflightObservation) (r : PreflightReport) : bool :=
  (PO_TaskDigest obs =? PR_TaskDigest r)%string && (PO_RosterDigest obs =? PR_RosterDigest r)%string
  && (PO_ClaimsDigest obs =? PR_ClaimsDigest r)%string && (PO_ProfileDigest obs =? PR_ProfileDigest r)%string.

Definition observed_role (obs : PreflightObservation) (phase : string) : Role :=
  if (phase =? "recovery")%string then PO_Recovery obs
  else if is_review phase then PO_Review obs else PO_Implementation obs.
Definition estimate_bound (obs : PreflightObservation) (phase : string) (v : BudgetEstimate) : bool :=
  (phase =? "verification")%string
  || (BE_Model v =? ModelID (observed_role obs phase))%string && (BE_RoleID v =? Role_Name (observed_role obs phase))%string.

Definition path_scope (resource : string) : option string :=
  if HasPrefix resource "path:" then Some (String.substring 5 (String.length resource - 5) resource) else None.

Definition fallback_capable (p : BudgetPolicy) (obs : PreflightObservation) (r : PreflightReport) (role : Role) : bool :=
  let impl := PO_Implementation obs in
  PR_Allowed r && (Role_Runtime role =? BP_Harness p)%string && implementationCharter (Role_Kind role)
  && (Role_Grant role =? "rw")%string && negb (MP_ContextLimit (Role_Profile role) <? MP_ContextLimit (Role_Profile impl))
  && forallb (fun c => negb ((PRC_Phase c =? "fallback")%string && (PRC_RoleID c =? Role_Name role)%string
                             && negb (TCV_Fits (PRC_Capacity c)) && (PRC_OverrideID c =? "")%string)) (PR_RoleCapacities r)
  && forallb (fun resource => match path_scope resource with Some path => InScope role path | None => true end)
       (PO_ClaimResources obs)
  && subset (MP_CapabilityTags (Role_Profile impl)) (MP_CapabilityTags (Role_Profile role)).

Definition fallback_reason (obs : PreflightObservation) (role : Role) (capable : bool) : string :=
  let tier := MP_CostTier (Role_Profile role) in
  let own := MP_CostTier (Role_Profile (PO_Implementation obs)) in
  let pinned := "owner credential/profile pins selected implementation role; fallback requires explicit owner rebind"%string in
  if negb capable then "fallback lacks complete current canonical capability/scope/grant/phase preflight"
  else if (0 <? tier) && (tier <? 99) && (0 <? own) && (tier <? own) then ("cheaper cost tier rejected: " ++ pinned)%string
  else pinned.

Definition fallback_alternative (p : BudgetPolicy) (spec : BudgetTask) (obs : PreflightObservation) (r : PreflightReport)
    (q : BudgetQuote) (role : Role) : res BudgetQuote :=
  let capable := fallback_capable p obs r role in
  let alternative marginal knowledge :=
    mkBudgetAlternative (Role_Name role) (ModelID role) (fallback_reason obs role capable) marginal
      (MP_CostTier (Role_Profile role)) knowledge
      "canonical charter/grant/capacity/scope/context/tags and current phase preflight only; native model availability unobserved"
      capable false in
  let add x := q <| BQ_Alternatives := BQ_Alternatives q ++ [x] |> in
  match mget (BT_Alternatives spec) (Role_Name role) with
  | Some estimate =>
    if (BE_Model estimate =? ModelID role)%string then
      marginal ← budgetAdd (BQ_Total q - BQ_Implementation q) (BE_Tokens estimate);
      Ok (add (alternative (Some marginal) "owner-estimate"%string))
    else Ok (add (alternative None "unknown"%string))
  | None => Ok (add (alternative None "unknown"%string))
  end.

(** The quote against a fresh observation. *)
Definition observed_quote (p : BudgetPolicy) (spec : BudgetTask) (obs : PreflightObservation) (r : PreflightReport)
    (q : BudgetQuote) : res BudgetQuote :=
  let q := if forallb (fun '(name, v) => estimate_bound obs name v) (mentries (BT_Phases spec)) then q
           else q <| BQ_Allowed := false |> <| BQ_Reason := "owner_estimate_model_binding_changed"%string |> in
  let chosen := default zero_estimate (mget (BT_Phases spec) "implementation") in
  let own := mkBudgetAlternative (BE_RoleID chosen) (BE_Model chosen) (BQ_Reason q) (Some (BQ_Total q))
               (MP_CostTier (Role_Profile (PO_Implementation obs))) "owner-estimate"
               "fresh canonical/private-profile preflight; native model availability unobserved"
               (PR_Allowed r) (BQ_Allowed q) in
  try_each (fallback_alternative p spec obs r) (q <| BQ_Alternatives := BQ_Alternatives q ++ [own] |>) (PO_Fallback obs).

Definition routing_role (report : option PreflightReport) : string :=
  match report with Some r => PR_RoutingRole r | None => ""%string end.

Definition quoteBudget (e : Env) (ad : Adapters) (s : state) (project task : string) (report : option PreflightReport)
    (already : Z) : prog (option BudgetQuote) :=
  match mget (budget_policies s) project with
  | None => mret None
  | Some p =>
    t ← look 1 (now e);
    status ← lift (budgetStatus s p t);
    match routed_policy p task report with
    | None => mret (Some (empty_quote <| BQ_Reason := "owner_route_estimate_unknown"%string |>))
    | Some p =>
      t ← look 1 (now e);
      q ← lift (calculateBudgetQuote p task status report already t);
      match budget_task p task with
      | None => mret (Some (finishBudgetQuote q report))
      | Some spec =>
        observer ← lift (must (observe_preflight ad));
        preflight ←
          (if (routing_role report =? "")%string then mret (preflight_spec s project task)
           else x ← routingPreflightSpec e s project task (routing_role report); lift (must x));
        obs ← ask 1 (fun n => observer n (Binding_Workspace (st_Binding s)) project task preflight (placement_of s project task));
        r ← lift (match report with Some r => Ok r | None => Err Panic end);
        t ← look 1 (now e);
        forbid_if (negb (roles_unchanged obs r));;
        forbid_if (negb (digests_unchanged obs r) || negb (t <? PO_ExpiresAt obs));;
        q ← lift (observed_quote p spec obs r q);
        mret (Some (finishBudgetQuote q report))
      end
    end
  end.

Definition budgetQuoteCurrent (e : Env) (s : state) (q : option BudgetQuote) : prog bool :=
  match q with
  | None => mret true
  | Some q =>
    match mget (budget_policies s) (BQ_ProjectID q) with
    | None => mret false
    | Some p =>
      t1 ← look 1 (now e);
      t2 ← look 1 (now e);
      if negb (BP_Revision p =? BQ_PolicyRevision q)%string || negb (t1 <? BP_ExpiresAt p) || (t2 <? BP_CooldownUntil p)
         || SP_Stopped (swarm_policy s (BP_ProjectID p))
      then mret false
      else
        t3 ← look 1 (now e);
        mret (match budgetStatus s p t3 with
              | Ok status => (BS_LedgerDigest status =? BQ_LedgerDigest q)%string
              | Err _ => false
              end)
    end
  end.

(** [Authority.QuoteBudget] *)
Definition QuoteBudget (e : Env) (ad : Adapters) (au : Authority) (token session project task : string) (s : state)
    : res BudgetQuote := run (
  t ← look 1 (now e);
  p ← lift (budgetAuth s token session project "budget.quote" t);
  forbid_if (negb (mhas (BP_Tasks p) task));;
  report ← owner_preflight e ad au s project task;
  q ← quoteBudget e ad s project task (Some report) 0;
  q ← lift (match q with Some q => Ok q | None => Err Panic end);
  t ← look 1 (now e);
  _ ← lift (budgetAuth s token session project "budget.quote" t);
  current ← (if BQ_Allowed q then budgetQuoteCurrent e s (Some q) else mret true);
  t ← look 1 (now e);
  forbid_if (BQ_Allowed q && (negb current || negb (t <? PR_ExpiresAt report)));;
  mret q).

(** ** Allocation and settlement *)

Definition put_allocation (s : state) (id : string) (a : BudgetAllocation) : res state :=
  m ← mset (allocations s) id a;
  Ok (s <| st_Budget := (st_Budget s) <| BudgetAllocations := m |> |>).

Definition allocateBudget (s : state) (d : DispatchReservation) (wave : string) (q : option BudgetQuote) (t : time) : res state :=
  if negb (mhas (budget_policies s) (DR_ProjectID d)) then Ok s
  else
    q ← must q;
    deny_if (negb (BQ_Allowed q));;
    deny_if (mhas (allocations s) (DR_ID d));;
    put_allocation s (DR_ID d)
      (mkBudgetAllocation [] (DR_ID d) (DR_ID d) wave (DR_ProjectID d) (Lease_TaskID (DR_Reservation d))
         (BQ_PolicyRevision q) (BQ_CycleID q) (DR_Harness d) (BQ_Digest q) (Lease_Fence (DR_Reservation d)) t (BQ_Phases q)).

(** The ledger still keeps the recovery floor within both limits. *)
Definition within_limits (p : BudgetPolicy) (st : BudgetStatus) : bool :=
  let w := BS_Window st in let c := BS_Cycle st in
  negb (BTo_Remaining w <? BP_RecoveryFloor p) && negb (BTo_Remaining c <? BP_RecoveryFloor p)
  && negb (BP_WindowLimit p <? BTo_Spent w + BTo_Reserved w) && negb (BP_CycleLimit p <? BTo_Spent c + BTo_Reserved c).

Definition implementation_open (alloc : BudgetAllocation) : bool :=
  match List.find (fun f => (BPh_Phase f =? "implementation")%string) (BA_Phases alloc) with
  | Some f => (BPh_State f =? "reserved")%string
  | None => false
  end.

Definition budgetDispatchCurrent (e : Env) (s : state) (d : DispatchReservation) : prog bool :=
  match mget (budget_policies s) (DR_ProjectID d) with
  | None => mret true
  | Some p =>
    match mget (allocations s) (DR_ID d) with
    | None => mret false
    | Some alloc =>
      t1 ← look 1 (now e);
      t2 ← look 1 (now e);
      if negb (BA_PolicyRevision alloc =? BP_Revision p)%string || negb (BA_DispatchID alloc =? DR_ID d)%string
         || negb (BA_TaskID alloc =? Lease_TaskID (DR_Reservation d))%string
         || negb (BA_ReservationFence alloc =? Lease_Fence (DR_Reservation d)) || negb (BA_Harness alloc =? DR_Harness d)%string
         || SP_Stopped (swarm_policy s (DR_ProjectID d)) || negb (t1 <? BP_ExpiresAt p) || (t2 <? BP_CooldownUntil p)
      then mret false
      else
        t3 ← look 1 (now e);
        mret (match budgetStatus s p t3 with
              | Ok st => within_limits p st && implementation_open alloc
              | Err _ => false
              end)
    end
  end.

Definition put_budget_receipt (s : state) (key digest : string) (a : BudgetAllocation) : res state :=
  m ← mset (BudgetOperations (st_Budget s)) key (mkBudgetReceipt digest a);
  Ok (s <| st_Budget := (st_Budget s) <| BudgetOperations := m |> |>).

(** The last phase of this name. *)
Fixpoint last_phase (name : string) (i : nat) (l : list BudgetPhase) : option (nat * BudgetPhase) :=
  match l with
  | [] => None
  | f :: l =>
    match last_phase name (S i) l with
    | Some x => Some x
    | None => if (BPh_Phase f =? name)%string then Some (i, f) else None
    end
  end.

Definition terminal_outcome (outcome : string) : bool := (outcome =? "completed")%string || (outcome =? "failed")%string.
(** Only a terminal outcome charges the phase; anything else keeps the liability. *)
Definition settled_phase (f : BudgetPhase) (producer outcome : string) (t : time) : BudgetPhase :=
  let f := f <| BPh_ProducerID := producer |> <| BPh_Outcome := outcome |> in
  if terminal_outcome outcome then f <| BPh_State := "charged"%string |> <| BPh_SettledAt := t |>
  else f <| BPh_State := "unknown-retained"%string |>.

Definition SettleBudget (e : Env) (token session : string) (r : BudgetSettleRequest) : tx BudgetAllocation := fun s => run (
  alloc ← lift (must (mget (allocations s) (BSR_DispatchID r)));
  t ← look 1 (now e);
  _ ← lift (budgetAuth s token session (BA_ProjectID alloc) "budget.settle" t);
  forbid_if (negb (validID (BSR_OperationKey r)) || negb (validID (BSR_ProducerID r)) || negb (budgetPhaseName (BSR_Phase r))
             || negb (BSR_ExpectedFence r =? BA_ReservationFence alloc));;
  let digest := identity "budget.settle" session r in
  match mget (BudgetOperations (st_Budget s)) (BSR_OperationKey r) with
  | Some old => forbid_if (negb (BR_Digest old =? digest)%string);; mret (BR_Allocation old, s)
  | None =>
    '(i, f) ← lift (must (last_phase (BSR_Phase r) 0 (BA_Phases alloc)));
    if charged f then
      forbid_if (negb (BPh_ProducerID f =? BSR_ProducerID r)%string);;
      s' ← lift (put_budget_receipt s (BSR_OperationKey r) digest alloc);
      mret (alloc, s')
    else
      outcome ← lift (budgetProducerOutcome s alloc (BSR_Phase r) (BSR_ProducerID r));
      t ← (if terminal_outcome outcome then look 1 (now e) else mret 0);
      let alloc := alloc <| BA_Phases := <[i := settled_phase f (BSR_ProducerID r) outcome t]> (BA_Phases alloc) |> in
      t ← look 1 (now e);
      _ ← lift (budgetAuth s token session (BA_ProjectID alloc) "budget.settle" t);
      s' ← lift (put_allocation s (BA_ID alloc) alloc);
      s'' ← lift (put_budget_receipt s' (BSR_OperationKey r) digest alloc);
      mret (alloc, s'')
  end).
