(* ===== verification/BudgetLaws.v ===== *)
(** * What the budgets promise

    The totals of a ledger as sums over the allocations, the amounts of a quote,
    that an admitted allocation keeps both limits and the recovery floor, and that
    settling neither changes an amount nor releases a liability without a terminal
    outcome. *)

From S2P Require Import Prelude Floats GoStd Team Disclosure State Session Schema Withdrawal Resources Attempts Leases Lifecycle Evidence Reviews Encodings Scheduling Preflight PreflightLaws Budgets.
#[local] Open Scope Z_scope.

Lemma budgetAdd_ok x y v : budgetAdd x y = Ok v <-> v = x + y /\ 0 <= x /\ 0 <= y /\ x + y <= max_int64.
Proof.
  unfold budgetAdd. destruct (_ || _) eqn:E; simpl.
  - split; [done |]. intros (? & ? & ? & ?). rewrite !orb_true_iff in E.
    destruct E as [[E | E] | E]; bool_facts; lia.
  - bool_facts. split; [intros [= <-]; repeat split; lia | intros (-> & _); done].
Qed.

#[global] Arguments budgetAdd : simpl never.

Lemma try_each_app {A B} (f : A -> B -> res A) a l k :
  try_each f a (l ++ k) = (a' ← try_each f a l; try_each f a' k).
Proof.
  revert a. induction l as [| x l IH]; intros a; simpl; [done |]. destruct (f a x); simpl; [apply IH | done].
Qed.

(** ** Amounts *)

Definition entry : Type := BudgetAllocation * BudgetPhase.
Definition entries (l : list BudgetAllocation) : list entry := concat (map (fun a => map (pair a) (BA_Phases a)) l).

Definition sel_reserved (x : entry) : bool := negb (charged x.2).
Definition sel_window (p : BudgetPolicy) (t : time) (x : entry) : bool :=
  charged x.2 && (t - BP_Window p <? BPh_SettledAt x.2).
Definition sel_cycle (p : BudgetPolicy) (x : entry) : bool := charged x.2 && (BA_CycleID x.1 =? BP_CycleID p)%string.

(** The tokens of the entries a condition selects. *)
Definition amount (sel : entry -> bool) (l : list entry) : Z :=
  foldr (fun x acc => (if sel x then tokens x.2 else 0) + acc) 0 l.

Lemma amount_app sel l k : amount sel (l ++ k) = amount sel l + amount sel k.
Proof. induction l as [| x l IH]; simpl; [done | lia]. Qed.

Lemma amount_Permutation sel l k : l ≡ₚ k -> amount sel l = amount sel k.
Proof. induction 1; simpl; lia. Qed.

Lemma amount_nonneg sel l : Forall (fun x => sel x = true -> 0 <= tokens x.2) l -> 0 <= amount sel l.
Proof. induction 1 as [| x l H _ IH]; simpl; [done |]. destruct (sel x); [specialize (H eq_refl)|]; lia. Qed.

Lemma amount_le sel sel' l :
  Forall (fun x => sel x = true -> sel' x = true) l -> Forall (fun x => sel' x = true -> 0 <= tokens x.2) l ->
  amount sel l <= amount sel' l.
Proof.
  induction 1 as [| x l H _ IH]; intros Hn; simpl; [done |]. inversion_clear Hn as [| ? ? Hx Hl]. specialize (IH Hl).
  destruct (sel x); [rewrite (H eq_refl); lia |]. destruct (sel' x); [specialize (Hx eq_refl) |]; lia.
Qed.

Lemma entries_Permutation l k : l ≡ₚ k -> entries l ≡ₚ entries k.
Proof.
  intros H. unfold entries. induction H as [| x l k _ IH | x y l | l k m _ IH1 _ IH2]; simpl; [done | by rewrite IH | | by etrans].
  by rewrite !app_assoc, (Permutation_app_comm (map (pair y) _)).
Qed.

(** ** The ledger is the sums *)

Section ledger.
Context (p : BudgetPolicy) (t : time).

Definition counted (x : entry) : bool := sel_reserved x || sel_window p t x || sel_cycle p x.
(** An entry the ledger can count at [t]. *)
Definition countable (x : entry) : Prop :=
  BA_AllocatedAt x.1 <= t /\ (counted x = true -> 0 <= tokens x.2)
  /\ (charged x.2 = true -> BPh_SettledAt x.2 <> 0 /\ BPh_SettledAt x.2 <= t).

(** [l'] is [l] with the amounts of the entries added. *)
Record adds (l : ledger) (xs : list entry) (l' : ledger) : Prop := {
  add_wr : L_WindowReserved l' = L_WindowReserved l + amount sel_reserved xs;
  add_cr : L_CycleReserved l' = L_CycleReserved l + amount sel_reserved xs;
  add_ws : L_WindowSpent l' = L_WindowSpent l + amount (sel_window p t) xs;
  add_cs : L_CycleSpent l' = L_CycleSpent l + amount (sel_cycle p) xs
}.

Lemma adds_nil l : adds l [] l.
Proof. split; simpl; lia. Qed.
Lemma adds_app l1 l2 l3 xs ys : adds l1 xs l2 -> adds l2 ys l3 -> adds l1 (xs ++ ys) l3.
Proof. intros [] []. split; rewrite amount_app; lia. Qed.

Lemma spend_phase_adds alloc l f l' :
  charged f = true -> spend_phase p t alloc l f = Ok l' -> adds l [(alloc, f)] l'.
Proof.
  unfold spend_phase. intros Hc H. apply bind_ok in H as (l1 & Hw & H).
  assert (A : adds l [] l -> L_WindowReserved l1 = L_WindowReserved l /\ L_CycleReserved l1 = L_CycleReserved l
              /\ L_CycleSpent l1 = L_CycleSpent l
              /\ L_WindowSpent l1 = L_WindowSpent l + (if t - BP_Window p <? BPh_SettledAt f then tokens f else 0)).
  { intros _. destruct (t - BP_Window p <? BPh_SettledAt f); [| injection Hw as <-; split_and!; lia].
    apply bind_ok in Hw as (w & Hw & E). injection E as <-. apply budgetAdd_ok in Hw as (-> & ? & ? & ?). done. }
  destruct (A (adds_nil l)) as (E1 & E2 & E3 & E4).
  destruct (BA_CycleID alloc =? BP_CycleID p)%string eqn:Ec.
  - apply bind_ok in H as (c & Hcy & E). injection E as <-. apply budgetAdd_ok in Hcy as (-> & ? & ? & ?).
    split; simpl; unfold sel_reserved, sel_window, sel_cycle; simpl; rewrite ?Hc, ?Ec; simpl; lia.
  - injection H as <-. split; simpl; unfold sel_reserved, sel_window, sel_cycle; simpl; rewrite ?Hc, ?Ec; simpl; lia.
Qed.

Lemma reserve_phase_adds alloc l f l' :
  charged f = false -> reserve_phase l f = Ok l' -> adds l [(alloc, f)] l'.
Proof.
  unfold reserve_phase. intros Hc H.
  apply bind_ok in H as (w & Hw & H). apply budgetAdd_ok in Hw as (-> & ? & ? & ?).
  apply bind_ok in H as (c & Hcy & H). apply budgetAdd_ok in Hcy as (-> & ? & ? & ?).
  assert (E : L_WindowReserved l' = L_WindowReserved l + tokens f /\ L_CycleReserved l' = L_CycleReserved l + tokens f
              /\ L_WindowSpent l' = L_WindowSpent l /\ L_CycleSpent l' = L_CycleSpent l).
  { destruct (is_review _); [by inv_ok |]. destruct (_ =? _)%string; [by inv_ok |].
    destruct (_ =? _)%string; by inv_ok. }
  destruct E as (E1 & E2 & E3 & E4).
  split; simpl; unfold sel_reserved, sel_window, sel_cycle; simpl; rewrite ?Hc; simpl; lia.
Qed.

Lemma ledger_phase_adds alloc l f l' : ledger_phase p t alloc l f = Ok l' -> adds l [(alloc, f)] l'.
Proof.
  unfold ledger_phase. destruct (charged f) eqn:Hc; intros H; [| by apply reserve_phase_adds].
  apply bind_ok in H as ([] & _ & H). by apply spend_phase_adds.
Qed.

Lemma ledger_phases_adds alloc fs l l' :
  try_each (ledger_phase p t alloc) l fs = Ok l' -> adds l (map (pair alloc) fs) l'.
Proof.
  revert l. induction fs as [| f fs IH]; intros l H; simpl in *; [injection H as <-; apply adds_nil |].
  apply bind_ok in H as (l1 & H1 & H). apply (adds_app l l1 l' [(alloc, f)]); [by apply ledger_phase_adds | by apply IH].
Qed.

Lemma ledger_allocations_adds allocs l l' :
  try_each (ledger_allocation p t) l allocs = Ok l' -> adds l (entries allocs) l'.
Proof.
  revert l. induction allocs as [| a allocs IH]; intros l H; simpl in *; [injection H as <-; apply adds_nil |].
  apply bind_ok in H as (l1 & H1 & H). unfold ledger_allocation in H1. apply bind_ok in H1 as ([] & _ & H1).
  apply (adds_app l l1 l'); [by apply ledger_phases_adds | by apply IH].
Qed.

(** ** Every countable ledger within int64 is counted *)

(** The sums a ledger holds are in range, and the parts within the whole. *)
Record sound (l : ledger) : Prop := {
  sd_ws : 0 <= L_WindowSpent l; sd_wr : 0 <= L_WindowReserved l; sd_cs : 0 <= L_CycleSpent l;
  sd_cr : L_CycleReserved l = L_WindowReserved l;
  sd_parts : 0 <= L_Review l <= L_WindowReserved l /\ 0 <= L_Integration l <= L_WindowReserved l
             /\ 0 <= L_Recovery l <= L_WindowReserved l
}.

(** Room in every total for the entries. *)
Definition room (l : ledger) (xs : list entry) : Prop :=
  L_WindowReserved l + amount sel_reserved xs <= max_int64
  /\ L_WindowSpent l + amount (sel_window p t) xs <= max_int64
  /\ L_CycleSpent l + amount (sel_cycle p) xs <= max_int64.

Lemma budgetAdd_some x y : 0 <= x -> 0 <= y -> x + y <= max_int64 -> budgetAdd x y = Ok (x + y).
Proof. intros. by apply budgetAdd_ok. Qed.

Lemma ledger_phase_counts alloc l f :
  countable (alloc, f) -> sound l -> room l [(alloc, f)] -> exists l', ledger_phase p t alloc l f = Ok l' /\ sound l'.
Proof.
  intros (_ & Hn & Hs) [W1 W2 W3 W4 (W5 & W6 & W7)] (R1 & R2 & R3).
  unfold room, counted, sel_reserved, sel_window, sel_cycle in *. simpl in *.
  unfold ledger_phase, spend_phase, reserve_phase. destruct (charged f) eqn:Hc; simpl in *.
  - destruct (Hs eq_refl) as [H0 Ht]. apply Z.eqb_neq in H0. apply Z.ltb_ge in Ht. rewrite H0, Ht. simpl.
    destruct (t - BP_Window p <? BPh_SettledAt f); [rewrite budgetAdd_some by lia |]; simpl;
      (destruct (BA_CycleID alloc =? BP_CycleID p)%string; [rewrite budgetAdd_some by lia |]); simpl;
      (eexists; split; [done |]; split; simpl; lia).
  - repeat (rewrite budgetAdd_some by lia; simpl).
    destruct (is_review _), (BPh_Phase f =? "integration")%string, (BPh_Phase f =? "recovery")%string;
      repeat (rewrite budgetAdd_some by lia; simpl); (eexists; split; [done |]; split; simpl; lia).
Qed.

Lemma amounts_nonneg ys :
  Forall countable ys -> 0 <= amount sel_reserved ys /\ 0 <= amount (sel_window p t) ys /\ 0 <= amount (sel_cycle p) ys.
Proof.
  intros Hy. split_and!; apply amount_nonneg; (eapply Forall_impl; [| exact Hy]); intros x (_ & H & _) Hs;
    apply H; unfold counted; rewrite Hs, ?orb_true_r; done.
Qed.

Lemma room_split l xs ys l' :
  Forall countable ys -> room l (xs ++ ys) -> adds l xs l' -> room l xs /\ room l' ys.
Proof.
  intros Hy (R1 & R2 & R3) [A1 A2 A3 A4]. rewrite !amount_app in *.
  destruct (amounts_nonneg ys Hy) as (? & ? & ?).
  unfold room. split_and!; lia.
Qed.

Lemma ledger_phases_count alloc fs l :
  Forall countable (map (pair alloc) fs) -> sound l -> room l (map (pair alloc) fs) ->
  exists l', try_each (ledger_phase p t alloc) l fs = Ok l' /\ sound l'.
Proof.
  revert l. induction fs as [| f fs IH]; intros l Hf Hl Hr; simpl in *; [eauto |].
  inversion_clear Hf as [| ? ? Hf1 Hf2].
  assert (R1 : room l [(alloc, f)]).
  { apply (room_split l [(alloc, f)] (map (pair alloc) fs) (mkLedger (L_WindowSpent l + amount (sel_window p t) [(alloc, f)])
      (L_WindowReserved l + amount sel_reserved [(alloc, f)]) (L_CycleSpent l + amount (sel_cycle p) [(alloc, f)])
      (L_CycleReserved l + amount sel_reserved [(alloc, f)]) 0 0 0 None [])); [done | done | by split]. }
  destruct (ledger_phase_counts alloc l f Hf1 Hl R1) as (l1 & H1 & S1). rewrite H1. simpl.
  apply IH; [done | done |]. by apply (room_split l [(alloc, f)] _ l1), ledger_phase_adds.
Qed.
Lemma ledger_allocations_count allocs l :
  Forall (fun a => BA_AllocatedAt a <= t) allocs -> Forall countable (entries allocs) -> sound l -> room l (entries allocs) ->
  exists l', try_each (ledger_allocation p t) l allocs = Ok l' /\ sound l'.
Proof.
  revert l. induction allocs as [| a allocs IH]; intros l Ha He Hl Hr; simpl in *; [eauto |].
  inversion_clear Ha as [| ? ? Ha1 Ha2]. change (entries (a :: allocs)) with (map (pair a) (BA_Phases a) ++ entries allocs) in *.
  apply Forall_app in He as [He1 He2].
  assert (Hroom : forall l', adds l (map (pair a) (BA_Phases a)) l' -> room l (map (pair a) (BA_Phases a)) /\ room l' (entries allocs))
    by (intros l' A; by apply (room_split l _ _ l')).
  destruct (ledger_phases_count a (BA_Phases a) l) as (l1 & H1 & S1); [done | done | |].
  { apply (Hroom (mkLedger (L_WindowSpent l + amount (sel_window p t) (map (pair a) (BA_Phases a)))
      (L_WindowReserved l + amount sel_reserved (map (pair a) (BA_Phases a)))
      (L_CycleSpent l + amount (sel_cycle p) (map (pair a) (BA_Phases a)))
      (L_CycleReserved l + amount sel_reserved (map (pair a) (BA_Phases a))) 0 0 0 None [])). by split. }
  unfold ledger_allocation. apply Z.ltb_ge in Ha1. rewrite Ha1. simpl. rewrite H1. simpl.
  apply IH; [done | done | done |]. by apply Hroom, ledger_phases_adds.
Qed.
End ledger.

(** ** The status *)

Definition clamp (x : Z) : Z := Z.max 0 x.

Lemma totals_ok limit spent reserved r :
  totals limit spent reserved = Ok r <->
  0 <= spent /\ 0 <= reserved /\ spent + reserved <= max_int64
  /\ r = mkBudgetTotals limit spent reserved (clamp (limit - (spent + reserved))).
Proof.
  unfold totals, clamp.
  assert (E : forall x, (if x <? 0 then 0 else x) = Z.max 0 x) by (intros x; destruct (x <? 0) eqn:?; bool_facts; lia).
  split.
  - intros H. apply bind_ok in H as (used & Hu & H). apply budgetAdd_ok in Hu as (-> & ? & ? & ?).
    injection H as <-. by rewrite E.
  - intros (? & ? & ? & ->). rewrite budgetAdd_some by lia. simpl. by rewrite E.
Qed.

Definition project_entries (s : state) (p : BudgetPolicy) : list entry := entries (project_allocations s (BP_ProjectID p)).

(** The totals of a status, as sums over the entries. *)
Record status_sums (p : BudgetPolicy) (t : time) (xs : list entry) (st : BudgetStatus) : Prop := {
  ss_window : BS_Window st = mkBudgetTotals (BP_WindowLimit p) (amount (sel_window p t) xs) (amount sel_reserved xs)
                (clamp (BP_WindowLimit p - (amount (sel_window p t) xs + amount sel_reserved xs)));
  ss_cycle : BS_Cycle st = mkBudgetTotals (BP_CycleLimit p) (amount (sel_cycle p) xs) (amount sel_reserved xs)
               (clamp (BP_CycleLimit p - (amount (sel_cycle p) xs + amount sel_reserved xs)));
  ss_headroom : BS_UnallocatedHeadroom st
                = clamp (Z.min (BTo_Remaining (BS_Window st)) (BTo_Remaining (BS_Cycle st)) - BP_RecoveryFloor p);
  ss_range : 0 <= amount sel_reserved xs /\ 0 <= amount (sel_window p t) xs /\ 0 <= amount (sel_cycle p) xs
             /\ amount (sel_window p t) xs + amount sel_reserved xs <= max_int64
             /\ amount (sel_cycle p) xs + amount sel_reserved xs <= max_int64
}.

Lemma budgetStatus_sums s p t st :
  budgetStatus s p t = Ok st -> status_sums p t (project_entries s p) st.
Proof.
  unfold budgetStatus, project_entries. intros H. apply bind_ok in H as ([] & _ & H). cbv zeta in H.
  apply bind_ok in H as (l & Hl & H). apply bind_ok in H as (w & Hw & H). apply bind_ok in H as (c & Hc & H).
  injection H as <-. apply ledger_allocations_adds in Hl as [A1 A2 A3 A4]. simpl in *.
  apply totals_ok in Hw as (? & ? & ? & ->). apply totals_ok in Hc as (? & ? & ? & ->).
  rewrite A1, A2, A3, A4 in *. rewrite !Z.add_0_l in *. split; simpl; [done | done | | split_and!; lia].
  set (a := clamp _). set (b := clamp (BP_CycleLimit p - _)).
  destruct (a <? b) eqn:Hab, (_ <? 0) eqn:Hlt; unfold clamp; bool_facts; lia.
Qed.

(** What the ledger needs to be counted at [t]. *)
Record solvent (s : state) (p : BudgetPolicy) (t : time) : Prop := {
  sv_origin : BP_WindowOrigin p <= t;
  sv_past : Forall (fun a => BA_AllocatedAt a <= t) (project_allocations s (BP_ProjectID p));
  sv_entries : Forall (countable p t) (project_entries s p);
  sv_window : amount (sel_window p t) (project_entries s p) + amount sel_reserved (project_entries s p) <= max_int64;
  sv_cycle : amount (sel_cycle p) (project_entries s p) + amount sel_reserved (project_entries s p) <= max_int64
}.

Lemma budgetStatus_total s p t : solvent s p t -> exists st, budgetStatus s p t = Ok st.
Proof.
  intros [H1 H2 H3 H4 H5]. unfold budgetStatus, project_entries in *. apply Z.ltb_ge in H1. rewrite H1. simpl.
  destruct (amounts_nonneg p t _ H3) as (? & ? & ?).
  destruct (ledger_allocations_count p t (project_allocations s (BP_ProjectID p)) empty_ledger) as (l & Hl & _);
    [done | done | split; simpl; lia | unfold room; simpl; split_and!; lia |].
  rewrite Hl. simpl. apply ledger_allocations_adds in Hl as [A1 A2 A3 A4]. simpl in *. rewrite A1, A2, A3, A4, !Z.add_0_l.
  erewrite (proj2 (totals_ok _ _ _ _)) by (split_and!; done). simpl.
  erewrite (proj2 (totals_ok _ _ _ _)) by (split_and!; done). simpl. eauto.
Qed.

(** A counted entry was countable. *)
Lemma ledger_phase_countable p t alloc l f l' :
  BA_AllocatedAt alloc <= t -> ledger_phase p t alloc l f = Ok l' -> countable p t (alloc, f).
Proof.
  intros Ha H. unfold countable, counted, sel_reserved, sel_window, sel_cycle. simpl.
  unfold ledger_phase in H. destruct (charged f) eqn:Hc; simpl.
  - apply bind_ok in H as ([] & Ht & H). apply deny_if_ok in Ht. bool_facts. split_and!; [done | | by split].
    unfold spend_phase in H. apply bind_ok in H as (l1 & Hw & H).
    destruct (_ <? BPh_SettledAt f).
    + intros _. apply bind_ok in Hw as (w & Hw & _). by apply budgetAdd_ok in Hw as (_ & _ & ? & _).
    + simpl. intros Ec. rewrite Ec in H. apply bind_ok in H as (c & Hcy & _). by apply budgetAdd_ok in Hcy as (_ & _ & ? & _).
  - split_and!; [done | | done]. intros _. apply bind_ok in H as (w & Hw & _). by apply budgetAdd_ok in Hw as (_ & _ & ? & _).
Qed.

Lemma ledger_allocations_countable p t allocs l l' :
  try_each (ledger_allocation p t) l allocs = Ok l' ->
  Forall (fun a => BA_AllocatedAt a <= t) allocs /\ Forall (countable p t) (entries allocs).
Proof.
  revert l. induction allocs as [| a allocs IH]; intros l H; simpl in H; [by split; constructor |].
  apply bind_ok in H as (l1 & H1 & H). apply IH in H as [I1 I2]. unfold ledger_allocation in H1.
  apply bind_ok in H1 as ([] & Ha & H1). apply deny_if_ok in Ha. apply Z.ltb_ge in Ha.
  split; [by constructor |]. change (entries (a :: allocs)) with (map (pair a) (BA_Phases a) ++ entries allocs).
  apply Forall_app. split; [| done]. clear I1 I2 IH. revert l H1.
  induction (BA_Phases a) as [| f fs IH]; intros l H; simpl in *; [constructor |].
  apply bind_ok in H as (l2 & H1 & H). constructor; [by eapply ledger_phase_countable | by eapply IH].
Qed.

Lemma budgetStatus_solvent s p t st : budgetStatus s p t = Ok st -> solvent s p t.
Proof.
  intros H. destruct (budgetStatus_sums s p t st H) as [_ _ _ (_ & _ & _ & ? & ?)]. unfold budgetStatus in H.
  apply bind_ok in H as ([] & Ho & H). apply deny_if_ok, Z.ltb_ge in Ho. cbv zeta in H.
  apply bind_ok in H as (l & Hl & _). apply ledger_allocations_countable in Hl as [? ?]. by split.
Qed.

(** C23: the status of a budget is total on the ledgers that can be counted, those
    without an allocation or a charge from the future and with sums inside int64,
    and on no others; it then reports, for the window and for the cycle, exactly
    the tokens of the uncharged phases as reserved and those of the charged phases,
    settled within the window or allocated in the cycle, as spent, the rest of the
    limit as remaining, and as headroom what either leaves above the recovery
    floor. *)
Theorem budgetStatus_exact s p t :
  ((exists st, budgetStatus s p t = Ok st) <-> solvent s p t)
  /\ forall st, budgetStatus s p t = Ok st -> status_sums p t (project_entries s p) st.
Proof.
  split; [split; [intros [st H]; by eapply budgetStatus_solvent | apply budgetStatus_total] |].
  intros st. apply budgetStatus_sums.
Qed.

(** ** Quotes *)

Definition phases_total (l : list BudgetPhase) : Z := foldr (fun f acc => tokens f + acc) 0 l.

(** The quote's total is that of its phases, none of which is charged. *)
Definition quoted (q : BudgetQuote) : Prop :=
  BQ_Total q = phases_total (BQ_Phases q) /\ Forall (fun f => charged f = false /\ 0 <= tokens f) (BQ_Phases q)
  /\ 0 <= BQ_Total q <= max_int64 /\ 0 <= BQ_Implementation q <= BQ_Total q.

(** What later steps keep of a quote; they may only withdraw the permission. *)
Record requotes (q q' : BudgetQuote) : Prop := {
  rq_total : BQ_Total q' = BQ_Total q;
  rq_impl : BQ_Implementation q' = BQ_Implementation q;
  rq_phases : BQ_Phases q' = BQ_Phases q;
  rq_allowed : BQ_Allowed q' = true -> BQ_Allowed q = true;
  rq_ids : (BQ_ProjectID q', BQ_TaskID q', BQ_PolicyRevision q', BQ_CycleID q', BQ_LedgerDigest q')
           = (BQ_ProjectID q, BQ_TaskID q, BQ_PolicyRevision q, BQ_CycleID q, BQ_LedgerDigest q)
}.
#[export] Instance requotes_preorder : PreOrder requotes.
Proof. split; [by split |]. intros q1 q2 q3 [] []. split; try congruence. auto. Qed.

Lemma phases_total_app l k : phases_total (l ++ k) = phases_total l + phases_total k.
Proof. induction l as [| f l IH]; simpl; [done | lia]. Qed.

Lemma quote_phase_quoted q x q' : quoted q -> quote_phase q x = Ok q' -> quoted q'.
Proof.
  destruct x as [name v]. intros (H1 & H2 & H3 & H4) H. simpl in H. apply bind_ok in H as (total & Ht & H).
  apply budgetAdd_ok in Ht as (-> & ? & ? & ?). injection H as <-.
  set (q1 := q <| BQ_Phases := _ |> <| BQ_Total := _ |>).
  assert (Q : BQ_Total q1 = phases_total (BQ_Phases q1)
              /\ Forall (fun f => charged f = false /\ 0 <= tokens f) (BQ_Phases q1)
              /\ 0 <= BQ_Total q1 <= max_int64 /\ 0 <= BQ_Implementation q <= BQ_Total q1).
  { unfold q1. simpl. rewrite phases_total_app. simpl. split_and!; try (unfold tokens in *; simpl; lia).
    apply Forall_app. split; [done |]. by repeat constructor. }
  destruct Q as (? & ? & ? & ?).
  repeat match goal with |- quoted (if ?b then _ else _) => destruct b end;
    (split_and!; try done; unfold q1 in *; simpl in *; lia).
Qed.

Lemma try_each_inv {A B} (I : A -> Prop) (f : A -> B -> res A) l a a' :
  (forall a x a', I a -> f a x = Ok a' -> I a') -> I a -> try_each f a l = Ok a' -> I a'.
Proof.
  intros Hf. revert a. induction l as [| x l IH]; intros a Ha H; simpl in H; [by injection H as <- |].
  apply bind_ok in H as (a1 & H1 & H). eapply IH, H. by eapply Hf.
Qed.

Definition quote_ids (q : BudgetQuote) := (BQ_ProjectID q, BQ_TaskID q, BQ_PolicyRevision q, BQ_CycleID q, BQ_LedgerDigest q).

Lemma quote_phase_ids q x q' : quote_phase q x = Ok q' -> quote_ids q' = quote_ids q.
Proof.
  destruct x as [name v]. simpl. intros H. apply bind_ok in H as (total & _ & H). injection H as <-.
  by repeat match goal with |- context [if ?b then _ else _] => destruct b end.
Qed.

(** What a calculated quote says when it is allowed. *)
Record affordable (p : BudgetPolicy) (status : BudgetStatus) (report : option PreflightReport) (already : Z) (t : time)
    (q : BudgetQuote) : Prop := {
  af_open : quote_open p status report t = true;
  af_already : 0 <= already; af_floor : 0 <= BP_RecoveryFloor p;
  af_cycle : already + BQ_Total q + BP_RecoveryFloor p <= BTo_Remaining (BS_Cycle status);
  af_window : already + BQ_Total q + BP_RecoveryFloor p <= BTo_Remaining (BS_Window status)
}.

Lemma calculateBudgetQuote_ok p task status report already t q :
  calculateBudgetQuote p task status report already t = Ok q ->
  quoted q
  /\ quote_ids q = (BP_ProjectID p, task, BP_Revision p, BP_CycleID p, BS_LedgerDigest status)
  /\ (BQ_Allowed q = true -> budget_task p task <> None /\ affordable p status report already t q).
Proof.
  unfold calculateBudgetQuote. destruct (budget_task p task) as [spec |] eqn:Hs.
  2: { intros [= <-]. split_and!; done. }
  intros H. apply bind_ok in H as (q1 & Hq & H).
  assert (Q : quoted q1).
  { eapply (try_each_inv quoted); [| | exact Hq]; [intros; by eapply quote_phase_quoted |].
    by split_and!. }
  assert (I : quote_ids q1 = (BP_ProjectID p, task, BP_Revision p, BP_CycleID p, BS_LedgerDigest status)).
  { eapply (try_each_inv (fun q => quote_ids q = quote_ids (new_quote p task status))); [| | exact Hq]; [| done].
    intros a x a' Ha Hx. apply quote_phase_ids in Hx. congruence. }
  cbv zeta in H. simpl in H. apply bind_ok in H as (c1 & H1 & H). apply budgetAdd_ok in H1 as (-> & ? & ? & ?).
  apply bind_ok in H as (c2 & Hc2 & H). apply budgetAdd_ok in Hc2 as (-> & ? & ? & ?).
  destruct (_ || _) eqn:Hc in H; injection H as <-; (split_and!; [exact Q | exact I |]); [done |].
  simpl. bool_facts. intros Ho. split; [done |]. split; simpl; lia || done.
Qed.

Lemma fallback_alternative_requotes p spec obs r q role q' :
  fallback_alternative p spec obs r q role = Ok q' -> requotes q q'.
Proof.
  unfold fallback_alternative. cbv zeta. intros H. destruct (mget _ _) as [v |]; [| injection H as <-; by split].
  destruct (_ =? _)%string; [| injection H as <-; by split]. apply bind_ok in H as (m & _ & H). injection H as <-. by split.
Qed.

Lemma observed_quote_requotes p spec obs r q q' : observed_quote p spec obs r q = Ok q' -> requotes q q'.
Proof.
  unfold observed_quote. set (q1 := if forallb _ _ then q else _). intros H.
  assert (R1 : requotes q q1) by (unfold q1; destruct (forallb _ _); by split).
  etrans; [exact R1 |].
  eapply (try_each_inv (requotes q1)); [| | exact H]; [| by split].
  intros a x a' Ha Hx. etrans; [exact Ha |]. by eapply fallback_alternative_requotes.
Qed.

Lemma finishBudgetQuote_requotes q report : requotes q (finishBudgetQuote q report).
Proof. by split. Qed.

(** A routed policy differs from the project's only in the task's estimates. *)
Lemma routed_policy_same p task report p' :
  routed_policy p task report = Some p' -> p' <| BP_Tasks := BP_Tasks p |> = p.
Proof.
  unfold routed_policy. destruct (_ =? _)%string; [intros [= <-]; by destruct p |].
  destruct (_ =? _)%string; [intros [= <-]; by destruct p |].
  destruct (mget _ _) as [v |]; [| done]. intros [= <-]. by destruct p.
Qed.

Lemma affordable_requotes p status report already t q q' :
  BQ_Total q' = BQ_Total q -> affordable p status report already t q -> affordable p status report already t q'.
Proof. intros E []. split; rewrite ?E; done. Qed.

Lemma quoted_requotes q q' : requotes q q' -> quoted q -> quoted q'.
Proof. intros [E1 E2 E3 _ _] (H1 & H2 & H3 & H4). unfold quoted. rewrite E1, E2, E3. done. Qed.

(** The status an allowed quote is made from, and the report it is for. *)
Lemma quoteBudget_allowed e ad s project task report already n q k :
  exec (quoteBudget e ad s project task report already) n = Ok (Some q, k) -> BQ_Allowed q = true ->
  exists p i st p' j, mget (budget_policies s) project = Some p /\ budgetStatus s p (now e i) = Ok st
    /\ p' <| BP_Tasks := BP_Tasks p |> = p /\ affordable p' st report already (now e j) q
    /\ quoted q /\ quote_ids q = (BP_ProjectID p, task, BP_Revision p, BP_CycleID p, BS_LedgerDigest st).
Proof.
  unfold quoteBudget. destruct (mget (budget_policies s) project) as [p |]; [| by intros [= ]]. intros H Ha.
  apply prog_bind_ok in H as (t & k1 & H1 & H). apply look_ok in H1 as [-> ->].
  apply prog_bind_ok in H as (st & k1 & Hst & H). apply lift_ok in Hst as [Hst ->].
  destruct (routed_policy p task report) as [p' |] eqn:Hr; [| apply mret_ok in H as [E _]; by simplify_eq].
  apply routed_policy_same in Hr.
  apply prog_bind_ok in H as (t & k1 & H1 & H). apply look_ok in H1 as [-> ->].
  apply prog_bind_ok in H as (q1 & k1 & Hq & H). apply lift_ok in Hq as [Hq ->].
  apply calculateBudgetQuote_ok in Hq as (Q & I & A).
  assert (R : requotes q1 q).
  { destruct (budget_task p' task) as [spec |].
    - do 7 (apply prog_bind_ok in H as (? & ? & _ & H)).
      apply prog_bind_ok in H as (q2 & k2 & Hq2 & H). apply lift_ok in Hq2 as [Hq2 ->].
      apply mret_ok in H as [E _]. simplify_eq. etrans; [by eapply observed_quote_requotes | apply finishBudgetQuote_requotes].
    - apply mret_ok in H as [E _]. simplify_eq. apply finishBudgetQuote_requotes. }
  destruct (A (rq_allowed _ _ R Ha)) as [_ Haff].
  eexists p, _, st, p', _. split_and!; try done.
  - eapply affordable_requotes; [by apply rq_total | exact Haff].
  - by eapply quoted_requotes.
  - change (quote_ids q = (BP_ProjectID p, task, BP_Revision p, BP_CycleID p, BS_LedgerDigest st)).
    transitivity (quote_ids q1); [apply (rq_ids _ _ R) |]. rewrite I. by rewrite <- Hr.
Qed.

(** ** Admission *)

Lemma filter_Permutation {A} (f : A -> bool) l k : l ≡ₚ k -> List.filter f l ≡ₚ List.filter f k.
Proof.
  induction 1 as [| x l k _ IH | x y l | l k m _ IH1 _ IH2]; simpl; [done | by destruct (f x); rewrite ?IH | | by etrans].
  destruct (f x), (f y); done || apply Permutation_swap.
Qed.

Lemma project_allocations_insert s id a s' project :
  put_allocation s id a = Ok s' -> mget (allocations s) id = None -> BA_ProjectID a = project ->
  project_allocations s' project ≡ₚ a :: project_allocations s project.
Proof.
  unfold put_allocation. intros H Hn Hp. apply bind_ok in H as (m & Hm & H). injection H as <-.
  apply mset_ok in Hm as (g & Hg & ->). unfold project_allocations, allocations. cbn. unfold allocations in Hn, Hg.
  rewrite Hg in *. cbn in Hn.
  rewrite !merge_sort_Permutation. cbn [mentries].
  rewrite (filter_Permutation _ _ _ (map_to_list_insert g id a Hn)). cbn. rewrite Hp, String.eqb_refl. cbn. done.
Qed.

Section later.
Context (p : BudgetPolicy) (t t' : time) (Ht : t <= t').

(** As time passes the charges of the window only expire. *)
Lemma sel_window_later x : sel_window p t' x = true -> sel_window p t x = true.
Proof. unfold sel_window. rewrite !andb_true_iff, !Z.ltb_lt. intros []. split; [done | lia]. Qed.

Lemma countable_later x : countable p t x -> countable p t' x.
Proof.
  intros (H1 & H2 & H3). split_and!; [lia | | intros Hc; destruct (H3 Hc); split; [done | lia]].
  unfold counted in *. rewrite !orb_true_iff in *. intros [[H | H] | H]; apply H2; [by left; left | left; right | by right].
  by apply sel_window_later.
Qed.

Lemma amount_window_later xs : Forall (countable p t) xs -> amount (sel_window p t') xs <= amount (sel_window p t) xs.
Proof.
  intros Hc. apply amount_le; (eapply Forall_impl; [| exact Hc]); intros x (_ & H & _); [intros; by apply sel_window_later |].
  intros Hs. apply H. unfold counted. by rewrite Hs, orb_true_r.
Qed.
End later.

Lemma new_entries_amounts a p t :
  Forall (fun f => charged f = false /\ 0 <= tokens f) (BA_Phases a) ->
  amount sel_reserved (entries [a]) = phases_total (BA_Phases a)
  /\ amount (sel_window p t) (entries [a]) = 0 /\ amount (sel_cycle p) (entries [a]) = 0.
Proof.
  unfold entries. simpl. rewrite app_nil_r.
  induction 1 as [| f l [Hc Hf] _ (I1 & I2 & I3)]; simpl; [done |].
  unfold sel_reserved at 1, sel_window at 1, sel_cycle at 1. simpl. rewrite Hc. simpl. lia.
Qed.

Lemma entries_cons a l : entries (a :: l) = entries [a] ++ entries l.
Proof. unfold entries. simpl. by rewrite app_nil_r. Qed.

(** The ledger with one more open allocation, at a later instant. *)
Lemma solvent_after s s' p a t0 t' (xs := project_entries s p) (xs' := project_entries s' p) :
  solvent s p t0 -> t0 <= t' -> BA_AllocatedAt a <= t' ->
  Forall (fun f => charged f = false /\ 0 <= tokens f) (BA_Phases a) ->
  project_allocations s' (BP_ProjectID p) ≡ₚ a :: project_allocations s (BP_ProjectID p) ->
  amount (sel_window p t0) xs + amount sel_reserved xs + phases_total (BA_Phases a) <= max_int64 ->
  amount (sel_cycle p) xs + amount sel_reserved xs + phases_total (BA_Phases a) <= max_int64 ->
  solvent s' p t' /\ amount sel_reserved xs' = amount sel_reserved xs + phases_total (BA_Phases a)
  /\ amount (sel_window p t') xs' <= amount (sel_window p t0) xs /\ amount (sel_cycle p) xs' = amount (sel_cycle p) xs.
Proof.
  intros [V1 V2 V3 V4 V5] Ht Ha Hf Hperm Hw Hc.
  assert (Perm : xs' ≡ₚ entries [a] ++ xs).
  { unfold xs', xs, project_entries. by rewrite (entries_Permutation _ _ Hperm), entries_cons. }
  destruct (new_entries_amounts a p t' Hf) as (N1 & N2 & N3).
  pose proof (amount_window_later p t0 t' Ht xs V3) as Hlater.
  assert (E1 : amount sel_reserved xs' = amount sel_reserved xs + phases_total (BA_Phases a))
    by (rewrite (amount_Permutation _ _ _ Perm), amount_app; lia).
  assert (E2 : amount (sel_window p t') xs' = amount (sel_window p t') xs)
    by (rewrite (amount_Permutation _ _ _ Perm), amount_app; lia).
  assert (E3 : amount (sel_cycle p) xs' = amount (sel_cycle p) xs)
    by (rewrite (amount_Permutation _ _ _ Perm), amount_app; lia).
  split_and!; [| done | lia | done]. fold xs in V3. split; [lia | | | fold xs'; lia | fold xs'; lia].
  - rewrite Hperm. constructor; [done |]. eapply Forall_impl; [| exact V2]. simpl. lia.
  - fold xs'. rewrite Perm. apply Forall_app. split; [| eapply Forall_impl; [| exact V3]; intros x; by apply countable_later].
    unfold entries. simpl. rewrite app_nil_r. apply list.Forall_forall. intros x Hx.
    apply list_elem_of_fmap in Hx as (f & -> & Hin). rewrite list.Forall_forall in Hf. destruct (Hf f Hin) as [Hc' ?].
    split_and!; simpl; [done | done | by rewrite Hc'].
Qed.

Lemma clamp_room limit used cost : 0 < cost -> cost <= clamp (limit - used) -> used + cost <= limit.
Proof. unfold clamp. lia. Qed.

(** C24: admission never overcommits: when the quote of a task is allowed and the task
    is allocated with it, the ledger can be counted at every later instant, the
    tokens reserved are those reserved before plus the total quoted, and spent and
    reserved tokens together with the recovery floor are within the window's limit
    and within the cycle's. *)
Theorem admitted_within_limits e ad s project task report n q k d wave t s' :
  exec (quoteBudget e ad s project task report 0) n = Ok (Some q, k) -> BQ_Allowed q = true -> 0 < BQ_Total q ->
  DR_ProjectID d = project ->
  (forall p, mget (budget_policies s) project = Some p ->
     BP_ProjectID p = project /\ BP_WindowLimit p <= max_int64 /\ BP_CycleLimit p <= max_int64) ->
  allocateBudget s d wave (Some q) t = Ok s' ->
  exists p i, mget (budget_policies s') project = Some p
    /\ forall t', now e i <= t' -> t <= t' -> exists st, budgetStatus s' p t' = Ok st
         /\ BTo_Reserved (BS_Window st) = amount sel_reserved (project_entries s p) + BQ_Total q
         /\ BTo_Spent (BS_Window st) + BTo_Reserved (BS_Window st) + BP_RecoveryFloor p <= BP_WindowLimit p
         /\ BTo_Spent (BS_Cycle st) + BTo_Reserved (BS_Cycle st) + BP_RecoveryFloor p <= BP_CycleLimit p.
Proof.
  intros Hq Ha Hpos Hd Hkey Hal.
  apply quoteBudget_allowed in Hq as (p & i & st & p' & j & Hp & Hst & Hp' & Haff & Hqq & _); [| done].
  destruct (Hkey p Hp) as (Hid & Hlw & Hlc). unfold allocateBudget in Hal. rewrite Hd in Hal. unfold mhas at 1 in Hal. rewrite Hp in Hal. simpl in Hal.
  rewrite Ha in Hal. apply bind_ok in Hal as ([] & _ & Hal). apply bind_ok in Hal as ([] & Hn & Hal).
  apply deny_if_ok, mhas_false in Hn.
  set (a := mkBudgetAllocation _ _ _ _ _ _ _ _ _ _ _ _ _) in Hal.
  assert (Hperm : project_allocations s' (BP_ProjectID p) ≡ₚ a :: project_allocations s (BP_ProjectID p))
    by (eapply project_allocations_insert; [exact Hal | done | by rewrite Hid]).
  assert (Hp2 : mget (budget_policies s') project = Some p).
  { unfold put_allocation in Hal. apply bind_ok in Hal as (m & _ & Hal). by injection Hal as <-. }
  destruct (budgetStatus_sums _ _ _ _ Hst) as [Sw Sc _ (? & ? & ? & ? & ?)].
  assert (Hfloor : BP_RecoveryFloor p' = BP_RecoveryFloor p) by (by rewrite <- Hp').
  destruct Haff as [_ _ Hf0 Hc Hw]. rewrite Sc in Hc. rewrite Sw in Hw. rewrite Hfloor in *. simpl in Hc, Hw.
  apply clamp_room in Hc, Hw; [| lia..]. destruct Hqq as (Htot & Hph & _ & _).
  exists p, i. split; [done |]. intros t' Ht1 Ht2.
  destruct (solvent_after s s' p a (now e i) t') as (V & E1 & E2 & E3); try done;
    [by eapply budgetStatus_solvent | simpl; lia | simpl; lia |].
  destruct (budgetStatus_total s' p t' V) as [st' Hst']. exists st'. split; [done |].
  destruct (budgetStatus_sums _ _ _ _ Hst') as [Sw' Sc' _ _]. rewrite Sw', Sc'. simpl in *. split_and!; lia.
Qed.

(** ** Settlement *)

Lemma last_phase_ok name i l j f :
  last_phase name i l = Some (j, f) -> exists k, j = (i + k)%nat /\ l !! k = Some f /\ BPh_Phase f = name.
Proof.
  revert i. induction l as [| g l IH]; intros i H; simpl in H; [done |].
  destruct (last_phase name (S i) l) as [x |] eqn:E.
  - injection H as ->. apply IH in E as (k & -> & ? & ?). exists (S k). split_and!; [lia | done | done].
  - destruct (_ =? _)%string eqn:En; simplify_eq. bool_facts. exists 0%nat. split_and!; [lia | done | done].
Qed.

Lemma Forall2_insert_one {A} (R : A -> A -> Prop) l k f f' :
  (forall g, R g g) -> l !! k = Some f -> R f f' -> Forall2 R l (<[k := f']> l).
Proof.
  intros Hr. revert k. induction l as [| g l IH]; intros k Hk Hf; [done |]. destruct k as [| k]; simpl in *.
  - simplify_eq. constructor; [done |]. clear IH. induction l; by constructor.
  - constructor; [done | by apply IH].
Qed.

(** What a settlement may do to a phase. *)
Record settles (s : state) (alloc : BudgetAllocation) (producer : string) (f f' : BudgetPhase) : Prop := {
  st_amount : BPh_Phase f' = BPh_Phase f /\ BPh_Estimate f' = BPh_Estimate f;
  st_charged : charged f = true -> f' = f;
  st_charge : charged f = false -> charged f' = true ->
    BPh_ProducerID f' = producer /\ exists outcome, budgetProducerOutcome s alloc (BPh_Phase f) producer = Ok outcome
      /\ outcome ∈ ["completed"; "failed"]%string /\ BPh_Outcome f' = outcome
}.

Lemma settled_phase_settles s alloc producer f outcome t :
  charged f = false -> budgetProducerOutcome s alloc (BPh_Phase f) producer = Ok outcome ->
  settles s alloc producer f (settled_phase f producer outcome t).
Proof.
  intros Hc Ho. unfold settled_phase. destruct (terminal_outcome outcome) eqn:Ht.
  - assert (outcome ∈ ["completed"; "failed"]%string).
    { unfold terminal_outcome in Ht. apply orb_true_iff in Ht as [->%String.eqb_eq | ->%String.eqb_eq]; set_solver. }
    split; [by split | congruence | intros _ _; split; [done | by exists outcome]].
  - split; [by split | congruence | done].
Qed.

Lemma settles_total s alloc producer l l' : Forall2 (settles s alloc producer) l l' -> phases_total l' = phases_total l.
Proof.
  induction 1 as [| f f' l l' [[_ E] _ _] _ IH]; simpl; [done |]. unfold tokens. rewrite E. lia.
Qed.

Lemma SettleBudget_ok e token session r s out s' :
  SettleBudget e token session r s = Ok (out, s') ->
  (exists old, mget (BudgetOperations (st_Budget s)) (BSR_OperationKey r) = Some old /\ out = BR_Allocation old /\ s' = s)
  \/ mget (BudgetOperations (st_Budget s)) (BSR_OperationKey r) = None
     /\ exists alloc digest, mget (allocations s) (BSR_DispatchID r) = Some alloc
        /\ (out = alloc /\ put_budget_receipt s (BSR_OperationKey r) digest alloc = Ok s'
            \/ exists j f outcome t s1, BA_Phases alloc !! j = Some f /\ charged f = false
                 /\ budgetProducerOutcome s alloc (BPh_Phase f) (BSR_ProducerID r) = Ok outcome
                 /\ out = alloc <| BA_Phases := <[j := settled_phase f (BSR_ProducerID r) outcome t]> (BA_Phases alloc) |>
                 /\ put_allocation s (BA_ID alloc) out = Ok s1 /\ put_budget_receipt s1 (BSR_OperationKey r) digest out = Ok s').
Proof.
  intros H. unfold SettleBudget in H. apply run_ok in H as [k H].
  apply prog_bind_ok in H as (alloc & k1 & Ha & H). apply lift_ok in Ha as [Ha ->]. apply must_ok in Ha. do 3 skip_in H. cbv zeta in H.
  destruct (mget (BudgetOperations (st_Budget s)) (BSR_OperationKey r)) as [old |] eqn:Ho.
  { skip_in H. apply mret_ok in H as [E _]. simplify_eq. left. eauto. }
  right. split; [done |]. eexists alloc, _. split; [done |].
  apply prog_bind_ok in H as ([i f] & k1 & Hf & H). apply lift_ok in Hf as [Hf ->]. apply must_ok in Hf.
  apply last_phase_ok in Hf as (j & -> & Hj & Hname). simpl in Hj.
  destruct (charged f) eqn:Hc.
  { skip_in H. apply prog_bind_ok in H as (s1 & k2 & Hput & H).
    apply lift_ok in Hput as [Hput ->]. apply mret_ok in H as [E _]. simplify_eq. left. by split. }
  right. apply prog_bind_ok in H as (outcome & k1 & Hout & H). apply lift_ok in Hout as [Hout ->]. rewrite <- Hname in Hout.
  apply prog_bind_ok in H as (t & k1 & _ & H). do 2 skip_in H.
  apply prog_bind_ok in H as (s1 & k3 & Hs1 & H). apply lift_ok in Hs1 as [Hs1 ->].
  apply prog_bind_ok in H as (s2 & k2 & Hs2 & H). apply lift_ok in Hs2 as [Hs2 ->]. apply mret_ok in H as [E _]. simplify_eq.
  eexists j, f, outcome, _, s1. by split_and!.
Qed.

(** The phases of the allocation a settlement returns. *)
Lemma settled_allocation s alloc producer j f outcome t :
  BA_Phases alloc !! j = Some f -> charged f = false -> budgetProducerOutcome s alloc (BPh_Phase f) producer = Ok outcome ->
  Forall2 (settles s alloc producer) (BA_Phases alloc) (<[j := settled_phase f producer outcome t]> (BA_Phases alloc)).
Proof.
  intros Hj Hc Ho. apply (Forall2_insert_one _ _ _ f); [| done | by apply settled_phase_settles].
  intros g. split; [done | done | congruence].
Qed.

(** C25: settling is exact and conservative: a repeated request returns the stored
    allocation and changes nothing; a new one changes no allocation but the one of
    its dispatch, whose phases keep their names and amounts; a phase charged before
    stays as it is, and a phase becomes charged only by a completed or failed
    outcome that the named producer persisted, so a liability of unknown outcome is
    never released. *)
Theorem SettleBudget_conservative e token session r s out s' :
  SettleBudget e token session r s = Ok (out, s') ->
  (forall id a, mget (allocations s) id = Some a -> BA_ID a = id) ->
  (forall old, mget (BudgetOperations (st_Budget s)) (BSR_OperationKey r) = Some old -> out = BR_Allocation old /\ s' = s)
  /\ (mget (BudgetOperations (st_Budget s)) (BSR_OperationKey r) = None ->
      exists alloc, mget (allocations s) (BSR_DispatchID r) = Some alloc
        /\ mget (allocations s') (BSR_DispatchID r) = Some out
        /\ (forall id, id <> BSR_DispatchID r -> mget (allocations s') id = mget (allocations s) id)
        /\ Forall2 (settles s alloc (BSR_ProducerID r)) (BA_Phases alloc) (BA_Phases out)
        /\ phases_total (BA_Phases out) = phases_total (BA_Phases alloc)
        /\ out <| BA_Phases := BA_Phases alloc |> = alloc).
Proof.
  intros H Hkeys. apply SettleBudget_ok in H as [(old & -> & -> & ->) | (-> & alloc & digest & Ha & Hcase)];
    [split; [by intros ? [= <-] | done] |].
  split; [done |]. intros _. exists alloc. split; [done |].
  assert (Hrefl : Forall2 (settles s alloc (BSR_ProducerID r)) (BA_Phases alloc) (BA_Phases alloc)).
  { apply Forall_Forall2_diag, list.Forall_forall. intros g _. split; [done | done | congruence]. }
  unfold put_budget_receipt, put_allocation in Hcase.
  destruct Hcase as [[-> Hput] | (j & f & outcome & t & s1 & Hj & Hc & Hout & -> & Hs1 & Hs2)].
  { apply bind_ok in Hput as (m & _ & Hput). simplify_eq. split_and!; try done. by destruct alloc. }
  apply bind_ok in Hs1 as (m1 & Hm1 & Hs1). apply bind_ok in Hs2 as (m2 & _ & Hs2). simplify_eq. rewrite (Hkeys _ _ Ha) in Hm1.
  pose proof (settled_allocation _ _ _ _ _ _ t Hj Hc Hout) as F2. unfold allocations. cbn. split_and!.
  - by eapply mget_mset_eq.
  - intros id Hne. by rewrite (mget_mset_ne _ _ _ _ _ Hm1).
  - exact F2.
  - by eapply settles_total.
  - by destruct alloc.
Qed.

(** a budget policy takes effect only for the owner, with a recovery floor below
    both limits and complete, current, positive estimates for every phase the
    preflight policy requires of each task; a revision never changes once recorded
    and configuring it again changes nothing; and no new revision moves the
    accounting window or changes the limit of the running cycle. *)
Theorem ConfigureBudget_history e owner policy s s' :
  ConfigureBudget e owner policy s = Ok (tt, s') ->
  let p := canonicalBudgetPolicy policy in
  let h := BudgetPolicyHistory (st_Budget s) in
  let h' := BudgetPolicyHistory (st_Budget s') in
  not_owner s owner = false /\ budget_policy_ok (now e 0) p = true /\ budget_tasks_ok s (now e 0) p = true
  /\ (forall project revision q, mget2 h project revision = Some q -> mget2 h' project revision = Some q)
  /\ (forall old, mget2 h (BP_ProjectID p) (BP_Revision p) = Some old -> s' = s /\ canonicalBudgetPolicy old = p)
  /\ (mget2 h (BP_ProjectID p) (BP_Revision p) = None ->
      mget2 h' (BP_ProjectID p) (BP_Revision p) = Some p /\ mget (budget_policies s') (BP_ProjectID p) = Some p
      /\ allocations s' = allocations s
      /\ forall old, mget (budget_policies s) (BP_ProjectID p) = Some old ->
           BP_WindowOrigin old = BP_WindowOrigin p /\ BP_Window old = BP_Window p
           /\ (BP_CycleID old = BP_CycleID p -> BP_CycleLimit old = BP_CycleLimit p)).
Proof.
  cbv zeta. unfold ConfigureBudget. generalize (canonicalBudgetPolicy policy). intros p H.
  apply bind_ok in H as ([] & Hg & H). apply deny_if_ok in Hg.
  apply bind_ok in H as (swarm & Hsw & H). apply bind_ok in H as ([] & Hh & H).
  apply bind_ok in H as ([] & Ht & H). apply deny_if_ok, negb_false_iff in Ht.
  destruct (mget2 _ (BP_ProjectID p) (BP_Revision p)) as [old |] eqn:Ho in H.
  - apply bind_ok in H as ([] & Hd & H). apply deny_if_ok in Hd. simplify_eq. bool_facts. rewrite Ho.
    split_and!; try done. by intros ? [= <-].
  - apply bind_ok in H as ([] & Hr & H). apply deny_if_ok in Hr.
    apply bind_ok in H as (s1 & Hput & H). simplify_eq. unfold put_budget_policy in Hput.
    apply bind_ok in Hput as (h & Hm & Hput). apply bind_ok in Hput as (m & Hm' & Hput). simplify_eq. bool_facts.
    rewrite Ho. cbn. split_and!; try done.
    + intros project revision q Hq. rewrite (mget2_mset2 _ _ _ _ _ _ _ Hm). case_decide as Hc; [| done].
      destruct Hc as [<- <-]. congruence.
    + intros _. rewrite (mget2_mset2 _ _ _ _ _ _ _ Hm), decide_True by done. unfold budget_policies. cbn.
      split_and!; [done | by eapply mget_mset_eq | done |].
      intros old Hold. unfold resets_accounting in Hr. unfold budget_policies in Hold, Hr. rewrite Hold in Hr.
      apply orb_false_iff in Hr as [Hr1 Hr2]. bool_facts. split_and!; [done | done |].
      intros E. rewrite E, String.eqb_refl in Hr2. simpl in Hr2. by bool_facts.
Qed.

(** ** What the authority keeps about budgets *)

(** Allocations are stored under their dispatch. *)
Definition budget_inv (s : state) : Prop := forall id a, mget (allocations s) id = Some a -> BA_ID a = id.

Definition phase_le (f f' : BudgetPhase) : Prop :=
  (BPh_Phase f' = BPh_Phase f /\ BPh_Estimate f' = BPh_Estimate f) /\ (charged f = true -> f' = f).
#[export] Instance phase_le_preorder : PreOrder phase_le.
Proof.
  split; [done |]. intros f1 f2 f3 [[A1 B1] C1] [[A2 B2] C2]. split; [split; congruence |]. intros H. pose proof (C1 H). subst f2. auto.
Qed.
Definition allocation_le (a a' : BudgetAllocation) : Prop :=
  a' <| BA_Phases := BA_Phases a |> = a /\ Forall2 phase_le (BA_Phases a) (BA_Phases a').
#[export] Instance allocation_le_preorder : PreOrder allocation_le.
Proof.
  split; [intros a; split; [by destruct a | done] |]. intros a b c [<- H1] [<- H2]. split; [done |]. by etrans.
Qed.

(** An allocation is never taken back: its phases keep their estimates and, once
    charged, everything. *)
Record budget_le (s s' : state) : Prop := {
  bl_allocations id a : mget (allocations s) id = Some a -> exists a', mget (allocations s') id = Some a' /\ allocation_le a a';
  bl_policies project revision q : mget2 (BudgetPolicyHistory (st_Budget s)) project revision = Some q ->
    mget2 (BudgetPolicyHistory (st_Budget s')) project revision = Some q
}.
#[export] Instance budget_le_preorder : PreOrder budget_le.
Proof.
  split; [intros s; split; [intros id a Ha; by exists a | done] |]. intros s1 s2 s3 [A1 B1] [A2 B2]. split; [| auto].
  intros id a (b & Hb & L1)%A1. apply A2 in Hb as (c & Hc & L2). exists c. split; [done | by etrans].
Qed.

Lemma budget_keep s s' :
  (forall id, mget (allocations s') id = mget (allocations s) id) ->
  (forall k, mget (BudgetPolicyHistory (st_Budget s')) k = mget (BudgetPolicyHistory (st_Budget s)) k) ->
  (budget_inv s -> budget_inv s') /\ budget_le s s'.
Proof.
  intros E1 E2. split; [intros H id a; rewrite E1; apply H |]. split; [intros id a Ha; exists a; by rewrite E1 |].
  intros project revision q. unfold mget2. by rewrite E2.
Qed.

(** The budget maps change, never between nil and made. *)
Definition budget_change (s s' : state) : Prop :=
  s' = s <| st_Budget := st_Budget s' |> /\ budget_nils s' = budget_nils s /\ (budget_inv s -> budget_inv s' /\ budget_le s s').

Lemma SettleBudget_change e token session r s out s' :
  SettleBudget e token session r s = Ok (out, s') -> budget_change s s'.
Proof.
  intros [(old & _ & _ & ->) | (_ & alloc & digest & Ha & Hcase)]%SettleBudget_ok; [by split_and!; [destruct s | |] |].
  unfold put_budget_receipt, put_allocation in Hcase.
  destruct Hcase as [[-> Hput] | (j & f & outcome & t & s1 & Hj & Hc & Hout & -> & Hs1 & Hs2)].
  { apply bind_ok in Hput as (m & Hm & Hput). simplify_eq. split_and!; [done | | intros Hk; split; [done | by apply budget_keep]].
    unfold budget_nils. cbn. by rewrite (is_nil_mset_eq _ _ _ _ Hm). }
  apply bind_ok in Hs1 as (m1 & Hm1 & Hs1). apply bind_ok in Hs2 as (m2 & Hm2 & Hs2). simplify_eq. split; [done |]. split.
  { unfold budget_nils. cbn. by rewrite (is_nil_mset_eq _ _ _ _ Hm1), (is_nil_mset_eq _ _ _ _ Hm2). }
  intros Hk. rewrite (Hk _ _ Ha) in Hm1. split.
  - intros id a. unfold allocations. cbn. rewrite (mget_mset _ _ _ _ _ Hm1). case_decide as E; [| apply Hk].
    intros [= <-]. cbn. rewrite <- E. by apply Hk.
  - split; [| done]. intros id a Hi. unfold allocations. cbn. rewrite (mget_mset _ _ _ _ _ Hm1). case_decide as E; [| by exists a].
    subst id. rewrite Ha in Hi. injection Hi as <-. eexists. split; [done |]. split; [by destruct alloc |].
    eapply Forall2_impl; [| by apply (settled_allocation _ _ _ _ _ _ t Hj Hc Hout)]. intros g g' [? ? _]. by split.
Qed.

Lemma ConfigureBudget_change e owner policy s s' :
  ConfigureBudget e owner policy s = Ok (tt, s') -> budget_change s s'.
Proof.
  unfold ConfigureBudget. cbv zeta. generalize (canonicalBudgetPolicy policy). intros p H.
  do 4 apply bind_ok in H as (? & _ & H). destruct (mget2 _ (BP_ProjectID p) (BP_Revision p)) as [old |] eqn:Ho in H.
  - apply bind_ok in H as ([] & _ & H). simplify_eq. by split_and!; [destruct s' | |].
  - apply bind_ok in H as ([] & _ & H). apply bind_ok in H as (s1 & Hput & H). simplify_eq. unfold put_budget_policy in Hput.
    apply bind_ok in Hput as (h & Hm & Hput). apply bind_ok in Hput as (m & Hm' & Hput). simplify_eq. split; [done |]. split.
    { unfold budget_nils. cbn. unfold mset2 in Hm. by rewrite (is_nil_mset_eq _ _ _ _ Hm), (is_nil_mset_eq _ _ _ _ Hm'). }
    intros Hk. split; [done |]. split; [intros id a Ha; by exists a |]. intros project revision q Hq. cbn.
    rewrite (mget2_mset2 _ _ _ _ _ _ _ Hm). case_decide as Hc; [| done]. destruct Hc as [<- <-]. congruence.
Qed.

(** An allocation for a new dispatch. *)
Lemma allocateBudget_change s d wave q t s' :
  allocateBudget s d wave q t = Ok s' -> budget_change s s'.
Proof.
  unfold allocateBudget. destruct (negb _); [by intros [= <-]; split_and!; [destruct s | |] |].
  intros H. do 2 apply bind_ok in H as (? & _ & H). apply bind_ok in H as ([] & Hn & H). apply deny_if_ok, mhas_false in Hn.
  unfold put_allocation in H. apply bind_ok in H as (m & Hm & H). injection H as <-. split; [done |]. split.
  { unfold budget_nils. cbn. by rewrite (is_nil_mset_eq _ _ _ _ Hm). }
  intros Hk. split.
  - intros id a. unfold allocations. cbn. rewrite (mget_mset _ _ _ _ _ Hm). case_decide; [by intros [= <-] | apply Hk].
  - split; [| done]. intros id a Ha. exists a. split; [| done]. unfold allocations. cbn.
    rewrite (mget_mset_ne _ _ _ _ _ Hm); [done |]. congruence.
Qed.
