(* ===== verification/Checkpoints.v ===== *)
(** * Checkpoints: reconciliation as the gate of a wave

    native_checkpoints.go and [validateCheckpointRef] of
    native_reconciliation_view.go: the owner's bounds, the history of a project's
    one checkpoint, and the gate a wave consumes.  What a reconciliation observes
    ([reconcileCheckpoint]) is the interface [Reconciliation]: it may fill in its
    own fields and nothing else. *)

From S2P Require Import Prelude Floats GoStd Team Disclosure State Session Withdrawal Resources Attempts Leases Lifecycle Evidence Reviews Encodings Scheduling Preflight.
#[local] Open Scope Z_scope.

(** ** Requests *)

Record CheckpointRequest := mkCheckpointRequest {
  CRq_OperationKey : string; CRq_CheckpointID : string; CRq_ProjectID : string; CRq_InvocationID : string;
  CRq_Phase : string; CRq_ExpectedSequence : Z; CRq_Refs : list CheckpointRefs
}.
#[export] Instance CheckpointRequest_json : ToJSON CheckpointRequest := fun x =>
  JObject [("OperationKey", JString (CRq_OperationKey x)); ("CheckpointID", JString (CRq_CheckpointID x));
    ("ProjectID", JString (CRq_ProjectID x)); ("InvocationID", JString (CRq_InvocationID x));
    ("Phase", JString (CRq_Phase x)); ("ExpectedSequence", JInt (CRq_ExpectedSequence x));
    ("Refs", JArray (map to_json (CRq_Refs x)))]%string.

(** ** The interface of a reconciliation *)

(** The fields [reconcileCheckpoint] assigns, set to those of [out]. *)
Definition reconciled_from (base out : CheckpointStatus) : CheckpointStatus :=
  base <| CS_ObservedAt := CS_ObservedAt out |> <| CS_ObservedTrunk := CS_ObservedTrunk out |>
       <| CS_ObservedTrunkRef := CS_ObservedTrunkRef out |> <| CS_Diagnostics := CS_Diagnostics out |>
       <| CS_PreflightReports := CS_PreflightReports out |> <| CS_GateExpiresAt := CS_GateExpiresAt out |>
       <| CS_Findings := CS_Findings out |> <| CS_Facts := CS_Facts out |>
       <| CS_ProgressDigest := CS_ProgressDigest out |> <| CS_ConditionDigest := CS_ConditionDigest out |>.

(** A reconciliation reads the state, the adapters and the clock; whatever it
    answers, the status it was given is kept outside of these fields. *)
Class Reconciliation := {
  reconcileCheckpoint : Env -> Adapters -> Authority -> state -> CheckpointPolicy -> CheckpointStatus ->
                        string -> string -> prog CheckpointStatus;
  reconcile_keeps e ad au s p base token session n out k :
    exec (reconcileCheckpoint e ad au s p base token session) n = Ok (out, k) -> out = reconciled_from base out
}.

(** ** The policy of the owner *)

Definition zero_checkpoint_policy : CheckpointPolicy := mkCheckpointPolicy 0 "" "" "" [] 0 0 0 false.
Definition checkpoint_policy (s : state) (project : string) : CheckpointPolicy :=
  default zero_checkpoint_policy (mget (checkpoint_policies s) project).

Definition string_order (l : list string) : list string := merge_sort String.le l.
(** Instants are canonical already. *)
Definition canonicalCheckpointPolicy (p : CheckpointPolicy) : CheckpointPolicy :=
  p <| CPol_TaskIDs := string_order (CPol_TaskIDs p) |>.

Definition checkpoint_policy_ok (e : Env) (p : CheckpointPolicy) : bool :=
  let n := Z.of_nat (List.length (CPol_TaskIDs p)) in
  (CPol_SchemaVersion p =? 1) && validID (CPol_ProjectID p) && validID (CPol_Revision p)
  && (CPol_Harness p =? "codex")%string && negb (CPol_MaxCycles p <? 1) && negb (1000 <? CPol_MaxCycles p)
  && negb (CPol_MaxNoProgress p <? 1) && negb (100 <? CPol_MaxNoProgress p) && negb (n =? 0) && negb (256 <? n)
  && (now e 0 <? CPol_ExpiresAt p) && negb (now e 1 + 24 * hour <? CPol_ExpiresAt p).

(** The loop over the sorted tasks: valid, no two neighbours equal, placed. *)
Fixpoint checkpoint_tasks_ok (placements : gomap SwarmPlacement) (before : option string) (tasks : list string) : bool :=
  match tasks with
  | [] => true
  | t :: tasks =>
    validID t && negb (match before with Some b => (t =? b)%string | None => false end) && mhas placements t
    && checkpoint_tasks_ok placements (Some t) tasks
  end.

Definition history_of_project (project : string) (h : list CheckpointStatus) : bool :=
  match h with x :: _ => (CS_ProjectID x =? project)%string | [] => false end.
(** Some checkpoint of the project exists. *)
Definition has_checkpoint (s : state) (project : string) : bool :=
  existsb (history_of_project project) (mvals (checkpoints s)).

Definition same_bounds (old p : CheckpointPolicy) : bool :=
  (CPol_MaxCycles old =? CPol_MaxCycles p) && (CPol_MaxNoProgress old =? CPol_MaxNoProgress p)
  && (CPol_Harness old =? CPol_Harness p)%string && bool_decide (CPol_TaskIDs old = CPol_TaskIDs p).

Definition put_checkpoint_policy (s : state) (p : CheckpointPolicy) : res state :=
  h ← mset2 (CheckpointPolicyHistory (st_Checkpoint s)) (CPol_ProjectID p) (CPol_Revision p) p;
  m ← mset (checkpoint_policies s) (CPol_ProjectID p) p;
  Ok (s <| st_Checkpoint := (st_Checkpoint s) <| CheckpointPolicyHistory := h |> <| CheckpointPolicies := m |> |>).

Definition ConfigureCheckpoints (e : Env) (owner : string) (policy : CheckpointPolicy) : tx unit := fun s =>
  let p := canonicalCheckpointPolicy policy in
  deny_if ((Version s <? 12) || not_owner s owner || negb (checkpoint_policy_ok e p));;
  sw ← must (mget (swarm_policies s) (CPol_ProjectID p));
  deny_if (negb (SP_Harness sw =? CPol_Harness p)%string
           || negb (Nat.eqb (List.length (CPol_TaskIDs p)) (List.length (mentries (SP_Placements sw)))));;
  deny_if (negb (checkpoint_tasks_ok (SP_Placements sw) None (CPol_TaskIDs p)));;
  match mget2 (CheckpointPolicyHistory (st_Checkpoint s)) (CPol_ProjectID p) (CPol_Revision p) with
  | Some old => deny_if (negb (bool_decide (old = p)));; Ok (tt, s)
  | None =>
    deny_if (has_checkpoint s (CPol_ProjectID p) && negb (same_bounds (checkpoint_policy s (CPol_ProjectID p)) p));;
    s' ← put_checkpoint_policy s p; Ok (tt, s')
  end.

(** [checkpointAuth] *)
Definition checkpointAuth (s : state) (token session project action : string) (t : time) : res CheckpointPolicy :=
  r ← controller s token session project action t;
  p ← must (mget (checkpoint_policies s) project);
  deny_if (Version s <? 12);;
  deny_if (negb (forallb (fun task => subset [task_resource task] (r_Resources r)) (CPol_TaskIDs p)));;
  Ok p.

Definition checkpointTask (p : CheckpointPolicy) (task : string) : bool := subset [task] (CPol_TaskIDs p).

(** ** References to producers *)

Definition reference_ids (r : CheckpointRefs) : list string :=
  [CRf_TaskID r; CRf_DispatchID r; CRf_IntentID r; CRf_VerificationKey r; CRf_EvidenceID r; CRf_ReviewID r;
   CRf_IntegrationOperationID r; CRf_AcceptanceOperationID r; CRf_RunnerSession r].

(** A reference that is present must resolve. *)
Definition when_present (id : string) (c : res unit) : res unit := if (id =? "")%string then Ok tt else c.

Definition reference_attempt (s : state) (p : CheckpointPolicy) (r : CheckpointRefs) (attempt : string) : res Attempt :=
  at_ ← reviewAttempt s attempt;
  deny_if (negb (Attempt_ProjectID at_ =? CPol_ProjectID p)%string || negb (at_task at_ =? CRf_TaskID r)%string);;
  Ok at_.

Definition validateCheckpointRef (s : state) (p : CheckpointPolicy) (r : CheckpointRefs) : res unit :=
  deny_if (existsb (fun id => negb (id =? "")%string && negb (validID id)) (reference_ids r));;
  when_present (CRf_DispatchID r)
    (d ← must (mget (dispatches s) (CRf_DispatchID r));
     deny_if (negb (DR_ProjectID d =? CPol_ProjectID p)%string
              || negb (Lease_TaskID (DR_Reservation d) =? CRf_TaskID r)%string));;
  when_present (CRf_IntentID r)
    (i ← must (mget (intents s) (CRf_DispatchID r));
     deny_if (negb (DI_ID i =? CRf_IntentID r)%string || negb (DI_DispatchID i =? CRf_DispatchID r)%string
              || negb (DR_ProjectID (DI_Reservation i) =? CPol_ProjectID p)%string
              || negb (Lease_TaskID (DR_Reservation (DI_Reservation i)) =? CRf_TaskID r)%string));;
  when_present (CRf_EvidenceID r)
    (ev ← must (mget (st_Evidence s) (CRf_EvidenceID r));
     _ ← reference_attempt s p r (Rev_AttemptID (Ev_Revision ev)); Ok tt);;
  when_present (CRf_ReviewID r)
    (rev ← must (mget (Reviews s) (CRf_ReviewID r));
     _ ← reference_attempt s p r (RR_AttemptID (Review_Request rev)); Ok tt);;
  when_present (CRf_VerificationKey r)
    (let v := CRf_Verification r in
     at_ ← reference_attempt s p r (VR_AttemptID v);
     g ← must (mget (Grants s) (VR_GrantID v));
     deny_if (negb (VR_WorkerSession v =? Attempt_SessionID at_)%string
              || negb (VR_OperationKey v =? CRf_VerificationKey r)%string
              || negb (VG_TaskID g =? CRf_TaskID r)%string || negb (VG_RunnerSession g =? CRf_RunnerSession r)%string
              || negb (VG_CheckID g =? VR_CheckID v)%string);;
     match mget (Operations s) (CRf_VerificationKey r) with
     | Some op => deny_if (negb (op_Digest op =? run_digest (VG_CommandDigest g) (CRf_RunnerSession r) v)%string)
     | None => Ok tt
     end).

(** ** Bounds *)

(** The blocker the policy itself raises, with its remedy. *)
Definition bound_at (t : time) (out : CheckpointStatus) (p : CheckpointPolicy) (sw : SwarmPolicy) : option (string * string) :=
  if negb (t <? CPol_ExpiresAt p) || negb (SP_Harness sw =? CPol_Harness p)%string
  then Some ("policy_refusal", "owner must refresh the pinned checkpoint policy")%string
  else if CPol_RequireEnforcedBudget p
  then Some ("budget_usage_unknown", "enforced usage is unavailable; preserve unknown and obtain an authenticated budget producer")%string
  else if CPol_MaxCycles p <=? CS_Cycle out
  then Some ("budget_exhausted", "cycle budget exhausted; owner reconciliation required")%string
  else if CPol_MaxNoProgress p <=? CS_NoProgress out
  then Some ("no_progress", "observe a genuine producer or trunk change; bookkeeping cannot reset this counter")%string
  else None.
Definition bound_class (e : Env) (out : CheckpointStatus) (p : CheckpointPolicy) (sw : SwarmPolicy)
    : prog (option (string * string)) :=
  if SP_Stopped sw then mret (Some ("stopped", "owner must explicitly change the STOP policy"))%string
  else t ← look 1 (now e); mret (bound_at t out p sw).

(** Permanent findings before those worth a retry, each in their order. *)
Definition by_permanence (l : list CheckpointFinding) : list CheckpointFinding :=
  List.filter (fun f => negb (CFi_Retryable f)) l ++ List.filter CFi_Retryable l.

(** The verdict on sorted findings. *)
Definition halt (out : CheckpointStatus) : CheckpointStatus :=
  match CS_Findings out with
  | f :: _ =>
    out <| CS_HaltClass := CFi_Class f |> <| CS_NextAction := CFi_NextAction f |> <| CS_Retryable := CFi_Retryable f |>
        <| CS_WaveAllowed := false |>
  | [] =>
    out <| CS_HaltClass := "ready"%string |> <| CS_NextAction := "reserve exactly one wave using this generation"%string |>
        <| CS_Retryable := true |> <| CS_WaveAllowed := (CS_Phase out =? "pre-cycle")%string |>
  end.

Definition bounded (c : option (string * string)) (out : CheckpointStatus) : CheckpointStatus :=
  let l := by_permanence (CS_Findings out) in
  let l := match c with Some (class, remedy) => mkCheckpointFinding class "known" "" "" remedy false :: l | None => l end in
  halt (out <| CS_Findings := l |> <| CS_BudgetKnowledge := "unknown-provider-usage; owner-estimated-cycle-bound-only"%string |>).

Definition checkpointBounds (e : Env) (out : CheckpointStatus) (p : CheckpointPolicy) (sw : SwarmPolicy)
    : prog CheckpointStatus :=
  c ← bound_class e out p sw; mret (bounded c out).

(** ** Recording *)

Definition checkpoint_phases : list string :=
  ["pre-cycle"; "dispatch"; "verification"; "review"; "integration"; "acceptance"; "halt"]%string.

Definition checkpoint_history (s : state) (id : string) : list CheckpointStatus := default [] (mget (checkpoints s) id).

(** Another checkpoint of the project exists. *)
Definition rival (s : state) (id project : string) : bool :=
  existsb (fun x => negb (x.1 =? id)%string && history_of_project project x.2) (mentries (checkpoints s)).

(** This invocation was reconciled before. *)
Definition reconciled_before (r : CheckpointRequest) (h : list CheckpointStatus) : bool :=
  existsb (fun x => (CS_Phase x =? "pre-cycle")%string && (CS_InvocationID x =? CRq_InvocationID r)%string
                    && negb (CS_ConditionDigest x =? "")%string) h.

Definition new_status (r : CheckpointRequest) (p : CheckpointPolicy) (t : time) : CheckpointStatus :=
  mkCheckpointStatus "" "" [] [] false [] "" 1 (CRq_CheckpointID r) (CRq_ProjectID r) (CRq_InvocationID r) (CRq_Phase r)
    (CPol_Revision p) (CPol_Harness p) (incr_u64 (CRq_ExpectedSequence r)) 0 0 (CPol_MaxCycles p) (CPol_MaxNoProgress p)
    (CRq_Refs r) [] "" "" "" "" "" false false t 0 "".

(** The counters of the last entry; its references may not be dropped. *)
Definition continue_from (r : CheckpointRequest) (p : CheckpointPolicy) (h : list CheckpointStatus)
    (out : CheckpointStatus) : res CheckpointStatus :=
  match list.last h with
  | None => Ok out
  | Some old =>
    deny_if (negb (CS_ProjectID old =? CRq_ProjectID r)%string || negb (CS_Harness old =? CPol_Harness p)%string);;
    deny_if (negb (forallb (fun ref => bool_decide (ref ∈ CRq_Refs r)) (CS_Refs old)));;
    Ok (out <| CS_Cycle := CS_Cycle old |> <| CS_NoProgress := CS_NoProgress old |>
            <| CS_ProgressDigest := CS_ProgressDigest old |>)
  end.

Definition refs_ok (s : state) (p : CheckpointPolicy) (refs : list CheckpointRefs) : bool :=
  forallb (fun ref => checkpointTask p (CRf_TaskID ref) && is_ok (validateCheckpointRef s p ref)) refs.

(** A pending verification is bound to the reference that names it. *)
Definition bind_verification (p : CheckpointPolicy) (s : state) (ref : CheckpointRefs) : res state :=
  if (CRf_VerificationKey ref =? "")%string then Ok s
  else
    match mget (Operations s) (CRf_VerificationKey ref) with
    | Some op =>
      match op_Pending op, op_CheckpointVerification op with
      | true, None =>
        let g := default zero_grant (mget (Grants s) (VR_GrantID (CRf_Verification ref))) in
        let b := mkCheckpointBinding (CPol_ProjectID p) (CRf_TaskID ref) (CRf_RunnerSession ref) (VG_CommandDigest g)
                   (CRf_Verification ref) in
        m ← mset (Operations s) (CRf_VerificationKey ref) (op <| op_CheckpointVerification := Some b |>);
        Ok (s <| Operations := m |>)
      | _, _ => Ok s
      end
    | None => Ok s
    end.
Fixpoint bind_verifications (p : CheckpointPolicy) (s : state) (refs : list CheckpointRefs) : res state :=
  match refs with [] => Ok s | ref :: refs => s ← bind_verification p s ref; bind_verifications p s refs end.

(** The no-progress counter against the last entry. *)
Definition count_progress (r : CheckpointRequest) (h : list CheckpointStatus) (out : CheckpointStatus) : CheckpointStatus :=
  match list.last h with
  | None => out
  | Some old =>
    if (CS_ProgressDigest out =? CS_ProgressDigest old)%string && negb (CS_InvocationID old =? CRq_InvocationID r)%string
       && (CRq_Phase r =? "pre-cycle")%string
    then out <| CS_NoProgress := incr_int (CS_NoProgress out) |>
    else if negb (CS_ProgressDigest old =? "")%string && negb (CS_ProgressDigest out =? CS_ProgressDigest old)%string
    then out <| CS_NoProgress := 0 |>
    else out
  end.

Definition put_history (s : state) (id : string) (h : list CheckpointStatus) : res state :=
  m ← mset (checkpoints s) id h;
  Ok (s <| st_Checkpoint := (st_Checkpoint s) <| Checkpoints := m |> |>).
Definition put_checkpoint_receipt (s : state) (key : string) (r : CheckpointReceipt) : res state :=
  m ← mset (CheckpointOperations (st_Checkpoint s)) key r;
  Ok (s <| st_Checkpoint := (st_Checkpoint s) <| CheckpointOperations := m |> |>).

Section operations.
Context `{Reconciliation} (e : Env) (ad : Adapters) (au : Authority).

(** [reconcileCheckpoint] and the bounds, in force at the end of it. *)
Definition reconcile_history (s : state) (p : CheckpointPolicy) (token session : string) (r : CheckpointRequest)
    (h : list CheckpointStatus) (out : CheckpointStatus) : prog CheckpointStatus :=
  current ← reconcileCheckpoint e ad au s p out token session;
  checkpointBounds e (count_progress r h current) p (swarm_policy s (CPol_ProjectID p)).

Definition recorded (out : CheckpointStatus) : CheckpointStatus :=
  out <| CS_HaltClass := "reconciliation_required"%string |>
      <| CS_NextAction := "reconcile the recorded producer references before another wave"%string |>.

(** Reobserved before it is persisted. *)
Definition reobserve (s : state) (p : CheckpointPolicy) (token session : string) (out : CheckpointStatus) : prog unit :=
  fresh ← reconcileCheckpoint e ad au s p out token session;
  forbid_if (negb (CS_ConditionDigest fresh =? CS_ConditionDigest out)%string).

Definition checkpoint_action (reconcile : bool) : string :=
  (if reconcile then "checkpoint.reconcile" else "checkpoint.record")%string.

Definition writeCheckpointState (token session : string) (r : CheckpointRequest) (reconcile : bool) (s : state)
    : prog (CheckpointStatus * state) :=
  let action := checkpoint_action reconcile in
  t ← look 1 (now e);
  p ← lift (checkpointAuth s token session (CRq_ProjectID r) action t);
  forbid_if (negb (validID (CRq_OperationKey r)) || negb (validID (CRq_CheckpointID r))
             || negb (validID (CRq_InvocationID r)) || (256 <? Z.of_nat (List.length (CRq_Refs r)))
             || negb (subset [CRq_Phase r] checkpoint_phases));;
  let digest := identity action session r in
  match mget (CheckpointOperations (st_Checkpoint s)) (CRq_OperationKey r) with
  | Some old => forbid_if (negb (CRc_Digest old =? digest)%string);; mret (CRc_Status old, s)
  | None =>
    forbid_if (rival s (CRq_CheckpointID r) (CRq_ProjectID r));;
    let h := checkpoint_history s (CRq_CheckpointID r) in
    forbid_if (reconcile && (CRq_Phase r =? "pre-cycle")%string && reconciled_before r h);;
    forbid_if (negb (Z.of_nat (List.length h) =? CRq_ExpectedSequence r));;
    t ← look 1 (now e);
    out ← lift (continue_from r p h (new_status r p t));
    forbid_if (negb (refs_ok s p (CRq_Refs r)));;
    s ← lift (bind_verifications p s (CRq_Refs r));
    out ← (if reconcile then reconcile_history s p token session r h out else mret (recorded out));
    (if reconcile then reobserve s p token session out else mret tt);;
    t ← look 1 (now e);
    _ ← lift (checkpointAuth s token session (CRq_ProjectID r) action t);
    t ← look 1 (now e);
    forbid_if (reconcile && CS_WaveAllowed out && negb (t <? CS_GateExpiresAt out));;
    s ← lift (put_history s (CRq_CheckpointID r) (h ++ [out]));
    s ← lift (put_checkpoint_receipt s (CRq_OperationKey r) (mkCheckpointReceipt digest out));
    mret (out, s)
  end.

Definition writeCheckpoint (token session : string) (r : CheckpointRequest) (reconcile : bool)
    : tx CheckpointStatus := fun s => run (
  t ← look 1 (now e);
  lift (genericControllerMutation s token session t);;
  writeCheckpointState token session r reconcile s).

Definition RecordCheckpoint (token session : string) (r : CheckpointRequest) : tx CheckpointStatus :=
  writeCheckpoint token session r false.
Definition ReconcileCheckpoint (token session : string) (r : CheckpointRequest) : tx CheckpointStatus :=
  writeCheckpoint token session r true.

(** [Authority.CheckpointStatus] *)
Definition ReadCheckpointStatus (token session project id : string) (s : state) : res CheckpointStatus := run (
  t ← look 1 (now e);
  p ← lift (checkpointAuth s token session project "checkpoint.read" t);
  let h := checkpoint_history s id in
  forbid_if (negb (history_of_project project h));;
  old ← lift (must (list.last h));
  forbid_if (negb (refs_ok s p (CS_Refs old)));;
  out ← reconcileCheckpoint e ad au s p old token session;
  t ← look 1 (now e);
  let out := out <| CS_HistoricalConditionDigest := CS_ConditionDigest old |>
                 <| CS_ReconciliationCurrent := (CS_ConditionDigest old =? CS_ConditionDigest out)%string
                      && (t <? CS_GateExpiresAt old) && (CS_ConsumedWave old =? "")%string |> in
  out ← checkpointBounds e out p (swarm_policy s project);
  t ← look 1 (now e);
  _ ← lift (checkpointAuth s token session project "checkpoint.read" t);
  mret (out <| CS_WaveAllowed := false |>)).

(** ** The gate of a wave *)

Definition gate_open (p : CheckpointPolicy) (r : ReserveWaveRequest) (old : CheckpointStatus) (t : time) : bool :=
  (CS_ProjectID old =? CPol_ProjectID p)%string && (CS_Sequence old =? RWR_CheckpointSequence r)
  && (CS_InvocationID old =? RWR_InvocationID r)%string && (CS_ConditionDigest old =? RWR_ReconciliationDigest r)%string
  && (CS_ConsumedWave old =? "")%string && CS_WaveAllowed old && (t <? CS_GateExpiresAt old).

(** The entry that records the wave. *)
Definition consumed (old : CheckpointStatus) (wave : string) : CheckpointStatus :=
  old <| CS_ConsumedWave := wave |> <| CS_Cycle := incr_int (CS_Cycle old) |> <| CS_WaveAllowed := false |>
      <| CS_Sequence := incr_u64 (CS_Sequence old) |>.

Definition consumeCheckpoint (s : state) (token session : string) (r : ReserveWaveRequest) (wave : string) : prog state :=
  let project := SPn_ProjectID (RWR_Plan r) in
  match mget (checkpoint_policies s) project with
  | None => mret s
  | Some p =>
    t ← look 1 (now e);
    _ ← lift (checkpointAuth s token session project "checkpoint.reconcile" t);
    let h := checkpoint_history s (RWR_CheckpointID r) in
    old ← lift (must (list.last h));
    t ← look 1 (now e);
    forbid_if (negb (gate_open p r old t));;
    fresh ← reconcileCheckpoint e ad au s p old token session;
    fresh ← checkpointBounds e fresh p (swarm_policy s (CPol_ProjectID p));
    forbid_if (negb (CS_WaveAllowed fresh) || negb (CS_ConditionDigest fresh =? CS_ConditionDigest old)%string);;
    t1 ← look 1 (now e);
    _ ← lift (checkpointAuth s token session project "checkpoint.reconcile" t1);
    t2 ← look 1 (now e);
    forbid_if (negb (t2 <? CS_GateExpiresAt old));;
    if (wave =? "")%string then mret s else lift (put_history s (CS_ID old) (h ++ [consumed old wave]))
  end.
End operations.
