(* ===== verification/CheckpointLaws.v ===== *)
(** * What the checkpoints promise

    A checkpoint's history only grows, one entry at a time and at the sequence the
    caller expected; a gate that was consumed stays consumed; the waves a project
    ran are the cycle counter of its checkpoint and never exceed the owner's
    bound, which no policy revision can reset.  Every theorem holds for any
    [Reconciliation]. *)

From S2P Require Import Prelude Floats GoStd Team Disclosure State Session Schema Withdrawal Resources Attempts Leases Lifecycle Evidence Reviews Encodings Scheduling Preflight PreflightLaws Checkpoints.
#[local] Open Scope Z_scope.

Lemma last_snoc {A} (l : list A) x : list.last (l ++ [x]) = Some x.
Proof. apply last_snoc. Qed.

(** ** What a verdict means *)

(** A wave may be reserved from [out] under [p]. *)
Record wave_ready (p : CheckpointPolicy) (sw : SwarmPolicy) (out : CheckpointStatus) : Prop := {
  wr_phase : CS_Phase out = "pre-cycle"%string;
  wr_findings : CS_Findings out = [];
  wr_running : SP_Stopped sw = false;
  wr_cycle : CS_Cycle out < CPol_MaxCycles p;
  wr_progress : CS_NoProgress out < CPol_MaxNoProgress p
}.

Lemma halt_allowed out : CS_WaveAllowed (halt out) = true -> CS_Findings out = [] /\ CS_Phase out = "pre-cycle"%string.
Proof. unfold halt. destruct (CS_Findings out); simpl; [by intros ?%String.eqb_eq | done]. Qed.

(** The bounds assign the findings' order and the verdict only. *)
Definition judged_from (base out : CheckpointStatus) : CheckpointStatus :=
  base <| CS_Findings := CS_Findings out |> <| CS_BudgetKnowledge := CS_BudgetKnowledge out |>
       <| CS_HaltClass := CS_HaltClass out |> <| CS_NextAction := CS_NextAction out |>
       <| CS_Retryable := CS_Retryable out |> <| CS_WaveAllowed := CS_WaveAllowed out |>.

Lemma bounded_judged c out : bounded c out = judged_from out (bounded c out).
Proof.
  unfold bounded, halt. cbv zeta. cbn. by destruct (match c with Some _ => _ | None => _ end).
Qed.

Lemma bound_at_none t out p sw :
  bound_at t out p sw = None -> CS_Cycle out < CPol_MaxCycles p /\ CS_NoProgress out < CPol_MaxNoProgress p.
Proof.
  unfold bound_at. destruct (_ || _); [done |]. destruct (CPol_RequireEnforcedBudget p); [done |].
  destruct (_ <=? _) eqn:E1; [done |]. destruct (_ <=? _) eqn:E2 in |- *; [done |]. lia.
Qed.

Lemma checkpointBounds_ok e out p sw n out' k :
  exec (checkpointBounds e out p sw) n = Ok (out', k) ->
  out' = judged_from out out' /\ (CS_WaveAllowed out' = true -> wave_ready p sw out').
Proof.
  unfold checkpointBounds, bound_class. intros H. apply prog_bind_ok in H as (c & j & Hc & H). apply mret_ok in H as [-> _].
  split; [apply bounded_judged |]. intros Ha. pose proof Ha as Ha'. unfold bounded in Ha'. apply halt_allowed in Ha' as [Hf Hp].
  cbn in Hf, Hp. rewrite bounded_judged in |- *.
  destruct (SP_Stopped sw) eqn:Es.
  { apply mret_ok in Hc as [-> _]. discriminate Hf. }
  apply prog_bind_ok in Hc as (t & j' & _ & Hc). apply mret_ok in Hc as [-> _].
  destruct (bound_at t out p sw) as [[]|] eqn:Eb; [discriminate Hf |].
  apply bound_at_none in Eb as [? ?].
  split; cbn; [done | | done | done | done]. unfold bounded, halt. cbn. by rewrite Hf.
Qed.

(** ** Histories *)

Definition is_wave (x : CheckpointStatus) : bool := negb (CS_ConsumedWave x =? "")%string.
Definition waves (h : list CheckpointStatus) : Z := Z.of_nat (List.length (List.filter is_wave h)).
Definition cycle_of (h : list CheckpointStatus) : Z :=
  match list.last h with Some x => CS_Cycle x | None => 0 end.
(** The cycle counter counts the waves, and every entry is under its own key. *)
Definition counted_history (id : string) (h : list CheckpointStatus) : Prop :=
  cycle_of h = waves h /\ Forall (fun x => CS_ID x = id) h.

Lemma waves_snoc h x : waves (h ++ [x]) = waves h + (if is_wave x then 1 else 0).
Proof. unfold waves. rewrite List.filter_app, List.length_app. simpl. destruct (is_wave x); simpl; lia. Qed.

Lemma counted_snoc id h x :
  counted_history id h -> CS_ID x = id -> CS_Cycle x = cycle_of h + (if is_wave x then 1 else 0) ->
  counted_history id (h ++ [x]).
Proof.
  intros [Hc Hi] Hx Hn. split.
  - unfold cycle_of at 1. rewrite last_snoc, waves_snoc. lia.
  - apply List.Forall_app. split; [done | by constructor].
Qed.

Lemma history_put s id h s' id' :
  put_history s id h = Ok s' -> checkpoint_history s' id' = if decide (id = id') then h else checkpoint_history s id'.
Proof.
  unfold put_history, checkpoint_history, checkpoints. intros H. apply bind_ok in H as (m & Hm & H). simplify_eq. cbn.
  rewrite (mget_mset _ _ _ _ _ Hm). by case_decide.
Qed.

Lemma continue_from_ok r p h out out' :
  continue_from r p h out = Ok out' ->
  (exists c n d, out' = out <| CS_Cycle := c |> <| CS_NoProgress := n |> <| CS_ProgressDigest := d |>)
  /\ (CS_Cycle out = 0 -> CS_Cycle out' = cycle_of h)
  /\ forall old, list.last h = Some old ->
       CS_ProjectID old = CRq_ProjectID r /\ forall ref, ref ∈ CS_Refs old -> ref ∈ CRq_Refs r.
Proof.
  unfold continue_from, cycle_of. destruct (list.last h) as [old |].
  - intros H. apply bind_ok in H as ([] & H1 & H). apply bind_ok in H as ([] & H2 & H). simplify_eq.
    apply deny_if_ok in H1, H2. bool_facts. split_and!; [by eexists _, _, _ | done |].
    intros ? [= <-]. split; [done |]. intros ref Hr. rewrite forallb_elem in H2. specialize (H2 ref Hr).
    by apply bool_decide_eq_true in H2.
  - intros [= <-]. split_and!; [by exists (CS_Cycle out), (CS_NoProgress out), (CS_ProgressDigest out); destruct out | done | done].
Qed.

(** ** Writing an entry *)

(** The fields no reconciliation and no verdict changes. *)
Definition entry_key (x : CheckpointStatus) :=
  (CS_ID x, CS_ProjectID x, CS_InvocationID x, CS_Phase x, CS_Sequence x, CS_Cycle x, CS_Refs x, CS_ConsumedWave x).

Lemma count_progress_key r h out : entry_key (count_progress r h out) = entry_key out.
Proof. unfold count_progress. destruct (list.last h); [| done]. repeat case_match; done. Qed.

Lemma bind_verification_frame p s ref s' :
  bind_verification p s ref = Ok s' -> s' = s <| Operations := Operations s' |>.
Proof.
  unfold bind_verification. destruct (_ =? _)%string; [by intros [= <-]; destruct s |].
  destruct (mget (Operations s) _) as [op |]; [| by intros [= <-]; destruct s].
  destruct (op_Pending op), (op_CheckpointVerification op); try (by intros [= <-]; destruct s).
  intros H. apply bind_ok in H as (m & Hm & H). by simplify_eq.
Qed.

(** A bound operation has its binding set, and nothing else changed. *)
Definition bound_operation (op op' : operation) : Prop :=
  op' = op \/ op_Pending op = true /\ op_CheckpointVerification op = None
              /\ exists b, op' = op <| op_CheckpointVerification := Some b |>.

Lemma bind_verification_ops p s ref s' key op :
  bind_verification p s ref = Ok s' -> mget (Operations s) key = Some op ->
  exists op', mget (Operations s') key = Some op' /\ bound_operation op op'.
Proof.
  unfold bind_verification. intros H Hk.
  assert (same : exists op', mget (Operations s) key = Some op' /\ bound_operation op op') by (exists op; split; [done | by left]).
  destruct (_ =? _)%string; [by simplify_eq |].
  destruct (mget (Operations s) _) as [o |] eqn:Eo; [| by simplify_eq].
  destruct (op_Pending o) eqn:E1; [| by simplify_eq]. destruct (op_CheckpointVerification o) eqn:E2; [by simplify_eq |].
  apply bind_ok in H as (m & Hm & H). simplify_eq. cbn. rewrite (mget_mset _ _ _ _ _ Hm).
  case_decide as E; [| done]. subst key. simplify_eq. eexists. split; [done |]. right. eauto.
Qed.

Lemma bind_verifications_frame p s refs s' :
  bind_verifications p s refs = Ok s' -> s' = s <| Operations := Operations s' |>.
Proof.
  revert s. induction refs as [| ref refs IH]; intros s; simpl; [by intros [= <-]; destruct s |].
  intros H. apply bind_ok in H as (s1 & H1 & H2). apply bind_verification_frame in H1. rewrite (IH _ H2), H1. done.
Qed.

Lemma bind_verifications_ops p s refs s' key op :
  bind_verifications p s refs = Ok s' -> mget (Operations s) key = Some op ->
  exists op', mget (Operations s') key = Some op' /\ bound_operation op op'.
Proof.
  revert s op. induction refs as [| ref refs IH]; intros s op; simpl.
  - intros [= <-] Hk. exists op. split; [done | by left].
  - intros H Hk. apply bind_ok in H as (s1 & H1 & H2). destruct (bind_verification_ops _ _ _ _ _ _ H1 Hk) as (o1 & Ho1 & B1).
    destruct (IH _ _ H2 Ho1) as (o2 & Ho2 & B2). exists o2. split; [done |].
    destruct B1 as [-> | (Hp & Hn & b & ->)]; [done |]. right. split_and!; [done.. |].
    destruct B2 as [-> | (_ & Hn2 & _)]; [eauto | done].
Qed.

(** A wave may be reserved from the entry: it is a reconciliation of this
    invocation, the first of it, that found nothing in the way. *)
Definition admits (s : state) (r : CheckpointRequest) (reconcile : bool) (out : CheckpointStatus) : Prop :=
  reconcile = true /\ reconciled_before r (checkpoint_history s (CRq_CheckpointID r)) = false
  /\ exists p, mget (checkpoint_policies s) (CRq_ProjectID r) = Some p
       /\ wave_ready p (swarm_policy s (CPol_ProjectID p)) out.

(** [out] is a new entry of the history of the request. *)
Record entry_of (s : state) (r : CheckpointRequest) (out : CheckpointStatus) : Prop := {
  eo_id : CS_ID out = CRq_CheckpointID r;
  eo_project : CS_ProjectID out = CRq_ProjectID r;
  eo_invocation : CS_InvocationID out = CRq_InvocationID r;
  eo_sequence : CS_Sequence out = incr_u64 (Z.of_nat (List.length (checkpoint_history s (CRq_CheckpointID r))));
  eo_cycle : CS_Cycle out = cycle_of (checkpoint_history s (CRq_CheckpointID r));
  eo_unconsumed : CS_ConsumedWave out = ""%string;
  eo_last old : list.last (checkpoint_history s (CRq_CheckpointID r)) = Some old -> CS_ProjectID old = CRq_ProjectID r;
  eo_refs : forall old ref, list.last (checkpoint_history s (CRq_CheckpointID r)) = Some old -> ref ∈ CS_Refs old -> ref ∈ CS_Refs out
}.

Lemma rival_none s id project other :
  rival s id project = false -> other <> id -> history_of_project project (checkpoint_history s other) = false.
Proof.
  intros Hr Hne. unfold rival in Hr. rewrite existsb_not_elem in Hr. unfold checkpoint_history.
  destruct (mget (checkpoints s) other) as [h |] eqn:Eh; [| done].
  specialize (Hr (other, h)). rewrite elem_of_mentries in Hr. specialize (Hr Eh). cbn in Hr.
  apply andb_false_iff in Hr as [Hr | Hr]; [| done]. by bool_facts.
Qed.

(** The histories behind a written entry. *)
Lemma written_history p s refs s1 id h out s2 key rec s' other :
  bind_verifications p s refs = Ok s1 -> put_history s1 id (h ++ [out]) = Ok s2 -> put_checkpoint_receipt s2 key rec = Ok s' ->
  checkpoint_history s' other = if decide (id = other) then h ++ [out] else checkpoint_history s other.
Proof.
  intros Hs1 Hs2 Hs3. unfold put_checkpoint_receipt in Hs3. apply bind_ok in Hs3 as (m & Hm & Hs3). simplify_eq.
  transitivity (checkpoint_history s2 other); [done |]. rewrite (history_put _ _ _ _ _ Hs2). case_decide; [done |].
  by rewrite (bind_verifications_frame _ _ _ _ Hs1).
Qed.

Lemma entry_counted s r out :
  entry_of s r out -> counted_history (CRq_CheckpointID r) (checkpoint_history s (CRq_CheckpointID r)) ->
  counted_history (CRq_CheckpointID r) (checkpoint_history s (CRq_CheckpointID r) ++ [out]).
Proof.
  intros [Hid _ _ _ Hcy Hw _ _] Hc. apply counted_snoc; [done | done |]. unfold is_wave. rewrite Hw. simpl. lia.
Qed.

Section laws.
Context `{Reconciliation} (e : Env) (ad : Adapters) (au : Authority).

Lemma reconcile_history_ok s p token session r h out n out' k :
  exec (reconcile_history e ad au s p token session r h out) n = Ok (out', k) ->
  entry_key out' = entry_key out /\ (CS_WaveAllowed out' = true -> wave_ready p (swarm_policy s (CPol_ProjectID p)) out').
Proof.
  unfold reconcile_history. intros H1. apply prog_bind_ok in H1 as (c & j & Hc & H1).
  apply reconcile_keeps in Hc. apply checkpointBounds_ok in H1 as [E Ha]. split; [| done].
  rewrite E. transitivity (entry_key (count_progress r h c)); [done |]. rewrite count_progress_key, Hc. done.
Qed.

Lemma writeCheckpointState_ok token session r reconcile s n out s' k :
  exec (writeCheckpointState e ad au token session r reconcile s) n = Ok ((out, s'), k) ->
  (exists old, mget (CheckpointOperations (st_Checkpoint s)) (CRq_OperationKey r) = Some old
     /\ out = CRc_Status old /\ s' = s)
  \/ mget (CheckpointOperations (st_Checkpoint s)) (CRq_OperationKey r) = None
     /\ rival s (CRq_CheckpointID r) (CRq_ProjectID r) = false
     /\ is_Some (mget (checkpoint_policies s) (CRq_ProjectID r)) /\ 12 <= Version s
     /\ Z.of_nat (List.length (checkpoint_history s (CRq_CheckpointID r))) = CRq_ExpectedSequence r
     /\ entry_of s r out
     /\ (CS_WaveAllowed out = true -> admits s r reconcile out)
     /\ (exists s1 s2 digest, bind_verifications (checkpoint_policy s (CRq_ProjectID r)) s (CRq_Refs r) = Ok s1
          /\ put_history s1 (CRq_CheckpointID r) (checkpoint_history s (CRq_CheckpointID r) ++ [out]) = Ok s2
          /\ put_checkpoint_receipt s2 (CRq_OperationKey r) (mkCheckpointReceipt digest out) = Ok s').
Proof.
  unfold writeCheckpointState. cbv zeta. intros E. apply prog_bind_ok in E as (t & j & _ & E).
  apply prog_bind_ok in E as (p & j1 & Hp & E). apply lift_ok in Hp as [Hp _].
  unfold checkpointAuth in Hp. apply bind_ok in Hp as (a & _ & Hp). apply bind_ok in Hp as (p' & Hp' & Hp).
  apply must_ok in Hp'. apply bind_ok in Hp as ([] & Hver & Hp). apply deny_if_ok, Z.ltb_ge in Hver.
  apply bind_ok in Hp as ([] & _ & Hp). simplify_eq.
  apply prog_bind_ok in E as ([] & j2 & _ & E).
  destruct (mget (CheckpointOperations _) _) as [old |] eqn:Eop.
  { apply prog_bind_ok in E as ([] & j3 & _ & E). apply mret_ok in E as [E _]. simplify_eq. left. eauto. }
  right. apply prog_bind_ok in E as ([] & j3 & Hr & E). apply forbid_if_ok in Hr as [Hr _].
  apply prog_bind_ok in E as ([] & j4 & Hb & E). apply forbid_if_ok in Hb as [Hb _].
  apply prog_bind_ok in E as ([] & j5 & Hn & E). apply forbid_if_ok in Hn as [Hn _]. bool_facts.
  apply prog_bind_ok in E as (t2 & j6 & _ & E). apply prog_bind_ok in E as (o1 & j7 & Ho & E).
  apply lift_ok in Ho as [Ho _]. apply continue_from_ok in Ho as ((c & np & d & ->) & Hc & Hrefs). specialize (Hc eq_refl).
  apply prog_bind_ok in E as ([] & j8 & _ & E). apply prog_bind_ok in E as (s1 & j9 & Hs1 & E). apply lift_ok in Hs1 as [Hs1 _].
  apply prog_bind_ok in E as (o2 & j10 & Ho2 & E). apply prog_bind_ok in E as ([] & j11 & _ & E).
  apply prog_bind_ok in E as (t3 & j12 & _ & E). apply prog_bind_ok in E as (p3 & j13 & _ & E).
  apply prog_bind_ok in E as (t4 & j14 & _ & E). apply prog_bind_ok in E as ([] & j15 & _ & E).
  apply prog_bind_ok in E as (s2 & j16 & Hs2 & E). apply lift_ok in Hs2 as [Hs2 _].
  apply prog_bind_ok in E as (s3 & j17 & Hs3 & E). apply lift_ok in Hs3 as [Hs3 _].
  apply mret_ok in E as [E _]. injection E as <- <-.
  assert (Hkey : entry_key out = entry_key ((new_status r p t2) <| CS_Cycle := c |>)
                 /\ (CS_WaveAllowed out = true -> reconcile = true /\ wave_ready p (swarm_policy s1 (CPol_ProjectID p)) out)).
  { destruct reconcile; [| by apply mret_ok in Ho2 as [-> _]].
    apply reconcile_history_ok in Ho2 as [-> Hw]. split; [done |]. intros Ha. split; [done | by apply Hw]. }
  destruct Hkey as [Hkey Hw]. unfold entry_key in Hkey. cbn in Hkey, Hc. injection Hkey as ? ? ? Hph ? ? ? ?.
  split_and!; [done | done | by eexists | done | done | | |].
  - split; try congruence.
    + intros old Hl. by destruct (Hrefs _ Hl).
    + intros old ref Hl Hin. destruct (Hrefs _ Hl) as [_ Hr']. apply Hr' in Hin. congruence.
  - intros Ha. destruct (Hw Ha) as [-> Hready]. split; [done |]. split.
    + destruct Hready as [Hpre _ _ _ _]. rewrite Hph in Hpre. rewrite Hpre in Hb. done.
    + exists p. split; [done |]. apply bind_verifications_frame in Hs1. rewrite Hs1 in Hready. done.
  - exists s1, s2. unfold checkpoint_policy. rewrite Hp'. eauto.
Qed.

(** writing a checkpoint is answered once per operation key; a new request appends
    exactly one entry, at the sequence its history has reached, to the only
    checkpoint of the project, keeps every reference recorded before and the cycle
    counter, binds pending verifications without completing any, and lets a wave
    through only after the first reconciliation of the invocation found nothing in
    the way and both counters below the owner's bounds; the counter keeps counting
    the waves *)
Theorem writeCheckpoint_appends token session r reconcile s out s' :
  writeCheckpoint e ad au token session r reconcile s = Ok (out, s') ->
  let id := CRq_CheckpointID r in
  (forall old, mget (CheckpointOperations (st_Checkpoint s)) (CRq_OperationKey r) = Some old ->
     out = CRc_Status old /\ s' = s)
  /\ (mget (CheckpointOperations (st_Checkpoint s)) (CRq_OperationKey r) = None ->
      (forall other, other <> id -> history_of_project (CRq_ProjectID r) (checkpoint_history s other) = false)
      /\ entry_of s r out
      /\ (CS_WaveAllowed out = true -> admits s r reconcile out)
      /\ (forall other, checkpoint_history s' other = if decide (id = other) then checkpoint_history s id ++ [out] else checkpoint_history s other)
      /\ (counted_history id (checkpoint_history s id) -> counted_history id (checkpoint_history s' id))
      /\ (exists rec, mget (CheckpointOperations (st_Checkpoint s')) (CRq_OperationKey r) = Some rec /\ CRc_Status rec = out)
      /\ (forall key op, mget (Operations s) key = Some op ->
           exists op', mget (Operations s') key = Some op' /\ bound_operation op op')).
Proof.
  unfold writeCheckpoint. cbv zeta. intros E. apply run_ok in E as [k E]. apply prog_bind_ok in E as (t & j & _ & E).
  apply prog_bind_ok in E as ([] & j1 & _ & E).
  apply writeCheckpointState_ok in E as [(old & Ho & -> & ->) | (Ho & Hr & _ & _ & _ & He & Ha & s1 & s2 & digest & Hs1 & Hs2 & Hs3)];
    rewrite Ho; (split; [intros ? [= <-] || done | intros ?]); try done.
  pose proof (fun other => written_history _ _ _ _ _ _ _ _ _ _ _ other Hs1 Hs2 Hs3) as Hh.
  split_and!; [| done | done | done | | |].
  - intros other Hne. by eapply rival_none.
  - intros Hc. rewrite Hh, decide_True by done. by eapply entry_counted.
  - unfold put_checkpoint_receipt in Hs3. apply bind_ok in Hs3 as (m & Hm & Hs3). simplify_eq. cbn.
    rewrite (mget_mset_eq _ _ _ _ Hm). by eexists.
  - intros key op Hk. destruct (bind_verifications_ops _ _ _ _ _ _ Hs1 Hk) as (op' & Hk' & B). exists op'. split; [| done].
    unfold put_checkpoint_receipt, put_history in *. apply bind_ok in Hs3 as (m & _ & Hs3). apply bind_ok in Hs2 as (m2 & _ & Hs2).
    by simplify_eq.
Qed.

(** A consumption that goes through, and what it leaves. *)
Lemma consumeCheckpoint_ok s token session r wave n s' k p :
  exec (consumeCheckpoint e ad au s token session r wave) n = Ok (s', k) ->
  mget (checkpoint_policies s) (SPn_ProjectID (RWR_Plan r)) = Some p ->
  exists old t fresh, list.last (checkpoint_history s (RWR_CheckpointID r)) = Some old
    /\ gate_open p r old t = true /\ entry_key fresh = entry_key old /\ CS_NoProgress fresh = CS_NoProgress old
    /\ wave_ready p (swarm_policy s (CPol_ProjectID p)) fresh
    /\ if (wave =? "")%string then s' = s
       else put_history s (CS_ID old) (checkpoint_history s (RWR_CheckpointID r) ++ [consumed old wave]) = Ok s'.
Proof.
  unfold consumeCheckpoint. intros E Hp. rewrite Hp in E.
  apply prog_bind_ok in E as (t & j & _ & E). apply prog_bind_ok in E as (p' & j1 & _ & E). cbv zeta in E.
  apply prog_bind_ok in E as (old & j2 & Ho & E). apply lift_ok in Ho as [Ho _]. apply must_ok in Ho.
  apply prog_bind_ok in E as (t1 & j3 & _ & E). apply prog_bind_ok in E as ([] & j4 & Hg & E).
  apply forbid_if_ok in Hg as [Hg _]. apply negb_false_iff in Hg.
  apply prog_bind_ok in E as (f1 & j5 & Hf1 & E). apply reconcile_keeps in Hf1.
  apply prog_bind_ok in E as (f2 & j6 & Hf2 & E). apply checkpointBounds_ok in Hf2 as [Hf2 Hready].
  apply prog_bind_ok in E as ([] & j7 & Ha & E). apply forbid_if_ok in Ha as [Ha _]. bool_facts.
  apply prog_bind_ok in E as (t2 & j8 & _ & E). apply prog_bind_ok in E as (p2 & j9 & _ & E).
  apply prog_bind_ok in E as (t3 & j10 & _ & E). apply prog_bind_ok in E as ([] & j11 & _ & E).
  exists old, t1, f2. split_and!; [done | done | by rewrite Hf2, Hf1 | by rewrite Hf2, Hf1 | by apply Hready |].
  destruct (wave =? "")%string; [by apply mret_ok in E as [-> _] | by apply lift_ok in E as [E _]].
Qed.

End laws.

(** C26: a wave consumes its gate: when the project is under checkpoints, the last entry
    of the history is the one the caller names, unconsumed and in force, the project
    is not stopped and both counters are below the owner's bounds; the consumption
    appends one entry that records the wave and changes nothing else; the waves
    counted stay within the bound, and no later wave of any controller passes the
    same gate *)
Theorem gate_consumed_once `{Reconciliation} e ad au s token session r wave n s' k p :
  exec (consumeCheckpoint e ad au s token session r wave) n = Ok (s', k) -> wave <> ""%string ->
  mget (checkpoint_policies s) (SPn_ProjectID (RWR_Plan r)) = Some p -> CPol_MaxCycles p <= max_int64 ->
  let id := RWR_CheckpointID r in
  counted_history id (checkpoint_history s id) ->
  exists old t, list.last (checkpoint_history s id) = Some old /\ gate_open p r old t = true
    /\ SP_Stopped (swarm_policy s (CPol_ProjectID p)) = false /\ CS_NoProgress old < CPol_MaxNoProgress p
    /\ (forall other, checkpoint_history s' other = if decide (id = other) then checkpoint_history s id ++ [consumed old wave] else checkpoint_history s other)
    /\ s' = s <| st_Checkpoint := (st_Checkpoint s) <| Checkpoints := checkpoints s' |> |>
    /\ counted_history id (checkpoint_history s' id) /\ waves (checkpoint_history s' id) = waves (checkpoint_history s id) + 1
    /\ waves (checkpoint_history s' id) <= CPol_MaxCycles p
    /\ forall e' ad' au' token' session' r' wave' n', SPn_ProjectID (RWR_Plan r') = SPn_ProjectID (RWR_Plan r) ->
         RWR_CheckpointID r' = id -> is_ok (exec (consumeCheckpoint e' ad' au' s' token' session' r' wave') n') = false.
Proof.
  cbv zeta. intros E Hw Hp Hmax Hcount. remember (RWR_CheckpointID r) as id eqn:Eid. destruct (consumeCheckpoint_ok _ _ _ _ _ _ _ _ _ _ _ _ E Hp) as (old & t & fresh & Hl & Hg & Hk & Hnp & Hready & Hput).
  rewrite <- Eid in Hl, Hput.
  destruct Hready as [_ _ Hstop Hcy Hpr]. unfold entry_key in Hk. injection Hk as ? ? ? ? ? Hcyc ? ?.
  destruct (wave =? "")%string eqn:Ew; [bool_facts; done |].
  assert (Hid : CS_ID old = id).
  { destruct Hcount as [_ Hall]. rewrite List.Forall_forall in Hall. apply Hall.
    apply last_Some in Hl as [l Hl]. rewrite Hl. apply in_or_app. right. by left. }
  assert (Hh := fun other => history_put _ _ _ _ other Hput). rewrite Hid in Hh.
  assert (Hinc : incr_int (CS_Cycle old) = CS_Cycle old + 1).
  { unfold incr_int. destruct (_ =? _) eqn:Em; [bool_facts; lia | done]. }
  assert (Hwave : is_wave (consumed old wave) = true) by (unfold is_wave; cbn; by rewrite Ew).
  assert (Hcycle : cycle_of (checkpoint_history s id) = CS_Cycle old) by (unfold cycle_of; by rewrite Hl).
  assert (Hthis : checkpoint_history s' id = checkpoint_history s id ++ [consumed old wave]) by (by rewrite Hh, decide_True).
  exists old, t. split_and!; [done | done | done | lia | done | | | | |].
  - unfold put_history in Hput. apply bind_ok in Hput as (m & _ & Hput). by simplify_eq.
  - rewrite Hthis. apply counted_snoc; [done | by rewrite <- Hid |]. rewrite Hwave. cbn. lia.
  - rewrite Hthis, waves_snoc, Hwave. done.
  - rewrite Hthis, waves_snoc, Hwave. destruct Hcount as [Hc _]. lia.
  - intros e' ad' au' token' session' r' wave' n' Hpr' Hcid. destruct (exec _ n') as [[s2 k2] |] eqn:E2; [| done].
    assert (Hp2 : mget (checkpoint_policies s') (SPn_ProjectID (RWR_Plan r')) = Some p).
    { unfold put_history in Hput. apply bind_ok in Hput as (m & _ & Hput). rewrite Hpr'. by simplify_eq. }
    destruct (consumeCheckpoint_ok _ _ _ _ _ _ _ _ _ _ _ _ E2 Hp2) as (x & t2 & _ & Hl2 & Hg2 & _).
    rewrite Hcid, Hthis, last_snoc in Hl2. injection Hl2 as <-. unfold gate_open in Hg2. bool_facts. done.
Qed.

(** Sorted and without equal neighbours: without repetition. *)
Lemma checkpoint_tasks_NoDup placements b l :
  StronglySorted String.le l -> checkpoint_tasks_ok placements b l = true -> NoDup l.
Proof.
  intros Hs. revert b. induction Hs as [| t l Hs IH Ht]; intros b H; [constructor |].
  simpl in H. bool_facts. constructor; [| by eapply IH]. intros Hin.
  destruct l as [| t2 l]; [by apply not_elem_of_nil in Hin |]. simpl in *. bool_facts.
  assert (Hle : String.le t2 t).
  { apply elem_of_cons in Hin as [-> | Hin]; [reflexivity |]. inversion_clear Hs as [| ? ? _ Hf].
    rewrite list.Forall_forall in Hf. by apply Hf. }
  inversion_clear Ht as [| ? ? Hle' _]. assert (t2 = t) by by apply (anti_symm String.le). done.
Qed.

(** a checkpoint policy takes effect only for the owner and only under a revision
    that was never used for other content, its history is never rewritten, and once
    the project has a checkpoint no revision changes the bounds, the harness or the
    tasks *)
Theorem ConfigureCheckpoints_bounds e owner policy s s' :
  ConfigureCheckpoints e owner policy s = Ok (tt, s') ->
  let p := canonicalCheckpointPolicy policy in
  let h := CheckpointPolicyHistory (st_Checkpoint s) in
  let h' := CheckpointPolicyHistory (st_Checkpoint s') in
  not_owner s owner = false /\ 12 <= Version s /\ checkpoint_policy_ok e p = true
  /\ NoDup (CPol_TaskIDs p)
  /\ (forall project revision q, mget2 h project revision = Some q -> mget2 h' project revision = Some q)
  /\ mget2 h' (CPol_ProjectID p) (CPol_Revision p) = Some p
  /\ checkpoints s' = checkpoints s
  /\ (mget2 h (CPol_ProjectID p) (CPol_Revision p) <> None -> s' = s)
  /\ (mget2 h (CPol_ProjectID p) (CPol_Revision p) = None ->
      mget (checkpoint_policies s') (CPol_ProjectID p) = Some p
      /\ forall id old, history_of_project (CPol_ProjectID p) (checkpoint_history s id) = true ->
           mget (checkpoint_policies s) (CPol_ProjectID p) = Some old ->
           CPol_MaxCycles p = CPol_MaxCycles old /\ CPol_MaxNoProgress p = CPol_MaxNoProgress old
           /\ CPol_Harness p = CPol_Harness old /\ CPol_TaskIDs p = CPol_TaskIDs old).
Proof.
  cbv zeta. unfold ConfigureCheckpoints. intros H.
  apply bind_ok in H as ([] & Hg & H). apply deny_if_ok in Hg.
  apply bind_ok in H as (sw & _ & H). apply bind_ok in H as ([] & _ & H).
  apply bind_ok in H as ([] & Ht & H). apply deny_if_ok, negb_false_iff in Ht. bool_facts.
  apply checkpoint_tasks_NoDup in Ht; [| apply StronglySorted_merge_sort; apply _].
  destruct (mget2 _ (CPol_ProjectID _) _) as [old |] eqn:Ho in H.
  - apply bind_ok in H as ([] & Hd & H). apply deny_if_ok, negb_false_iff in Hd. simplify_eq. bool_facts. subst old.
    rewrite Ho. split_and!; done.
  - apply bind_ok in H as ([] & Hb & H). apply deny_if_ok in Hb. apply bind_ok in H as (s1 & Hput & H). simplify_eq.
    unfold put_checkpoint_policy in Hput.
    apply bind_ok in Hput as (h & Hm & Hput). apply bind_ok in Hput as (m & Hm' & Hput). simplify_eq. cbn.
    split_and!; try done.
    + intros project revision q Hq. rewrite (mget2_mset2 _ _ _ _ _ _ _ Hm). case_decide as Hc; [| done].
      destruct Hc as [<- <-]. simpl in *. congruence.
    + rewrite (mget2_mset2 _ _ _ _ _ _ _ Hm). by rewrite decide_True.
    + intros _. split; [by eapply mget_mset_eq |].
      change (CPol_ProjectID (canonicalCheckpointPolicy policy)) with (CPol_ProjectID policy) in Hb.
      intros id old Hh Hold. unfold has_checkpoint, checkpoint_policy in Hb. rewrite Hold in Hb.
      apply andb_false_iff in Hb as [Hb | Hb].
      * rewrite existsb_not_elem in Hb. unfold checkpoint_history in Hh. destruct (mget (checkpoints s) id) as [l |] eqn:El; [| done].
        rewrite Hb in Hh; [done |]. apply elem_of_mvals. eauto.
      * unfold same_bounds in Hb. bool_facts. simpl in *. by split_and!.
Qed.

(** ** What the authority keeps about checkpoints *)

(** A project has one checkpoint, whose waves are counted and within the owner's
    bound. *)
Record checkpoint_inv (s : state) : Prop := {
  ck_policy k p : mget (checkpoint_policies s) k = Some p -> CPol_ProjectID p = k /\ 0 <= CPol_MaxCycles p <= 1000;
  ck_counted id : counted_history id (checkpoint_history s id);
  ck_single id1 id2 x y : x ∈ checkpoint_history s id1 -> y ∈ checkpoint_history s id2 ->
    CS_ProjectID x = CS_ProjectID y -> id1 = id2;
  ck_project id x y : x ∈ checkpoint_history s id -> y ∈ checkpoint_history s id -> CS_ProjectID x = CS_ProjectID y;
  ck_bounded id x : x ∈ checkpoint_history s id ->
    exists p, mget (checkpoint_policies s) (CS_ProjectID x) = Some p /\ waves (checkpoint_history s id) <= CPol_MaxCycles p
}.

(** Histories only grow, and so do the policies' revisions. *)
Record checkpoint_le (s s' : state) : Prop := {
  cl_history id : checkpoint_history s id `prefix_of` checkpoint_history s' id;
  cl_policies project revision q : mget2 (CheckpointPolicyHistory (st_Checkpoint s)) project revision = Some q ->
    mget2 (CheckpointPolicyHistory (st_Checkpoint s')) project revision = Some q
}.

#[export] Instance checkpoint_le_preorder : PreOrder checkpoint_le.
Proof.
  split; [done |]. intros s1 s2 s3 [A1 B1] [A2 B2]. split; [| auto]. intros id. etrans; [apply A1 | apply A2].
Qed.

(** Maps that answer alike. *)
Lemma checkpoint_agree s s' :
  (forall id, mget (checkpoints s') id = mget (checkpoints s) id) ->
  (forall k, mget (checkpoint_policies s') k = mget (checkpoint_policies s) k) ->
  (forall k, mget (CheckpointPolicyHistory (st_Checkpoint s')) k = mget (CheckpointPolicyHistory (st_Checkpoint s)) k) ->
  (checkpoint_inv s -> checkpoint_inv s') /\ checkpoint_le s s'.
Proof.
  intros Hc Hp Hr.
  assert (Hh : forall id, checkpoint_history s' id = checkpoint_history s id) by (intros id; unfold checkpoint_history; by rewrite Hc).
  split; [intros [A B C D F] |]; split.
  - intros k p. rewrite Hp. apply A.
  - intros id. rewrite Hh. apply B.
  - intros id1 id2 x y. rewrite !Hh. apply C.
  - intros id x y. rewrite !Hh. apply D.
  - intros id x Hx. rewrite Hh in *. rewrite Hp. by apply F.
  - intros id. by rewrite Hh.
  - intros project revision q. unfold mget2. by rewrite Hr.
Qed.

(** One entry appended to the only checkpoint of its project, under a policy with
    room for it. *)
Lemma checkpoint_append s s' id x p :
  checkpoint_inv s ->
  (forall other, checkpoint_history s' other = if decide (id = other) then checkpoint_history s id ++ [x] else checkpoint_history s other) ->
  checkpoint_policies s' = checkpoint_policies s ->
  CheckpointPolicyHistory (st_Checkpoint s') = CheckpointPolicyHistory (st_Checkpoint s) ->
  counted_history id (checkpoint_history s id ++ [x]) ->
  (forall other y, other <> id -> y ∈ checkpoint_history s other -> CS_ProjectID y <> CS_ProjectID x) ->
  (forall y, y ∈ checkpoint_history s id -> CS_ProjectID y = CS_ProjectID x) ->
  mget (checkpoint_policies s) (CS_ProjectID x) = Some p -> waves (checkpoint_history s id ++ [x]) <= CPol_MaxCycles p ->
  checkpoint_inv s' /\ checkpoint_le s s'.
Proof.
  intros [A B C D F] Hh Hp Hph Hc Hother Hsame Hpol Hmax.
  assert (Hin : forall other y, y ∈ checkpoint_history s' other ->
                y ∈ checkpoint_history s other \/ other = id /\ y = x).
  { intros other y. rewrite Hh. case_decide as E; [| by left]. subst other. rewrite elem_of_app, list_elem_of_singleton. naive_solver. }
  split; split.
  - intros k q. rewrite Hp. apply A.
  - intros other. rewrite Hh. case_decide; [by subst | apply B].
  - intros id1 id2 y z [Hy | [-> ->]]%Hin [Hz | [-> ->]]%Hin E; [by eapply C | | | done].
    + destruct (decide (id1 = id)) as [| Hne]; [done |]. by destruct (Hother _ _ Hne Hy).
    + destruct (decide (id2 = id)) as [| Hne]; [done |]. by destruct (Hother _ _ Hne Hz).
  - intros other y z [Hy | [-> ->]]%Hin [Hz | [E ->]]%Hin; [by eapply D | subst other; by apply Hsame | symmetry; by apply Hsame | done].
  - intros other y Hy. rewrite Hp. apply Hin in Hy as Hy'. destruct (decide (id = other)) as [<- | Hne].
    + exists p. rewrite Hh, decide_True by done. split; [| done]. destruct Hy' as [Hy' | [_ ->]]; [| done]. by rewrite (Hsame _ Hy').
    + rewrite Hh, decide_False by done. destruct Hy' as [Hy' | [-> _]]; [by apply F | done].
  - intros other. rewrite Hh. case_decide; [subst; by apply prefix_app_r | done].
  - by rewrite Hph.
Qed.

Lemma put_checkpoint_receipt_ok s key rec s' : put_checkpoint_receipt s key rec = Ok s' ->
  s' = s <| st_Checkpoint := (st_Checkpoint s) <| CheckpointOperations := CheckpointOperations (st_Checkpoint s') |> |>
  /\ mset (CheckpointOperations (st_Checkpoint s)) key rec = Ok (CheckpointOperations (st_Checkpoint s')).
Proof. unfold put_checkpoint_receipt. intros H. apply bind_ok in H as (m & Hm & H). by simplify_eq. Qed.

Lemma put_history_ok s id h s' : put_history s id h = Ok s' ->
  s' = s <| st_Checkpoint := (st_Checkpoint s) <| Checkpoints := checkpoints s' |> |>
  /\ mset (checkpoints s) id h = Ok (checkpoints s').
Proof. unfold put_history. intros H. apply bind_ok in H as (m & Hm & H). by simplify_eq. Qed.

(** A written entry changes the checkpoints and binds pending verifications. *)
Record written (s : state) (r : CheckpointRequest) (out : CheckpointStatus) (s' : state) : Prop := {
  wt_frame : s' = s <| Operations := Operations s' |> <| st_Checkpoint := st_Checkpoint s' |>;
  wt_nil : is_nil (Operations s') = is_nil (Operations s) /\ is_nil (checkpoints s') = is_nil (checkpoints s)
           /\ is_nil (CheckpointOperations (st_Checkpoint s')) = is_nil (CheckpointOperations (st_Checkpoint s));
  wt_policies : checkpoint_policies s' = checkpoint_policies s
                /\ CheckpointPolicyHistory (st_Checkpoint s') = CheckpointPolicyHistory (st_Checkpoint s);
  wt_history other : checkpoint_history s' other
    = if decide (CRq_CheckpointID r = other) then checkpoint_history s (CRq_CheckpointID r) ++ [out] else checkpoint_history s other;
  wt_operations key op : mget (Operations s) key = Some op ->
    exists op', mget (Operations s') key = Some op' /\ bound_operation op op';
  wt_entry : entry_of s r out /\ rival s (CRq_CheckpointID r) (CRq_ProjectID r) = false
             /\ is_Some (mget (checkpoint_policies s) (CRq_ProjectID r)) /\ 12 <= Version s
}.

Lemma bind_verifications_nil p s refs s' : bind_verifications p s refs = Ok s' -> is_nil (Operations s') = is_nil (Operations s).
Proof.
  revert s. induction refs as [| ref refs IH]; intros s; simpl; [by intros [= <-] |].
  intros H. apply bind_ok in H as (s1 & H1 & H2). rewrite (IH _ H2). revert H1. unfold bind_verification.
  repeat case_match; try (by intros [= <-]). intros E. apply bind_ok in E as (m & Hm & E). injection E as <-.
  by apply mset_ok in Hm as (g & -> & ->).
Qed.

Lemma written_ok `{Reconciliation} e ad au token session r reconcile s out s' :
  writeCheckpoint e ad au token session r reconcile s = Ok (out, s') -> s' = s \/ written s r out s'.
Proof.
  unfold writeCheckpoint. cbv zeta. intros E. apply run_ok in E as [k E]. do 2 skip_in E.
  apply writeCheckpointState_ok in E as [(old & _ & _ & ->) | (_ & Hr & Hp & Hver & _ & He & _ & s1 & s2 & digest & Hs1 & Hs2 & Hs3)]; [by left |].
  right. pose proof (fun other => written_history _ _ _ _ _ _ _ _ _ _ _ other Hs1 Hs2 Hs3) as Hh.
  pose proof (bind_verifications_nil _ _ _ _ Hs1) as N1. pose proof (fun key op => bind_verifications_ops _ _ _ _ key op Hs1) as Hops.
  assert (exists o, s1 = s <| Operations := o |>) as [o ->] by (eexists; by apply bind_verifications_frame in Hs1).
  unfold put_history in Hs2. apply bind_ok in Hs2 as (m2 & M2 & Hs2). injection Hs2 as <-.
  unfold put_checkpoint_receipt in Hs3. apply bind_ok in Hs3 as (m3 & M3 & Hs3). injection Hs3 as <-.
  split; [done | | done | exact Hh | exact Hops | done].
  apply mset_ok in M2 as (g2 & Hg2 & ->), M3 as (g3 & Hg3 & ->). unfold checkpoints in *. cbn in *. by rewrite Hg2, Hg3.
Qed.

Lemma waves_cons_unconsumed h x : is_wave x = false -> waves (h ++ [x]) = waves h.
Proof. intros E. rewrite waves_snoc, E. lia. Qed.

Lemma written_inv_le s r out s' : checkpoint_inv s -> written s r out s' -> checkpoint_inv s' /\ checkpoint_le s s'.
Proof.
  intros Hinv [_ _ [Hp Hph] Hh _ (He & Hr & [p Hpol] & _)].
  assert (Hfirst : forall id y, y ∈ checkpoint_history s id -> history_of_project (CS_ProjectID y) (checkpoint_history s id) = true).
  { intros id y Hy. destruct (checkpoint_history s id) as [| z h] eqn:El; [by apply not_elem_of_nil in Hy |].
    cbn. apply String.eqb_eq. apply (ck_project _ Hinv id); rewrite El; [left | done]. }
  assert (Hmine : forall y, y ∈ checkpoint_history s (CRq_CheckpointID r) -> CS_ProjectID y = CRq_ProjectID r).
  { intros y Hy. destruct (list.last (checkpoint_history s (CRq_CheckpointID r))) as [old |] eqn:El.
    - rewrite <- (eo_last _ _ _ He _ El). apply (ck_project _ Hinv (CRq_CheckpointID r)); [done |].
      apply list.last_Some in El as [l ->]. apply elem_of_app. right. left.
    - apply list.last_None in El. rewrite El in Hy. by apply not_elem_of_nil in Hy. }
  pose proof (entry_counted _ _ _ He (ck_counted _ Hinv _)) as Hcount.
  assert (Hw : waves (checkpoint_history s (CRq_CheckpointID r) ++ [out]) = waves (checkpoint_history s (CRq_CheckpointID r))).
  { apply waves_cons_unconsumed. unfold is_wave. by rewrite (eo_unconsumed _ _ _ He). }
  apply (checkpoint_append s s' (CRq_CheckpointID r) out p); try done; rewrite ?(eo_project _ _ _ He), ?Hw; try done.
  - intros other y Hne Hy E. pose proof (rival_none _ _ _ _ Hr Hne) as Hn. rewrite <- E, (Hfirst _ _ Hy) in Hn. done.
  - destruct (checkpoint_history s (CRq_CheckpointID r)) as [| z h] eqn:El.
    + by destruct (ck_policy _ Hinv _ _ Hpol) as [_ [? _]].
    + destruct (ck_bounded _ Hinv (CRq_CheckpointID r) z) as (q & Hq & Hb); [rewrite El; left |].
      rewrite (Hmine z) in Hq by left. rewrite Hpol in Hq. injection Hq as <-. by rewrite El in Hb.
Qed.

(** A gate consumed for a wave. *)
Lemma consumed_inv_le `{Reconciliation} e ad au s token session r wave n s' k :
  exec (consumeCheckpoint e ad au s token session r wave) n = Ok (s', k) -> checkpoint_inv s ->
  s' = s <| st_Checkpoint := (st_Checkpoint s) <| Checkpoints := checkpoints s' |> |>
  /\ is_nil (checkpoints s') = is_nil (checkpoints s) /\ checkpoint_inv s' /\ checkpoint_le s s'.
Proof.
  intros E Hinv. assert (Hrefl : s = s <| st_Checkpoint := (st_Checkpoint s) <| Checkpoints := checkpoints s |> |>).
  { unfold checkpoints. by destruct s as [? ? ? ? ? ? ? ? ? ? ? ? ? ? ? ? ? ? ? ? ? ? [] ? ? ? ? ? ? ?]. }
  destruct (mget (checkpoint_policies s) (SPn_ProjectID (RWR_Plan r))) as [p |] eqn:Hp.
  2: { unfold consumeCheckpoint in E. rewrite Hp in E. apply mret_ok in E as [-> _]. done. }
  destruct (consumeCheckpoint_ok _ _ _ _ _ _ _ _ _ _ _ _ E Hp) as (old & t & fresh & Hl & Hg & Hk & _ & [_ _ _ Hcy _] & Hput).
  destruct (wave =? "")%string eqn:Ew; [by subst s' |]. set (id := RWR_CheckpointID r) in *.
  assert (Hin : old ∈ checkpoint_history s id) by (apply list.last_Some in Hl as [l ->]; apply elem_of_app; right; left).
  destruct (ck_counted _ Hinv id) as [Hcount Hids]. rewrite list.Forall_forall in Hids. pose proof (Hids _ Hin) as Hid.
  pose proof (fun other => history_put _ _ _ _ other Hput) as Hh. rewrite Hid in Hh, Hput.
  apply put_history_ok in Hput as [Hs' Hm]. unfold entry_key in Hk. injection Hk as ? ? ? ? ? Hcyc ? ?.
  assert (Hwave : is_wave (consumed old wave) = true) by (unfold is_wave; cbn; by rewrite Ew).
  unfold gate_open in Hg. bool_facts. destruct (ck_policy _ Hinv _ _ Hp) as [Hkey [_ Hmax]].
  assert (Hlast : cycle_of (checkpoint_history s id) = CS_Cycle old) by (unfold cycle_of; by rewrite Hl).
  assert (Hinc : CS_Cycle (consumed old wave) = cycle_of (checkpoint_history s id) + 1).
  { cbn. rewrite Hlast. unfold incr_int. destruct (_ =? _) eqn:Em; [unfold max_int64 in *; bool_facts; lia | done]. }
  split; [done |]. split; [by apply mset_ok in Hm as (g & -> & ->) |].
  apply (checkpoint_append s s' id (consumed old wave) p); try done; try by rewrite Hs'.
  - apply counted_snoc; [apply Hinv | done |]. by rewrite Hwave.
  - intros other y Hne Hy Ey. by destruct Hne; apply (ck_single _ Hinv other id y old).
  - intros y Hy. exact (ck_project _ Hinv id y old Hy Hin).
  - cbn. congruence.
  - rewrite waves_snoc, Hwave. lia.
Qed.

Lemma ConfigureCheckpoints_ok e owner policy s s' :
  ConfigureCheckpoints e owner policy s = Ok (tt, s') ->
  let p := canonicalCheckpointPolicy policy in
  not_owner s owner = false /\ 12 <= Version s /\ checkpoint_policy_ok e p = true
  /\ (s' = s \/ mget2 (CheckpointPolicyHistory (st_Checkpoint s)) (CPol_ProjectID p) (CPol_Revision p) = None
        /\ put_checkpoint_policy s p = Ok s'
        /\ (has_checkpoint s (CPol_ProjectID p) = true -> same_bounds (checkpoint_policy s (CPol_ProjectID p)) p = true)).
Proof.
  cbv zeta. unfold ConfigureCheckpoints. generalize (canonicalCheckpointPolicy policy). intros p H.
  apply bind_ok in H as ([] & Hg & H). apply deny_if_ok in Hg.
  apply bind_ok in H as (sw & _ & H). apply bind_ok in H as ([] & _ & H). apply bind_ok in H as ([] & _ & H). bool_facts.
  split_and!; [done.. |]. destruct (mget2 _ _ _) as [old |] eqn:Ho in H.
  - apply bind_ok in H as ([] & _ & H). injection H as <-. by left.
  - apply bind_ok in H as ([] & Hb & H). apply deny_if_ok in Hb. apply bind_ok in H as (s1 & Hput & H). injection H as <-.
    right. split_and!; [done | done |]. intros E. rewrite E in Hb. simpl in Hb. by apply negb_false_iff in Hb.
Qed.

Lemma ConfigureCheckpoints_inv_le e owner policy s s' :
  ConfigureCheckpoints e owner policy s = Ok (tt, s') -> checkpoint_inv s ->
  s' = s <| st_Checkpoint := st_Checkpoint s' |> /\ checkpoint_nils s' = checkpoint_nils s
  /\ checkpoint_inv s' /\ checkpoint_le s s'.
Proof.
  intros (_ & _ & Hok & [-> | (Hn & Hput & Hb)])%ConfigureCheckpoints_ok Hinv; [split_and!; [by destruct s | done..] |].
  revert Hok Hn Hput Hb. generalize (canonicalCheckpointPolicy policy). intros p Hok Hn Hput Hb.
  unfold put_checkpoint_policy in Hput. apply bind_ok in Hput as (h & Hm & Hput). apply bind_ok in Hput as (m & Hm' & Hput). injection Hput as <-.
  assert (Hh : forall id, checkpoint_history (s <| st_Checkpoint := (st_Checkpoint s) <| CheckpointPolicyHistory := h |> <| CheckpointPolicies := m |> |>) id
               = checkpoint_history s id) by done.
  assert (Hp : forall k, mget (checkpoint_policies (s <| st_Checkpoint := (st_Checkpoint s) <| CheckpointPolicyHistory := h |> <| CheckpointPolicies := m |> |>)) k
               = if decide (CPol_ProjectID p = k) then Some p else mget (checkpoint_policies s) k) by (intros k; exact (mget_mset _ _ _ _ _ Hm')).
  split; [done |]. split; [| split; split].
  - unfold checkpoint_nils. cbn. unfold mset2 in Hm. by rewrite (is_nil_mset_eq _ _ _ _ Hm), (is_nil_mset_eq _ _ _ _ Hm').
  - intros k q. rewrite Hp. case_decide as E; [| apply Hinv]. intros [= <-]. split; [done |]. unfold checkpoint_policy_ok in Hok. bool_facts. lia.
  - intros id. rewrite Hh. apply Hinv.
  - intros id1 id2 x y. rewrite !Hh. apply Hinv.
  - intros id x y. rewrite Hh. apply Hinv.
  - intros id x. rewrite Hh, Hp. intros Hx. destruct (ck_bounded _ Hinv _ _ Hx) as (q & Hq & Hw).
    case_decide as E; [| by exists q]. exists p. split; [done |]. unfold checkpoint_policy in Hb. rewrite E, Hq in Hb.
    assert (same_bounds q p = true) as Hs.
    { apply Hb. unfold has_checkpoint. apply existsb_elem. exists (checkpoint_history s id). unfold checkpoint_history in *.
      destruct (mget (checkpoints s) id) as [l |] eqn:El; [| by apply not_elem_of_nil in Hx]. simpl in *.
      split; [apply elem_of_mvals; eauto |]. destruct l as [| z l]; [by apply not_elem_of_nil in Hx |]. cbn. apply String.eqb_eq.
      apply (ck_project _ Hinv id); unfold checkpoint_history; rewrite El; [left | done]. }
    unfold same_bounds in Hs. bool_facts. lia.
  - intros id. by rewrite Hh.
  - intros project revision q Hq. cbn. rewrite (mget2_mset2 _ _ _ _ _ _ _ Hm). case_decide as Hc; [| done].
    destruct Hc as [<- <-]. congruence.
Qed.
