(* ===== verification/Routing.v ===== *)
(** * Model routing

    native_model_routing.go: the owner's routing policy, the choice of a role for a
    task among the candidates of that policy, and the producers a route names.  A
    candidate is ranked by [Strategy.Select] after its own preflight, budget quote
    and producers were checked; [u] is the Unicode data of [Strategy]. *)

From S2P Require Import Prelude Floats GoStd Text Runes Team Strategy Disclosure State Session Withdrawal Resources Attempts Leases Lifecycle Evidence Reviews Encodings Scheduling Preflight Budgets Checkpoints.
#[local] Open Scope Z_scope.

(** ** Zero values *)

Definition zero_routing_policy : NativeModelRoutingPolicy := mkRoutingPolicy 0 "" "" "" 0 None.
Definition zero_route : ControllerTaskRoute := mkTaskRoute [] "" "" "" "" "" "" "" "".
Definition zero_actor : PreflightActor := mkPreflightActor "" "" "".
Definition zero_observation : PreflightObservation :=
  mkPreflightObservation None [] [] "" "" "" "" "" "" "" "" "" [] [] [] zero false no_role no_role no_role []
    zero_actor zero_actor zero_actor zero_review_observation [] [] 0.
Definition zero_report : PreflightReport :=
  mkPreflightReport None "" "" "" [] [] 0 "" "" "" "" "" "" "" "" "" "" "" zero_capacity "" false "" [] 0 0.
Definition no_explanation : Explanation := mkExplanation [] (mkSelection "" "" "") "" "".

Definition routing_policy (s : state) (project : string) : NativeModelRoutingPolicy :=
  default zero_routing_policy (mget (routing_policies s) project).

(** ** The policy of the owner *)

Section order.
#[local] Instance candidate_order_dec : RelDecision (fun x y => String.le (MRC_RoleID x) (MRC_RoleID y)).
Proof. intros x y. apply _. Defined.
Definition candidate_order (l : list NativeModelRoutingCandidate) : list NativeModelRoutingCandidate :=
  merge_sort (fun x y => String.le (MRC_RoleID x) (MRC_RoleID y)) l.
End order.

(** Candidates by role, their tools sorted; instants are canonical already. *)
Definition canonicalRoutingTask (t : NativeModelRoutingTask) : NativeModelRoutingTask :=
  t <| MRT_Candidates := candidate_order (map (fun c => c <| MRC_Tools := string_order (MRC_Tools c) |>) (MRT_Candidates t)) |>.
Definition canonicalRoutingPolicy (p : NativeModelRoutingPolicy) : NativeModelRoutingPolicy :=
  p <| MRP_Tasks := Some (match MRP_Tasks p with Some g => canonicalRoutingTask <$> g | None => ∅ end) |>.

(** A candidate on its own; its three clock readings are [i] to [i + 2]. *)
Definition routing_candidate_ok (e : Env) (i : nat) (p : NativeModelRoutingPolicy) (c : NativeModelRoutingCandidate) : bool :=
  validID (MRC_RoleID c) && negb (MRC_DifficultyTier c <? 1) && negb (1000 <? MRC_DifficultyTier c)
  && negb (MRC_Model c =? "")%string && (PT_ImplementationRole (MRC_Preflight c) =? MRC_RoleID c)%string
  && negb (PT_WorkerConnection (MRC_Preflight c) =? "")%string && negb (MRC_ContextNeeded c <? 0)
  && negb (64 <? Z.of_nat (List.length (MRC_Tools c))) && (now e i <? MRC_ExpiresAt c)
  && negb (MRP_ExpiresAt p <? MRC_ExpiresAt c) && negb (MRC_ObservedAt c + hour <? MRC_ExpiresAt c)
  && negb (now e (1 + i) <? MRC_ObservedAt c) && negb (MRC_ObservedAt c <? now e (2 + i) - hour).

(** Against the candidate before it and the first of the list. *)
Definition routing_neighbour_ok (first : NativeModelRoutingCandidate) (before : option NativeModelRoutingCandidate)
    (c : NativeModelRoutingCandidate) : bool :=
  match before with
  | None => true
  | Some b => negb (MRC_RoleID b =? MRC_RoleID c)%string && (MRC_ContextNeeded c =? MRC_ContextNeeded first)
              && bool_decide (MRC_Tools c = MRC_Tools first)
  end.

(** What the owner's preflight policy fixes for the task. *)
Definition routing_fixed_ok (fixed : PreflightTask) (c : NativeModelRoutingCandidate) : bool :=
  let t := MRC_Preflight c in
  (PT_ReviewRole t =? PT_ReviewRole fixed)%string && Bool.eqb (PT_RequireReview t) (PT_RequireReview fixed)
  && Bool.eqb (PT_RequireVerification t) (PT_RequireVerification fixed)
  && Bool.eqb (PT_RequireIntegration t) (PT_RequireIntegration fixed)
  && Bool.eqb (PT_RequireEnforcedTokens t) (PT_RequireEnforcedTokens fixed)
  && Bool.eqb (PT_RequireEnforcedBudget t) (PT_RequireEnforcedBudget fixed).

Fixpoint routing_candidates_ok (e : Env) (i : nat) (p : NativeModelRoutingPolicy) (fixed : PreflightTask)
    (first : NativeModelRoutingCandidate) (before : option NativeModelRoutingCandidate)
    (l : list NativeModelRoutingCandidate) : bool :=
  match l with
  | [] => true
  | c :: l =>
    routing_candidate_ok e i p c && routing_neighbour_ok first before c && routing_fixed_ok fixed c
    && routing_candidates_ok e (3 + i) p fixed first (Some c) l
  end.

Definition routing_task_ok (e : Env) (i : nat) (s : state) (p : NativeModelRoutingPolicy)
    (x : string * NativeModelRoutingTask) : bool :=
  let l := MRT_Candidates x.2 in
  match preflight_task s (MRP_ProjectID p) x.1, l with
  | Some fixed, first :: _ =>
    negb (32 <? Z.of_nat (List.length l)) && negb (MRT_MaxCorrectionRounds x.2 <? 0)
    && negb (100 <? MRT_MaxCorrectionRounds x.2) && routing_candidates_ok e i p fixed first None l
  | _, _ => false
  end.
Fixpoint routing_tasks_ok (e : Env) (i : nat) (s : state) (p : NativeModelRoutingPolicy)
    (l : list (string * NativeModelRoutingTask)) : bool :=
  match l with
  | [] => true
  | x :: l => routing_task_ok e i s p x && routing_tasks_ok e (i + 3 * List.length (MRT_Candidates x.2)) s p l
  end.

Definition routing_policy_ok (e : Env) (s : state) (p : NativeModelRoutingPolicy) : bool :=
  let n := Z.of_nat (List.length (mentries (MRP_Tasks p))) in
  (MRP_SchemaVersion p =? 1) && validID (MRP_ProjectID p) && validID (MRP_Revision p)
  && (MRP_Harness p =? SP_Harness (swarm_policy s (MRP_ProjectID p)))%string && (now e 0 <? MRP_ExpiresAt p)
  && negb (n =? 0) && negb (256 <? n) && routing_tasks_ok e 1 s p (mentries (MRP_Tasks p)).

Definition routing_key (p : NativeModelRoutingPolicy) : string := (MRP_ProjectID p ++ ":" ++ MRP_Revision p)%string.

Definition put_routing_policy (s : state) (p : NativeModelRoutingPolicy) : res state :=
  h ← mset (ModelRoutingHistory (st_Routing s)) (routing_key p) p;
  m ← mset (routing_policies s) (MRP_ProjectID p) p;
  Ok (s <| st_Routing := (st_Routing s) <| ModelRoutingHistory := h |> <| ModelRoutingPolicies := m |> |>).

Definition ConfigureNativeModelRouting (e : Env) (owner : string) (policy : NativeModelRoutingPolicy) : tx unit := fun s =>
  let p := canonicalRoutingPolicy policy in
  deny_if ((Version s <? 17) || not_owner s owner || negb (routing_policy_ok e s p));;
  match mget (ModelRoutingHistory (st_Routing s)) (routing_key p) with
  | Some old => deny_if (negb (bool_decide (old = p)));; Ok (tt, s)
  | None => s' ← put_routing_policy s p; Ok (tt, s')
  end.

Definition selections (s : state) : gomap NativeModelRoutingSelection := ModelRoutingSelections (st_Routing s).

(** [ReadDispatchRouting] *)
Definition ReadDispatchRouting (e : Env) (token session project id : string) (s : state) : res NativeModelRoutingSelection :=
  actor ← controller s token session project "swarm.plan" (now e 0);
  value ← must (mget (selections s) id);
  deny_if (negb (MRS_ProjectID value =? project)%string
           || negb (subset [task_resource (MRS_TaskID value)] (r_Resources actor)));;
  Ok value.

(** ** Producers of a route *)

Definition validPromptDigest (d : string) : bool :=
  HasPrefix d "sha256:" && (len d =? 71) && (ToLower d =? d)%string && hex_decodable (String.substring 7 64 d).

Definition claimed_path (resource : string) : option string :=
  if (5 <? len resource) && HasPrefix resource "path:"
  then Some (String.substring 5 (String.length resource - 5) resource) else None.
Definition claimed_paths (obs : PreflightObservation) : list string := omap claimed_path (PO_ClaimResources obs).

(** The reservation the producers are checked against. *)
Definition route_reservation (project task : string) (bound : TaskBinding) (checkout : string) (resources : list Resource)
    : DispatchReservation :=
  mkDispatch None "" "" project "" "" "" "" "" ""
    (mkLease "" "" "" task (TB_Repository bound) checkout resources 0 0 false) 0 "" [] false "" "".

Definition route_actors (r : ControllerTaskRoute) : list string :=
  [CTR_BridgeSession r; CTR_WorkerSession r; CTR_RunnerSession r; CTR_ReviewerSession r].

(** Every actor has a live root session of its own; two readings each. *)
Fixpoint distinct_roots (e : Env) (i : nat) (s : state) (roots ids : list string) : bool :=
  match ids with
  | [] => true
  | id :: ids =>
    let root := controllerRoot s id (now e i) in
    negb (root =? "")%string && negb (bool_decide (root ∈ roots)) && controllerLive s id (now e (S i))
    && distinct_roots e (S (S i)) s (root :: roots) ids
  end.

Definition route_grant_ok (s : state) (task : string) (bound : TaskBinding) (r : ControllerTaskRoute) (t : time) : bool :=
  match mget (Grants s) (CTR_VerificationGrantID r) with
  | Some g =>
    negb (VG_Revoked g) && (t <? VG_ExpiresAt g) && (VG_TaskID g =? task)%string
    && (VG_Repository g =? TB_Repository bound)%string && (VG_RunnerSession g =? CTR_RunnerSession r)%string
    && (VG_CheckID g =? CTR_CheckID r)%string
  | None => false
  end.

Definition route_observed (r : ControllerTaskRoute) (obs : PreflightObservation) : bool :=
  (CTR_WorkerSession r =? PAc_SessionID (PO_Worker obs))%string && (CTR_RunnerSession r =? PAc_SessionID (PO_Runner obs))%string
  && (CTR_ReviewerSession r =? PAc_SessionID (PO_Reviewer obs))%string
  && (CTR_ReviewGrantID r =? PAc_GrantID (PO_Reviewer obs))%string && validPromptDigest (CTR_PromptSpecDigest r).

Definition routingProducerRouteCurrent (e : Env) (s : state) (project task : string) (r : ControllerTaskRoute)
    (obs : PreflightObservation) : prog bool :=
  if negb (route_observed r obs) then mret false
  else
    match mget (Tasks s) task with
    | None => mret false
    | Some bound =>
      if negb (TB_ProjectID bound =? project)%string then mret false
      else
        let checkout := SPl_Checkout (placement_of s project task) in
        match canonicalResources e checkout task (map (mkResource "path") (claimed_paths obs)) with
        | Err _ => mret false
        | Ok resources =>
          let d := route_reservation project task bound checkout resources in
          bridge ← look 1 (fun n => dispatchBoundActor s (CTR_BridgeSession r) project "dispatch.correlate" d (now e n));
          worker ← look 1 (fun n => dispatchBoundActor s (CTR_WorkerSession r) project "lease.acquire" d (now e n));
          roots ← look 8 (fun n => distinct_roots e n s [] (route_actors r));
          t ← look 1 (now e);
          mret (bridge && worker && roots && route_grant_ok s task bound r t
                && subset [CTR_VerificationGrantID r] (PO_VerificationGrantIDs obs))
        end
    end.

(** ** The choice *)

(** [map[string]int] of the role slots in use. *)
Abbreviation usage := (gmap string Z).
Definition used_of (u : usage) (role : string) : Z := default 0 (u !! role).

(** The tier a correction of this task under this revision has reached. *)
Definition minimum_tier (s : state) (p : NativeModelRoutingPolicy) (project task : string) : Z :=
  fold_left (fun least old =>
      if (MRS_ProjectID old =? project)%string && (MRS_TaskID old =? task)%string
         && (MRS_PolicyRevision old =? MRP_Revision p)%string && (0 <? MRS_CorrectionRound old)
         && (least <? MRS_DifficultyTier old)
      then MRS_DifficultyTier old else least)
    (mvals (selections s)) 0.
Definition previous_tier (previous : string) (l : list NativeModelRoutingCandidate) : Z :=
  fold_left (fun tier c => if (MRC_RoleID c =? previous)%string then MRC_DifficultyTier c else tier) l (-1).

(** A correction goes to a harder role than the previous one. *)
Definition tier_ok (minimum round : Z) (previous : string) (tier : Z) (c : NativeModelRoutingCandidate) : bool :=
  negb (MRC_DifficultyTier c <? minimum)
  && negb ((0 <? round) && ((tier <? 0) || (MRC_RoleID c =? previous)%string || (MRC_DifficultyTier c <=? tier))).

(** The report is about what was observed, allows the task, and is in force. *)
Definition route_fresh (c : NativeModelRoutingCandidate) (obs : PreflightObservation) (r : PreflightReport) (t1 t2 : time) : bool :=
  PR_Allowed r && (PR_RoleDigest r =? roleDigest (PO_Implementation obs))%string
  && (PR_TaskDigest r =? PO_TaskDigest obs)%string && (PR_RosterDigest r =? PO_RosterDigest obs)%string
  && (PR_ClaimsDigest r =? PO_ClaimsDigest obs)%string && (PR_ProfileDigest r =? PO_ProfileDigest obs)%string
  && PO_Sized obs && (ModelID (PO_Implementation obs) =? MRC_Model c)%string && MRC_Available c
  && (t1 <? MRC_ExpiresAt c) && (t2 <? PR_ExpiresAt r).

(** The slots the role has left, of the last role of the policy with its name. *)
Definition slots_left (s : state) (p : NativeModelRoutingPolicy) (project role : string) (used : usage) : Z :=
  fold_left (fun n r => if (SR_ID r =? role)%string && (SR_Harness r =? MRP_Harness p)%string
                        then SR_Capacity r - used_of used role else n) (SP_Roles (swarm_policy s project)) 0.

Definition no_metrics : RouteMetrics := mkMetrics zero 0 zero 0 zero.
Definition route_candidate (obs : PreflightObservation) (slots : Z) (eligible : bool) : RouteCandidate :=
  mkCandidate (PO_Implementation obs) eligible (MP_ContextLimit (Role_Profile (PO_Implementation obs))) slots zero
    (negb eligible) false no_metrics.
(** What the task asks of this candidate. *)
Definition own_requirements (c : NativeModelRoutingCandidate) (obs : PreflightObservation) : RouteRequirements :=
  mkRequirements (Role_Kind (PO_Implementation obs)) "rw" "" "" (MRC_Tools c) (claimed_paths obs) (PO_Required obs)
    (MRC_ContextNeeded c) zero false.
(** What the ranking asks of all. *)
Definition ranking_requirements (first : PreflightObservation) : RouteRequirements :=
  mkRequirements (Role_Kind (PO_Implementation first)) "rw" "" "" [] [] (PO_Required first) 0 zero false.

(** What the loop over the candidates collects. *)
Record routing := mkRouting { rt_candidates : list RouteCandidate; rt_reports : gmap string PreflightReport }.

Section selection.
Context (u : Unicode) (e : Env) (ad : Adapters) (au : Authority).
Context (s : state) (project task : string) (used : usage) (round : Z) (previous : string).

Definition observe_candidate (observer : nat -> string -> string -> string -> PreflightTask -> SwarmPlacement -> res PreflightObservation)
    (seen : gmap string PreflightObservation) (c : NativeModelRoutingCandidate) : prog (gmap string PreflightObservation) :=
  obs ← ask 1 (fun n => observer n (Binding_Workspace (st_Binding s)) project task (MRC_Preflight c) (placement_of s project task));
  mret (<[MRC_RoleID c := obs]> seen).

Definition quote_allows (report : PreflightReport) : prog bool :=
  q ← quoteBudget e ad s project task (Some report) 0;
  mret (match q with Some q => BQ_Allowed q | None => true end).

(** Whether the candidate may be chosen at all. *)
Definition candidate_eligible (p : NativeModelRoutingPolicy) (minimum tier : Z) (c : NativeModelRoutingCandidate)
    (obs : PreflightObservation) (report : PreflightReport) : prog bool :=
  t1 ← look 1 (now e);
  t2 ← look 1 (now e);
  let eligible := route_fresh c obs report t1 t2 && tier_ok minimum round previous tier c in
  eligible ← ((if eligible then quote_allows report else mret false) : prog bool);
  if (eligible : bool) then routingProducerRouteCurrent e s project task (MRC_Route c) obs else mret false.

Definition rank_candidate (p : NativeModelRoutingPolicy) (minimum tier : Z) (observed : gmap string PreflightObservation)
    (a : routing) (c : NativeModelRoutingCandidate) : prog routing :=
  let obs := default zero_observation (observed !! MRC_RoleID c) in
  report ← preflight e ad au s project task (MRC_RoleID c) (PT_ReviewRole (MRC_Preflight c)) "";
  eligible ← candidate_eligible p minimum tier c obs report;
  let slots := slots_left s p project (MRC_RoleID c) used in
  let candidate := route_candidate obs slots eligible in
  let individual := Select u (own_requirements c obs) [candidate] in
  let candidate :=
    if (RSel_Role (Ex_Selected individual) =? "")%string then route_candidate obs slots false else candidate in
  mret (mkRouting (rt_candidates a ++ [candidate]) (<[MRC_RoleID c := report]> (rt_reports a))).

(** The answer before a role is chosen. *)
Definition new_selection (p : NativeModelRoutingPolicy) : NativeModelRoutingSelection :=
  mkRoutingSelection 0 zero_route 1 project task (MRP_Revision p) "" "" (MRP_Harness p) ""
    "owner-manual availability; cooperative native grant; estimated admission only" "" zero false round
    (MRP_ExpiresAt p) no_explanation "" [] (0 <? round).

Definition lower_expiry (x y : time) : time := if y <? x then y else x.

(** The last candidate of the chosen role. *)
Definition chosen_candidate (role : string) (l : list NativeModelRoutingCandidate) : option NativeModelRoutingCandidate :=
  fold_left (fun found c => if (MRC_RoleID c =? role)%string then Some c else found) l None.

Definition binding_digest (p : NativeModelRoutingPolicy) (report : PreflightReport) (x : Explanation) : string :=
  identity "native.model.routing" ""
    (JArray [to_json p; JString (PR_ProofDigest report); to_json x; JInt round; JString previous]).

Definition selection_for (p : NativeModelRoutingPolicy) (l : list NativeModelRoutingCandidate) (minimum : Z)
    (observed : gmap string PreflightObservation) (reports : gmap string PreflightReport) (x : Explanation) : NativeModelRoutingSelection :=
  let role := RSel_Role (Ex_Selected x) in
  let obs := default zero_observation (observed !! role) in
  let report := default zero_report (reports !! role) in
  let c := chosen_candidate role l in
  let expires := lower_expiry (MRP_ExpiresAt p) (PR_ExpiresAt report) in
  let expires := fold_left (fun t c => if (MRC_RoleID c =? role)%string then lower_expiry t (MRC_ExpiresAt c) else t) l expires in
  mkRoutingSelection (match c with Some c => MRC_DifficultyTier c | None => 0 end)
    (match c with Some c => MRC_Route c | None => zero_route end) 1 project task (MRP_Revision p) role
    (ModelID (PO_Implementation obs)) (MRP_Harness p)
    (if 0 <? minimum then "cheapest eligible role at or above durable harder correction tier"
     else "cheapest eligible owner-approved difficulty route")
    "owner-manual availability; cooperative native grant; estimated admission only"
    (binding_digest p report x) (PO_Required obs) (PO_Sized obs) round expires x
    (PAc_SessionID (PO_Worker obs)) (PR_RoleRegistry report) (0 <? round).

Definition no_selection (p : NativeModelRoutingPolicy) (x : Explanation) : NativeModelRoutingSelection :=
  let out := new_selection p in
  mkRoutingSelection (MRS_DifficultyTier out) (MRS_Route out) 1 project task (MRP_Revision p) "" "" (MRP_Harness p)
    "no_owner_approved_capable_model" (MRS_Assurance out) "" zero false round (MRP_ExpiresAt p) x "" [] (0 <? round).

Definition selectModelRouting : prog NativeModelRoutingSelection :=
  p ← lift (must (mget (routing_policies s) project));
  t ← lift (must (mget (MRP_Tasks p) task));
  t0 ← look 1 (now e);
  forbid_if (negb (t0 <? MRP_ExpiresAt p) || (MRT_MaxCorrectionRounds t <? round));;
  observer ← lift (must (observe_preflight ad));
  let l := MRT_Candidates t in
  let minimum := minimum_tier s p project task in
  let tier := previous_tier previous l in
  observed ← each (observe_candidate observer) ∅ l;
  a ← each (rank_candidate p minimum tier observed) (mkRouting [] ∅) l;
  match l with
  | [] => lift (Err Panic)
  | c :: _ =>
    let first := default zero_observation (observed !! MRC_RoleID c) in
    let x := Select u (ranking_requirements first) (rt_candidates a) in
    mret (if (RSel_Role (Ex_Selected x) =? "")%string then no_selection p x
          else selection_for p l minimum observed (rt_reports a) x)
  end.
End selection.
