(* ===== verification/Swarms.v ===== *)
(** * Swarms: plans, waves, dispatch and handoff

    swarms.go: which tasks of a project may run next and in which roles
    ([planSwarm]), the reservation of a wave of them ([ReserveWave]), the fresh
    permission to start one ([AdmitDispatch]) and its handoff to the worker, which
    turns the reservation into a lease ([HandoffDispatch]).  The copy of the state
    that [cloneAuthorityState] makes is the state. *)

From S2P Require Import Prelude Floats GoStd Text Runes Team Strategy Disclosure State Session Withdrawal Resources Attempts Leases Lifecycle Evidence Reviews Encodings Scheduling Preflight Budgets Checkpoints Routing.
#[local] Open Scope Z_scope.

(** ** Digests *)

Definition planDigest (p : SwarmPlan) : string :=
  let undated v := v <| SV_Preflight := (fun r => r <| PR_ObservedAt := 0 |>) <$> SV_Preflight v |> in
  hash (default ""%string (marshal (to_json (p <| SPn_ID := ""%string |> <| SPn_Verdicts := map undated (SPn_Verdicts p) |>)))).

(** ** Occupancy *)

Definition bump (role : string) (u : usage) : usage := <[role := used_of u role + 1]> u.
Definition bump_pair (d : DispatchReservation) (u : usage) : usage := bump (DR_ReviewRole d) (bump (DR_ImplementationRole d) u).
Definition bump_all (roles : list SwarmRole) (u : usage) : usage := fold_left (fun u r => bump (SR_ID r) u) roles u.

(** The role slots in use, the tasks that occupy the project and every lease that
    still protects something. *)
Record occupancy := mkOccupancy { oc_used : usage; oc_tasks : gset string; oc_excluded : list Lease }.

Definition occupy_dispatch (s : state) (p : SwarmPolicy) (o : occupancy) (d : DispatchReservation) : occupancy :=
  if negb (reservationRetained s d) then o
  else
    let excluded := oc_excluded o ++ [DR_Reservation d] in
    if (DR_ProjectID d =? SP_ProjectID p)%string
    then mkOccupancy (bump_pair d (oc_used o)) ({[Lease_TaskID (DR_Reservation d)]} ∪ oc_tasks o) excluded
    else mkOccupancy (oc_used o) (oc_tasks o) excluded.

(** The dispatch whose handoff became this lease. *)
Definition handed_off (l : Lease) (d : DispatchReservation) : bool :=
  DR_Converted d && (Lease_ID (DR_Reservation d) =? Lease_ID l)%string && (DR_WorkerSessionID d =? Lease_SessionID l)%string.

Definition occupy_lease (s : state) (p : SwarmPolicy) (o : occupancy) (l : Lease) : occupancy :=
  if Lease_Released l then o
  else
    let excluded := oc_excluded o ++ [l] in
    let ours := match mget (Tasks s) (Lease_TaskID l) with
                | Some b => (TB_ProjectID b =? SP_ProjectID p)%string | None => false end in
    if ours then
      mkOccupancy (match List.find (handed_off l) (mvals (dispatches s)) with
                   | Some d => bump_pair d (oc_used o)
                   | None => bump_all (SP_Roles p) (oc_used o)
                   end) ({[Lease_TaskID l]} ∪ oc_tasks o) excluded
    else mkOccupancy (oc_used o) (oc_tasks o) excluded.

(** A task that is active without a known holder takes every role. *)
Definition occupy_candidate (p : SwarmPolicy) (o : occupancy) (c : SwarmCandidate) : occupancy :=
  if (SC_Status c =? "active")%string && negb (bool_decide (SC_TaskID c ∈ oc_tasks o))
  then mkOccupancy (bump_all (SP_Roles p) (oc_used o)) ({[SC_TaskID c]} ∪ oc_tasks o) (oc_excluded o)
  else o.

Definition swarmOccupancy (s : state) (p : SwarmPolicy) (snap : SwarmSnapshot) : occupancy :=
  let o := fold_left (occupy_dispatch s p) (mvals (dispatches s)) (mkOccupancy ∅ ∅ []) in
  let o := fold_left (occupy_lease s p) (mvals (Leases s)) o in
  fold_left (occupy_candidate p) (SS_Candidates snap) o.

Definition swarmCapacityAvailable (s : state) (p : SwarmPolicy) (snap : SwarmSnapshot) (d : DispatchReservation) : bool :=
  let o := swarmOccupancy s p snap in
  negb (SP_WIP p <? Z.of_nat (size (oc_tasks o)))
  && forallb (fun r => negb (((SR_ID r =? DR_ImplementationRole d)%string || (SR_ID r =? DR_ReviewRole d)%string)
                             && (SR_Capacity r <? used_of (oc_used o) (SR_ID r)))) (SP_Roles p).

(** ** Roles *)

Section orders.
#[local] Instance role_order_dec : RelDecision (fun x y => String.le (SR_ID x) (SR_ID y)).
Proof. intros x y. apply _. Defined.
Definition role_order (l : list SwarmRole) : list SwarmRole := merge_sort (fun x y => String.le (SR_ID x) (SR_ID y)) l.

(** By priority, then by task; equal tasks are refused later. *)
Definition candidate_le (x y : SwarmCandidate) : Prop :=
  SC_Priority x < SC_Priority y \/ SC_Priority x = SC_Priority y /\ String.le (SC_TaskID x) (SC_TaskID y).
#[local] Instance candidate_le_dec : RelDecision candidate_le.
Proof. intros x y. unfold candidate_le. apply _. Defined.
Definition by_priority (l : list SwarmCandidate) : list SwarmCandidate := merge_sort candidate_le l.
End orders.

(** A role of this kind and of the project's harness with a free slot. *)
Definition role_free (p : SwarmPolicy) (kind : string) (used : usage) (r : SwarmRole) : bool :=
  (SR_Kind r =? kind)%string && (SR_Harness r =? SP_Harness p)%string && (used_of used (SR_ID r) <? SR_Capacity r).
Definition role_id (r : option SwarmRole) : string := match r with Some r => SR_ID r | None => ""%string end.
Definition choose (p : SwarmPolicy) (kind : string) (used : usage) : string :=
  role_id (List.find (role_free p kind used) (role_order (SP_Roles p))).
Definition pick (p : SwarmPolicy) (kind id : string) (used : usage) : string :=
  role_id (List.find (fun r => (SR_ID r =? id)%string && role_free p kind used r) (role_order (SP_Roles p))).

(** ** Adapters *)

(** [AdmitSwarmCapability], denied when the adapter does not admit capabilities. *)
Definition capability_admitted (ad : Adapters) (s : state) (project harness digest : string) : prog unit :=
  admission ← lift (must (admit_capability ad));
  ok ← look 1 (fun n => admission n (Binding_Workspace (st_Binding s)) project harness digest);
  forbid_if (negb ok).
Definition policy_capability (ad : Adapters) (s : state) (p : SwarmPolicy) (project : string) : prog unit :=
  capability_admitted ad s project (SP_Harness p) (SP_CapabilityDigest p).

(** [ObserveSwarm] *)
Definition observed_swarm (ad : Adapters) (s : state) (project : string) : prog SwarmSnapshot :=
  observer ← lift (must (observe_swarm ad));
  ask 1 (fun n => must (observer n (Binding_Workspace (st_Binding s)) project)).

Definition controller_now (e : Env) (s : state) (token session project action : string) : prog record :=
  t ← look 1 (now e);
  lift (controller s token session project action t).

(** ** The plan *)

Definition new_verdict (task reason : string) : SwarmVerdict :=
  mkSwarmVerdict None task reason "" "" None None false [] "" "" "" "".

(** What the loop over the candidates carries. *)
Record planning := mkPlanning {
  pl_verdicts : list SwarmVerdict; pl_used : usage; pl_tasks : gset string; pl_excluded : list Lease;
  pl_selected : Z; pl_seen : list string
}.
#[export] Instance planning_settable : Settable planning := fun x =>
  mkPlanning (pl_verdicts x) (pl_used x) (pl_tasks x) (pl_excluded x) (pl_selected x) (pl_seen x).

(** [plan.Verdicts = append(plan.Verdicts, v); continue] *)
Definition decided (x : planning) (v : SwarmVerdict) : planning := x <| pl_verdicts := pl_verdicts x ++ [v] |>.
Definition refuse (x : planning) (v : SwarmVerdict) (reason : string) : planning := decided x (v <| SV_Reason := reason |>).

(** The sum of the totals already quoted in this plan. *)
Definition prior_budget (l : list SwarmVerdict) : res Z :=
  fold_left (fun acc v => total ← acc;
      match SV_Selected v, SV_Budget v with
      | true, Some q => budgetAdd total (BQ_Total q)
      | _, _ => Ok total
      end) l (Ok 0).

(** The lease a selected task would hold. *)
Definition proposed (c : SwarmCandidate) (b : TaskBinding) (placement : SwarmPlacement) (resources : list Resource) : Lease :=
  mkLease "" "" "" (SC_TaskID c) (TB_Repository b) (SPl_Checkout placement) resources 0 0 false.

(** The report a known-zero headroom is quoted against. *)
Definition headroom_report (p : BudgetPolicy) : PreflightReport := zero_report <| PR_Allowed := true |> <| PR_ExpiresAt := BP_ExpiresAt p |>.

Section planning.
Context (u : Unicode) (e : Env) (ad : Adapters) (au : Authority) (s : state).
Context (r : record) (project : string) (policy : SwarmPolicy) (snap : SwarmSnapshot).

(** The placement and the binding a candidate needs. *)
Definition bound_task (c : SwarmCandidate) : option (SwarmPlacement * TaskBinding) :=
  placement ← mget (SP_Placements policy) (SC_TaskID c);
  binding ← mget (Tasks s) (SC_TaskID c);
  if TB_AdmissionEnabled binding && (TB_ProjectID binding =? project)%string then Some (placement, binding) else None.

(** The refusals before anything is observed, and the claimed resources. *)
Definition claimed (x : planning) (c : SwarmCandidate) : string + (SwarmPlacement * TaskBinding * list Resource) :=
  if mhas (terminals s) (SC_TaskID c) then inl "task_execution_retired"%string
  else if negb (SC_Reason c =? "ready")%string then inl (SC_Reason c)
  else
    match bound_task c with
    | None => inl "owner_binding_missing"%string
    | Some (placement, binding) =>
      if negb (subset [task_resource (SC_TaskID c)] (r_Resources r)) then inl "scope_denied"%string
      else if (SP_Width policy <=? pl_selected x) || (SP_WIP policy <=? Z.of_nat (size (pl_tasks x)))
      then inl "capacity_exhausted"%string
      else if bool_decide (SC_Resources c = []) then inl "claims_missing"%string
      else
        match canonicalResources e (SPl_Checkout placement) (SC_TaskID c) (SC_Resources c) with
        | Err _ => inl "claims_invalid"%string
        | Ok resources =>
          if negb (within_scope r resources) then inl "scope_denied"%string
          else if negb (bool_decide (eval_symlinks e (SPl_Checkout placement) = Some (SPl_Checkout placement)))
          then inl "checkout_unavailable"%string
          else if existsb (overlaps (proposed c binding placement resources)) (pl_excluded x) then inl "resource_conflict"%string
          else inr (placement, binding, resources)
        end
    end.

(** Known-zero headroom: the quote of the refusal, when there is none left. *)
Definition exhausted_quote (c : SwarmCandidate) : prog (option BudgetQuote) :=
  match mget (budget_policies s) project with
  | None => mret None
  | Some p =>
    t ← look 1 (now e);
    status ← lift (budgetStatus s p t);
    if (BTo_Remaining (BS_Cycle status) <=? BP_RecoveryFloor p) || (BTo_Remaining (BS_Window status) <=? BP_RecoveryFloor p)
    then
      t ← look 1 (now e);
      q ← lift (calculateBudgetQuote p (SC_TaskID c) status (Some (headroom_report p)) 0 t);
      mret (Some (finishBudgetQuote
                    (q <| BQ_Allowed := false |> <| BQ_Reason := "insufficient_complete_cycle_headroom"%string |>) None))
    else mret None
  end.

(** The implementation role and, under a routing policy, its selection. *)
Definition implementation_role (c : SwarmCandidate) (placement : SwarmPlacement) (used : usage)
    : prog (string * option NativeModelRoutingSelection) :=
  let kind := SPl_ImplementKind placement in
  if Version s <? 11 then mret (choose policy kind used, None)
  else
    match mget (routing_policies s) project with
    | None => mret (pick policy kind (PT_ImplementationRole (preflight_spec s project (SC_TaskID c))) used, None)
    | Some _ =>
      selection ← selectModelRouting u e ad au s project (SC_TaskID c) used 0 "";
      mret (pick policy kind (MRS_RoleID selection) used, Some selection)
    end.
Definition review_role (c : SwarmCandidate) (placement : SwarmPlacement) (used : usage) : string :=
  let kind := SPl_ReviewKind placement in
  if Version s <? 11 then choose policy kind used
  else pick policy kind (PT_ReviewRole (preflight_spec s project (SC_TaskID c))) used.

(** The chosen task takes its roles, its slot and its resources. *)
Definition chosen_verdict (v : SwarmVerdict) (impl review : string) (lease : Lease) (obs : CheckoutObservation) : SwarmVerdict :=
  v <| SV_Selected := true |> <| SV_Reason := "selected"%string |> <| SV_ImplementationRole := impl |>
    <| SV_ReviewRole := review |> <| SV_Checkout := Lease_Checkout lease |> <| SV_Repository := Lease_Repository lease |>
    <| SV_BaseCommit := Commit obs |> <| SV_BaseTree := Tree obs |> <| SV_Resources := Lease_Resources lease |>.
Definition select (x : planning) (v : SwarmVerdict) (impl review : string) (lease : Lease) (obs : CheckoutObservation) : planning :=
  mkPlanning (pl_verdicts x ++ [chosen_verdict v impl review lease obs]) (bump review (bump impl (pl_used x)))
    ({[Lease_TaskID lease]} ∪ pl_tasks x) (pl_excluded x ++ [lease]) (pl_selected x + 1) (pl_seen x).

(** Preflight and budget of a task whose roles are free. *)
Definition admit_candidate (x : planning) (v : SwarmVerdict) (impl review : string) (lease : Lease)
    (obs : CheckoutObservation) : prog planning :=
  report ← ((if Version s <? 11 then mret None
             else r ← preflight e ad au s project (Lease_TaskID lease) impl review ""; mret (Some r)) : prog (option PreflightReport));
  let v := v <| SV_Preflight := report |> in
  if match report with Some r => negb (PR_Allowed r) | None => false end
  then mret (refuse x v ("preflight_" ++ match report with Some r => PR_FailureClass r | None => "" end)%string)
  else
    prior ← lift (prior_budget (pl_verdicts x));
    quote ← quoteBudget e ad s project (Lease_TaskID lease) report prior;
    let v := v <| SV_Budget := quote |> in
    match quote with
    | Some q => if BQ_Allowed q then mret (select x v impl review lease obs) else mret (refuse x v ("budget_" ++ BQ_Reason q)%string)
    | None => mret (select x v impl review lease obs)
    end.

(** Roles are chosen after the checkout was observed and headroom was found. *)
Definition place_candidate (x : planning) (v : SwarmVerdict) (c : SwarmCandidate) (placement : SwarmPlacement) (lease : Lease)
    (obs : CheckoutObservation) : prog planning :=
  '(impl, routing) ← implementation_role c placement (pl_used x);
  let v := v <| SV_Routing := routing |> in
  let used := if (impl =? "")%string then pl_used x else bump impl (pl_used x) in
  let review := review_role c placement used in
  if (impl =? "")%string || (review =? "")%string then mret (refuse x v "compatible_role_missing")
  else admit_candidate x v impl review lease obs.

Definition consider (x : planning) (c : SwarmCandidate) : prog planning :=
  let v := new_verdict (SC_TaskID c) (SC_Reason c) in
  match claimed x c with
  | inl reason => mret (refuse x v reason)
  | inr (placement, binding, resources) =>
    let lease := proposed c binding placement resources in
    obs ← look 1 (fun n => observe e n (SPl_Checkout placement));
    match obs with
    | None => mret (refuse x v "checkout_unavailable")
    | Some obs =>
      if negb (Repository obs =? TB_Repository binding)%string || negb (Locator obs =? SPl_Checkout placement)%string
      then mret (refuse x v "checkout_unavailable")
      else
        exhausted ← exhausted_quote c;
        match exhausted with
        | Some q => mret (refuse x (v <| SV_Budget := Some q |>) ("budget_" ++ BQ_Reason q)%string)
        | None => place_candidate x v c placement lease obs
        end
    end
  end.

(** One candidate of the snapshot; with [allowed] only those tasks are looked at. *)
Definition plan_candidate (allowed : option (list string)) (x : planning) (c : SwarmCandidate) : prog planning :=
  if match allowed with Some l => negb (subset [SC_TaskID c] l) | None => false end then mret x
  else
    forbid_if (negb (validID (SC_TaskID c)) || bool_decide (SC_TaskID c ∈ pl_seen x) || negb (SC_ProjectID c =? project)%string);;
    consider (x <| pl_seen := SC_TaskID c :: pl_seen x |>) c.

(** ** The plan once more, after it was made *)

(** The fresh report of a selected task is the one it was selected with. *)
Definition recheck_verdict (_ : unit) (v : SwarmVerdict) : prog unit :=
  if SV_Selected v then
    fresh ← preflight e ad au s project (SV_TaskID v) (SV_ImplementationRole v) (SV_ReviewRole v) "";
    lift (fail_if (preflightReportError fresh) (negb (PR_Allowed fresh)));;
    forbid_if (match SV_Preflight v with Some r => negb (PR_ProofDigest fresh =? PR_ProofDigest r)%string | None => true end)
  else mret tt.
Definition unexpired_verdict (_ : unit) (v : SwarmVerdict) : prog unit :=
  if SV_Selected v then
    t ← look 1 (now e);
    forbid_if (match SV_Preflight v with Some r => negb (t <? PR_ExpiresAt r) | None => true end)
  else mret tt.
Definition quoted_verdict (_ : unit) (v : SwarmVerdict) : prog unit :=
  if SV_Selected v then current ← budgetQuoteCurrent e s (SV_Budget v); forbid_if (negb current) else mret tt.

Definition confirm (token session action : string) (verdicts : list SwarmVerdict) : prog unit :=
  _ ← controller_now e s token session project action;
  policy_capability ad s policy project;;
  (if Version s <? 11 then mret tt else each recheck_verdict tt verdicts);;
  (if Version s <? 11 then mret tt else policy_capability ad s policy project);;
  _ ← controller_now e s token session project action;
  (if Version s <? 11 then mret tt else each unexpired_verdict tt verdicts);;
  each quoted_verdict tt verdicts.
End planning.

Section plans.
Context (u : Unicode) (e : Env) (ad : Adapters) (au : Authority).

Definition new_planning (s : state) (p : SwarmPolicy) (snap : SwarmSnapshot) : planning :=
  let o := swarmOccupancy s p snap in mkPlanning [] (oc_used o) (oc_tasks o) (oc_excluded o) 0 [].

Definition limit_width (limit : Z) (p : SwarmPolicy) : SwarmPolicy :=
  if (0 <? limit) && (limit <? SP_Width p)
  then mkSwarmPolicy (SP_ProjectID p) (SP_Revision p) (SP_Harness p) (SP_CapabilityDigest p) limit (SP_WIP p) (SP_TTL p)
         (SP_Stopped p) (SP_Roles p) (SP_Placements p)
  else p.

Definition planSwarmLimited (s : state) (token session project action : string) (limit : Z) (allowed : option (list string))
    : prog SwarmPlan :=
  r ← controller_now e s token session project action;
  policy ← lift (must (mget (swarm_policies s) project));
  forbid_if ((Version s <? 7) || SP_Stopped policy);;
  policy_capability ad s policy project;;
  let policy := limit_width limit policy in
  snap ← observed_swarm ad s project;
  forbid_if (SS_Digest snap =? "")%string;;
  forbid_if (negb (Nat.eqb (List.length (SS_RoleRegistry snap)) 0) && (Version s <? 20));;
  t ← look 1 (now e);
  lift (resolveRolePolicyReferences s project (SS_RoleRegistry snap) t);;
  x ← each (plan_candidate u e ad au s r project policy allowed) (new_planning s policy snap) (by_priority (SS_Candidates snap));
  confirm e ad au s project policy token session action (pl_verdicts x);;
  let plan := mkSwarmPlan 1 "" session project (SP_Revision policy) (SS_Digest snap) (Fence s) (pl_verdicts x) (SS_RoleRegistry snap) in
  mret (plan <| SPn_ID := planDigest plan |>).

Definition planSwarm (s : state) (token session project action : string) : prog SwarmPlan :=
  planSwarmLimited s token session project action 0 None.

Definition PlanSwarm (token session project : string) (s : state) : res SwarmPlan :=
  run (planSwarm s token session project "swarm.plan").
End plans.

(** ** Waves *)

Definition put_dispatch (s : state) (id : string) (d : DispatchReservation) : res state :=
  m ← mset (dispatches s) id d; Ok (s <| st_Swarm := (st_Swarm s) <| Dispatches := m |> |>).
Definition put_selection (s : state) (id : string) (d : DispatchReservation) : res state :=
  match DR_Routing d with
  | None => Ok s
  | Some x => m ← mset (selections s) id x; Ok (s <| st_Routing := (st_Routing s) <| ModelRoutingSelections := m |> |>)
  end.
Definition put_swarm_receipt (s : state) (key : string) (r : SwarmReceipt) : res state :=
  m ← mset (swarm_operations s) key r; Ok (s <| st_Swarm := (st_Swarm s) <| SwarmOperations := m |> |>).

(** The reservation of a selected verdict. *)
Definition new_dispatch (session : string) (p : SwarmPolicy) (plan : SwarmPlan) (v : SwarmVerdict) (id : string) (fence : Z)
    (expires : time) : DispatchReservation :=
  mkDispatch (SV_Routing v) id session (SP_ProjectID p) (SP_Revision p) (SV_ImplementationRole v) (SV_ReviewRole v)
    (SP_Harness p) (SV_BaseCommit v) (SV_BaseTree v)
    (mkLease id "" session (SV_TaskID v) (SV_Repository v) (SV_Checkout v) (SV_Resources v) fence expires false)
    (match SV_Preflight v with Some r => PR_ExpiresAt r | None => 0 end)
    (match SV_Preflight v with Some r => PR_ProofDigest r | None => "" end)
    (SPn_RoleRegistry plan) false "" "".

(** A provenance in force now and until the reservation expires. *)
Definition provenance_until (t expires : time) (x : RoleRegistryProvenance) : bool :=
  lifecycle_current t x && negb (RRP_LifecycleExpiresAt x <? expires).

Definition selected_verdicts (p : SwarmPlan) : list SwarmVerdict := List.filter SV_Selected (SPn_Verdicts p).

Section waves.
Context `{Reconciliation} (u : Unicode) (e : Env) (ad : Adapters) (au : Authority).

(** One selected verdict: a fence, an allocation of budget and a reservation. *)
Definition reserve_verdict (session wave : string) (p : SwarmPolicy) (plan : SwarmPlan) (expires : time)
    (x : state * list DispatchReservation) (v : SwarmVerdict) : prog (state * list DispatchReservation) :=
  let s := x.1 in
  forbid_if (Fence s =? max_uint64);;
  id ← ask 1 (mint e);
  let s := s <| Fence := incr_u64 (Fence s) |> in
  let d := new_dispatch session p plan v id (Fence s) expires in
  forbid_if (match SV_Preflight v with
             | Some r => negb (bool_decide (PR_RoleRegistry r = SPn_RoleRegistry plan)) | None => false end);;
  t ← look 1 (now e);
  s ← lift (allocateBudget s d wave (SV_Budget v) t);
  s ← lift (put_dispatch s id d);
  s ← lift (put_selection s id d);
  mret (s, x.2 ++ [d]).

Definition preflight_current (s : state) (_ : unit) (d : DispatchReservation) : prog unit := dispatchPreflight e ad au s d "".
Definition bound_current (s : state) (_ : unit) (d : DispatchReservation) : prog unit :=
  current ← preflightBoundCurrent e s d; forbid_if (negb current).
Definition budget_current (s : state) (_ : unit) (d : DispatchReservation) : prog unit :=
  current ← budgetDispatchCurrent e s d; forbid_if (negb current).

(** The controller is still who it was, and the reservation would not have expired. *)
Definition still_open (s : state) (token session project : string) (expires : time) : prog unit :=
  _ ← controller_now e s token session project "swarm.reserve";
  t ← look 1 (now e);
  forbid_if (negb (t <? expires)).

(** A wave is kept only if everything it stands for holds once more behind it. *)
Definition settle_wave (s0 s : state) (token session : string) (req : ReserveWaveRequest) (p : SwarmPolicy)
    (wave : SwarmWave) : prog state :=
  let project := SPn_ProjectID (RWR_Plan req) in
  let ds := SW_Dispatches wave in
  policy_capability ad s p (SP_ProjectID p);;
  still_open s token session project (RWR_ExpiresAt req);;
  each (preflight_current s) tt ds;;
  (if Version s <? 11 then mret tt else policy_capability ad s p (SP_ProjectID p));;
  still_open s token session project (RWR_ExpiresAt req);;
  each (bound_current s) tt ds;;
  gate ← consumeCheckpoint e ad au s0 token session req (SW_ID wave);
  still_open s token session project (RWR_ExpiresAt req);;
  each (bound_current s) tt ds;;
  let s := s <| st_Checkpoint := (st_Checkpoint s) <| Checkpoints := checkpoints gate |> |> in
  each (budget_current s) tt ds;;
  mret s.

(** The fresh plan, the expiry and the reservations. *)
Definition reserve_plan (s : state) (token session : string) (req : ReserveWaveRequest) (r : record) (fresh : SwarmPlan)
    : prog (SwarmWave * state) :=
  let plan := RWR_Plan req in
  lift (fail_if (preflightPlanError fresh plan) (negb (SPn_ID fresh =? SPn_ID plan)%string));;
  let p := swarm_policy s (SPn_ProjectID plan) in
  t ← look 1 (now e);
  forbid_if (negb (t <? RWR_ExpiresAt req) || (t + SP_TTL p <? RWR_ExpiresAt req) || (r_ExpiresAt r <? RWR_ExpiresAt req));;
  forbid_if (negb (forallb (provenance_until t (RWR_ExpiresAt req)) (SPn_RoleRegistry fresh)));;
  id ← ask 1 (mint e);
  '(s', ds) ← each (reserve_verdict session id p fresh (RWR_ExpiresAt req)) (s, []) (selected_verdicts fresh);
  lift (fail_if (preflightPlanError fresh plan) (bool_decide (map DR_ID ds = [])));;
  let wave := mkSwarmWave id (SPn_ID fresh) ds in
  s' ← settle_wave s s' token session req p wave;
  mret (wave, s').

Definition plan_presented (session : string) (p : SwarmPlan) : bool :=
  (SPn_SessionID p =? session)%string && (SPn_SchemaVersion p =? 1) && (SPn_ID p =? planDigest p)%string.

Definition reserveWaveStateLimited (s : state) (token session : string) (req : ReserveWaveRequest) (limit : Z)
    (allowed : option (list string)) : prog (SwarmWave * state) :=
  let project := SPn_ProjectID (RWR_Plan req) in
  r ← controller_now e s token session project "swarm.reserve";
  forbid_if (negb (validID (RWR_OperationKey req)) || negb (plan_presented session (RWR_Plan req)));;
  let digest := identity "swarm.reserve" session req in
  match mget (swarm_operations s) (RWR_OperationKey req) with
  | Some old =>
    forbid_if (negb (SRc_Digest old =? digest)%string);;
    wave ← lift (must (SRc_Wave old));
    mret (wave, s)
  | None =>
    _ ← consumeCheckpoint e ad au s token session req "";
    fresh ← planSwarmLimited u e ad au s token session project "swarm.reserve" limit allowed;
    '(wave, s') ← reserve_plan s token session req r fresh;
    s'' ← lift (put_swarm_receipt s' (RWR_OperationKey req) (mkSwarmReceipt digest (Some wave) None None));
    mret (wave, s'')
  end.

Definition ReserveWave (token session : string) (req : ReserveWaveRequest) : tx SwarmWave := fun s => run (
  t ← look 1 (now e);
  lift (genericControllerMutation s token session t);;
  reserveWaveStateLimited s token session req 0 None).
End waves.

(** ** Dispatch *)

Record AdmitDispatchRequest := mkAdmitDispatch { AD_DispatchID : string; AD_ExpectedFence : Z }.
Record HandoffDispatchRequest := mkHandoff {
  HD_OperationKey : string; HD_DispatchID : string; HD_AttemptID : string; HD_ExpectedFence : Z
}.
#[export] Instance HandoffDispatchRequest_json : ToJSON HandoffDispatchRequest := fun x =>
  JObject [("OperationKey", JString (HD_OperationKey x)); ("DispatchID", JString (HD_DispatchID x));
    ("AttemptID", JString (HD_AttemptID x)); ("ExpectedFence", JInt (HD_ExpectedFence x))]%string.

Definition task_of (d : DispatchReservation) : string := Lease_TaskID (DR_Reservation d).

(** The task is bound to the project and the repository of the reservation. *)
Definition dispatch_bound (s : state) (d : DispatchReservation) : bool :=
  match mget (Tasks s) (task_of d) with
  | Some b => TB_AdmissionEnabled b && (TB_Repository b =? Lease_Repository (DR_Reservation d))%string
              && (TB_ProjectID b =? DR_ProjectID d)%string
  | None => false
  end.

(** Every candidate of the task is ready with exactly the reserved resources, and
    there is one. *)
Definition candidate_current (e : Env) (d : DispatchReservation) (c : SwarmCandidate) : bool :=
  match canonicalResources e (Lease_Checkout (DR_Reservation d)) (SC_TaskID c) (SC_Resources c) with
  | Ok resources => (SC_Reason c =? "ready")%string && bool_decide (resources = Lease_Resources (DR_Reservation d))
  | Err _ => false
  end.
Definition candidates_current (e : Env) (d : DispatchReservation) (snap : SwarmSnapshot) : bool :=
  let l := List.filter (fun c => (SC_TaskID c =? task_of d)%string) (SS_Candidates snap) in
  negb (Nat.eqb (List.length l) 0) && forallb (candidate_current e d) l.

(** The placement is unchanged and the roles still exist with their kinds. *)
Definition placed_role (p : SwarmPolicy) (d : DispatchReservation) (id kind : string) : bool :=
  existsb (fun r => (SR_Harness r =? DR_Harness d)%string && (SR_ID r =? id)%string && (SR_Kind r =? kind)%string) (SP_Roles p).
Definition placement_current (p : SwarmPolicy) (d : DispatchReservation) : bool :=
  match mget (SP_Placements p) (task_of d) with
  | Some placement =>
    (SPl_Checkout placement =? Lease_Checkout (DR_Reservation d))%string
    && placed_role p d (DR_ImplementationRole d) (SPl_ImplementKind placement)
    && placed_role p d (DR_ReviewRole d) (SPl_ReviewKind placement)
  | None => false
  end.

Section dispatch.
Context (e : Env) (ad : Adapters) (au : Authority) (s : state).

(** The role provenance of the reservation is still that of the snapshot. *)
Definition registry_current (d : DispatchReservation) (snap : SwarmSnapshot) : prog unit :=
  t ← look 1 (now e);
  lift (resolveRolePolicyReferences s (DR_ProjectID d) (SS_RoleRegistry snap) t);;
  forbid_if (negb (bool_decide (DR_RoleRegistry d = SS_RoleRegistry snap)));;
  ok ← look (List.length (DR_RoleRegistry d))
         (fun n => forallb (fun x => lifecycle_current (now e (n + x.1)) x.2) (imap pair (DR_RoleRegistry d)));
  forbid_if (negb ok).

(** The checks of the snapshot: candidate, capacity, placement and roles. *)
Definition snapshot_current (p : SwarmPolicy) (d : DispatchReservation) (snap : SwarmSnapshot) : prog unit :=
  registry_current d snap;;
  forbid_if (negb (candidates_current e d snap) || negb (swarmCapacityAvailable s p snap d) || negb (placement_current p d)).

(** [a.admission.AdmitLease] *)
Definition lease_admitted (project task : string) : prog unit :=
  admission ← lift (must (admit_lease e));
  forbid_if (negb (admission (Binding_Workspace (st_Binding s)) project task)).

(** The checkout still shows the base of the reservation. *)
Definition base_observed (d : DispatchReservation) (repository checkout : string) : prog unit :=
  obs ← look 1 (fun n => observe e n checkout);
  obs ← lift (must obs);
  forbid_if (negb (Repository obs =? repository)%string || negb (Locator obs =? checkout)%string
             || negb (Commit obs =? DR_BaseCommit d)%string || negb (Tree obs =? DR_BaseTree d)%string).

Definition unexpired (d : DispatchReservation) : prog unit :=
  t ← look 1 (now e); forbid_if (negb (t <? Lease_ExpiresAt (DR_Reservation d))).

(** The dispatch may be started at all. *)
Definition startable (id : string) : prog DispatchReservation :=
  d ← lift (must (mget (dispatches s) id));
  forbid_if (mhas (terminals s) (task_of d));;
  current ← budgetDispatchCurrent e s d;
  forbid_if (negb current);;
  forbid_if (negb (lifecycleDispatchEligible s id) || mhas (cancellations s) id);;
  mret d.

(** The policy the reservation was made under is in force. *)
Definition policy_of (d : DispatchReservation) : res SwarmPolicy :=
  p ← must (mget (swarm_policies s) (DR_ProjectID d));
  deny_if (SP_Stopped p || negb (SP_Revision p =? DR_PolicyRevision d)%string);;
  Ok p.

Definition admitDispatch (token session : string) (req : AdmitDispatchRequest) : prog DispatchReservation :=
  d ← startable (AD_DispatchID req);
  forbid_if (negb (DR_ControllerSessionID d =? session)%string || negb (Lease_Fence (DR_Reservation d) =? AD_ExpectedFence req)
             || negb (reservationRetained s d));;
  unexpired d;;
  r ← controller_now e s token session (DR_ProjectID d) "swarm.dispatch";
  p ← lift (policy_of d);
  forbid_if (negb (SP_Harness p =? DR_Harness d)%string);;
  policy_capability ad s p (DR_ProjectID d);;
  forbid_if (negb (dispatch_bound s d) || negb (within_scope r (Lease_Resources (DR_Reservation d))));;
  lease_admitted (DR_ProjectID d) (task_of d);;
  snap ← observed_swarm ad s (DR_ProjectID d);
  snapshot_current p d snap;;
  base_observed d (Lease_Repository (DR_Reservation d)) (Lease_Checkout (DR_Reservation d));;
  policy_capability ad s p (DR_ProjectID d);;
  _ ← controller_now e s token session (DR_ProjectID d) "swarm.dispatch";
  unexpired d;;
  dispatchPreflight e ad au s d "";;
  (if Version s <? 11 then mret tt else policy_capability ad s p (DR_ProjectID d));;
  _ ← controller_now e s token session (DR_ProjectID d) "swarm.dispatch";
  unexpired d;;
  bound_current e s tt d;;
  mret d.

Definition AdmitDispatch (token session : string) (req : AdmitDispatchRequest) : res DispatchReservation := run (
  t ← look 1 (now e);
  lift (genericControllerMutation s token session t);;
  admitDispatch token session req).

(** ** Handoff *)

(** The walk over the controller's ancestors, a reading for each. *)
Fixpoint lineage_at (fuel : nat) (i : nat) (seen : gset string) (cur : record) : bool :=
  match fuel with
  | O => false
  | S fuel =>
    if bool_decide (r_ID cur ∈ seen) || r_Revoked cur || negb (now e i <? r_ExpiresAt cur) then false
    else if (r_Parent cur =? "")%string then true
    else match mget (Sessions s) (r_Parent cur) with
         | Some next => lineage_at fuel (S i) ({[r_ID cur]} ∪ seen) next
         | None => false
         end
  end.
Definition controller_lineage (d : DispatchReservation) : prog record :=
  cr ← lift (must (mget (Sessions s) (DR_ControllerSessionID d)));
  live ← look (session_fuel s) (fun n => lineage_at (session_fuel s) n ∅ cr);
  forbid_if (negb live);;
  mret cr.

Definition lease_auth_now (token worker attempt : string) : prog (record * Attempt) :=
  t ← look 1 (now e); lift (leaseAuth s token worker attempt "lease.acquire" t).

(** The controller may hand this dispatch to the worker's attempt. *)
Definition handoff_scoped (d : DispatchReservation) (r cr : record) (at_ : Attempt) : bool :=
  let l := DR_Reservation d in
  (at_task at_ =? Lease_TaskID l)%string && (Locator (Attempt_Observation at_) =? Lease_Checkout l)%string
  && (Repository (Attempt_Observation at_) =? Lease_Repository l)%string
  && within_scope r (Lease_Resources l) && within_scope cr (Lease_Resources l)
  && subset ["swarm.dispatch"]%string (r_Actions cr) && subset [("project:" ++ DR_ProjectID d)%string] (r_Resources cr).

(** The lease the reservation becomes. *)
Definition handed_lease (d : DispatchReservation) (worker : string) (at_ : Attempt) : Lease :=
  (DR_Reservation d) <| Lease_AttemptID := Attempt_ID at_ |> <| Lease_SessionID := worker |>.

(** Nothing else that is protected overlaps it. *)
Definition handoff_conflicts (d : DispatchReservation) (l : Lease) : bool :=
  existsb (fun old => negb (Lease_Released old) && overlaps l old) (mvals (Leases s))
  || existsb (fun other => negb (DR_ID other =? DR_ID d)%string && reservationRetained s other
                           && overlaps l (DR_Reservation other)) (mvals (dispatches s)).

(** The checkout is the attempt's, unchanged, and at the base. *)
Definition handoff_observed (d : DispatchReservation) (at_ : Attempt) : prog unit :=
  lift (checkLeaseCheckout e at_);;
  let a := Attempt_Observation at_ in
  obs ← look 1 (fun n => observe e n (Locator a));
  obs ← lift (must obs);
  forbid_if (negb (Commit obs =? Commit a)%string || negb (Tree obs =? Tree a)%string
             || negb (Commit obs =? DR_BaseCommit d)%string || negb (Tree obs =? DR_BaseTree d)%string).

(** Worker and controller are current at one moment each. *)
Definition handoff_open (d : DispatchReservation) (token worker attempt : string) : prog unit :=
  _ ← lease_auth_now token worker attempt;
  t ← look 1 (now e);
  forbid_if (negb (swarmLineageCurrent s (DR_ControllerSessionID d) t));;
  unexpired d.

(** The reservation becomes the worker's lease under a new fence. *)
Definition convert (d : DispatchReservation) (worker : string) (at_ : Attempt) (key digest : string) (l : Lease) : res (Lease * state) :=
  deny_if (Fence s =? max_uint64);;
  let s := s <| Fence := incr_u64 (Fence s) |> in
  let l := l <| Lease_Fence := Fence s |> in
  let d := d <| DR_Converted := true |> <| DR_WorkerSessionID := worker |> <| DR_AttemptID := Attempt_ID at_ |> in
  s ← put_dispatch s (DR_ID d) d;
  s ← put_selection s (DR_ID d) d;
  leases ← mset (Leases s) (Lease_ID l) l;
  s ← put_swarm_receipt (s <| Leases := leases |>) key (mkSwarmReceipt digest None None (Some l));
  Ok (l, s).

Definition new_handoff (token worker digest : string) (req : HandoffDispatchRequest) (r : record) (at_ : Attempt)
    : prog (Lease * state) :=
  d ← lift (must (mget (dispatches s) (HD_DispatchID req)));
  forbid_if (negb (reservationRetained s d) || (DR_ControllerSessionID d =? worker)%string
             || negb (Lease_Fence (DR_Reservation d) =? HD_ExpectedFence req));;
  unexpired d;;
  cr ← controller_lineage d;
  p ← lift (policy_of d);
  policy_capability ad s p (DR_ProjectID d);;
  forbid_if (negb (handoff_scoped d r cr at_));;
  lease_admitted (DR_ProjectID d) (at_task at_);;
  forbid_if (negb (dispatch_bound s d));;
  snap ← observed_swarm ad s (DR_ProjectID d);
  snapshot_current p d snap;;
  forbid_if (negb (SP_Harness p =? DR_Harness d)%string);;
  handoff_observed d at_;;
  let l := handed_lease d worker at_ in
  forbid_if (r_ExpiresAt r <? Lease_ExpiresAt l);;
  forbid_if (handoff_conflicts d l);;
  policy_capability ad s p (DR_ProjectID d);;
  handoff_open d token worker (HD_AttemptID req);;
  dispatchPreflight e ad au s d worker;;
  (if Version s <? 11 then mret tt else policy_capability ad s p (DR_ProjectID d));;
  handoff_open d token worker (HD_AttemptID req);;
  bound_current e s tt d;;
  currentRoleRegistryMatches e ad s d;;
  lift (convert d worker at_ (HD_OperationKey req) digest l).

Definition handoffDispatch (token worker : string) (req : HandoffDispatchRequest) : prog (Lease * state) :=
  '(r, at_) ← lease_auth_now token worker (HD_AttemptID req);
  forbid_if (negb (validID (HD_OperationKey req)));;
  let digest := identity "swarm.handoff" worker req in
  match mget (swarm_operations s) (HD_OperationKey req) with
  | Some old =>
    forbid_if (negb (SRc_Digest old =? digest)%string);;
    l ← lift (must (SRc_Lease old));
    mret (l, s)
  | None => new_handoff token worker digest req r at_
  end.

Definition HandoffDispatch (token worker : string) (req : HandoffDispatchRequest) : res (Lease * state) :=
  deny_if (mhas (intents s) (HD_DispatchID req));;
  run (handoffDispatch token worker req).
End dispatch.
