(* ===== verification/Intents.v ===== *)
(** * Dispatch intents

    dispatch_intents.go: the durable record of a requested host action, its
    correlation by a bridge and its acknowledgement by the worker, which hands the
    reservation off in the same transaction.  An intent moves from
    [dispatch_requested] through [host_correlated] to [acknowledged], or waits in
    [dispatch_unknown] and [manual_handoff_required]. *)

From S2P Require Import Prelude Floats GoStd Text Runes Team Strategy Disclosure State Session Withdrawal Resources Attempts Leases Lifecycle Evidence Reviews Encodings Scheduling Preflight Budgets Checkpoints Routing Swarms.
#[local] Open Scope Z_scope.

#[export] Instance DispatchIntent_settable : Settable DispatchIntent := fun x =>
  mkDispatchIntent (DI_SchemaVersion x) (DI_Sequence x) (DI_ID x) (DI_OperationKey x) (DI_DispatchID x)
    (DI_ControllerSessionID x) (DI_BridgeSessionID x) (DI_WorkerSessionID x) (DI_PromptSpecDigest x)
    (DI_CapabilityDigest x) (DI_State x) (DI_HostAgentID x) (DI_Reservation x) (DI_RequestedAt x) (DI_ObservedAt x) (DI_Lease x).
#[export] Instance IntentMaps_settable : Settable IntentMaps := fun m =>
  mkIntentMaps (DispatchIntents m) (DispatchIntentOperations m).

(** ** Requests *)

Record RequestDispatchIntent := mkRequestIntent {
  RDI_OperationKey : string; RDI_DispatchID : string; RDI_BridgeSessionID : string; RDI_WorkerSessionID : string;
  RDI_PromptSpecDigest : string; RDI_ExpectedFence : Z
}.
#[export] Instance RequestDispatchIntent_json : ToJSON RequestDispatchIntent := fun x =>
  JObject [("OperationKey", JString (RDI_OperationKey x)); ("DispatchID", JString (RDI_DispatchID x));
    ("BridgeSessionID", JString (RDI_BridgeSessionID x)); ("WorkerSessionID", JString (RDI_WorkerSessionID x));
    ("PromptSpecDigest", JString (RDI_PromptSpecDigest x)); ("ExpectedFence", JInt (RDI_ExpectedFence x))]%string.
Record DispatchIntentResult := mkIntentResult { DIRs_Intent : DispatchIntent; DIRs_HostActionAuthorized : bool }.
Record CorrelateDispatchIntent := mkCorrelateIntent {
  CDI_OperationKey : string; CDI_DispatchID : string; CDI_IntentID : string; CDI_HostAgentID : string; CDI_State : string;
  CDI_ExpectedFence : Z; CDI_ExpectedSequence : Z
}.
#[export] Instance CorrelateDispatchIntent_json : ToJSON CorrelateDispatchIntent := fun x =>
  JObject [("OperationKey", JString (CDI_OperationKey x)); ("DispatchID", JString (CDI_DispatchID x));
    ("IntentID", JString (CDI_IntentID x)); ("HostAgentID", JString (CDI_HostAgentID x)); ("State", JString (CDI_State x));
    ("ExpectedFence", JInt (CDI_ExpectedFence x)); ("ExpectedSequence", JInt (CDI_ExpectedSequence x))]%string.
Record AcknowledgeDispatchIntent := mkAcknowledgeIntent {
  ADI_OperationKey : string; ADI_DispatchID : string; ADI_IntentID : string; ADI_AttemptID : string; ADI_HostAgentID : string;
  ADI_ExpectedFence : Z; ADI_ExpectedSequence : Z
}.
#[export] Instance AcknowledgeDispatchIntent_json : ToJSON AcknowledgeDispatchIntent := fun x =>
  JObject [("OperationKey", JString (ADI_OperationKey x)); ("DispatchID", JString (ADI_DispatchID x));
    ("IntentID", JString (ADI_IntentID x)); ("AttemptID", JString (ADI_AttemptID x)); ("HostAgentID", JString (ADI_HostAgentID x));
    ("ExpectedFence", JInt (ADI_ExpectedFence x)); ("ExpectedSequence", JInt (ADI_ExpectedSequence x))]%string.

(** ** Identifiers of host agents *)

(** [unicode.IsControl] *)
Definition IsControl (r : Z) : bool := (r <? 32) || (127 <=? r) && (r <? 160).
Definition validHostAgentID (id : string) : bool :=
  negb (len id =? 0) && negb (1024 <? len id)
  && forallb (fun x => negb (IsSpace x.1 || IsControl x.1)) (raw_runes id).

(** ** Storage *)

Definition put_intent (s : state) (dispatch : string) (i : DispatchIntent) : res state :=
  m ← mset (intents s) dispatch i; Ok (s <| st_Intents := (st_Intents s) <| DispatchIntents := m |> |>).
Definition put_intent_receipt (s : state) (key : string) (r : DispatchIntentReceipt) : res state :=
  m ← mset (intent_operations s) key r; Ok (s <| st_Intents := (st_Intents s) <| DispatchIntentOperations := m |> |>).
Definition record_intent (s : state) (key digest : string) (i : DispatchIntent) : res state :=
  s ← put_intent s (DI_DispatchID i) i; put_intent_receipt s key (mkDispatchIntentReceipt digest i).

Section intents.
Context (e : Env) (ad : Adapters) (au : Authority).

(** [dispatchActor] at one moment: the scope of a controller. *)
Definition dispatch_actor (s : state) (token id project action : string) : prog record := controller_now e s token id project action.

(** [dispatchBoundActor] at one moment. *)
Definition bound_actor (s : state) (id project action : string) (d : DispatchReservation) : prog unit :=
  ok ← look 1 (fun n => dispatchBoundActor s id project action d (now e n)); forbid_if (negb ok).

(** [dispatchCapability]; the callers refuse on any error. *)
Definition dispatchCapability (s : state) (d : DispatchReservation) : prog unit :=
  p ← lift (policy_of s d);
  forbid_if (negb (SP_Harness p =? DR_Harness d)%string);;
  admission ← lift (must (admit_dispatch ad));
  ok ← look 1 (fun n => admission n (Binding_Workspace (st_Binding s)) (DR_ProjectID d) (DR_Harness d) (SP_CapabilityDigest p));
  forbid_if (negb ok).

(** Bridge and worker may serve the dispatch. *)
Definition actors_bound (s : state) (d : DispatchReservation) (bridge worker : string) : prog unit :=
  bound_actor s bridge (DR_ProjectID d) "dispatch.correlate" d;;
  bound_actor s worker (DR_ProjectID d) "lease.acquire" d.

Definition lineage_now (s : state) (id : string) : prog unit :=
  ok ← look 1 (fun n => swarmLineageCurrent s id (now e n)); forbid_if (negb ok).

(** A repeated request: its stored intent. *)
Definition intent_receipt (old : DispatchIntentReceipt) (digest : string) : prog DispatchIntent :=
  forbid_if (negb (DIR_Digest old =? digest)%string);; mret (DIR_Intent old).

(** ** Requests *)

Definition new_intent (s : state) (controller : string) (req : RequestDispatchIntent) (d fresh : DispatchReservation)
    (id : string) (t : time) : DispatchIntent :=
  mkDispatchIntent 1 1 id (RDI_OperationKey req) (DR_ID d) controller (RDI_BridgeSessionID req) (RDI_WorkerSessionID req)
    (RDI_PromptSpecDigest req) (SP_CapabilityDigest (swarm_policy s (DR_ProjectID d))) "dispatch_requested" "" fresh t 0 None.

(** What is checked again behind the new intent. *)
Definition reconfirm_request (s : state) (token controller : string) (req : RequestDispatchIntent)
    (d fresh : DispatchReservation) : prog unit :=
  let bridge := RDI_BridgeSessionID req in
  let worker := RDI_WorkerSessionID req in
  _ ← dispatch_actor s token controller (DR_ProjectID d) "swarm.dispatch";
  actors_bound s d bridge worker;;
  (if Version s <? 11 then mret tt else dispatchCapability s d);;
  _ ← dispatch_actor s token controller (DR_ProjectID d) "swarm.dispatch";
  unexpired e d;;
  actors_bound s d bridge worker;;
  dispatchPreflight e ad au s d worker;;
  dispatchCapability s d;;
  _ ← dispatch_actor s token controller (DR_ProjectID d) "swarm.dispatch";
  actors_bound s d bridge worker;;
  unexpired e d;;
  bound_current e s tt d;;
  budget_current e s tt d;;
  currentRoleRegistryMatches e ad s fresh.

Definition requestDispatchIntentState (s : state) (token controller : string) (req : RequestDispatchIntent)
    : prog (DispatchIntentResult * state) :=
  forbid_if (Version s <? 8);;
  d ← lift (must (mget (dispatches s) (RDI_DispatchID req)));
  _ ← dispatch_actor s token controller (DR_ProjectID d) "swarm.dispatch";
  forbid_if (negb (validID (RDI_OperationKey req)) || negb (validPromptDigest (RDI_PromptSpecDigest req))
             || negb (RDI_ExpectedFence req =? Lease_Fence (DR_Reservation d)));;
  let digest := identity "dispatch.request" controller req in
  match mget (intent_operations s) (RDI_OperationKey req) with
  | Some old => i ← intent_receipt old digest; mret (mkIntentResult i false, s)
  | None =>
    forbid_if (mhas (intents s) (DR_ID d));;
    forbid_if ((RDI_BridgeSessionID req =? controller)%string || (RDI_WorkerSessionID req =? controller)%string
               || (RDI_WorkerSessionID req =? RDI_BridgeSessionID req)%string);;
    actors_bound s d (RDI_BridgeSessionID req) (RDI_WorkerSessionID req);;
    dispatchCapability s d;;
    fresh ← admitDispatch e ad au s token controller (mkAdmitDispatch (DR_ID d) (RDI_ExpectedFence req));
    id ← ask 1 (mint e);
    t ← look 1 (now e);
    let intent := new_intent s controller req d fresh id t in
    reconfirm_request s token controller req d fresh;;
    s' ← lift (record_intent s (RDI_OperationKey req) digest intent);
    mret (mkIntentResult intent true, s')
  end.

Definition RequestDispatch (token controller : string) (req : RequestDispatchIntent) : tx DispatchIntentResult := fun s => run (
  t ← look 1 (now e);
  lift (genericControllerMutation s token controller t);;
  requestDispatchIntentState s token controller req).

(** ** Correlation *)

(** The transitions a bridge may make. *)
Definition correlates (from to : string) : bool :=
  (from =? "dispatch_requested")%string
  || ((from =? "dispatch_unknown")%string || (from =? "manual_handoff_required")%string) && (to =? "host_correlated")%string.
(** The state a bridge reports, with the host agent it needs. *)
Definition reported_ok (to host : string) : bool :=
  if (to =? "host_correlated")%string then validHostAgentID host
  else if (to =? "manual_handoff_required")%string || (to =? "dispatch_unknown")%string then (host =? "")%string
  else false.

(** Neither recovered nor cancelled. *)
Definition intent_live (s : state) (i : DispatchIntent) : bool :=
  negb (mhas (recoveries s) ("reservation:" ++ DI_DispatchID i)) && negb (mhas (cancellations s) (DI_DispatchID i)).

Definition intent_fence (i : DispatchIntent) : Z := Lease_Fence (DR_Reservation (DI_Reservation i)).
Definition intent_project (i : DispatchIntent) : string := DR_ProjectID (DI_Reservation i).

(** [i.Sequence++] and the new state. *)
Definition advanced (i : DispatchIntent) (to host : string) (lease : option Lease) (t : time) : DispatchIntent :=
  i <| DI_Sequence := incr_u64 (DI_Sequence i) |> <| DI_State := to |> <| DI_HostAgentID := host |>
    <| DI_Lease := lease |> <| DI_ObservedAt := t |>.

Definition actor_intent (s : state) (dispatch id : string) (actor : DispatchIntent -> string) (session : string) : res DispatchIntent :=
  deny_if (Version s <? 8);;
  i ← must (mget (intents s) dispatch);
  deny_if (negb (DI_ID i =? id)%string || negb (actor i =? session)%string);;
  Ok i.

Definition CorrelateDispatch (token bridge : string) (req : CorrelateDispatchIntent) : tx DispatchIntent := fun s => run (
  i ← lift (actor_intent s (CDI_DispatchID req) (CDI_IntentID req) DI_BridgeSessionID bridge);
  _ ← dispatch_actor s token bridge (intent_project i) "dispatch.correlate";
  forbid_if (negb (validID (CDI_OperationKey req)) || negb (CDI_ExpectedFence req =? intent_fence i));;
  let digest := identity "dispatch.correlate" bridge req in
  match mget (intent_operations s) (CDI_OperationKey req) with
  | Some old => i ← intent_receipt old digest; mret (i, s)
  | None =>
    forbid_if (negb (intent_live s i) || negb (CDI_ExpectedSequence req =? DI_Sequence i)
               || negb (correlates (DI_State i) (CDI_State req)) || negb (reported_ok (CDI_State req) (CDI_HostAgentID req)));;
    bound_actor s bridge (intent_project i) "dispatch.correlate" (DI_Reservation i);;
    lineage_now s (DI_ControllerSessionID i);;
    (if (CDI_State req =? "host_correlated")%string
     then dispatchCapability s (DI_Reservation i);; unexpired e (DI_Reservation i) else mret tt);;
    _ ← dispatch_actor s token bridge (intent_project i) "dispatch.correlate";
    lineage_now s (DI_ControllerSessionID i);;
    t ← look 1 (now e);
    let i := advanced i (CDI_State req) (CDI_HostAgentID req) (DI_Lease i) t in
    m ← lift (put_intent s (CDI_DispatchID req) i);
    s' ← lift (put_intent_receipt m (CDI_OperationKey req) (mkDispatchIntentReceipt digest i));
    mret (i, s')
  end).

(** ** Acknowledgement *)

Definition handoff_of (req : AcknowledgeDispatchIntent) : HandoffDispatchRequest :=
  mkHandoff (ADI_OperationKey req) (ADI_DispatchID req) (ADI_AttemptID req) (ADI_ExpectedFence req).

Definition AcknowledgeDispatch (token worker : string) (req : AcknowledgeDispatchIntent) : tx DispatchIntent := fun s => run (
  i ← lift (actor_intent s (ADI_DispatchID req) (ADI_IntentID req) DI_WorkerSessionID worker);
  _ ← lease_auth_now e s token worker (ADI_AttemptID req);
  forbid_if (negb (validID (ADI_OperationKey req)) || negb (ADI_ExpectedFence req =? intent_fence i));;
  let digest := identity "dispatch.acknowledge" worker req in
  match mget (intent_operations s) (ADI_OperationKey req) with
  | Some old => i ← intent_receipt old digest; mret (i, s)
  | None =>
    let d := DI_Reservation i in
    forbid_if (negb (intent_live s i) || negb (lifecycleDispatchEligible s (DI_DispatchID i))
               || negb (ADI_ExpectedSequence req =? DI_Sequence i) || negb (DI_State i =? "host_correlated")%string
               || negb (DI_HostAgentID i =? ADI_HostAgentID req)%string);;
    bound_actor s (DI_BridgeSessionID i) (intent_project i) "dispatch.correlate" d;;
    dispatchCapability s d;;
    '(lease, s') ← handoffDispatch e ad au s token worker (handoff_of req);
    bound_actor s' (DI_BridgeSessionID i) (intent_project i) "dispatch.correlate" d;;
    dispatchCapability s' d;;
    currentRoleRegistryMatches e ad s' d;;
    _ ← lease_auth_now e s' token worker (ADI_AttemptID req);
    unexpired e d;;
    lineage_now s' (DI_ControllerSessionID i);;
    bound_actor s' (DI_BridgeSessionID i) (intent_project i) "dispatch.correlate" d;;
    t ← look 1 (now e);
    let i := advanced i "acknowledged" (DI_HostAgentID i) (Some lease) t in
    m ← lift (put_intent s' (ADI_DispatchID req) i);
    s'' ← lift (put_intent_receipt m (ADI_OperationKey req) (mkDispatchIntentReceipt digest i));
    mret (i, s'')
  end).

(** [DispatchIntentStatus] *)
Definition DispatchIntentStatus (token actor dispatch : string) (s : state) : res DispatchIntent :=
  deny_if (Version s <? 8);;
  i ← must (mget (intents s) dispatch);
  r ← authenticate s token actor (now e 0);
  deny_if (negb (bool_decide (actor ∈ [DI_ControllerSessionID i; DI_BridgeSessionID i; DI_WorkerSessionID i])));;
  deny_if (negb (subset ["read"]%string (r_Actions r)) || negb (subset [task_resource (task_of (DI_Reservation i))] (r_Resources r)));;
  Ok i.
End intents.
