(* ===== verification/SwarmLaws.v ===== *)
(** * What plans, waves and handoffs promise

    A plan selects within the width, the work in progress and the role slots of
    the owner's policy, and only tasks whose resources nothing else protects; a
    wave turns exactly the selected verdicts into reservations; a handoff turns
    one reservation into one lease.  [reservation_inv] is what ties them to the
    lease table: no two things that protect resources overlap. *)

From S2P Require Import Prelude Floats GoStd Text Runes Team Strategy Disclosure State Session Schema Withdrawal Resources Attempts Leases Lifecycle Evidence Reviews Encodings Scheduling Preflight PreflightLaws Budgets BudgetLaws Checkpoints CheckpointLaws Routing Swarms.
#[local] Open Scope Z_scope.

(** The identifier of a plan does not enter its digest. *)
Lemma planDigest_id p id : planDigest (p <| SPn_ID := id |>) = planDigest p.
Proof. done. Qed.

#[global] Opaque preflight quoteBudget selectModelRouting planDigest.

(** ** Occupancy *)

(** A lease that protects something: unreleased, or reserved and not handed off. *)
Definition protects (s : state) (l : Lease) : Prop :=
  (exists k, mget (Leases s) k = Some l /\ Lease_Released l = false)
  \/ exists k d, mget (dispatches s) k = Some d /\ reservationRetained s d = true /\ l = DR_Reservation d.

Lemma occupy_dispatch_excluded s p l o x :
  x ∈ oc_excluded (fold_left (occupy_dispatch s p) l o)
  <-> x ∈ oc_excluded o \/ exists d, d ∈ l /\ reservationRetained s d = true /\ x = DR_Reservation d.
Proof.
  revert o. induction l as [| d l IH]; intros o; simpl.
  { split; [auto | intros [? | (? & ?%elem_of_nil & _)]; done]. }
  rewrite IH. unfold occupy_dispatch. destruct (reservationRetained s d) eqn:E; simpl.
  - assert (oc_excluded (if (DR_ProjectID d =? SP_ProjectID p)%string
       then mkOccupancy (bump_pair d (oc_used o)) ({[Lease_TaskID (DR_Reservation d)]} ∪ oc_tasks o) (oc_excluded o ++ [DR_Reservation d])
       else mkOccupancy (oc_used o) (oc_tasks o) (oc_excluded o ++ [DR_Reservation d])) = oc_excluded o ++ [DR_Reservation d]) as ->
      by (by destruct (_ =? _)%string).
    rewrite elem_of_app, list_elem_of_singleton. split.
    + intros [[? | ->] | (d' & ? & ? & ->)]; [by left | right; exists d; split_and!; [left | done | done] |].
      right. exists d'. split_and!; [by right | done | done].
    + intros [? | (d' & [-> | ?]%elem_of_cons & ? & ->)]; [by left; left | by left; right |]. right. eauto.
  - split.
    + intros [? | (d' & ? & ? & ->)]; [by left |]. right. exists d'. split_and!; [by right | done | done].
    + intros [? | (d' & [-> | ?]%elem_of_cons & ? & ->)]; [by left | congruence | right; eauto].
Qed.

Lemma occupy_lease_excluded s p l o x :
  x ∈ oc_excluded (fold_left (occupy_lease s p) l o)
  <-> x ∈ oc_excluded o \/ x ∈ l /\ Lease_Released x = false.
Proof.
  revert o. induction l as [| y l IH]; intros o; simpl.
  { split; [auto | intros [? | (?%elem_of_nil & _)]; done]. }
  rewrite IH. unfold occupy_lease. destruct (Lease_Released y) eqn:E; simpl.
  - rewrite elem_of_cons. split; [naive_solver | intros [? | [[-> | ?] ?]]; [by left | congruence | by right]].
  - assert (forall (c : bool) u t, oc_excluded (if c then mkOccupancy u t (oc_excluded o ++ [y])
              else mkOccupancy (oc_used o) (oc_tasks o) (oc_excluded o ++ [y])) = oc_excluded o ++ [y]) as ->
      by (by intros []).
    rewrite elem_of_app, list_elem_of_singleton, elem_of_cons. naive_solver.
Qed.

Lemma occupy_candidate_excluded p l o : oc_excluded (fold_left (occupy_candidate p) l o) = oc_excluded o.
Proof.
  revert o. induction l as [| c l IH]; intros o; simpl; [done |]. rewrite IH. unfold occupy_candidate. by destruct (_ && _).
Qed.

(** What a plan must not touch is everything that protects something. *)
Lemma swarmOccupancy_excluded s p snap l : l ∈ oc_excluded (swarmOccupancy s p snap) <-> protects s l.
Proof.
  unfold swarmOccupancy. rewrite occupy_candidate_excluded, occupy_lease_excluded, occupy_dispatch_excluded. simpl.
  unfold protects. split.
  - intros [[?%elem_of_nil | (d & [k Hk]%elem_of_mvals & Hr & ->)] | [[k Hk]%elem_of_mvals Hr]]; [done | right; eauto | left; eauto].
  - intros [(k & Hk & Hr) | (k & d & Hk & Hr & ->)]; [right | left; right; exists d]; rewrite elem_of_mvals; eauto.
Qed.

(** ** Roles *)

Lemma used_of_bump u a b : used_of (bump a u) b = used_of u b + (if (a =? b)%string then 1 else 0).
Proof.
  unfold used_of, bump. destruct (String.eqb_spec a b) as [-> | Hn].
  - rewrite lookup_insert_eq. done.
  - rewrite lookup_insert_ne by done. lia.
Qed.

(** [id] is a role of this kind and of the project's harness with a free slot. *)
Definition has_slot (p : SwarmPolicy) (kind : string) (used : usage) (id : string) : Prop :=
  exists r, r ∈ SP_Roles p /\ SR_ID r = id /\ SR_Kind r = kind /\ SR_Harness r = SP_Harness p /\ used_of used id < SR_Capacity r.

Lemma role_order_elem l r : r ∈ role_order l <-> r ∈ l.
Proof. unfold role_order. by rewrite merge_sort_Permutation. Qed.

Lemma find_slot p kind used f id :
  id <> ""%string -> role_id (List.find (fun r => f r && role_free p kind used r) (role_order (SP_Roles p))) = id ->
  has_slot p kind used id.
Proof.
  intros Hne H. destruct (List.find _ _) as [r |] eqn:Ef; [| by simpl in H]. simpl in H.
  apply find_some in Ef as [Hin%list_elem_of_In Hf]. rewrite role_order_elem in Hin. unfold role_free in Hf. bool_facts.
  subst id. exists r. by split_and!.
Qed.

Lemma choose_slot p kind used id : choose p kind used = id -> id <> ""%string -> has_slot p kind used id.
Proof. intros H Hne. by apply (find_slot p kind used (fun _ => true)). Qed.
Lemma pick_slot p kind want used id : pick p kind want used = id -> id <> ""%string -> has_slot p kind used id.
Proof. intros H Hne. by apply (find_slot p kind used (fun r => SR_ID r =? want)%string). Qed.

(** ** One candidate *)

Definition verdict_lease (v : SwarmVerdict) : Lease :=
  mkLease "" "" "" (SV_TaskID v) (SV_Repository v) (SV_Checkout v) (SV_Resources v) 0 0 false.

Section plans.
Context (u : Unicode) (e : Env) (ad : Adapters) (au : Authority) (s : state).
Context (r : record) (project : string) (policy : SwarmPolicy) (snap : SwarmSnapshot).

(** What holds of a selected verdict whatever the others are. *)
Record sound (v : SwarmVerdict) : Prop := {
  sd_live : mhas (terminals s) (SV_TaskID v) = false;
  sd_ready : exists c, c ∈ SS_Candidates snap /\ SC_TaskID c = SV_TaskID v /\ SC_Reason c = "ready"%string
               /\ canonicalResources e (SV_Checkout v) (SV_TaskID v) (SC_Resources c) = Ok (SV_Resources v);
  sd_bound : exists placement b, mget (SP_Placements policy) (SV_TaskID v) = Some placement
               /\ mget (Tasks s) (SV_TaskID v) = Some b /\ TB_AdmissionEnabled b = true /\ TB_ProjectID b = project
               /\ SV_Checkout v = SPl_Checkout placement /\ SV_Repository v = TB_Repository b;
  sd_scope : task_resource (SV_TaskID v) ∈ r_Resources r
             /\ forall x, x ∈ SV_Resources v -> resource_name x ∈ r_Resources r;
  sd_observed : exists n obs, observe e n (SV_Checkout v) = Some obs /\ Repository obs = SV_Repository v
                  /\ Locator obs = SV_Checkout v /\ Commit obs = SV_BaseCommit v /\ Tree obs = SV_BaseTree v;
  sd_preflight : 11 <= Version s -> exists report, SV_Preflight v = Some report /\ PR_Allowed report = true;
  sd_budget : forall q, SV_Budget v = Some q -> BQ_Allowed q = true;
  sd_roles : SV_ImplementationRole v <> ""%string /\ SV_ReviewRole v <> ""%string
}.

(** The candidate becomes a selected verdict: it takes its slots, its task and its
    resources. *)
Record selects (x : planning) (c : SwarmCandidate) (v : SwarmVerdict) (x' : planning) : Prop := {
  se_task : SV_TaskID v = SC_TaskID c /\ SV_Selected v = true;
  se_width : pl_selected x < SP_Width policy;
  se_wip : Z.of_nat (size (pl_tasks x)) < SP_WIP policy;
  se_disjoint : Forall (fun l => overlaps (verdict_lease v) l = false) (pl_excluded x);
  se_impl : has_slot policy (SPl_ImplementKind (default zero_placement (mget (SP_Placements policy) (SC_TaskID c))))
              (pl_used x) (SV_ImplementationRole v);
  se_review : has_slot policy (SPl_ReviewKind (default zero_placement (mget (SP_Placements policy) (SC_TaskID c))))
              (bump (SV_ImplementationRole v) (pl_used x)) (SV_ReviewRole v);
  se_sound : c ∈ SS_Candidates snap -> sound v;
  se_state : x' = mkPlanning (pl_verdicts x ++ [v]) (bump (SV_ReviewRole v) (bump (SV_ImplementationRole v) (pl_used x)))
                    ({[SC_TaskID c]} ∪ pl_tasks x) (pl_excluded x ++ [verdict_lease v]) (pl_selected x + 1) (pl_seen x)
}.

(** A candidate is refused or selected. *)
Definition considered (x : planning) (c : SwarmCandidate) (x' : planning) : Prop :=
  (exists v, SV_TaskID v = SC_TaskID c /\ SV_Selected v = false /\ x' = decided x v) \/ exists v, selects x c v x'.

Lemma refused_considered x c v reason :
  SV_TaskID v = SC_TaskID c -> SV_Selected v = false -> considered x c (refuse x v reason).
Proof. intros Ht Hs. left. by exists (v <| SV_Reason := reason |>). Qed.

Lemma claimed_inr x c placement binding resources :
  claimed e s r project policy x c = inr (placement, binding, resources) ->
  mhas (terminals s) (SC_TaskID c) = false /\ SC_Reason c = "ready"%string
  /\ mget (SP_Placements policy) (SC_TaskID c) = Some placement /\ mget (Tasks s) (SC_TaskID c) = Some binding
  /\ TB_AdmissionEnabled binding = true /\ TB_ProjectID binding = project
  /\ task_resource (SC_TaskID c) ∈ r_Resources r /\ pl_selected x < SP_Width policy
  /\ Z.of_nat (size (pl_tasks x)) < SP_WIP policy
  /\ canonicalResources e (SPl_Checkout placement) (SC_TaskID c) (SC_Resources c) = Ok resources
  /\ (forall y, y ∈ resources -> resource_name y ∈ r_Resources r)
  /\ Forall (fun l => overlaps (proposed c binding placement resources) l = false) (pl_excluded x).
Proof.
  unfold claimed. destruct (mhas (terminals s) _) eqn:E1; [done |]. destruct (negb (SC_Reason c =? "ready")%string) eqn:E2; [done |].
  destruct (bound_task _ _ _ _) as [[pl b] |] eqn:Eb; [| done].
  destruct (negb (subset _ _)) eqn:E3; [done |]. destruct (_ || _) eqn:E4; [done |]. case_bool_decide; [done |].
  destruct (canonicalResources _ _ _ _) as [res |] eqn:Er; [| done]. destruct (negb (within_scope _ _)) eqn:E5; [done |].
  destruct (negb (bool_decide _)) eqn:E6; [done |]. destruct (existsb _ _) eqn:E7; [done |].
  intros [= -> -> ->]. unfold bound_task in Eb.
  destruct (mget (SP_Placements policy) _) as [pl |] eqn:Ep; [| done]. simpl in Eb.
  destruct (mget (Tasks s) _) as [b |] eqn:Ebd; [| done]. simpl in Eb.
  destruct (_ && _) eqn:E8 in Eb; [| done]. simplify_eq. bool_facts. split_and!; try done.
  - by apply subset_one.
  - unfold within_scope in E5. rewrite forallb_elem in E5. intros y Hy. apply subset_one. by apply E5.
  - rewrite existsb_not_elem in E7. apply list.Forall_forall. done.
Qed.

(** The roles that were found free. *)
Lemma implementation_role_ok c placement used n impl routing k :
  exec (implementation_role u e ad au s project policy c placement used) n = Ok ((impl, routing), k) ->
  impl <> ""%string -> has_slot policy (SPl_ImplementKind placement) used impl.
Proof.
  unfold implementation_role. intros E Hne. destruct (Version s <? 11).
  - apply mret_ok in E as [E _]. simplify_eq. by eapply choose_slot.
  - destruct (mget (routing_policies s) project).
    + apply prog_bind_ok in E as (sel & j & _ & E). apply mret_ok in E as [E _]. simplify_eq. by eapply pick_slot.
    + apply mret_ok in E as [E _]. simplify_eq. by eapply pick_slot.
Qed.
Lemma review_role_ok c placement used :
  review_role s project policy c placement used <> ""%string ->
  has_slot policy (SPl_ReviewKind placement) used (review_role s project policy c placement used).
Proof.
  unfold review_role. intros Hne. destruct (Version s <? 11); [by eapply choose_slot | by eapply pick_slot].
Qed.

(** Preflight and budget refuse the candidate or select it. *)
Lemma admit_candidate_ok x v impl review lease obs n x' k :
  exec (admit_candidate e ad au s project x v impl review lease obs) n = Ok (x', k) ->
  (exists v' reason, SV_TaskID v' = SV_TaskID v /\ SV_Selected v' = SV_Selected v /\ x' = refuse x v' reason)
  \/ exists v', SV_TaskID v' = SV_TaskID v /\ x' = select x v' impl review lease obs
     /\ (11 <= Version s -> exists report, SV_Preflight v' = Some report /\ PR_Allowed report = true)
     /\ (forall q, SV_Budget v' = Some q -> BQ_Allowed q = true).
Proof.
  unfold admit_candidate. intros E. apply prog_bind_ok in E as (report & j & Hr & E).
  destruct (match report with Some _ => _ | None => _ end) eqn:Ea.
  { apply mret_ok in E as [-> _]. left. by exists (v <| SV_Preflight := report |>); eexists. }
  apply prog_bind_ok in E as (prior & j1 & _ & E). apply prog_bind_ok in E as (quote & j2 & Hq & E). clear Hq.
  assert (Hp : 11 <= Version s -> exists r0, report = Some r0 /\ PR_Allowed r0 = true).
  { intros Hv. destruct (Version s <? 11) eqn:Ev; [bool_facts; lia |].
    apply prog_bind_ok in Hr as (r0 & j3 & _ & Hr). apply mret_ok in Hr as [-> _]. exists r0. bool_facts. done. }
  destruct quote as [q |].
  - destruct (BQ_Allowed q) eqn:Eq; apply mret_ok in E as [-> _].
    + right. exists (v <| SV_Preflight := report |> <| SV_Budget := Some q |>). split_and!; [done | done | exact Hp | by intros ? [= <-]].
    + left. by exists (v <| SV_Preflight := report |> <| SV_Budget := Some q |>); eexists.
  - apply mret_ok in E as [-> _]. right. by exists (v <| SV_Preflight := report |> <| SV_Budget := None |>).
Qed.

Lemma selects_intro x c v impl review lease obs placement binding resources n :
  claimed e s r project policy x c = inr (placement, binding, resources) ->
  lease = proposed c binding placement resources -> SV_TaskID v = SC_TaskID c ->
  has_slot policy (SPl_ImplementKind placement) (pl_used x) impl ->
  has_slot policy (SPl_ReviewKind placement) (bump impl (pl_used x)) review ->
  impl <> ""%string -> review <> ""%string ->
  observe e n (SPl_Checkout placement) = Some obs -> Repository obs = TB_Repository binding ->
  Locator obs = SPl_Checkout placement ->
  (11 <= Version s -> exists report, SV_Preflight v = Some report /\ PR_Allowed report = true) ->
  (forall q, SV_Budget v = Some q -> BQ_Allowed q = true) ->
  exists w, selects x c w (select x v impl review lease obs).
Proof.
  intros Hc -> Ht Hi Hr Hni Hnr Ho Hrep Hloc Hp Hq.
  apply claimed_inr in Hc as (H1 & H2 & H3 & H4 & H5 & H6 & H7 & H8 & H9 & H10 & H11 & H12).
  set (lease := proposed c binding placement resources).
  assert (Hl : verdict_lease (chosen_verdict v impl review lease obs) = lease) by (unfold verdict_lease, lease; cbn; by rewrite Ht).
  exists (chosen_verdict v impl review lease obs). split; [done | done | done | | | | |].
  - by rewrite Hl.
  - by rewrite H3.
  - by rewrite H3.
  - intros Hin. split; cbn; rewrite ?Ht; eauto 10.
  - unfold select. by rewrite Hl.
Qed.

Lemma consider_ok x c n x' k :
  exec (consider u e ad au s r project policy x c) n = Ok (x', k) -> considered x c x'.
Proof.
  unfold consider. intros E. cbv zeta in E.
  destruct (claimed _ _ _ _ _ _ _) as [reason | [[placement binding] resources]] eqn:Ec.
  { apply mret_ok in E as [-> _]. by apply refused_considered. }
  apply prog_bind_ok in E as (obs & j & Ho & E). apply look_ok in Ho as [-> _].
  destruct (observe e n _) as [obs |] eqn:Ho; [| apply mret_ok in E as [-> _]; by apply refused_considered].
  destruct (_ || _) eqn:Eo; [apply mret_ok in E as [-> _]; by apply refused_considered |]. bool_facts.
  apply prog_bind_ok in E as (exhausted & j1 & _ & E).
  destruct exhausted as [q |]; [apply mret_ok in E as [-> _]; by apply refused_considered |].
  unfold place_candidate in E. apply prog_bind_ok in E as ([impl routing] & j2 & Hi & E).
  destruct ((impl =? "")%string || _) eqn:Er; [apply mret_ok in E as [-> _]; by apply refused_considered |]. bool_facts.
  pose proof (implementation_role_ok _ _ _ _ _ _ _ Hi ltac:(done)) as Hslot.
  assert ((impl =? "")%string = false) as Hni by by apply String.eqb_neq. rewrite Hni in E, H2.
  pose proof (review_role_ok _ _ _ H2) as Hslot2.
  apply admit_candidate_ok in E as [(v' & reason & Ht & Hs & ->) | (v' & Ht & -> & Hp & Hq)].
  - by apply refused_considered.
  - right. eapply selects_intro; eauto.
Qed.

(** ** The loop *)

(** The slots a list of verdicts takes of a role. *)
Definition slots (l : list SwarmVerdict) (id : string) : Z :=
  foldr (fun v n => (if (SV_ImplementationRole v =? id)%string then 1 else 0)
                    + (if (SV_ReviewRole v =? id)%string then 1 else 0) + n) 0 l.
Lemma slots_snoc l v id :
  slots (l ++ [v]) id = slots l id + (if (SV_ImplementationRole v =? id)%string then 1 else 0)
                        + (if (SV_ReviewRole v =? id)%string then 1 else 0).
Proof. induction l as [| w l IH]; simpl; [lia |]. rewrite IH. lia. Qed.

Definition chosen (x : planning) : list SwarmVerdict := List.filter SV_Selected (pl_verdicts x).

(** What the loop keeps; [o] is the occupancy it started from. *)
Record plan_inv (o : occupancy) (x : planning) : Prop := {
  pv_seen : map SV_TaskID (pl_verdicts x) = rev (pl_seen x) /\ NoDup (pl_seen x);
  pv_count : pl_selected x = Z.of_nat (List.length (chosen x));
  pv_width : chosen x <> [] -> pl_selected x <= SP_Width policy;
  pv_tasks : pl_tasks x = list_to_set (map SV_TaskID (chosen x)) ∪ oc_tasks o;
  pv_wip : chosen x <> [] -> Z.of_nat (size (pl_tasks x)) <= SP_WIP policy;
  pv_excluded : pl_excluded x = oc_excluded o ++ map verdict_lease (chosen x);
  pv_disjoint l1 v l2 : chosen x = l1 ++ v :: l2 ->
    Forall (fun l => overlaps (verdict_lease v) l = false) (oc_excluded o ++ map verdict_lease l1);
  pv_used id : used_of (pl_used x) id = used_of (oc_used o) id + slots (chosen x) id;
  pv_slots id : 0 < slots (chosen x) id ->
    exists r, r ∈ SP_Roles policy /\ SR_ID r = id /\ used_of (pl_used x) id <= SR_Capacity r;
  pv_sound : Forall sound (chosen x)
}.

Lemma plan_inv_seen o x c :
  plan_inv o x -> c ∉ pl_seen x -> forall v, SV_TaskID v = c ->
  map SV_TaskID (pl_verdicts x ++ [v]) = rev (c :: pl_seen x) /\ NoDup (c :: pl_seen x).
Proof.
  intros [[Hs Hn] _ _ _ _ _ _ _ _ _] Hc v Hv. rewrite map_app, Hs. simpl. rewrite Hv. split; [done | by constructor].
Qed.

Lemma chosen_snoc x v used tasks excluded selected seen :
  chosen (mkPlanning (pl_verdicts x ++ [v]) used tasks excluded selected seen) = chosen x ++ (if SV_Selected v then [v] else []).
Proof. unfold chosen. cbn. rewrite List.filter_app. simpl. by destruct (SV_Selected v). Qed.

Lemma has_slot_capacity kind used id : has_slot policy kind used id ->
  exists r0, r0 ∈ SP_Roles policy /\ SR_ID r0 = id /\ used_of used id < SR_Capacity r0.
Proof. intros (r0 & ? & ? & _ & _ & ?). eauto. Qed.

(** A selected verdict keeps the invariant. *)
Lemma plan_inv_select o x c v x' :
  plan_inv o x -> SC_TaskID c ∉ pl_seen x -> c ∈ SS_Candidates snap ->
  selects (x <| pl_seen := SC_TaskID c :: pl_seen x |>) c v x' -> plan_inv o x'.
Proof.
  intros Hinv Hnew Hin [[Ht Hsel] Hw Hwip Hdis Himpl Hrev Hsound ->]. cbn in *.
  pose proof (plan_inv_seen _ _ _ Hinv Hnew v Ht) as Hseen. destruct Hinv as [_ Hc Hpw Htk Hpp Hex Hd Hu Hsl Hso].
  assert (Hch := chosen_snoc x v). rewrite Hsel in Hch.
  split; rewrite ?Hch; cbn.
  - done.
  - rewrite length_app, Nat2Z.inj_add, <- Hc. done.
  - lia.
  - rewrite Htk, map_app, list_to_set_app_L. cbn. rewrite Ht. set_solver.
  - intros _. assert (size ({[SC_TaskID c]} ∪ pl_tasks x) <= 1 + size (pl_tasks x))%nat; [| lia].
    rewrite size_union_alt. rewrite size_singleton. pose proof (subseteq_size (pl_tasks x ∖ {[SC_TaskID c]}) (pl_tasks x)). set_solver by lia.
  - by rewrite Hex, map_app, app_assoc.
  - intros l1 w l2 E. destruct (list.last l2) eqn:El.
    + apply list.last_Some in El as [l3 ->]. rewrite app_comm_cons, app_assoc in E. apply app_inj_tail in E as [E _]. by eapply Hd.
    + apply last_None in El as ->. apply app_inj_tail in E as [<- <-]. by rewrite <- Hex.
  - intros id. rewrite slots_snoc, !used_of_bump, Hu. lia.
  - intros id. rewrite slots_snoc. intros Hpos. rewrite !used_of_bump.
    apply has_slot_capacity in Himpl as (r1 & Hr1 & Hid1 & Hc1), Hrev as (r2 & Hr2 & Hid2 & Hc2). rewrite used_of_bump in Hc2.
    destruct (String.eqb_spec (SV_ReviewRole v) id) as [E2 | Hne2]; [rewrite <- E2 in *; exists r2; split_and!; [done | done | lia] |].
    destruct (String.eqb_spec (SV_ImplementationRole v) id) as [E1 | Hne1]; [rewrite <- E1 in *; exists r1; split_and!; [done | done | lia] |].
    destruct (Hsl id ltac:(lia)) as (r0 & ? & ? & ?). exists r0. split_and!; [done | done | lia].
  - apply Forall_app. split; [done |]. constructor; [by apply Hsound | constructor].
Qed.

(** A refusal keeps it as well. *)
Lemma plan_inv_refuse o x c v :
  plan_inv o x -> SC_TaskID c ∉ pl_seen x -> SV_TaskID v = SC_TaskID c -> SV_Selected v = false ->
  plan_inv o (decided (x <| pl_seen := SC_TaskID c :: pl_seen x |>) v).
Proof.
  intros Hinv Hnew Ht Hs. pose proof (plan_inv_seen _ _ _ Hinv Hnew v Ht) as Hseen.
  assert (Hch : chosen (decided (x <| pl_seen := SC_TaskID c :: pl_seen x |>) v) = chosen x).
  { unfold decided. etransitivity; [apply chosen_snoc |]. cbn. rewrite Hs. apply app_nil_r. }
  destruct Hinv as [_ Hc Hpw Htk Hpp Hex Hd Hu Hsl Hso]. split; rewrite ?Hch; done.
Qed.

Lemma plan_candidate_inv o allowed x c n x' k :
  c ∈ SS_Candidates snap -> plan_inv o x ->
  exec (plan_candidate u e ad au s r project policy allowed x c) n = Ok (x', k) -> plan_inv o x'.
Proof.
  intros Hin Hinv E. unfold plan_candidate in E. destruct (match allowed with Some _ => _ | None => _ end).
  { by apply mret_ok in E as [-> _]. }
  apply prog_bind_ok in E as ([] & j & Hg & E). apply forbid_if_ok in Hg as [Hg _]. bool_facts.
  apply consider_ok in E as [(v & Ht & Hs & ->) | (v & Hsel)].
  - by apply plan_inv_refuse.
  - by eapply plan_inv_select.
Qed.

Lemma plan_inv_start : plan_inv (swarmOccupancy s policy snap) (new_planning s policy snap).
Proof.
  split; cbn; try done.
  - split; [done | constructor].
  - set_solver.
  - by rewrite app_nil_r.
  - intros l1 v l2 E. by destruct l1.
  - intros id. lia.
Qed.
End plans.

(** ** Plans *)

Lemma by_priority_elem l c : c ∈ by_priority l <-> c ∈ l.
Proof. unfold by_priority. by rewrite merge_sort_Permutation. Qed.

(** How a plan was made: by whom, from what, and the loop that made it. *)
Record planned (u : Unicode) (e : Env) (ad : Adapters) (au : Authority) (s : state) (token session project action : string)
    (limit : Z) (allowed : option (list string)) (plan : SwarmPlan) (r : record) (policy : SwarmPolicy) (snap : SwarmSnapshot) : Prop := {
  pn_actor : exists i, controller s token session project action (now e i) = Ok r;
  pn_policy : exists p, mget (swarm_policies s) project = Some p /\ SP_Stopped p = false /\ policy = limit_width limit p;
  pn_snapshot : exists observer i, observe_swarm ad = Some observer
                  /\ observer i (Binding_Workspace (st_Binding s)) project = Some snap;
  pn_header : SPn_SchemaVersion plan = 1 /\ SPn_ID plan = planDigest plan /\ SPn_SessionID plan = session
              /\ SPn_ProjectID plan = project /\ SPn_Fence plan = Fence s /\ SPn_RoleRegistry plan = SS_RoleRegistry snap;
  pn_loop : exists x, plan_inv e s r project policy snap (swarmOccupancy s policy snap) x /\ SPn_Verdicts plan = pl_verdicts x
}.

Lemma planSwarmLimited_ok u e ad au s token session project action limit allowed n plan k :
  exec (planSwarmLimited u e ad au s token session project action limit allowed) n = Ok (plan, k) ->
  exists r policy snap, planned u e ad au s token session project action limit allowed plan r policy snap.
Proof.
  unfold planSwarmLimited. intros E. apply prog_bind_ok in E as (r & j & Hr & E).
  apply prog_bind_ok in E as (p & j1 & Hp & E). apply lift_ok in Hp as [Hp _]. apply must_ok in Hp.
  apply prog_bind_ok in E as ([] & j2 & Hg & E). apply forbid_if_ok in Hg as [Hg _]. bool_facts.
  apply prog_bind_ok in E as ([] & j3 & _ & E). cbv zeta in E.
  apply prog_bind_ok in E as (snap & j4 & Hs & E). apply prog_bind_ok in E as ([] & j5 & _ & E).
  apply prog_bind_ok in E as ([] & j6 & _ & E). apply prog_bind_ok in E as (t & j7 & _ & E).
  apply prog_bind_ok in E as ([] & j8 & _ & E). apply prog_bind_ok in E as (x & j9 & Hx & E).
  apply prog_bind_ok in E as ([] & j10 & _ & E). apply mret_ok in E as [-> _].
  exists r, (limit_width limit p), snap. split.
  - unfold controller_now in Hr. apply prog_bind_ok in Hr as (t0 & i & Ht & Hr). apply look_ok in Ht as [-> _].
    apply lift_ok in Hr as [Hr _]. eauto.
  - eauto.
  - unfold observed_swarm in Hs. apply prog_bind_ok in Hs as (ob & i & Ho & Hs). apply lift_ok in Ho as [Ho _]. apply must_ok in Ho.
    apply ask_ok in Hs as [Hs _]. apply must_ok in Hs. eauto.
  - cbn. rewrite planDigest_id. done.
  - exists x. split; [| done].
    eapply each_inv; [| apply plan_inv_start | exact Hx]. intros a c i a' i' Hin Ha Ee.
    apply (proj1 (by_priority_elem _ _)) in Hin. by eapply plan_candidate_inv.
Qed.

(** The plan's selected verdicts, as the loop chose them. *)
Lemma selected_chosen p x : SPn_Verdicts p = pl_verdicts x -> selected_verdicts p = chosen x.
Proof. unfold selected_verdicts, chosen. by intros ->. Qed.

(** C18: a plan names every task at most once and selects only what may run: each
    selected task is a ready, unretired candidate of the snapshot, bound and enabled
    in the project, within the controller's scope, observed at its checkout, with an
    allowed preflight and an allowed quote; together they fit the width and the work
    in progress of the policy and the slots of every role on top of what is in use;
    and what one would write overlaps neither another of them nor any unreleased
    lease or retained reservation *)
Theorem planSwarm_safe u e ad au s token session project action limit allowed n plan k :
  exec (planSwarmLimited u e ad au s token session project action limit allowed) n = Ok (plan, k) ->
  exists r policy snap, planned u e ad au s token session project action limit allowed plan r policy snap
  /\ let o := swarmOccupancy s policy snap in
     let sel := selected_verdicts plan in
     NoDup (map SV_TaskID (SPn_Verdicts plan))
     /\ Forall (sound e s r project policy snap) sel
     /\ (sel <> [] -> Z.of_nat (List.length sel) <= SP_Width policy
                     /\ Z.of_nat (size (list_to_set (map SV_TaskID sel) ∪ oc_tasks o)) <= SP_WIP policy)
     /\ (forall id, 0 < slots sel id -> exists role, role ∈ SP_Roles policy /\ SR_ID role = id
           /\ used_of (oc_used o) id + slots sel id <= SR_Capacity role)
     /\ (forall v l, v ∈ sel -> protects s l -> overlaps (verdict_lease v) l = false)
     /\ (forall l1 v l2 w l3, sel = l1 ++ v :: l2 ++ w :: l3 -> overlaps (verdict_lease v) (verdict_lease w) = false).
Proof.
  intros E. apply planSwarmLimited_ok in E as (r & policy & snap & Hp). exists r, policy, snap. split; [done |].
  destruct Hp as [_ _ _ _ (x & [[Hs Hn] Hc Hw Ht Hwip Hex Hd Hu Hsl Hso] & Hv)]. cbv zeta. rewrite (selected_chosen _ _ Hv), Hv.
  split_and!.
  - rewrite Hs. apply NoDup_ListNoDup, List.NoDup_rev. by apply NoDup_ListNoDup.
  - done.
  - intros Hne. rewrite <- Hc, <- Ht. auto.
  - intros id Hpos. destruct (Hsl id Hpos) as (role & ? & ? & Hcap). rewrite Hu in Hcap. eauto.
  - intros v l Hin Hl. apply list_elem_of_split in Hin as (l1 & l2 & Hin). specialize (Hd _ _ _ Hin).
    apply Forall_app in Hd as [Hd _]. rewrite list.Forall_forall in Hd. apply Hd. by apply swarmOccupancy_excluded.
  - intros l1 v l2 w l3 Heq. rewrite app_comm_cons, app_assoc in Heq. specialize (Hd _ _ _ Heq).
    apply Forall_app in Hd as [_ Hd]. rewrite list.Forall_forall in Hd. rewrite overlaps_comm. apply Hd.
    apply list_elem_of_fmap. exists v. split; [done |]. apply elem_of_app. right. left.
Qed.

(** ** Reservations beside the lease table *)

(** Reservations carry their key and a fence that was issued; retained ones do not
    overlap, and one that was never converted has no lease under its key. *)
Record reservation_inv (s : state) : Prop := {
  rv_key k d : mget (dispatches s) k = Some d ->
    DR_ID d = k /\ Lease_ID (DR_Reservation d) = k /\ 0 < Lease_Fence (DR_Reservation d) <= Fence s;
  rv_exclusive k1 k2 d1 d2 : mget (dispatches s) k1 = Some d1 -> mget (dispatches s) k2 = Some d2 -> k1 <> k2 ->
    reservationRetained s d1 = true -> reservationRetained s d2 = true ->
    overlaps (DR_Reservation d1) (DR_Reservation d2) = false;
  rv_unleased k d : mget (dispatches s) k = Some d -> DR_Converted d = false -> mget (Leases s) k = None
}.

Lemma reservationRetained_le s s' d :
  (forall k r, mget (recoveries s) k = Some r -> is_Some (mget (recoveries s') k)) ->
  reservationRetained s' d = true -> reservationRetained s d = true.
Proof.
  intros Hr [Hc Hn]%reservationRetained_true. apply reservationRetained_true. split; [done |].
  destruct (mget (recoveries s) _) eqn:E; [| done]. apply Hr in E as [? E]. congruence.
Qed.

(** Reservations stay as they are while leases are added under other keys and
    recoveries are recorded. *)
Lemma reservation_inv_keep s s' :
  reservation_inv s -> Fence s <= Fence s' -> (forall k, mget (dispatches s') k = mget (dispatches s) k) ->
  (forall k r, mget (recoveries s) k = Some r -> is_Some (mget (recoveries s') k)) ->
  (forall k d, mget (dispatches s) k = Some d -> DR_Converted d = false -> mget (Leases s) k = None -> mget (Leases s') k = None) ->
  reservation_inv s'.
Proof.
  intros [Hk He Hu] Hf Hd Hr Hl. split.
  - intros k d H. rewrite Hd in H. apply Hk in H as (? & ? & ?). split_and!; [done | done | lia | lia].
  - intros k1 k2 d1 d2 H1 H2 Hne R1 R2. rewrite Hd in H1, H2. apply (He k1 k2); try done; by eapply reservationRetained_le.
  - intros k d H Hc. rewrite Hd in H. eauto.
Qed.

(** Nothing a draw names exists, and no two draws are equal. *)
Record fresh_draws (e : Env) (s : state) : Prop := {
  fd_distinct n m id : mint e n = Ok id -> mint e m = Ok id -> n = m;
  fd_dispatch n id : mint e n = Ok id -> mget (dispatches s) id = None;
  fd_lease n id : mint e n = Ok id -> mget (Leases s) id = None
}.

(** A reservation added under a new key. *)
Record reserves (s : state) (d : DispatchReservation) (s' : state) : Prop := {
  rs_new : mget (dispatches s) (DR_ID d) = None;
  rs_reservation : Lease_ID (DR_Reservation d) = DR_ID d /\ DR_Converted d = false;
  rs_fence : Fence s < max_uint64 /\ Fence s' = Fence s + 1 /\ Lease_Fence (DR_Reservation d) = Fence s';
  rs_dispatches k : mget (dispatches s') k = if decide (DR_ID d = k) then Some d else mget (dispatches s) k;
  rs_frame : s' = s <| Fence := Fence s' |> <| st_Swarm := (st_Swarm s) <| Dispatches := dispatches s' |> |>
                  <| st_Budget := (st_Budget s) <| BudgetAllocations := allocations s' |> |>
                  <| st_Routing := (st_Routing s) <| ModelRoutingSelections := selections s' |> |>;
  rs_nil : is_nil (dispatches s') = is_nil (dispatches s) /\ is_nil (allocations s') = is_nil (allocations s)
           /\ is_nil (selections s') = is_nil (selections s);
  rs_budget : budget_inv s -> budget_inv s' /\ budget_le s s'
}.

Section reserves.
Context (s : state) (d : DispatchReservation) (s' : state).
Context (Hres : reserves s d s').

Lemma reserves_leases : Leases s' = Leases s.
Proof. by rewrite (rs_frame _ _ _ Hres). Qed.
Lemma reserves_recoveries : recoveries s' = recoveries s.
Proof. by rewrite (rs_frame _ _ _ Hres). Qed.
Lemma reserves_retained x : reservationRetained s' x = reservationRetained s x.
Proof. unfold reservationRetained. by rewrite reserves_recoveries. Qed.

Lemma reserves_protects l : protects s' l -> protects s l \/ l = DR_Reservation d.
Proof.
  intros [(k & Hk & Hr) | (k & x & Hk & Hr & ->)].
  - rewrite reserves_leases in Hk. left. left. eauto.
  - rewrite (rs_dispatches _ _ _ Hres) in Hk. rewrite reserves_retained in Hr.
    case_decide; [simplify_eq; by right | left; right; eauto].
Qed.

(** It keeps the table when it overlaps nothing that is protected. *)
Lemma reserves_inv :
  lease_inv s -> reservation_inv s -> mget (Leases s) (DR_ID d) = None ->
  (forall l, protects s l -> overlaps (DR_Reservation d) l = false) ->
  lease_inv s' /\ reservation_inv s'.
Proof.
  intros [Hg Hk Hu He Hr] [Rk Re Ru] Hnl Hfree. destruct Hres as [Hn [Hid Hnc] (Hlt & Hf & Hlf) Hd _ _ _].
  pose proof reserves_leases as Hl. split; split; rewrite ?Hl.
  - lia.
  - intros k l H. destruct (Hk _ _ H). split; [done | lia].
  - done.
  - done.
  - intros k l kd x H Hrel Hx Hret. rewrite Hd in Hx. rewrite reserves_retained in Hret. case_decide; [| by eapply Hr].
    simplify_eq. rewrite overlaps_comm. apply Hfree. left. eauto.
  - intros k x H. rewrite Hd in H. case_decide; [simplify_eq; split_and!; [done | done | lia | lia] |].
    apply Rk in H as (? & ? & ?). split_and!; [done | done | lia | lia].
  - intros k1 k2 d1 d2 H1 H2 Hne R1 R2. rewrite Hd in H1, H2. rewrite reserves_retained in R1, R2.
    case_decide as E1; case_decide as E2; simplify_eq.
    1-2: first [apply Hfree | rewrite overlaps_comm; apply Hfree]; right; eauto.
    by eapply Re.
  - intros k x H Hc. rewrite Hd in H. case_decide; [by simplify_eq | by eapply Ru].
Qed.
End reserves.

(** Several reservations, one after the other. *)
Inductive reserves_all : state -> list DispatchReservation -> state -> Prop :=
  | reserves_none s : reserves_all s [] s
  | reserves_more s d s1 ds s2 : reserves s d s1 -> reserves_all s1 ds s2 -> reserves_all s (d :: ds) s2.

Lemma reserves_all_frame s ds s' :
  reserves_all s ds s' ->
  s' = s <| Fence := Fence s' |> <| st_Swarm := (st_Swarm s) <| Dispatches := dispatches s' |> |>
         <| st_Budget := (st_Budget s) <| BudgetAllocations := allocations s' |> |>
         <| st_Routing := (st_Routing s) <| ModelRoutingSelections := selections s' |> |>
  /\ Fence s' = Fence s + Z.of_nat (List.length ds) /\ (ds <> [] -> Fence s' <= max_uint64).
Proof.
  induction 1 as [s | s d s1 ds s2 Hr _ [IH [IHf IHm]]].
  - split; [| split; [simpl; lia | done]].
    destruct s as [? ? ? ? ? ? ? ? ? ? ? ? ? ? ? ? ? [] ? ? ? ? ? [] ? ? ? [] ? ?]. done.
  - destruct Hr as [_ _ (? & Hf & _) _ Hfr _ _]. split_and!.
    + rewrite IH. by rewrite Hfr.
    + simpl. lia.
    + intros _. destruct ds; [simpl in IHf; lia | by apply IHm].
Qed.

(** Reservations are never dropped, and change only when they are handed off. *)
Definition dispatch_le (s s' : state) : Prop :=
  forall k d, mget (dispatches s) k = Some d -> exists d', mget (dispatches s') k = Some d'
    /\ (d' = d \/ DR_Converted d = false /\ DR_Converted d' = true
        /\ d = d' <| DR_Converted := false |> <| DR_WorkerSessionID := DR_WorkerSessionID d |> <| DR_AttemptID := DR_AttemptID d |>).

#[export] Instance dispatch_le_preorder : PreOrder dispatch_le.
Proof.
  split; [intros s k d Hd; exists d; eauto |]. intros s1 s2 s3 H12 H23 k d (d2 & H2 & C2)%H12.
  apply H23 in H2 as (d3 & H3 & C3). exists d3. split; [done |].
  destruct C2 as [-> | (A1 & B1 & E1)], C3 as [-> | (A2 & B2 & E2)]; [by left | by right | by right | congruence].
Qed.

Lemma dispatch_le_agree s s' : (forall k, mget (dispatches s') k = mget (dispatches s) k) -> dispatch_le s s'.
Proof. intros H k d Hd. exists d. rewrite H. eauto. Qed.

Lemma reserves_all_keeps s ds s' :
  reserves_all s ds s' ->
  dispatch_le s s' /\ is_nil (dispatches s') = is_nil (dispatches s) /\ is_nil (allocations s') = is_nil (allocations s)
  /\ is_nil (selections s') = is_nil (selections s) /\ (budget_inv s -> budget_inv s' /\ budget_le s s').
Proof.
  induction 1 as [s | s d s1 ds s2 Hr _ (IH & N1 & N2 & N3 & IHb)]; [done |].
  destruct Hr as [Hn _ _ Hd _ (M1 & M2 & M3) Hb]. rewrite N1, N2, N3. split_and!; [| done.. |].
  - etrans; [| done]. intros k x Hx. exists x. rewrite Hd. case_decide; [congruence | eauto].
  - intros (K1 & L1)%Hb. destruct (IHb K1) as [K2 L2]. split; [done | by etrans].
Qed.

(** The new reservations are there, one fence after the other, and the old ones
    are what they were. *)
Lemma reserves_all_dispatches s ds s' :
  reserves_all s ds s' ->
  (forall k, (exists d, d ∈ ds /\ DR_ID d = k /\ mget (dispatches s') k = Some d)
             \/ (forall d, d ∈ ds -> DR_ID d <> k) /\ mget (dispatches s') k = mget (dispatches s) k)
  /\ (forall d, d ∈ ds -> mget (dispatches s) (DR_ID d) = None /\ mget (dispatches s') (DR_ID d) = Some d)
  /\ map (fun d => Lease_Fence (DR_Reservation d)) ds = map (fun i => Fence s + 1 + Z.of_nat i) (seq 0 (List.length ds)).
Proof.
  induction 1 as [s | s d s1 ds s2 Hr Hras [IH1 [IH2 IH3]]].
  - split_and!; [| by intros d ?%elem_of_nil | done]. intros k. right. split; [by intros d ?%elem_of_nil | done].
  - destruct Hr as [Hn _ (_ & Hf & Hlf) Hd _ _ _]. split_and!.
    + intros k. destruct (IH1 k) as [(x & Hx & Hk & Hm) | [Hx Hm]].
      * left. exists x. split_and!; [by right | done | done].
      * rewrite Hd in Hm. case_decide as E; [left; exists d; split_and!; [left | done | done] |].
        right. split; [| done]. intros x [-> | Hin]%elem_of_cons; auto.
    + intros x [-> | Hin]%elem_of_cons.
      * split; [done |]. destruct (IH1 (DR_ID d)) as [(y & Hy & Hk & _) | [_ Hm]].
        -- destruct (IH2 y Hy) as [Hy' _]. rewrite Hk, Hd, decide_True in Hy' by done. done.
        -- by rewrite Hm, Hd, decide_True.
      * destruct (IH2 x Hin) as [H1 H2]. split; [| done]. rewrite Hd in H1. by case_decide.
    + simpl. rewrite IH3, Hlf, Hf. f_equal; [lia |]. rewrite <- seq_shift, map_map. apply map_ext. intros i. lia.
Qed.

(** ** The reservations of a wave *)

(** What the reservation of a verdict is, apart from its identifier and fence. *)
Record reservation_of (session : string) (p : SwarmPolicy) (plan : SwarmPlan) (expires : time) (v : SwarmVerdict)
    (d : DispatchReservation) : Prop := {
  ro_dispatch : exists id fence, d = new_dispatch session p plan v id fence expires;
  ro_registry : forall r, SV_Preflight v = Some r -> PR_RoleRegistry r = SPn_RoleRegistry plan
}.

Lemma reservation_overlaps session p plan expires v d l :
  reservation_of session p plan expires v d -> overlaps (DR_Reservation d) l = overlaps (verdict_lease v) l.
Proof. intros [(id & fence & ->) _]. by apply overlaps_same. Qed.

Lemma allocateBudget_frame s d wave q t s' :
  allocateBudget s d wave q t = Ok s' -> s' = s <| st_Budget := (st_Budget s) <| BudgetAllocations := allocations s' |> |>.
Proof.
  unfold allocateBudget. destruct (negb _); [intros [= <-]; by destruct s as [? ? ? ? ? ? ? ? ? ? ? ? ? ? ? ? ? ? ? ? ? ? ? [] ? ? ? ? ? ?] |].
  intros H. apply bind_ok in H as (q' & _ & H). apply bind_ok in H as ([] & _ & H). apply bind_ok in H as ([] & _ & H).
  unfold put_allocation in H. apply bind_ok in H as (m & _ & H). by simplify_eq.
Qed.

Lemma put_selection_frame s id d s' :
  put_selection s id d = Ok s' -> s' = s <| st_Routing := (st_Routing s) <| ModelRoutingSelections := selections s' |> |>.
Proof.
  unfold put_selection. destruct (DR_Routing d).
  - intros H. apply bind_ok in H as (m & _ & H). by simplify_eq.
  - intros [= <-]. by destruct s as [? ? ? ? ? ? ? ? ? ? ? ? ? ? ? ? ? ? ? ? ? ? ? ? ? ? ? [] ? ?].
Qed.

Lemma put_selection_nil s id d s' : put_selection s id d = Ok s' -> is_nil (selections s') = is_nil (selections s).
Proof.
  unfold put_selection. destruct (DR_Routing d); [| by intros [= <-]].
  intros H. apply bind_ok in H as (m & Hm & H). injection H as <-. by eapply is_nil_mset_eq.
Qed.

(** The allocation a reservation comes with in a project that has a budget: the
    phases of the quote of its verdict, which allows it. *)
Definition reserved_allocation (wave : string) (q : BudgetQuote) (t : time) (d : DispatchReservation) : BudgetAllocation :=
  mkBudgetAllocation [] (DR_ID d) (DR_ID d) wave (DR_ProjectID d) (Lease_TaskID (DR_Reservation d))
    (BQ_PolicyRevision q) (BQ_CycleID q) (DR_Harness d) (BQ_Digest q) (Lease_Fence (DR_Reservation d)) t (BQ_Phases q).
Definition allocated (s : state) (wave : string) (s' : state) (v : SwarmVerdict) (d : DispatchReservation) : Prop :=
  mhas (budget_policies s) (DR_ProjectID d) = true ->
  exists q t, SV_Budget v = Some q /\ BQ_Allowed q = true /\ mget (allocations s) (DR_ID d) = None
    /\ mget (allocations s') (DR_ID d) = Some (reserved_allocation wave q t d).

(** Nothing is allocated but to [ds]. *)
Definition allocates_only (s : state) (ds : list DispatchReservation) (s' : state) : Prop :=
  budget_policies s' = budget_policies s
  /\ forall k, (forall d, d ∈ ds -> mhas (budget_policies s) (DR_ProjectID d) = true -> DR_ID d <> k) ->
       mget (allocations s') k = mget (allocations s) k.

Lemma allocateBudget_ok s d wave v t s' :
  allocateBudget s d wave (SV_Budget v) t = Ok s' -> allocated s wave s' v d /\ allocates_only s [d] s'.
Proof.
  unfold allocateBudget, allocated, allocates_only. intros H. destruct (mhas (budget_policies s) _) eqn:Hp; simpl in H.
  - apply bind_ok in H as (q & Hq%must_ok & H). apply bind_ok in H as (? & Ha%deny_if_ok & H).
    apply bind_ok in H as (? & Hn%deny_if_ok%mhas_false & H). unfold put_allocation in H.
    apply bind_ok in H as (m & Hm & [= <-]). bool_facts. pose proof (mget_mset _ _ _ _ (DR_ID d) Hm) as Hd. rewrite decide_True in Hd by done.
    split; [intros _; by exists q, t | split; [done |]]. intros k Hk. etrans; [exact (mget_mset _ _ _ _ k Hm) |].
    rewrite decide_False; [done |]. apply Hk; [left | done].
  - injection H as <-. by split.
Qed.

Section waves.
Context (e : Env) (session wave : string) (p : SwarmPolicy) (plan : SwarmPlan) (expires : time).

Lemma reserve_verdict_ok s ds v n s' ds' k :
  exec (reserve_verdict e session wave p plan expires (s, ds) v) n = Ok ((s', ds'), k) ->
  0 <= Fence s <= max_uint64 -> (forall id, mint e n = Ok id -> mget (dispatches s) id = None) ->
  k = (2 + n)%nat /\ exists d, ds' = ds ++ [d] /\ mint e n = Ok (DR_ID d) /\ reservation_of session p plan expires v d /\ reserves s d s'
    /\ allocated s wave s' v d /\ allocates_only s [d] s'.
Proof.
  unfold reserve_verdict. cbn [fst snd]. cbv zeta. intros E Hg Hnew. apply prog_bind_ok in E as ([] & j & Hf & E).
  apply forbid_if_ok in Hf as [Hf ->]. bool_facts. apply prog_bind_ok in E as (id & j1 & Hid & E). apply ask_ok in Hid as [Hid ->].
  apply prog_bind_ok in E as ([] & j2 & Hreg & E). apply forbid_if_ok in Hreg as [Hreg ->].
  apply prog_bind_ok in E as (t & j3 & Ht & E). apply look_ok in Ht as [-> ->].
  apply prog_bind_ok in E as (s1 & j4 & H1 & E). apply lift_ok in H1 as [H1 ->].
  apply prog_bind_ok in E as (s2 & j5 & H2 & E). apply lift_ok in H2 as [H2 ->].
  apply prog_bind_ok in E as (s3 & j6 & H3 & E). apply lift_ok in H3 as [H3 ->].
  apply mret_ok in E as [E ->]. injection E as -> ->. split; [done |]. specialize (Hnew _ Hid).
  exists (new_dispatch session p plan v id (incr_u64 (Fence s)) expires). split; [done |]. split; [exact Hid |].
  apply allocateBudget_ok in H1 as Hal. apply allocateBudget_change in H1 as Hb. destruct Hb as (_ & Nb & Kb). apply put_selection_nil in H3 as Ns.
  apply allocateBudget_frame in H1. apply put_selection_frame in H3.
  unfold put_dispatch in H2. apply bind_ok in H2 as (m & Hm & H2). injection H2 as <-.
  assert (Hd1 : dispatches s1 = dispatches s) by by rewrite H1.
  assert (Hs3 : st_Budget s3 = st_Budget s1) by by rewrite H3.
  rewrite incr_u64_small in * by lia. split.
  { split; [by eexists _, _ |]. intros r Hr. rewrite Hr in Hreg. by bool_facts. }
  split; cycle 1.
  { assert (budget_policies s3 = budget_policies s1 /\ allocations s3 = allocations s1) as [E1 E2]
      by (unfold budget_policies, allocations; by rewrite Hs3).
    unfold allocated, allocates_only. rewrite E1, E2. exact Hal. }
  split.
  - done.
  - done.
  - rewrite H3, H1. cbn. split_and!; [lia | done | done].
  - intros x. rewrite H3. etransitivity; [exact (mget_mset _ _ _ _ _ Hm) |]. by rewrite Hd1.
  - rewrite H3, H1. done.
  - split_and!.
    + rewrite H3, <- Hd1. exact (is_nil_mset_eq _ _ _ _ Hm).
    + unfold allocations. rewrite Hs3. by injection Nb.
    + rewrite Ns, H1. done.
  - unfold budget_inv, allocations. rewrite Hs3. intros Hk. destruct (Kb Hk) as [K1 [K2 K3]]. split; [done |].
    split; unfold allocations; rewrite Hs3; [exact K2 | exact K3].
Qed.

(** The allocations of the first reservation stay behind those of the others. *)
Lemma allocated_more s v d s1 vs ds s2 :
  reserves s d s1 -> allocated s wave s1 v d -> allocates_only s [d] s1 ->
  reserves_all s1 ds s2 -> Forall2 (allocated s1 wave s2) vs ds -> allocates_only s1 ds s2 ->
  Forall2 (allocated s wave s2) (v :: vs) (d :: ds) /\ allocates_only s (d :: ds) s2.
Proof.
  intros Hr Hd [Hp Ho] Hras Hds [Hp' Ho'].
  assert (forall x, x ∈ ds -> DR_ID x <> DR_ID d) as Hne.
  { intros x Hx E. destruct (reserves_all_dispatches _ _ _ Hras) as (_ & H2 & _). destruct (H2 x Hx) as [Hn _].
    rewrite (rs_dispatches _ _ _ Hr), E, decide_True in Hn; done. }
  split.
  - constructor.
    + intros Hb. destruct (Hd Hb) as (q & t & H1 & H2 & H3 & H4). exists q, t. split_and!; [done.. |].
      rewrite Ho'; [done |]. intros x Hx _. by apply Hne.
    + clear Hras Ho'. induction Hds as [| w x ws ds Hall _ IH]; constructor;
        [| apply IH; intros y Hy; apply Hne; by right].
      intros Hb. rewrite <- Hp in Hb. destruct (Hall Hb) as (q & t & H1 & H2 & H3 & H4). exists q, t.
      split_and!; [done | done | | done]. rewrite <- H3. symmetry. apply Ho.
      intros y ->%list_elem_of_singleton _ E. apply (Hne x); [left | done].
  - split; [congruence |]. intros k Hk. rewrite Ho'; [apply Ho |].
    + intros x ->%list_elem_of_singleton. apply Hk. left.
    + intros x Hx. rewrite Hp. apply Hk. by right.
Qed.

(** Draws from the [n]-th on name nothing that exists, and no two are equal. *)
Record draws_from (n : nat) (s : state) : Prop := {
  df_distinct i j id : mint e i = Ok id -> mint e j = Ok id -> i = j;
  df_dispatch i id : (n <= i)%nat -> mint e i = Ok id -> mget (dispatches s) id = None;
  df_lease i id : (n <= i)%nat -> mint e i = Ok id -> mget (Leases s) id = None
}.

Lemma fresh_draws_from n s : fresh_draws e s -> draws_from n s.
Proof. intros [H1 H2 H3]. split; eauto. Qed.

Lemma draws_reserves n s d s' :
  draws_from n s -> mint e n = Ok (DR_ID d) -> reserves s d s' -> draws_from (S n) s'.
Proof.
  intros [H1 H2 H3] Hm Hr. split; [done | |].
  - intros i id Hi Hid. rewrite (rs_dispatches _ _ _ Hr). case_decide as E; [| apply (H2 i); [lia | done]].
    subst id. pose proof (H1 _ _ _ Hm Hid). lia.
  - intros i id Hi Hid. rewrite (reserves_leases _ _ _ Hr). apply (H3 i); [lia | done].
Qed.

Lemma reserve_verdicts_ok vs s ds n s' ds' k :
  exec (each (reserve_verdict e session wave p plan expires) (s, ds) vs) n = Ok ((s', ds'), k) ->
  lease_inv s -> reservation_inv s -> draws_from n s ->
  (forall v l, v ∈ vs -> protects s l -> overlaps (verdict_lease v) l = false) ->
  (forall l1 v l2 w l3, vs = l1 ++ v :: l2 ++ w :: l3 -> overlaps (verdict_lease v) (verdict_lease w) = false) ->
  exists new, ds' = ds ++ new /\ Forall2 (reservation_of session p plan expires) vs new
    /\ reserves_all s new s' /\ lease_inv s' /\ reservation_inv s'
    /\ Forall2 (allocated s wave s') vs new /\ allocates_only s new s'.
Proof.
  revert s ds n. induction vs as [| v vs IH]; intros s ds n E Hl Hr Hd Hfree Hpair; simpl each in E.
  - apply mret_ok in E as [E _]. injection E as -> ->. exists []. rewrite app_nil_r. split_and!; try done; constructor.
  - apply prog_bind_ok in E as ([s1 ds1] & j & E1 & E).
    apply reserve_verdict_ok in E1 as (-> & d & -> & Hm & Hof & Hres & Hal & Hon); [| apply Hl | ].
    2: { intros id. by apply (df_dispatch _ _ Hd n). }
    destruct (reserves_inv _ _ _ Hres Hl Hr) as [Hl1 Hr1].
    { by apply (df_lease _ _ Hd n). }
    { intros l Hp. rewrite (reservation_overlaps _ _ _ _ _ _ _ Hof). apply Hfree; [left | done]. }
    apply IH in E as (new & -> & Hall & Hras & Hl2 & Hr2 & Hal2 & Hon2); [| done | done | | |].
    + exists (d :: new). rewrite <- app_assoc.
      pose proof (allocated_more _ _ _ _ _ _ _ Hres Hal Hon Hras Hal2 Hon2) as [? ?].
      split_and!; [done | by constructor | by econstructor | done..].
    + pose proof (draws_reserves _ _ _ _ Hd Hm Hres) as [D1 D2 D3]. split; [done | |]; intros i id Hi; [apply D2 | apply D3]; lia.
    + intros w l Hw [Hp | ->]%(reserves_protects _ _ _ Hres); [apply Hfree; [by right | done] |].
      rewrite overlaps_comm, (reservation_overlaps _ _ _ _ _ _ _ Hof).
      apply list_elem_of_split in Hw as (l2 & l3 & ->). by apply (Hpair [] v l2 w l3).
    + intros l1 w l2 y l3 ->. by apply (Hpair (v :: l1) w l2 y l3).
Qed.
End waves.

(** ** A wave *)

Lemma put_swarm_receipt_frame s key r s' :
  put_swarm_receipt s key r = Ok s' ->
  s' = s <| st_Swarm := (st_Swarm s) <| SwarmOperations := swarm_operations s' |> |>
  /\ mset (swarm_operations s) key r = Ok (swarm_operations s').
Proof. unfold put_swarm_receipt. intros H. apply bind_ok in H as (m & Hm & H). by simplify_eq. Qed.

(** States that agree on leases, reservations, recoveries and the fence. *)
Lemma tables_same s s' :
  Leases s' = Leases s -> Fence s' = Fence s -> dispatches s' = dispatches s -> recoveries s' = recoveries s ->
  lease_inv s -> reservation_inv s -> lease_inv s' /\ reservation_inv s'.
Proof.
  intros El Ef Ed Er Hl Hr. split; [by eapply lease_inv_same |]. apply (reservation_inv_keep s); [done | lia | | |].
  - intros k. by rewrite Ed.
  - rewrite Er. eauto.
  - intros k d _ _. by rewrite El.
Qed.

Section wave_laws.
Context `{Reconciliation} (u : Unicode) (e : Env) (ad : Adapters) (au : Authority).

Lemma settle_wave_ok s0 s token session req p wave n s' k :
  exec (settle_wave e ad au s0 s token session req p wave) n = Ok (s', k) ->
  exists gate i j, exec (consumeCheckpoint e ad au s0 token session req (SW_ID wave)) i = Ok (gate, j)
    /\ s' = s <| st_Checkpoint := (st_Checkpoint s) <| Checkpoints := checkpoints gate |> |>.
Proof.
  unfold settle_wave. cbv zeta. intros E. do 6 (apply prog_bind_ok in E as (? & ? & _ & E)).
  apply prog_bind_ok in E as (gate & j & Hg & E). do 3 (apply prog_bind_ok in E as (? & ? & _ & E)).
  apply mret_ok in E as [-> _]. eauto.
Qed.

(** What a new wave is: the fresh plan, its reservations and the state behind them. *)
Record waved (s : state) (token session : string) (req : ReserveWaveRequest) (limit : Z) (allowed : option (list string))
    (wave : SwarmWave) (s' : state) (plan : SwarmPlan) : Prop := {
  wv_plan : exists i k, exec (planSwarmLimited u e ad au s token session (SPn_ProjectID (RWR_Plan req)) "swarm.reserve" limit allowed) i
              = Ok (plan, k);
  wv_same : SPn_ID plan = SPn_ID (RWR_Plan req) /\ SW_PlanID wave = SPn_ID plan;
  wv_reservations : SW_Dispatches wave <> []
    /\ Forall2 (reservation_of session (swarm_policy s (SPn_ProjectID (RWR_Plan req))) plan (RWR_ExpiresAt req))
         (selected_verdicts plan) (SW_Dispatches wave);
  wv_gate : exists gate i j, exec (consumeCheckpoint e ad au s token session req (SW_ID wave)) i = Ok (gate, j)
              /\ checkpoints s' = checkpoints gate;
  wv_state : exists s1, reserves_all s (SW_Dispatches wave) s1 /\ lease_inv s1 /\ reservation_inv s1
    /\ s' = s1 <| st_Checkpoint := (st_Checkpoint s) <| Checkpoints := checkpoints s' |> |>;
  wv_allocations : Forall2 (allocated s (SW_ID wave) s') (selected_verdicts plan) (SW_Dispatches wave)
    /\ allocates_only s (SW_Dispatches wave) s'
}.

Lemma reserve_plan_ok s token session req limit allowed r plan m i n wave s' k :
  exec (planSwarmLimited u e ad au s token session (SPn_ProjectID (RWR_Plan req)) "swarm.reserve" limit allowed) m = Ok (plan, i) ->
  exec (reserve_plan e ad au s token session req r plan) n = Ok ((wave, s'), k) ->
  lease_inv s -> reservation_inv s -> fresh_draws e s ->
  waved s token session req limit allowed wave s' plan.
Proof.
  unfold reserve_plan. cbv zeta. intros Hplan E Hl Hr Hd.
  apply prog_bind_ok in E as ([] & j & Hid & E). apply lift_ok in Hid as [Hid _]. apply fail_if_ok in Hid. bool_facts.
  do 3 (apply prog_bind_ok in E as (? & ? & _ & E)).
  apply prog_bind_ok in E as (id & j1 & _ & E). apply prog_bind_ok in E as ([s1 ds] & j2 & Hloop & E).
  apply prog_bind_ok in E as ([] & j3 & Hne & E). apply lift_ok in Hne as [Hne _]. apply fail_if_ok in Hne. bool_facts.
  apply prog_bind_ok in E as (s2 & j4 & Hs & E). apply mret_ok in E as [E _]. injection E as -> ->.
  apply settle_wave_ok in Hs as (gate & ig & jg & Hgate & ->).
  pose proof (planSwarmLimited_ok _ _ _ _ _ _ _ _ _ _ _ _ _ _ Hplan) as (r0 & policy & snap & [_ _ _ _ (pl & [_ _ _ _ _ Hex Hdis _ _ _] & Hv)]).
  pose proof (selected_chosen _ _ Hv) as Hsel.
  apply reserve_verdicts_ok in Hloop as (new & -> & Hall & Hras & Hl1 & Hr1 & Hal); [| done | done | by apply fresh_draws_from | |].
  - split; [eauto | done | | eauto | | exact Hal].
    + split; [| done]. cbn. intros E0. by rewrite E0 in Hne.
    + exists s1. split_and!; [done | done | done |]. destruct (reserves_all_frame _ _ _ Hras) as [-> _]. done.
  - intros v l Hin Hp. rewrite Hsel in Hin. apply list_elem_of_split in Hin as (l1 & l2 & Hin). specialize (Hdis _ _ _ Hin).
    apply Forall_app in Hdis as [Hdis _]. rewrite list.Forall_forall in Hdis. apply Hdis. by apply swarmOccupancy_excluded.
  - intros l1 v l2 w l3 Heq. rewrite Hsel, app_comm_cons, app_assoc in Heq. specialize (Hdis _ _ _ Heq).
    apply Forall_app in Hdis as [_ Hdis]. rewrite list.Forall_forall in Hdis. rewrite overlaps_comm. apply Hdis.
    apply list_elem_of_fmap. exists v. split; [done |]. apply elem_of_app. right. left.
Qed.

Lemma ReserveWave_ok token session req s wave s' :
  ReserveWave u e ad au token session req s = Ok (wave, s') ->
  lease_inv s -> reservation_inv s -> fresh_draws e s ->
  (exists old, mget (swarm_operations s) (RWR_OperationKey req) = Some old /\ SRc_Wave old = Some wave /\ s' = s)
  \/ mget (swarm_operations s) (RWR_OperationKey req) = None
     /\ exists plan s1 digest, waved s token session req 0 None wave s1 plan
        /\ put_swarm_receipt s1 (RWR_OperationKey req) (mkSwarmReceipt digest (Some wave) None None) = Ok s'.
Proof.
  unfold ReserveWave. intros E Hl Hr Hd. apply run_ok in E as [k E]. do 2 (apply prog_bind_ok in E as (? & ? & _ & E)).
  unfold reserveWaveStateLimited in E. cbv zeta in E. apply prog_bind_ok in E as (r & j & _ & E).
  apply prog_bind_ok in E as ([] & j1 & _ & E). destruct (mget (swarm_operations s) _) as [old |] eqn:Eo.
  - apply prog_bind_ok in E as ([] & j2 & _ & E). apply prog_bind_ok in E as (w & j3 & Hw & E). apply lift_ok in Hw as [Hw _].
    apply must_ok in Hw. apply mret_ok in E as [E _]. simplify_eq. left. eauto.
  - apply prog_bind_ok in E as (? & j2 & _ & E). apply prog_bind_ok in E as (plan & j3 & Hplan & E).
    apply prog_bind_ok in E as ([w s1] & j4 & Hp & E). apply prog_bind_ok in E as (s2 & j5 & Hs & E).
    apply lift_ok in Hs as [Hs _]. apply mret_ok in E as [E _]. simplify_eq. right. split; [done |].
    eexists plan, s1, _. split; [by eapply reserve_plan_ok | done].
Qed.

(** C19: reserving a wave is answered once per operation key; a new wave is the plan the
    caller presented, made again: each of its selected verdicts becomes exactly one
    new reservation, of the same task, roles, resources and base, under consecutive
    fences above every fence issued before; where the project has a budget, each
    reservation gets one new allocation, of the phases of the allowed quote its
    verdict carries and bound to this wave, task and fence, and no other allocation
    changes; the gate of the project's checkpoint is consumed for this wave; no lease, session or other reservation changes, and
    nothing that protects resources overlaps anything else that does *)
Theorem ReserveWave_exact token session req s wave s' :
  ReserveWave u e ad au token session req s = Ok (wave, s') ->
  lease_inv s -> reservation_inv s -> fresh_draws e s ->
  (forall old, mget (swarm_operations s) (RWR_OperationKey req) = Some old -> SRc_Wave old = Some wave /\ s' = s)
  /\ (mget (swarm_operations s) (RWR_OperationKey req) = None ->
      (exists plan i k, exec (planSwarm u e ad au s token session (SPn_ProjectID (RWR_Plan req)) "swarm.reserve") i = Ok (plan, k)
         /\ SPn_ID plan = SPn_ID (RWR_Plan req)
         /\ Forall2 (reservation_of session (swarm_policy s (SPn_ProjectID (RWR_Plan req))) plan (RWR_ExpiresAt req))
              (selected_verdicts plan) (SW_Dispatches wave)
         /\ Forall2 (allocated s (SW_ID wave) s') (selected_verdicts plan) (SW_Dispatches wave))
      /\ allocates_only s (SW_Dispatches wave) s'
      /\ SW_Dispatches wave <> [] /\ Fence s' = Fence s + Z.of_nat (List.length (SW_Dispatches wave)) /\ Fence s' <= max_uint64
      /\ map (fun d => Lease_Fence (DR_Reservation d)) (SW_Dispatches wave)
         = map (fun i => Fence s + 1 + Z.of_nat i) (seq 0 (List.length (SW_Dispatches wave)))
      /\ (forall d, d ∈ SW_Dispatches wave -> mget (dispatches s) (DR_ID d) = None /\ mget (dispatches s') (DR_ID d) = Some d)
      /\ (forall k d, mget (dispatches s) k = Some d -> mget (dispatches s') k = Some d)
      /\ Leases s' = Leases s /\ Sessions s' = Sessions s
      /\ (exists gate i j, exec (consumeCheckpoint e ad au s token session req (SW_ID wave)) i = Ok (gate, j)
            /\ checkpoints s' = checkpoints gate)
      /\ (exists rec, mget (swarm_operations s') (RWR_OperationKey req) = Some rec /\ SRc_Wave rec = Some wave)
      /\ lease_inv s' /\ reservation_inv s').
Proof.
  intros E Hl Hr Hd.
  apply ReserveWave_ok in E as [(old & Ho & Hw & ->) | (Ho & plan & s1 & digest & [(i & k & Hp) [Hid _] [Hne Hall] (gate & ig & jg & Hg & Hgc) (s0 & Hras & Hl0 & Hr0 & Hs1) [Hal Hon]] & Hput)]; [| | done | done | done];
    rewrite Ho; (split; [intros ? [= <-] || done | intros ?]); try done.
  apply put_swarm_receipt_frame in Hput as [Hs' Hm].
  pose proof (reserves_all_dispatches _ _ _ Hras) as (Hd1 & Hd2 & Hd3). pose proof (reserves_all_frame _ _ _ Hras) as (Hfr & Hf & Hmax).
  specialize (Hmax Hne).
  assert (Hleases : Leases s' = Leases s /\ Sessions s' = Sessions s /\ Fence s' = Fence s0 /\ dispatches s' = dispatches s0
                    /\ Leases s0 = Leases s /\ recoveries s' = recoveries s0 /\ checkpoints s' = checkpoints s1).
  { rewrite Hs', Hs1. cbn. rewrite Hfr. done. }
  destruct Hleases as (E1 & E2 & E3 & E4 & E5 & E6 & E7). rewrite E1, E2, E3, E4, E7.
  assert (Ht : lease_inv s' /\ reservation_inv s') by (apply (tables_same s0); congruence || done). destruct Ht.
  assert (Ha : Forall2 (allocated s (SW_ID wave) s') (selected_verdicts plan) (SW_Dispatches wave)
               /\ allocates_only s (SW_Dispatches wave) s').
  { assert (budget_policies s' = budget_policies s1 /\ allocations s' = allocations s1) as [E8 E9] by by rewrite Hs'.
    unfold allocated, allocates_only in *. rewrite E8, E9. done. }
  destruct Ha. split_and!; try done; eauto 10.
  - intros x d Hx. destruct (Hd1 x) as [(y & Hy & Hk & _) | [_ Hm1]]; [| congruence].
    destruct (Hd2 y Hy) as [Hn _]. congruence.
  - eexists. split; [by eapply mget_mset_eq | done].
Qed.
End wave_laws.

(** ** A handoff *)

Lemma handoff_conflicts_false s d l :
  handoff_conflicts s d l = false <->
  (forall k old, mget (Leases s) k = Some old -> Lease_Released old = false -> overlaps l old = false)
  /\ (forall k x, mget (dispatches s) k = Some x -> DR_ID x <> DR_ID d -> reservationRetained s x = true ->
        overlaps l (DR_Reservation x) = false).
Proof.
  unfold handoff_conflicts. rewrite orb_false_iff, !existsb_not_elem. split.
  - intros [H1 H2]. split.
    + intros k old Hk Hr. specialize (H1 old ltac:(apply elem_of_mvals; eauto)). by rewrite Hr in H1.
    + intros k x Hk Hne Hr. specialize (H2 x ltac:(apply elem_of_mvals; eauto)).
      rewrite Hr in H2. apply String.eqb_neq in Hne. by rewrite Hne in H2.
  - intros [H1 H2]. split.
    + intros old [k Hk]%elem_of_mvals. destruct (Lease_Released old) eqn:E; simpl; eauto.
    + intros x [k Hk]%elem_of_mvals. destruct (DR_ID x =? DR_ID d)%string eqn:En; simpl; [done |].
      destruct (reservationRetained s x) eqn:E; simpl; [| done]. bool_facts. eauto.
Qed.

(** The reservation once it was handed off. *)
Definition converted (d : DispatchReservation) (worker : string) (a : Attempt) : DispatchReservation :=
  d <| DR_Converted := true |> <| DR_WorkerSessionID := worker |> <| DR_AttemptID := Attempt_ID a |>.

(** [d] became the lease [l] of the worker's attempt. *)
Record hands_off (s : state) (d : DispatchReservation) (worker : string) (a : Attempt) (key : string) (l : Lease) (s' : state) : Prop := {
  ho_fence : Fence s <> max_uint64 /\ Fence s' = incr_u64 (Fence s);
  ho_lease : l = (handed_lease d worker a) <| Lease_Fence := Fence s' |>;
  ho_dispatches k : mget (dispatches s') k = if decide (DR_ID d = k) then Some (converted d worker a) else mget (dispatches s) k;
  ho_leases k : mget (Leases s') k = if decide (Lease_ID l = k) then Some l else mget (Leases s) k;
  ho_nil : is_nil (Leases s') = is_nil (Leases s) /\ is_nil (dispatches s') = is_nil (dispatches s)
           /\ is_nil (selections s') = is_nil (selections s);
  ho_receipt : exists digest, mset (swarm_operations s) key (mkSwarmReceipt digest None None (Some l)) = Ok (swarm_operations s');
  ho_frame : s' = s <| Fence := Fence s' |> <| Leases := Leases s' |>
                    <| st_Swarm := (st_Swarm s) <| Dispatches := dispatches s' |> <| SwarmOperations := swarm_operations s' |> |>
                    <| st_Routing := (st_Routing s) <| ModelRoutingSelections := selections s' |> |>
}.

Lemma convert_ok s d worker a key digest l0 l s' :
  convert s d worker a key digest l0 = Ok (l, s') -> l0 = handed_lease d worker a -> hands_off s d worker a key l s'.
Proof.
  unfold convert. cbv zeta. intros E ->. apply bind_ok in E as ([] & Hf & E). apply deny_if_ok in Hf. bool_facts.
  apply bind_ok in E as (s1 & H1 & E). apply bind_ok in E as (s2 & H2 & E). apply bind_ok in E as (m & Hm & E).
  apply bind_ok in E as (s3 & H3 & E). injection E as <- <-.
  unfold put_dispatch in H1. apply bind_ok in H1 as (dm & Hdm & H1). injection H1 as <-.
  apply put_selection_nil in H2 as N2. apply put_selection_frame in H2. apply put_swarm_receipt_frame in H3 as [H3 Hr].
  assert (E2 : Leases s2 = Leases s /\ swarm_operations s2 = swarm_operations s /\ dispatches s2 = dm /\ Fence s2 = incr_u64 (Fence s))
    by by rewrite H2. destruct E2 as (E2 & E3 & E4 & E5).
  assert (E6 : Leases s3 = m /\ dispatches s3 = dm /\ Fence s3 = incr_u64 (Fence s))
    by (rewrite H3; split_and!; [done | exact E4 | exact E5]).
  destruct E6 as (E6 & E7 & E8). rewrite E2 in Hm. split; rewrite ?E8.
  - done.
  - done.
  - intros k. rewrite E7. exact (mget_mset _ _ _ _ _ Hdm).
  - intros k. rewrite E6. exact (mget_mset _ _ _ _ _ Hm).
  - rewrite E6, E7. split_and!; [exact (is_nil_mset_eq _ _ _ _ Hm) | exact (is_nil_mset_eq _ _ _ _ Hdm) |].
    transitivity (is_nil (selections s2)); [by rewrite H3 | exact N2].
  - exists digest. change (mset (swarm_operations s2) key (mkSwarmReceipt digest None None
      (Some ((handed_lease d worker a) <| Lease_Fence := incr_u64 (Fence s) |>))) = Ok (swarm_operations s3)) in Hr. by rewrite E3 in Hr.
  - assert (E9 : selections s3 = selections s2) by by rewrite H3.
    rewrite E6, E7, E9. etransitivity; [exact H3 |]. generalize (swarm_operations s3). intros ops. by rewrite H2.
Qed.

Section handoff.
Context (e : Env) (ad : Adapters) (au : Authority).

(** A handoff under a new key. *)
Record handed (s : state) (worker : string) (req : HandoffDispatchRequest) (d : DispatchReservation) (a : Attempt) (l : Lease) (s' : state) : Prop := {
  hd_dispatch : mget (dispatches s) (HD_DispatchID req) = Some d;
  hd_retained : reservationRetained s d = true;
  hd_actors : DR_ControllerSessionID d <> worker /\ Lease_Fence (DR_Reservation d) = HD_ExpectedFence req;
  hd_attempt : attemptFor s (HD_AttemptID req) worker = Ok a /\ at_task a = task_of d
               /\ Locator (Attempt_Observation a) = Lease_Checkout (DR_Reservation d)
               /\ Repository (Attempt_Observation a) = Lease_Repository (DR_Reservation d);
  hd_free : handoff_conflicts s d (handed_lease d worker a) = false;
  hd_state : hands_off s d worker a (HD_OperationKey req) l s'
}.

Lemma handoffDispatch_ok s token worker req n l s' k :
  exec (handoffDispatch e ad au s token worker req) n = Ok ((l, s'), k) ->
  (exists old, mget (swarm_operations s) (HD_OperationKey req) = Some old /\ SRc_Lease old = Some l /\ s' = s)
  \/ mget (swarm_operations s) (HD_OperationKey req) = None /\ exists d a, handed s worker req d a l s'.
Proof.
  unfold handoffDispatch. intros E. apply prog_bind_ok in E as ([r a] & j & Ha & E).
  apply prog_bind_ok in E as ([] & j1 & _ & E). cbv zeta in E.
  destruct (mget (swarm_operations s) _) as [old |] eqn:Eo.
  { apply prog_bind_ok in E as ([] & j2 & _ & E). apply prog_bind_ok in E as (x & j3 & Hx & E). apply lift_ok in Hx as [Hx _].
    apply must_ok in Hx. apply mret_ok in E as [E _]. simplify_eq. left. eauto. }
  right. split; [done |]. unfold lease_auth_now in Ha. apply prog_bind_ok in Ha as (t & j2 & _ & Ha).
  apply lift_ok in Ha as [Ha _]. apply leaseAuth_ok in Ha as (_ & Ha & _).
  unfold new_handoff in E. cbv zeta in E. apply prog_bind_ok in E as (d & j3 & Hd & E). apply lift_ok in Hd as [Hd _]. apply must_ok in Hd.
  apply prog_bind_ok in E as ([] & j4 & H1 & E). apply forbid_if_ok in H1 as [H1 _].
  do 2 (apply prog_bind_ok in E as (? & ? & _ & E)). apply prog_bind_ok in E as (p & j5 & _ & E).
  apply prog_bind_ok in E as ([] & j6 & _ & E). apply prog_bind_ok in E as ([] & j7 & H2 & E). apply forbid_if_ok in H2 as [H2 _].
  do 2 (apply prog_bind_ok in E as (? & ? & _ & E)). apply prog_bind_ok in E as (snap & j8 & _ & E).
  do 3 (apply prog_bind_ok in E as (? & ? & _ & E)). apply prog_bind_ok in E as ([] & j9 & _ & E).
  apply prog_bind_ok in E as ([] & j10 & H3 & E). apply forbid_if_ok in H3 as [H3 _].
  do 7 (apply prog_bind_ok in E as (? & ? & _ & E)). apply lift_ok in E as [E _].
  unfold handoff_scoped in H2. bool_facts. exists d, a. split; try done. by eapply convert_ok.
Qed.

(** The tables stay consistent and exactly one protection changes hands. *)
Lemma handed_tables s worker req d a l s' :
  lease_inv s -> reservation_inv s -> handed s worker req d a l s' ->
  mget (Leases s) (DR_ID d) = None /\ Lease_ID l = DR_ID d /\ Lease_Released l = Lease_Released (DR_Reservation d)
  /\ Lease_Fence l = Fence s + 1 /\ Fence s' = Fence s + 1 /\ Fence s' <= max_uint64
  /\ reservationRetained s' (converted d worker a) = false /\ lease_inv s' /\ reservation_inv s' /\ lease_le s s'.
Proof.
  intros [Hg Hk Hu He Hr] [Rk Re Ru] [Hd Hret _ _ Hfree [[Hne Hf] Hl Hds Hls _ _ Hfr]].
  apply handoff_conflicts_false in Hfree as [Hf1 Hf2]. destruct (Rk _ _ Hd) as (Hid & Hlid & Hfence).
  apply reservationRetained_true in Hret as [Hnc Hnr]. pose proof (Ru _ _ Hd Hnc) as Hnl. rewrite <- Hid in Hnl.
  rewrite incr_u64_small in Hf by lia.
  assert (Hll : Lease_ID l = DR_ID d /\ Lease_Fence l = Fence s') by (rewrite Hl; cbn; split; congruence). destruct Hll as [Hll Hlf].
  assert (Hrec : recoveries s' = recoveries s) by by rewrite Hfr.
  assert (Hret' : forall x, reservationRetained s' x = reservationRetained s x) by (intros x; unfold reservationRetained; by rewrite Hrec).
  assert (Hov : forall x, overlaps l x = overlaps (handed_lease d worker a) x) by (intros x; rewrite Hl; by apply overlaps_same).
  assert (Hcon : reservationRetained s' (converted d worker a) = false) by done.
  assert (Hrel : Lease_Released l = Lease_Released (DR_Reservation d)) by by rewrite Hl. clear Hl.
  rewrite Hll in Hls. split_and!; [done | done | done | lia | lia | lia | done | | |].
  - split.
    + lia.
    + intros k x H. rewrite Hls in H. case_decide; [simplify_eq; split; [congruence | lia] |]. destruct (Hk _ _ H). split; [done | lia].
    + intros k1 k2 l1 l2 H1 H2 Ef. rewrite Hls in H1, H2. case_decide; case_decide; simplify_eq; try done.
      * destruct (Hk _ _ H1). lia.
      * destruct (Hk _ _ H2). lia.
      * by eapply Hu.
    + intros k1 k2 l1 l2 H1 H2 Hn R1 R2. rewrite Hls in H1, H2. case_decide; case_decide; simplify_eq; try done.
      * rewrite overlaps_comm, Hov. eauto.
      * rewrite Hov. eauto.
      * by eapply He.
    + intros k x kd y H Hx Hy Hry. rewrite Hls in H. rewrite Hds in Hy. rewrite Hret' in Hry.
      case_decide as E1; case_decide as E2; simplify_eq.
      * rewrite Hov. destruct (Rk _ _ Hy) as (Hky & _). apply (Hf2 kd); [done | congruence | done].
      * by eapply Hr.
  - split.
    + intros k x H. rewrite Hds in H. case_decide; [simplify_eq; cbn; split_and!; [done | congruence | lia | lia] |].
      apply Rk in H as (? & ? & ?). split_and!; [done | done | lia | lia].
    + intros k1 k2 d1 d2 H1 H2 Hn R1 R2. rewrite Hds in H1, H2. case_decide; case_decide; simplify_eq; try done.
      rewrite Hret' in R1, R2. by eapply Re.
    + intros k x H Hc. rewrite Hds in H. rewrite Hls. case_decide; [by simplify_eq | by eapply Ru].
  - split; [lia |]. intros k x Hx. rewrite Hls. case_decide; [congruence |]. by exists x.
Qed.
End handoff.

(** a handoff is answered once per operation key and never for a dispatch that has
    a durable intent; a new one turns exactly one retained reservation, reserved by
    another session under the expected fence, into a lease of the worker's own
    attempt on the same task and checkout, under the next fence: that lease now
    protects what the reservation protected, and nothing else changes hands *)
Theorem HandoffDispatch_exact (e : Env) (ad : Adapters) (au : Authority) s token worker req l s' :
  HandoffDispatch e ad au s token worker req = Ok (l, s') -> lease_inv s -> reservation_inv s ->
  mget (intents s) (HD_DispatchID req) = None
  /\ (forall old, mget (swarm_operations s) (HD_OperationKey req) = Some old -> SRc_Lease old = Some l /\ s' = s)
  /\ (mget (swarm_operations s) (HD_OperationKey req) = None ->
      exists d a, mget (dispatches s) (HD_DispatchID req) = Some d /\ reservationRetained s d = true
        /\ DR_ControllerSessionID d <> worker /\ Lease_Fence (DR_Reservation d) = HD_ExpectedFence req
        /\ attemptFor s (HD_AttemptID req) worker = Ok a /\ at_task a = task_of d
        /\ Locator (Attempt_Observation a) = Lease_Checkout (DR_Reservation d)
        /\ l = (DR_Reservation d) <| Lease_AttemptID := Attempt_ID a |> <| Lease_SessionID := worker |>
                 <| Lease_Fence := Fence s + 1 |>
        /\ Fence s' = Fence s + 1 /\ Fence s' <= max_uint64
        /\ (forall k, mget (Leases s') k = if decide (DR_ID d = k) then Some l else mget (Leases s) k)
        /\ mget (Leases s) (DR_ID d) = None
        /\ (forall k, DR_ID d <> k -> mget (dispatches s') k = mget (dispatches s) k)
        /\ (exists d', mget (dispatches s') (DR_ID d) = Some d' /\ DR_Reservation d' = DR_Reservation d
              /\ reservationRetained s' d' = false)
        /\ (exists rec, mget (swarm_operations s') (HD_OperationKey req) = Some rec /\ SRc_Lease rec = Some l)
        /\ lease_inv s' /\ reservation_inv s').
Proof.
  unfold HandoffDispatch. intros E Hl Hr. apply bind_ok in E as ([] & Hi & E). apply deny_if_ok in Hi.
  apply mhas_false in Hi. apply run_ok in E as [k E]. split; [done |].
  apply handoffDispatch_ok in E as [(old & Ho & Hw & ->) | (Ho & d & a & Hh)]; rewrite Ho; (split; [intros ? [= <-] || done | intros ?]); try done.
  pose proof (handed_tables _ _ _ _ _ _ _ Hl Hr Hh) as (T1 & T2 & T3 & T4 & T5 & T6 & T7 & T8 & T9 & _).
  destruct Hh as [Hd Hret [Hne Hf] (Ha & Hta & Hc & _) _ [_ Hlease Hds Hls _ (dg & Hrec) _]].
  exists d, a. split_and!; try done.
  - by rewrite Hlease, T5.
  - intros x. rewrite Hls. by rewrite T2.
  - intros x Hx. rewrite Hds. by case_decide.
  - exists (converted d worker a). rewrite Hds, decide_True by done. done.
  - eexists. split; [by eapply mget_mset_eq | done].
Qed.
