(* ===== verification/IntentLaws.v ===== *)
(** * What dispatch intents promise

    An intent is the durable record that a host action was authorised.  A dispatch
    has at most one, ever; it only moves forward, at most three times; and its
    dispatch is handed off only by its acknowledgement. *)

From S2P Require Import Prelude Floats GoStd Text Runes Team Strategy Disclosure State Session Withdrawal Resources Attempts Leases Lifecycle Evidence Reviews Encodings Scheduling Preflight Budgets Checkpoints Routing Swarms Intents SwarmLaws.
#[local] Open Scope Z_scope.

(** ** The state machine of an intent *)

(** The transitions a bridge reports and the one the worker acknowledges. *)
Inductive moves : string -> string -> Prop :=
  | moves_report from to host : correlates from to = true -> reported_ok to host = true -> moves from to
  | moves_acknowledge : moves "host_correlated" "acknowledged".

(** One step: the sequence counts it, and only the state, the agent, the lease and
    the observation time change. *)
Record intent_step (i j : DispatchIntent) : Prop := {
  is_fixed : j = i <| DI_Sequence := DI_Sequence j |> <| DI_State := DI_State j |> <| DI_HostAgentID := DI_HostAgentID j |>
                   <| DI_Lease := DI_Lease j |> <| DI_ObservedAt := DI_ObservedAt j |>;
  is_sequence : DI_Sequence j = DI_Sequence i + 1;
  is_moves : moves (DI_State i) (DI_State j)
}.

(** How far an intent has come. *)
Definition stage (state : string) : Z :=
  if (state =? "dispatch_requested")%string then 0
  else if (state =? "host_correlated")%string then 2
  else if (state =? "acknowledged")%string then 3 else 1.

Lemma stage_bounds x : 0 <= stage x <= 3.
Proof. unfold stage. repeat case_match; lia. Qed.

Lemma reported_states to host : reported_ok to host = true ->
  to = "host_correlated"%string /\ validHostAgentID host = true
  \/ (to = "manual_handoff_required" \/ to = "dispatch_unknown")%string /\ host = ""%string.
Proof.
  unfold reported_ok. destruct (to =? "host_correlated")%string eqn:E; [left; by bool_facts |].
  destruct ((to =? "manual_handoff_required")%string || (to =? "dispatch_unknown")%string) eqn:E2; [| done].
  intros H. apply String.eqb_eq in H. apply orb_true_iff in E2. rewrite !String.eqb_eq in E2. auto.
Qed.

Lemma correlates_from from to : correlates from to = true ->
  from = "dispatch_requested"%string
  \/ (from = "dispatch_unknown" \/ from = "manual_handoff_required")%string /\ to = "host_correlated"%string.
Proof. unfold correlates. rewrite orb_true_iff, andb_true_iff, orb_true_iff, !String.eqb_eq. done. Qed.

Lemma moves_stage from to : moves from to -> stage from < stage to.
Proof.
  destruct 1 as [x y host Hc Hr |]; [| done].
  apply correlates_from in Hc as [-> | [[-> | ->] ->]]; [| done | done].
  by apply reported_states in Hr as [[-> _] | [[-> | ->] _]].
Qed.

(** Nothing an intent stores disagrees with its state. *)
Record intent_wf (i : DispatchIntent) : Prop := {
  iw_sequence : 1 <= DI_Sequence i <= 1 + stage (DI_State i);
  iw_lease : is_Some (DI_Lease i) <-> DI_State i = "acknowledged"%string;
  iw_agent : (DI_State i = "host_correlated" \/ DI_State i = "acknowledged")%string -> validHostAgentID (DI_HostAgentID i) = true;
  iw_actors : DI_ControllerSessionID i <> DI_BridgeSessionID i /\ DI_ControllerSessionID i <> DI_WorkerSessionID i
              /\ DI_BridgeSessionID i <> DI_WorkerSessionID i
}.

(** The number of steps an intent can still take. *)
Lemma steps_bounded n i j : nsteps intent_step n i j -> Z.of_nat n + stage (DI_State i) <= stage (DI_State j).
Proof. induction 1 as [| n i m j H _ IH]; [lia |]. pose proof (moves_stage _ _ (is_moves _ _ H)). lia. Qed.

Lemma steps_sequence n i j : nsteps intent_step n i j -> DI_Sequence j = DI_Sequence i + Z.of_nat n.
Proof. induction 1 as [| n i m j H _ IH]; [lia |]. pose proof (is_sequence _ _ H). lia. Qed.

Lemma steps_fixed i j : rtc intent_step i j ->
  DI_Reservation j = DI_Reservation i /\ DI_ID j = DI_ID i /\ DI_DispatchID j = DI_DispatchID i /\ DI_Sequence i <= DI_Sequence j.
Proof.
  induction 1 as [| i m j H _ IH]; [done |]. destruct H as [Hf Hs _], IH as (-> & -> & -> & ?).
  rewrite Hf. split_and!; [done.. | cbn]. lia.
Qed.

(** ** What the authority keeps about intents *)

(** Every intent is of a reserved dispatch, which is handed off only by the
    acknowledgement of its intent. *)
Record intent_inv (s : state) : Prop := {
  iv_key k i : mget (intents s) k = Some i -> DI_DispatchID i = k /\ intent_wf i;
  iv_dispatch k i : mget (intents s) k = Some i ->
    exists d, mget (dispatches s) k = Some d /\ DR_Reservation d = DR_Reservation (DI_Reservation i)
      /\ (DR_Converted d = true -> DI_State i = "acknowledged"%string)
}.

(** Intents only step forward and receipts stay. *)
Record intent_le (s s' : state) : Prop := {
  il_intents k i : mget (intents s) k = Some i -> exists j, mget (intents s') k = Some j /\ rtc intent_step i j;
  il_receipts k r : mget (intent_operations s) k = Some r -> mget (intent_operations s') k = Some r
}.

#[export] Instance intent_le_preorder : PreOrder intent_le.
Proof.
  split.
  - intros s. split; eauto using rtc_refl.
  - intros s1 s2 s3 [A1 B1] [A2 B2]. split; [| auto]. intros k i (j & Hj & S1)%A1.
    apply A2 in Hj as (j' & ? & ?). exists j'. split; [done | by etrans].
Qed.

(** Dispatches of an intent may only gain their conversion with it. *)
Lemma intent_inv_keep s s' :
  intent_inv s -> (forall k, mget (intents s') k = mget (intents s) k) ->
  (forall k i d, mget (intents s) k = Some i -> mget (dispatches s) k = Some d -> exists d', mget (dispatches s') k = Some d'
     /\ DR_Reservation d' = DR_Reservation d /\ DR_Converted d' = DR_Converted d) ->
  intent_inv s'.
Proof.
  intros [Hk Hd] Ei H. split; intros k i Hi; rewrite Ei in Hi; [by apply Hk |].
  destruct (Hd _ _ Hi) as (d & Hm & Hr & Hc). destruct (H _ _ _ Hi Hm) as (d' & ? & ? & ?).
  exists d'. split_and!; [done | congruence | intros E; apply Hc; congruence].
Qed.

(** ** The operations *)

Lemma put_intent_ok s k i s' : put_intent s k i = Ok s' ->
  s' = s <| st_Intents := (st_Intents s) <| DispatchIntents := intents s' |> |> /\ mset (intents s) k i = Ok (intents s').
Proof. unfold put_intent. intros H. apply bind_ok in H as (m & Hm & H). by simplify_eq. Qed.

Lemma put_intent_receipt_ok s k r s' : put_intent_receipt s k r = Ok s' ->
  s' = s <| st_Intents := (st_Intents s) <| DispatchIntentOperations := intent_operations s' |> |>
  /\ mset (intent_operations s) k r = Ok (intent_operations s').
Proof. unfold put_intent_receipt. intros H. apply bind_ok in H as (m & Hm & H). by simplify_eq. Qed.

(** The intent of one dispatch is stored, with its receipt. *)
Record stores_intent (s : state) (dispatch key digest : string) (i : DispatchIntent) (s' : state) : Prop := {
  si_intent : mset (intents s) dispatch i = Ok (intents s');
  si_receipt : mset (intent_operations s) key (mkDispatchIntentReceipt digest i) = Ok (intent_operations s');
  si_frame : s' = s <| st_Intents := mkIntentMaps (intents s') (intent_operations s') |>
}.

Lemma stores_ok s dispatch key digest i m s' :
  put_intent s dispatch i = Ok m -> put_intent_receipt m key (mkDispatchIntentReceipt digest i) = Ok s' ->
  stores_intent s dispatch key digest i s'.
Proof.
  intros [Hm H1]%put_intent_ok [Hs H2]%put_intent_receipt_ok.
  assert (E : intents s' = intents m /\ intent_operations m = intent_operations s) by (rewrite Hs, Hm; done).
  destruct E as [E1 E2]. rewrite E2 in H2. split; [by rewrite E1 | done |]. rewrite E1.
  etransitivity; [exact Hs |]. generalize (intent_operations s'). intros ops. by rewrite Hm.
Qed.

(** Tables other than the intents are those before. *)
Lemma stores_same s dispatch key digest i s' : stores_intent s dispatch key digest i s' ->
  Leases s' = Leases s /\ Fence s' = Fence s /\ dispatches s' = dispatches s /\ recoveries s' = recoveries s.
Proof. intros [_ _ ->]. done. Qed.

Lemma stores_intents s dispatch key digest i s' k : stores_intent s dispatch key digest i s' ->
  mget (intents s') k = if decide (dispatch = k) then Some i else mget (intents s) k.
Proof. intros [Hm _ _]. exact (mget_mset _ _ _ _ _ Hm). Qed.

Lemma stores_le s dispatch key digest i s' :
  stores_intent s dispatch key digest i s' -> mget (intent_operations s) key = None ->
  (forall old, mget (intents s) dispatch = Some old -> rtc intent_step old i) -> intent_le s s'.
Proof.
  intros Hs Hn Hst. split.
  - intros k x Hx. rewrite (stores_intents _ _ _ _ _ _ k Hs). case_decide; [subst; eauto | eauto using rtc_refl].
  - intros k r Hr. by rewrite (mget_mset_ne _ _ _ _ _ (si_receipt _ _ _ _ _ _ Hs)) by congruence.
Qed.

Lemma stores_inv s s1 dispatch key digest i s' d :
  intent_inv s -> intents s1 = intents s ->
  (forall k, k <> dispatch -> mget (dispatches s1) k = mget (dispatches s) k) ->
  stores_intent s1 dispatch key digest i s' -> DI_DispatchID i = dispatch -> intent_wf i ->
  mget (dispatches s1) dispatch = Some d -> DR_Reservation d = DR_Reservation (DI_Reservation i) ->
  (DR_Converted d = true -> DI_State i = "acknowledged"%string) -> intent_inv s'.
Proof.
  intros [Hk Hdi] Ei Hsame Hs Hid Hwf Hd Hr Hc. destruct (stores_same _ _ _ _ _ _ Hs) as (_ & _ & Ed & _). split; intros k x Hx;
    rewrite (stores_intents _ _ _ _ _ _ k Hs), Ei in Hx; case_decide as E; simplify_eq; eauto; rewrite Ed; eauto.
  rewrite Hsame by congruence. eauto.
Qed.

Lemma intent_receipt_ok old digest n i k :
  exec (intent_receipt old digest) n = Ok (i, k) -> DIR_Digest old = digest /\ i = DIR_Intent old.
Proof.
  unfold intent_receipt. intros E. apply prog_bind_ok in E as ([] & j & Hf & E). apply forbid_if_ok in Hf as [Hf _].
  apply mret_ok in E as [-> _]. by bool_facts.
Qed.

Section laws.
Context (e : Env) (ad : Adapters) (au : Authority).

Lemma startable_ok s id n d k : exec (startable e s id) n = Ok (d, k) ->
  mget (dispatches s) id = Some d /\ mget (terminals s) (task_of d) = None
  /\ lifecycleDispatchEligible s id = true /\ mget (cancellations s) id = None.
Proof.
  unfold startable. intros E. apply prog_bind_ok in E as (d' & j & Hd & E). apply lift_ok in Hd as [Hd _]. apply must_ok in Hd.
  apply prog_bind_ok in E as ([] & j1 & Ht & E). apply forbid_if_ok in Ht as [Ht _]. do 2 skip_in E.
  apply prog_bind_ok in E as ([] & j2 & Hl & E). apply forbid_if_ok in Hl as [Hl _]. apply mret_ok in E as [<- _].
  apply orb_false_iff in Hl as [Hl Hc]. apply negb_false_iff in Hl. apply mhas_false in Ht, Hc. done.
Qed.

Lemma admitDispatch_ok s token session req n d k : exec (admitDispatch e ad au s token session req) n = Ok (d, k) ->
  mget (dispatches s) (AD_DispatchID req) = Some d /\ reservationRetained s d = true
  /\ DR_ControllerSessionID d = session /\ Lease_Fence (DR_Reservation d) = AD_ExpectedFence req
  /\ mget (terminals s) (task_of d) = None.
Proof.
  unfold admitDispatch. intros E. apply prog_bind_ok in E as (d' & j & Hd & E). apply startable_ok in Hd as (Hd & Ht & _).
  apply prog_bind_ok in E as ([] & j1 & Hf & E). apply forbid_if_ok in Hf as [Hf _].
  do 18 skip_in E. apply mret_ok in E as [-> _]. bool_facts. done.
Qed.

(** A new intent: what stood before and what it says. *)
Record requested (s : state) (controller : string) (req : RequestDispatchIntent) (d : DispatchReservation) (i : DispatchIntent)
    (s' : state) : Prop := {
  rq_dispatch : mget (dispatches s) (RDI_DispatchID req) = Some d /\ reservationRetained s d = true;
  rq_actors : DR_ControllerSessionID d = controller /\ RDI_BridgeSessionID req <> controller
              /\ RDI_WorkerSessionID req <> controller /\ RDI_WorkerSessionID req <> RDI_BridgeSessionID req;
  rq_fence : Lease_Fence (DR_Reservation d) = RDI_ExpectedFence req;
  rq_none : mget (intents s) (DR_ID d) = None /\ mget (intent_operations s) (RDI_OperationKey req) = None;
  rq_intent : exists id t, i = new_intent s controller req d d id t;
  rq_state : exists digest, stores_intent s (DR_ID d) (RDI_OperationKey req) digest i s'
}.

Lemma requestDispatchIntentState_ok s token controller req n r s' k :
  (forall k d, mget (dispatches s) k = Some d -> DR_ID d = k) ->
  exec (requestDispatchIntentState e ad au s token controller req) n = Ok ((r, s'), k) ->
  8 <= Version s /\
  ((exists old, mget (intent_operations s) (RDI_OperationKey req) = Some old
      /\ r = mkIntentResult (DIR_Intent old) false /\ s' = s)
   \/ exists d i, requested s controller req d i s' /\ r = mkIntentResult i true).
Proof.
  unfold requestDispatchIntentState. intros Hkey E. apply prog_bind_ok in E as ([] & j & Hv & E).
  apply forbid_if_ok in Hv as [Hv _]. bool_facts. apply prog_bind_ok in E as (d & j1 & Hd & E). apply lift_ok in Hd as [Hd _].
  apply must_ok in Hd. skip_in E. apply prog_bind_ok in E as ([] & j2 & H1 & E). apply forbid_if_ok in H1 as [H1 _]. cbv zeta in E.
  split; [done |]. destruct (mget (intent_operations s) _) as [old |] eqn:Eo.
  { left. apply prog_bind_ok in E as (i & j3 & Hi & E). apply intent_receipt_ok in Hi as [_ ->].
    apply mret_ok in E as [E _]. injection E as -> ->. eauto. }
  right. apply prog_bind_ok in E as ([] & j3 & H2 & E). apply forbid_if_ok in H2 as [H2 _]. apply mhas_false in H2.
  apply prog_bind_ok in E as ([] & j4 & H3 & E). apply forbid_if_ok in H3 as [H3 _]. do 2 skip_in E.
  apply prog_bind_ok in E as (fresh & j5 & Hf & E). apply admitDispatch_ok in Hf as (Hf & Hret & Hc & _).
  cbn in Hf. pose proof (Hkey _ _ Hd) as Hid. rewrite Hid, Hd in Hf. injection Hf as <-.
  apply prog_bind_ok in E as (id & j6 & _ & E). apply prog_bind_ok in E as (t & j7 & _ & E). skip_in E.
  apply prog_bind_ok in E as (s1 & j8 & Hs & E). apply lift_ok in Hs as [Hs _]. apply mret_ok in E as [E _]. injection E as -> ->.
  unfold record_intent in Hs. apply bind_ok in Hs as (m & Hm & Hs). bool_facts.
  eexists d, _. split; [| done]. split; try done.
  - eauto.
  - eexists. by eapply stores_ok.
Qed.

Lemma requested_inv_le s controller req d i s' :
  intent_inv s -> reservation_inv s -> requested s controller req d i s' -> intent_inv s' /\ intent_le s s'.
Proof.
  intros Hi Hr [[Hd Hret] (Hc & H1 & H2 & H3) _ [Hn Hno] (id & t & ->) [digest Hs]].
  apply reservationRetained_true in Hret as [Hconv _]. pose proof (rv_key _ Hr _ _ Hd) as [Hid _]. split.
  - eapply (stores_inv s s); [done | done | done | exact Hs | done | | by rewrite Hid | done |].
    + split; cbn; [lia | split; [intros [? [=]] | intros [=]] | intros [[=] | [=]] |]. split_and!; congruence.
    + by rewrite Hconv.
  - eapply stores_le; [exact Hs | done |]. intros old Ho. congruence.
Qed.

Lemma actor_intent_ok s dispatch id actor session i :
  actor_intent s dispatch id actor session = Ok i ->
  8 <= Version s /\ mget (intents s) dispatch = Some i /\ DI_ID i = id /\ actor i = session.
Proof.
  unfold actor_intent. intros E. apply bind_ok in E as ([] & Hv & E). apply deny_if_ok in Hv.
  apply bind_ok in E as (x & Hx & E). apply must_ok in Hx. apply bind_ok in E as ([] & Hf & E). apply deny_if_ok in Hf.
  injection E as ->. by bool_facts.
Qed.

(** A new report of the bridge. *)
Record reported (s : state) (bridge : string) (req : CorrelateDispatchIntent) (i j : DispatchIntent) (s' : state) : Prop := {
  rp_intent : mget (intents s) (CDI_DispatchID req) = Some i /\ DI_ID i = CDI_IntentID req /\ DI_BridgeSessionID i = bridge;
  rp_expected : DI_Sequence i = CDI_ExpectedSequence req /\ intent_fence i = CDI_ExpectedFence req;
  rp_live : mget (recoveries s) ("reservation:" ++ DI_DispatchID i)%string = None /\ mget (cancellations s) (DI_DispatchID i) = None;
  rp_moves : correlates (DI_State i) (CDI_State req) = true /\ reported_ok (CDI_State req) (CDI_HostAgentID req) = true;
  rp_report : exists t, j = advanced i (CDI_State req) (CDI_HostAgentID req) (DI_Lease i) t;
  rp_state : mget (intent_operations s) (CDI_OperationKey req) = None
             /\ exists digest, stores_intent s (CDI_DispatchID req) (CDI_OperationKey req) digest j s'
}.

Lemma intent_live_ok s i : intent_live s i = true ->
  mget (recoveries s) ("reservation:" ++ DI_DispatchID i)%string = None /\ mget (cancellations s) (DI_DispatchID i) = None.
Proof. unfold intent_live. rewrite andb_true_iff, !negb_true_iff, !mhas_false. done. Qed.

Lemma CorrelateDispatch_ok token bridge req s j s' :
  CorrelateDispatch e ad token bridge req s = Ok (j, s') ->
  (exists old, mget (intent_operations s) (CDI_OperationKey req) = Some old /\ j = DIR_Intent old /\ s' = s)
  \/ exists i, reported s bridge req i j s'.
Proof.
  unfold CorrelateDispatch. intros E. apply run_ok in E as [k E]. apply prog_bind_ok in E as (i & n & Hi & E).
  apply lift_ok in Hi as [Hi _]. apply actor_intent_ok in Hi as (_ & Hi & Hid & Hb). skip_in E.
  apply prog_bind_ok in E as ([] & n1 & H1 & E). apply forbid_if_ok in H1 as [H1 _]. cbv zeta in E.
  destruct (mget (intent_operations s) _) as [old |] eqn:Eo.
  { left. apply prog_bind_ok in E as (y & n2 & Hx & E). apply intent_receipt_ok in Hx as [_ ->].
    apply mret_ok in E as [E _]. injection E as -> ->. eauto. }
  right. apply prog_bind_ok in E as ([] & n2 & H2 & E). apply forbid_if_ok in H2 as [H2 _]. do 5 skip_in E.
  apply prog_bind_ok in E as (t & n3 & _ & E). apply prog_bind_ok in E as (m & n4 & Hm & E). apply lift_ok in Hm as [Hm _].
  apply prog_bind_ok in E as (s1 & n5 & Hs & E). apply lift_ok in Hs as [Hs _]. apply mret_ok in E as [E _]. injection E as -> ->.
  rewrite !orb_false_iff, !negb_false_iff in H2. destruct H2 as [[[Hl Hq] Hc] Hr]. apply intent_live_ok in Hl. bool_facts.
  exists i. split; try done; [eauto |]. split; [done |]. eexists. by eapply stores_ok.
Qed.

Lemma intent_sequence_small i : intent_wf i -> incr_u64 (DI_Sequence i) = DI_Sequence i + 1.
Proof. intros [Hs _ _ _]. pose proof (stage_bounds (DI_State i)). apply incr_u64_small. split; [lia |]. unfold max_uint64. lia. Qed.

(** A legal move keeps an intent well formed. *)
Lemma advanced_step i to host lease t :
  intent_wf i -> moves (DI_State i) to -> intent_step i (advanced i to host lease t).
Proof. intros Hw Hm. split; [done | by apply intent_sequence_small | done]. Qed.

Lemma advanced_wf i to host lease t :
  intent_wf i -> moves (DI_State i) to ->
  (is_Some lease <-> to = "acknowledged"%string) ->
  ((to = "host_correlated" \/ to = "acknowledged")%string -> validHostAgentID host = true) ->
  intent_wf (advanced i to host lease t).
Proof.
  intros Hw Hm Hl Hh. pose proof (intent_sequence_small i Hw) as Es. pose proof (moves_stage _ _ Hm).
  destruct Hw as [Hs _ _ Ha]. split; [| done..]. unfold advanced. cbn. rewrite Es. lia.
Qed.

Lemma reported_inv_le s bridge req i j s' :
  intent_inv s -> reported s bridge req i j s' -> intent_inv s' /\ intent_le s s' /\ intent_step i j.
Proof.
  intros Hi [[Hm _] _ _ [Hc Hr] [t ->] [Hn [digest Hs]]]. destruct (iv_key _ Hi _ _ Hm) as [Hk Hw].
  pose proof (moves_report _ _ _ Hc Hr) as Hmv.
  assert (Hna : DI_State i <> "acknowledged"%string /\ CDI_State req <> "acknowledged"%string).
  { apply correlates_from in Hc as [-> | [[-> | ->] ->]]; split; try done.
    by apply reported_states in Hr as [[-> _] | [[-> | ->] _]]. }
  destruct Hna as [Hna Hna']. pose proof (advanced_step i _ (CDI_HostAgentID req) (DI_Lease i) t Hw Hmv) as Hst.
  split_and!; [| eapply stores_le; [exact Hs | done |] | done].
  - destruct (iv_dispatch _ Hi _ _ Hm) as (d & Hd & Er & Ec). eapply (stores_inv s s); [done | done | done | exact Hs | done | | exact Hd | done |].
    + apply advanced_wf; [done | done | |].
      * rewrite (iw_lease _ Hw). split; intros; done.
      * intros [E | E]; [| done]. rewrite E in Hr. apply reported_states in Hr as [[_ ?] | [[[=] | [=]] _]]. done.
    + intros Hcv. by apply Ec in Hcv.
  - intros old Ho. rewrite Hm in Ho. injection Ho as <-. by apply rtc_once.
Qed.

(** A new acknowledgement: a handoff inside. *)
Record acknowledged (s : state) (token worker : string) (req : AcknowledgeDispatchIntent) (i : DispatchIntent) (l : Lease)
    (s1 : state) (j : DispatchIntent) (s' : state) : Prop := {
  ak_intent : mget (intents s) (ADI_DispatchID req) = Some i /\ DI_ID i = ADI_IntentID req /\ DI_WorkerSessionID i = worker;
  ak_expected : DI_Sequence i = ADI_ExpectedSequence req /\ intent_fence i = ADI_ExpectedFence req
                /\ DI_HostAgentID i = ADI_HostAgentID req;
  ak_live : mget (recoveries s) ("reservation:" ++ DI_DispatchID i)%string = None /\ mget (cancellations s) (DI_DispatchID i) = None
            /\ lifecycleDispatchEligible s (DI_DispatchID i) = true;
  ak_correlated : DI_State i = "host_correlated"%string;
  ak_handoff : exists n k, exec (handoffDispatch e ad au s token worker (handoff_of req)) n = Ok ((l, s1), k);
  ak_report : exists t, j = advanced i "acknowledged" (DI_HostAgentID i) (Some l) t;
  ak_state : mget (intent_operations s) (ADI_OperationKey req) = None
             /\ exists digest, stores_intent s1 (ADI_DispatchID req) (ADI_OperationKey req) digest j s'
}.

Lemma AcknowledgeDispatch_ok token worker req s j s' :
  AcknowledgeDispatch e ad au token worker req s = Ok (j, s') ->
  (exists old, mget (intent_operations s) (ADI_OperationKey req) = Some old /\ j = DIR_Intent old /\ s' = s)
  \/ exists i l s1, acknowledged s token worker req i l s1 j s'.
Proof.
  unfold AcknowledgeDispatch. intros E. apply run_ok in E as [k E]. apply prog_bind_ok in E as (i & n & Hi & E).
  apply lift_ok in Hi as [Hi _]. apply actor_intent_ok in Hi as (_ & Hi & Hid & Hb). skip_in E.
  apply prog_bind_ok in E as ([] & n1 & H1 & E). apply forbid_if_ok in H1 as [H1 _]. cbv zeta in E.
  destruct (mget (intent_operations s) _) as [old |] eqn:Eo.
  { left. apply prog_bind_ok in E as (y & n2 & Hy & E). apply intent_receipt_ok in Hy as [_ ->].
    apply mret_ok in E as [E _]. injection E as -> ->. eauto. }
  right. apply prog_bind_ok in E as ([] & n2 & H2 & E). apply forbid_if_ok in H2 as [H2 _]. do 2 skip_in E.
  apply prog_bind_ok in E as ([l s1] & n3 & Hh & E). do 7 skip_in E. apply prog_bind_ok in E as (t & n6 & _ & E).
  apply prog_bind_ok in E as (m & n4 & Hm & E). apply lift_ok in Hm as [Hm _].
  apply prog_bind_ok in E as (s2 & n5 & Hs & E). apply lift_ok in Hs as [Hs _]. apply mret_ok in E as [E _]. injection E as -> ->.
  rewrite !orb_false_iff, !negb_false_iff in H2. destruct H2 as [[[[Hl He] Hq] Hc] Hg]. apply intent_live_ok in Hl as [? ?]. bool_facts.
  exists i, l, s1. split; try done; [by eexists _, _ | eauto |]. split; [done |]. eexists. by eapply stores_ok.
Qed.

(** What the handoff inside leaves of the intents. *)
Lemma handoff_frame s token worker req n l s' k :
  exec (handoffDispatch e ad au s token worker req) n = Ok ((l, s'), k) -> st_Intents s' = st_Intents s.
Proof.
  intros [(? & _ & _ & ->) | (_ & d & a & Hh)]%handoffDispatch_ok; [done |]. by rewrite (ho_frame _ _ _ _ _ _ _ (hd_state _ _ _ _ _ _ _ Hh)).
Qed.

(** It changes no reservation but converts at most the one it is about. *)
Lemma handoff_dispatch s token worker req n l s' k d :
  reservation_inv s -> exec (handoffDispatch e ad au s token worker req) n = Ok ((l, s'), k) ->
  mget (dispatches s) (HD_DispatchID req) = Some d ->
  (forall x, x <> HD_DispatchID req -> mget (dispatches s') x = mget (dispatches s) x)
  /\ exists d', mget (dispatches s') (HD_DispatchID req) = Some d' /\ DR_Reservation d' = DR_Reservation d.
Proof.
  intros Hr [(? & _ & _ & ->) | (_ & d0 & a & Hh)]%handoffDispatch_ok Hd; [by eauto |].
  destruct Hh as [Hd0 _ _ _ _ [_ _ Hds _ _ _ _]]. rewrite Hd in Hd0. injection Hd0 as <-.
  pose proof (rv_key _ Hr _ _ Hd) as [Hid _]. rewrite Hid in Hds. split.
  - intros x Hx. rewrite Hds. by case_decide.
  - rewrite Hds, decide_True by done. by eexists.
Qed.

Lemma handoff_tables s token worker req n l s' k :
  lease_inv s -> reservation_inv s -> exec (handoffDispatch e ad au s token worker req) n = Ok ((l, s'), k) ->
  lease_inv s' /\ reservation_inv s'.
Proof.
  intros Hl Hr [(? & _ & _ & ->) | (_ & d & a & Hh)]%handoffDispatch_ok; [done |].
  by destruct (handed_tables _ _ _ _ _ _ _ Hl Hr Hh) as (_ & _ & _ & _ & _ & _ & _ & ? & ? & _).
Qed.

Lemma acknowledged_inv_le s token worker req i l s1 j s' :
  intent_inv s -> reservation_inv s -> acknowledged s token worker req i l s1 j s' ->
  intent_inv s' /\ intent_le s s' /\ intent_step i j.
Proof.
  intros Hi Hr [[Hm _] _ _ Hc (n & k & Hh) [t ->] [Hn [digest Hs]]]. destruct (iv_key _ Hi _ _ Hm) as [Hk Hw].
  pose proof (handoff_frame _ _ _ _ _ _ _ _ Hh) as Ei.
  assert (Eint : intents s1 = intents s /\ intent_operations s1 = intent_operations s) by (unfold intents, intent_operations; by rewrite Ei).
  destruct Eint as [E1 E2].
  assert (Hmv : moves (DI_State i) "acknowledged") by (rewrite Hc; constructor).
  pose proof (advanced_step i _ (DI_HostAgentID i) (Some l) t Hw Hmv) as Hst.
  destruct (iv_dispatch _ Hi _ _ Hm) as (d & Hd & Er & Ec).
  destruct (handoff_dispatch _ _ _ _ _ _ _ _ _ Hr Hh Hd) as (Hne & d' & Hd' & Er').
  split_and!; [| | done].
  - eapply (stores_inv s s1); [done | done | exact Hne | exact Hs | done | | exact Hd' | by rewrite Er' | done].
    apply advanced_wf; [done | done | by eauto |]. intros _. apply (iw_agent _ Hw). by left.
  - destruct (stores_le s1 _ _ _ _ _ Hs) as [A B].
    + by rewrite E2.
    + intros old Ho. rewrite E1, Hm in Ho. injection Ho as <-. by apply rtc_once.
    + split; [intros x y; rewrite <- E1; apply A | intros x y; rewrite <- E2; apply B].
Qed.

(** ** Properties *)

(** C20: a request authorises the host action at most once per dispatch: when it does,
    the dispatch had no intent and has one now, in its first state, with three
    different sessions in the roles and the reservation as it stood at the expected
    fence; when it does not, it repeats a stored intent and changes nothing *)
Theorem RequestDispatch_exact token controller req s r s' :
  RequestDispatch e ad au token controller req s = Ok (r, s') -> intent_inv s -> reservation_inv s ->
  intent_inv s' /\ intent_le s s'
  /\ (DIRs_HostActionAuthorized r = false ->
        s' = s /\ exists rec, mget (intent_operations s) (RDI_OperationKey req) = Some rec /\ DIRs_Intent r = DIR_Intent rec)
  /\ (DIRs_HostActionAuthorized r = true ->
        let i := DIRs_Intent r in
        mget (intents s) (RDI_DispatchID req) = None /\ mget (intent_operations s) (RDI_OperationKey req) = None
        /\ (forall k, mget (intents s') k = if decide (RDI_DispatchID req = k) then Some i else mget (intents s) k)
        /\ DI_State i = "dispatch_requested"%string /\ DI_Sequence i = 1 /\ DI_HostAgentID i = ""%string /\ DI_Lease i = None
        /\ mget (dispatches s) (RDI_DispatchID req) = Some (DI_Reservation i) /\ reservationRetained s (DI_Reservation i) = true
        /\ intent_fence i = RDI_ExpectedFence req /\ DR_ControllerSessionID (DI_Reservation i) = controller
        /\ DI_ControllerSessionID i = controller /\ DI_BridgeSessionID i <> controller /\ DI_WorkerSessionID i <> controller
        /\ DI_BridgeSessionID i <> DI_WorkerSessionID i
        /\ dispatches s' = dispatches s /\ Leases s' = Leases s /\ Fence s' = Fence s).
Proof.
  intros E Hi Hr. apply run_ok in E as [k E]. do 2 skip_in E.
  apply requestDispatchIntentState_ok in E as (_ & [(old & Ho & -> & ->) | (d & i & Hq & ->)]); [| | intros; by eapply rv_key].
  - split_and!; [done | done | | done]. intros _. split; [done | by exists old].
  - destruct (requested_inv_le _ _ _ _ _ _ Hi Hr Hq) as [Hi' Hle].
    destruct Hq as [[Hd Hret] (Hc & H1 & H2 & H3) Hf [Hn Hno] (id & t & ->) [digest Hs]].
    pose proof (rv_key _ Hr _ _ Hd) as [Hid _]. destruct (stores_same _ _ _ _ _ _ Hs) as (E1 & E2 & E3 & _).
    split_and!; [done | done | done |]. intros _. rewrite Hid in *. split_and!; try done.
    intros y. exact (stores_intents _ _ _ _ _ _ y Hs).
Qed.

(** a bridge's report moves the intent of its own dispatch one step along the state
    machine, at the sequence and fence it expects, never for a recovered or cancelled
    dispatch; a repeated report returns the stored intent; an intent takes at most
    three steps in all, so its sequence cannot wrap *)
Theorem CorrelateDispatch_exact token bridge req s j s' :
  CorrelateDispatch e ad token bridge req s = Ok (j, s') -> intent_inv s ->
  intent_inv s' /\ intent_le s s'
  /\ ((exists rec, mget (intent_operations s) (CDI_OperationKey req) = Some rec /\ j = DIR_Intent rec /\ s' = s)
      \/ exists i, mget (intents s) (CDI_DispatchID req) = Some i /\ DI_BridgeSessionID i = bridge /\ intent_step i j
           /\ DI_Sequence i = CDI_ExpectedSequence req /\ intent_fence i = CDI_ExpectedFence req
           /\ DI_State j = CDI_State req /\ DI_HostAgentID j = CDI_HostAgentID req
           /\ mget (recoveries s) ("reservation:" ++ CDI_DispatchID req)%string = None
           /\ mget (cancellations s) (CDI_DispatchID req) = None
           /\ (forall k, mget (intents s') k = if decide (CDI_DispatchID req = k) then Some j else mget (intents s) k)
           /\ (forall n later, nsteps intent_step n i later -> (n <= 3)%nat /\ DI_Sequence later <= 4)).
Proof.
  intros E Hi. apply CorrelateDispatch_ok in E as [(old & Ho & -> & ->) | (i & Hp)]; [split_and!; [done | done | left; by exists old] |].
  destruct (reported_inv_le _ _ _ _ _ _ Hi Hp) as (Hi' & Hle & Hst). split_and!; [done | done |]. right. exists i.
  destruct Hp as [(Hm & Hid & Hb) [Hq Hf] [Hl Hc] _ [t ->] [_ [digest Hs]]]. destruct (iv_key _ Hi _ _ Hm) as [Hk Hw]. rewrite Hk in *.
  split_and!; try done.
  - intros x. exact (stores_intents _ _ _ _ _ _ x Hs).
  - intros n later Hn. pose proof (steps_bounded _ _ _ Hn). pose proof (stage_bounds (DI_State i)). pose proof (stage_bounds (DI_State later)).
    pose proof (steps_sequence _ _ _ Hn). destruct Hw as [Hs1 _ _ _]. split; lia.
Qed.

(** a worker's acknowledgement hands its dispatch off and closes the intent in one
    commit: only an intent a bridge correlated to the same host agent, live and at the
    expected sequence and fence, becomes acknowledged, with the lease of the handoff;
    when the handoff is new, that lease is the one lease and the one conversion added *)
Theorem AcknowledgeDispatch_exact token worker req s j s' :
  AcknowledgeDispatch e ad au token worker req s = Ok (j, s') -> intent_inv s -> lease_inv s -> reservation_inv s ->
  intent_inv s' /\ intent_le s s' /\ lease_inv s' /\ reservation_inv s'
  /\ ((exists rec, mget (intent_operations s) (ADI_OperationKey req) = Some rec /\ j = DIR_Intent rec /\ s' = s)
      \/ exists i l, mget (intents s) (ADI_DispatchID req) = Some i /\ DI_WorkerSessionID i = worker /\ intent_step i j
           /\ DI_State i = "host_correlated"%string /\ DI_State j = "acknowledged"%string /\ DI_Lease j = Some l
           /\ DI_HostAgentID i = ADI_HostAgentID req /\ intent_fence i = ADI_ExpectedFence req
           /\ DI_Sequence i = ADI_ExpectedSequence req
           /\ mget (intents s') (ADI_DispatchID req) = Some j
           /\ (mget (swarm_operations s) (ADI_OperationKey req) = None ->
               Lease_ID l = ADI_DispatchID req /\ Lease_SessionID l = worker /\ Lease_Fence l = Fence s + 1 /\ Fence s' = Fence s + 1
               /\ (forall k, mget (Leases s') k = if decide (ADI_DispatchID req = k) then Some l else mget (Leases s) k)
               /\ exists d, mget (dispatches s') (ADI_DispatchID req) = Some d /\ DR_Converted d = true)).
Proof.
  intros E Hi Hl Hr. apply AcknowledgeDispatch_ok in E as [(old & Ho & -> & ->) | (i & l & s1 & Ha)]; [split_and!; [done.. | left; by exists old] |].
  destruct (acknowledged_inv_le _ _ _ _ _ _ _ _ _ Hi Hr Ha) as (Hi' & Hle & Hst).
  destruct Ha as [(Hm & Hid & Hb) (Hq & Hf & Hg) _ Hc (n & k & Hh) [t ->] [_ [digest Hs]]].
  destruct (stores_same _ _ _ _ _ _ Hs) as (E1 & E2 & E3 & E4). pose proof (stores_intents _ _ _ _ _ _ (ADI_DispatchID req) Hs) as Hint.
  rewrite decide_True in Hint by done. pose proof (handoff_tables _ _ _ _ _ _ _ _ Hl Hr Hh) as [Hl1 Hr1].
  destruct (tables_same s1 s') as [Hl2 Hr2]; [done.. |]. split_and!; [done.. |]. right. exists i, l. split_and!; try done.
  intros Hn. apply handoffDispatch_ok in Hh as [(x & Hx & _) | (_ & d & a & Hh)]; [cbn in Hx; congruence |].
  pose proof (handed_tables _ _ _ _ _ _ _ Hl Hr Hh) as (_ & T2 & _ & T4 & T5 & _ & _ & _).
  destruct Hh as [Hd _ _ _ _ [_ Hlease Hds Hls _ _ _]]. pose proof (rv_key _ Hr _ _ Hd) as [Hdid _]. cbn in Hdid, Hd.
  rewrite Hdid in *. rewrite E1, E2, E3. split_and!; [done | by rewrite Hlease | done | done | |].
  - intros x. rewrite Hls. by rewrite T2.
  - rewrite Hds, decide_True by done. by eexists.
Qed.
End laws.
