(* ===== verification/Acceptance.v ===== *)
(** * Native acceptance and its owner policy

    [internal/governance/sessions]: native_acceptance.go
    ([ReadNativeAcceptanceCandidate], [BeginNativeAcceptance],
    [ContinueNativeAcceptance]), native_policy.go ([ConfigureNativePolicy],
    [EvaluateNativePolicy], [ApproveNativePolicy], [ReadNativePolicyStatus]) and
    native_policy_observation.go ([ObserveNativePolicy]).  The pure evaluator is
    [Disclosure.EvaluateNativeAcceptance]; the migrations are in Schema.

    A task is accepted in two phases.  [BeginNativeAcceptance] retires it in the
    authority; [ContinueNativeAcceptance] then asks the trusted application to
    close the canonical task and records that it is closed.  The application is
    the callbacks [prepare], [inspect] and [closeTask]; the calls of [closeTask]
    are logged next to the result ([eff]), since they happen whether or not the
    transaction commits. *)

From S2P Require Import Prelude GoStd Disclosure State Session Withdrawal Resources Attempts Leases Lifecycle Evidence Reviews Publication.
#[local] Open Scope Z_scope.

(** ** Requests and digested structures *)

Record NativeAcceptanceResult := mkAcceptanceResult {
  NARes_Applied : bool; NARes_Duplicate : bool; NARes_State : string;
  NARes_ReceiptDigest : string
}.
Record NativePolicyEvaluationRequest := mkPolicyEvaluation {
  NPE_OperationKey : string;
  NPE_Input : NativeAcceptanceInput;
  NPE_ExpiresAt : time
}.
Record NativePolicyApprovalRequest := mkPolicyApproval {
  NPAR_OperationKey : string; NPAR_DecisionID : string;
  NPAR_ExpiresAt : time
}.
Record NativePolicyStatus := mkPolicyStatus {
  NPS_Decision : NativePolicyDecision;
  NPS_Approval : option NativePolicyApproval;
  NPS_Consumption : option NativePolicyConsumption;
  NPS_Outcome : option NativePolicyOutcome;
  NPS_Historical : bool
}.

#[export] Instance NativeAcceptanceInput_json : ToJSON NativeAcceptanceInput := fun r =>
  JObject [("SchemaVersion", JInt (NAI_SchemaVersion r)); ("OperationKey", JString (NAI_OperationKey r));
           ("WorkspaceID", JString (NAI_WorkspaceID r)); ("InstallationID", JString (NAI_InstallationID r));
           ("ProjectID", JString (NAI_ProjectID r)); ("TaskID", JString (NAI_TaskID r));
           ("ReviewID", JString (NAI_ReviewID r)); ("AttemptID", JString (NAI_AttemptID r));
           ("LeaseID", JString (NAI_LeaseID r)); ("RevisionID", JString (NAI_RevisionID r));
           ("Repository", JString (NAI_Repository r)); ("Commit", JString (NAI_Commit r));
           ("Tree", JString (NAI_Tree r)); ("ExpectedFence", JInt (NAI_ExpectedFence r));
           ("ChecklistDigest", JString (NAI_ChecklistDigest r));
           ("PolicyRevision", JString (NAI_PolicyRevision r));
           ("CandidateDigest", JString (NAI_CandidateDigest r))]%string.
#[export] Instance NativeAcceptanceEvidence_json : ToJSON NativeAcceptanceEvidence := fun v =>
  JObject [("ID", JString (NAE_ID v)); ("RunnerSessionID", JString (NAE_RunnerSessionID v));
           ("CheckID", JString (NAE_CheckID v)); ("CommandDigest", JString (NAE_CommandDigest v));
           ("OutputDigest", JString (NAE_OutputDigest v))]%string.
#[export] Instance NativeAcceptanceCandidate_json : ToJSON NativeAcceptanceCandidate := fun c =>
  JObject [("Input", to_json (NAC_Input c)); ("ReviewerSessionID", JString (NAC_ReviewerSessionID c));
           ("WorkerSessionID", JString (NAC_WorkerSessionID c));
           ("WorkerFamilyID", JString (NAC_WorkerFamilyID c));
           ("Evidence", JArray (map to_json (NAC_Evidence c)))]%string.
#[export] Instance NativeAcceptanceRecord_json : ToJSON NativeAcceptanceRecord := fun r =>
  JObject [("OperationKey", JString (NAR_OperationKey r)); ("InputDigest", JString (NAR_InputDigest r));
           ("State", JString (NAR_State r));
           ("CanonicalReceiptDigest", JString (NAR_CanonicalReceiptDigest r));
           ("CanonicalOutcomeDigest", JString (NAR_CanonicalOutcomeDigest r));
           ("Candidate", to_json (NAR_Candidate r)); ("CreatedAt", JTime (NAR_CreatedAt r));
           ("ClosedAt", JTime (NAR_ClosedAt r))]%string.
#[export] Instance NativePolicy_json : ToJSON NativePolicy := fun p =>
  JObject [("SchemaVersion", JInt (NP_SchemaVersion p)); ("ProjectID", JString (NP_ProjectID p));
           ("TaskID", JString (NP_TaskID p)); ("Revision", JString (NP_Revision p));
           ("Allow", JBool (NP_Allow p)); ("RequireApproval", JBool (NP_RequireApproval p));
           ("Stopped", JBool (NP_Stopped p)); ("ExpiresAt", JTime (NP_ExpiresAt p))]%string.

(** The anonymous struct an action digest is taken of. *)
Record PolicyAction := mkPolicyAction { Action_Input : NativeAcceptanceInput; Action_Body : string }.
#[export] Instance PolicyAction_json : ToJSON PolicyAction := fun a =>
  JObject [("Input", to_json (Action_Input a)); ("Body", JString (Action_Body a))]%string.

Definition operation_digest (r : NativeAcceptanceInput) : string :=
  identity "native-acceptance-operation" "" r.
Definition policy_digest (p : NativePolicy) : string := identity "native-policy" "" p.
Definition action_digest (r : NativeAcceptanceInput) (body : string) : string :=
  identity "native-policy-action" "" (mkPolicyAction r body).

(** What is digested of a record before its canonical outcome is known. *)
Definition receipt_digest (rec : NativeAcceptanceRecord) : string :=
  identity "native-acceptance-receipt" ""
    (mkAcceptanceRecord (NAR_OperationKey rec) (NAR_InputDigest rec) (NAR_State rec) "" ""
       (NAR_Candidate rec) (NAR_CreatedAt rec) 0).

(** ** The candidate *)

(** The same surroundings, [t] clock readings and [k] observations later. *)
Definition later (t k : nat) (e : Env) : Env :=
  mkEnv (fun i => now e (t + i)) (mint e) (fun i => observe e (k + i)) (observe_identity e)
    (eval_symlinks e) (lstat e) (admit_lease e)
    ((fun observer i => observer (k + i)%nat) <$> review_observer e) (required_observer e).

Fixpoint acceptance_evidence (s : state) (ids : list string) : res (list NativeAcceptanceEvidence) :=
  match ids with
  | [] => Ok []
  | id :: ids =>
    ev ← must (mget (st_Evidence s) id);
    rest ← acceptance_evidence s ids;
    Ok (mkAcceptanceEvidence id (Ev_IssuerSession ev) (Ev_CheckID ev) (Ev_CommandDigest ev)
          (Ev_OutputDigest ev) :: rest)
  end.

(** [nativeAcceptanceCandidate]; its clock reading is [i]. *)
Definition nativeAcceptanceCandidate (e : Env) (i : nat) (s : state) (binding : Binding) (p : Review)
    : res NativeAcceptanceCandidate :=
  let req := Review_Request p in
  a ← reviewAttempt s (RR_AttemptID req);
  b ← must (mget (Tasks s) (at_task a));
  deny_if (negb (TB_ProjectID b =? Attempt_ProjectID a)%string
           || negb (TB_Repository b =? Repository (Attempt_Observation a))%string);;
  '(_, root) ← rootSession s (Attempt_SessionID a) (now e i);
  let obs := Rev_Observation (Review_Revision p) in
  let input := mkAcceptanceInput 1 "" (Binding_Workspace binding) (Binding_Installation binding)
    (TB_ProjectID b) (TB_TaskID b) (Review_ID p) (Attempt_ID a) (RR_LeaseID req)
    (Rev_ID (Review_Revision p)) (TB_Repository b) (Commit obs) (Tree obs) (RR_ExpectedFence req)
    (RO_ChecklistDigest (Review_Observation p)) (RO_PolicyRevision (Review_Observation p)) "" in
  evidence ← acceptance_evidence s (RR_EvidenceIDs req);
  let c := mkAcceptanceCandidate input (Review_IssuerSession p) (Attempt_SessionID a) root evidence in
  Ok (c <| NAC_Input := input <| NAI_CandidateDigest := identity "native-acceptance-candidate" "" c |> |>).

(** The clock readings of a successful [reviewCurrentExcept]. *)
Definition review_readings (req : ReviewRequest) : nat := (8 + 3 * List.length (RR_EvidenceIDs req))%nat.

(** The review still says what it said: [reason != ReviewEligible ||
    !reflect.DeepEqual(rev, p.Revision) || ...] *)
Definition review_stands (au : Authority) (e : Env) (i : nat) (s : state) (p : Review)
    (closing : string) : bool :=
  match reviewCurrentExcept au e i s (Review_IssuerSession p) (Review_Request p) closing with
  | inl (rev, obs) => bool_decide (rev = Review_Revision p) && bool_decide (obs = Review_Observation p)
  | inr _ => false
  end.

Definition ReadNativeAcceptanceCandidate (au : Authority) (e : Env) (token session id : string)
    (s : state) : res NativeAcceptanceCandidate :=
  r ← authenticate s token session (now e 0);
  p ← must (mget (Reviews s) id);
  a ← reviewAttempt s (RR_AttemptID (Review_Request p));
  deny_if (negb (Review_IssuerSession p =? session)%string
           || negb (RR_Outcome (Review_Request p) =? "approve")%string || negb (reviewOnly r (at_task a)));;
  deny_if (negb (review_stands au e 1 s p ""));;
  nativeAcceptanceCandidate e (1 + review_readings (Review_Request p)) s (a_binding au) p.

Definition nativeAcceptanceOwner (s : state) (owner : string) (r : NativeAcceptanceInput) (b : Binding)
    : res unit :=
  deny_if ((Version s <? 14) || not_owner s owner || negb (NAI_SchemaVersion r =? 1)
           || negb (validID (NAI_OperationKey r))
           || negb (NAI_WorkspaceID r =? Binding_Workspace b)%string
           || negb (NAI_InstallationID r =? Binding_Installation b)%string).

(** [reviewEvidence], [reviewGrantCurrent] and [reviewWorkerExcept] once more;
    the clock readings start at [i]. *)
Definition producers_stand (e : Env) (i : nat) (s : state) (a : Attempt) (p : Review)
    (closing : string) : bool :=
  let req := Review_Request p in
  let n := (3 * List.length (RR_EvidenceIDs req))%nat in
  reviewEvidence e i s a (Review_Revision p) (RR_EvidenceIDs req) (RO_Checks (Review_Observation p))
  && match mget (ReviewGrants s) (RR_GrantID req) with
     | Some g => reviewGrantCurrent e (n + i) s (Review_IssuerSession p) a g
     | None => false
     end
  && is_ok (reviewWorkerExcept e (2 + n + i) s a req closing).

(** [acceptanceCurrent]: the review [r] names is an approval, everything it
    asserts holds now, and [r] is exactly the candidate it makes. *)
Definition acceptanceCurrent (au : Authority) (e : Env) (s : state) (r : NativeAcceptanceInput)
    (closing : string) : res NativeAcceptanceCandidate :=
  p ← must (mget (Reviews s) (NAI_ReviewID r));
  deny_if (negb (RR_Outcome (Review_Request p) =? "approve")%string);;
  deny_if (negb (review_stands au e 0 s p closing));;
  let i := review_readings (Review_Request p) in
  c ← nativeAcceptanceCandidate e i s (a_binding au) p;
  deny_if (negb (bool_decide ((NAC_Input c) <| NAI_OperationKey := NAI_OperationKey r |> = r)));;
  a ← reviewAttempt s (RR_AttemptID (Review_Request p));
  deny_if (negb (producers_stand e (S i) s a p closing));;
  Ok c.

(** ** The owner's policy *)

Definition nativePolicyOwner (s : state) (owner : string) : bool :=
  (15 <=? Version s) && negb (not_owner s owner).

Definition put_policy (s : state) (key : string) (p : NativePolicy) : res state :=
  h ← mset (policy_revisions s) key p;
  m ← mset (policies s) (NP_TaskID p) p;
  Ok (s <| st_NativePolicy := (st_NativePolicy s) <| NativePolicyHistory := h |>
                                                 <| NativePolicies := m |> |>).

Definition policy_key (p : NativePolicy) : string := (NP_TaskID p ++ ":" ++ NP_Revision p)%string.

Definition ConfigureNativePolicy (e : Env) (owner : string) (p : NativePolicy) : tx unit := fun s =>
  deny_if (negb (nativePolicyOwner s owner) || negb (NP_SchemaVersion p =? 1)
           || negb (validID (NP_TaskID p)) || negb (validID (NP_ProjectID p))
           || negb (validID (NP_Revision p)) || negb (now e 0 <? NP_ExpiresAt p));;
  match mget (policy_revisions s) (policy_key p) with
  | Some old => deny_if (negb (bool_decide (old = p)));; Ok (tt, s)
  | None => s' ← put_policy s (policy_key p) p; Ok (tt, s')
  end.

Definition nativePolicyCurrent (s : state) (d : NativePolicyDecision) (t : time) : res unit :=
  p ← must (mget (policies s) (NAI_TaskID (NPD_Input d)));
  deny_if (negb (bool_decide (p = NPD_Policy d)) || negb (NPD_PolicyDigest d =? policy_digest p)%string
           || negb (NP_Allow p) || NP_Stopped p || negb (t <? NP_ExpiresAt p)
           || negb (t <? NPD_ExpiresAt d));;
  if NP_RequireApproval p then
    ap ← must (mget (approvals s) (NPD_ID d));
    deny_if (negb (NPA_DecisionID ap =? NPD_ID d)%string
             || negb (NPA_ActionDigest ap =? NPD_ActionDigest d)%string || negb (t <? NPA_ExpiresAt ap))
  else Ok tt.

Definition put_policy_decision (s : state) (d : NativePolicyDecision) : res state :=
  m ← mset (decisions s) (NPD_ID d) d;
  Ok (s <| st_NativePolicy := (st_NativePolicy s) <| NativePolicyDecisions := m |> |>).

(** The application's preparation of the canonical outcome; nil, or failing. *)
Abbreviation preparation := (option (NativeAcceptanceRecord -> option string)).

Definition prepare_outcome (prepare : preparation) (rec : NativeAcceptanceRecord) : res string :=
  f ← must prepare;
  outcome ← must (f rec);
  deny_if (negb (validDigest outcome));;
  Ok outcome.

(** The record a new acceptance starts with. *)
Definition closing_record (r : NativeAcceptanceInput) (c : NativeAcceptanceCandidate) (t : time)
    : NativeAcceptanceRecord :=
  mkAcceptanceRecord (NAI_OperationKey r) (operation_digest r) "closing" "" "" c t 0.

Definition EvaluateNativePolicy (au : Authority) (e : Env) (owner : string)
    (r : NativePolicyEvaluationRequest) (prepare : preparation) : tx NativePolicyDecision := fun s =>
  let input := NPE_Input r in
  deny_if (negb (nativePolicyOwner s owner) || negb (validID (NPE_OperationKey r))
           || negb (is_ok (nativeAcceptanceOwner s owner input (a_binding au)))
           || bool_decide (prepare = None));;
  match mget (decisions s) (NPE_OperationKey r) with
  | Some old =>
    deny_if (negb (bool_decide (NPD_Input old = input)) || negb (NPD_ExpiresAt old =? NPE_ExpiresAt r));;
    Ok (old, s)
  | None =>
    deny_if (mhas (terminals s) (NAI_TaskID input));;
    p ← must (mget (policies s) (NAI_TaskID input));
    let t := now e 0 in
    deny_if (negb (NP_ProjectID p =? NAI_ProjectID input)%string || negb (t <? NP_ExpiresAt p)
             || negb (t <? NPE_ExpiresAt r) || (NP_ExpiresAt p <? NPE_ExpiresAt r));;
    c ← acceptanceCurrent au (later 1 0 e) s input "";
    let rec := closing_record input c t in
    let rec := rec <| NAR_CanonicalReceiptDigest := receipt_digest rec |> in
    outcome ← prepare_outcome prepare rec;
    let rec := rec <| NAR_CanonicalOutcomeDigest := outcome |> in
    acceptanceCurrent au (later 1000 1 e) s input "";;
    deny_if (negb (now e 2000 <? NP_ExpiresAt p) || negb (now e 2001 <? NPE_ExpiresAt r));;
    let actor := ("installation-owner:" ++ Binding_Installation (a_binding au))%string in
    let action := action_digest input outcome in
    let assessment := EvaluateNativeAcceptance
      (mkNativeObservation actor "native-task-accept" (NAI_TaskID input) action (NP_Revision p)
         (NP_Allow p) (NP_RequireApproval p) false (NP_Stopped p)) in
    let out := mkNativePolicyDecision (NPE_OperationKey r) actor (policy_digest p) action input p
      (assessment <| NAA_Assurance := "cooperative-session"%string |>) rec t (NPE_ExpiresAt r) in
    s' ← put_policy_decision s out;
    Ok (out, s')
  end.

Definition put_approval (s : state) (id : string) (a : NativePolicyApproval) : res state :=
  m ← mset (approvals s) id a;
  Ok (s <| st_NativePolicy := (st_NativePolicy s) <| NativePolicyApprovals := m |> |>).

Definition ApproveNativePolicy (e : Env) (owner : string) (r : NativePolicyApprovalRequest)
    : tx NativePolicyApproval := fun s =>
  d ← must (mget (decisions s) (NPAR_DecisionID r));
  deny_if (negb (nativePolicyOwner s owner) || negb (validID (NPAR_OperationKey r))
           || negb (NP_Allow (NPD_Policy d)) || NP_Stopped (NPD_Policy d)
           || negb (NP_RequireApproval (NPD_Policy d)) || negb (now e 0 <? NPAR_ExpiresAt r)
           || (NPD_ExpiresAt d <? NPAR_ExpiresAt r)
           || negb (bool_decide (mget (policies s) (NAI_TaskID (NPD_Input d)) = Some (NPD_Policy d))));;
  match mget (approvals s) (NPD_ID d) with
  | Some old =>
    deny_if (negb (NPA_OperationKey old =? NPAR_OperationKey r)%string
             || negb (NPA_ExpiresAt old =? NPAR_ExpiresAt r));;
    Ok (old, s)
  | None =>
    deny_if (mhas (consumptions s) (NPD_ID d));;
    let out := mkNativePolicyApproval (NPD_ID d) (NPAR_OperationKey r) (NPD_ActionDigest d) (now e 1)
      (NPAR_ExpiresAt r) in
    s' ← put_approval s (NPD_ID d) out;
    Ok (out, s')
  end.

Definition nativePolicyForOperation (s : state) (key : string) : option NativePolicyDecision :=
  '(id, _) ← List.find (fun c => (NPC_OperationKey c.2 =? key)%string) (mentries (consumptions s));
  mget (decisions s) id.

Definition ReadNativePolicyStatus (owner id : string) (s : state) : res NativePolicyStatus :=
  d ← must (mget (decisions s) id);
  deny_if (negb (nativePolicyOwner s owner));;
  let outcome := match mget (outcomes s) (NAI_OperationKey (NPD_Input d)) with
                 | Some v => if (NPO_DecisionID v =? NPD_ID d)%string then Some v else None
                 | None => None
                 end in
  Ok (mkPolicyStatus d (mget (approvals s) id) (mget (consumptions s) id) outcome true).

(** ** Retirement of the task *)

Definition put_acceptance (s : state) (task key : string) (rec : NativeAcceptanceRecord) : res state :=
  ts ← mset (terminals s) task rec;
  ops ← mset (acceptances s) key rec;
  Ok (s <| st_Acceptance := mkAcceptanceMaps ts ops |>).

(** The consumption of the decision [d] and its still unknown outcome. *)
Definition consume_decision (s : state) (d : NativePolicyDecision) (id key outcome : string) (t : time)
    : res state :=
  cs ← mset (consumptions s) id (mkNativePolicyConsumption id key (NPD_ActionDigest d) outcome t);
  os ← mset (outcomes s) key (mkNativePolicyOutcome key id "unknown" outcome "" 0);
  Ok (s <| st_NativePolicy := (st_NativePolicy s) <| NativePolicyConsumptions := cs |>
                                                 <| NativePolicyOutcomes := os |> |>).

(** From schema 15 on an acceptance needs a decision of the owner's policy. *)
Definition policy_decision (s : state) (r : NativeAcceptanceInput) (id : string) (t : time)
    : res (option NativePolicyDecision) :=
  if Version s <? 15 then Ok None
  else
    d ← must (mget (decisions s) id);
    deny_if (negb (bool_decide (NPD_Input d = r)));;
    nativePolicyCurrent s d t;;
    deny_if (mhas (consumptions s) id);;
    Ok (Some d).

(** A repeated request must name the decision its acceptance consumed. *)
Definition replay_names_decision (s : state) (key id : string) : bool :=
  (Version s <? 15)
  || match nativePolicyForOperation s key with
     | Some d => (NPD_ID d =? id)%string
     | None => (id =? "")%string
     end.

Definition beginNativeAcceptance (au : Authority) (e : Env) (owner : string) (r : NativeAcceptanceInput)
    (decisionID : string) (prepare : preparation) : tx NativeAcceptanceRecord := fun s =>
  nativeAcceptanceOwner s owner r (a_binding au);;
  deny_if (negb (decisionID =? "")%string && (Version s <? 15));;
  match mget (acceptances s) (NAI_OperationKey r) with
  | Some old =>
    deny_if (negb (replay_names_decision s (NAI_OperationKey r) decisionID));;
    deny_if (negb (NAR_InputDigest old =? operation_digest r)%string);;
    Ok (old, s)
  | None =>
    deny_if (mhas (terminals s) (NAI_TaskID r));;
    c ← acceptanceCurrent au e s r "";
    decision ← policy_decision s r decisionID (now e 1001);
    let out := match decision with
               | Some d => NPD_Prepared d
               | None => closing_record r c (now e 1000)
               end in
    let out := out <| NAR_CanonicalReceiptDigest := receipt_digest out |> in
    outcome ← prepare_outcome prepare out;
    let out := out <| NAR_CanonicalOutcomeDigest := outcome |> in
    acceptanceCurrent au (later 1002 1 e) s r "";;
    s' ← match decision with
         | Some d =>
           deny_if (negb (outcome =? NAR_CanonicalOutcomeDigest (NPD_Prepared d))%string);;
           nativePolicyCurrent s d (now e 3000);;
           consume_decision s d decisionID (NAI_OperationKey r) outcome (now e 3001)
         | None => Ok s
         end;
    s' ← put_acceptance s' (NAI_TaskID r) (NAI_OperationKey r) out;
    Ok (out, s')
  end.

Definition BeginNativeAcceptance (au : Authority) (e : Env) (owner : string)
    (r : NativeAcceptanceInput) (prepare : preparation) : tx NativeAcceptanceRecord :=
  beginNativeAcceptance au e owner r "" prepare.

Definition BeginNativeAcceptanceWithPolicy (au : Authority) (e : Env) (owner : string)
    (r : NativeAcceptanceInput) (decisionID : string) (prepare : preparation)
    : tx NativeAcceptanceRecord :=
  beginNativeAcceptance au e owner r decisionID prepare.

(** ** Closing the canonical task *)

(** A result, after the records [closeTask] was called with. *)
Abbreviation eff := (logged NativeAcceptanceRecord).

(** The [k]-th look of the application at the canonical task. *)
Abbreviation inspection := (nat -> NativeAcceptanceRecord -> res bool).
Abbreviation closure := (NativeAcceptanceRecord -> res unit).

(** The record this request continues. *)
Definition continued_record (s : state) (r : NativeAcceptanceInput) : res NativeAcceptanceRecord :=
  rec ← must (mget (acceptances s) (NAI_OperationKey r));
  terminal ← must (mget (terminals s) (NAI_TaskID r));
  deny_if (negb (NAR_InputDigest rec =? operation_digest r)%string
           || negb (bool_decide (rec = terminal)));;
  Ok rec.

(** The checks between the two looks that find the task open and the call of
    [closeTask]; from schema 15 on the consumed decision must still stand. *)
Definition closing_policy (e : Env) (s : state) (r : NativeAcceptanceInput) (rec : NativeAcceptanceRecord)
    : res unit :=
  if Version s <? 15 then Ok tt
  else
    d ← must (nativePolicyForOperation s (NAI_OperationKey r));
    deny_if (negb (bool_decide (NPD_Input d = r))
             || negb (NAR_CanonicalOutcomeDigest (NPD_Prepared d) =? NAR_CanonicalOutcomeDigest rec)%string);;
    nativePolicyCurrent s d (now e 2000).

Definition may_close (au : Authority) (e : Env) (s : state) (r : NativeAcceptanceInput)
    (rec : NativeAcceptanceRecord) (inspect : inspection) : res unit :=
  let key := NAI_OperationKey r in
  acceptanceCurrent au e s r key;;
  closed ← inspect 1%nat rec;
  fail_if ErrReconcile closed;;
  p ← must (mget (Reviews s) (NAI_ReviewID r));
  a ← reviewAttempt s (NAI_AttemptID r);
  deny_if (negb (is_ok (observeRevision e 1 a (Review_Revision p))));;
  let req := Review_Request p in
  deny_if (negb (is_ok (reviewWorkerExcept e 1000 s a req key))
           || negb match mget (ReviewGrants s) (RR_GrantID req) with
                   | Some g => reviewGrantCurrent e 1002 s (Review_IssuerSession p) a g
                   | None => false
                   end
           || negb (reviewEvidence e 1004 s a (Review_Revision p) (RR_EvidenceIDs req)
                      (RO_Checks (Review_Observation p))));;
  current ← currentRevisionExcept s a (NAI_RevisionID r) (NAI_LeaseID r) (NAI_ExpectedFence r) key;
  deny_if (negb (bool_decide (current = Review_Revision p)));;
  closing_policy e s r rec.

(** [closeTask] and the look that must find the task closed. *)
Definition close_canonical (inspect : inspection) (closeTask : closure) (rec : NativeAcceptanceRecord)
    : eff unit :=
  ([rec],
   closeTask rec;;
   match inspect 2%nat rec with Ok true => Ok tt | _ => Err ErrReconcile end).

(** The outcome the owner's policy knows once the task is closed. *)
Definition record_outcome (e : Env) (s : state) (key : string) (rec : NativeAcceptanceRecord) : res state :=
  if Version s <? 15 then Ok s
  else match nativePolicyForOperation s key with
       | None => Ok s
       | Some d =>
         let outcome := NAR_CanonicalOutcomeDigest rec in
         os ← mset (outcomes s) key
                (mkNativePolicyOutcome key (NPD_ID d) "closed" outcome outcome (now e 2001));
         Ok (s <| st_NativePolicy := (st_NativePolicy s) <| NativePolicyOutcomes := os |> |>)
       end.

Definition finish (e : Env) (s : state) (r : NativeAcceptanceInput) (rec : NativeAcceptanceRecord)
    : res (NativeAcceptanceResult * state) :=
  s' ← record_outcome e s (NAI_OperationKey r) rec;
  let rec := rec <| NAR_State := "closed"%string |> <| NAR_ClosedAt := now e 2002 |> in
  s' ← put_acceptance s' (NAI_TaskID r) (NAI_OperationKey r) rec;
  Ok (mkAcceptanceResult true false "closed" (NAR_CanonicalReceiptDigest rec), s').

Definition ContinueNativeAcceptance (au : Authority) (e : Env) (owner : string)
    (r : NativeAcceptanceInput) (inspect : option inspection) (closeTask : option closure) (s : state)
    : eff (NativeAcceptanceResult * state) :=
  pure (nativeAcceptanceOwner s owner r (a_binding au));;
  rec ← pure (continued_record s r);
  inspect ← pure (must inspect);
  closeTask ← pure (must closeTask);
  closed ← pure (inspect 0%nat rec);
  if (NAR_State rec =? "closed")%string then
    pure (deny_if (negb closed);;
          Ok (mkAcceptanceResult true true "closed" (NAR_CanonicalReceiptDigest rec), s))
  else
    pure (deny_if (negb (NAR_State rec =? "closing")%string));;
    (if closed then mret tt
     else pure (may_close au e s r rec inspect);; close_canonical inspect closeTask rec);;
    pure (finish e s r rec).

(** ** native_policy_observation.go *)

Record NativePolicyView := mkPolicyView {
  NPV_Revision : string; NPV_Digest : string;
  NPV_Allow : bool; NPV_RequireApproval : bool; NPV_Stopped : bool;
  NPV_ExpiresAt : time
}.
Record NativePolicyApprovalView := mkApprovalView { NAV_ExpiresAt : time; NAV_Current : bool }.
Record NativePolicyOutcomeView := mkOutcomeView {
  NOV_State : string; NOV_ExpectedOutcomeDigest : string; NOV_ObservedOutcomeDigest : string;
  NOV_ObservedAt : time
}.
Record NativePolicyConsumptionView := mkConsumptionView {
  NCV_OperationKey : string; NCV_ConsumedAt : time; NCV_CanonicalOutcomeDigest : string
}.
Record NativePolicyDecisionView := mkDecisionView {
  NDV_ID : string; NDV_ActionDigest : string; NDV_PolicyDigest : string;
  NDV_Historical : bool; NDV_MatchesCurrentPolicy : bool;
  NDV_ExpiresAt : time;
  NDV_Approval : option NativePolicyApprovalView;
  NDV_Consumption : option NativePolicyConsumptionView;
  NDV_Outcome : option NativePolicyOutcomeView
}.
Record NativePolicyObservation := mkPolicyObservation {
  NPOb_ProjectID : string; NPOb_TaskID : string; NPOb_State : string;
  NPOb_EffectAuthorized : bool;
  NPOb_ObservedAt : time;
  NPOb_CurrentPolicy : option NativePolicyView;
  NPOb_Decision : option NativePolicyDecisionView
}.

Definition policy_state (p : NativePolicy) (t : time) : string :=
  if NP_Stopped p then "stopped"
  else if negb (t <? NP_ExpiresAt p) then "expired"
  else if negb (NP_Allow p) then "denied"
  else if NP_RequireApproval p then "approval_required"
  else "allowed".

Definition policy_view (p : NativePolicy) : NativePolicyView :=
  mkPolicyView (NP_Revision p) (policy_digest p) (NP_Allow p) (NP_RequireApproval p) (NP_Stopped p)
    (NP_ExpiresAt p).

Definition approval_view (s : state) (d : NativePolicyDecision) (p : option NativePolicy)
    (matches : bool) (t : time) : option NativePolicyApprovalView :=
  ap ← mget (approvals s) (NPD_ID d);
  if (NPA_DecisionID ap =? NPD_ID d)%string && (NPA_ActionDigest ap =? NPD_ActionDigest d)%string
  then Some (mkApprovalView (NPA_ExpiresAt ap)
               (matches && (t <? NPA_ExpiresAt ap) && (t <? NPD_ExpiresAt d)
                && match p with
                   | Some p => (t <? NP_ExpiresAt p) && NP_Allow p && negb (NP_Stopped p)
                   | None => false
                   end))
  else None.

Definition consumption_of (s : state) (d : NativePolicyDecision) : option NativePolicyConsumption :=
  c ← mget (consumptions s) (NPD_ID d);
  if (NPC_DecisionID c =? NPD_ID d)%string && (NPC_ActionDigest c =? NPD_ActionDigest d)%string
  then Some c else None.

Definition outcome_view (s : state) (d : NativePolicyDecision) (c : NativePolicyConsumption)
    : option NativePolicyOutcomeView :=
  v ← mget (outcomes s) (NPC_OperationKey c);
  if (NPO_DecisionID v =? NPD_ID d)%string && (NPO_OperationKey v =? NPC_OperationKey c)%string
  then Some (mkOutcomeView (NPO_State v) (NPO_ExpectedOutcomeDigest v) (NPO_ObservedOutcomeDigest v)
               (NPO_ObservedAt v))
  else None.

Definition decision_view (s : state) (d : NativePolicyDecision) (p : option NativePolicy) (t : time)
    : NativePolicyDecisionView :=
  let matches := match p with
                 | Some p => bool_decide (p = NPD_Policy d) && (NPD_PolicyDigest d =? policy_digest p)%string
                 | None => false
                 end in
  let c := consumption_of s d in
  mkDecisionView (NPD_ID d) (NPD_ActionDigest d) (NPD_PolicyDigest d) true matches (NPD_ExpiresAt d)
    (approval_view s d p matches t)
    ((fun c => mkConsumptionView (NPC_OperationKey c) (NPC_ConsumedAt c) (NPC_CanonicalOutcomeDigest c))
     <$> c)
    (c ← c; outcome_view s d c).

Definition ObserveNativePolicy (au : Authority) (e : Env) (token session project task decision : string)
    (s : state) : res NativePolicyObservation :=
  let t := now e 0 in
  let workspace := Binding_Workspace (a_binding au) in
  actor ← authenticate s token session t;
  deny_if (negb (validID project) || negb (validID task) || negb (subset ["read"%string] (r_Actions actor))
           || negb (subset [("workspace:" ++ workspace)%string; task_resource task] (r_Resources actor)));;
  b ← must (mget (Tasks s) task);
  deny_if (negb (TB_TaskID b =? task)%string || negb (TB_ProjectID b =? project)%string);;
  let p := mget (policies s) task in
  deny_if match p with
          | Some p => negb (NP_TaskID p =? task)%string || negb (NP_ProjectID p =? project)%string
          | None => false
          end;;
  let out view := mkPolicyObservation project task
    (match p with Some p => policy_state p t | None => "unavailable" end) false t
    (policy_view <$> p) view in
  if (decision =? "")%string then Ok (out None)
  else
    d ← must (mget (decisions s) decision);
    deny_if (negb (NPD_ID d =? decision)%string || negb (NAI_WorkspaceID (NPD_Input d) =? workspace)%string
             || negb (NAI_ProjectID (NPD_Input d) =? project)%string
             || negb (NAI_TaskID (NPD_Input d) =? task)%string);;
    Ok (out (Some (decision_view s d p t))).

#[global] Arguments acceptance_evidence : simpl never.
#[global] Arguments nativeAcceptanceCandidate : simpl never.
#[global] Arguments review_stands : simpl never.
#[global] Arguments nativeAcceptanceOwner : simpl never.
#[global] Arguments producers_stand : simpl never.
#[global] Arguments acceptanceCurrent : simpl never.
#[global] Arguments nativePolicyOwner : simpl never.
#[global] Arguments put_policy : simpl never.
#[global] Arguments nativePolicyCurrent : simpl never.
#[global] Arguments put_policy_decision : simpl never.
#[global] Arguments prepare_outcome : simpl never.
#[global] Arguments put_approval : simpl never.
#[global] Arguments nativePolicyForOperation : simpl never.
#[global] Arguments put_acceptance : simpl never.
#[global] Arguments consume_decision : simpl never.
#[global] Arguments policy_decision : simpl never.
#[global] Arguments replay_names_decision : simpl never.
#[global] Arguments continued_record : simpl never.
#[global] Arguments may_close : simpl never.
#[global] Arguments record_outcome : simpl never.
#[global] Arguments finish : simpl never.
#[global] Arguments later : simpl never.

(** ** The invariant and the history *)

Definition accepted_task (rec : NativeAcceptanceRecord) : string :=
  NAI_TaskID (NAC_Input (NAR_Candidate rec)).

(** [rec] is how the acceptance that [r] asks for starts. *)
Record prepared_for (r : NativeAcceptanceInput) (rec : NativeAcceptanceRecord) : Prop := {
  pf_key : NAR_OperationKey rec = NAI_OperationKey r;
  pf_digest : NAR_InputDigest rec = operation_digest r;
  pf_state : NAR_State rec = "closing"%string;
  pf_input : (NAC_Input (NAR_Candidate rec)) <| NAI_OperationKey := NAI_OperationKey r |> = r
}.

Record acceptance_inv (s : state) : Prop := {
  ac_terminals t rec : mget (terminals s) t = Some rec ->
    accepted_task rec = t /\ mget (acceptances s) (NAR_OperationKey rec) = Some rec;
  ac_records k rec : mget (acceptances s) k = Some rec ->
    NAR_OperationKey rec = k /\ mget (terminals s) (accepted_task rec) = Some rec
    /\ (NAR_State rec = "closing"%string \/ NAR_State rec = "closed"%string);
  ac_decisions id d : mget (decisions s) id = Some d ->
    NPD_ID d = id /\ prepared_for (NPD_Input d) (NPD_Prepared d);
  ac_consumed id c : mget (consumptions s) id = Some c -> NPC_DecisionID c = id
    /\ exists d rec, mget (decisions s) id = Some d
       /\ NPC_OperationKey c = NAI_OperationKey (NPD_Input d)
       /\ mget (acceptances s) (NPC_OperationKey c) = Some rec
       /\ NAR_InputDigest rec = operation_digest (NPD_Input d)
       /\ NPC_CanonicalOutcomeDigest c = NAR_CanonicalOutcomeDigest rec;
  ac_once id1 id2 c1 c2 : mget (consumptions s) id1 = Some c1 -> mget (consumptions s) id2 = Some c2 ->
    NPC_OperationKey c1 = NPC_OperationKey c2 -> id1 = id2;
  ac_outcomes k v : mget (outcomes s) k = Some v ->
    exists c, mget (consumptions s) (NPO_DecisionID v) = Some c /\ NPC_OperationKey c = k
    /\ NPO_ExpectedOutcomeDigest v = NPC_CanonicalOutcomeDigest c
    /\ (NPO_State v = "closed"%string -> exists rec, mget (acceptances s) k = Some rec
          /\ NAR_State rec = "closed"%string)
}.

(** A record only ever changes from closing to closed. *)
Definition record_le (rec rec' : NativeAcceptanceRecord) : Prop :=
  rec' = rec \/ NAR_State rec = "closing"%string
    /\ rec' = rec <| NAR_State := "closed"%string |> <| NAR_ClosedAt := NAR_ClosedAt rec' |>.

#[export] Instance record_le_preorder : PreOrder record_le.
Proof.
  split; [by left |]. intros r1 r2 r3 [-> | [H1 E1]] [-> | [H2 E2]]; [by left | by right | by right |].
  rewrite E1 in H2. done.
Qed.

Record acceptance_le (s s' : state) : Prop := {
  acl_terminals t rec : mget (terminals s) t = Some rec ->
    exists rec', mget (terminals s') t = Some rec' /\ record_le rec rec';
  acl_records k rec : mget (acceptances s) k = Some rec ->
    exists rec', mget (acceptances s') k = Some rec' /\ record_le rec rec';
  acl_revisions k p : mget (policy_revisions s) k = Some p -> mget (policy_revisions s') k = Some p;
  acl_decisions id d : mget (decisions s) id = Some d -> mget (decisions s') id = Some d;
  acl_approvals id a : mget (approvals s) id = Some a -> mget (approvals s') id = Some a;
  acl_consumptions id c : mget (consumptions s) id = Some c -> mget (consumptions s') id = Some c;
  acl_outcomes k v : mget (outcomes s) k = Some v ->
    exists v', mget (outcomes s') k = Some v' /\ NPO_DecisionID v' = NPO_DecisionID v
    /\ NPO_ExpectedOutcomeDigest v' = NPO_ExpectedOutcomeDigest v
}.

#[export] Instance acceptance_le_preorder : PreOrder acceptance_le.
Proof.
  split.
  - intros s. split; try done; intros k x H; exists x; by split_and?.
  - intros s1 s2 s3 [A1 A2 A3 A4 A5 A6 A7] [B1 B2 B3 B4 B5 B6 B7]. split; auto.
    + intros t rec (r' & H & ?)%A1. destruct (B1 _ _ H) as (r'' & ? & ?). exists r''. split; [done | by etrans].
    + intros t rec (r' & H & ?)%A2. destruct (B2 _ _ H) as (r'' & ? & ?). exists r''. split; [done | by etrans].
    + intros k v (v' & H & ? & ?)%A7. destruct (B7 _ _ H) as (v'' & ? & ? & ?).
      exists v''. split_and!; [done | congruence..].
Qed.

(** Two states with the same acceptances and policies, up to nil. *)
Record acceptance_agree (s s' : state) : Prop := {
  aca_terminals k : mget (terminals s') k = mget (terminals s) k;
  aca_records k : mget (acceptances s') k = mget (acceptances s) k;
  aca_revisions k : mget (policy_revisions s') k = mget (policy_revisions s) k;
  aca_decisions k : mget (decisions s') k = mget (decisions s) k;
  aca_approvals k : mget (approvals s') k = mget (approvals s) k;
  aca_consumptions k : mget (consumptions s') k = mget (consumptions s) k;
  aca_outcomes k : mget (outcomes s') k = mget (outcomes s) k
}.

Lemma acceptance_same_agree s s' :
  st_Acceptance s' = st_Acceptance s -> st_NativePolicy s' = st_NativePolicy s -> acceptance_agree s s'.
Proof.
  intros Ea Ep. split; intros k;
    unfold terminals, acceptances, policy_revisions, decisions, approvals, consumptions, outcomes;
    by rewrite ?Ea, ?Ep.
Qed.

Lemma acceptance_agree_inv s s' : acceptance_agree s s' -> acceptance_inv s -> acceptance_inv s'.
Proof.
  intros [At Ar _ Ad _ Ac Ao] [It Ir Id Ic I1 Io]. split.
  - intros t rec. rewrite At, Ar. apply It.
  - intros k rec. rewrite Ar, At. apply Ir.
  - intros id d. rewrite Ad. apply Id.
  - intros id c. rewrite Ac, Ad, Ar. apply Ic.
  - intros id1 id2 c1 c2. rewrite !Ac. apply I1.
  - intros k v. rewrite Ao, Ac, Ar. apply Io.
Qed.

Lemma acceptance_agree_le s s' : acceptance_agree s s' -> acceptance_le s s'.
Proof.
  intros [At Ar Ah Ad Aa Ac Ao]. split.
  - intros t rec. rewrite At. by exists rec.
  - intros k rec. rewrite Ar. by exists rec.
  - intros k p. by rewrite Ah.
  - intros k p. by rewrite Ad.
  - intros k p. by rewrite Aa.
  - intros k p. by rewrite Ac.
  - intros k v. rewrite Ao. by exists v.
Qed.

(** ** What a successful run went through *)

Lemma nativeAcceptanceOwner_ok s owner r b u :
  nativeAcceptanceOwner s owner r b = Ok u ->
  14 <= Version s /\ not_owner s owner = false /\ NAI_WorkspaceID r = Binding_Workspace b
  /\ NAI_InstallationID r = Binding_Installation b.
Proof. unfold nativeAcceptanceOwner. intros H. by inv_ok. Qed.

Lemma nativePolicyCurrent_ok s d t u :
  nativePolicyCurrent s d t = Ok u ->
  exists p, mget (policies s) (NAI_TaskID (NPD_Input d)) = Some p /\ p = NPD_Policy d
  /\ NP_Allow p = true /\ NP_Stopped p = false /\ t < NP_ExpiresAt p /\ t < NPD_ExpiresAt d
  /\ (NP_RequireApproval p = true -> exists a, mget (approvals s) (NPD_ID d) = Some a
        /\ NPA_ActionDigest a = NPD_ActionDigest d /\ t < NPA_ExpiresAt a).
Proof.
  unfold nativePolicyCurrent. intros H. apply bind_ok in H as (p & Hp%must_ok & H).
  apply bind_ok in H as (? & Hc%deny_if_ok & H). bool_facts. exists p. split_and!; try done.
  intros Hra. rewrite Hra in H. inv_ok. eexists. by split_and!.
Qed.

Lemma prepare_outcome_ok prepare rec x :
  prepare_outcome prepare rec = Ok x ->
  validDigest x = true /\ exists f, prepare = Some f /\ f rec = Some x.
Proof.
  unfold prepare_outcome. intros H. apply bind_ok in H as (f & Hf%must_ok & H).
  apply bind_ok in H as (y & Hy%must_ok & H). inv_ok. eauto.
Qed.

(** What the review of an acceptance asserts, all holding at once. *)
Record acceptable (au : Authority) (e : Env) (s : state) (r : NativeAcceptanceInput) (closing : string)
    (c : NativeAcceptanceCandidate) : Prop := {
  acb_review : exists p a, mget (Reviews s) (NAI_ReviewID r) = Some p
    /\ RR_Outcome (Review_Request p) = "approve"%string
    /\ reviewable au e 0 s (Review_IssuerSession p) (Review_Request p) closing
         (Review_Revision p) (Review_Observation p)
    /\ reviewAttempt s (RR_AttemptID (Review_Request p)) = Ok a
    /\ producers_stand e (S (review_readings (Review_Request p))) s a p closing = true
    /\ nativeAcceptanceCandidate e (review_readings (Review_Request p)) s (a_binding au) p = Ok c;
  acb_input : (NAC_Input c) <| NAI_OperationKey := NAI_OperationKey r |> = r
}.

Lemma review_stands_ok au e i s p closing :
  review_stands au e i s p closing = true ->
  reviewable au e i s (Review_IssuerSession p) (Review_Request p) closing
    (Review_Revision p) (Review_Observation p).
Proof.
  unfold review_stands. intros H.
  destruct (reviewCurrentExcept _ _ _ _ _ _ _) as [[rev obs] |] eqn:E; [| done].
  bool_facts. subst. by apply reviewCurrentExcept_ok.
Qed.

Lemma acceptanceCurrent_ok au e s r closing c :
  acceptanceCurrent au e s r closing = Ok c -> acceptable au e s r closing c.
Proof.
  unfold acceptanceCurrent. intros H. apply bind_ok in H as (p & Hp%must_ok & H).
  apply bind_ok in H as (? & Ho%deny_if_ok & H). apply bind_ok in H as (? & Hs%deny_if_ok & H).
  apply bind_ok in H as (c' & Hc & H). apply bind_ok in H as (? & Hi%deny_if_ok & H).
  apply bind_ok in H as (a & Ha & H). apply bind_ok in H as (? & Hst%deny_if_ok & H).
  injection H as ->. bool_facts.
  split; [| done]. exists p, a. split_and!; try done. by apply review_stands_ok.
Qed.

Lemma put_acceptance_ok s task key rec s' :
  put_acceptance s task key rec = Ok s' ->
  exists ts ops, mset (terminals s) task rec = Ok ts /\ mset (acceptances s) key rec = Ok ops
  /\ s' = s <| st_Acceptance := mkAcceptanceMaps ts ops |>.
Proof. unfold put_acceptance. intros H. inv_ok. eauto. Qed.

Lemma put_acceptance_intro s task key rec ts ops :
  mset (terminals s) task rec = Ok ts -> mset (acceptances s) key rec = Ok ops ->
  put_acceptance s task key rec = Ok (s <| st_Acceptance := mkAcceptanceMaps ts ops |>).
Proof. unfold put_acceptance. by intros -> ->. Qed.

Lemma policy_decision_ok s r id t x :
  policy_decision s r id t = Ok x ->
  match x with
  | None => Version s < 15
  | Some d => 15 <= Version s /\ mget (decisions s) id = Some d /\ NPD_Input d = r
              /\ (exists u, nativePolicyCurrent s d t = Ok u) /\ mget (consumptions s) id = None
  end.
Proof.
  unfold policy_decision. destruct (Z.ltb_spec (Version s) 15); [by intros [= <-] |].
  intros H'. apply bind_ok in H' as (d & Hd%must_ok & H'). apply bind_ok in H' as (? & Hi%deny_if_ok & H').
  apply bind_ok in H' as (u & Hu & H'). apply bind_ok in H' as (? & Hc%deny_if_ok & H').
  injection H' as <-. bool_facts. apply mhas_false in Hc. split_and!; eauto.
Qed.

(** The decision an acceptance starts from, and the state it leaves in the
    policy's maps. *)
Inductive consumed (s s' : state) (r : NativeAcceptanceInput) (id : string) (e : Env)
    (rec : NativeAcceptanceRecord) : Prop :=
  | consumed_none : Version s < 15 -> s' = s -> consumed s s' r id e rec
  | consumed_decision d cs os : 15 <= Version s -> mget (decisions s) id = Some d -> NPD_Input d = r ->
      (exists u, nativePolicyCurrent s d (now e 1001) = Ok u) ->
      (exists u, nativePolicyCurrent s d (now e 3000) = Ok u) ->
      mget (consumptions s) id = None ->
      NAR_CanonicalOutcomeDigest rec = NAR_CanonicalOutcomeDigest (NPD_Prepared d) ->
      mset (consumptions s) id (mkNativePolicyConsumption id (NAI_OperationKey r) (NPD_ActionDigest d)
        (NAR_CanonicalOutcomeDigest rec) (now e 3001)) = Ok cs ->
      mset (outcomes s) (NAI_OperationKey r) (mkNativePolicyOutcome (NAI_OperationKey r) id "unknown"
        (NAR_CanonicalOutcomeDigest rec) "" 0) = Ok os ->
      s' = s <| st_NativePolicy := (st_NativePolicy s) <| NativePolicyConsumptions := cs |>
                                                       <| NativePolicyOutcomes := os |> |> ->
      consumed s s' r id e rec.

Lemma beginNativeAcceptance_ok au e owner r id prepare s rec s' :
  acceptance_inv s -> beginNativeAcceptance au e owner r id prepare s = Ok (rec, s') ->
  14 <= Version s /\ not_owner s owner = false
  /\ NAI_WorkspaceID r = Binding_Workspace (a_binding au)
  /\ NAI_InstallationID r = Binding_Installation (a_binding au)
  /\ ((s' = s /\ mget (acceptances s) (NAI_OperationKey r) = Some rec
       /\ NAR_InputDigest rec = operation_digest r
       /\ replay_names_decision s (NAI_OperationKey r) id = true)
      \/ (mget (acceptances s) (NAI_OperationKey r) = None /\ mget (terminals s) (NAI_TaskID r) = None
          /\ (exists c, acceptable au e s r "" c) /\ (exists c, acceptable au (later 1002 1 e) s r "" c)
          /\ prepared_for r rec /\ validDigest (NAR_CanonicalOutcomeDigest rec) = true
          /\ exists s1, consumed s s1 r id e rec
             /\ put_acceptance s1 (NAI_TaskID r) (NAI_OperationKey r) rec = Ok s')).
Proof.
  intros Hinv H. unfold beginNativeAcceptance in H.
  apply bind_ok in H as (? & (Hver & Hown & Hws & Hins)%nativeAcceptanceOwner_ok & H).
  apply bind_ok in H as (? & _ & H). split_and!; [done.. |].
  destruct (mget (acceptances s) (NAI_OperationKey r)) as [old |] eqn:Hold.
  { left. apply bind_ok in H as (? & Hr%deny_if_ok & H). apply bind_ok in H as (? & Hd%deny_if_ok & H).
    injection H as -> ->. by bool_facts. }
  right. apply bind_ok in H as (? & Ht%deny_if_ok & H). apply mhas_false in Ht.
  apply bind_ok in H as (c & Hc & H). apply bind_ok in H as (dec & Hdec%policy_decision_ok & H).
  apply bind_ok in H as (outcome & (Hv & _)%prepare_outcome_ok & H).
  apply bind_ok in H as (c2 & Hc2 & H). apply bind_ok in H as (s1 & Hs1 & H).
  apply bind_ok in H as (s2 & Hs2 & H). injection H as <- ->.
  apply acceptanceCurrent_ok in Hc, Hc2.
  split_and!; [done | done | by eexists | by eexists | | done |].
  - destruct dec as [d |]; simpl.
    + destruct Hdec as (_ & Hd & <- & _). destruct (ac_decisions _ Hinv _ _ Hd) as [_ [? ? ? ?]]. by split.
    + split; [done.. |]. apply (acb_input _ _ _ _ _ _ Hc).
  - exists s1. split; [| done]. destruct dec as [d |].
    + destruct Hdec as (? & Hd & Hi & Hcur & Hnone).
      apply bind_ok in Hs1 as (? & Ho%deny_if_ok & Hs1). apply bind_ok in Hs1 as (u & Hu & Hs1).
      unfold consume_decision in Hs1. apply bind_ok in Hs1 as (cs & Hcs & Hs1).
      apply bind_ok in Hs1 as (os & Hos & Hs1). injection Hs1 as <-. bool_facts.
      by eapply consumed_decision; eauto.
    + injection Hs1 as ->. by apply consumed_none.
Qed.

Lemma continued_record_ok s r rec :
  continued_record s r = Ok rec ->
  mget (acceptances s) (NAI_OperationKey r) = Some rec /\ mget (terminals s) (NAI_TaskID r) = Some rec
  /\ NAR_InputDigest rec = operation_digest r.
Proof. unfold continued_record. intros H. inv_ok. by subst. Qed.

(** What a call of [closeTask] was preceded by. *)
Lemma may_close_ok au e s r rec inspect u :
  may_close au e s r rec inspect = Ok u ->
  (exists c, acceptable au e s r (NAI_OperationKey r) c)
  /\ inspect 1%nat rec = Ok false
  /\ (exists p a, mget (Reviews s) (NAI_ReviewID r) = Some p /\ reviewAttempt s (NAI_AttemptID r) = Ok a
        /\ (exists u, observeRevision e 1 a (Review_Revision p) = Ok u)
        /\ currentRevisionExcept s a (NAI_RevisionID r) (NAI_LeaseID r) (NAI_ExpectedFence r)
             (NAI_OperationKey r) = Ok (Review_Revision p))
  /\ (15 <= Version s -> exists d, nativePolicyForOperation s (NAI_OperationKey r) = Some d
        /\ NPD_Input d = r
        /\ NAR_CanonicalOutcomeDigest (NPD_Prepared d) = NAR_CanonicalOutcomeDigest rec
        /\ exists u, nativePolicyCurrent s d (now e 2000) = Ok u).
Proof.
  unfold may_close. intros H. apply bind_ok in H as (c & Hc%acceptanceCurrent_ok & H).
  apply bind_ok in H as (closed & Hcl & H). apply bind_ok in H as (? & ->%fail_if_ok & H).
  apply bind_ok in H as (p & Hp%must_ok & H). apply bind_ok in H as (a & Ha & H).
  apply bind_ok in H as (? & Ho%deny_if_ok & H). apply bind_ok in H as (? & _ & H).
  apply bind_ok in H as (rev & Hrev & H). apply bind_ok in H as (? & Hr%deny_if_ok & H).
  bool_facts. subst rev. apply is_ok_true in Ho.
  split_and!; [by eexists | done | by exists p, a |].
  intros Hv. unfold closing_policy in H. destruct (Z.ltb_spec (Version s) 15); [lia |].
  apply bind_ok in H as (d & Hd%must_ok & H). apply bind_ok in H as (? & Hi%deny_if_ok & H).
  bool_facts. exists d. split_and!; eauto.
Qed.

(** The ways a continuation commits. *)
Inductive continuation (au : Authority) (e : Env) (s : state) (r : NativeAcceptanceInput)
    (rec : NativeAcceptanceRecord) (inspect : inspection) (closeTask : closure) (s' : state)
    : list NativeAcceptanceRecord -> NativeAcceptanceResult -> Prop :=
  | cont_again : NAR_State rec = "closed"%string -> inspect 0%nat rec = Ok true -> s' = s ->
      continuation au e s r rec inspect closeTask s' []
        (mkAcceptanceResult true true "closed" (NAR_CanonicalReceiptDigest rec))
  | cont_resumed x : NAR_State rec = "closing"%string -> inspect 0%nat rec = Ok true ->
      finish e s r rec = Ok (x, s') -> continuation au e s r rec inspect closeTask s' [] x
  | cont_closed x : NAR_State rec = "closing"%string -> inspect 0%nat rec = Ok false ->
      (exists u, may_close au e s r rec inspect = Ok u) -> (exists u, closeTask rec = Ok u) ->
      inspect 2%nat rec = Ok true -> finish e s r rec = Ok (x, s') ->
      continuation au e s r rec inspect closeTask s' [rec] x.

Lemma ContinueNativeAcceptance_ok au e owner r inspect closeTask s calls x s' :
  ContinueNativeAcceptance au e owner r inspect closeTask s = (calls, Ok (x, s')) ->
  14 <= Version s /\ not_owner s owner = false
  /\ exists rec f g, continued_record s r = Ok rec /\ inspect = Some f /\ closeTask = Some g
     /\ continuation au e s r rec f g s' calls x.
Proof.
  unfold ContinueNativeAcceptance. intros H.
  apply logged_bind_inv in H as (? & ? & ? & [-> (Hver & Hown & _)%nativeAcceptanceOwner_ok]%pure_inv & H & ->).
  apply logged_bind_inv in H as (? & rec & ? & [-> Hrec]%pure_inv & H & ->).
  apply logged_bind_inv in H as (? & f & ? & [-> Hf%must_ok]%pure_inv & H & ->).
  apply logged_bind_inv in H as (? & g & ? & [-> Hg%must_ok]%pure_inv & H & ->).
  apply logged_bind_inv in H as (? & closed & ? & [-> Hc]%pure_inv & H & ->).
  split_and!; [done.. |]. exists rec, f, g. split_and!; [done.. |]. simpl.
  destruct (String.eqb_spec (NAR_State rec) "closed").
  - apply pure_inv in H as [-> H]. apply bind_ok in H as (? & Hcl%deny_if_ok & H).
    injection H as <- ->. bool_facts. subst. by apply cont_again.
  - apply logged_bind_inv in H as (? & ? & ? & [-> Hst%deny_if_ok]%pure_inv & H & ->). bool_facts.
    apply logged_bind_inv in H as (? & ? & ? & Hcl & [-> Hfin]%pure_inv & ->). rewrite app_nil_r. simpl.
    destruct closed; [by injection Hcl as <-; apply cont_resumed |].
    apply logged_bind_inv in Hcl as (? & u & ? & [-> Hmay]%pure_inv & Hcl & ->). simpl.
    unfold close_canonical in Hcl. injection Hcl as <- Hcl.
    apply bind_ok in Hcl as (u' & Hu & Hcl).
    destruct (f 2%nat rec) as [[] |] eqn:E2; [| done..].
    by apply cont_closed; eauto.
Qed.

(** ** Preservation *)

Lemma record_le_facts rec rec' : record_le rec rec' ->
  NAR_OperationKey rec' = NAR_OperationKey rec /\ NAR_InputDigest rec' = NAR_InputDigest rec
  /\ NAR_CanonicalOutcomeDigest rec' = NAR_CanonicalOutcomeDigest rec
  /\ NAR_Candidate rec' = NAR_Candidate rec
  /\ NAR_CanonicalReceiptDigest rec' = NAR_CanonicalReceiptDigest rec
  /\ (NAR_State rec = "closed"%string -> rec' = rec).
Proof.
  intros [-> | [E ->]]; [done |]. split_and!; [done.. |]. rewrite E. done.
Qed.

(** Both maps get the same record: a new one, or the next version of the old. *)
Lemma put_acceptance_inv_le s rec' s' :
  acceptance_inv s -> put_acceptance s (accepted_task rec') (NAR_OperationKey rec') rec' = Ok s' ->
  (NAR_State rec' = "closing"%string \/ NAR_State rec' = "closed"%string) ->
  (mget (terminals s) (accepted_task rec') = None /\ mget (acceptances s) (NAR_OperationKey rec') = None)
  \/ (exists rec, mget (terminals s) (accepted_task rec') = Some rec
        /\ mget (acceptances s) (NAR_OperationKey rec') = Some rec /\ record_le rec rec') ->
  acceptance_inv s' /\ acceptance_le s s'.
Proof.
  intros Hinv (ts & ops & Hts & Hops & ->)%put_acceptance_ok Hst Hold.
  assert (forall t, mget ts t = if decide (accepted_task rec' = t) then Some rec' else mget (terminals s) t)
    as Et by (intros; by eapply mget_mset).
  assert (forall k, mget ops k = if decide (NAR_OperationKey rec' = k) then Some rec' else mget (acceptances s) k)
    as Eo by (intros; by eapply mget_mset).
  assert (forall k rec, mget (acceptances s) k = Some rec ->
            exists r2, mget ops k = Some r2 /\ record_le rec r2) as Hle.
  { intros k rec Hk. rewrite Eo. case_decide as Ek; [| by exists rec]. subst k.
    destruct Hold as [[_ H] | (r0 & _ & H & Hr)]; [congruence |]. exists rec'. split; [done |]. congruence. }
  split; split; unfold terminals, acceptances, decisions, consumptions, outcomes; simpl; try done.
  - intros t rec. rewrite Et, Eo. case_decide as E1.
    + intros [= <-]. by rewrite decide_True.
    + intros Hk. destruct (ac_terminals _ Hinv _ _ Hk) as [Hta Ho]. split; [done |].
      case_decide as E2; [| done]. rewrite <- E2 in Ho.
      destruct Hold as [[_ H] | (r0 & Ht & H & _)]; [congruence |].
      destruct (ac_terminals _ Hinv _ _ Ht) as [Hac _]. congruence.
  - intros k rec. rewrite Et, Eo. case_decide as E1.
    + intros [= <-]. by rewrite decide_True.
    + intros Hk. destruct (ac_records _ Hinv _ _ Hk) as (Hky & Ho & Hss). split_and!; [done | | done].
      case_decide as E2; [| done]. rewrite <- E2 in Ho.
      destruct Hold as [[H _] | (r0 & Ht & H & Hr)]; [congruence |]. 
      assert (r0 = rec) as -> by congruence. destruct (record_le_facts _ _ Hr) as (Hkey & _). congruence.
  - apply (ac_decisions _ Hinv).
  - intros id c Hc. destruct (ac_consumed _ Hinv _ _ Hc) as (? & d & rec & ? & ? & Hk & Hd & Ho).
    split; [done |]. destruct (Hle _ _ Hk) as (r2 & ? & (? & ? & ? & _)%record_le_facts).
    exists d, r2. split_and!; [done.. | congruence | congruence].
  - apply (ac_once _ Hinv).
  - intros k v Hv. destruct (ac_outcomes _ Hinv _ _ Hv) as (c & ? & ? & ? & Hcl). exists c.
    split_and!; [done.. |]. intros (rec & Hk & Hs)%Hcl. destruct (Hle _ _ Hk) as (r2 & ? & Hf).
    apply record_le_facts in Hf as (_ & _ & _ & _ & _ & Hf). rewrite (Hf Hs) in *. by exists rec.
  - intros t rec Hk. fold (terminals s) in Hk. rewrite Et. case_decide as E1; [| by exists rec].
    subst t. destruct Hold as [[H _] | (r0 & H & _ & Hr)]; [congruence |]. exists rec'.
    split; [done |]. congruence.
  - intros k v Hv. by exists v.
Qed.

(** A decision consumed for the acceptance under [key]. *)
Lemma consumption_inv_le s d id key rec t cs os :
  acceptance_inv s -> mget (decisions s) id = Some d -> NAI_OperationKey (NPD_Input d) = key ->
  mget (acceptances s) key = Some rec -> NAR_InputDigest rec = operation_digest (NPD_Input d) ->
  (forall id' c, mget (consumptions s) id' = Some c -> NPC_OperationKey c <> key) ->
  mget (consumptions s) id = None ->
  mset (consumptions s) id (mkNativePolicyConsumption id key (NPD_ActionDigest d)
    (NAR_CanonicalOutcomeDigest rec) t) = Ok cs ->
  mset (outcomes s) key (mkNativePolicyOutcome key id "unknown" (NAR_CanonicalOutcomeDigest rec) "" 0) = Ok os ->
  let s' := s <| st_NativePolicy := (st_NativePolicy s) <| NativePolicyConsumptions := cs |>
                                                        <| NativePolicyOutcomes := os |> |> in
  acceptance_inv s' /\ acceptance_le s s'.
Proof.
  intros Hinv Hd Hkey Hrec Hdig Hfresh Hnone Hcs Hos s'.
  assert (forall k c, mget (consumptions s) k = Some c -> mget cs k = Some c) as Hold.
  { intros k c Hk. rewrite (mget_mset _ _ _ _ _ Hcs). case_decide; [congruence | done]. }
  split; split; unfold terminals, acceptances, decisions, consumptions, outcomes; simpl; try done.
  - apply (ac_terminals _ Hinv).
  - apply (ac_records _ Hinv).
  - apply (ac_decisions _ Hinv).
  - intros k c. rewrite (mget_mset _ _ _ _ _ Hcs). case_decide as E; [| apply (ac_consumed _ Hinv)].
    intros [= <-]. subst k. split; [done |]. exists d, rec. by split_and!.
  - intros k1 k2 c1 c2. rewrite !(mget_mset _ _ _ _ _ Hcs). case_decide; case_decide.
    + congruence.
    + intros [= <-] Hc Ek. simpl in Ek. by destruct (Hfresh _ _ Hc).
    + intros Hc [= <-] Ek. simpl in Ek. by destruct (Hfresh _ _ Hc).
    + apply (ac_once _ Hinv).
  - intros k v. rewrite (mget_mset _ _ _ _ _ Hos). case_decide as E.
    + intros [= <-]. simpl. eexists. split_and!; [by eapply mget_mset_eq | done..].
    + intros Hv. destruct (ac_outcomes _ Hinv _ _ Hv) as (c & ? & ?). exists c. eauto.
  - intros k rec0 ?. by exists rec0.
  - intros k rec0 ?. by exists rec0.
  - intros k v Hv. rewrite (mget_mset _ _ _ _ _ Hos). case_decide as E; [| by exists v].
    destruct (ac_outcomes _ Hinv _ _ Hv) as (c & Hc & Hk & _). destruct (Hfresh _ _ Hc). congruence.
Qed.

Lemma begin_inv_le au e owner r id prepare s rec s' :
  acceptance_inv s -> beginNativeAcceptance au e owner r id prepare s = Ok (rec, s') ->
  acceptance_inv s' /\ acceptance_le s s'.
Proof.
  intros Hinv H. apply beginNativeAcceptance_ok in H as (_ & _ & _ & _ & Hcase); [| done].
  destruct Hcase as [(-> & _) | (Hno & Hnt & _ & _ & [Hkey Hdig Hst Hin] & _ & s1 & Hcon & Hput)]; [done |].
  assert (accepted_task rec = NAI_TaskID r) as Htask by (rewrite <- Hin; done).
  assert (forall id' c, mget (consumptions s) id' = Some c -> NPC_OperationKey c <> NAR_OperationKey rec) as Hfr.
  { intros id' c Hc E. destruct (ac_consumed _ Hinv _ _ Hc) as (_ & d & r0 & _ & _ & H & _). congruence. }
  destruct Hcon as [Hv -> | d cs os Hv Hd Hi _ _ Hnone Hout Hcs Hos ->]; rewrite <- Hkey, <- Htask in *.
  - apply (put_acceptance_inv_le s rec); [done | done | by left | by left].
  - apply put_acceptance_ok in Hput as (ts & ops & Hts & Hops & ->). 
    destruct (put_acceptance_inv_le s rec (s <| st_Acceptance := mkAcceptanceMaps ts ops |>)) as [Hi1 Hl1].
    + done.
    + by apply put_acceptance_intro.
    + by left.
    + by left.
    + destruct (consumption_inv_le (s <| st_Acceptance := mkAcceptanceMaps ts ops |>) d id
        (NAR_OperationKey rec) rec (now e 3001) cs os) as [? Hl2].
      * done.
      * done.
      * by rewrite Hi, Hkey.
      * by eapply mget_mset_eq.
      * by rewrite Hi.
      * done.
      * done.
      * done.
      * done.
      * split; [done |]. by etrans.
Qed.

Lemma nativePolicyForOperation_ok s key d :
  nativePolicyForOperation s key = Some d ->
  exists id c, mget (consumptions s) id = Some c /\ NPC_OperationKey c = key
  /\ mget (decisions s) id = Some d.
Proof.
  unfold nativePolicyForOperation. intros H. apply bind_Some in H as ([id c] & Hf & Hd).
  apply find_elem in Hf as [Hin Hk]. apply elem_of_mentries in Hin. bool_facts. eauto.
Qed.

Lemma record_outcome_ok e s key rec s' :
  record_outcome e s key rec = Ok s' ->
  s' = s \/ exists d os, nativePolicyForOperation s key = Some d
  /\ mset (outcomes s) key (mkNativePolicyOutcome key (NPD_ID d) "closed"
       (NAR_CanonicalOutcomeDigest rec) (NAR_CanonicalOutcomeDigest rec) (now e 2001)) = Ok os
  /\ s' = s <| st_NativePolicy := (st_NativePolicy s) <| NativePolicyOutcomes := os |> |>.
Proof.
  unfold record_outcome. destruct (Version s <? 15); [by intros [= <-]; left |].
  destruct (nativePolicyForOperation s key) as [d |]; [| by intros [= <-]; left].
  intros H. inv_ok. right. eauto.
Qed.

Lemma finish_inv_le e s r rec x s' :
  acceptance_inv s -> continued_record s r = Ok rec -> NAR_State rec = "closing"%string ->
  finish e s r rec = Ok (x, s') -> acceptance_inv s' /\ acceptance_le s s'.
Proof.
  intros Hinv (Hk & Ht & _)%continued_record_ok Hst H. unfold finish in H.
  apply bind_ok in H as (s1 & Hs1 & H). apply bind_ok in H as (s2 & Hs2 & H).
  injection H as <- ->. 
  destruct (ac_records _ Hinv _ _ Hk) as (Hkey & _). destruct (ac_terminals _ Hinv _ _ Ht) as [Htask _].
  rewrite <- Hkey, <- Htask in *. clear Hkey Htask. set (rec' := rec <| NAR_State := "closed"%string |> <| NAR_ClosedAt := now e 2002 |>) in *.
  assert (record_le rec rec') as Hle by (right; done).
  destruct (record_outcome_ok _ _ _ _ _ Hs1) as [-> | (d & os & Hd & Hos & ->)].
  { apply (put_acceptance_inv_le s rec'); [done | done | by right |]. right. by exists rec. }
  apply put_acceptance_ok in Hs2 as (ts & ops & Hts & Hops & ->).
  destruct (put_acceptance_inv_le s rec' (s <| st_Acceptance := mkAcceptanceMaps ts ops |>)) as [Hi1 Hl1].
  - done.
  - by apply put_acceptance_intro.
  - by right.
  - right. by exists rec.
  - apply nativePolicyForOperation_ok in Hd as (id & c & Hc & Hck & Hdd).
    destruct (ac_consumed _ Hinv _ _ Hc) as (Hcid & d' & rec0 & Hd' & _ & Hr0 & _ & Ho).
    rewrite Hck in Hr0. assert (rec0 = rec) as -> by congruence.
    destruct (ac_decisions _ Hinv _ _ Hdd) as [Hdid _].
    assert (mget ops (NAR_OperationKey rec) = Some rec') as Hnew by by eapply mget_mset_eq.
    split; [split | etrans; [apply Hl1 |]; split].
    all: unfold terminals, acceptances, decisions, consumptions, outcomes, policy_revisions, approvals; simpl.
    + apply (ac_terminals _ Hi1).
    + apply (ac_records _ Hi1).
    + apply (ac_decisions _ Hi1).
    + apply (ac_consumed _ Hi1).
    + apply (ac_once _ Hi1).
    + intros k v. rewrite (mget_mset _ _ _ _ _ Hos). case_decide as E; [| apply (ac_outcomes _ Hi1)].
      intros [= <-]. subst k. simpl. exists c. rewrite Hdid. split_and!; [done | done | congruence |].
      intros _. by exists rec'.
    + intros t r0 ?. by exists r0.
    + intros t r0 ?. by exists r0.
    + done.
    + done.
    + done.
    + done.
    + intros k v Hv. rewrite (mget_mset _ _ _ _ _ Hos). case_decide as E; [| by exists v]. subst k.
      eexists. split; [done |]. simpl. destruct (ac_outcomes _ Hinv _ _ Hv) as (c' & Hc' & Hk' & He & _).
      assert (NPO_DecisionID v = id) as Ev.
      { eapply (ac_once _ Hinv); [done | done |]. by rewrite Hk', Hck. }
      rewrite Ev in Hc'. rewrite He, Ev, Hdid. split; [done |]. congruence.
Qed.

Lemma Continue_inv_le au e owner r inspect closeTask s calls x s' :
  acceptance_inv s ->
  ContinueNativeAcceptance au e owner r inspect closeTask s = (calls, Ok (x, s')) ->
  acceptance_inv s' /\ acceptance_le s s'.
Proof.
  intros Hinv (_ & _ & rec & f & g & Hrec & _ & _ & Hc)%ContinueNativeAcceptance_ok.
  destruct Hc as [_ _ -> | x ? _ ? | x ? _ _ _ _ ?]; [done | by eapply finish_inv_le..].
Qed.

(** ** The policy operations *)

Lemma ConfigureNativePolicy_ok e owner p s u s' :
  ConfigureNativePolicy e owner p s = Ok (u, s') ->
  nativePolicyOwner s owner = true
  /\ ((s' = s /\ mget (policy_revisions s) (policy_key p) = Some p)
      \/ (mget (policy_revisions s) (policy_key p) = None /\ put_policy s (policy_key p) p = Ok s')).
Proof.
  unfold ConfigureNativePolicy. intros H. apply bind_ok in H as (? & Hc%deny_if_ok & H). bool_facts.
  split; [done |]. destruct (mget (policy_revisions s) (policy_key p)) as [old |] eqn:Hold.
  - left. apply bind_ok in H as (? & Hd%deny_if_ok & H). injection H as <- <-. bool_facts. by subst.
  - right. apply bind_ok in H as (s1 & Hs1 & H). by injection H as <- <-.
Qed.

Lemma EvaluateNativePolicy_ok au e owner r prepare s d s' :
  EvaluateNativePolicy au e owner r prepare s = Ok (d, s') ->
  nativePolicyOwner s owner = true
  /\ ((s' = s /\ mget (decisions s) (NPE_OperationKey r) = Some d)
      \/ (mget (decisions s) (NPE_OperationKey r) = None
          /\ mget (terminals s) (NAI_TaskID (NPE_Input r)) = None
          /\ mget (policies s) (NAI_TaskID (NPE_Input r)) = Some (NPD_Policy d)
          /\ (exists c, acceptable au (later 1 0 e) s (NPE_Input r) "" c)
          /\ (exists c, acceptable au (later 1000 1 e) s (NPE_Input r) "" c)
          /\ NPD_ID d = NPE_OperationKey r /\ NPD_Input d = NPE_Input r
          /\ prepared_for (NPE_Input r) (NPD_Prepared d)
          /\ NPD_ExpiresAt d <= NP_ExpiresAt (NPD_Policy d)
          /\ put_policy_decision s d = Ok s')).
Proof.
  unfold EvaluateNativePolicy. intros H. apply bind_ok in H as (? & Hc%deny_if_ok & H). bool_facts.
  split; [done |]. destruct (mget (decisions s) (NPE_OperationKey r)) as [old |] eqn:Hold.
  - left. apply bind_ok in H as (? & Hd & H). by injection H as <- <-.
  - right. apply bind_ok in H as (? & Ht%deny_if_ok & H). apply mhas_false in Ht.
    apply bind_ok in H as (p & Hp%must_ok & H). apply bind_ok in H as (? & Hx%deny_if_ok & H).
    apply bind_ok in H as (c & Hcur%acceptanceCurrent_ok & H). apply bind_ok in H as (o & _ & H).
    apply bind_ok in H as (c2 & Hcur2%acceptanceCurrent_ok & H). apply bind_ok in H as (? & _ & H).
    apply bind_ok in H as (s1 & Hs1 & H). injection H as <- <-. bool_facts. simpl in *.
    split_and!; try done; [by eexists.. |]. split; [done.. |]. apply (acb_input _ _ _ _ _ _ Hcur).
Qed.

Lemma ApproveNativePolicy_ok e owner r s a s' :
  ApproveNativePolicy e owner r s = Ok (a, s') ->
  nativePolicyOwner s owner = true
  /\ exists d, mget (decisions s) (NPAR_DecisionID r) = Some d
     /\ mget (policies s) (NAI_TaskID (NPD_Input d)) = Some (NPD_Policy d)
     /\ NP_Allow (NPD_Policy d) = true /\ NP_Stopped (NPD_Policy d) = false
     /\ ((s' = s /\ mget (approvals s) (NPD_ID d) = Some a)
         \/ (mget (approvals s) (NPD_ID d) = None /\ mget (consumptions s) (NPD_ID d) = None
             /\ NPA_DecisionID a = NPD_ID d /\ NPA_ActionDigest a = NPD_ActionDigest d
             /\ NPA_ExpiresAt a <= NPD_ExpiresAt d /\ put_approval s (NPD_ID d) a = Ok s')).
Proof.
  unfold ApproveNativePolicy. intros H. apply bind_ok in H as (d & Hd%must_ok & H).
  apply bind_ok in H as (? & Hc%deny_if_ok & H). bool_facts. split; [done |]. exists d. split_and!; try done.
  destruct (mget (approvals s) (NPD_ID d)) as [old |] eqn:Hold.
  - left. apply bind_ok in H as (? & Hx & H). by injection H as <- <-.
  - right. apply bind_ok in H as (? & Hx%deny_if_ok & H). apply mhas_false in Hx.
    apply bind_ok in H as (s1 & Hs1 & H). injection H as <- <-. by split_and!.
Qed.

Lemma ConfigureNativePolicy_inv_le e owner p s u s' :
  acceptance_inv s -> ConfigureNativePolicy e owner p s = Ok (u, s') ->
  acceptance_inv s' /\ acceptance_le s s'.
Proof.
  intros Hinv (_ & [[-> _] | (Hnone & Hput)])%ConfigureNativePolicy_ok; [done |].
  unfold put_policy in Hput. apply bind_ok in Hput as (h & Hh & Hput).
  apply bind_ok in Hput as (m & _ & Hput). injection Hput as <-.
  destruct Hinv as [It Ir Id Ic I1 Io]. split; split; try done; eauto.
  - intros k rec ?. by exists rec.
  - intros k rec ?. by exists rec.
  - intros k q Hk. unfold policy_revisions. simpl. rewrite (mget_mset _ _ _ _ _ Hh).
    case_decide; [congruence | done].
Qed.

Lemma EvaluateNativePolicy_inv_le au e owner r prepare s d s' :
  acceptance_inv s -> EvaluateNativePolicy au e owner r prepare s = Ok (d, s') ->
  acceptance_inv s' /\ acceptance_le s s'.
Proof.
  intros Hinv (_ & [[-> _] | (Hnone & _ & _ & _ & _ & Hid & Hi & Hpr & _ & Hput)])%EvaluateNativePolicy_ok;
    [done |].
  unfold put_policy_decision in Hput. apply bind_ok in Hput as (m & Hm & Hput). injection Hput as <-.
  rewrite <- Hid in Hnone.
  assert (forall k x, mget (decisions s) k = Some x -> mget m k = Some x) as Hold.
  { intros k x Hk. rewrite (mget_mset _ _ _ _ _ Hm). case_decide; [congruence | done]. }
  destruct Hinv as [It Ir Id Ic I1 Io]. split; split; try done; eauto.
  - intros k x. unfold decisions. simpl. rewrite (mget_mset _ _ _ _ _ Hm). case_decide; [| apply Id].
    intros [= <-]. by rewrite Hi.
  - intros k c (? & d' & rec & Hd' & ?)%Ic. split; [done |]. exists d', rec. split; [| done].
    by apply Hold.
  - intros k v Hk. by exists v.
  - intros k v Hk. by exists v.
Qed.

Lemma ApproveNativePolicy_inv_le e owner r s a s' :
  acceptance_inv s -> ApproveNativePolicy e owner r s = Ok (a, s') ->
  acceptance_inv s' /\ acceptance_le s s'.
Proof.
  intros Hinv (_ & d & _ & _ & _ & _ & [[-> _] | (Hnone & _ & _ & _ & _ & Hput)])%ApproveNativePolicy_ok;
    [done |].
  unfold put_approval in Hput. apply bind_ok in Hput as (m & Hm & Hput). injection Hput as <-.
  destruct Hinv. split; split; try done; eauto.
  - intros k v Hk. by exists v.
  - intros k v Hk. by exists v.
  - intros k x Hk. unfold approvals. simpl. rewrite (mget_mset _ _ _ _ _ Hm).
    case_decide; [congruence | done].
Qed.

(** ** What the review behind an acceptance says *)

Lemma nativeAcceptanceCandidate_ok e i s binding p c :
  nativeAcceptanceCandidate e i s binding p = Ok c ->
  NAI_ReviewID (NAC_Input c) = Review_ID p
  /\ NAI_RevisionID (NAC_Input c) = Rev_ID (Review_Revision p)
  /\ NAI_LeaseID (NAC_Input c) = RR_LeaseID (Review_Request p)
  /\ NAI_ExpectedFence (NAC_Input c) = RR_ExpectedFence (Review_Request p)
  /\ NAI_Commit (NAC_Input c) = Commit (Rev_Observation (Review_Revision p))
  /\ exists a, reviewAttempt s (RR_AttemptID (Review_Request p)) = Ok a
     /\ NAI_AttemptID (NAC_Input c) = Attempt_ID a /\ NAC_WorkerSessionID c = Attempt_SessionID a
     /\ exists b, mget (Tasks s) (at_task a) = Some b /\ NAI_TaskID (NAC_Input c) = TB_TaskID b.
Proof.
  unfold nativeAcceptanceCandidate. intros H. apply bind_ok in H as (a & Ha & H).
  apply bind_ok in H as (b & Hb%must_ok & H). apply bind_ok in H as (? & _ & H).
  apply bind_ok in H as ([q root] & _ & H). apply bind_ok in H as (ev & _ & H). injection H as <-.
  split_and!; try done. exists a. split_and!; try done. by exists b.
Qed.

(** The acceptance of [r] rests on an approving review of the attempt's last
    revision, granted, independent and evidenced as of the observations [e]. *)
Record approved (e : Env) (s : state) (r : NativeAcceptanceInput) (p : Review) (a : Attempt)
    (rev : AttemptRevision) : Prop := {
  ap_review : mget (Reviews s) (NAI_ReviewID r) = Some p;
  ap_outcome : RR_Outcome (Review_Request p) = "approve"%string;
  ap_attempt : reviewAttempt s (RR_AttemptID (Review_Request p)) = Ok a /\ Attempt_ID a = NAI_AttemptID r;
  ap_task : exists b, mget (Tasks s) (at_task a) = Some b /\ TB_TaskID b = NAI_TaskID r;
  ap_revision : list.last (revisions s (Attempt_ID a)) = Some rev
    /\ Rev_ID rev = NAI_RevisionID r /\ Rev_LeaseID rev = NAI_LeaseID r
    /\ Rev_Fence rev = NAI_ExpectedFence r /\ Commit (Rev_Observation rev) = NAI_Commit r;
  ap_checkout : exists u, observeRevision e 0 a rev = Ok u;
  ap_grant : exists g, mget (ReviewGrants s) (RR_GrantID (Review_Request p)) = Some g
    /\ reviewGrantCurrent e 0 s (Review_IssuerSession p) a g = true;
  ap_evidence : reviewEvidence e 4 s a rev (RR_EvidenceIDs (Review_Request p))
    (RO_Checks (Review_Observation p)) = true
}.

Lemma acceptable_approved au e s r closing c :
  acceptable au e s r closing c -> exists p a rev, approved e s r p a rev.
Proof.
  intros [(p & a & Hp & Ho & Hrev & Ha & _ & Hc) Hin].
  destruct Hrev as [(a' & g & base & Ha' & Hg & Hgc & _ & _ & Hl & Hid & Hlid & Hf & Hob & _ & _ & Hev)].
  assert (a' = a) as -> by congruence.
  apply nativeAcceptanceCandidate_ok in Hc as (_ & Er & El & Ef & Ecm & a2 & Ha2 & Ea & _ & b & Hb & Et).
  assert (a2 = a) as -> by congruence.
  assert (forall A (f : NativeAcceptanceInput -> A), (forall k, f ((NAC_Input c) <| NAI_OperationKey := k |>)
    = f (NAC_Input c)) -> f r = f (NAC_Input c)) as Hr by (intros A f Hk; by rewrite <- Hin, Hk).
  exists p, a, (Review_Revision p). split; try done.
  - split; [done |]. by rewrite (Hr _ NAI_AttemptID).
  - exists b. by rewrite (Hr _ NAI_TaskID).
  - rewrite (Hr _ NAI_RevisionID), (Hr _ NAI_LeaseID), (Hr _ NAI_ExpectedFence), (Hr _ NAI_Commit) by done.
    by split_and!; congruence.
  - by exists g.
Qed.

(** ** Properties *)

(** C11: A task is retired only on a standing review, and once: under a new key
    [BeginNativeAcceptance] succeeds only if an approving, granted and evidenced
    review of the attempt's last revision holds at both looks and the task had no
    terminal; from schema 15 on also only with an unconsumed decision of the
    owner's current, allowing policy, which it consumes.  Afterwards the terminal
    is durable and every session is withdrawn from the task. *)
Theorem begin_retires au e owner r id prepare s rec s' :
  acceptance_inv s -> mget (acceptances s) (NAI_OperationKey r) = None ->
  beginNativeAcceptance au e owner r id prepare s = Ok (rec, s') ->
  (exists p a rev, approved e s r p a rev) /\ (exists p a rev, approved (later 1002 1 e) s r p a rev)
  /\ mget (terminals s) (NAI_TaskID r) = None
  /\ (15 <= Version s -> exists d c, mget (decisions s) id = Some d /\ NPD_Input d = r
        /\ mget (policies s) (NAI_TaskID r) = Some (NPD_Policy d)
        /\ NP_Allow (NPD_Policy d) = true /\ NP_Stopped (NPD_Policy d) = false
        /\ now e 3000 < NP_ExpiresAt (NPD_Policy d)
        /\ mget (consumptions s) id = None /\ mget (consumptions s') id = Some c
        /\ NPC_OperationKey c = NAI_OperationKey r)
  /\ mget (terminals s') (NAI_TaskID r) = Some rec /\ mget (acceptances s') (NAI_OperationKey r) = Some rec
  /\ NAR_State rec = "closing"%string
  /\ forall session, workerTaskWithdrawn s' session (NAI_TaskID r) = true.
Proof.
  intros Hinv Hno H. apply beginNativeAcceptance_ok in H as (_ & _ & _ & _ & Hcase); [| done].
  destruct Hcase as [(_ & Hold & _) | (_ & Hnt & [c1 H1] & [c2 H2] & [_ _ Hst _] & _ & s1 & Hcon & Hput)];
    [congruence |].
  apply put_acceptance_ok in Hput as (ts & ops & Hts & Hops & ->).
  assert (mget ts (NAI_TaskID r) = Some rec) as Hterm by by eapply mget_mset_eq.
  split_and!; try done.
  - by eapply acceptable_approved.
  - by eapply acceptable_approved.
  - intros Hv. destruct Hcon as [? _ | d cs os _ Hd Hi _ [u Hu] Hnone _ Hcs _ ->]; [lia |].
    apply nativePolicyCurrent_ok in Hu as (p & Hp & -> & ? & ? & ? & _). rewrite Hi in Hp.
    pose proof (mget_mset_eq _ _ _ _ Hcs) as Hnew.
    match type of Hnew with _ = Some ?c => exists d, c end. by split_and!.
  - by eapply mget_mset_eq.
  - intros session. apply workerTaskWithdrawn_true. by eapply withdrawn_terminal.
Qed.

(** C12: The canonical task is closed in order and at most once per continuation:
    whether or not the run commits, [closeTask] is called at most once, with the
    durable closing record of the request, after the task was found open twice,
    while the review still stood for that closing acceptance and, from schema 15
    on, the decision the acceptance consumed was still current. *)
Theorem continue_closes au e owner r inspect closeTask s calls x :
  ContinueNativeAcceptance au e owner r inspect closeTask s = (calls, x) ->
  calls = []
  \/ exists rec f g, calls = [rec] /\ inspect = Some f /\ closeTask = Some g
     /\ mget (acceptances s) (NAI_OperationKey r) = Some rec
     /\ mget (terminals s) (NAI_TaskID r) = Some rec /\ NAR_State rec = "closing"%string
     /\ f 0%nat rec = Ok false /\ f 1%nat rec = Ok false
     /\ (exists p a rev, approved e s r p a rev)
     /\ (15 <= Version s -> exists d, nativePolicyForOperation s (NAI_OperationKey r) = Some d
           /\ NPD_Input d = r /\ exists u, nativePolicyCurrent s d (now e 2000) = Ok u).
Proof.
  unfold ContinueNativeAcceptance. intros H.
  apply pure_bind_calls in H as [-> | (? & _ & H)]; [by left |].
  apply pure_bind_calls in H as [-> | (rec & Hrec%continued_record_ok & H)]; [by left |].
  apply pure_bind_calls in H as [-> | (f & Hf%must_ok & H)]; [by left |].
  apply pure_bind_calls in H as [-> | (g & Hg%must_ok & H)]; [by left |].
  apply pure_bind_calls in H as [-> | (closed & H0 & H)]; [by left |].
  destruct (String.eqb_spec (NAR_State rec) "closed"); [left; by injection H |].
  apply pure_bind_calls in H as [-> | (? & Hst%deny_if_ok & H)]; [by left |].
  destruct closed.
  { left. by apply logged_bind_calls in H as [(? & ? & ? & [= <- <-] & [= <- _] & ->) | (? & [= <- _])]. }
  assert (exists y, (pure (may_close au e s r rec f);; close_canonical f g rec) = (calls, y)) as [y Hy].
  { apply logged_bind_calls in H as [(c1 & ? & c2 & -> & [= <- _] & ->) | (? & ->)]; [| by eexists].
    rewrite app_nil_r. by eexists. }
  apply pure_bind_calls in Hy as [-> | (u & Hmay%may_close_ok & Hy)]; [by left |]. right.
  injection Hy as <- _. destruct Hmay as ([c Hc] & ? & _ & Hp). destruct Hrec as (? & ? & _). bool_facts.
  exists rec, f, g. split_and!; try done.
  - by eapply acceptable_approved.
  - intros Hv. destruct (Hp Hv) as (d & ? & ? & _ & ?). by exists d.
Qed.

Lemma mget_not_nil {V} (m : gomap V) k v : mget m k = Some v -> is_nil m = false.
Proof. by destruct m. Qed.

Lemma record_outcome_total e s key rec :
  (15 <= Version s -> is_nil (outcomes s) = false) ->
  exists s', record_outcome e s key rec = Ok s' /\ st_Acceptance s' = st_Acceptance s
  /\ Version s' = Version s /\ OwnerHash s' = OwnerHash s.
Proof.
  intros Hnil. unfold record_outcome. destruct (Z.ltb_spec (Version s) 15); [by exists s |].
  destruct (nativePolicyForOperation s key) as [d |]; [| by exists s].
  edestruct (mset_total (outcomes s) key) as [os ->]; [by apply Hnil |]. by eexists.
Qed.

(** Finishing fails nowhere. *)
Lemma finish_total e s r rec :
  continued_record s r = Ok rec -> (15 <= Version s -> is_nil (outcomes s) = false) ->
  exists s', finish e s r rec
    = Ok (mkAcceptanceResult true false "closed" (NAR_CanonicalReceiptDigest rec), s')
  /\ continued_record s' r = Ok (rec <| NAR_State := "closed"%string |> <| NAR_ClosedAt := now e 2002 |>)
  /\ Version s' = Version s /\ OwnerHash s' = OwnerHash s.
Proof.
  intros (Hk & Ht & Hd)%continued_record_ok Hnil.
  destruct (record_outcome_total e s (NAI_OperationKey r) rec Hnil) as (s1 & Hs1 & Ea & Ev & Eo).
  unfold finish. rewrite Hs1. simpl.
  set (rec' := rec <| NAR_State := "closed"%string |> <| NAR_ClosedAt := now e 2002 |>).
  destruct (mset_total (terminals s1) (NAI_TaskID r) rec') as [ts Hts].
  { unfold terminals. rewrite Ea. by eapply mget_not_nil. }
  destruct (mset_total (acceptances s1) (NAI_OperationKey r) rec') as [ops Hops].
  { unfold acceptances. rewrite Ea. by eapply mget_not_nil. }
  rewrite (put_acceptance_intro _ _ _ _ _ _ Hts Hops). eexists. split; [done |]. split; [| done].
  unfold continued_record, acceptances, terminals. simpl.
  rewrite (mget_mset_eq _ _ _ _ Hts), (mget_mset_eq _ _ _ _ Hops). simpl.
  rewrite Hd, String.eqb_refl, bool_decide_eq_true_2 by done. done.
Qed.

Lemma nativeAcceptanceOwner_frame s s' owner r b :
  Version s' = Version s -> OwnerHash s' = OwnerHash s ->
  nativeAcceptanceOwner s' owner r b = nativeAcceptanceOwner s owner r b.
Proof. unfold nativeAcceptanceOwner, not_owner. by intros -> ->. Qed.

(** C13: An interrupted acceptance can always be finished: once the application
    finds the canonical task closed, a continuation of the durable closing record
    commits without closing anything again, whatever has become of the session,
    the lease, the review or the policy since; every later continuation is a
    duplicate that changes nothing. *)
Theorem continue_resumes au e owner r f g s rec :
  nativeAcceptanceOwner s owner r (a_binding au) = Ok tt ->
  continued_record s r = Ok rec -> NAR_State rec = "closing"%string -> f 0%nat rec = Ok true ->
  (15 <= Version s -> is_nil (outcomes s) = false) ->
  exists s' rec',
    ContinueNativeAcceptance au e owner r (Some f) (Some g) s
      = ([], Ok (mkAcceptanceResult true false "closed" (NAR_CanonicalReceiptDigest rec), s'))
    /\ continued_record s' r = Ok rec' /\ record_le rec rec' /\ NAR_State rec' = "closed"%string
    /\ forall e' f' g', f' 0%nat rec' = Ok true ->
         ContinueNativeAcceptance au e' owner r (Some f') (Some g') s'
           = ([], Ok (mkAcceptanceResult true true "closed" (NAR_CanonicalReceiptDigest rec), s')).
Proof.
  intros Hown Hrec Hst H0 Hnil. destruct (finish_total e s r rec Hrec Hnil) as (s' & Hfin & Hrec' & Ev & Eo).
  eexists s', _. split_and!; [| done | by right | done |].
  - unfold ContinueNativeAcceptance. rewrite Hown, Hrec. simpl. rewrite H0. simpl. rewrite Hst. simpl.
    by rewrite Hfin.
  - intros e' f' g' Hf. unfold ContinueNativeAcceptance.
    rewrite (nativeAcceptanceOwner_frame s s' owner r _ Ev Eo), Hown, Hrec'. simpl.
    by rewrite Hf.
Qed.

(** A retired task stays retired: nothing under another key touches it. *)
Lemma begin_again au e owner r id prepare s rec s' old :
  acceptance_inv s -> mget (terminals s) (NAI_TaskID r) = Some old ->
  beginNativeAcceptance au e owner r id prepare s = Ok (rec, s') ->
  s' = s /\ mget (acceptances s) (NAI_OperationKey r) = Some rec.
Proof.
  intros Hinv Ht H. apply beginNativeAcceptance_ok in H as (_ & _ & _ & _ & [(-> & ? & _) | (_ & ? & _)]);
    [done | congruence | done].
Qed.

Lemma evaluate_again au e owner r prepare s d s' old :
  mget (terminals s) (NAI_TaskID (NPE_Input r)) = Some old ->
  EvaluateNativePolicy au e owner r prepare s = Ok (d, s') -> s' = s.
Proof. intros Ht (_ & [[-> _] | (_ & ? & _)])%EvaluateNativePolicy_ok; [done | congruence]. Qed.

(** A consumed decision begins nothing more. *)
Lemma begin_consumed au e owner r id prepare s rec s' c :
  acceptance_inv s -> 15 <= Version s -> mget (consumptions s) id = Some c ->
  beginNativeAcceptance au e owner r id prepare s = Ok (rec, s') ->
  s' = s /\ mget (acceptances s) (NAI_OperationKey r) = Some rec.
Proof.
  intros Hinv Hv Hc H.
  apply beginNativeAcceptance_ok in H as (_ & _ & _ & _ & [(-> & ? & _) | (_ & _ & _ & _ & _ & _ & s1 & Hcon & _)]);
    [done | | done].
  destruct Hcon as [? _ | d cs os _ _ _ _ _ Hnone]; [lia | congruence].
Qed.
