(* ===== verification/Integration.v ===== *)
(** * Native integration

    native_integration.go: the owner's policy for fast-forwarding one local target,
    and the operation that does so.  [beginNativeIntegration] stores a pending
    record while the review, its evidence, the attempt and the policies all stand;
    [continueNativeIntegration] looks at the target again and, only right after the
    [begin] that created the record, calls the effect, whose calls are logged
    ([logged]).  A recovered pending record can be settled, never launched again. *)

From S2P Require Import Prelude GoStd Disclosure State Session Withdrawal Resources Attempts Leases Lifecycle Evidence Reviews Publication Acceptance.
#[local] Open Scope Z_scope.

Record NativeIntegrationResult := mkIntegrationResult {
  NIRes_Record : NativeIntegrationRecord; NIRes_Duplicate : bool
}.

#[export] Instance NativeIntegrationPolicy_json : ToJSON NativeIntegrationPolicy := fun p =>
  JObject [("SchemaVersion", JInt (NIP_SchemaVersion p)); ("ProjectID", JString (NIP_ProjectID p));
           ("TaskID", JString (NIP_TaskID p)); ("Revision", JString (NIP_Revision p));
           ("Repository", JString (NIP_Repository p)); ("TargetCheckout", JString (NIP_TargetCheckout p));
           ("TargetRef", JString (NIP_TargetRef p)); ("ExpectedCommit", JString (NIP_ExpectedCommit p));
           ("ExpectedTree", JString (NIP_ExpectedTree p));
           ("NativePolicyRevision", JString (NIP_NativePolicyRevision p)); ("Allow", JBool (NIP_Allow p));
           ("Stopped", JBool (NIP_Stopped p)); ("ExpiresAt", JTime (NIP_ExpiresAt p));
           ("ConfiguredAt", JTime (NIP_ConfiguredAt p))]%string.
#[export] Instance NativeIntegrationInput_json : ToJSON NativeIntegrationInput := fun r =>
  JObject [("OperationKey", JString (NII_OperationKey r)); ("PolicyRevision", JString (NII_PolicyRevision r));
           ("Candidate", to_json (NII_Candidate r))]%string.
#[export] Instance NativeIntegrationObservation_json : ToJSON NativeIntegrationObservation := fun o =>
  JObject [("Commit", JString (NIO_Commit o)); ("Tree", JString (NIO_Tree o)); ("Clean", JBool (NIO_Clean o));
           ("ObservedAt", JTime (NIO_ObservedAt o))]%string.
#[export] Instance NativeIntegrationRecord_json : ToJSON NativeIntegrationRecord := fun r =>
  JObject [("OperationKey", JString (NIR_OperationKey r)); ("InputDigest", JString (NIR_InputDigest r));
           ("State", JString (NIR_State r)); ("ReceiptDigest", JString (NIR_ReceiptDigest r));
           ("Input", to_json (NIR_Input r)); ("Policy", to_json (NIR_Policy r)); ("Before", to_json (NIR_Before r));
           ("Outcome", to_json (NIR_Outcome r)); ("CreatedAt", JTime (NIR_CreatedAt r));
           ("CompletedAt", JTime (NIR_CompletedAt r))]%string.

(** ** The owner's policy *)

Definition integrationOwner (s : state) (owner : string) : bool := (18 <=? Version s) && negb (not_owner s owner).

Definition integration_history s := NativeIntegrationHistory (st_Integration s).
Definition integration_key (task revision : string) : string := (task ++ ":" ++ revision)%string.

Definition put_integration_policy (s : state) (p : NativeIntegrationPolicy) : res state :=
  h ← mset (integration_history s) (integration_key (NIP_TaskID p) (NIP_Revision p)) p;
  m ← mset (integration_policies s) (NIP_TaskID p) p;
  Ok (s <| st_Integration := (st_Integration s) <| NativeIntegrationHistory := h |>
                                               <| NativeIntegrationPolicies := m |> |>).

Definition ConfigureNativeIntegration (e : Env) (owner : string) (p : NativeIntegrationPolicy)
    : tx NativeIntegrationPolicy := fun s =>
  deny_if (negb (integrationOwner s owner) || negb (NIP_SchemaVersion p =? 1) || negb (validID (NIP_ProjectID p))
           || negb (validID (NIP_TaskID p)) || negb (validID (NIP_Revision p)) || (NIP_Repository p =? "")%string
           || (NIP_TargetCheckout p =? "")%string || (NIP_TargetRef p =? "")%string
           || (NIP_ExpectedCommit p =? "")%string || (NIP_ExpectedTree p =? "")%string
           || negb (validID (NIP_NativePolicyRevision p)) || negb (NIP_ConfiguredAt p =? 0)
           || negb (now e 0 <? NIP_ExpiresAt p));;
  b ← must (mget (Tasks s) (NIP_TaskID p));
  deny_if (negb (TB_ProjectID b =? NIP_ProjectID p)%string || negb (TB_Repository b =? NIP_Repository p)%string);;
  match mget (integration_history s) (integration_key (NIP_TaskID p) (NIP_Revision p)) with
  | Some old => deny_if (negb (bool_decide (old <| NIP_ConfiguredAt := 0 |> = p)));; Ok (old, s)
  | None =>
    let p := p <| NIP_ConfiguredAt := now e 1 |> in
    s' ← put_integration_policy s p;
    Ok (p, s')
  end.

(** ** What must stand when the target is touched *)

Definition candidate_task (rec : NativeIntegrationRecord) : string := NAI_TaskID (NII_Candidate (NIR_Input rec)).

(** The owner's two policies at the instant [t]. *)
Definition integrationPolicyCurrent (s : state) (rec : NativeIntegrationRecord) (t : time) : res unit :=
  p ← must (mget (integration_policies s) (candidate_task rec));
  n ← must (mget (policies s) (candidate_task rec));
  deny_if (negb (bool_decide (p = NIR_Policy rec)) || negb (NIP_Allow p) || NIP_Stopped p || negb (t <? NIP_ExpiresAt p)
           || negb (NP_ProjectID n =? NIP_ProjectID p)%string
           || negb (NP_Revision n =? NIP_NativePolicyRevision p)%string || negb (NP_Allow n) || NP_Stopped n
           || negb (t <? NP_ExpiresAt n)).

(** Every piece of evidence the review names is younger than [configured]. *)
Definition evidence_since (s : state) (ids : list string) (configured : time) : bool :=
  forallb (fun id => match mget (st_Evidence s) id with
                     | Some ev => configured <? Ev_RecordedAt ev
                     | None => false
                     end) ids.

(** The review, its grant, its worker and its evidence, of a policy configured at
    [configured]; the clock readings start at [i]. *)
Definition producers_current (e : Env) (i : nat) (s : state) (a : Attempt) (p : Review) (configured : time) : bool :=
  let req := Review_Request p in
  match mget (ReviewGrants s) (RR_GrantID req) with
  | Some g => reviewGrantCurrent e i s (Review_IssuerSession p) a g
  | None => false
  end
  && is_ok (reviewWorkerExcept e (2 + i) s a req "")
  && reviewEvidence e (4 + i) s a (Review_Revision p) (RR_EvidenceIDs req) (RO_Checks (Review_Observation p))
  && evidence_since s (RR_EvidenceIDs req) configured.

Definition integrationFinalCurrent (e : Env) (i : nat) (s : state) (rec : NativeIntegrationRecord) : res unit :=
  deny_if (negb (is_ok (integrationPolicyCurrent s rec (now e i))));;
  let input := NII_Candidate (NIR_Input rec) in
  review ← must (mget (Reviews s) (NAI_ReviewID input));
  deny_if (negb (RR_Outcome (Review_Request review) =? "approve")%string
           || negb (NIP_ConfiguredAt (NIR_Policy rec) <? Review_CreatedAt review));;
  a ← reviewAttempt s (NAI_AttemptID input);
  deny_if (negb (Attempt_ProjectID a =? NIP_ProjectID (NIR_Policy rec))%string
           || negb (at_task a =? NIP_TaskID (NIR_Policy rec))%string);;
  rev ← currentRevision s a (NAI_RevisionID input) (NAI_LeaseID input) (NAI_ExpectedFence input);
  deny_if (negb (bool_decide (rev = Review_Revision review)));;
  deny_if (negb (producers_current e (S i) s a review (NIP_ConfiguredAt (NIR_Policy rec)))).

Definition integrationCurrent (au : Authority) (e : Env) (s : state) (rec : NativeIntegrationRecord) : res unit :=
  deny_if (negb (is_ok (integrationPolicyCurrent s rec (now e 0))));;
  acceptanceCurrent au (later 1 0 e) s (NII_Candidate (NIR_Input rec)) "";;
  integrationFinalCurrent e 2000 s rec.

(** ** The operation *)

Definition integration_input_digest (r : NativeIntegrationInput) : string := identity "native-integration-input" "" r.
(** The digest of a record, itself left out. *)
Definition integration_receipt (rec : NativeIntegrationRecord) : string :=
  identity "native-integration-receipt" "" (rec <| NIR_ReceiptDigest := ""%string |>).

Definition integrationDone (rec : NativeIntegrationRecord) (obs : NativeIntegrationObservation) : bool :=
  let c := NII_Candidate (NIR_Input rec) in
  NIO_Clean obs && (NIO_Commit obs =? NAI_Commit c)%string && (NIO_Tree obs =? NAI_Tree c)%string
  && negb (NIO_ObservedAt obs =? 0).

Definition validNativeIntegrationOutcome (rec : NativeIntegrationRecord) : bool :=
  let p := NIR_Policy rec in
  let c := NII_Candidate (NIR_Input rec) in
  (NIP_TaskID p =? NAI_TaskID c)%string && (NIP_ProjectID p =? NAI_ProjectID c)%string
  && (NIP_Repository p =? NAI_Repository c)%string && (NIP_Revision p =? NII_PolicyRevision (NIR_Input rec))%string
  && (NIO_Commit (NIR_Before rec) =? NIP_ExpectedCommit p)%string
  && (NIO_Tree (NIR_Before rec) =? NIP_ExpectedTree p)%string && NIO_Clean (NIR_Before rec)
  && ((NIR_State rec =? "integrated")%string && (NIR_OperationKey rec =? NII_OperationKey (NIR_Input rec))%string
      && (NIR_InputDigest rec =? integration_input_digest (NIR_Input rec))%string
      && integrationDone rec (NIR_Outcome rec) && negb (NIR_CompletedAt rec =? 0))
  && (NIR_ReceiptDigest rec =? integration_receipt rec)%string.

(** The [k]-th look at the target, and the effect; the latter may consult the
    final check as often as it likes. *)
Abbreviation git_inspection := (nat -> NativeIntegrationRecord -> res NativeIntegrationObservation).
Abbreviation git_effect := (NativeIntegrationRecord -> (nat -> res unit) -> res NativeIntegrationObservation).

Definition put_integration (s : state) (key : string) (rec : NativeIntegrationRecord) : res state :=
  m ← mset (integrations s) key rec;
  Ok (s <| st_Integration := (st_Integration s) <| NativeIntegrationOperations := m |> |>).

(** Why another operation excludes one for [task] under the policy [p]. *)
Definition integration_conflict (task : string) (p : NativeIntegrationPolicy) (other : NativeIntegrationRecord)
    : option error :=
  if (candidate_task other =? task)%string && (NIP_Revision (NIR_Policy other) =? NIP_Revision p)%string
  then Some ErrDenied
  else if negb (NIR_State other =? "integrated")%string
          && (NIP_Repository (NIR_Policy other) =? NIP_Repository p)%string
          && (NIP_TargetRef (NIR_Policy other) =? NIP_TargetRef p)%string
  then Some ErrReconcile
  else None.
Definition refuse (o : option error) : res unit := match o with Some err => Err err | None => Ok tt end.

Definition zero_integration_observation : NativeIntegrationObservation := mkIntegrationObservation "" "" false 0.

(** The record, and whether this call created it. *)
Definition beginNativeIntegration (au : Authority) (e : Env) (owner : string) (r : NativeIntegrationInput)
    (inspect : option git_inspection) : tx (NativeIntegrationRecord * bool) := fun s =>
  let c := NII_Candidate r in
  deny_if (negb (integrationOwner s owner) || negb (validID (NII_OperationKey r)) || negb (validID (NII_PolicyRevision r))
           || negb (is_ok (nativeAcceptanceOwner s owner c (a_binding au))));;
  inspect ← must inspect;
  let digest := integration_input_digest r in
  match mget (integrations s) (NII_OperationKey r) with
  | Some old =>
    deny_if (negb (NIR_InputDigest old =? digest)%string || negb (bool_decide (NIR_Input old = r))
             || ((NIR_State old =? "integrated")%string && negb (validNativeIntegrationOutcome old)));;
    Ok ((old, false), s)
  | None =>
    p ← must (mget (integration_policies s) (NAI_TaskID c));
    deny_if (negb (NIP_Revision p =? NII_PolicyRevision r)%string || negb (NIP_ProjectID p =? NAI_ProjectID c)%string
             || negb (NIP_Repository p =? NAI_Repository c)%string);;
    refuse (first_some (integration_conflict (NAI_TaskID c) p) (mvals (integrations s)));;
    let out := mkIntegrationRecord (NII_OperationKey r) digest "pending" "" r p zero_integration_observation
                 zero_integration_observation (now e 0) 0 in
    integrationCurrent au (later 1 0 e) s out;;
    before ← inspect 0%nat out;
    deny_if (negb (NIO_Clean before) || negb (NIO_Commit before =? NIP_ExpectedCommit p)%string
             || negb (NIO_Tree before =? NIP_ExpectedTree p)%string || (NIO_Commit before =? NAI_Commit c)%string
             || (NIO_ObservedAt before =? 0));;
    integrationFinalCurrent e 4000 s out;;
    let out := out <| NIR_Before := before |> in
    s' ← put_integration s (NII_OperationKey r) out;
    Ok ((out, true), s')
  end.

(** The record a continuation works on. *)
Definition stored_integration (s : state) (owner : string) (r : NativeIntegrationInput) : res NativeIntegrationRecord :=
  rec ← must (mget (integrations s) (NII_OperationKey r));
  deny_if (negb (integrationOwner s owner) || negb (bool_decide (NIR_Input rec = r))
           || negb (NIR_InputDigest rec =? integration_input_digest r)%string);;
  Ok rec.

(** What is checked between the look at the target and the effect. *)
Definition may_integrate (au : Authority) (e : Env) (s : state) (rec : NativeIntegrationRecord)
    (obs : NativeIntegrationObservation) (fresh : bool) (effect : option git_effect) : res git_effect :=
  fail_if ErrReconcile (negb fresh);;
  effect ← match effect with Some f => Ok f | None => Err ErrReconcile end;
  fail_if ErrReconcile (negb (NIO_Clean obs) || negb (NIO_Commit obs =? NIO_Commit (NIR_Before rec))%string
                        || negb (NIO_Tree obs =? NIO_Tree (NIR_Before rec))%string);;
  integrationCurrent au e s rec;;
  Ok effect.

(** The call of the effect; whatever goes wrong leaves the record pending. *)
Definition launch (e : Env) (s : state) (rec : NativeIntegrationRecord) (effect : git_effect)
    : logged NativeIntegrationRecord NativeIntegrationObservation :=
  ([rec],
   match effect rec (fun j => integrationFinalCurrent e (4000 + 1000 * j) s rec) with
   | Ok obs => fail_if ErrReconcile (negb (integrationDone rec obs));; Ok obs
   | Err _ => Err ErrReconcile
   end).

Definition settle_integration (e : Env) (s : state) (key : string) (rec : NativeIntegrationRecord)
    (obs : NativeIntegrationObservation) (fresh : bool) : res (NativeIntegrationResult * state) :=
  let rec := rec <| NIR_State := "integrated"%string |> <| NIR_Outcome := obs |> <| NIR_CompletedAt := now e 0 |> in
  let rec := rec <| NIR_ReceiptDigest := identity "native-integration-receipt" "" rec |> in
  s' ← put_integration s key rec;
  Ok (mkIntegrationResult rec (negb fresh), s').

(** The effect may consult the clock without bound, so the reading of
    [CompletedAt] is numbered before its readings. *)
Definition continueNativeIntegration (au : Authority) (e : Env) (owner : string) (r : NativeIntegrationInput)
    (inspect : option git_inspection) (effect : option git_effect) (fresh : bool) (s : state)
    : logged NativeIntegrationRecord (NativeIntegrationResult * state) :=
  rec ← pure (stored_integration s owner r);
  inspect ← pure (must inspect);
  if (NIR_State rec =? "integrated")%string then
    pure (deny_if (negb (validNativeIntegrationOutcome rec));; Ok (mkIntegrationResult rec true, s))
  else
    pure (fail_if ErrReconcile (negb (NIR_State rec =? "pending")%string));;
    obs ← pure (inspect 0%nat rec);
    obs ← (if integrationDone rec obs then mret obs
           else effect ← pure (may_integrate au (later 1 0 e) s rec obs fresh effect); launch e s rec effect);
    pure (settle_integration (later 3900 0 e) s (NII_OperationKey r) rec obs fresh).

(** The two transactions of one call; [between] is what other operations commit
    in the meantime.  The freshness of the first is the permit of the second. *)
Definition ApplyNativeIntegration (au : Authority) (e e' : Env) (owner : string) (r : NativeIntegrationInput)
    (inspect : option git_inspection) (effect : option git_effect) (between : state -> state) (s : state)
    : logged NativeIntegrationRecord (NativeIntegrationResult * state) :=
  match beginNativeIntegration au e owner r inspect s with
  | Err err => ([], Err err)
  | Ok ((_, fresh), s') =>
    continueNativeIntegration au e' owner r ((fun f k => f (S k)) <$> inspect) effect fresh (between s')
  end.

Definition ReconcileNativeIntegration (au : Authority) (e : Env) (owner : string) (r : NativeIntegrationInput)
    (inspect : option git_inspection) (s : state) : logged NativeIntegrationRecord (NativeIntegrationResult * state) :=
  continueNativeIntegration au e owner r inspect None false s.

Definition ReadNativeIntegration (owner key : string) (s : state) : res NativeIntegrationRecord :=
  deny_if (negb (integrationOwner s owner));;
  v ← must (mget (integrations s) key);
  deny_if (negb (NIR_OperationKey v =? key)%string || negb (NII_OperationKey (NIR_Input v) =? key)%string
           || negb (NIR_InputDigest v =? integration_input_digest (NIR_Input v))%string
           || ((NIR_State v =? "integrated")%string && negb (validNativeIntegrationOutcome v)));;
  Ok v.

Definition ReadNativeIntegrationPolicy (owner task : string) (s : state) : res NativeIntegrationPolicy :=
  deny_if (negb (integrationOwner s owner));;
  must (mget (integration_policies s) task).

#[global] Arguments integrationPolicyCurrent : simpl never.
#[global] Arguments integrationFinalCurrent : simpl never.
#[global] Arguments integrationCurrent : simpl never.
#[global] Arguments validNativeIntegrationOutcome : simpl never.
#[global] Arguments integration_input_digest : simpl never.
#[global] Arguments integration_receipt : simpl never.
#[global] Arguments may_integrate : simpl never.
#[global] Arguments stored_integration : simpl never.

(** ** What the table of operations keeps *)

(** The record is of its key, of its input and of a policy the owner configured
    for that input, and was created on the clean expected target. *)
Record integration_bound (s : state) (k : string) (rec : NativeIntegrationRecord) : Prop := {
  ib_key : NIR_OperationKey rec = k /\ NII_OperationKey (NIR_Input rec) = k;
  ib_digest : NIR_InputDigest rec = integration_input_digest (NIR_Input rec);
  ib_policy : NIP_TaskID (NIR_Policy rec) = candidate_task rec
    /\ NIP_ProjectID (NIR_Policy rec) = NAI_ProjectID (NII_Candidate (NIR_Input rec))
    /\ NIP_Repository (NIR_Policy rec) = NAI_Repository (NII_Candidate (NIR_Input rec))
    /\ NIP_Revision (NIR_Policy rec) = NII_PolicyRevision (NIR_Input rec);
  ib_configured : mget (integration_history s) (integration_key (candidate_task rec) (NIP_Revision (NIR_Policy rec)))
    = Some (NIR_Policy rec);
  ib_before : NIO_Clean (NIR_Before rec) = true /\ NIO_Commit (NIR_Before rec) = NIP_ExpectedCommit (NIR_Policy rec)
    /\ NIO_Tree (NIR_Before rec) = NIP_ExpectedTree (NIR_Policy rec);
  ib_state : NIR_State rec = "pending"%string /\ NIR_ReceiptDigest rec = ""%string
    \/ NIR_State rec = "integrated"%string /\ integrationDone rec (NIR_Outcome rec) = true
       /\ NIR_ReceiptDigest rec = integration_receipt rec
}.
Record integration_inv (s : state) : Prop := {
  ii_policies : forall task p, mget (integration_policies s) task = Some p ->
    NIP_TaskID p = task /\ mget (integration_history s) (integration_key task (NIP_Revision p)) = Some p;
  ii_bound : forall k rec, mget (integrations s) k = Some rec -> integration_bound s k rec;
  ii_once : forall k1 k2 r1 r2, mget (integrations s) k1 = Some r1 -> mget (integrations s) k2 = Some r2 ->
    candidate_task r1 = candidate_task r2 -> NIP_Revision (NIR_Policy r1) = NIP_Revision (NIR_Policy r2) -> k1 = k2;
  ii_target : forall k1 k2 r1 r2, mget (integrations s) k1 = Some r1 -> mget (integrations s) k2 = Some r2 ->
    NIR_State r1 = "pending"%string -> NIR_State r2 = "pending"%string ->
    NIP_Repository (NIR_Policy r1) = NIP_Repository (NIR_Policy r2) ->
    NIP_TargetRef (NIR_Policy r1) = NIP_TargetRef (NIR_Policy r2) -> k1 = k2
}.

(** A record stays, or is settled once. *)
Definition integration_record_le (rec rec' : NativeIntegrationRecord) : Prop :=
  rec' = rec
  \/ NIR_State rec = "pending"%string /\ NIR_State rec' = "integrated"%string
     /\ NIR_OperationKey rec' = NIR_OperationKey rec /\ NIR_InputDigest rec' = NIR_InputDigest rec
     /\ NIR_Input rec' = NIR_Input rec /\ NIR_Policy rec' = NIR_Policy rec /\ NIR_Before rec' = NIR_Before rec
     /\ NIR_CreatedAt rec' = NIR_CreatedAt rec.
Record integration_le (s s' : state) : Prop := {
  il_history : forall k p, mget (integration_history s) k = Some p -> mget (integration_history s') k = Some p;
  il_records : forall k rec, mget (integrations s) k = Some rec ->
    exists rec', mget (integrations s') k = Some rec' /\ integration_record_le rec rec'
}.

#[export] Instance integration_record_le_preorder : PreOrder integration_record_le.
Proof.
  split; [by left |]. intros a b c [-> |] [-> |]; [by left | by right | by right |]. right. naive_solver congruence.
Qed.
#[export] Instance integration_le_preorder : PreOrder integration_le.
Proof.
  split.
  - intros s. split; [done |]. intros k rec H. by exists rec.
  - intros a b c [h1 r1] [h2 r2]. split; [eauto |]. intros k rec (rec1 & H1 & L1)%r1.
    destruct (r2 _ _ H1) as (rec2 & H2 & L2). exists rec2. split; [done | by etrans].
Qed.

(** Both depend on the three maps only. *)
Record integration_agree (s s' : state) : Prop := {
  ia_policies : forall k, mget (integration_policies s') k = mget (integration_policies s) k;
  ia_history : forall k, mget (integration_history s') k = mget (integration_history s) k;
  ia_records : forall k, mget (integrations s') k = mget (integrations s) k
}.
Lemma integration_agree_inv s s' : integration_agree s s' -> integration_inv s -> integration_inv s'.
Proof.
  intros [Ep Eh Er] [Hp Hb Ho Ht]. split.
  - intros task p. rewrite Ep, Eh. apply Hp.
  - intros k rec. rewrite Er. intros []%Hb. split; try done. by rewrite Eh.
  - intros k1 k2 r1 r2. rewrite !Er. apply Ho.
  - intros k1 k2 r1 r2. rewrite !Er. apply Ht.
Qed.
Lemma integration_agree_le s s' : integration_agree s s' -> integration_le s s'.
Proof. intros [Ep Eh Er]. split; intros k x; rewrite ?Eh, ?Er; [done |]. intros H. by exists x. Qed.
Lemma integration_same_agree s s' : st_Integration s' = st_Integration s -> integration_agree s s'.
Proof. intros E. by split; intros k; unfold integration_policies, integration_history, integrations; rewrite E. Qed.

(** ** The operations keep it *)

Lemma integrationOwner_ok s owner : integrationOwner s owner = true <-> 18 <= Version s /\ not_owner s owner = false.
Proof. unfold integrationOwner. rewrite andb_true_iff, Z.leb_le, negb_true_iff. done. Qed.

Lemma put_integration_policy_inv_le s p s' :
  put_integration_policy s p = Ok s' ->
  mget (integration_history s) (integration_key (NIP_TaskID p) (NIP_Revision p)) = None ->
  integration_inv s -> integration_inv s' /\ integration_le s s'.
Proof.
  unfold put_integration_policy. intros H Hn [Hp Hb Ho Ht]. apply bind_ok in H as (h & Hh & H).
  apply bind_ok in H as (m & Hm & [= <-]).
  set (s' := s <| st_Integration := _ |>).
  assert (forall k, mget (integration_history s') k = _) as Eh by exact (fun k => mget_mset _ _ _ _ k Hh).
  assert (forall k, mget (integration_policies s') k = _) as Ep by exact (fun k => mget_mset _ _ _ _ k Hm).
  assert (forall k q, mget (integration_history s) k = Some q -> mget (integration_history s') k = Some q) as Hold.
  { intros k q. rewrite Eh. case_decide; [congruence | done]. }
  split; [split |].
  - intros task q. rewrite Ep. case_decide as E; [intros [= <-]; subst task; split; [done |]; rewrite Eh; by rewrite decide_True |].
    intros [? ?]%Hp. auto.
  - intros k rec []%Hb. split; auto.
  - apply Ho.
  - apply Ht.
  - split; [done |]. intros k rec Hk. by exists rec.
Qed.

Lemma ConfigureNativeIntegration_ok e owner p s out s' :
  ConfigureNativeIntegration e owner p s = Ok (out, s') ->
  integrationOwner s owner = true
  /\ (mget (integration_history s) (integration_key (NIP_TaskID p) (NIP_Revision p)) = Some out /\ s' = s
      \/ mget (integration_history s) (integration_key (NIP_TaskID p) (NIP_Revision p)) = None
         /\ out = p <| NIP_ConfiguredAt := now e 1 |> /\ put_integration_policy s out = Ok s').
Proof.
  unfold ConfigureNativeIntegration. intros H. apply bind_ok in H as (? & Ho%deny_if_ok & H). do 2 apply bind_ok in H as (? & _ & H).
  bool_facts. split; [done |]. destruct (mget _ _) as [old |] eqn:E.
  - apply bind_ok in H as (? & _ & [= <- <-]). by left.
  - apply bind_ok in H as (s1 & Hs & [= <- <-]). by right.
Qed.

Lemma ConfigureNativeIntegration_inv_le e owner p s out s' :
  ConfigureNativeIntegration e owner p s = Ok (out, s') -> integration_inv s -> integration_inv s' /\ integration_le s s'.
Proof.
  intros (_ & [[_ ->] | (Hn & -> & Hs)])%ConfigureNativeIntegration_ok Hi; [done |]. by eapply put_integration_policy_inv_le.
Qed.

(** What a new record stands on. *)
Record integration_begun (au : Authority) (e : Env) (s : state) (r : NativeIntegrationInput)
    (f : git_inspection) (out : NativeIntegrationRecord) : Prop := {
  bg_new : mget (integrations s) (NII_OperationKey r) = None;
  bg_policy : mget (integration_policies s) (NAI_TaskID (NII_Candidate r)) = Some (NIR_Policy out);
  bg_matches : NIP_Revision (NIR_Policy out) = NII_PolicyRevision r
    /\ NIP_ProjectID (NIR_Policy out) = NAI_ProjectID (NII_Candidate r)
    /\ NIP_Repository (NIR_Policy out) = NAI_Repository (NII_Candidate r);
  bg_alone : forall k other, mget (integrations s) k = Some other ->
    integration_conflict (NAI_TaskID (NII_Candidate r)) (NIR_Policy out) other = None;
  bg_record : out = mkIntegrationRecord (NII_OperationKey r) (integration_input_digest r) "pending" "" r (NIR_Policy out)
    (NIR_Before out) zero_integration_observation (now e 0) 0;
  bg_before : NIO_Clean (NIR_Before out) = true /\ NIO_Commit (NIR_Before out) = NIP_ExpectedCommit (NIR_Policy out)
    /\ NIO_Tree (NIR_Before out) = NIP_ExpectedTree (NIR_Policy out)
    /\ NIO_Commit (NIR_Before out) <> NAI_Commit (NII_Candidate r);
  bg_current : integrationCurrent au (later 1 0 e) s (out <| NIR_Before := zero_integration_observation |>) = Ok tt;
  bg_seen : f 0%nat (out <| NIR_Before := zero_integration_observation |>) = Ok (NIR_Before out);
  bg_final : integrationFinalCurrent e 4000 s (out <| NIR_Before := zero_integration_observation |>) = Ok tt
}.

Lemma beginNativeIntegration_ok au e owner r inspect s out fresh s' :
  beginNativeIntegration au e owner r inspect s = Ok ((out, fresh), s') ->
  (18 <= Version s /\ not_owner s owner = false) /\ exists f, inspect = Some f
  /\ (fresh = false /\ s' = s /\ mget (integrations s) (NII_OperationKey r) = Some out
        /\ NIR_Input out = r /\ NIR_InputDigest out = integration_input_digest r
      \/ fresh = true /\ integration_begun au e s r f out /\ put_integration s (NII_OperationKey r) out = Ok s').
Proof.
  unfold beginNativeIntegration. intros H. apply bind_ok in H as (? & Ho%deny_if_ok & H).
  apply bind_ok in H as (f & Hf%must_ok & H). bool_facts.
  split; [by apply integrationOwner_ok |]. exists f. split; [done |].
  destruct (mget _ _) as [old |] eqn:E.
  - left. apply bind_ok in H as (? & Hd%deny_if_ok & [= <- <- <-]). bool_facts. by split_and!.
  - right. apply bind_ok in H as (p & Hp%must_ok & H). apply bind_ok in H as (? & Hm%deny_if_ok & H).
    apply bind_ok in H as (? & Hc & H). apply bind_ok in H as ([] & Hcur & H).
    apply bind_ok in H as (before & Hb & H). apply bind_ok in H as (? & Hd%deny_if_ok & H).
    apply bind_ok in H as ([] & Hfin & H). apply bind_ok in H as (s1 & Hs & [= <- <- <-]). bool_facts.
    split_and!; [done | | done]. split; simpl; try done.
    intros k other Hk. destruct (first_some _ _) eqn:Ef; [done |]. rewrite first_some_None in Ef.
    apply Ef, elem_of_mvals. by exists k.
Qed.

Lemma put_integration_maps s key rec s' :
  put_integration s key rec = Ok s' ->
  (forall k, mget (integrations s') k = if decide (key = k) then Some rec else mget (integrations s) k)
  /\ (forall k, mget (integration_history s') k = mget (integration_history s) k)
  /\ (forall k, mget (integration_policies s') k = mget (integration_policies s) k).
Proof.
  unfold put_integration. intros H. apply bind_ok in H as (m & Hm & [= <-]).
  split; [exact (fun k => mget_mset _ _ _ _ k Hm) | by split].
Qed.

Lemma integration_conflict_None task p other :
  integration_conflict task p other = None ->
  (candidate_task other = task -> NIP_Revision (NIR_Policy other) <> NIP_Revision p)
  /\ (NIR_State other <> "integrated"%string -> NIP_Repository (NIR_Policy other) = NIP_Repository p ->
        NIP_TargetRef (NIR_Policy other) <> NIP_TargetRef p).
Proof.
  unfold integration_conflict. intros H.
  destruct (String.eqb_spec (candidate_task other) task), (String.eqb_spec (NIP_Revision (NIR_Policy other)) (NIP_Revision p)),
    (String.eqb_spec (NIR_State other) "integrated"),
    (String.eqb_spec (NIP_Repository (NIR_Policy other)) (NIP_Repository p)),
    (String.eqb_spec (NIP_TargetRef (NIR_Policy other)) (NIP_TargetRef p)); simpl in H; done.
Qed.

Lemma integration_begun_bound au e s r f out :
  integration_inv s -> integration_begun au e s r f out -> integration_bound s (NII_OperationKey r) out.
Proof.
  intros [Hp _ _ _] [_ Hpol (Hrev & Hproj & Hrepo) _ Hout (Hb1 & Hb2 & Hb3 & _) _ _ _].
  apply Hp in Hpol as [Htask Hh]. rewrite Hout. split; try done. all: simpl; first [done | by left].
Qed.

Lemma begin_integration_inv_le au e owner r inspect s out fresh s' :
  beginNativeIntegration au e owner r inspect s = Ok ((out, fresh), s') -> integration_inv s ->
  integration_inv s' /\ integration_le s s'.
Proof.
  intros (_ & f & _ & [(_ & -> & _) | (_ & Hbg & Hput)])%beginNativeIntegration_ok Hinv; [done |].
  pose proof (integration_begun_bound _ _ _ _ _ _ Hinv Hbg) as Hbound.
  apply put_integration_maps in Hput as (Er & Eh & Ep). destruct Hinv as [Hp Hb Ho Ht].
  destruct Hbg as [Hnew _ _ Halone Hout _ _ _ _].
  assert (candidate_task out = NAI_TaskID (NII_Candidate r)) as Etask by (by rewrite Hout).
  assert (forall k other, mget (integrations s) k = Some other ->
    (candidate_task other = candidate_task out -> NIP_Revision (NIR_Policy other) <> NIP_Revision (NIR_Policy out))
    /\ (NIR_State other = "pending"%string -> NIP_Repository (NIR_Policy other) = NIP_Repository (NIR_Policy out) ->
          NIP_TargetRef (NIR_Policy other) <> NIP_TargetRef (NIR_Policy out))) as Hc.
  { intros k other [H1 H2]%Halone%integration_conflict_None. rewrite Etask. split; [done |]. intros E. apply H2. by rewrite E. }
  split; [split |].
  - intros task p. rewrite Ep, Eh. apply Hp.
  - intros k rec. rewrite Er. case_decide; [intros [= <-]; subst k; destruct Hbound | intros []%Hb];
      split; try done; by rewrite Eh.
  - intros k1 k2 r1 r2. rewrite !Er. do 2 case_decide; subst; [done | | | apply Ho]; intros H1 H2.
    + injection H1 as <-. intros E1 E2. by destruct (Hc _ _ H2) as [[] _].
    + injection H2 as <-. intros E1 E2. by destruct (Hc _ _ H1) as [[] _].
  - intros k1 k2 r1 r2. rewrite !Er. do 2 case_decide; subst; [done | | | apply Ht]; intros H1 H2 S1 S2 E1 E2.
    + injection H1 as <-. destruct (Hc _ _ H2) as [_ []]; done.
    + injection H2 as <-. destruct (Hc _ _ H1) as [_ []]; done.
  - split; intros k x Hk; [by rewrite Eh |]. exists x. rewrite Er. split; [| by left].
    rewrite decide_False; [done |]. intros <-. congruence.
Qed.

(** Settling a pending record touches nothing the invariant compares. *)
Lemma put_integration_settled s key rec rec' s' :
  put_integration s key rec' = Ok s' -> mget (integrations s) key = Some rec -> integration_record_le rec rec' ->
  integration_bound s key rec' -> integration_inv s -> integration_inv s' /\ integration_le s s'.
Proof.
  intros (Er & Eh & Ep)%put_integration_maps Hrec Hle Hbound [Hp Hb Ho Ht].
  assert (forall k x, mget (integrations s') k = Some x -> exists y, mget (integrations s) k = Some y /\ integration_record_le y x) as Hback.
  { intros k x. rewrite Er. case_decide; [intros [= <-]; subst k; by exists rec | intros Hk; by exists x]. }
  assert (forall x y, integration_record_le x y -> candidate_task y = candidate_task x /\ NIR_Policy y = NIR_Policy x
    /\ (NIR_State y = "pending"%string -> NIR_State x = "pending"%string)) as Hfix.
  { unfold candidate_task. intros x y [-> |]; [done |]. naive_solver congruence. }
  split; [split |].
  - intros task p. rewrite Ep, Eh. apply Hp.
  - intros k x. rewrite Er. case_decide; [intros [= <-]; subst k; destruct Hbound | intros []%Hb];
      split; try done; by rewrite Eh.
  - intros k1 k2 r1 r2 (y1 & H1 & (E1 & F1 & _)%Hfix)%Hback (y2 & H2 & (E2 & F2 & _)%Hfix)%Hback.
    rewrite E1, E2, F1, F2. by apply Ho.
  - intros k1 k2 r1 r2 (y1 & H1 & (_ & F1 & G1)%Hfix)%Hback (y2 & H2 & (_ & F2 & G2)%Hfix)%Hback.
    rewrite F1, F2. eauto.
  - split; intros k x Hk; [by rewrite Eh |]. rewrite Er. case_decide; [subst k | by exists x].
    rewrite Hrec in Hk. injection Hk as <-. by exists rec'.
Qed.

(** ** Continuations *)

Lemma stored_integration_ok s owner r rec :
  stored_integration s owner r = Ok rec ->
  mget (integrations s) (NII_OperationKey r) = Some rec /\ (18 <= Version s /\ not_owner s owner = false)
  /\ NIR_Input rec = r /\ NIR_InputDigest rec = integration_input_digest r.
Proof.
  unfold stored_integration. intros H. apply bind_ok in H as (x & Hx%must_ok & H).
  apply bind_ok in H as (? & Hd%deny_if_ok & [= <-]). bool_facts. split; [done |]. split; [by apply integrationOwner_ok | done].
Qed.

(** The record once settled. *)
Definition settled_record (t : time) (rec : NativeIntegrationRecord) (obs : NativeIntegrationObservation) : NativeIntegrationRecord :=
  let rec := rec <| NIR_State := "integrated"%string |> <| NIR_Outcome := obs |> <| NIR_CompletedAt := t |> in
  rec <| NIR_ReceiptDigest := identity "native-integration-receipt" "" rec |>.

(** The ways a continuation commits. *)
Inductive integration_continuation (e : Env) (s : state) (r : NativeIntegrationInput) (rec : NativeIntegrationRecord)
    (f : git_inspection) (fresh : bool) : list NativeIntegrationRecord -> NativeIntegrationResult -> state -> Prop :=
  | ic_again : NIR_State rec = "integrated"%string -> validNativeIntegrationOutcome rec = true ->
      integration_continuation e s r rec f fresh [] (mkIntegrationResult rec true) s
  | ic_settled calls obs s' : NIR_State rec = "pending"%string -> integrationDone rec obs = true ->
      (calls = [] /\ f 0%nat rec = Ok obs \/ calls = [rec] /\ fresh = true) ->
      put_integration s (NII_OperationKey r) (settled_record (now e 3900) rec obs) = Ok s' ->
      integration_continuation e s r rec f fresh calls
        (mkIntegrationResult (settled_record (now e 3900) rec obs) (negb fresh)) s'.

Lemma may_integrate_ok au e s rec obs fresh effect g :
  may_integrate au e s rec obs fresh effect = Ok g ->
  fresh = true /\ effect = Some g /\ NIO_Clean obs = true /\ NIO_Commit obs = NIO_Commit (NIR_Before rec)
  /\ NIO_Tree obs = NIO_Tree (NIR_Before rec) /\ integrationCurrent au e s rec = Ok tt.
Proof.
  unfold may_integrate. intros H. apply bind_ok in H as (? & Hf%fail_if_ok & H). apply bind_ok in H as (f & Hg & H).
  apply bind_ok in H as (? & Ho%fail_if_ok & H). apply bind_ok in H as ([] & Hc & [= <-]). destruct effect; [| done].
  injection Hg as <-. bool_facts. by split_and!.
Qed.

Lemma continueNativeIntegration_ok au e owner r inspect effect fresh s calls x s' :
  continueNativeIntegration au e owner r inspect effect fresh s = (calls, Ok (x, s')) ->
  exists rec f, stored_integration s owner r = Ok rec /\ inspect = Some f /\ integration_continuation e s r rec f fresh calls x s'.
Proof.
  unfold continueNativeIntegration. intros H.
  apply logged_bind_inv in H as (? & rec & ? & [-> Hrec]%pure_inv & H & ->).
  apply logged_bind_inv in H as (? & f & ? & [-> Hf%must_ok]%pure_inv & H & ->).
  exists rec, f. split_and!; [done.. |]. simpl. destruct (String.eqb_spec (NIR_State rec) "integrated").
  - apply pure_inv in H as [-> H]. apply bind_ok in H as (? & Hv%deny_if_ok & [= <- <-]). bool_facts. by apply ic_again.
  - apply logged_bind_inv in H as (? & ? & ? & [-> Hst%fail_if_ok]%pure_inv & H & ->).
    apply logged_bind_inv in H as (? & obs & ? & [-> Hobs]%pure_inv & H & ->). bool_facts.
    apply logged_bind_inv in H as (c1 & out & c2 & Hout & [-> Hset]%pure_inv & ->). rewrite app_nil_r. simpl.
    unfold settle_integration in Hset. apply bind_ok in Hset as (s1 & Hput & [= <- <-]).
    apply (ic_settled _ _ _ _ _ _ c1 out); try done.
    + destruct (integrationDone rec obs) eqn:Ed; [by injection Hout as _ <- |].
      apply logged_bind_inv in Hout as (? & g & ? & [-> _]%pure_inv & Hl & ->). unfold launch in Hl. injection Hl as _ Hl.
      destruct (g rec _); [| done]. apply bind_ok in Hl as (? & Hd%fail_if_ok & [= <-]). by bool_facts.
    + destruct (integrationDone rec obs) eqn:Ed; [left; by injection Hout as <- <- |]. right.
      apply logged_bind_inv in Hout as (? & g & ? & [-> (Hfr & _)%may_integrate_ok]%pure_inv & Hl & ->).
      unfold launch in Hl. by injection Hl as <- _.
Qed.

Lemma settled_record_le t rec obs : NIR_State rec = "pending"%string -> integration_record_le rec (settled_record t rec obs).
Proof. intros. by right. Qed.

Lemma settled_record_bound s key t rec obs :
  integration_bound s key rec -> NIR_State rec = "pending"%string -> integrationDone rec obs = true ->
  integration_bound s key (settled_record t rec obs).
Proof.
  intros [? ? ? ? ? [[_ Hd] | [E _]]] Hst Hdone; [| congruence]. split; try done. right. split_and!; [done | done |].
  destruct rec; simpl in *; by subst.
Qed.

Lemma continue_integration_inv_le au e owner r inspect effect fresh s calls x s' :
  continueNativeIntegration au e owner r inspect effect fresh s = (calls, Ok (x, s')) -> integration_inv s ->
  integration_inv s' /\ integration_le s s'.
Proof.
  intros (rec & f & (Hrec & _)%stored_integration_ok & _ & Hc)%continueNativeIntegration_ok Hinv.
  destruct Hc as [| calls obs s' Hst Hdone _ Hput]; [done |].
  eapply put_integration_settled; [exact Hput | exact Hrec | by apply settled_record_le | | done].
  apply settled_record_bound; [by apply Hinv | done | done].
Qed.

(** ** Properties *)

(** Both policies of the owner stand for the record at [t]. *)
Record integration_allowed (s : state) (rec : NativeIntegrationRecord) (t : time) : Prop := {
  al_policy : mget (integration_policies s) (candidate_task rec) = Some (NIR_Policy rec);
  al_target : NIP_Allow (NIR_Policy rec) = true /\ NIP_Stopped (NIR_Policy rec) = false /\ t < NIP_ExpiresAt (NIR_Policy rec);
  al_native : exists n, mget (policies s) (candidate_task rec) = Some n
    /\ NP_Revision n = NIP_NativePolicyRevision (NIR_Policy rec) /\ NP_Allow n = true /\ NP_Stopped n = false
    /\ t < NP_ExpiresAt n
}.
Lemma integrationPolicyCurrent_ok s rec t u : integrationPolicyCurrent s rec t = Ok u -> integration_allowed s rec t.
Proof.
  unfold integrationPolicyCurrent. intros H. apply bind_ok in H as (p & Hp%must_ok & H).
  apply bind_ok in H as (n & Hn%must_ok & Hd%deny_if_ok). bool_facts. subst p. split; try done.
  by exists n.
Qed.

(** The review and its evidence are younger than the owner's policy. *)
Definition produced_since (s : state) (review : string) (configured : time) : Prop :=
  exists p, mget (Reviews s) review = Some p /\ configured < Review_CreatedAt p
  /\ forall id, id ∈ RR_EvidenceIDs (Review_Request p) ->
       exists ev, mget (st_Evidence s) id = Some ev /\ configured < Ev_RecordedAt ev.

Lemma evidence_since_ok s ids configured : evidence_since s ids configured = true ->
  forall id, id ∈ ids -> exists ev, mget (st_Evidence s) id = Some ev /\ configured < Ev_RecordedAt ev.
Proof.
  unfold evidence_since. rewrite forallb_elem. intros H id Hid. specialize (H id Hid).
  destruct (mget (st_Evidence s) id) as [ev |]; [| done]. exists ev. bool_facts. done.
Qed.

Lemma producers_current_since e i s a p configured : producers_current e i s a p configured = true ->
  evidence_since s (RR_EvidenceIDs (Review_Request p)) configured = true.
Proof. unfold producers_current. by intros [_ H]%andb_true_iff. Qed.

Lemma integrationFinalCurrent_ok e i s rec u :
  integrationFinalCurrent e i s rec = Ok u ->
  integration_allowed s rec (now e i)
  /\ produced_since s (NAI_ReviewID (NII_Candidate (NIR_Input rec))) (NIP_ConfiguredAt (NIR_Policy rec)).
Proof.
  unfold integrationFinalCurrent. intros H. apply bind_ok in H as (? & Hp%deny_if_ok & H).
  apply bind_ok in H as (p & Hr%must_ok & H). apply bind_ok in H as (? & Hd%deny_if_ok & H).
  apply bind_ok in H as (a & _ & H). do 2 apply bind_ok in H as (? & _ & H). apply bind_ok in H as (? & _ & H).
  apply deny_if_ok in H. bool_facts. apply is_ok_true in Hp as [v Hp%integrationPolicyCurrent_ok]. split; [done |].
  exists p. split_and!; [done | done |]. by eapply evidence_since_ok, producers_current_since.
Qed.

Lemma integrationCurrent_ok au e s rec u :
  integrationCurrent au e s rec = Ok u ->
  integration_allowed s rec (now e 0) /\ integration_allowed s rec (now e 2000)
  /\ (exists p a rev, approved (later 1 0 e) s (NII_Candidate (NIR_Input rec)) p a rev)
  /\ produced_since s (NAI_ReviewID (NII_Candidate (NIR_Input rec))) (NIP_ConfiguredAt (NIR_Policy rec)).
Proof.
  unfold integrationCurrent. intros H. apply bind_ok in H as (? & Hp%deny_if_ok & H).
  apply bind_ok in H as (c & Hc%acceptanceCurrent_ok & [Ha Hs]%integrationFinalCurrent_ok). bool_facts.
  apply is_ok_true in Hp as [v Hp%integrationPolicyCurrent_ok]. split_and!; try done. by eapply acceptable_approved.
Qed.

(** Whether or not a continuation commits, it calls the effect at most once, and
    then with the permit of a fresh record, with the stored pending record, while
    the target is as it was and everything it stands on still holds. *)
Lemma continueNativeIntegration_calls au e owner r inspect effect fresh s calls x :
  continueNativeIntegration au e owner r inspect effect fresh s = (calls, x) ->
  calls = []
  \/ exists rec f g obs, calls = [rec] /\ fresh = true /\ inspect = Some f /\ effect = Some g
     /\ mget (integrations s) (NII_OperationKey r) = Some rec /\ NIR_Input rec = r /\ NIR_State rec = "pending"%string
     /\ f 0%nat rec = Ok obs /\ NIO_Clean obs = true /\ NIO_Commit obs = NIO_Commit (NIR_Before rec)
     /\ NIO_Tree obs = NIO_Tree (NIR_Before rec)
     /\ integration_allowed s rec (now e 1) /\ integration_allowed s rec (now e 2001)
     /\ (exists p a rev, approved (later 1 0 (later 1 0 e)) s (NII_Candidate r) p a rev)
     /\ produced_since s (NAI_ReviewID (NII_Candidate r)) (NIP_ConfiguredAt (NIR_Policy rec)).
Proof.
  unfold continueNativeIntegration. intros H.
  apply pure_bind_calls in H as [-> | (rec & Hrec%stored_integration_ok & H)]; [by left |].
  apply pure_bind_calls in H as [-> | (f & Hf%must_ok & H)]; [by left |].
  destruct (NIR_State rec =? "integrated")%string; [left; by injection H |].
  apply pure_bind_calls in H as [-> | (? & Hst%fail_if_ok & H)]; [by left |].
  apply pure_bind_calls in H as [-> | (obs & Hobs & H)]; [by left |].
  destruct (integrationDone rec obs).
  { left. by apply logged_bind_calls in H as [(? & ? & ? & [= <- <-] & [= <- _] & ->) | (? & [= <- _])]. }
  assert (exists y, (effect ← pure (may_integrate au (later 1 0 e) s rec obs fresh effect); launch e s rec effect) = (calls, y)) as [y Hy].
  { apply logged_bind_calls in H as [(c1 & ? & c2 & -> & [= <- _] & ->) | (? & ->)]; [| by eexists].
    rewrite app_nil_r. by eexists. }
  apply pure_bind_calls in Hy as [-> | (g & Hg%may_integrate_ok & Hy)]; [by left |]. right.
  injection Hy as <- _. destruct Hrec as (Hk & _ & Hin & _). destruct Hg as (-> & -> & ? & ? & ? & Hcur).
  apply integrationCurrent_ok in Hcur as (? & ? & Hap & Hsince). bool_facts. rewrite Hin in Hap, Hsince.
  exists rec, f, g, obs. by split_and!.
Qed.

Lemma continue_without_permit au e owner r inspect effect s :
  (continueNativeIntegration au e owner r inspect effect false s).1 = [].
Proof.
  destruct (continueNativeIntegration au e owner r inspect effect false s) as [calls x] eqn:E.
  by apply continueNativeIntegration_calls in E as [-> | (? & ? & ? & ? & _ & [=] & _)].
Qed.

(** A call under a key that has a record, pending or not, only recovers it. *)
Lemma apply_recovers au e e' owner r inspect effect between s :
  mget (integrations s) (NII_OperationKey r) <> None ->
  (ApplyNativeIntegration au e e' owner r inspect effect between s).1 = [].
Proof.
  intros Hk. unfold ApplyNativeIntegration.
  destruct (beginNativeIntegration au e owner r inspect s) as [[[rec fresh] s1] |] eqn:E; [| done].
  apply beginNativeIntegration_ok in E as (_ & f & _ & [(-> & _) | (_ & [? _ _ _ _ _ _ _ _] & _)]); [| done].
  apply continue_without_permit.
Qed.

(** C14: Git is touched once and only in order.  If a call of
    [ApplyNativeIntegration] runs the effect, whether or not it commits, then the
    operation key had no record before, the begin of this very call created the
    pending record the effect gets, the target was seen again clean at the commit
    and tree the owner expected, both policies of the owner allow it, and an
    approving review, with its evidence younger than the policy, still stands for
    the candidate, whatever other operations committed in the meantime; the effect
    runs once, and no later call under the key, whoever makes it, runs it again.
    [ReconcileNativeIntegration] never runs it. *)
Theorem integration_launches au e e' owner r inspect effect between s calls x :
  ApplyNativeIntegration au e e' owner r inspect effect between s = (calls, x) ->
  (forall s1, integration_le s1 (between s1)) ->
  (calls = []
   \/ exists rec f g obs s1, calls = [rec] /\ inspect = Some f /\ effect = Some g
      /\ mget (integrations s) (NII_OperationKey r) = None
      /\ beginNativeIntegration au e owner r inspect s = Ok ((rec, true), s1)
      /\ integration_begun au e s r f rec
      /\ let s2 := between s1 in
         mget (integrations s2) (NII_OperationKey r) = Some rec
         /\ f 1%nat rec = Ok obs /\ NIO_Clean obs = true /\ NIO_Commit obs = NIP_ExpectedCommit (NIR_Policy rec)
         /\ NIO_Tree obs = NIP_ExpectedTree (NIR_Policy rec)
         /\ integration_allowed s2 rec (now e' 1) /\ integration_allowed s2 rec (now e' 2001)
         /\ (exists p a rev, approved (later 1 0 (later 1 0 e')) s2 (NII_Candidate r) p a rev)
         /\ produced_since s2 (NAI_ReviewID (NII_Candidate r)) (NIP_ConfiguredAt (NIR_Policy rec))
         /\ forall s3 au3 e3 e3' owner3 r3 inspect3 effect3 between3,
              integration_le s2 s3 -> NII_OperationKey r3 = NII_OperationKey r ->
              (ApplyNativeIntegration au3 e3 e3' owner3 r3 inspect3 effect3 between3 s3).1 = [])
  /\ (ReconcileNativeIntegration au e' owner r inspect s).1 = [].
Proof.
  intros H Hbetween. split; [| apply continue_without_permit]. unfold ApplyNativeIntegration in H.
  destruct (beginNativeIntegration au e owner r inspect s) as [[[rec fresh] s1] |] eqn:E; [| left; by injection H].
  apply continueNativeIntegration_calls in H as [-> | (now_ & f' & g & obs & -> & -> & Hf' & -> & Hk & Hin & Hst & Hobs & Hc & Hcm & Htr & H)];
    [by left | right].
  pose proof E as E0. apply beginNativeIntegration_ok in E0 as (_ & f & -> & [[[=] _] | (_ & Hbg & Hput)]).
  injection Hf' as <-. apply put_integration_maps in Hput as [Er _].
  assert (now_ = rec) as ->.
  { destruct (Hbetween s1) as [_ Hle]. destruct (Hle (NII_OperationKey r) rec) as (y & Hy & Hrec); [by rewrite Er, decide_True |].
    rewrite Hk in Hy. injection Hy as <-. destruct Hrec as [-> | Hrec]; [done |]. naive_solver congruence. }
  destruct (bg_before _ _ _ _ _ _ Hbg) as (_ & E1 & E2 & _). rewrite E1 in Hcm. rewrite E2 in Htr.
  destruct H as (H1 & H2 & H3 & H4).
  exists rec, f, g, obs, s1. cbv zeta. split_and!; try done; [apply Hbg |].
  intros s3 au3 e3 e3' owner3 r3 inspect3 effect3 between3 [_ Hle] Hkey. apply apply_recovers.
  destruct (Hle _ _ Hk) as (y & Hy & _). by rewrite Hkey, Hy.
Qed.

Lemma stored_integration_intro s owner r rec :
  mget (integrations s) (NII_OperationKey r) = Some rec -> integrationOwner s owner = true ->
  NIR_Input rec = r -> NIR_InputDigest rec = integration_input_digest r -> stored_integration s owner r = Ok rec.
Proof.
  intros Hk Ho Hin Hd. unfold stored_integration. rewrite Hk. simpl. by rewrite Ho, Hin, Hd, bool_decide_eq_true_2, String.eqb_refl.
Qed.

Lemma Read_integration_intro s owner key rec :
  integrationOwner s owner = true -> mget (integrations s) key = Some rec -> NIR_OperationKey rec = key ->
  NII_OperationKey (NIR_Input rec) = key -> NIR_InputDigest rec = integration_input_digest (NIR_Input rec) ->
  validNativeIntegrationOutcome rec = true -> ReadNativeIntegration owner key s = Ok rec.
Proof.
  intros Ho Hk E1 E2 E3 Hv. unfold ReadNativeIntegration. rewrite Ho, Hk. simpl.
  by rewrite E1, E2, E3, Hv, !String.eqb_refl, andb_false_r.
Qed.

(** C15: an interrupted integration can always be settled: once the target is found at
    the candidate, a reconciliation of the durable pending record commits without
    touching Git, whatever has become of the policies, the review or the session
    since, and the record it leaves is a valid receipt; every later continuation
    is a duplicate that changes nothing and launches nothing. *)
Theorem integration_resumes au e owner r f s rec obs :
  integration_inv s -> stored_integration s owner r = Ok rec -> NIR_State rec = "pending"%string ->
  f 0%nat rec = Ok obs -> integrationDone rec obs = true -> now e 3900 <> 0 ->
  exists s' rec', ReconcileNativeIntegration au e owner r (Some f) s = ([], Ok (mkIntegrationResult rec' true, s'))
    /\ integration_record_le rec rec' /\ validNativeIntegrationOutcome rec' = true
    /\ ReadNativeIntegration owner (NII_OperationKey r) s' = Ok rec'
    /\ forall e' f' effect fresh,
         continueNativeIntegration au e' owner r (Some f') effect fresh s' = ([], Ok (mkIntegrationResult rec' true, s')).
Proof.
  intros Hinv Hrec Hst Hf Hdone Hnow. pose proof Hrec as Hrec0.
  apply stored_integration_ok in Hrec0 as (Hk & [Hver Hown] & Hin & Hdg).
  set (rec' := settled_record (now e 3900) rec obs).
  destruct (mset_total (integrations s) (NII_OperationKey r) rec') as [m Hm]; [by eapply mget_not_nil |].
  set (s' := s <| st_Integration := (st_Integration s) <| NativeIntegrationOperations := m |> |>).
  pose proof (ii_bound _ Hinv _ _ Hk) as Hb.
  pose proof (settled_record_bound _ _ (now e 3900) _ _ Hb Hst Hdone) as Hb'.
  assert (validNativeIntegrationOutcome rec' = true) as Hvalid.
  { destruct Hb' as [[E1 E2] E3 (E4 & E5 & E6 & E7) _ (E8 & E9 & E10) [[E _] | (E11 & E12 & E13)]]; [discriminate E |].
    unfold validNativeIntegrationOutcome. fold rec' in E1, E2, E3, E4, E5, E6, E7, E8, E9, E10, E11, E12, E13.
    unfold candidate_task in E4. rewrite E4, E5, E6, E7, E8, E9, E10, E11, E12, E3, E1, <- E2, <- E13, !String.eqb_refl.
    rewrite (proj2 (Z.eqb_neq _ _) Hnow : (NIR_CompletedAt rec' =? 0) = false). done. }
  assert (mget (integrations s') (NII_OperationKey r) = Some rec') as Hk' by (by eapply mget_mset_eq).
  exists s', rec'. split_and!; [| by apply settled_record_le | done | |].
  - unfold ReconcileNativeIntegration, continueNativeIntegration. rewrite Hrec. simpl. rewrite Hst. simpl. rewrite Hf. simpl.
    rewrite Hdone. simpl.
    assert (settle_integration (later 3900 0 e) s (NII_OperationKey r) rec obs false = Ok (mkIntegrationResult rec' true, s')) as ->; [| done].
    transitivity (s' ← put_integration s (NII_OperationKey r) rec'; Ok (mkIntegrationResult rec' true, s')); [done |].
    unfold put_integration. by rewrite Hm.
  - destruct Hb' as [[? ?] ? _ _ _ _]. apply Read_integration_intro; try done. by apply integrationOwner_ok.
  - intros e' f' effect fresh. unfold continueNativeIntegration.
    rewrite (stored_integration_intro _ _ _ _ Hk' (proj2 (integrationOwner_ok s' owner) (conj Hver Hown)) Hin Hdg).
    simpl. by rewrite Hvalid.
Qed.
