(* ===== verification/External.v ===== *)
(** * Native external delivery

    native_external.go: the owner's policy for pushing a task's branch and opening
    its pull request, the two operations that do so, their observation afterwards
    and the gate a required delivery puts before the close of the task.  As for
    the local integration, the effect is called only right after the transaction
    that created its pending record, and its calls are logged; every later call
    observes.  Records are sealed by a digest over everything they say. *)

From S2P Require Import Prelude GoStd Prci Disclosure State Session Withdrawal Resources Attempts Leases Lifecycle Evidence Reviews Publication Encodings Acceptance Integration.
#[local] Open Scope Z_scope.

Record NativeExternalResult := mkExternalResult { NERes_Record : NativeExternalRecord; NERes_Duplicate : bool }.

(** ** JSON *)

#[export] Instance prci_Evidence_json : ToJSON prci.Evidence := fun x =>
  JObject ([("source", JString (prci.Ev_Source x)); ("message", JString (prci.Ev_Message x))]%string
    ++ omit_empty "url" (prci.Ev_URL x)).
#[export] Instance prci_PullRequest_json : ToJSON prci.PullRequest := fun x =>
  JObject ([("number", JInt (prci.PR_Number x)); ("url", JString (prci.PR_URL x)); ("state", JString (prci.PR_State x));
            ("head", JString (prci.PR_Head x)); ("head_oid", JString (prci.PR_HeadOID x))]%string
    ++ omit_empty "merge_state" (prci.PR_MergeState x) ++ omit_empty "review_decision" (prci.PR_ReviewDecision x)).
#[export] Instance prci_Result_json : ToJSON prci.Result := fun x =>
  JObject ([("code", JString (prci.Res_Code x)); ("summary", JString (prci.Res_Summary x));
            ("retryable", JBool (prci.Res_Retryable x)); ("next", JString (prci.Res_Next x));
            ("evidence", JOption (fun l => JArray (map to_json l)) (prci.Res_Evidence x))]%string
    ++ omit_none "pull_request" (prci.Res_PullRequest x) ++ omit_nil "superseded_prs" (prci.Res_SupersededPRs x)
    ++ omit_empty "queue_threshold" (prci.Res_QueueThreshold x)).

#[export] Instance NativeExternalPolicy_json : ToJSON NativeExternalPolicy := fun p =>
  JObject [("SchemaVersion", JInt (NEP_SchemaVersion p)); ("ProjectID", JString (NEP_ProjectID p));
           ("TaskID", JString (NEP_TaskID p)); ("Revision", JString (NEP_Revision p));
           ("NativePolicyRevision", JString (NEP_NativePolicyRevision p)); ("Repository", JString (NEP_Repository p));
           ("Checkout", JString (NEP_Checkout p)); ("GitHubRepository", JString (NEP_GitHubRepository p));
           ("SourceBranch", JString (NEP_SourceBranch p)); ("TargetBranch", JString (NEP_TargetBranch p));
           ("Commit", JString (NEP_Commit p)); ("Tree", JString (NEP_Tree p));
           ("ExpectedTrunk", JString (NEP_ExpectedTrunk p)); ("ExpectedRemoteHead", JString (NEP_ExpectedRemoteHead p));
           ("Generation", JInt (NEP_Generation p)); ("SliceGeneration", JInt (NEP_SliceGeneration p));
           ("RequiredChecks", JStrings (NEP_RequiredChecks p)); ("AllowPush", JBool (NEP_AllowPush p));
           ("AllowCreatePR", JBool (NEP_AllowCreatePR p)); ("Required", JBool (NEP_Required p));
           ("Stopped", JBool (NEP_Stopped p)); ("ExpiresAt", JTime (NEP_ExpiresAt p));
           ("ConfiguredAt", JTime (NEP_ConfiguredAt p))]%string.
#[export] Instance NativeExternalInput_json : ToJSON NativeExternalInput := fun r =>
  JObject [("OperationKey", JString (NEI_OperationKey r)); ("PolicyRevision", JString (NEI_PolicyRevision r));
           ("Action", JString (NEI_Action r)); ("Candidate", to_json (NEI_Candidate r))]%string.
#[export] Instance NativeExternalObservation_json : ToJSON NativeExternalObservation := fun o =>
  JObject [("Generation", JInt (NEO_Generation o)); ("SliceGeneration", JInt (NEO_SliceGeneration o));
           ("Branch", JString (NEO_Branch o)); ("Commit", JString (NEO_Commit o)); ("Tree", JString (NEO_Tree o));
           ("Trunk", JString (NEO_Trunk o)); ("RemoteHead", JString (NEO_RemoteHead o)); ("Clean", JBool (NEO_Clean o));
           ("PullRequestNumber", JInt (NEO_PullRequestNumber o)); ("PullRequestURL", JString (NEO_PullRequestURL o));
           ("PullRequestState", JString (NEO_PullRequestState o)); ("MergeCommit", JString (NEO_MergeCommit o));
           ("ChecksSatisfied", JBool (NEO_ChecksSatisfied o)); ("APIComplete", JBool (NEO_APIComplete o));
           ("Diagnosis", to_json (NEO_Diagnosis o)); ("ObservedAt", JTime (NEO_ObservedAt o))]%string.
#[export] Instance NativeExternalRecord_json : ToJSON NativeExternalRecord := fun r =>
  JObject [("OperationKey", JString (NER_OperationKey r)); ("InputDigest", JString (NER_InputDigest r));
           ("State", JString (NER_State r)); ("ReceiptDigest", JString (NER_ReceiptDigest r));
           ("Input", to_json (NER_Input r)); ("Policy", to_json (NER_Policy r)); ("Before", to_json (NER_Before r));
           ("Outcome", to_json (NER_Outcome r)); ("CreatedAt", JTime (NER_CreatedAt r));
           ("UpdatedAt", JTime (NER_UpdatedAt r))]%string.

(** ** The owner's policy *)

(** A Git object name: [strings.Trim(v, "0123456789abcdef") == ""] leaves nothing
    exactly when every byte is such a digit. *)
Definition hex_digits : list ascii := list_ascii_of_string "0123456789abcdef".
Definition externalOID (v : string) : bool :=
  ((len v =? 40) || (len v =? 64)) && forallb (fun c => existsb (Ascii.eqb c) hex_digits) (list_ascii_of_string v).

Definition externalOwner (s : state) (owner : string) : bool := (19 <=? Version s) && negb (not_owner s owner).

Definition external_history s := NativeExternalHistory (st_External s).

Definition put_external_policy (s : state) (p : NativeExternalPolicy) : res state :=
  h ← mset (external_history s) (integration_key (NEP_TaskID p) (NEP_Revision p)) p;
  m ← mset (external_policies s) (NEP_TaskID p) p;
  Ok (s <| st_External := (st_External s) <| NativeExternalHistory := h |> <| NativeExternalPolicies := m |> |>).

Definition external_policy_valid (p : NativeExternalPolicy) : bool :=
  (NEP_SchemaVersion p =? 1) && validID (NEP_ProjectID p) && validID (NEP_TaskID p) && validID (NEP_Revision p)
  && validID (NEP_NativePolicyRevision p) && negb (NEP_Repository p =? "")%string && negb (NEP_Checkout p =? "")%string
  && negb (NEP_GitHubRepository p =? "")%string && negb (NEP_SourceBranch p =? "")%string
  && negb (NEP_TargetBranch p =? "")%string && externalOID (NEP_Commit p) && externalOID (NEP_Tree p)
  && externalOID (NEP_ExpectedTrunk p)
  && ((NEP_ExpectedRemoteHead p =? "")%string || externalOID (NEP_ExpectedRemoteHead p))
  && (0 <=? NEP_Generation p) && (0 <=? NEP_SliceGeneration p) && negb (bool_decide (NEP_RequiredChecks p = []))
  && (NEP_ConfiguredAt p =? 0).
(** Each required check has a name, and names no other. *)
Fixpoint check_names (seen l : list string) : res unit :=
  match l with
  | [] => Ok tt
  | c :: l => deny_if ((c =? "")%string || bool_decide (c ∈ seen));; check_names (c :: seen) l
  end.

Definition ConfigureNativeExternal (e : Env) (owner : string) (p : NativeExternalPolicy)
    : tx NativeExternalPolicy := fun s =>
  deny_if (negb (externalOwner s owner) || negb (external_policy_valid p) || negb (now e 0 <? NEP_ExpiresAt p));;
  check_names [] (NEP_RequiredChecks p);;
  b ← must (mget (Tasks s) (NEP_TaskID p));
  deny_if (negb (TB_ProjectID b =? NEP_ProjectID p)%string || negb (TB_Repository b =? NEP_Repository p)%string);;
  match mget (external_history s) (integration_key (NEP_TaskID p) (NEP_Revision p)) with
  | Some old => deny_if (negb (bool_decide (old <| NEP_ConfiguredAt := 0 |> = p)));; Ok (old, s)
  | None =>
    let p := p <| NEP_ConfiguredAt := now e 1 |> in
    s' ← put_external_policy s p;
    Ok (p, s')
  end.

(** ** What must stand when the remote is touched *)

Definition externalBound (r : NativeExternalRecord) (o : NativeExternalObservation) : bool :=
  let p := NER_Policy r in
  (NEO_Generation o =? NEP_Generation p) && (NEO_SliceGeneration o =? NEP_SliceGeneration p)
  && (NEO_Branch o =? NEP_SourceBranch p)%string && (NEO_Commit o =? NEP_Commit p)%string
  && (NEO_Tree o =? NEP_Tree p)%string && NEO_Clean o && negb (NEO_ObservedAt o =? 0).

Definition externalInputBound (p : NativeExternalPolicy) (r : NativeExternalInput) : bool :=
  let c := NEI_Candidate r in
  (NEP_Revision p =? NEI_PolicyRevision r)%string && (NEP_ProjectID p =? NAI_ProjectID c)%string
  && (NEP_TaskID p =? NAI_TaskID c)%string && (NEP_Repository p =? NAI_Repository c)%string
  && (NEP_Commit p =? NAI_Commit c)%string && (NEP_Tree p =? NAI_Tree c)%string.

(** Its clock readings are [i] and [S i]. *)
Definition externalPolicyCurrent (e : Env) (i : nat) (s : state) (r : NativeExternalRecord) : res unit :=
  p ← must (mget (external_policies s) (NEP_TaskID (NER_Policy r)));
  n ← must (mget (policies s) (NEP_TaskID (NER_Policy r)));
  deny_if (negb (bool_decide (p = NER_Policy r)) || NEP_Stopped p || negb (now e i <? NEP_ExpiresAt p)
           || negb (NP_Revision n =? NEP_NativePolicyRevision p)%string || negb (NP_Allow n) || NP_Stopped n
           || negb (now e (S i) <? NP_ExpiresAt n)).

Definition externalFinalCurrent (e : Env) (i : nat) (s : state) (r : NativeExternalRecord) : res unit :=
  deny_if (negb (is_ok (externalPolicyCurrent e i s r)));;
  let input := NEI_Candidate (NER_Input r) in
  review ← must (mget (Reviews s) (NAI_ReviewID input));
  deny_if (negb (RR_Outcome (Review_Request review) =? "approve")%string
           || negb (RO_ChecklistDigest (Review_Observation review) =? NAI_ChecklistDigest input)%string
           || negb (RO_PolicyRevision (Review_Observation review) =? NAI_PolicyRevision input)%string
           || negb (NEP_ConfiguredAt (NER_Policy r) <? Review_CreatedAt review));;
  a ← reviewAttempt s (NAI_AttemptID input);
  deny_if (negb (Attempt_ProjectID a =? NEP_ProjectID (NER_Policy r))%string
           || negb (at_task a =? NEP_TaskID (NER_Policy r))%string);;
  rev ← currentRevision s a (NAI_RevisionID input) (NAI_LeaseID input) (NAI_ExpectedFence input);
  deny_if (negb (Commit (Rev_Observation rev) =? NAI_Commit input)%string
           || negb (Tree (Rev_Observation rev) =? NAI_Tree input)%string
           || negb (Repository (Rev_Observation rev) =? NAI_Repository input)%string
           || negb (bool_decide (rev = Review_Revision review)));;
  deny_if (negb (producers_current e (2 + i) s a review (NEP_ConfiguredAt (NER_Policy r)))).

Definition externalCurrent (au : Authority) (e : Env) (s : state) (r : NativeExternalRecord) : res unit :=
  deny_if (negb (is_ok (externalPolicyCurrent e 0 s r)));;
  acceptanceCurrent au (later 2 0 e) s (NEI_Candidate (NER_Input r)) "";;
  externalFinalCurrent e 2000 s r.

Definition externalEffectDone (r : NativeExternalRecord) (o : NativeExternalObservation) : bool :=
  externalBound r o && NEO_APIComplete o
  && if (NEI_Action (NER_Input r) =? "push")%string then (NEO_RemoteHead o =? NEP_Commit (NER_Policy r))%string
     else if (NEI_Action (NER_Input r) =? "create_pr")%string then
       (NEO_RemoteHead o =? NEP_Commit (NER_Policy r))%string && (0 <? NEO_PullRequestNumber o)
       && negb (NEO_PullRequestURL o =? "")%string
       && ((NEO_PullRequestState o =? "OPEN")%string || (NEO_PullRequestState o =? "MERGED")%string)
     else false.

(** ** The operations *)

Definition external_input_digest (r : NativeExternalInput) : string := identity "native-external-input" "" r.
Definition sealExternal (r : NativeExternalRecord) : NativeExternalRecord :=
  let r := r <| NER_ReceiptDigest := ""%string |> in
  r <| NER_ReceiptDigest := identity "native-external-receipt" "" r |>.
Definition validExternalRecord (r : NativeExternalRecord) : bool :=
  let d := NER_ReceiptDigest r in
  let r := r <| NER_ReceiptDigest := ""%string |> in
  negb (d =? "")%string && (d =? identity "native-external-receipt" "" r)%string
  && (NER_InputDigest r =? external_input_digest (NER_Input r))%string
  && (NER_OperationKey r =? NEI_OperationKey (NER_Input r))%string && externalInputBound (NER_Policy r) (NER_Input r).

(** The [k]-th look at the branch and its remote, and the effect. *)
Abbreviation remote_inspection := (nat -> NativeExternalRecord -> res NativeExternalObservation).
Abbreviation remote_effect := (NativeExternalRecord -> (nat -> res unit) -> res NativeExternalObservation).

Definition put_external (s : state) (key : string) (r : NativeExternalRecord) : res state :=
  m ← mset (externals s) key r;
  Ok (s <| st_External := (st_External s) <| NativeExternalOperations := m |> |>).

Definition external_conflict (p : NativeExternalPolicy) (action : string) (old : NativeExternalRecord) : option error :=
  if (NEP_TaskID (NER_Policy old) =? NEP_TaskID p)%string && (NEP_Revision (NER_Policy old) =? NEP_Revision p)%string
     && (NEI_Action (NER_Input old) =? action)%string
  then Some ErrReconcile
  else if (NER_State old =? "pending")%string && (NEP_GitHubRepository (NER_Policy old) =? NEP_GitHubRepository p)%string
          && (NEP_SourceBranch (NER_Policy old) =? NEP_SourceBranch p)%string
  then Some ErrReconcile
  else None.

Definition zero_diagnosis : prci.Result := prci.mkResult "" "" false "" None None [] "".
Definition zero_external_observation : NativeExternalObservation :=
  mkExternalObservation 0 0 "" "" "" "" "" false 0 "" "" "" false false zero_diagnosis 0.

(** The branch as the policy expects it before the action. *)
Definition external_expected (p : NativeExternalPolicy) (action : string) (o : NativeExternalObservation) : bool :=
  NEO_APIComplete o && (NEO_Trunk o =? NEP_ExpectedTrunk p)%string
  && negb ((action =? "push")%string && negb (NEO_RemoteHead o =? NEP_ExpectedRemoteHead p)%string)
  && negb ((action =? "create_pr")%string
           && (negb (NEO_RemoteHead o =? NEP_Commit p)%string || negb (NEO_PullRequestNumber o =? 0))).

(** The first transaction of [ApplyNativeExternal]: whether it created the record *)
Definition beginNativeExternal (au : Authority) (e : Env) (owner : string) (input : NativeExternalInput)
    (inspect : option remote_inspection) (effect : option remote_effect) : tx bool := fun s =>
  let action := NEI_Action input in
  deny_if (negb (externalOwner s owner) || negb (is_ok (must effect)) || negb (validID (NEI_OperationKey input))
           || negb (validID (NEI_PolicyRevision input))
           || (negb (action =? "push")%string && negb (action =? "create_pr")%string)
           || negb (is_ok (nativeAcceptanceOwner s owner (NEI_Candidate input) (a_binding au))));;
  inspect ← must inspect;
  match mget (externals s) (NEI_OperationKey input) with
  | Some old =>
    deny_if (negb (validExternalRecord old) || negb (bool_decide (NER_Input old = input)));;
    Ok (false, s)
  | None =>
    p ← must (mget (external_policies s) (NAI_TaskID (NEI_Candidate input)));
    deny_if (negb (externalInputBound p input) || ((action =? "push")%string && negb (NEP_AllowPush p))
             || ((action =? "create_pr")%string && negb (NEP_AllowCreatePR p)));;
    refuse (first_some (external_conflict p action) (mvals (externals s)));;
    let r := mkExternalRecord (NEI_OperationKey input) (external_input_digest input) "pending" "" input p
               zero_external_observation zero_external_observation (now e 0) 0 in
    externalCurrent au (later 1 0 e) s r;;
    obs ← inspect 0%nat r;
    deny_if (negb (externalBound r obs) || negb (external_expected p action obs));;
    deny_if (negb (is_ok (externalFinalCurrent e 4000 s r)));;
    let r := r <| NER_Before := obs |> <| NER_UpdatedAt := NER_CreatedAt r |> in
    s' ← put_external s (NEI_OperationKey input) (sealExternal r);
    Ok (true, s')
  end.

(** The record a continuation works on. *)
Definition stored_external (s : state) (owner : string) (input : NativeExternalInput) : res NativeExternalRecord :=
  r ← must (mget (externals s) (NEI_OperationKey input));
  deny_if (negb (externalOwner s owner) || negb (validExternalRecord r) || negb (bool_decide (NER_Input r = input)));;
  Ok r.

(** What is checked between the look at the remote and the effect. *)
Definition may_deliver (au : Authority) (e : Env) (s : state) (r : NativeExternalRecord) (obs : NativeExternalObservation)
    (effect : option remote_effect) : res remote_effect :=
  effect ← match effect with Some f => Ok f | None => Err ErrReconcile end;
  fail_if ErrReconcile (negb (NEO_APIComplete obs) || negb (NEO_Trunk obs =? NEO_Trunk (NER_Before r))%string
                        || negb (NEO_RemoteHead obs =? NEO_RemoteHead (NER_Before r))%string
                        || negb (NEO_PullRequestNumber obs =? NEO_PullRequestNumber (NER_Before r)));;
  externalCurrent au e s r;;
  Ok effect.

Definition deliver (e : Env) (s : state) (r : NativeExternalRecord) (effect : remote_effect)
    : logged NativeExternalRecord NativeExternalObservation :=
  ([r],
   match effect r (fun j => externalFinalCurrent e (4000 + 1000 * j) s r) with
   | Ok obs => fail_if ErrReconcile (negb (externalBound r obs));; Ok obs
   | Err _ => Err ErrReconcile
   end).

(** The record once [obs] was seen. *)
Definition observed_record (t : time) (r : NativeExternalRecord) (obs : NativeExternalObservation) : NativeExternalRecord :=
  let r := r <| NER_Outcome := obs |> <| NER_UpdatedAt := t |> in
  sealExternal (if externalEffectDone r obs then r <| NER_State := "observed"%string |> else r).

(** As for the integration, the reading of [UpdatedAt] is numbered before those of
    the effect. *)
Definition continueNativeExternal (au : Authority) (e : Env) (owner : string) (input : NativeExternalInput)
    (inspect : option remote_inspection) (effect : option remote_effect) (fresh : bool) (s : state)
    : logged NativeExternalRecord (NativeExternalResult * state) :=
  r ← pure (stored_external s owner input);
  inspect ← pure (must inspect);
  obs ← pure (inspect 0%nat r);
  pure (deny_if (negb (externalBound r obs)));;
  obs ← (if (NER_State r =? "pending")%string && negb (externalEffectDone r obs) && fresh
         then effect ← pure (may_deliver au (later 1 0 e) s r obs effect); deliver e s r effect
         else mret obs);
  pure (let r := observed_record (now e 3900) r obs in
        s' ← put_external s (NEI_OperationKey input) r; Ok (mkExternalResult r (negb fresh), s')).

(** Both transactions; [between] is what is committed in the meantime. *)
Definition ApplyNativeExternal (au : Authority) (e e' : Env) (owner : string) (input : NativeExternalInput)
    (inspect : option remote_inspection) (effect : option remote_effect) (between : state -> state) (s : state)
    : logged NativeExternalRecord (NativeExternalResult * state) :=
  match beginNativeExternal au e owner input inspect effect s with
  | Err err => ([], Err err)
  | Ok (fresh, s') =>
    continueNativeExternal au e' owner input ((fun f k => f (S k)) <$> inspect) effect fresh (between s')
  end.

Definition ReconcileNativeExternal (au : Authority) (e : Env) (owner : string) (input : NativeExternalInput)
    (inspect : option remote_inspection) (s : state) : logged NativeExternalRecord (NativeExternalResult * state) :=
  continueNativeExternal au e owner input inspect None false s.

Definition ReadNativeExternal (owner key : string) (s : state) : res NativeExternalRecord :=
  r ← must (mget (externals s) key);
  deny_if (negb (externalOwner s owner) || negb (validExternalRecord r));;
  Ok r.

Definition ReadNativeExternalPolicy (owner task : string) (s : state) : res NativeExternalPolicy :=
  deny_if (negb (externalOwner s owner));;
  must (mget (external_policies s) task).

(** ** The gate of a required delivery *)

(** Its clock readings are [i] and [S i]; [time.Since] of 30 seconds *)
Definition NativeExternalFreshness (e : Env) (i : nat) (o : NativeExternalObservation) : string :=
  if (NEO_ObservedAt o =? 0) || negb (NEO_APIComplete o) || (now e i <? NEO_ObservedAt o) then "unknown"
  else if 30 * second <? now e (S i) - NEO_ObservedAt o then "stale"
  else "fresh".

Definition zero_candidate : NativeAcceptanceInput :=
  mkAcceptanceInput 0 "" "" "" "" "" "" "" "" "" "" "" "" 0 "" "" "".
Definition zero_external_policy : NativeExternalPolicy :=
  mkExternalPolicy 0 "" "" "" "" "" "" "" "" "" "" "" "" "" 0 0 [] false false false false 0 0.
Definition zero_external_record : NativeExternalRecord :=
  mkExternalRecord "" "" "" "" (mkExternalInput "" "" "" zero_candidate) zero_external_policy zero_external_observation
    zero_external_observation 0 0.

(** A record of the task under its current policy and of the candidate. *)
Definition of_candidate (s : state) (task : string) (candidate : NativeAcceptanceInput) (r : NativeExternalRecord) : bool :=
  (NEP_TaskID (NER_Policy r) =? task)%string
  && bool_decide (NER_Policy r = default zero_external_policy (mget (external_policies s) task))
  && bool_decide (NEI_Candidate (NER_Input r) = candidate) && validExternalRecord r.
Definition newer_external (latest r : NativeExternalRecord) : bool :=
  (NER_UpdatedAt latest <? NER_UpdatedAt r)
  || ((NER_UpdatedAt r =? NER_UpdatedAt latest) && String.ltb (NER_OperationKey latest) (NER_OperationKey r)).
Definition nativeExternalLatest (s : state) (task : string) (candidate : NativeAcceptanceInput) : NativeExternalRecord :=
  fold_left (fun latest r => if of_candidate s task candidate r && newer_external latest r then r else latest)
    (mvals (externals s)) zero_external_record.

(** The code and the next step of what stands in the way, and whether nothing does *)
Definition nativeExternalGate (e : Env) (i : nat) (s : state) (task : string) (candidate : NativeAcceptanceInput)
    : string * string * bool :=
  match mget (external_policies s) task with
  | None => ("", "", true)%string
  | Some p =>
    if negb (NEP_Required p) then ("", "", true)%string
    else if NEP_Stopped p || negb (now e i <? NEP_ExpiresAt p) then
      ("external_policy_refusal", "owner restores separately configured external authority; preserve loop bounds", false)%string
    else
      let latest := nativeExternalLatest s task candidate in
      let o := NER_Outcome latest in
      let landed := (NEO_PullRequestState o =? "MERGED")%string && (NEO_MergeCommit o =? NEP_Commit p)%string
                    && (NEO_Trunk o =? NEP_Commit p)%string in
      if (NER_OperationKey latest =? "")%string || negb (externalBound latest o)
         || negb (NativeExternalFreshness e (S i) o =? "fresh")%string then
        ("external_observation_unknown",
         "owner observes the original external operation with exact generation/head/trunk; never relaunch unknown effect", false)%string
      else if negb (NEO_Trunk o =? NEP_ExpectedTrunk p)%string && negb landed then
        ("stale_pending_landing",
         "trunk advanced: repin resulting tree and obtain fresh verification/review without resetting controller counters", false)%string
      else if landed && NEO_ChecksSatisfied o then ("", "", true)%string
      else if (prci.Res_Code (NEO_Diagnosis o) =? "ready")%string then
        ("pending_external_merge", "wait for separately authorized external merge; readiness is not a merge receipt", false)%string
      else if (prci.Res_Code (NEO_Diagnosis o) =? "")%string then
        ("external_observation_unknown", "owner reconciles exact original external observation", false)%string
      else (prci.Res_Code (NEO_Diagnosis o), prci.Res_Next (NEO_Diagnosis o), false)
  end.

Definition nativeExternalCheckpointFact (e : Env) (i : nat) (s : state) (task : string) (candidate : NativeAcceptanceInput)
    : option (CheckpointFact * string) :=
  let r := nativeExternalLatest s task candidate in
  if (NER_OperationKey r =? "")%string then None
  else Some (mkCheckpointFact "external" task (NER_OperationKey r)
               (NER_State r ++ ":" ++ prci.Res_Code (NEO_Diagnosis (NER_Outcome r))) "known" (NAI_LeaseID candidate) ""
               (NativeExternalFreshness e i (NER_Outcome r)) (NAI_ExpectedFence candidate), NER_OperationKey r).

#[global] Arguments externalPolicyCurrent : simpl never.
#[global] Arguments externalFinalCurrent : simpl never.
#[global] Arguments externalCurrent : simpl never.
#[global] Arguments validExternalRecord : simpl never.
#[global] Arguments sealExternal : simpl never.
#[global] Arguments external_input_digest : simpl never.
#[global] Arguments observed_record : simpl never.
#[global] Arguments externalInputBound : simpl never.
#[global] Arguments externalBound : simpl never.
#[global] Arguments externalEffectDone : simpl never.

(** ** What the table of operations keeps *)

Record external_bound (s : state) (k : string) (r : NativeExternalRecord) : Prop := {
  eb_sealed : validExternalRecord r = true;
  eb_key : NEI_OperationKey (NER_Input r) = k;
  eb_configured : mget (external_history s) (integration_key (NEP_TaskID (NER_Policy r)) (NEP_Revision (NER_Policy r)))
    = Some (NER_Policy r);
  eb_before : externalBound r (NER_Before r) = true
    /\ external_expected (NER_Policy r) (NEI_Action (NER_Input r)) (NER_Before r) = true;
  eb_state : NER_State r = "pending"%string \/ NER_State r = "observed"%string
}.
Record external_inv (s : state) : Prop := {
  ei_policies : forall task p, mget (external_policies s) task = Some p ->
    NEP_TaskID p = task /\ mget (external_history s) (integration_key task (NEP_Revision p)) = Some p;
  ei_bound : forall k r, mget (externals s) k = Some r -> external_bound s k r;
  ei_once : forall k1 k2 r1 r2, mget (externals s) k1 = Some r1 -> mget (externals s) k2 = Some r2 ->
    NEP_TaskID (NER_Policy r1) = NEP_TaskID (NER_Policy r2) -> NEP_Revision (NER_Policy r1) = NEP_Revision (NER_Policy r2) ->
    NEI_Action (NER_Input r1) = NEI_Action (NER_Input r2) -> k1 = k2;
  ei_target : forall k1 k2 r1 r2, mget (externals s) k1 = Some r1 -> mget (externals s) k2 = Some r2 ->
    NER_State r1 = "pending"%string -> NER_State r2 = "pending"%string ->
    NEP_GitHubRepository (NER_Policy r1) = NEP_GitHubRepository (NER_Policy r2) ->
    NEP_SourceBranch (NER_Policy r1) = NEP_SourceBranch (NER_Policy r2) -> k1 = k2
}.

(** A record is only observed again; it never turns back to pending. *)
Record external_record_le (r r' : NativeExternalRecord) : Prop := {
  er_fixed : NER_OperationKey r' = NER_OperationKey r /\ NER_InputDigest r' = NER_InputDigest r
    /\ NER_Input r' = NER_Input r /\ NER_Policy r' = NER_Policy r /\ NER_Before r' = NER_Before r
    /\ NER_CreatedAt r' = NER_CreatedAt r;
  er_state : NER_State r' = NER_State r \/ NER_State r' = "observed"%string
}.
Record external_le (s s' : state) : Prop := {
  el_history : forall k p, mget (external_history s) k = Some p -> mget (external_history s') k = Some p;
  el_records : forall k r, mget (externals s) k = Some r ->
    exists r', mget (externals s') k = Some r' /\ external_record_le r r'
}.

#[export] Instance external_record_le_preorder : PreOrder external_record_le.
Proof.
  split; [intros r; split; [done | by left] |]. intros a b c [(? & ? & ? & ? & ? & ?) Hs] [(? & ? & ? & ? & ? & ?) Ht].
  split; [split_and!; congruence |]. destruct Ht as [-> | ]; [done | by right].
Qed.
#[export] Instance external_le_preorder : PreOrder external_le.
Proof.
  split.
  - intros s. split; [done |]. intros k r H. by exists r.
  - intros a b c [h1 r1] [h2 r2]. split; [eauto |]. intros k r (x & H1 & L1)%r1.
    destruct (r2 _ _ H1) as (y & H2 & L2). exists y. split; [done | by etrans].
Qed.

Record external_agree (s s' : state) : Prop := {
  ea_policies : forall k, mget (external_policies s') k = mget (external_policies s) k;
  ea_history : forall k, mget (external_history s') k = mget (external_history s) k;
  ea_records : forall k, mget (externals s') k = mget (externals s) k
}.
Lemma external_agree_inv s s' : external_agree s s' -> external_inv s -> external_inv s'.
Proof.
  intros [Ep Eh Er] [Hp Hb Ho Ht]. split.
  - intros task p. rewrite Ep, Eh. apply Hp.
  - intros k r. rewrite Er. intros []%Hb. split; try done. by rewrite Eh.
  - intros k1 k2 r1 r2. rewrite !Er. apply Ho.
  - intros k1 k2 r1 r2. rewrite !Er. apply Ht.
Qed.
Lemma external_agree_le s s' : external_agree s s' -> external_le s s'.
Proof. intros [Ep Eh Er]. split; intros k x; rewrite ?Eh, ?Er; [done |]. intros H. by exists x. Qed.
Lemma external_same_agree s s' : st_External s' = st_External s -> external_agree s s'.
Proof. intros E. by split; intros k; unfold external_policies, external_history, externals; rewrite E. Qed.

(** ** The operations keep it *)

Lemma externalOwner_ok s owner : externalOwner s owner = true <-> 19 <= Version s /\ not_owner s owner = false.
Proof. unfold externalOwner. rewrite andb_true_iff, Z.leb_le, negb_true_iff. done. Qed.

Lemma put_external_policy_inv_le s p s' :
  put_external_policy s p = Ok s' ->
  mget (external_history s) (integration_key (NEP_TaskID p) (NEP_Revision p)) = None ->
  external_inv s -> external_inv s' /\ external_le s s'.
Proof.
  unfold put_external_policy. intros H Hn [Hp Hb Ho Ht]. apply bind_ok in H as (h & Hh & H).
  apply bind_ok in H as (m & Hm & [= <-]).
  set (s' := s <| st_External := _ |>).
  assert (forall k, mget (external_history s') k = _) as Eh by exact (fun k => mget_mset _ _ _ _ k Hh).
  assert (forall k, mget (external_policies s') k = _) as Ep by exact (fun k => mget_mset _ _ _ _ k Hm).
  assert (forall k q, mget (external_history s) k = Some q -> mget (external_history s') k = Some q) as Hold.
  { intros k q. rewrite Eh. case_decide; [congruence | done]. }
  split; [split |].
  - intros task q. rewrite Ep. case_decide as E; [intros [= <-]; subst task; split; [done |]; rewrite Eh; by rewrite decide_True |].
    intros [? ?]%Hp. auto.
  - intros k r []%Hb. split; auto.
  - apply Ho.
  - apply Ht.
  - split; [done |]. intros k r Hk. by exists r.
Qed.

Lemma ConfigureNativeExternal_ok e owner p s out s' :
  ConfigureNativeExternal e owner p s = Ok (out, s') ->
  externalOwner s owner = true
  /\ (mget (external_history s) (integration_key (NEP_TaskID p) (NEP_Revision p)) = Some out /\ s' = s
      \/ mget (external_history s) (integration_key (NEP_TaskID p) (NEP_Revision p)) = None
         /\ out = p <| NEP_ConfiguredAt := now e 1 |> /\ put_external_policy s out = Ok s').
Proof.
  unfold ConfigureNativeExternal. intros H. apply bind_ok in H as (? & Ho%deny_if_ok & H). do 3 apply bind_ok in H as (? & _ & H).
  bool_facts. split; [done |]. destruct (mget (external_history s) _) as [old |] eqn:E.
  - apply bind_ok in H as (? & _ & [= <- <-]). by left.
  - apply bind_ok in H as (s1 & Hs & [= <- <-]). by right.
Qed.

Lemma ConfigureNativeExternal_inv_le e owner p s out s' :
  ConfigureNativeExternal e owner p s = Ok (out, s') -> external_inv s -> external_inv s' /\ external_le s s'.
Proof.
  intros (_ & [[_ ->] | (Hn & -> & Hs)])%ConfigureNativeExternal_ok Hi; [done |]. by eapply put_external_policy_inv_le.
Qed.

(** The seal binds what it is put on. *)
Lemma sealExternal_fields r :
  NER_OperationKey (sealExternal r) = NER_OperationKey r /\ NER_InputDigest (sealExternal r) = NER_InputDigest r
  /\ NER_State (sealExternal r) = NER_State r /\ NER_Input (sealExternal r) = NER_Input r
  /\ NER_Policy (sealExternal r) = NER_Policy r /\ NER_Before (sealExternal r) = NER_Before r
  /\ NER_Outcome (sealExternal r) = NER_Outcome r /\ NER_CreatedAt (sealExternal r) = NER_CreatedAt r
  /\ NER_UpdatedAt (sealExternal r) = NER_UpdatedAt r.
Proof. done. Qed.

Record external_fields_ok (r : NativeExternalRecord) : Prop := {
  ef_digest : NER_InputDigest r = external_input_digest (NER_Input r);
  ef_key : NER_OperationKey r = NEI_OperationKey (NER_Input r);
  ef_input : externalInputBound (NER_Policy r) (NER_Input r) = true
}.

Lemma sealExternal_valid r : external_fields_ok r -> validExternalRecord (sealExternal r) = true.
Proof.
  intros [E1 E2 E3]. unfold validExternalRecord. rewrite !andb_true_iff. split_and!.
  - apply negb_true_iff, String.eqb_neq, identity_nonempty.
  - apply String.eqb_refl.
  - by apply String.eqb_eq.
  - by apply String.eqb_eq.
  - exact E3.
Qed.

Lemma validExternalRecord_ok r :
  validExternalRecord r = true ->
  external_fields_ok r
  /\ NER_ReceiptDigest r = identity "native-external-receipt" "" (r <| NER_ReceiptDigest := ""%string |>).
Proof.
  unfold validExternalRecord. intros H. apply andb_true_iff in H as [H E]. bool_facts. by split.
Qed.

Lemma externalInputBound_task p r : externalInputBound p r = true ->
  NEP_TaskID p = NAI_TaskID (NEI_Candidate r) /\ NEP_Revision p = NEI_PolicyRevision r
  /\ NEP_Commit p = NAI_Commit (NEI_Candidate r) /\ NEP_Tree p = NAI_Tree (NEI_Candidate r).
Proof. unfold externalInputBound. intros H. bool_facts. done. Qed.

(** What a new record stands on. *)
Record external_begun (au : Authority) (e : Env) (s : state) (input : NativeExternalInput) (f : remote_inspection)
    (r : NativeExternalRecord) : Prop := {
  eg_new : mget (externals s) (NEI_OperationKey input) = None;
  eg_policy : mget (external_policies s) (NAI_TaskID (NEI_Candidate input)) = Some (NER_Policy r);
  eg_action : NEI_Action input = "push"%string /\ NEP_AllowPush (NER_Policy r) = true
    \/ NEI_Action input = "create_pr"%string /\ NEP_AllowCreatePR (NER_Policy r) = true;
  eg_alone : forall k old, mget (externals s) k = Some old -> external_conflict (NER_Policy r) (NEI_Action input) old = None;
  eg_record : r = mkExternalRecord (NEI_OperationKey input) (external_input_digest input) "pending" "" input (NER_Policy r)
    (NER_Before r) zero_external_observation (now e 0) (now e 0);
  eg_fields : external_fields_ok r;
  eg_before : externalBound r (NER_Before r) = true
    /\ external_expected (NER_Policy r) (NEI_Action input) (NER_Before r) = true;
  eg_current : exists r0, NER_Policy r0 = NER_Policy r /\ NER_Input r0 = input
    /\ externalCurrent au (later 1 0 e) s r0 = Ok tt /\ f 0%nat r0 = Ok (NER_Before r)
    /\ is_ok (externalFinalCurrent e 4000 s r0) = true
}.

Lemma beginNativeExternal_ok au e owner input inspect effect s fresh s' :
  beginNativeExternal au e owner input inspect effect s = Ok (fresh, s') ->
  (19 <= Version s /\ not_owner s owner = false) /\ exists f, inspect = Some f
  /\ (fresh = false /\ s' = s /\ (exists old, mget (externals s) (NEI_OperationKey input) = Some old)
      \/ fresh = true /\ exists r, external_begun au e s input f r
         /\ put_external s (NEI_OperationKey input) (sealExternal r) = Ok s').
Proof.
  unfold beginNativeExternal. intros H. apply bind_ok in H as (? & Ho%deny_if_ok & H).
  apply bind_ok in H as (f & Hf%must_ok & H). apply orb_false_iff in Ho as [Ho _]. apply orb_false_iff in Ho as [Ho Hact].
  bool_facts. split; [by apply externalOwner_ok |]. exists f. split; [done |].
  destruct (mget (externals s) _) as [old |] eqn:E.
  - left. apply bind_ok in H as (? & _ & [= <- <-]). split_and!; [done.. | by exists old].
  - right. apply bind_ok in H as (p & Hp%must_ok & H). apply bind_ok in H as (? & Hm%deny_if_ok & H).
    apply bind_ok in H as (? & Hc & H). apply bind_ok in H as ([] & Hcur & H).
    apply bind_ok in H as (before & Hb & H). apply bind_ok in H as (? & Hd%deny_if_ok & H).
    apply bind_ok in H as (? & Hfin%deny_if_ok & H). apply bind_ok in H as (s1 & Hs & [= <- <-]).
    apply orb_false_iff in Hm as [Hm Hpr]. apply orb_false_iff in Hm as [Hin Hpush].
    apply negb_false_iff in Hin. apply negb_false_iff in Hfin. apply orb_false_iff in Hd as [Hd1 Hd2].
    apply negb_false_iff in Hd1, Hd2. split; [done |]. eexists. split; [| exact Hs]. split; simpl; try done.
    + destruct (String.eqb_spec (NEI_Action input) "push"), (String.eqb_spec (NEI_Action input) "create_pr");
        simpl in Hact, Hpush, Hpr; bool_facts; try done; [congruence | by left | by right].
    + intros k old Hk. destruct (first_some _ _) eqn:Ef; [done |]. rewrite first_some_None in Ef.
      apply Ef, elem_of_mvals. by exists k.
    + by eexists (mkExternalRecord _ _ _ _ _ _ _ _ _ _).
Qed.

Lemma put_external_maps s key r s' :
  put_external s key r = Ok s' ->
  (forall k, mget (externals s') k = if decide (key = k) then Some r else mget (externals s) k)
  /\ (forall k, mget (external_history s') k = mget (external_history s) k)
  /\ (forall k, mget (external_policies s') k = mget (external_policies s) k).
Proof.
  unfold put_external. intros H. apply bind_ok in H as (m & Hm & [= <-]).
  split; [exact (fun k => mget_mset _ _ _ _ k Hm) | by split].
Qed.

Lemma external_conflict_None p action old :
  external_conflict p action old = None ->
  (NEP_TaskID (NER_Policy old) = NEP_TaskID p -> NEP_Revision (NER_Policy old) = NEP_Revision p ->
     NEI_Action (NER_Input old) <> action)
  /\ (NER_State old = "pending"%string -> NEP_GitHubRepository (NER_Policy old) = NEP_GitHubRepository p ->
        NEP_SourceBranch (NER_Policy old) <> NEP_SourceBranch p).
Proof.
  unfold external_conflict. intros H.
  destruct (String.eqb_spec (NEP_TaskID (NER_Policy old)) (NEP_TaskID p)),
    (String.eqb_spec (NEP_Revision (NER_Policy old)) (NEP_Revision p)), (String.eqb_spec (NEI_Action (NER_Input old)) action),
    (String.eqb_spec (NER_State old) "pending"),
    (String.eqb_spec (NEP_GitHubRepository (NER_Policy old)) (NEP_GitHubRepository p)),
    (String.eqb_spec (NEP_SourceBranch (NER_Policy old)) (NEP_SourceBranch p)); simpl in H; done.
Qed.

Lemma external_begun_bound au e s input f r :
  external_inv s -> external_begun au e s input f r -> external_bound s (NEI_OperationKey input) (sealExternal r).
Proof.
  intros Hinv [_ Hpol _ _ Hr Hfields [Hb1 Hb2] _]. apply (ei_policies _ Hinv) in Hpol as [Htask Hh].
  assert (NER_Input r = input) as Hin by (by rewrite Hr).
  destruct (sealExternal_fields r) as (_ & _ & E3 & E4 & E5 & E6 & _). split.
  - by apply sealExternal_valid.
  - by rewrite E4, Hin.
  - by rewrite E5, Htask.
  - rewrite E4, E5, E6, Hin. split; [| done]. exact Hb1.
  - left. rewrite E3. by rewrite Hr.
Qed.

Lemma begin_external_inv_le au e owner input inspect effect s fresh s' :
  beginNativeExternal au e owner input inspect effect s = Ok (fresh, s') -> external_inv s ->
  external_inv s' /\ external_le s s'.
Proof.
  intros (_ & f & _ & [(_ & -> & _) | (_ & r & Hbg & Hput)])%beginNativeExternal_ok Hinv; [done |].
  pose proof (external_begun_bound _ _ _ _ _ _ Hinv Hbg) as Hbound. destruct Hbg as [Hnew _ _ Halone Hr _ _ _].
  apply put_external_maps in Hput as (Er & Eh & Ep). destruct Hinv as [Hp Hb Ho Ht].
  set (out := sealExternal r) in *. assert (NER_Policy out = NER_Policy r /\ NER_Input out = input) as [Epol Ein].
  { split; [done |]. change (NER_Input out) with (NER_Input r). by rewrite Hr. }
  assert (forall k old, mget (externals s) k = Some old ->
    (NEP_TaskID (NER_Policy old) = NEP_TaskID (NER_Policy out) -> NEP_Revision (NER_Policy old) = NEP_Revision (NER_Policy out) ->
       NEI_Action (NER_Input old) <> NEI_Action (NER_Input out))
    /\ (NER_State old = "pending"%string -> NEP_GitHubRepository (NER_Policy old) = NEP_GitHubRepository (NER_Policy out) ->
          NEP_SourceBranch (NER_Policy old) <> NEP_SourceBranch (NER_Policy out))) as Hc.
  { intros k old Hk%Halone%external_conflict_None. by rewrite Epol, Ein. }
  clearbody out. split; [split |].
  - intros task p. rewrite Ep, Eh. apply Hp.
  - intros k x. rewrite Er. case_decide; [intros [= <-]; subst k; destruct Hbound | intros []%Hb];
      split; try done; by rewrite Eh.
  - intros k1 k2 r1 r2. rewrite !Er. do 2 case_decide; subst; [done | | | apply Ho]; intros H1 H2 E1 E2 E3.
    + injection H1 as <-. destruct (Hc _ _ H2) as [[] _]; done.
    + injection H2 as <-. destruct (Hc _ _ H1) as [[] _]; done.
  - intros k1 k2 r1 r2. rewrite !Er. do 2 case_decide; subst; [done | | | apply Ht]; intros H1 H2 S1 S2 E1 E2.
    + injection H1 as <-. destruct (Hc _ _ H2) as [_ []]; done.
    + injection H2 as <-. destruct (Hc _ _ H1) as [_ []]; done.
  - split; intros k x Hk; [by rewrite Eh |]. exists x. rewrite Er. rewrite decide_False; [done |].
    intros <-. congruence.
Qed.

(** ** Continuations *)

Lemma stored_external_ok s owner input r :
  stored_external s owner input = Ok r ->
  mget (externals s) (NEI_OperationKey input) = Some r /\ (19 <= Version s /\ not_owner s owner = false)
  /\ NER_Input r = input /\ validExternalRecord r = true.
Proof.
  unfold stored_external. intros H. apply bind_ok in H as (x & Hx%must_ok & H).
  apply bind_ok in H as (? & Hd%deny_if_ok & [= <-]). bool_facts. split; [done |]. split; [by apply externalOwner_ok | done].
Qed.

Lemma may_deliver_ok au e s r obs effect g :
  may_deliver au e s r obs effect = Ok g ->
  effect = Some g /\ NEO_APIComplete obs = true /\ NEO_Trunk obs = NEO_Trunk (NER_Before r)
  /\ NEO_RemoteHead obs = NEO_RemoteHead (NER_Before r) /\ NEO_PullRequestNumber obs = NEO_PullRequestNumber (NER_Before r)
  /\ externalCurrent au e s r = Ok tt.
Proof.
  unfold may_deliver. intros H. apply bind_ok in H as (f & Hg & H). apply bind_ok in H as (? & Ho%fail_if_ok & H).
  apply bind_ok in H as ([] & Hc & [= <-]). destruct effect; [| done]. injection Hg as <-. bool_facts. by split_and!.
Qed.

(** How a continuation commits: some bound observation, the effect's at most once. *)
Lemma continueNativeExternal_ok au e owner input inspect effect fresh s calls x s' :
  continueNativeExternal au e owner input inspect effect fresh s = (calls, Ok (x, s')) ->
  exists r f obs, stored_external s owner input = Ok r /\ inspect = Some f /\ externalBound r obs = true
    /\ (calls = [] /\ f 0%nat r = Ok obs \/ calls = [r] /\ fresh = true /\ NER_State r = "pending"%string)
    /\ put_external s (NEI_OperationKey input) (observed_record (now e 3900) r obs) = Ok s'
    /\ x = mkExternalResult (observed_record (now e 3900) r obs) (negb fresh).
Proof.
  unfold continueNativeExternal. intros H.
  apply logged_bind_inv in H as (? & r & ? & [-> Hr]%pure_inv & H & ->).
  apply logged_bind_inv in H as (? & f & ? & [-> Hf%must_ok]%pure_inv & H & ->).
  apply logged_bind_inv in H as (? & obs & ? & [-> Hobs]%pure_inv & H & ->).
  apply logged_bind_inv in H as (? & ? & ? & [-> Hbound%deny_if_ok]%pure_inv & H & ->). apply negb_false_iff in Hbound.
  apply logged_bind_inv in H as (c1 & out & c2 & Hout & [-> Hset]%pure_inv & ->). rewrite app_nil_r. simpl.
  apply bind_ok in Hset as (s1 & Hput & [= <- <-]). exists r, f, out. split; [done |]. split; [done |].
  destruct (_ && _ && fresh) eqn:Ec.
  - apply logged_bind_inv in Hout as (? & g & ? & [-> _]%pure_inv & Hl & ->). unfold deliver in Hl.
    injection Hl as <- Hl. destruct (g r _) as [o |]; [| done]. apply bind_ok in Hl as (? & Hd%fail_if_ok & [= <-]).
    bool_facts. split_and!; try done. by right.
  - injection Hout as <- <-. split_and!; try done. by left.
Qed.

Lemma observed_record_le t r obs : external_record_le r (observed_record t r obs).
Proof. unfold observed_record. destruct (externalEffectDone _ _); split; simpl; try done; [by right | by left]. Qed.

Lemma observed_record_outcome t r obs : NER_Outcome (observed_record t r obs) = obs.
Proof. unfold observed_record. by destruct (externalEffectDone _ _). Qed.

Lemma observed_record_fields t r obs : external_fields_ok r -> validExternalRecord (observed_record t r obs) = true.
Proof. intros []. unfold observed_record. destruct (externalEffectDone _ _); apply sealExternal_valid; by split. Qed.

Lemma observed_record_bound s key t r obs :
  external_bound s key r -> external_bound s key (observed_record t r obs).
Proof.
  intros [Hs Hk Hh Hb Hst]. destruct (observed_record_le t r obs) as [(_ & _ & E3 & E4 & E5 & _) Est]. split.
  - by apply observed_record_fields, validExternalRecord_ok.
  - by rewrite E3.
  - by rewrite E4.
  - rewrite E3, E4, E5. unfold externalBound in *. by rewrite E4.
  - destruct Est as [-> | ]; [done | by right].
Qed.

Lemma put_external_observed s key r r' s' :
  put_external s key r' = Ok s' -> mget (externals s) key = Some r -> external_record_le r r' ->
  external_bound s key r' -> external_inv s -> external_inv s' /\ external_le s s'.
Proof.
  intros (Er & Eh & Ep)%put_external_maps Hr Hle Hbound [Hp Hb Ho Ht].
  assert (forall k x, mget (externals s') k = Some x -> exists y, mget (externals s) k = Some y /\ external_record_le y x) as Hback.
  { intros k x. rewrite Er. case_decide; [intros [= <-]; subst k; by exists r | intros Hk; by exists x]. }
  assert (forall x y, external_record_le x y -> NER_Policy y = NER_Policy x /\ NER_Input y = NER_Input x
    /\ (NER_State y = "pending"%string -> NER_State x = "pending"%string)) as Hfix.
  { intros x y [(_ & _ & E3 & E4 & _) [E | E]]; split_and!; try done; congruence. }
  split; [split |].
  - intros task p. rewrite Ep, Eh. apply Hp.
  - intros k x. rewrite Er. case_decide; [intros [= <-]; subst k; destruct Hbound | intros []%Hb];
      split; try done; by rewrite Eh.
  - intros k1 k2 r1 r2 (y1 & H1 & (E1 & F1 & _)%Hfix)%Hback (y2 & H2 & (E2 & F2 & _)%Hfix)%Hback.
    rewrite E1, E2, F1, F2. by apply Ho.
  - intros k1 k2 r1 r2 (y1 & H1 & (F1 & _ & G1)%Hfix)%Hback (y2 & H2 & (F2 & _ & G2)%Hfix)%Hback.
    rewrite F1, F2. eauto.
  - split; intros k x Hk; [by rewrite Eh |]. rewrite Er. case_decide; [subst k | by exists x].
    rewrite Hr in Hk. injection Hk as <-. by exists r'.
Qed.

Lemma continue_external_inv_le au e owner input inspect effect fresh s calls x s' :
  continueNativeExternal au e owner input inspect effect fresh s = (calls, Ok (x, s')) -> external_inv s ->
  external_inv s' /\ external_le s s'.
Proof.
  intros (r & f & obs & (Hr & _)%stored_external_ok & _ & _ & _ & Hput & _)%continueNativeExternal_ok Hinv.
  eapply put_external_observed; [exact Hput | exact Hr | apply observed_record_le | | done].
  by apply observed_record_bound, Hinv.
Qed.

(** ** Properties *)

(** The owner's delivery policy and native policy stand for the record from [t] to [t']. *)
Record external_allowed (s : state) (r : NativeExternalRecord) (t t' : time) : Prop := {
  xl_policy : mget (external_policies s) (NEP_TaskID (NER_Policy r)) = Some (NER_Policy r);
  xl_target : NEP_Stopped (NER_Policy r) = false /\ t < NEP_ExpiresAt (NER_Policy r);
  xl_native : exists n, mget (policies s) (NEP_TaskID (NER_Policy r)) = Some n
    /\ NP_Revision n = NEP_NativePolicyRevision (NER_Policy r) /\ NP_Allow n = true /\ NP_Stopped n = false
    /\ t' < NP_ExpiresAt n
}.
Lemma externalPolicyCurrent_ok e i s r u :
  externalPolicyCurrent e i s r = Ok u -> external_allowed s r (now e i) (now e (S i)).
Proof.
  unfold externalPolicyCurrent. intros H. apply bind_ok in H as (p & Hp%must_ok & H).
  apply bind_ok in H as (n & Hn%must_ok & Hd%deny_if_ok). bool_facts. subst p. split; try done.
  by exists n.
Qed.

Lemma externalFinalCurrent_ok e i s r u :
  externalFinalCurrent e i s r = Ok u ->
  external_allowed s r (now e i) (now e (S i))
  /\ produced_since s (NAI_ReviewID (NEI_Candidate (NER_Input r))) (NEP_ConfiguredAt (NER_Policy r)).
Proof.
  unfold externalFinalCurrent. intros H. apply bind_ok in H as (? & Hp%deny_if_ok & H).
  apply bind_ok in H as (p & Hr%must_ok & H). apply bind_ok in H as (? & Hd%deny_if_ok & H).
  apply bind_ok in H as (a & _ & H). do 2 apply bind_ok in H as (? & _ & H). apply bind_ok in H as (? & _ & H).
  apply deny_if_ok in H. bool_facts. apply is_ok_true in Hp as [v Hp%externalPolicyCurrent_ok]. split; [done |].
  exists p. split_and!; [done | done |]. by eapply evidence_since_ok, producers_current_since.
Qed.

Lemma externalCurrent_ok au e s r u :
  externalCurrent au e s r = Ok u ->
  external_allowed s r (now e 0) (now e 1) /\ external_allowed s r (now e 2000) (now e 2001)
  /\ (exists p a rev, approved (later 2 0 e) s (NEI_Candidate (NER_Input r)) p a rev)
  /\ produced_since s (NAI_ReviewID (NEI_Candidate (NER_Input r))) (NEP_ConfiguredAt (NER_Policy r)).
Proof.
  unfold externalCurrent. intros H. apply bind_ok in H as (? & Hp%deny_if_ok & H).
  apply bind_ok in H as (c & Hc%acceptanceCurrent_ok & [Ha Hs]%externalFinalCurrent_ok). bool_facts.
  apply is_ok_true in Hp as [v Hp%externalPolicyCurrent_ok]. split_and!; try done. by eapply acceptable_approved.
Qed.

(** The remote is touched only in order: whether or not a continuation commits, the
    push or the creation of the pull request is called at most once, with the
    permit of a fresh record, and then with the sealed pending record, while
    the trunk, the remote head and the pull requests are as they were then, both
    policies of the owner allow it, and an approving review, with its evidence
    younger than the policy, still stands for the candidate. *)
Theorem external_launches au e owner input inspect effect fresh s calls x :
  continueNativeExternal au e owner input inspect effect fresh s = (calls, x) ->
  calls = []
  \/ exists r f g obs, calls = [r] /\ fresh = true /\ inspect = Some f /\ effect = Some g
     /\ mget (externals s) (NEI_OperationKey input) = Some r /\ NER_Input r = input /\ validExternalRecord r = true
     /\ NER_State r = "pending"%string
     /\ f 0%nat r = Ok obs /\ externalBound r obs = true /\ externalEffectDone r obs = false /\ NEO_APIComplete obs = true
     /\ NEO_Trunk obs = NEO_Trunk (NER_Before r) /\ NEO_RemoteHead obs = NEO_RemoteHead (NER_Before r)
     /\ NEO_PullRequestNumber obs = NEO_PullRequestNumber (NER_Before r)
     /\ external_allowed s r (now e 1) (now e 2) /\ external_allowed s r (now e 2001) (now e 2002)
     /\ (exists p a rev, approved (later 2 0 (later 1 0 e)) s (NEI_Candidate input) p a rev)
     /\ produced_since s (NAI_ReviewID (NEI_Candidate input)) (NEP_ConfiguredAt (NER_Policy r)).
Proof.
  unfold continueNativeExternal. intros H.
  apply pure_bind_calls in H as [-> | (r & Hr%stored_external_ok & H)]; [by left |].
  apply pure_bind_calls in H as [-> | (f & Hf%must_ok & H)]; [by left |].
  apply pure_bind_calls in H as [-> | (obs & Hobs & H)]; [by left |].
  apply pure_bind_calls in H as [-> | (? & Hbound%deny_if_ok & H)]; [by left |]. apply negb_false_iff in Hbound.
  destruct (_ && _ && fresh) eqn:Ec; cycle 1.
  { left. by apply logged_bind_calls in H as [(? & ? & ? & [= <- <-] & [= <- _] & ->) | (? & [= <- _])]. }
  assert (exists y, (effect ← pure (may_deliver au (later 1 0 e) s r obs effect); deliver e s r effect) = (calls, y)) as [y Hy].
  { apply logged_bind_calls in H as [(c1 & ? & c2 & -> & [= <- _] & ->) | (? & ->)]; [| by eexists].
    rewrite app_nil_r. by eexists. }
  apply pure_bind_calls in Hy as [-> | (g & Hg%may_deliver_ok & Hy)]; [by left |]. right.
  injection Hy as <- _. destruct Hr as (Hk & _ & Hin & Hv). destruct Hg as (-> & ? & ? & ? & ? & Hcur).
  apply externalCurrent_ok in Hcur as (? & ? & Hap & Hsince). bool_facts. rewrite Hin in Hap, Hsince.
  exists r, f, g, obs. by split_and!.
Qed.

(** The newest record of the candidate, whatever the order of the table. *)
Lemma nativeExternalLatest_newest s task candidate :
  let latest := nativeExternalLatest s task candidate in
  (latest = zero_external_record \/ exists k, mget (externals s) k = Some latest /\ of_candidate s task candidate latest = true)
  /\ forall k r, mget (externals s) k = Some r -> of_candidate s task candidate r = true -> NER_UpdatedAt r <= NER_UpdatedAt latest.
Proof.
  intros latest. unfold latest, nativeExternalLatest.
  set (next := fun latest r => if of_candidate s task candidate r && newer_external latest r then r else latest).
  assert (forall l start, 
    (fold_left next l start = start \/ fold_left next l start ∈ l /\ of_candidate s task candidate (fold_left next l start) = true)
    /\ NER_UpdatedAt start <= NER_UpdatedAt (fold_left next l start)
    /\ forall r, r ∈ l -> of_candidate s task candidate r = true -> NER_UpdatedAt r <= NER_UpdatedAt (fold_left next l start)) as Hfold.
  { induction l as [| x l IH]; intros start; simpl; [split_and!; [by left | lia | by intros r Hr%elem_of_nil] |].
    destruct (IH (next start x)) as (H1 & H2 & H3).
    assert (NER_UpdatedAt start <= NER_UpdatedAt (next start x)
      /\ (of_candidate s task candidate x = true -> NER_UpdatedAt x <= NER_UpdatedAt (next start x))
      /\ (next start x = start \/ next start x = x /\ of_candidate s task candidate x = true)) as (L1 & L2 & L3).
    { unfold next, newer_external. destruct (of_candidate s task candidate x); simpl; [| split_and!; [lia | done | by left]].
      destruct (Z.ltb_spec (NER_UpdatedAt start) (NER_UpdatedAt x)); simpl; [split_and!; [lia | lia | by right] |].
      destruct (Z.eqb_spec (NER_UpdatedAt x) (NER_UpdatedAt start)); simpl; [| split_and!; [lia | lia | by left]].
      destruct (String.ltb _ _); split_and!; try lia; [by right | by left]. }
    split_and!.
    - destruct H1 as [-> | [? ?]]; [| right; split; [by right | done]].
      destruct L3 as [-> | [-> ?]]; [by left | right; split; [by left | done]].
    - lia.
    - intros r [-> | Hr]%elem_of_cons Hc; [specialize (L2 Hc); lia | by apply H3]. }
  destruct (Hfold (mvals (externals s)) zero_external_record) as (H1 & _ & H3). split.
  - destruct H1 as [H1 | [[k Hk]%elem_of_mvals Hc]]; [by left | right]. by exists k.
  - intros k r Hk. apply H3, elem_of_mvals. by exists k.
Qed.

Lemma external_fresh e i o : NativeExternalFreshness e i o = "fresh"%string ->
  NEO_APIComplete o = true /\ NEO_ObservedAt o <= now e i /\ now e (S i) - NEO_ObservedAt o <= 30 * second.
Proof.
  unfold NativeExternalFreshness. destruct (_ || _) eqn:E; [done |]. destruct (30 * second <? _) eqn:Ea; [done |]. intros _.
  by bool_facts.
Qed.

(** C16: a required delivery holds the close back until it has landed: the gate lets a
    task with a required delivery policy through only if the policy is neither
    stopped nor expired and the newest sealed record of exactly this policy and
    candidate was observed within the last 30 seconds, completely, with the pull
    request merged at the candidate's commit, the trunk at that commit and its
    checks satisfied. *)
Theorem external_gate_landed e i s task candidate p code next :
  mget (external_policies s) task = Some p -> NEP_Required p = true ->
  nativeExternalGate e i s task candidate = (code, next, true) ->
  NEP_Stopped p = false /\ now e i < NEP_ExpiresAt p
  /\ exists k r, mget (externals s) k = Some r /\ validExternalRecord r = true /\ NER_Policy r = p
     /\ NEI_Candidate (NER_Input r) = candidate
     /\ (forall k' r', mget (externals s) k' = Some r' -> of_candidate s task candidate r' = true ->
          NER_UpdatedAt r' <= NER_UpdatedAt r)
     /\ let o := NER_Outcome r in
        NEO_PullRequestState o = "MERGED"%string /\ NEO_MergeCommit o = NAI_Commit candidate
        /\ NEO_Trunk o = NAI_Commit candidate /\ NEO_Commit o = NAI_Commit candidate /\ NEO_Tree o = NAI_Tree candidate
        /\ NEO_ChecksSatisfied o = true /\ NEO_APIComplete o = true /\ NEO_Clean o = true
        /\ NEO_ObservedAt o <= now e (S i) /\ now e (S (S i)) - NEO_ObservedAt o <= 30 * second.
Proof.
  intros Hp Hreq. unfold nativeExternalGate. rewrite Hp, Hreq. simpl.
  destruct (nativeExternalLatest_newest s task candidate) as [Hlatest Hnew].
  destruct (NEP_Stopped p || _) eqn:Es; [done |]. set (latest := nativeExternalLatest s task candidate) in *.
  destruct ((NER_OperationKey _ =? "")%string || _ || _) eqn:Eu; [done |].
  destruct ((NEO_PullRequestState _ =? "MERGED")%string && _ && _) eqn:El; cycle 1.
  { rewrite andb_true_r. simpl. by repeat case_match. }
  rewrite andb_false_r. simpl. destruct (NEO_ChecksSatisfied _) eqn:Ec; [| by repeat case_match]. intros _.
  bool_facts. split; [done |]. split; [done |].
  destruct Hlatest as [E0 | (k & Hk & Hc)]; [by rewrite E0 in * |].
  unfold of_candidate in Hc. bool_facts. rewrite Hp in *. simpl in *. exists k, latest.
  destruct (validExternalRecord_ok latest) as [[_ _ Hin] _]; [done |]. apply externalInputBound_task in Hin as (_ & _ & Ecm & Etr).
  match goal with H : NativeExternalFreshness _ _ _ = _ |- _ => apply external_fresh in H as (? & ? & ?) end.
  unfold externalBound in *. bool_facts. split_and!; try done; congruence.
Qed.
