(* ===== verification/Mdstore.v ===== *)
(** * The workspace file format

    [internal/mdstore/mdstore.go]: Markdown files with a frontmatter of a
    deliberately narrow dialect.  [Parse] reads one, [Render] writes it, the
    accessors read and set scalars, lists and maps; [Links], [Checkboxes] and
    [Bullets] read structure out of section contents.  The durable replacement
    of a file is in Durable.

    [Doc.SourcePath] is left out: [Parse] and [Render] ignore it.  The Unicode
    case folding of [strings.EqualFold] is the parameter of the two operations
    that look a section up by title. *)

From S2P Require Import Prelude GoStd Text.
#[local] Open Scope Z_scope.

(** ** Documents *)

Record Entry := mkEntry { Key : text; Value : text; Block : text; Raw : text }.
#[export] Instance Entry_eq_dec : EqDecision Entry.
Proof. solve_decision. Defined.

Abbreviation Front := (list Entry).

Record section := mkSection { Level : nat; Title : text; Content : text }.
#[export] Instance section_eq_dec : EqDecision section.
Proof. solve_decision. Defined.

Record Doc := mkDoc { doc_Front : Front; doc_Sections : list section }.
#[export] Instance Doc_eq_dec : EqDecision Doc.
Proof. solve_decision. Defined.

Definition raw_entry (l : text) : Entry := mkEntry [] [] [] l.
Definition scalar (k v : text) : Entry := mkEntry k v [] [].

(** ** Scalars *)

Definition BSLASH : ascii := backslash.
Definition HASH : ascii := "#"%char.
Definition COLON : ascii := ":"%char.
Definition is_quote (c : ascii) : bool := Ascii.eqb c DQUOTE || Ascii.eqb c SQUOTE.

(** The position of the [#] that starts a trailing comment, by the scan of
    [clean]: [q] is the open quote, [prev] the byte before. *)
Fixpoint comment_start (q prev : option ascii) (i : nat) (l : text) : option nat :=
  match l with
  | [] => None
  | c :: l1 =>
    match q with
    | Some k =>
      match l1 with
      | d :: l2 =>
        if Ascii.eqb k DQUOTE && Ascii.eqb c BSLASH then comment_start q (Some d) (S (S i)) l2
        else comment_start (if Ascii.eqb c k then None else q) (Some c) (S i) l1
      | [] => None
      end
    | None =>
      if is_quote c then comment_start (Some c) (Some c) (S i) l1
      else if Ascii.eqb c HASH
              && match prev with Some p => Ascii.eqb p SP || Ascii.eqb p TAB | None => false end
      then Some i
      else comment_start None (Some c) (S i) l1
    end
  end.

(** What a backslash before [d] stands for. *)
Definition escape_code (d : ascii) : option ascii :=
  if Ascii.eqb d DQUOTE || Ascii.eqb d BSLASH then Some d
  else if Ascii.eqb d "n" then Some LF
  else if Ascii.eqb d "r" then Some CR
  else if Ascii.eqb d "t" then Some TAB
  else None.

Fixpoint unescape (s : text) : text :=
  match s with
  | [] => []
  | c :: s1 =>
    if Ascii.eqb c BSLASH then
      match s1 with
      | d :: s2 => match escape_code d with Some x => x :: unescape s2 | None => c :: unescape s1 end
      | [] => [c]
      end
    else c :: unescape s1
  end.

Definition unescapeDouble (s : text) : text :=
  if existsb (Ascii.eqb BSLASH) s then unescape s else s.

(** The surrounding quotes of a value. *)
Definition unquote (v : text) : text :=
  match v, list.last v with
  | q :: _ :: _, Some q' =>
    if is_quote q && Ascii.eqb q q' then
      let inner := take (List.length v - 2) (drop 1 v) in
      if Ascii.eqb q DQUOTE then unescapeDouble inner else inner
    else v
  | _, _ => v
  end.

Definition clean (v : text) : text :=
  let v := trim_space v in
  unquote (match comment_start None None 0 v with Some i => trim_space (take i v) | None => v end).

(** Escapes, byte by byte. *)
Definition escape (e : ascii -> text) (s : text) : text := concat (map e s).

Definition escape_elem (c : ascii) : text :=
  if Ascii.eqb c DQUOTE || Ascii.eqb c BSLASH then [BSLASH; c] else [c].

Definition escape_scalar (c : ascii) : text :=
  if Ascii.eqb c DQUOTE || Ascii.eqb c BSLASH then [BSLASH; c]
  else if Ascii.eqb c LF then [BSLASH; "n"%char]
  else if Ascii.eqb c CR then [BSLASH; "r"%char]
  else if Ascii.eqb c TAB then [BSLASH; "t"%char]
  else [c].

Definition quoted (e : ascii -> text) (s : text) : text := DQUOTE :: escape e s ++ [DQUOTE].

Definition list_specials : text := [","; "["; "]"; "{"; "}"; HASH; DQUOTE; SQUOTE]%char.

Definition quoteListElem (s : text) : text :=
  if negb (contains_any s list_specials) && bool_decide (s = trim_space s) then s
  else quoted escape_elem s.

Definition scalar_specials : text := [CR; LF; TAB; DQUOTE; SQUOTE; HASH].

Definition needs_quotes (s : text) : bool :=
  bool_decide (s = []) || negb (bool_decide (s = trim_space s)) || contains_any s scalar_specials
  || match s with c :: _ => existsb (Ascii.eqb c) ["|"; ">"; "&"; "*"; "["; "{"]%char | [] => false end.

Definition quoteScalar (s : text) : text := if needs_quotes s then quoted escape_scalar s else s.

(** ** Inline lists and maps *)

Definition emit_part (cur : text) (rest : list text) : list text :=
  match trim_space cur with [] => rest | p => clean p :: rest end.

(** [cur] is what follows the last split. *)
Fixpoint split_go (depth : Z) (q : option ascii) (cur s : text) : list text :=
  match s with
  | [] => emit_part cur []
  | c :: s1 =>
    match q with
    | Some k =>
      match s1 with
      | d :: s2 =>
        if Ascii.eqb k DQUOTE && Ascii.eqb c BSLASH then split_go depth q (cur ++ [c; d]) s2
        else split_go depth (if Ascii.eqb c k then None else q) (cur ++ [c]) s1
      | [] => split_go depth (if Ascii.eqb c k then None else q) (cur ++ [c]) s1
      end
    | None =>
      if is_quote c then split_go depth (Some c) (cur ++ [c]) s1
      else if Ascii.eqb c "[" || Ascii.eqb c "{" then split_go (depth + 1) None (cur ++ [c]) s1
      else if Ascii.eqb c "]" || Ascii.eqb c "}" then split_go (depth - 1) None (cur ++ [c]) s1
      else if Ascii.eqb c "," && (depth =? 0) then emit_part cur (split_go depth None [] s1)
      else split_go depth None (cur ++ [c]) s1
    end
  end.

Definition splitTop (s : text) : list text := split_go 0 None [] s.

(** ** Accessors *)

Definition Get (f : Front) (k : text) : option text :=
  e ← List.find (fun e => bool_decide (Key e = k) && bool_decide (Block e = [])) f;
  Some (clean (Value e)).

Definition GetBlock (f : Front) (k : text) : option text :=
  e ← List.find (fun e => bool_decide (Key e = k) && negb (bool_decide (Block e = []))) f;
  Some (Block e).

(** Replaces the first entry of the key, or appends one. *)
Fixpoint put_entry (f : Front) (k : text) (new : Entry) : Front :=
  match f with
  | [] => [new]
  | e :: f => if bool_decide (Key e = k) then new :: f else e :: put_entry f k new
  end.

Definition SetScalar (f : Front) (k v : text) : Front := put_entry f k (scalar k (quoteScalar v)).
Definition SetBlock (f : Front) (k block : text) : Front := put_entry f k (mkEntry k [] block []).

Fixpoint Delete (f : Front) (k : text) : Front :=
  match f with
  | [] => []
  | e :: f => if bool_decide (Key e = k) then f else e :: Delete f k
  end.

Definition Keys (f : Front) : list text :=
  filter (fun k => k <> []) (map Key f).

Definition GetText (f : Front) (k : text) : option text :=
  e ← List.find (fun e => bool_decide (Key e = k)) f;
  Some (match Block e with
        | [] => clean (Value e)
        | b => trim_space (join [LF] (map trim_space (lines b)))
        end).

(** The inside of a value between [open] and [close]. *)
Definition inside (open close : ascii) (v : text) : option text :=
  if has_prefix [open] v && has_suffix [close] v
  then Some (take (List.length v - 2) (drop 1 v)) else None.

Definition GetList (f : Front) (k : text) : list text :=
  default [] (v ← Get f k; i ← inside "[" "]" v; Some (splitTop i)).

Definition SetList (f : Front) (k : text) (v : list text) : Front :=
  SetScalar f k ("["%char :: join (T ", ") (map quoteListElem v) ++ ["]"%char]).

(** The pairs in order; a later one replaces an earlier one of the same key. *)
Definition GetMap (f : Front) (k : text) : option (list (text * text)) :=
  v ← Get f k; i ← inside "{" "}" v;
  Some (omap (fun part => n ← index_byte COLON part;
                          Some (trim_space (take n part), trim_space (drop (S n) part)))
             (splitTop i)).

(** ** Parsing *)

Inductive parse_error :=
  | Unterminated
  | IndentedLine (line : text)
  | NoKey (line : text).
#[export] Instance parse_error_eq_dec : EqDecision parse_error.
Proof. solve_decision. Defined.

Definition indented (l : text) : bool := has_prefix [SP] l || has_prefix [TAB] l.

(** [allBlank]: the first line that is not blank is indented, or there is none. *)
Fixpoint opens_indented (ls : list text) : bool :=
  match ls with
  | [] => true
  | l :: ls => if is_blank l then opens_indented ls else indented l
  end.

(** The lines of the block that [ls] starts with, and the lines after it. *)
Fixpoint take_block (ls : list text) : list text * list text :=
  match ls with
  | [] => ([], [])
  | l :: rest =>
    if indented l || is_blank l then
      if is_blank l && negb (opens_indented ls) then ([], ls)
      else let '(b, r) := take_block rest in (l :: b, r)
    else ([], ls)
  end.

Definition is_indicator (val : text) : bool :=
  existsb (fun i => bool_decide (val = i)) [T "|"; T "|-"; T ">"; T ">-"].

(** The values a block may follow. *)
Definition opens_block (val : text) : bool :=
  bool_decide (val = []) || is_indicator val || has_prefix [HASH] val.

(** The entry of a keyed line, and the lines after it. *)
Definition keyed_entry (key val : text) (ls : list text) : Entry * list text :=
  if opens_block val then
    match take_block ls with
    | ([], _) => (scalar key val, ls)
    | (b, r) => (mkEntry key val (join [LF] b) [], r)
    end
  else (scalar key val, ls).

Inductive line_class :=
  | Kept                        (* blank, or a full-line comment *)
  | Refused (e : parse_error)
  | Keyed (key val : text).

Definition classify (l : text) : line_class :=
  if is_blank l || has_prefix [HASH] (trim_space l) then Kept
  else if indented l then Refused (IndentedLine l)
  else match index_byte COLON l with
       | None => Refused (NoKey l)
       | Some colon => Keyed (trim_space (take colon l)) (trim_space (drop (S colon) l))
       end.

(** [fuel] bounds the lines left. *)
Fixpoint parseFront_go (fuel : nat) (ls : list text) : parse_error + Front :=
  match fuel, ls with
  | S fuel, l :: ls =>
    match classify l with
    | Kept =>
      match parseFront_go fuel ls with inr f => inr (raw_entry l :: f) | inl e => inl e end
    | Refused e => inl e
    | Keyed key val =>
      let '(en, ls) := keyed_entry key val ls in
      match parseFront_go fuel ls with inr f => inr (en :: f) | inl e => inl e end
    end
  | _, _ => inr []
  end.

Definition parseFront (fm : text) : parse_error + Front :=
  let ls := lines fm in parseFront_go (List.length ls) ls.

(** The length of the leading run of [#]. *)
Fixpoint hashes (l : text) : nat :=
  match l with c :: l => if Ascii.eqb c HASH then S (hashes l) else 0%nat | [] => 0%nat end.

Definition heading (line : text) : option (nat * text) :=
  let i := hashes line in
  match drop i line with
  | c :: r => if (1 <=? i)%nat && (i <=? 6)%nat && Ascii.eqb c SP then Some (i, trim_space r) else None
  | [] => None
  end.

(** The lines collected for the section [cur]. *)
Definition flush (cur : section) (buf : list text) : list section :=
  let content := unlines buf in
  if bool_decide (Level cur = 0%nat) && bool_decide (Title cur = []) && is_blank content then []
  else [mkSection (Level cur) (Title cur) content].

Definition is_fence (line : text) : bool := has_prefix (T "```") (trim_space line).

Fixpoint sections_go (cur : section) (buf : list text) (inFence : bool) (ls : list text) : list section :=
  match ls with
  | [] => flush cur buf
  | line :: ls =>
    let inFence := if is_fence line then negb inFence else inFence in
    match (if inFence then None else heading line) with
    | Some (lvl, title) => flush cur buf ++ sections_go (mkSection lvl title []) [] inFence ls
    | None => sections_go cur (buf ++ [line]) inFence ls
    end
  end.

(** The final newline of a body ends its last line. *)
Definition body_lines (body : text) : list text :=
  let ls := lines body in
  match list.last ls with Some [] => take (List.length ls - 1) ls | _ => ls end.

Definition no_section : section := mkSection 0 [] [].

Definition parseSections (body : text) : list section :=
  match body with
  | [] => []
  | _ => sections_go no_section [] false (body_lines body)
  end.

(** The frontmatter and the body of a file that opens with [---]. *)
Definition split_front (rest : text) : option (text * text) :=
  if has_prefix (T "---" ++ [LF]) rest then Some ([], drop 4 rest)
  else if bool_decide (rest = T "---") then Some ([], [])
  else match index_sub (LF :: T "---" ++ [LF]) rest with
       | Some i => Some (take i rest, drop (i + 5) rest)
       | None => if has_suffix (LF :: T "---") rest then Some (take (List.length rest - 4) rest, [])
                 else None
       end.

Definition Parse (raw : text) : parse_error + Doc :=
  let raw := crlf raw in
  if has_prefix (T "---" ++ [LF]) raw then
    match split_front (drop 4 raw) with
    | None => inl Unterminated
    | Some (fm, body) =>
      match parseFront fm with
      | inl e => inl e
      | inr f => inr (mkDoc f (parseSections body))
      end
    end
  else inr (mkDoc [] (parseSections raw)).

(** ** Rendering *)

Fixpoint opens_with_rule (ss : list section) : bool :=
  match ss with
  | [] => false
  | s :: ss =>
    if (0 <? Level s)%nat then false
    else match trim_newlines (Content s) with
         | [] => opens_with_rule ss
         | c => has_prefix (T "---") c
         end
  end.

Definition bodyOpensWithRule (d : Doc) : bool := opens_with_rule (doc_Sections d).

Definition render_entry (e : Entry) : text :=
  match Key e with
  | [] => Raw e ++ [LF]
  | k =>
    match Block e with
    | [] => k ++ T ": " ++ Value e ++ [LF]
    | b => k ++ [COLON] ++ (match Value e with [] => [] | v => SP :: v end) ++ [LF] ++ b ++ [LF]
    end
  end.

Definition render_section (s : section) : text :=
  (if (0 <? Level s)%nat then repeat HASH (Level s) ++ [SP] ++ Title s ++ [LF] else [])
  ++ Content s
  ++ match Content s with
     | [] => []
     | c => if has_suffix [LF] c then [] else [LF]
     end.

Definition render_front (f : Front) : text :=
  T "---" ++ [LF] ++ concat (map render_entry f) ++ T "---" ++ [LF].

Definition Render (d : Doc) : text :=
  let emptyFront := bool_decide (doc_Front d = []) && bodyOpensWithRule d in
  (if negb (bool_decide (doc_Front d = [])) || emptyFront then render_front (doc_Front d) else [])
  ++ concat (map render_section (doc_Sections d)).

(** ** Sections by title *)

Section titles.
Context (EqualFold : text -> text -> bool).

Definition FindSection (d : Doc) (title : text) : option section :=
  List.find (fun s => EqualFold (Title s) title) (doc_Sections d).

Fixpoint put_section (ss : list section) (title content : text) : list section :=
  match ss with
  | [] => [mkSection 2 title content]
  | s :: ss => if EqualFold (Title s) title then mkSection (Level s) (Title s) content :: ss
               else s :: put_section ss title content
  end.

Definition SetSection (d : Doc) (title content : text) : Doc :=
  mkDoc (doc_Front d) (put_section (doc_Sections d) title content).
End titles.

(** ** Structure inside contents *)

(** [fuel] bounds the bytes left. *)
Fixpoint links_go (fuel : nat) (s : text) : list text :=
  match fuel with
  | O => []
  | S fuel =>
    match index_sub (T "[[") s with
    | None => []
    | Some i =>
      let s := drop (i + 2) s in
      match index_sub (T "]]") s with
      | None => []
      | Some j =>
        let target := trim_space (take j s) in
        let target := match index_byte "|" target with
                      | Some p => trim_space (take p target)
                      | None => target
                      end in
        let rest := links_go fuel (drop (j + 2) s) in
        match target with [] => rest | _ => target :: rest end
      end
    end
  end.
Definition Links (s : text) : list text := links_go (S (List.length s)) s.

Record Checkbox := mkCheckbox { Checkbox_Text : text; Checkbox_Done : bool }.

Definition checkbox_of (line : text) : option Checkbox :=
  let t := trim_space line in
  if has_prefix (T "- [ ] ") t then Some (mkCheckbox (drop 6 t) false)
  else if has_prefix (T "- [x] ") t || has_prefix (T "- [X] ") t then Some (mkCheckbox (drop 6 t) true)
  else None.

Definition Checkboxes (content : text) : list Checkbox := omap checkbox_of (lines content).

Definition RenderCheckboxes (boxes : list Checkbox) : text :=
  concat (map (fun c => T (if Checkbox_Done c then "- [x] " else "- [ ] ") ++ Checkbox_Text c ++ [LF]) boxes).

Definition Bullets (content : text) : list text :=
  omap (fun line => let t := trim_space line in
                    if has_prefix (T "- ") t && negb (has_prefix (T "- [") t) then Some (drop 2 t) else None)
    (lines content).

(** ** Quoting round trips *)

(** Every byte is itself, or a backslash and a code for it. *)
Definition good_escape (e : ascii -> text) : Prop :=
  forall c, (e c = [c] /\ c <> DQUOTE /\ c <> BSLASH)
            \/ exists d, e c = [BSLASH; d] /\ escape_code d = Some c.

Lemma escape_elem_good : good_escape escape_elem.
Proof.
  intros c. unfold escape_elem. destruct (Ascii.eqb_spec c DQUOTE) as [-> |]; simpl; [right; by eexists |].
  destruct (Ascii.eqb_spec c BSLASH) as [-> |]; [right; by eexists | by left].
Qed.

Lemma escape_scalar_good : good_escape escape_scalar.
Proof.
  intros c. unfold escape_scalar.
  repeat (match goal with |- context [Ascii.eqb c ?x] => destruct (Ascii.eqb_spec c x) as [-> |] end; simpl);
    try (right; by eexists).
  by left.
Qed.

Lemma unescape_escape e s : good_escape e -> unescapeDouble (escape e s) = s.
Proof.
  intros He. assert (unescape (escape e s) = s) as Hu.
  { induction s as [| c s IH]; [done |]. unfold escape in *. simpl.
    destruct (He c) as [(-> & _ & Hb) | (d & -> & Hd)]; simpl.
    - destruct (Ascii.eqb_spec c BSLASH); [done |]. by rewrite IH.
    - by rewrite Hd, IH. }
  unfold unescapeDouble. destruct (existsb _ _) eqn:Hn; [done |].
  rewrite <- Hu at 2. generalize (escape e s) Hn. clear. intros l. induction l as [| c l IH]; [done |].
  simpl. rewrite orb_false_iff, Ascii.eqb_sym. by intros [-> <-%IH].
Qed.

(** Scanning inside double quotes reaches the closing one, ... *)
Lemma comment_start_escaped e s prev i r :
  good_escape e ->
  exists prev' i', comment_start (Some DQUOTE) prev i (escape e s ++ DQUOTE :: r)
    = comment_start (Some DQUOTE) prev' i' (DQUOTE :: r).
Proof.
  intros He. revert prev i. induction s as [| c s IH]; intros prev i; [by eexists _, _ |].
  unfold escape in *. simpl concat. rewrite <- app_assoc.
  destruct (IH (Some c) (S i)) as (p1 & i1 & H1).
  destruct (He c) as [(-> & Hq & Hb) | (d & -> & _)].
  - exists p1, i1. cbn [app]. rewrite <- H1. cbn [comment_start].
    destruct (concat _ ++ _) as [| x l] eqn:E; [by destruct (concat (map e s)) |].
    destruct (Ascii.eqb_spec c BSLASH); [done |]. destruct (Ascii.eqb_spec c DQUOTE); [done |].
    by rewrite andb_false_r.
  - destruct (IH (Some d) (S (S i))) as (p2 & i2 & H2). exists p2, i2. by rewrite <- H2.
Qed.

(** ... and there is no comment when nothing starts one. *)
Lemma comment_start_plain prev i l :
  existsb is_quote l = false -> HASH ∉ l -> comment_start None prev i l = None.
Proof.
  revert prev i. induction l as [| c l IH]; intros prev i; [done |]. simpl.
  intros [-> Hq]%orb_false_iff [Hc Hl]%not_elem_of_cons.
  destruct (Ascii.eqb_spec c HASH) as [-> |]; [done |]. simpl. by apply IH.
Qed.

Lemma unquote_quoted e s : good_escape e -> unquote (quoted e s) = s.
Proof.
  intros He. unfold quoted.
  assert (list.last (DQUOTE :: escape e s ++ [DQUOTE]) = Some DQUOTE) as Hl.
  { change (DQUOTE :: escape e s ++ [DQUOTE]) with ((DQUOTE :: escape e s) ++ [DQUOTE]).
    by rewrite list.last_snoc. }
  assert (take (List.length (DQUOTE :: escape e s ++ [DQUOTE]) - 2) (drop 1 (DQUOTE :: escape e s ++ [DQUOTE]))
    = escape e s) as Ht.
  { change (drop 1 (DQUOTE :: escape e s ++ [DQUOTE])) with (escape e s ++ [DQUOTE]).
    apply take_app_length'. cbn [List.length]. rewrite length_app. simpl. lia. }
  destruct (escape e s ++ [DQUOTE]) as [| x l] eqn:E; [by apply app_eq_nil in E as [_ ?] |].
  unfold unquote. rewrite Hl, Ht. simpl. by apply unescape_escape.
Qed.

Lemma quoted_tight e s : tight (quoted e s).
Proof.
  unfold tight, quoted. change (DQUOTE :: escape e s ++ [DQUOTE]) with ([] ++ DQUOTE :: escape e s ++ [DQUOTE]).
  rewrite trim_space_after by done. change (DQUOTE :: trim_right (escape e s ++ [DQUOTE]))
    with (DQUOTE :: trim_right (escape e s ++ DQUOTE :: [])). by rewrite trim_right_solid.
Qed.

Lemma clean_quoted e s : good_escape e -> clean (quoted e s) = s.
Proof.
  intros He. unfold clean. cbv zeta. pose proof (quoted_tight e s : trim_space _ = _) as ->.
  assert (comment_start None None 0 (quoted e s) = None) as ->; [| by apply unquote_quoted].
  unfold quoted. cbn [comment_start is_quote]. simpl orb. cbv iota.
  by destruct (comment_start_escaped e s (Some DQUOTE) 1 [] He) as (p & i & ->).
Qed.

(** A value with nothing to quote. *)
Lemma clean_plain s :
  tight s -> existsb is_quote s = false -> HASH ∉ s -> clean s = s.
Proof.
  intros Ht Hq Hh. unfold clean. cbv zeta. unfold tight in Ht. rewrite !Ht, comment_start_plain by done. unfold unquote.
  destruct s as [| c [| d s]]; [done | done |]. simpl in Hq. apply orb_false_iff in Hq as [Hq _].
  destruct (list.last _); [| done]. by rewrite Hq.
Qed.

Lemma contains_any_false l chars : contains_any l chars = false <-> forall c, c ∈ chars -> c ∉ l.
Proof.
  unfold contains_any. rewrite existsb_not_elem. setoid_rewrite existsb_not_elem. split.
  - intros H c Hc Hl. specialize (H _ Hl _ Hc). by rewrite Ascii.eqb_refl in H.
  - intros H x Hx y Hy. apply Ascii.eqb_neq. intros ->. by apply (H y).
Qed.

Lemma no_quotes l : DQUOTE ∉ l -> SQUOTE ∉ l -> existsb is_quote l = false.
Proof.
  intros H1 H2. apply existsb_not_elem. intros x Hx. unfold is_quote.
  destruct (Ascii.eqb_spec x DQUOTE) as [-> |]; [done |].
  by destruct (Ascii.eqb_spec x SQUOTE) as [-> |].
Qed.

Lemma clean_quoteScalar s : clean (quoteScalar s) = s.
Proof.
  unfold quoteScalar. destruct (needs_quotes s) eqn:Hn; [apply clean_quoted, escape_scalar_good |].
  unfold needs_quotes in Hn. rewrite !orb_false_iff in Hn. destruct Hn as [[[_ Ht] Hc] _].
  apply negb_false_iff, bool_decide_eq_true in Ht. rewrite contains_any_false in Hc.
  apply clean_plain; [done | apply no_quotes | ]; apply Hc; set_solver.
Qed.

Lemma clean_quoteListElem s : clean (quoteListElem s) = s.
Proof.
  unfold quoteListElem. destruct (_ && _) eqn:Hn; [| apply clean_quoted, escape_elem_good].
  apply andb_true_iff in Hn as [Hc%negb_true_iff Ht%bool_decide_eq_true].
  rewrite contains_any_false in Hc.
  apply clean_plain; [done | apply no_quotes |]; apply Hc; set_solver.
Qed.

Lemma quoteListElem_tight s : tight (quoteListElem s).
Proof.
  unfold quoteListElem. destruct (_ && _) eqn:Hn; [| apply quoted_tight].
  by apply andb_true_iff in Hn as [_ Ht%bool_decide_eq_true].
Qed.

Lemma quoteListElem_nonempty s : s <> [] -> quoteListElem s <> [].
Proof. unfold quoteListElem. by destruct (_ && _). Qed.

(** Splitting passes over an element. *)
Lemma split_go_plain d cur l r :
  contains_any l list_specials = false -> split_go d None cur (l ++ r) = split_go d None (cur ++ l) r.
Proof.
  rewrite contains_any_false. revert cur. induction l as [| c l IH]; intros cur Hl; [by rewrite app_nil_r |].
  assert (forall x, x ∈ list_specials -> Ascii.eqb c x = false) as Hc.
  { intros x Hx. apply Ascii.eqb_neq. intros ->. apply (Hl x Hx). set_solver. }
  cbn [app split_go]. unfold is_quote. rewrite !Hc by set_solver. simpl.
  rewrite IH; [by rewrite <- app_assoc |]. intros x Hx Hin. apply (Hl x Hx). set_solver.
Qed.

Lemma split_go_escaped e s d cur r :
  good_escape e ->
  split_go d (Some DQUOTE) cur (escape e s ++ DQUOTE :: r)
    = split_go d (Some DQUOTE) (cur ++ escape e s) (DQUOTE :: r).
Proof.
  intros He. revert cur. induction s as [| c s IH]; intros cur; [by rewrite app_nil_r |].
  unfold escape in *. simpl concat. rewrite <- app_assoc.
  destruct (He c) as [(-> & Hq & Hb) | (x & -> & _)]; cbn [app].
  - replace (cur ++ c :: concat (map e s)) with ((cur ++ [c]) ++ concat (map e s))
      by (by rewrite <- app_assoc). rewrite <- IH. cbn [split_go].
    destruct (concat _ ++ _) as [| y l] eqn:E; [by destruct (concat (map e s)) |].
    destruct (Ascii.eqb_spec c BSLASH); [done |]. destruct (Ascii.eqb_spec c DQUOTE); [done |].
    by rewrite andb_false_r.
  - replace (cur ++ BSLASH :: x :: concat (map e s)) with ((cur ++ [BSLASH; x]) ++ concat (map e s))
      by (by rewrite <- app_assoc). by rewrite <- IH.
Qed.

Lemma split_go_elem s d cur r :
  split_go d None cur (quoteListElem s ++ r) = split_go d None (cur ++ quoteListElem s) r.
Proof.
  unfold quoteListElem. destruct (_ && _) eqn:Hn.
  { apply andb_true_iff in Hn as [Hc%negb_true_iff _]. by apply split_go_plain. }
  unfold quoted. cbn [app]. rewrite <- app_assoc. cbn [app split_go]. simpl.
  rewrite split_go_escaped by apply escape_elem_good.
  assert ((cur ++ DQUOTE :: escape escape_elem s ++ [DQUOTE])
          = ((cur ++ [DQUOTE]) ++ escape escape_elem s) ++ [DQUOTE]) as ->.
  { by rewrite <- !app_assoc. }
  cbn [split_go]. destruct r; simpl; done.
Qed.

Lemma emit_elem cur s rest :
  cur = [] \/ cur = [SP] -> s <> [] -> emit_part (cur ++ quoteListElem s) rest = s :: rest.
Proof.
  intros Hcur Hs. unfold emit_part.
  assert (trim_space (cur ++ quoteListElem s) = quoteListElem s) as ->.
  { destruct Hcur as [-> | ->]; simpl; rewrite ?trim_space_SP; apply quoteListElem_tight. }
  pose proof (clean_quoteListElem s) as Hc. pose proof (quoteListElem_nonempty s Hs).
  destruct (quoteListElem s); [done |]. by rewrite Hc.
Qed.

Lemma splitTop_join v :
  Forall (fun s => s <> []) v -> splitTop (join (T ", ") (map quoteListElem v)) = v.
Proof.
  unfold splitTop. intros Hv. destruct v as [| x v]; [done |].
  assert (forall cur, cur = [] \/ cur = [SP] ->
    split_go 0 None cur (join (T ", ") (map quoteListElem (x :: v))) = x :: v) as H; [| by apply H; left].
  revert x Hv. induction v as [| y v IH]; intros x Hv cur Hcur.
  - apply Forall_cons_1 in Hv as [Hx _]. cbn [map join].
    rewrite <- (app_nil_r (quoteListElem x)), split_go_elem. by apply emit_elem.
  - apply Forall_cons_1 in Hv as [Hx Hv]. cbn [map]. rewrite join_cons by done.
    rewrite split_go_elem. cbn. rewrite emit_elem by done. f_equal. apply (IH y Hv [SP]). by right.
Qed.

Lemma find_put_entry f k new p :
  Key new = k -> p new = true -> (forall e, p e = true -> Key e = k) ->
  List.find p (put_entry f k new) = Some new.
Proof.
  intros Hk Hp Hpk. induction f as [| e f IH]; simpl; [by rewrite Hp |].
  case_bool_decide as E; simpl; [by rewrite Hp |]. destruct (p e) eqn:He; [| done].
  by apply Hpk in He.
Qed.

Lemma Get_SetScalar f k v : Get (SetScalar f k v) k = Some v.
Proof.
  unfold Get, SetScalar. rewrite find_put_entry.
  - simpl. by rewrite clean_quoteScalar.
  - done.
  - simpl. by rewrite !bool_decide_eq_true_2.
  - intros e. rewrite andb_true_iff, bool_decide_eq_true. by intros [? _].
Qed.

Lemma inside_app o c l : inside o c (o :: l ++ [c]) = Some l.
Proof.
  unfold inside. replace (has_prefix [o] _) with true by (simpl; by rewrite Ascii.eqb_refl).
  replace (has_suffix [c] (o :: l ++ [c])) with true.
  2: { unfold has_suffix. simpl. rewrite rev_app_distr. simpl. by rewrite Ascii.eqb_refl. }
  simpl andb. cbv iota. f_equal. change (drop 1 (o :: l ++ [c])) with (l ++ [c]).
  apply take_app_length'. cbn [List.length]. rewrite length_app. simpl. lia.
Qed.

(** ** The frontmatter round trip *)

(** A line as the format holds it: no newline, and no stray carriage return. *)
Definition line_ok (l : text) : Prop := LF ∉ l /\ CR ∉ l.

Lemma line_ok_app l r : line_ok (l ++ r) <-> line_ok l /\ line_ok r.
Proof. unfold line_ok. rewrite !not_elem_of_app. tauto. Qed.

Lemma line_ok_cons c r : line_ok (c :: r) <-> (LF <> c /\ CR <> c) /\ line_ok r.
Proof. unfold line_ok. rewrite !not_elem_of_cons. tauto. Qed.

Lemma line_ok_LF ls : Forall line_ok ls -> Forall (fun l => LF ∉ l) ls.
Proof. apply Forall_impl. by intros l []. Qed.

Lemma trim_space_parts l : exists a b, l = a ++ trim_space l ++ b.
Proof.
  unfold trim_space. destruct (trim_left_spec l) as [[a Ha] _].
  destruct (trim_right_spec (trim_left l)) as [[b Hb] _]. exists a, b. by rewrite <- Hb.
Qed.

Lemma line_ok_trim l : line_ok l -> line_ok (trim_space l).
Proof.
  destruct (trim_space_parts l) as (a & b & E). rewrite E at 1. rewrite !line_ok_app. tauto.
Qed.

Lemma lines_line_ok l : CR ∉ l -> Forall line_ok (lines l).
Proof.
  intros Hc. pose proof (lines_no_LF l) as Hl. rewrite <- (join_lines l) in Hc.
  induction Hl as [| w ws Hw Hws IH]; [done |]. constructor.
  - split; [done |]. destruct ws; simpl in Hc; [done |]. rewrite not_elem_of_app in Hc. by destruct Hc.
  - apply IH. destruct ws as [| w2 ws]; [simpl; apply not_elem_of_nil |].
    rewrite join_cons in Hc by done. rewrite !not_elem_of_app in Hc. tauto.
Qed.

(** The lines an entry is written as. *)
Definition entry_lines (e : Entry) : list text :=
  match Key e with
  | [] => [Raw e]
  | k => match Block e with
         | [] => [k ++ COLON :: SP :: Value e]
         | b => (k ++ COLON :: match Value e with [] => [] | v => SP :: v end) :: lines b
         end
  end.
Definition front_lines (f : Front) : list text := concat (map entry_lines f).

Record key_ok (k : text) : Prop := {
  ko_line : line_ok k;
  ko_tight : tight k;
  ko_some : k <> [];
  ko_colon : COLON ∉ k;
  ko_hash : has_prefix [HASH] k = false
}.

Record val_ok (v : text) : Prop := { vo_line : line_ok v; vo_tight : tight v }.

(** The frontmatters that are written as they were read. *)
Inductive wf_front : Front -> Prop :=
  | wf_nil : wf_front []
  | wf_raw l f : line_ok l -> classify l = Kept -> wf_front f -> wf_front (raw_entry l :: f)
  | wf_scalar k v f : key_ok k -> val_ok v ->
      (opens_block v = true -> take_block (front_lines f) = ([], front_lines f)) ->
      wf_front f -> wf_front (scalar k v :: f)
  | wf_block k v b f : key_ok k -> val_ok v -> opens_block v = true -> Forall line_ok b ->
      b <> [] -> join [LF] b <> [] -> take_block (b ++ front_lines f) = (b, front_lines f) ->
      wf_front f -> wf_front (mkEntry k v (join [LF] b) [] :: f).

Lemma take_block_spec ls b r :
  take_block ls = (b, r) ->
  ls = b ++ r /\ take_block r = ([], r) /\ Forall (fun l => indented l || is_blank l = true) b.
Proof.
  revert b r. induction ls as [| l ls IH]; intros b r H; [by injection H as <- <-|].
  cbn [take_block] in H. destruct (indented l || is_blank l) eqn:Hc.
  - destruct (is_blank l && negb (opens_indented (l :: ls))) eqn:Hb.
    + injection H as <- <-. split_and!; [done | | done]. cbn [take_block]. by rewrite Hc, Hb.
    + destruct (take_block ls) as [b' r'] eqn:E. injection H as <- <-.
      destruct (IH _ _ eq_refl) as (-> & ? & ?). split_and!; [done | done | by constructor].
  - injection H as <- <-. split_and!; [done | | done]. cbn [take_block]. by rewrite Hc.
Qed.

Lemma opens_indented_app b r r' :
  opens_indented r' = opens_indented r -> opens_indented (b ++ r') = opens_indented (b ++ r).
Proof. intros H. induction b as [| l b IH]; [done |]. simpl. by destruct (is_blank l). Qed.

(** What follows a block matters for its first line that is not blank only. *)
Lemma take_block_ext b r r' :
  take_block (b ++ r) = (b, r) -> opens_indented r' = opens_indented r ->
  take_block r' = ([], r') -> take_block (b ++ r') = (b, r').
Proof.
  intros H Ho Hr. induction b as [| l b IH]; [done |]. cbn [app take_block] in *.
  destruct (indented l || is_blank l); [| done].
  change (l :: b ++ r') with ((l :: b) ++ r'). change (l :: b ++ r) with ((l :: b) ++ r) in H.
  rewrite (opens_indented_app (l :: b) _ _ Ho).
  destruct (is_blank l && negb (opens_indented ((l :: b) ++ r))); [done |].
  destruct (take_block (b ++ r)) as [b1 r1]. injection H as -> ->. by rewrite IH.
Qed.

Lemma COLON_solid : solid COLON = true.
Proof. done. Qed.

Lemma key_line_facts k r : key_ok k ->
  is_blank (k ++ COLON :: r) = false /\ indented (k ++ COLON :: r) = false
  /\ classify (k ++ COLON :: r) = Keyed k (trim_space r).
Proof.
  intros [_ Ht Hk Hc Hh]. pose proof (solid_not_blank k COLON r COLON_solid) as Hb.
  assert (indented (k ++ COLON :: r) = false) as Hi.
  { destruct k as [| c k]; [done |]. apply tight_head in Ht. unfold indented. simpl.
    rewrite !andb_true_r. destruct (Ascii.eqb_spec SP c) as [<- |]; [done |].
    by destruct (Ascii.eqb_spec TAB c) as [<- |]. }
  split_and!; [done | done |]. unfold classify. rewrite Hb, Hi, orb_false_l.
  rewrite (trim_space_after k COLON r) by done.
  assert (has_prefix [HASH] (k ++ COLON :: trim_right r) = false) as ->.
  { destruct k as [| c k]; [done |]. simpl in *. done. }
  rewrite index_byte_app by done. f_equal.
  - rewrite take_app_length. apply Ht.
  - f_equal. rewrite drop_app_ge by lia. by replace (S (List.length k) - List.length k)%nat with 1%nat by lia.
Qed.

(** Writing and reading again. *)
Lemma trim_space_value v : val_ok v -> trim_space (SP :: v) = v /\ trim_space v = v.
Proof. intros [_ Ht]. by rewrite trim_space_SP. Qed.

Lemma entry_lines_scalar k v : k <> [] -> entry_lines (scalar k v) = [k ++ COLON :: SP :: v].
Proof. by destruct k. Qed.

Lemma entry_lines_block k v b :
  k <> [] -> b <> [] -> join [LF] b <> [] -> Forall line_ok b ->
  entry_lines (mkEntry k v (join [LF] b) []) = (k ++ COLON :: match v with [] => [] | v => SP :: v end) :: b.
Proof.
  intros Hk Hb Hj Hl. unfold entry_lines. simpl. destruct k; [done |].
  destruct (join [LF] b) eqn:E; [done |]. rewrite <- E, lines_join; [by destruct v | done | by apply line_ok_LF].
Qed.

Lemma keyed_entry_scalar k v ls :
  (opens_block v = true -> take_block ls = ([], ls)) -> keyed_entry k v ls = (scalar k v, ls).
Proof. unfold keyed_entry. destruct (opens_block v); [| done]. by intros ->. Qed.

Lemma keyed_entry_block k v b ls r :
  opens_block v = true -> b <> [] -> take_block ls = (b, r) ->
  keyed_entry k v ls = (mkEntry k v (join [LF] b) [], r).
Proof. unfold keyed_entry. intros -> Hb ->. by destruct b. Qed.

Lemma front_lines_cons e f : front_lines (e :: f) = entry_lines e ++ front_lines f.
Proof. done. Qed.

Lemma parse_front_lines f n :
  wf_front f -> (List.length (front_lines f) <= n)%nat -> parseFront_go n (front_lines f) = inr f.
Proof.
  intros Hf. revert n.
  induction Hf as [| l f Hl Hk Hf IH | k v f Hk Hv Hb Hf IH | k v b f Hk Hv Ho Hb Hne Hj Htb Hf IH];
    intros n Hn; [by destruct n | ..]; rewrite ?front_lines_cons in *.
  - destruct n as [| n]; [simpl in Hn; lia |]. cbn [app parseFront_go entry_lines raw_entry Key Raw].
    rewrite Hk, IH; [done |]. simpl in Hn. lia.
  - rewrite entry_lines_scalar in * by apply Hk. destruct n as [| n]; [simpl in Hn; lia |].
    cbn [app parseFront_go]. destruct (key_line_facts k (SP :: v) Hk) as (_ & _ & ->).
    destruct (trim_space_value v Hv) as [-> _]. rewrite keyed_entry_scalar by done.
    rewrite IH; [done |]. simpl in Hn. lia.
  - rewrite (entry_lines_block k v b (ko_some _ Hk) Hne Hj Hb) in *. destruct n as [| n]; [simpl in Hn; lia |].
    cbn [app parseFront_go]. destruct (key_line_facts k (match v with [] => [] | v => SP :: v end) Hk) as (_ & _ & ->).
    assert (trim_space (match v with [] => [] | v => SP :: v end) = v) as ->.
    { destruct v; [done |]. by apply trim_space_value. }
    rewrite (keyed_entry_block k v b _ _ Ho Hne Htb). rewrite IH; [done |]. simpl in Hn. rewrite length_app in Hn. lia.
Qed.

(** A keyed line without a key: [Render] writes a blank line for its entry. *)
Definition keyless (l : text) : bool := match classify l with Keyed [] _ => true | _ => false end.

Definition similar (ls' ls : list text) : Prop :=
  opens_indented ls' = opens_indented ls
  /\ (take_block ls = ([], ls) -> take_block ls' = ([], ls')).

Lemma classify_keyed l k v : classify l = Keyed k v -> line_ok l -> k <> [] -> key_ok k /\ val_ok v.
Proof.
  unfold classify. destruct (is_blank l || has_prefix [HASH] (trim_space l)) eqn:Hc; [done |].
  apply orb_false_iff in Hc as [_ Hh]. destruct (indented l) eqn:Hi; [done |].
  destruct (index_byte COLON l) as [i |] eqn:Hx; [| done]. intros [= <- <-] Hl Hk.
  apply index_byte_Some in Hx as (a & b & -> & Hn & <-).
  rewrite take_app_length in *. rewrite drop_app_ge by lia.
  replace (S (List.length a) - List.length a)%nat with 1%nat by lia. simpl. rewrite drop_0.
  apply line_ok_app in Hl as [Ha [_ Hb]%line_ok_cons]. split; split.
  - by apply line_ok_trim.
  - apply trim_space_tight.
  - done.
  - destruct (trim_space_parts a) as (x & y & E). rewrite E in Hn. rewrite !not_elem_of_app in Hn. tauto.
  - unfold trim_space in Hh, Hk |- *. rewrite trim_left_solid, trim_right_solid in Hh by done.
    destruct (trim_right_spec (trim_left a)) as [[post E] _].
    destruct (trim_right (trim_left a)) as [| c t]; [done |]. rewrite E in Hh. simpl in *. done.
  - by apply line_ok_trim.
  - apply trim_space_tight.
Qed.

(** A first line that neither is blank nor starts a block. *)
Lemma similar_keyed l l' ls ls' :
  is_blank l = false -> indented l = false -> is_blank l' = false -> indented l' = false ->
  similar (l' :: ls') (l :: ls).
Proof. intros H1 H2 H3 H4. split; simpl; by rewrite ?H1, ?H2, ?H3, ?H4. Qed.

Lemma classify_keyed_open l k v : classify l = Keyed k v -> is_blank l = false /\ indented l = false.
Proof.
  unfold classify. destruct (is_blank l); [done |]. rewrite orb_false_l. destruct (has_prefix [HASH] (trim_space l)); [done |].
  by destruct (indented l).
Qed.

Lemma similar_kept l ls ls' : similar ls' ls -> similar (l :: ls') (l :: ls).
Proof.
  intros [Ho Ht]. split; [simpl; by rewrite Ho |]. cbn [take_block]. destruct (indented l || is_blank l); [| done].
  assert (opens_indented (l :: ls') = opens_indented (l :: ls)) as -> by (simpl; by rewrite Ho).
  destruct (is_blank l && _); [done |]. by destruct (take_block ls).
Qed.

Lemma keyed_entry_spec k v ls en r :
  keyed_entry k v ls = (en, r) ->
  exists b, ls = b ++ r /\ (opens_block v = true -> take_block ls = (b, r)) /\ (opens_block v = false -> b = [])
  /\ en = mkEntry k v (join [LF] b) [].
Proof.
  unfold keyed_entry. destruct (opens_block v).
  - destruct (take_block ls) as [b r'] eqn:E. destruct (take_block_spec _ _ _ E) as (-> & _ & _).
    intros H. exists b. destruct b as [| x b]; injection H as <- <-; by split_and!.
  - intros [= <- <-]. by exists [].
Qed.

(** Reading gives a frontmatter that is written as it was read, the lines of
    which open blocks as the lines read do. *)
Lemma parsed_front_wf n ls f :
  (List.length ls <= n)%nat -> Forall line_ok ls -> Forall (fun l => keyless l = false) ls ->
  parseFront_go n ls = inr f -> wf_front f /\ similar (front_lines f) ls.
Proof.
  revert ls f. induction n as [| n IH]; intros ls f Hn Hl Hk H.
  { destruct ls; [| simpl in Hn; lia]. injection H as <-. split; [constructor | done]. }
  destruct ls as [| l ls]; [injection H as <-; split; [constructor | done] |].
  apply Forall_cons_1 in Hl as [Hl Hls]. apply Forall_cons_1 in Hk as [Hk Hks].
  simpl in Hn. cbn [parseFront_go] in H.
  destruct (classify l) as [| e | k v] eqn:Hc; [| done |].
  - destruct (parseFront_go n ls) as [| f1] eqn:E; [done |]. injection H as <-.
    destruct (IH ls f1) as [Hw Hs]; [lia | done | done | done |].
    split; [by constructor |]. by apply similar_kept.
  - destruct (keyed_entry k v ls) as [en r] eqn:He.
    destruct (parseFront_go n r) as [| f1] eqn:E; [done |]. injection H as <-.
    apply keyed_entry_spec in He as (b & -> & Htb & Hb0 & ->).
    unfold keyless in Hk. rewrite Hc in Hk. assert (k <> []) as Hk0 by by destruct k.
    destruct (classify_keyed _ _ _ Hc Hl Hk0) as [Hko Hvo].
    destruct (classify_keyed_open _ _ _ Hc) as [Hnb Hni].
    apply Forall_app in Hls as [Hlb Hlr]. apply Forall_app in Hks as [_ Hkr].
    rewrite length_app in Hn. destruct (IH r f1) as [Hw [Hs1 Hs2]]; [lia | done | done | done |].
    assert (opens_block v = true -> take_block (front_lines f1) = ([], front_lines f1)) as Hstop.
    { intros Ho. apply Hs2. by destruct (take_block_spec _ _ _ (Htb Ho)) as (_ & ? & _). }
    destruct (decide (join [LF] b = [])) as [Hj | Hj].
    + rewrite Hj. split; [by apply wf_scalar |]. rewrite front_lines_cons.
      destruct (key_line_facts k (SP :: v) Hko) as (? & ? & _).
      change (mkEntry k v [] []) with (scalar k v). rewrite entry_lines_scalar by done.
      by apply similar_keyed.
    + assert (opens_block v = true) as Ho.
      { destruct (opens_block v); [done |]. by rewrite Hb0 in Hj. }
      assert (b <> []) as Hbn by by intros ->.
      split.
      * apply wf_block; try done. eapply take_block_ext; [by apply Htb | done | by apply Hstop].
      * rewrite front_lines_cons, entry_lines_block by done.
        destruct (key_line_facts k (match v with [] => [] | v => SP :: v end) Hko) as (? & ? & _).
        by apply similar_keyed.
Qed.

(** ** The document round trip *)

Definition DASHES : text := T "---".

Lemma render_entry_lines e : render_entry e = unlines (entry_lines e).
Proof.
  unfold render_entry, entry_lines. destruct (Key e) as [| c k]; [by unfold unlines; simpl; rewrite app_nil_r |].
  destruct (Block e) as [| x b] eqn:Hb.
  - unfold unlines. simpl. by rewrite app_nil_r, <- app_assoc.
  - rewrite <- Hb. unfold unlines. cbn [map concat]. fold (unlines (lines (Block e))).
    rewrite unlines_join, join_lines by apply lines_not_nil. destruct (Value e); simpl;
    by rewrite <- !app_assoc.
Qed.

Lemma render_front_lines f :
  render_front f = DASHES ++ LF :: unlines (front_lines f) ++ DASHES ++ [LF].
Proof.
  unfold render_front. do 2 f_equal. apply (f_equal (fun x => x ++ T "---" ++ [LF])).
  induction f as [| e f IH]; [done |]. cbn [map concat]. 
  by rewrite front_lines_cons, unlines_app, <- IH, render_entry_lines.
Qed.

Lemma classify_dashes : classify DASHES = Refused (NoKey DASHES).
Proof. vm_compute. reflexivity. Qed.

Lemma colon_line_dashes k r : k ++ COLON :: r <> DASHES.
Proof.
  intros E. assert (COLON ∉ DASHES) as H by by apply (bool_decide_unpack _).
  destruct H. rewrite <- E. set_solver.
Qed.

Lemma line_ok_key_line k v r :
  key_ok k -> val_ok v -> r = SP :: v \/ r = match v with [] => [] | v => SP :: v end ->
  line_ok (k ++ COLON :: r).
Proof.
  intros Hk Hv Hr. apply line_ok_app. split; [apply Hk |]. apply line_ok_cons. split; [done |].
  assert (line_ok (SP :: v)) by by (apply line_ok_cons; split; [| apply Hv]).
  destruct Hr as [-> | ->]; [done |]. destruct v; [| done]. split; apply not_elem_of_nil.
Qed.

Lemma front_lines_ok f :
  wf_front f -> Forall line_ok (front_lines f) /\ Forall (fun l => l <> DASHES) (front_lines f).
Proof.
  intros Hf. induction Hf as [| l f Hl Hk Hf IH | k v f Hk Hv Hb Hf IH | k v b f Hk Hv Ho Hb Hne Hj Htb Hf IH];
    [done | rewrite front_lines_cons, !Forall_app; destruct IH as [H1 H2]; (split; (split; [| done]))..].
  - apply Forall_singleton. done.
  - apply Forall_singleton. simpl. intros ->. by rewrite classify_dashes in Hk.
  - rewrite entry_lines_scalar by apply Hk. apply Forall_singleton. eapply line_ok_key_line; eauto.
  - rewrite entry_lines_scalar by apply Hk. apply Forall_singleton, colon_line_dashes.
  - rewrite entry_lines_block by (done || apply Hk). constructor; [| done].
    eapply line_ok_key_line; eauto.
  - rewrite entry_lines_block by (done || apply Hk). constructor; [apply colon_line_dashes |].
    apply take_block_spec in Htb as (_ & _ & Hs). revert Hs. apply Forall_impl.
    intros l Hl ->. vm_compute in Hl. done.
Qed.

(** Looking for a whole line. *)
Lemma has_prefix_line p l r :
  LF ∉ p -> LF ∉ l -> has_prefix (p ++ [LF]) (l ++ LF :: r) = bool_decide (l = p).
Proof.
  revert l. induction p as [| c p IH]; intros l Hp Hl.
  - destruct l as [| d l]; [by rewrite bool_decide_eq_true_2 | cbn [app has_prefix]].
    rewrite not_elem_of_cons in Hl. destruct (Ascii.eqb_spec LF d); [by destruct Hl |].
    by rewrite bool_decide_eq_false_2.
  - rewrite not_elem_of_cons in Hp. destruct Hp as [Hc Hp]. destruct l as [| d l]; cbn [app has_prefix].
    + destruct (Ascii.eqb_spec c LF) as [-> |]; [done |]. by rewrite bool_decide_eq_false_2.
    + rewrite not_elem_of_cons in Hl. destruct Hl as [Hd Hl]. rewrite IH by done.
      destruct (Ascii.eqb_spec c d) as [-> |]; cbn [andb].
      * apply bool_decide_ext. naive_solver.
      * rewrite bool_decide_eq_false_2; [done |]. naive_solver.
Qed.

Lemma index_sub_line p l r :
  LF ∉ l -> index_sub (LF :: p) (l ++ LF :: r)
    = if has_prefix p r then Some (List.length l)
      else (fun n => (n + S (List.length l))%nat) <$> index_sub (LF :: p) r.
Proof.
  induction l as [| c l IH]; intros Hl.
  - cbn [app List.length index_sub has_prefix]. rewrite Ascii.eqb_refl. simpl andb.
    destruct (has_prefix p r); [done |]. destruct (index_sub (LF :: p) r); simpl; [| done]. f_equal. lia.
  - rewrite not_elem_of_cons in Hl. destruct Hl as [Hc Hl]. cbn [app index_sub has_prefix].
    destruct (Ascii.eqb_spec LF c); [done |]. simpl andb. cbv iota. rewrite IH by done.
    destruct (has_prefix p r); [done |]. destruct (index_sub (LF :: p) r); simpl; [| done]. f_equal. lia.
Qed.

Lemma DASHES_no_LF : LF ∉ DASHES.
Proof. by apply (bool_decide_unpack _). Qed.

Lemma index_closing ls body :
  ls <> [] -> Forall (fun l => LF ∉ l) ls -> Forall (fun l => l <> DASHES) ls ->
  index_sub (LF :: DASHES ++ [LF]) (unlines ls ++ DASHES ++ LF :: body) = Some (List.length (join [LF] ls)).
Proof.
  intros Hne Hl Hd. induction ls as [| l ls IH]; [done |].
  apply Forall_cons_1 in Hl as [Hl Hls]. apply Forall_cons_1 in Hd as [_ Hds].
  unfold unlines. cbn [map concat]. rewrite <- !app_assoc. cbn [app].
  rewrite index_sub_line by done. fold (unlines ls). destruct ls as [| l2 ls].
  - cbn [map concat unlines app]. rewrite has_prefix_line by apply DASHES_no_LF.
    by rewrite bool_decide_eq_true_2.
  - rewrite IH by done. apply Forall_cons_1 in Hls as [Hl2 _]. apply Forall_cons_1 in Hds as [Hd2 _].
    unfold unlines. cbn [map concat]. rewrite <- !app_assoc. cbn [app].
    rewrite has_prefix_line by (done || apply DASHES_no_LF). rewrite bool_decide_eq_false_2 by done.
    simpl. f_equal. rewrite !length_app. simpl. lia.
Qed.

Lemma split_front_unlines ls body :
  ls <> [] -> Forall (fun l => LF ∉ l) ls -> Forall (fun l => l <> DASHES) ls ->
  split_front (unlines ls ++ DASHES ++ LF :: body) = Some (join [LF] ls, body).
Proof.
  intros Hne Hl Hd. unfold split_front.
  assert (has_prefix (T "---" ++ [LF]) (unlines ls ++ DASHES ++ LF :: body) = false) as ->.
  { destruct ls as [| l ls]; [done |]. apply Forall_cons_1 in Hl as [Hl _]. apply Forall_cons_1 in Hd as [Hd _].
    unfold unlines. cbn [map concat]. rewrite <- !app_assoc. cbn [app].
    rewrite has_prefix_line by (done || apply DASHES_no_LF). by rewrite bool_decide_eq_false_2. }
  rewrite bool_decide_eq_false_2.
  2: { intros E. apply DASHES_no_LF. unfold DASHES at 1. rewrite <- E. set_solver. }
  change (T "---") with DASHES. rewrite index_closing by done.
  rewrite unlines_join, <- app_assoc by done. cbn [app].
  rewrite take_app_length. do 2 f_equal.
  replace (List.length (join [LF] ls) + 5)%nat with (List.length (join [LF] ls ++ LF :: DASHES ++ [LF]))
    by (rewrite length_app; done).
  replace (join [LF] ls ++ LF :: DASHES ++ LF :: body) with ((join [LF] ls ++ LF :: DASHES ++ [LF]) ++ body)
    by (by rewrite <- app_assoc).
  apply drop_app_length.
Qed.

Definition head_line (lvl : nat) (title : text) : text := repeat HASH lvl ++ SP :: title.

(** The lines of a body with its headings in the form [Render] writes. *)
Fixpoint norm_go (inFence : bool) (ls : list text) : list text :=
  match ls with
  | [] => []
  | line :: ls =>
    let inFence := if is_fence line then negb inFence else inFence in
    match (if inFence then None else heading line) with
    | Some (lvl, title) => head_line lvl title :: norm_go inFence ls
    | None => line :: norm_go inFence ls
    end
  end.

Lemma hashes_head lvl title : hashes (head_line lvl title) = lvl.
Proof. induction lvl as [| n IH]; [done |]. unfold head_line in *. simpl. by rewrite IH. Qed.

Lemma heading_head lvl title : (1 <= lvl <= 6)%nat -> heading (head_line lvl title) = Some (lvl, trim_space title).
Proof.
  intros Hl. unfold heading. rewrite hashes_head. unfold head_line.
  replace lvl with (List.length (repeat HASH lvl)) at 1 by apply repeat_length.
  rewrite drop_app_length. rewrite (proj2 (Nat.leb_le 1 lvl)), (proj2 (Nat.leb_le lvl 6)) by lia. done.
Qed.

Lemma heading_Some line lvl title :
  heading line = Some (lvl, title) ->
  (1 <= lvl <= 6)%nat /\ exists r, line = head_line lvl r /\ title = trim_space r.
Proof.
  unfold heading. destruct (drop (hashes line) line) as [| c r] eqn:Hd; [done |].
  destruct (_ && _) eqn:Hc; [| done]. intros [= <- <-].
  rewrite !andb_true_iff, !Nat.leb_le, Ascii.eqb_eq in Hc. destruct Hc as [[? ?] ->].
  split; [done |]. exists r. split; [| done]. unfold head_line. rewrite <- Hd. clear.
  induction line as [| c l IH]; [done |]. simpl. destruct (Ascii.eqb_spec c HASH) as [-> |]; [| done].
  simpl. by rewrite <- IH.
Qed.

Lemma is_fence_head lvl title : (1 <= lvl)%nat -> is_fence (head_line lvl title) = false.
Proof.
  intros Hl. destruct lvl as [| lvl]; [lia |]. unfold is_fence, head_line. cbn [repeat app].
  change (HASH :: repeat HASH lvl ++ SP :: title) with ([] ++ HASH :: repeat HASH lvl ++ SP :: title).
  by rewrite trim_space_after.
Qed.

Lemma sections_go_norm cur buf f ls : sections_go cur buf f (norm_go f ls) = sections_go cur buf f ls.
Proof.
  revert cur buf f. induction ls as [| l ls IH]; intros cur buf f; [done |]. cbn [norm_go].
  set (f' := if is_fence l then negb f else f).
  destruct (if f' then None else heading l) as [[lvl t] |] eqn:Hh.
  - destruct f' eqn:Hf'; [done |]. pose proof Hh as (Hl & r & -> & ->)%heading_Some.
    unfold f' in Hf'. rewrite is_fence_head in Hf' by lia. subst f. clear f'.
    cbn [sections_go]. rewrite !is_fence_head by lia. rewrite Hh, heading_head by done.
    rewrite (trim_space_tight r). by rewrite IH.
  - cbn [sections_go]. fold f'. by rewrite Hh, IH.
Qed.

Definition render_sections (ss : list section) : text := concat (map render_section ss).

Lemma has_suffix_unlines buf : buf <> [] -> has_suffix [LF] (unlines buf) = true.
Proof. intros H. rewrite unlines_join by done. unfold has_suffix. by rewrite rev_app_distr. Qed.

Lemma render_section_lines lvl title buf :
  render_section (mkSection lvl title (unlines buf))
    = unlines ((if (0 <? lvl)%nat then [head_line lvl title] else []) ++ buf).
Proof.
  rewrite unlines_app. unfold render_section. cbn [Level Title Content].
  assert ((match unlines buf with [] => [] | c => if has_suffix [LF] c then [] else [LF] end : text) = []) as ->.
  { destruct buf as [| l buf]; [done |]. pose proof (has_suffix_unlines (l :: buf) ltac:(done)) as H.
    by destruct (unlines (l :: buf)); [| rewrite H]. }
  rewrite app_nil_r. f_equal. destruct (0 <? lvl)%nat; [| done]. unfold unlines, head_line. simpl.
  by rewrite app_nil_r, <- app_assoc.
Qed.

Lemma flush_level cur buf : Level cur <> 0%nat ->
  flush cur buf = [mkSection (Level cur) (Title cur) (unlines buf)].
Proof. intros H. unfold flush. by rewrite (bool_decide_eq_false_2 (Level cur = 0%nat)). Qed.

Lemma render_sections_go cur buf f ls :
  (1 <= Level cur)%nat ->
  render_sections (sections_go cur buf f ls)
    = unlines (head_line (Level cur) (Title cur) :: buf ++ norm_go f ls).
Proof.
  revert cur buf f. induction ls as [| l ls IH]; intros cur buf f Hc; cbn [sections_go norm_go].
  - rewrite flush_level by lia. unfold render_sections. cbn [map concat].
    rewrite render_section_lines, !app_nil_r. by rewrite (proj2 (Nat.ltb_lt 0 _)).
  - destruct (if (if is_fence l then negb f else f) then None else heading l) as [[lvl t] |] eqn:Hh.
    + destruct (if is_fence l then negb f else f); [done |]. apply heading_Some in Hh as (Hl & _).
      rewrite flush_level by lia. unfold render_sections in *. cbn [app map concat].
      rewrite IH by (simpl; lia). cbn [Level Title]. rewrite render_section_lines.
      rewrite (proj2 (Nat.ltb_lt 0 _)) by lia. rewrite <- unlines_app. by rewrite <- !app_assoc.
    + rewrite IH by done. f_equal. by rewrite <- app_assoc.
Qed.

Lemma line_ok_head lvl t : line_ok t -> line_ok (head_line lvl t).
Proof.
  intros Ht. apply line_ok_app. split; [| by apply line_ok_cons].
  split; intros Hin; apply list_elem_of_In, repeat_spec in Hin; done.
Qed.

Lemma norm_go_ok f ls : Forall line_ok ls -> Forall line_ok (norm_go f ls).
Proof.
  intros H. revert f. induction H as [| l ls Hl Hls IH]; intros f; [done |]. cbn [norm_go].
  destruct (if (if is_fence l then negb f else f) then None else heading l) as [[lvl t] |] eqn:Hh;
    constructor; try done.
  destruct (if is_fence l then negb f else f); [done |].
  apply heading_Some in Hh as (_ & r & -> & ->). apply line_ok_head, line_ok_trim.
  apply line_ok_app in Hl as [_ Hl]. by apply line_ok_cons in Hl as [_ ?].
Qed.

(** The sections of a body are written as lines that read back as them. *)
Lemma render_sections_from buf f ls :
  Forall line_ok buf -> Forall line_ok ls ->
  (forall more, sections_go no_section [] false (buf ++ more) = sections_go no_section buf f more) ->
  exists ls', render_sections (sections_go no_section buf f ls) = unlines ls'
  /\ sections_go no_section [] false ls' = sections_go no_section buf f ls /\ Forall line_ok ls'.
Proof.
  intros Hb Hls. revert buf f Hb. induction Hls as [| l ls Hl Hls IH]; intros buf f Hb Hrun.
  - exists (if is_blank (unlines buf) then [] else buf). cbn [sections_go]. unfold flush. simpl bool_decide.
    cbn [Level Title andb no_section]. destruct (is_blank (unlines buf)) eqn:Hbl; [done |].
    unfold render_sections. cbn [map concat].
    rewrite render_section_lines, app_nil_r. simpl. split_and!; [done | | done].
    rewrite <- (app_nil_r buf) at 1. rewrite Hrun. cbn [sections_go]. unfold flush. simpl. by rewrite Hbl.
  - cbn [sections_go]. set (f' := if is_fence l then negb f else f).
    destruct (if f' then None else heading l) as [[lvl t] |] eqn:Hh.
    2: { apply IH.
         - apply Forall_app. split; [done | by apply Forall_singleton].
         - intros more. rewrite <- app_assoc, Hrun. cbn [app sections_go]. fold f'. by rewrite Hh. }
    destruct f' eqn:Hf'; [done |]. pose proof Hh as (Hlv & r & -> & ->)%heading_Some.
    unfold f' in Hf'. rewrite is_fence_head in Hf' by lia. clear f'. subst f.
    apply line_ok_app in Hl as [_ [_ Hr]%line_ok_cons]. apply line_ok_trim in Hr.
    assert (sections_go no_section [] false (head_line lvl (trim_space r) :: norm_go false ls)
      = sections_go (mkSection lvl (trim_space r) []) [] false ls) as Hhead.
    { cbn [sections_go]. rewrite is_fence_head, heading_head, trim_space_tight, sections_go_norm by lia. done. }
    exists ((if is_blank (unlines buf) then [] else buf) ++ head_line lvl (trim_space r) :: norm_go false ls).
    unfold flush. simpl bool_decide. cbn [Level Title andb]. unfold render_sections.
    rewrite map_app, concat_app. fold (render_sections (sections_go (mkSection lvl (trim_space r) []) [] false ls)).
    rewrite render_sections_go by (simpl; lia). cbn [Level Title app].
    assert (Forall line_ok (head_line lvl (trim_space r) :: norm_go false ls)).
    { constructor; [by apply line_ok_head | by apply norm_go_ok]. }
    destruct (is_blank (unlines buf)) eqn:Hbl; [done |]. split_and!.
    + cbn [map concat app]. rewrite render_section_lines, app_nil_r. simpl. by rewrite unlines_app.
    + rewrite Hrun. cbn [sections_go]. rewrite is_fence_head, heading_head, trim_space_tight, sections_go_norm by lia.
      unfold flush. simpl. by rewrite Hbl.
    + by apply Forall_app.
Qed.

Lemma body_lines_unlines ls : Forall line_ok ls -> body_lines (unlines ls) = ls.
Proof.
  intros H. unfold body_lines. rewrite <- (app_nil_r (unlines ls)), lines_unlines by by apply line_ok_LF.
  change (lines []) with [[] : text]. rewrite list.last_snoc, length_app. simpl.
  apply take_app_length'. lia.
Qed.

Lemma parseSections_unlines ls :
  Forall line_ok ls -> parseSections (unlines ls) = sections_go no_section [] false ls.
Proof.
  intros H. destruct ls as [| l ls]; [done |]. unfold parseSections. rewrite body_lines_unlines by done.
  destruct (unlines (l :: ls)) eqn:E; [| done]. unfold unlines in E. simpl in E. by destruct l.
Qed.

Lemma body_lines_ok body : CR ∉ body -> Forall line_ok (body_lines body).
Proof.
  intros H%lines_line_ok. unfold body_lines. destruct (list.last (lines body)) as [[| c l] |]; [| done..].
  by apply Forall_take.
Qed.

Lemma parseSections_render body :
  CR ∉ body ->
  exists ls, render_sections (parseSections body) = unlines ls /\ Forall line_ok ls
  /\ parseSections (unlines ls) = parseSections body.
Proof.
  intros H. destruct (decide (body = [])) as [-> | Hne]; [by exists [] |].
  destruct (render_sections_from [] false (body_lines body)) as (ls & H1 & H2 & H3);
    [constructor | by apply body_lines_ok | done |].
  assert (parseSections body = sections_go no_section [] false (body_lines body)) as E
    by by destruct body.
  exists ls. rewrite E, parseSections_unlines by done. done.
Qed.

Lemma unlines_no_CR ls : Forall line_ok ls -> CR ∉ unlines ls.
Proof.
  intros H. unfold unlines. induction H as [| l ls [_ Hl] _ IH]; simpl; [apply not_elem_of_nil |].
  rewrite !not_elem_of_app. split; [split; [done |] | done].
  by intros ?%list_elem_of_singleton.
Qed.

(** A body that opens with a rule is known by its first section. *)
Lemma rule_section buf rest : opens_with_rule (flush no_section (DASHES :: buf) ++ rest) = true.
Proof.
  unfold flush. simpl bool_decide. cbn [Level Title andb no_section].
  assert (is_blank (unlines (DASHES :: buf)) = false) as ->.
  { change (unlines (DASHES :: buf)) with ([] ++ "-"%char :: T "--" ++ LF :: unlines buf).
    by apply solid_not_blank. }
  done.
Qed.

Lemma rule_sections buf f ls : opens_with_rule (sections_go no_section (DASHES :: buf) f ls) = true.
Proof.
  revert buf f. induction ls as [| l ls IH]; intros buf f; cbn [sections_go].
  - rewrite <- (app_nil_r (flush _ _)). apply rule_section.
  - destruct (if (if is_fence l then negb f else f) then None else heading l) as [[lvl t] |].
    + apply rule_section.
    + apply (IH (buf ++ [l])).
Qed.

Lemma no_rule_prefix ls :
  Forall line_ok ls -> opens_with_rule (sections_go no_section [] false ls) = false ->
  has_prefix (DASHES ++ [LF]) (unlines ls) = false.
Proof.
  intros Hl H. destruct ls as [| l ls]; [done |]. apply Forall_cons_1 in Hl as [[Hl _] _].
  unfold unlines. cbn [map concat]. rewrite <- app_assoc. cbn [app].
  rewrite has_prefix_line by (done || apply DASHES_no_LF). apply bool_decide_eq_false. intros ->.
  by rewrite (rule_sections [] false ls : opens_with_rule (sections_go no_section [] false (DASHES :: ls)) = true) in H.
Qed.

(** The frontmatter of a file, as text. *)
Definition front_text (raw : text) : option text :=
  if has_prefix (DASHES ++ [LF]) (crlf raw) then fst <$> split_front (drop 4 (crlf raw)) else None.

(** No frontmatter line lacks a key before its colon. *)
Definition well_keyed (raw : text) : bool :=
  match front_text raw with Some fm => forallb (fun l => negb (keyless l)) (lines fm) | None => true end.

(** Writing makes an empty frontmatter explicit where the body opens with a
    rule; it reads back as one blank line. *)
Definition settled (d : Doc) : Doc :=
  if bool_decide (doc_Front d = []) && bodyOpensWithRule d then mkDoc [raw_entry []] (doc_Sections d) else d.

Lemma split_front_chars c rest fm body :
  c ∉ rest -> split_front rest = Some (fm, body) -> c ∉ fm /\ c ∉ body.
Proof.
  assert (forall n (l : text), c ∉ l -> c ∉ take n l /\ c ∉ drop n l) as Hs.
  { intros n l. rewrite <- (take_drop n l) at 1. by rewrite not_elem_of_app. }
  intros Hc. unfold split_front. repeat case_match; intros [= <- <-]; split; try (by apply Hs);
    apply not_elem_of_nil.
Qed.

(** Writing and reading again, by the lines of the frontmatter. *)
Lemma Parse_render_lines g f ls :
  front_lines g <> [] -> Forall line_ok (front_lines g) -> Forall (fun l => l <> DASHES) (front_lines g) ->
  parseFront_go (List.length (front_lines g)) (front_lines g) = inr f -> Forall line_ok ls ->
  Parse (render_front g ++ unlines ls) = inr (mkDoc f (parseSections (unlines ls))).
Proof.
  intros Hfl Hl Hd Hp Hls. unfold Parse. rewrite crlf_id.
  2: { rewrite not_elem_of_app. split; [| by apply unlines_no_CR]. rewrite render_front_lines.
       rewrite not_elem_of_app. split; [by apply (bool_decide_unpack _) |]. apply not_elem_of_cons.
       split; [done |]. apply not_elem_of_app.
       split; [by apply unlines_no_CR | by apply (bool_decide_unpack _)]. }
  assert (render_front g ++ unlines ls
    = (DASHES ++ [LF]) ++ unlines (front_lines g) ++ DASHES ++ LF :: unlines ls) as ->.
  { rewrite render_front_lines, <- !app_assoc. cbn [app]. by rewrite <- !app_assoc. }
  change (T "---" ++ [LF]) with (DASHES ++ [LF]). rewrite has_prefix_app.
  change 4%nat with (List.length (DASHES ++ [LF])). rewrite drop_app_length.
  rewrite split_front_unlines; [| done | by apply line_ok_LF | done].
  unfold parseFront. rewrite lines_join; [| done | by apply line_ok_LF]. by rewrite Hp.
Qed.

Lemma front_lines_not_nil f : wf_front f -> f <> [] -> front_lines f <> [].
Proof.
  intros [| | k v f' H | k v b f' H _ _ _ _ Hj _ _]; rewrite ?front_lines_cons; [done | done | |].
  - by rewrite entry_lines_scalar by apply H.
  - intros _. unfold entry_lines. simpl. destruct k; [by destruct (ko_some _ H) |]. by destruct (join [LF] b).
Qed.

Lemma Parse_Render_front f ls :
  wf_front f -> f <> [] -> Forall line_ok ls ->
  Parse (render_front f ++ unlines ls) = inr (mkDoc f (parseSections (unlines ls))).
Proof.
  intros Hf Hne Hls. destruct (front_lines_ok f Hf).
  apply Parse_render_lines; [by apply front_lines_not_nil | done | done | | done].
  by apply parse_front_lines.
Qed.

Lemma Render_eq d :
  Render d = (if negb (bool_decide (doc_Front d = [])) || bodyOpensWithRule d
              then render_front (doc_Front d) else []) ++ render_sections (doc_Sections d).
Proof. unfold Render. by destruct (bool_decide (doc_Front d = [])). Qed.

(** ** Setting a scalar *)

Lemma quoteScalar_val v : val_ok (quoteScalar v) /\ opens_block (quoteScalar v) = false.
Proof.
  unfold quoteScalar. destruct (needs_quotes v) eqn:Hn.
  - split; [split; [| apply quoted_tight] |].
    + apply line_ok_cons. split; [done |]. apply line_ok_app. split; [| split; by apply (bool_decide_unpack _)].
      unfold escape. clear Hn. induction v as [| c v IH]; [split; apply not_elem_of_nil |].
      apply line_ok_app. split; [| done]. unfold escape_scalar.
      repeat (match goal with |- context [Ascii.eqb c ?x] => destruct (Ascii.eqb_spec c x) as [-> |] end; simpl);
        split; rewrite ?not_elem_of_cons; split_and?; try done; apply not_elem_of_nil.
    + done.
  - unfold needs_quotes in Hn. rewrite !orb_false_iff in Hn. destruct Hn as [[[Hv Ht] Hc] Hh].
    rewrite contains_any_false in Hc. apply negb_false_iff, bool_decide_eq_true in Ht.
    split; [split; [split; apply Hc; set_solver | done] |].
    unfold opens_block, is_indicator. rewrite Hv, orb_false_l. destruct v as [| c v]; [done |].
    simpl in Hh. rewrite !orb_false_iff in Hh. destruct Hh as (H1 & H2 & _).
    apply Ascii.eqb_neq in H1, H2. simpl. rewrite !bool_decide_eq_false_2 by congruence. simpl.
    assert (HASH ∉ c :: v) as Hx by (apply Hc; set_solver). rewrite not_elem_of_cons in Hx.
    by destruct (Ascii.eqb_spec HASH c); [destruct Hx |].
Qed.

Lemma keyed_entry_take k v ls b r :
  opens_block v = true -> take_block ls = (b, r) -> keyed_entry k v ls = (mkEntry k v (join [LF] b) [], r).
Proof.
  unfold keyed_entry. intros -> H. rewrite H. destruct b; [| done].
  apply take_block_spec in H as (-> & _). done.
Qed.

Section snoc.
Context (line : text) (Hb : is_blank line = false) (Hi : indented line = false).

Lemma opens_indented_snoc ls :
  opens_indented (ls ++ [line]) = negb (forallb is_blank ls) && opens_indented ls.
Proof using Hb Hi.
  induction ls as [| l ls IH]; simpl; [by rewrite Hb, Hi |]. by destruct (is_blank l).
Qed.

Lemma take_block_blank ls : forallb is_blank ls = true -> take_block ls = (ls, []).
Proof using Type.
  induction ls as [| l ls IH]; [done |]. simpl. intros [Hl Hls]%andb_true_iff.
  rewrite Hl, orb_true_r, IH by done. assert (opens_indented ls = true) as ->; [| done].
  clear IH. induction ls as [| x ls IH]; [done |]. simpl in *. apply andb_true_iff in Hls as [-> ?]. auto.
Qed.

(** A further line ends the last block before its trailing blank lines. *)
Lemma take_block_snoc ls b r :
  take_block ls = (b, r) ->
  exists b' r', take_block (ls ++ [line]) = (b', r' ++ [line])
  /\ ((b' = b /\ r' = r) \/ (r = [] /\ b = b' ++ r' /\ forallb is_blank r' = true)).
Proof using Hb Hi.
  revert b r. induction ls as [| l ls IH]; intros b r H.
  { injection H as <- <-. exists [], []. split; [| by left]. simpl. by rewrite Hb, Hi. }
  cbn [app take_block] in *. destruct (indented l || is_blank l); [| injection H as <- <-; exists [], (l :: ls); auto].
  change (l :: ls ++ [line]) with ((l :: ls) ++ [line]). rewrite opens_indented_snoc.
  destruct (is_blank l) eqn:Hl; cbn [andb] in *.
  - destruct (opens_indented (l :: ls)) eqn:Ho; cbn [negb] in H.
    2: { injection H as <- <-. rewrite andb_false_r. exists [], (l :: ls). auto. }
    rewrite andb_true_r, negb_involutive. destruct (forallb is_blank (l :: ls)) eqn:Hall.
    { simpl in Hall. rewrite Hl in Hall. rewrite take_block_blank in H by done. injection H as <- <-.
      exists [], (l :: ls). split; [done |]. right. split_and!; [done | done |]. simpl. by rewrite Hl. }
    destruct (take_block ls) as [b0 r0]. injection H as <- <-.
    destruct (IH _ _ eq_refl) as (b' & r' & -> & Hc). exists (l :: b'), r'. split; [done |].
    destruct Hc as [[-> ->] | (-> & -> & ?)]; [by left | by right].
  - destruct (take_block ls) as [b0 r0]. injection H as <- <-.
    destruct (IH _ _ eq_refl) as (b' & r' & -> & Hc). exists (l :: b'), r'. split; [done |].
    destruct Hc as [[-> ->] | (-> & -> & ?)]; [by left | by right].
Qed.

Context (k q : text) (Hc : classify line = Keyed k q) (Ho : opens_block q = false).

Lemma parse_blank_snoc m r :
  forallb is_blank r = true -> (List.length r < m)%nat ->
  parseFront_go m (r ++ [line]) = inr (map raw_entry r ++ [scalar k q]).
Proof using Hc Ho.
  revert m. induction r as [| l r IH]; intros m Hr Hm; (destruct m as [| m]; [simpl in Hm; lia |]).
  - cbn [app parseFront_go]. rewrite Hc, keyed_entry_scalar by congruence. by destruct m.
  - simpl in Hr, Hm. apply andb_true_iff in Hr as [Hl Hr]. cbn [app parseFront_go].
    assert (classify l = Kept) as -> by (unfold classify; by rewrite Hl).
    rewrite IH by (done || lia). done.
Qed.

Lemma parse_snoc n ls f :
  (List.length ls <= n)%nat -> parseFront_go n ls = inr f -> k <> [] ->
  exists f', (forall m, (List.length ls < m)%nat -> parseFront_go m (ls ++ [line]) = inr (f' ++ [scalar k q]))
  /\ forall e, e ∈ f' -> Key e = k -> k ∈ map Key f.
Proof using Hb Hi Hc Ho.
  intros Hn H Hk. revert ls f Hn H. induction n as [| n IH]; intros ls f Hn H.
  { destruct ls; [| simpl in Hn; lia]. exists []. split; [| by intros e ?%elem_of_nil].
    intros m Hm. by apply (parse_blank_snoc m []). }
  destruct ls as [| l ls].
  { exists []. split; [| by intros e ?%elem_of_nil]. intros m Hm. by apply (parse_blank_snoc m []). }
  simpl in Hn. cbn [parseFront_go] in H. destruct (classify l) as [| | k0 v0] eqn:Hcl; [| done |].
  - destruct (parseFront_go n ls) as [| f1] eqn:E; [done |]. injection H as <-.
    destruct (IH ls f1) as (f' & Hf' & Hin); [lia | done |]. exists (raw_entry l :: f'). split.
    + intros m Hm. destruct m as [| m]; [simpl in Hm; lia |]. cbn [app parseFront_go].
      rewrite Hcl, Hf' by (simpl in Hm; lia). done.
    + intros e [-> | He]%elem_of_cons Hke; [by subst k |]. simpl. right. by eapply Hin.
  - destruct (keyed_entry k0 v0 ls) as [en r] eqn:He. destruct (parseFront_go n r) as [| f1] eqn:E; [done |].
    injection H as <-.
    apply keyed_entry_spec in He as (b & Hls & Hopen & Hno & Hen).
    assert (List.length ls = List.length b + List.length r)%nat as Hlen by (by rewrite Hls, length_app).
    assert (exists b' r', keyed_entry k0 v0 (ls ++ [line]) = (mkEntry k0 v0 (join [LF] b') [], r' ++ [line])
      /\ (List.length r' <= List.length ls)%nat /\ (r' = r \/ forallb is_blank r' = true))
      as (b' & r' & He' & Hle & Hr').
    { destruct (opens_block v0) eqn:Hov.
      - destruct (take_block_snoc _ _ _ (Hopen eq_refl)) as (b' & r' & Ht & Hc'). exists b', r'.
        rewrite (keyed_entry_take _ _ _ _ _ Hov Ht). split; [done |].
        destruct Hc' as [[-> ->] | (-> & -> & ?)]; [by split; [lia | left] |].
        rewrite length_app in Hlen. split; [simpl in *; lia | by right].
      - exists [], ls. rewrite keyed_entry_scalar by congruence. rewrite Hno in Hls by done.
        split_and!; [done | lia | by left]. }
    destruct Hr' as [-> | Hbl].
    + destruct (IH r f1) as (f' & Hf' & Hin); [lia | done |]. exists (mkEntry k0 v0 (join [LF] b') [] :: f'). split.
      * intros m Hm. destruct m as [| m]; [simpl in Hm; lia |]. cbn [app parseFront_go].
        rewrite Hcl, He', Hf' by (simpl in Hm; lia). done.
      * intros e [-> | Hin']%elem_of_cons Hke; subst en; simpl in *; [set_solver |].
        apply elem_of_cons. right. by eapply Hin.
    + exists (mkEntry k0 v0 (join [LF] b') [] :: map raw_entry r'). split.
      * intros m Hm. destruct m as [| m]; [simpl in Hm; lia |]. cbn [app parseFront_go].
        rewrite Hcl, He', parse_blank_snoc by (done || simpl in Hm; lia). done.
      * intros e [-> | Hin']%elem_of_cons Hke; subst en; simpl in *; [set_solver |].
        apply list_elem_of_In, in_map_iff in Hin' as (x & <- & _). by subst k.
Qed.
End snoc.

(** The first line of a keyed entry. *)
Lemma keyed_first_line e f :
  wf_front (e :: f) -> Key e <> [] ->
  exists r ls, entry_lines e = (Key e ++ COLON :: r) :: ls /\ key_ok (Key e) /\ wf_front f.
Proof.
  intros Hw Hk. inversion Hw; subst; simpl in Hk; [done | |].
  - simpl. rewrite entry_lines_scalar by done. by eexists _, [].
  - simpl Key. rewrite entry_lines_block by done. by eexists _, _.
Qed.

Lemma similar_first e e' f f' :
  wf_front (e :: f) -> wf_front (e' :: f') -> Key e <> [] -> Key e' <> [] ->
  similar (front_lines (e' :: f')) (front_lines (e :: f)).
Proof.
  intros H H' Hk Hk'. destruct (keyed_first_line _ _ H Hk) as (r & ls & E & Hko & _).
  destruct (keyed_first_line _ _ H' Hk') as (r' & ls' & E' & Hko' & _).
  rewrite !front_lines_cons, E, E'. cbn [app].
  destruct (key_line_facts (Key e) r Hko) as (? & ? & _).
  destruct (key_line_facts (Key e') r' Hko') as (? & ? & _). by apply similar_keyed.
Qed.

(** A change behind an entry that leaves the next lines similar. *)
Lemma wf_front_tail e f f' :
  wf_front (e :: f) -> wf_front f' -> similar (front_lines f') (front_lines f) ->
  wf_front (e :: f') /\ similar (front_lines (e :: f')) (front_lines (e :: f)).
Proof.
  intros H Hf' [Ho Ht].
  assert (wf_front (e :: f')) as Hw.
  { inversion H; subst.
    - by constructor.
    - apply wf_scalar; auto.
    - apply wf_block; try done. eapply take_block_ext; [done | done |]. apply Ht.
      by match goal with H : take_block _ = _ |- _ => apply take_block_spec in H as (_ & ? & _) end. }
  split; [done |]. destruct (decide (Key e = [])) as [E | E]; [| by apply similar_first].
  rewrite !front_lines_cons. unfold entry_lines. rewrite E. by apply similar_kept.
Qed.

(** A key that is replaced. *)
Lemma put_entry_wf f k q :
  wf_front f -> key_ok k -> val_ok q -> opens_block q = false -> k ∈ map Key f ->
  wf_front (put_entry f k (scalar k q))
  /\ similar (front_lines (put_entry f k (scalar k q))) (front_lines f).
Proof.
  intros Hf Hk Hq Ho. induction f as [| e f IH]; intros Hin; [by apply elem_of_nil in Hin |].
  assert (wf_front f) as Hf' by by inversion Hf. cbn [put_entry]. case_bool_decide as E.
  - assert (wf_front (scalar k q :: f)) by (apply wf_scalar; [done | done | congruence | done]).
    split; [done |]. apply similar_first; try done; simpl; rewrite ?E; apply Hk.
  - destruct IH as [Hw Hs]; [done | |]; [| by eapply wf_front_tail].
    simpl in Hin. apply elem_of_cons in Hin as [-> |]; done.
Qed.

Lemma put_entry_not_nil f k new : put_entry f k new <> [].
Proof. destruct f; [done |]. cbn [put_entry]. by case_bool_decide. Qed.

(** A key that is appended. *)
Lemma put_entry_new f k new : k ∉ map Key f -> put_entry f k new = f ++ [new].
Proof.
  induction f as [| e f IH]; [done |]. simpl. intros Hn%not_elem_of_cons.
  rewrite bool_decide_eq_false_2 by (intros E; by destruct Hn). rewrite IH by tauto. done.
Qed.

Lemma Get_snoc f k v : (forall e, e ∈ f -> Key e <> k) -> Get (f ++ [scalar k v]) k = Some (clean v).
Proof.
  unfold Get. intros H.
  assert (List.find (fun e => bool_decide (Key e = k) && bool_decide (Block e = [])) (f ++ [scalar k v])
    = Some (scalar k v)) as ->; [| done].
  induction f as [| e f IH]; simpl; [by rewrite !bool_decide_eq_true_2 |].
  rewrite (bool_decide_eq_false_2 (Key e = k)) by (apply H; set_solver). simpl. apply IH.
  intros e' He'. apply H. set_solver.
Qed.

(** A frontmatter with a scalar set, written and read. *)
Lemma Set_parse f k v ls :
  wf_front f -> key_ok k -> Forall line_ok ls ->
  exists f', Parse (render_front (SetScalar f k v) ++ unlines ls) = inr (mkDoc f' (parseSections (unlines ls)))
  /\ Get f' k = Some v.
Proof.
  intros Hf Hk Hls. destruct (quoteScalar_val v) as [Hq Ho]. unfold SetScalar.
  destruct (decide (k ∈ map Key f)) as [Hin | Hnew].
  - destruct (put_entry_wf f k (quoteScalar v) Hf Hk Hq Ho Hin) as [Hw _].
    exists (SetScalar f k v). split; [| apply Get_SetScalar]. apply Parse_Render_front; [done | | done].
    apply put_entry_not_nil.
  - rewrite put_entry_new by done.
    assert (front_lines (f ++ [scalar k (quoteScalar v)]) = front_lines f ++ [k ++ COLON :: SP :: quoteScalar v])
      as El.
    { unfold front_lines. rewrite map_app, concat_app. cbn [map concat].
      by rewrite entry_lines_scalar, app_nil_r by apply Hk. }
    destruct (key_line_facts k (SP :: quoteScalar v) Hk) as (Hb & Hi & Hc).
    destruct (trim_space_value _ Hq) as [Htq _]. rewrite Htq in Hc.
    destruct (parse_snoc _ Hb Hi k (quoteScalar v) Hc Ho _ (front_lines f) f (le_n _)) as (f' & Hp & Hkeys).
    { by apply parse_front_lines. }
    { apply Hk. }
    destruct (front_lines_ok f Hf) as [Hl Hd].
    exists (f' ++ [scalar k (quoteScalar v)]). split.
    + apply Parse_render_lines; rewrite ?El; [by apply snoc_not_nil | | | | done].
      * apply Forall_app. split; [done |]. apply Forall_singleton. eapply line_ok_key_line; eauto.
      * apply Forall_app. split; [done |]. apply Forall_singleton, colon_line_dashes.
      * apply Hp. rewrite length_app. simpl. lia.
    + rewrite Get_snoc, clean_quoteScalar; [done |]. intros e He E. by apply Hnew, (Hkeys e).
Qed.

(** What [Parse] reads is written as lines it reads again. *)
Lemma parsed_parts raw d :
  CR ∉ crlf raw -> well_keyed raw = true -> Parse raw = inr d ->
  wf_front (doc_Front d)
  /\ exists ls, render_sections (doc_Sections d) = unlines ls /\ Forall line_ok ls
     /\ parseSections (unlines ls) = doc_Sections d.
Proof.
  intros Hcr Hwk H.
  assert (exists body, CR ∉ body /\ doc_Sections d = parseSections body /\ wf_front (doc_Front d))
    as (body & Hb & -> & Hf).
  2: { split; [done |]. destruct (parseSections_render body Hb) as (ls & ? & ? & ?). by exists ls. }
  unfold Parse in H. unfold well_keyed, front_text in Hwk.
  change (T "---" ++ [LF]) with (DASHES ++ [LF]) in H. destruct (has_prefix _ _).
  - destruct (split_front _) as [[t body] |] eqn:Hsp; [| done]. simpl in Hwk.
    assert (CR ∉ drop 4 (crlf raw)) as Hd.
    { rewrite <- (take_drop 4 (crlf raw)) in Hcr. rewrite not_elem_of_app in Hcr. tauto. }
    destruct (split_front_chars _ _ _ _ Hd Hsp) as [Ht ?].
    destruct (parseFront t) as [| f] eqn:E; [done |]. injection H as <-. exists body. split_and!; [done.. |].
    destruct (parsed_front_wf (List.length (lines t)) (lines t) f) as [Hw _];
      [lia | by apply lines_line_ok | | exact E | done].
    apply Forall_forall. intros l Hl. rewrite forallb_elem in Hwk. apply negb_true_iff, Hwk.
    by apply list_elem_of_In.
  - injection H as <-. exists (crlf raw). split_and!; [done.. | constructor].
Qed.

(** ** Properties *)

(** C36: Where every carriage return ends a line and every frontmatter line has a
    key, reading, writing and reading again loses nothing: the document [Parse]
    read is the one it reads from what [Render] writes - every known and unknown
    key, comment and blank line of the frontmatter, every section with its level,
    title and exact content, fenced blocks included - except that where the
    frontmatter is empty and the body opens with a rule, one blank frontmatter line
    is added.  [keyless_line_lost] shows what is lost otherwise. *)
Theorem Parse_Render raw d :
  CR ∉ crlf raw -> well_keyed raw = true -> Parse raw = inr d -> Parse (Render d) = inr (settled d).
Proof.
  intros Hcr Hwk H. destruct (parsed_parts raw d Hcr Hwk H) as (Hf & ls & Hls & Hlo & Hps).
  rewrite Render_eq, Hls. unfold settled. destruct (decide (doc_Front d = [])) as [E | Hne].
  - rewrite E, bool_decide_eq_true_2 by done. simpl. destruct (bodyOpensWithRule d) eqn:Hr.
    + unfold Parse. rewrite crlf_id.
      2: { apply not_elem_of_app. split; [by apply (bool_decide_unpack _) | by apply unlines_no_CR]. }
      rewrite <- Hps. done.
    + unfold Parse. cbn [app]. rewrite crlf_id by by apply unlines_no_CR.
      change (T "---" ++ [LF]) with (DASHES ++ [LF]). rewrite no_rule_prefix; [| done |].
      * rewrite Hps. destruct d. simpl in *. by subst.
      * rewrite <- parseSections_unlines, Hps by done. done.
  - rewrite bool_decide_eq_false_2 by done. cbn [negb orb andb].
    rewrite Parse_Render_front by done. rewrite Hps. by destruct d.
Qed.

(** A value that is set survives the file: whatever text [v] a caller sets
    under a key of a document it read - newlines, quotes, comment signs, leading
    or trailing spaces - the written file parses, keeps every section, and gives
    [v] back. *)
Theorem Set_survives raw d k v :
  CR ∉ crlf raw -> well_keyed raw = true -> Parse raw = inr d -> key_ok k ->
  exists d', Parse (Render (mkDoc (SetScalar (doc_Front d) k v) (doc_Sections d))) = inr d'
  /\ Get (doc_Front d') k = Some v /\ doc_Sections d' = doc_Sections d.
Proof.
  intros Hcr Hwk H Hk. destruct (parsed_parts raw d Hcr Hwk H) as (Hf & ls & Hls & Hlo & Hps).
  rewrite Render_eq. cbn [doc_Front doc_Sections].
  rewrite bool_decide_eq_false_2 by apply put_entry_not_nil.
  cbn [negb orb]. rewrite Hls. destruct (Set_parse (doc_Front d) k v ls Hf Hk Hlo) as (f' & Hp & Hg).
  exists (mkDoc f' (parseSections (unlines ls))). split_and!; [exact Hp | exact Hg | exact Hps].
Qed.

(** A list that is stored is read back element for element, whatever commas,
    brackets, quotes, comment signs, newlines or surrounding spaces its elements
    hold, as long as none of them is empty. *)
Theorem GetList_SetList f k v :
  Forall (fun s => s <> []) v -> GetList (SetList f k v) k = v.
Proof.
  intros Hv. unfold GetList, SetList. rewrite Get_SetScalar. cbn [mbind option_bind].
  rewrite inside_app. cbn [mbind option_bind default]. by apply splitTop_join.
Qed.

(** An empty element is dropped: [SetList] is not the exact inverse of
    [GetList] there. *)
Theorem SetList_drops_empty :
  GetList (SetList [] (T "labels") [T "a"; []; T "b"]) (T "labels") = [T "a"; T "b"].
Proof. vm_compute. reflexivity. Qed.

(** A frontmatter line with nothing before its colon is accepted, and written
    back as a blank line. *)
Theorem keyless_line_lost :
  exists d, Parse (T "---" ++ [LF] ++ T ": kept?" ++ [LF] ++ T "---" ++ [LF]) = inr d
  /\ Render d = T "---" ++ [LF] ++ [LF] ++ T "---" ++ [LF].
Proof. eexists. vm_compute. by split. Qed.

(** ** Sections and checkboxes *)

Lemma find_put_section (eqf : text -> text -> bool) ss title content :
  eqf title title = true ->
  option_map Content (List.find (fun s => eqf (Title s) title) (put_section eqf ss title content))
  = Some content.
Proof.
  intros Hr. induction ss as [| s ss IH]; simpl; [by rewrite Hr |].
  destruct (eqf (Title s) title) eqn:E; simpl; by rewrite E.
Qed.

(** The text of a checkbox as a line holds it. *)
Definition box_ok (c : Checkbox) : Prop :=
  LF ∉ Checkbox_Text c /\ exists a r, Checkbox_Text c = a :: r /\ trim_right (SP :: a :: r) = SP :: a :: r.

Lemma checkbox_line (mark : string) (t : text) :
  (mark = "- [ ] " \/ mark = "- [x] ")%string ->
  (exists a r, t = a :: r /\ trim_right (SP :: a :: r) = SP :: a :: r) ->
  trim_space (T mark ++ t) = T mark ++ t.
Proof.
  intros Hm (a & r & -> & Ht). unfold trim_space.
  assert (forall w, trim_left (T mark ++ w) = T mark ++ w) as ->.
  { intros w. apply drop_spaces_stop. by destruct Hm as [-> | ->]. }
  assert (T mark ++ a :: r = take 4 (T mark) ++ "]"%char :: SP :: a :: r) as -> by by destruct Hm as [-> | ->].
  by rewrite trim_right_solid, Ht.
Qed.

(** A checklist that is written is read back: every item with its text and
    its mark, in order, when the texts fit a line and do not end in spaces. *)
Theorem Checkboxes_Render boxes :
  Forall box_ok boxes -> Checkboxes (RenderCheckboxes boxes) = boxes.
Proof.
  intros Hb. unfold Checkboxes, RenderCheckboxes.
  set (line := fun c => T (if Checkbox_Done c then "- [x] " else "- [ ] ") ++ Checkbox_Text c).
  assert (concat (map (fun c => T (if Checkbox_Done c then "- [x] " else "- [ ] ") ++ Checkbox_Text c ++ [LF]) boxes)
          = unlines (map line boxes) ++ []) as ->.
  { rewrite app_nil_r. unfold unlines. rewrite map_map. f_equal. apply map_ext. intros c. unfold line.
    by rewrite app_assoc. }
  rewrite lines_unlines.
  - rewrite omap_app. simpl. rewrite app_nil_r. induction Hb as [| c boxes [_ Hc] _ IH]; [done |].
    cbn [map omap list_omap]. unfold checkbox_of at 1, line at 1 2 3 4 5.
    rewrite checkbox_line by (done || destruct (Checkbox_Done c); tauto).
    fold line. destruct c as [t []]; simpl; by rewrite IH.
  - rewrite Forall_map. eapply Forall_impl; [| exact Hb]. intros c [Hl _]. unfold line. simpl.
    rewrite not_elem_of_app. split; [| done]. destruct (Checkbox_Done c); by apply (bool_decide_unpack _).
Qed.

(** ** A concrete file *)

Definition task_file : text := unlines [
  T "---"; T "# imported"; T "id: T-1"; T "title:   'fix it, now' # urgent"; T "github:"; T "  issue: 4"; [];
  T "  state: open"; []; T "x-unknown: [a, 'b, c']"; T "---"; T "intro"; T "## Log"; T "```"; T "# not a heading";
  T "```"; T "- [ ] write"; T "- [x] read"; T "#tag" ].

Lemma Parse_Render_witness :
  exists d, Parse task_file = inr d /\ Parse (Render d) = inr (settled d)
  /\ Keys (doc_Front d) = [T "id"; T "title"; T "github"; T "x-unknown"]
  /\ map Title (doc_Sections d) = [[]; T "Log"].
Proof.
  destruct (Parse task_file) as [e | d] eqn:E; [by vm_compute in E |]. exists d.
  split_and!; [done | apply (Parse_Render task_file); [by apply (bool_decide_unpack _) | done | done] | |].
  - vm_compute in E. injection E as <-. done.
  - vm_compute in E. injection E as <-. done.
Defined.

Lemma Set_survives_witness :
  exists d d', Parse task_file = inr d
  /\ Parse (Render (mkDoc (SetScalar (doc_Front d) (T "note") (T "a" ++ LF :: T "b: # c")) (doc_Sections d))) = inr d'
  /\ Get (doc_Front d') (T "note") = Some (T "a" ++ LF :: T "b: # c") /\ doc_Sections d' = doc_Sections d.
Proof.
  destruct (Parse task_file) as [e | d] eqn:E; [by vm_compute in E |]. exists d.
  destruct (Set_survives task_file d (T "note") (T "a" ++ LF :: T "b: # c")) as (d' & H).
  - by apply (bool_decide_unpack _).
  - done.
  - done.
  - split; try done; by apply (bool_decide_unpack _).
  - by exists d'.
Defined.

Lemma GetList_SetList_witness :
  GetList (SetList [] (T "labels") [T "a, b"; T " c"; T "[d"]) (T "labels") = [T "a, b"; T " c"; T "[d"].
Proof. apply GetList_SetList. by repeat constructor. Defined.

Lemma Checkboxes_Render_witness :
  Checkboxes (RenderCheckboxes [mkCheckbox (T "write it") false; mkCheckbox (T " - [x] nested") true])
  = [mkCheckbox (T "write it") false; mkCheckbox (T " - [x] nested") true].
Proof.
  apply Checkboxes_Render. repeat apply Forall_cons_2; [split.. | done].
  - by apply (bool_decide_unpack _).
  - by eexists _, _.
  - by apply (bool_decide_unpack _).
  - by eexists _, _.
Defined.
