(* ===== verification/Durable.v ===== *)
(** * Durable replacement of a file

    [writeBytes] of [internal/mdstore/mdstore.go], over the directory of [Files],
    with the faults its operations may report and the machine crashes that may
    interrupt it.  The fault plan says which operation reports an error; a failed
    operation leaves its object as it was, a failed write a prefix of the bytes. *)

From S2P Require Import Prelude GoStd Text Files.

Inductive op :=
  | OpMkdirAll | OpCreateTemp | OpWrite | OpChmod | OpSync | OpClose | OpRename | OpRemove
  | OpOpenDir | OpSyncDir | OpCloseDir.
#[export] Instance op_eq_dec : EqDecision op.
Proof. solve_decision. Defined.

(** ** [writeBytes] *)

(** The error of an operation; [None] is success. *)
Abbreviation outcome := (world * option op)%type.

Section writeBytes.
Context (faults : op -> bool) (short : nat).

(** One operation: [ok] happens, or it reports an error after [bad]. *)
Definition attempt (o : op) (ok bad : fs -> fs) (cleanup : world -> world) (k : world -> outcome) (w : world)
    : outcome :=
  if faults o then (cleanup (advance bad w), Some o) else k (advance ok w).

Definition remove_temp (tmp : string) (w : world) : world :=
  advance (if faults OpRemove then id else remove tmp) w.

Definition cleanup (tmp : string) (w : world) : world := remove_temp tmp (advance id w).

(** [tmp] is the name [CreateTemp] picks; its file is the next one. *)
Definition writeBytes (tmp path : string) (data : text) (m : Z) (w : world) : outcome :=
  let fd := next_inode (here w) in
  attempt OpMkdirAll mkdir_all id id (
  attempt OpCreateTemp (create_temp tmp) id id (
  attempt OpWrite (write_to fd data) (write_to fd (take short data)) (cleanup tmp) (
  attempt OpChmod (chmod tmp m) id (cleanup tmp) (
  attempt OpSync (sync fd) id (cleanup tmp) (
  attempt OpClose id id (remove_temp tmp) (
  attempt OpRename (rename tmp path) id (remove_temp tmp) (
  attempt OpOpenDir id id id (
  attempt OpSyncDir sync_dir id (advance id) (
  attempt OpCloseDir id id id (fun w => (w, None))))))))))) w.
End writeBytes.

(** The operations that come before the new file is in place. *)
Definition early (o : op) : bool := negb (bool_decide (o ∈ [OpOpenDir; OpSyncDir; OpCloseDir])).

(** ** The run from a directory at rest *)

Section run.
Context (faults : op -> bool) (short : nat) (tmp path : string) (data : text) (m : Z) (s0 : fs).
Hypothesis Hrest : at_rest s0.
Hypothesis Hfresh : entries s0 !! tmp = None.

#[local] Abbreviation safe := (safe tmp path data m s0).
#[local] Abbreviation at_stage := (at_stage tmp path data m s0).
#[local] Abbreviation fd := (fd s0).

(** [k] keeps every state safe from stage [g] and ends as [Q] says. *)
Definition runs (g : stage) (k : world -> outcome) (Q : fs -> option op -> Prop) : Prop :=
  forall w, at_stage g (here w) -> Forall safe (states w) ->
  Forall safe (states (k w).1) /\ Q (here (k w).1) (k w).2.

Lemma runs_step g g' f k Q :
  (forall s, at_stage g s -> at_stage g' (f s)) -> runs g' k Q -> runs g (fun w => k (advance f w)) Q.
Proof.
  intros Hf Hk w Hw Hs. apply Hk; [by apply Hf |].
  constructor; [by eapply stage_safe, Hf | done].
Qed.

Lemma runs_attempt o ok bad c k g g' gb Q :
  (forall s, at_stage g s -> at_stage g' (ok s)) ->
  (forall s, at_stage g s -> at_stage gb (bad s)) ->
  (faults o = true -> runs gb (fun w => (c w, Some o)) Q) ->
  (faults o = false -> runs g' k Q) ->
  runs g (attempt faults o ok bad c k) Q.
Proof.
  intros Hok Hbad Hc Hk w Hw Hs. unfold attempt. destruct (faults o).
  - by apply (runs_step g gb bad (fun w => (c w, Some o)) Q); [| apply Hc | |].
  - by apply (runs_step g g' ok k Q); [| apply Hk | |].
Qed.

Lemma runs_ret g r (Q : fs -> option op -> Prop) :
  (forall s, at_stage g s -> Q s r) -> runs g (fun w => (w, r)) Q.
Proof. intros H w Hw Hs. split; [done | by apply H]. Qed.

(** What the caller finds at the end. *)
Definition ended (s : fs) (r : option op) : Prop :=
  match r with
  | None => (forall o, faults o = true -> o = OpRemove) /\ at_stage Final s
  | Some o => faults o = true
      /\ (early o = true -> faults OpRemove = false -> entries s = entries s0 /\ read s path = read s0 path)
      /\ (early o = false -> read s path = Some data)
  end.

Lemma runs_remove x o :
  faults o = true -> early o = true -> runs (Temp x) (fun w => (remove_temp faults tmp w, Some o)) ended.
Proof.
  intros Ho He. unfold remove_temp. destruct (faults OpRemove) eqn:Hr.
  - apply (runs_step (Temp x) (Temp x) id (fun w => (w, Some o))); [done |]. apply runs_ret. intros s _.
    split_and!; [done | congruence | congruence].
  - apply (runs_step (Temp x) (Removed x) (remove tmp) (fun w => (w, Some o))).
    + intros s. apply remove_stage.
    + apply runs_ret. intros s H. split_and!; [done | | congruence]. intros _ _. split.
      * destruct H as (_ & _ & -> & _). by apply removed_entries.
      * eapply read_old; [done |]. unfold Files.at_stage in H. rewrite removed_entries in H by done. exact H.
Qed.

Lemma runs_cleanup x o :
  faults o = true -> early o = true -> runs (Temp x) (fun w => (cleanup faults tmp w, Some o)) ended.
Proof. intros Ho He. by apply (runs_step _ (Temp x) id (fun w => (remove_temp faults tmp w, Some o))), runs_remove. Qed.

(** Where [MkdirAll] or [CreateTemp] fails nothing was created. *)
Lemma runs_nothing o c :
  faults o = true -> early o = true -> (forall w, c w = w) -> runs Old (fun w => (c w, Some o)) ended.
Proof.
  intros Ho He Hc w Hw Hs. simpl. rewrite Hc. split; [done |]. split_and!; [done | | congruence]. intros _ _.
  split; [apply Hw | by eapply read_old].
Qed.

(** Once the file is in place the error no longer undoes it. *)
Lemma runs_in_place g o :
  g = Moved \/ g = Final -> faults o = true -> early o = false -> runs g (fun w => (w, Some o)) ended.
Proof.
  intros Hg Ho He. apply runs_ret. intros s H. split_and!; [done | congruence |]. intros _.
  destruct Hg as [-> | ->]; by eapply read_new.
Qed.

Theorem writeBytes_runs : runs Old (writeBytes faults short tmp path data m) ended.
Proof.
  intros w Hw. assert (next_inode (here w) = fd) as Hfd by apply Hw. unfold writeBytes. rewrite Hfd. revert w Hw Hfd.
  assert (forall k, runs Old k ended -> forall w, at_stage Old (here w) -> next_inode (here w) = fd -> Forall safe (states w) ->
     Forall safe (states (k w).1) /\ ended (here (k w).1) (k w).2) as Hstart by (intros k Hk w Hw _; by apply Hk).
  apply Hstart. clear Hstart.
  eapply runs_attempt; [apply mkdir_stage | done | intros; by apply runs_nothing | intros H1].
  eapply runs_attempt; [apply create_stage | done | intros; by apply runs_nothing | intros H2].
  eapply runs_attempt; [apply write_stage | apply write_stage | intros; by apply runs_cleanup | intros H3].
  eapply runs_attempt; [apply chmod_stage | done | intros; by apply runs_cleanup | intros H4].
  eapply runs_attempt; [apply sync_stage | done | intros; by apply runs_cleanup | intros H5].
  eapply runs_attempt; [done | done | intros; by apply runs_remove | intros H6].
  eapply runs_attempt; [apply rename_stage | done | intros; by apply runs_remove | intros H7].
  eapply runs_attempt; [done | done | intros; by apply runs_in_place; [left | |] | intros H8].
  eapply runs_attempt; [apply sync_dir_stage | done | | intros H9].
  { intros. by apply (runs_step Moved Moved id (fun w => (w, Some OpSyncDir))), runs_in_place; [| left | |]. }
  eapply runs_attempt; [done | done | intros; by apply runs_in_place; [right | |] | intros H10].
  apply runs_ret. intros s Hs. split; [| done]. intros [] Ho; congruence.
Qed.

Lemma run_safe : forall s, s ∈ states (writeBytes faults short tmp path data m (mkWorld s0 [])).1 -> safe s.
Proof.
  destruct (writeBytes_runs (mkWorld s0 [])) as [H _].
  - by apply start_stage.
  - by apply Forall_singleton, (stage_safe _ _ _ _ _ Hrest Old), start_stage.
  - intros s Hs. eapply Forall_forall; [exact H | by apply list_elem_of_In].
Qed.

Lemma run_ended :
  ended (here (writeBytes faults short tmp path data m (mkWorld s0 [])).1)
    (writeBytes faults short tmp path data m (mkWorld s0 [])).2.
Proof.
  destruct (writeBytes_runs (mkWorld s0 [])) as [_ H]; [by apply start_stage | | done].
  by apply Forall_singleton, (stage_safe _ _ _ _ _ Hrest Old), start_stage.
Qed.

End run.

(** ** Properties *)

(** C35: A file is replaced whole: wherever [writeBytes] is interrupted - after any
    of its operations, on any error path, by a machine crash that brings back any
    unsynced version of the directory and any bytes of unsynced files - the path
    holds the old content or all of the new one, and no other file changes.  The
    same holds of what a concurrent reader sees. *)
Theorem writeBytes_atomic faults short tmp path data m s0 s after n :
  at_rest s0 -> entries s0 !! tmp = None -> n <> tmp ->
  s ∈ states (writeBytes faults short tmp path data m (mkWorld s0 [])).1 -> crash s after ->
  (after !! n = read s0 n \/ n = path /\ after !! n = Some data)
  /\ (read s n = read s0 n \/ n = path /\ read s n = Some data).
Proof.
  intros Hr Hf Hn Hs Hc. assert (safe tmp path data m s0 s) as Hsafe by by eapply run_safe.
  split; [by eapply safe_crash | by eapply safe_read].
Qed.

(** An acknowledged write stays: once [writeBytes] returns without error, every
    crash leaves the new content under the path and each other file as it was,
    the temporary file included. *)
Theorem writeBytes_durable faults short tmp path data m s0 after :
  at_rest s0 -> entries s0 !! tmp = None ->
  let r := writeBytes faults short tmp path data m (mkWorld s0 []) in
  r.2 = None -> crash (here r.1) after ->
  forall n, after !! n = if decide (n = path) then Some data else read s0 n.
Proof.
  intros Hr Hf r Hok Hc n. pose proof (run_ended faults short tmp path data m s0 Hr Hf) as He. fold r in He.
  rewrite Hok in He. destruct He as [_ Hfin]. rewrite (rest_crash (here r.1) after n); [| by eapply final_at_rest | done].
  case_decide as En; [subst n; by eapply read_new |]. destruct (decide (n = tmp)) as [-> | Hn].
  - unfold read. destruct Hfin as (_ & _ & -> & _). rewrite Hf. unfold with_new. by rewrite lookup_insert_ne, lookup_delete_eq.
  - assert (safe tmp path data m s0 (here r.1)) as Hsafe by (eapply run_safe; [exact Hr | exact Hf | left]).
    by destruct (safe_read _ _ _ _ _ _ n Hsafe Hn) as [? | [? _]].
Qed.

(** [writeBytes] fails exactly when one of its operations does (an ignored
    failure of the cleanup apart), with that operation's error: before the new
    file is in place the directory is as it was, no temporary file is left when
    it can be removed; after it, the path reads the new content. *)
Theorem writeBytes_error faults short tmp path data m s0 :
  at_rest s0 -> entries s0 !! tmp = None ->
  let r := writeBytes faults short tmp path data m (mkWorld s0 []) in
  (r.2 = None <-> forall o, faults o = true -> o = OpRemove)
  /\ forall o, r.2 = Some o ->
     faults o = true
     /\ (early o = true -> faults OpRemove = false ->
         entries (here r.1) = entries s0 /\ read (here r.1) path = read s0 path)
     /\ (early o = false -> read (here r.1) path = Some data).
Proof.
  intros Hr Hf r. pose proof (run_ended faults short tmp path data m s0 Hr Hf) as He. fold r in He.
  split; [| by intros o Ho; rewrite Ho in He]. split; intros H.
  - rewrite H in He. by destruct He.
  - unfold r, writeBytes, attempt.
    assert (forall o, o <> OpRemove -> faults o = false) as Hno by (intros o Ho; destruct (faults o) eqn:E; [by apply H in E | done]).
    by rewrite !Hno.
Qed.

(** A directory the write itself creates is not durable: its parent is never
    synced, so a crash can take the acknowledged file with it. *)
Theorem fresh_directory_lost :
  let s0 := mkFs false false ∅ [∅] ∅ 0 in
  let r := writeBytes (fun _ => false) 0 "tmp" "T-1.md" (T "task") 384 (mkWorld s0 []) in
  r.2 = None /\ read (here r.1) "T-1.md" = Some (T "task") /\ crash (here r.1) ∅.
Proof. split_and!; [by vm_compute.. | by left]. Qed.

(** ** A concrete directory *)

Definition tasks_dir : fs :=
  mkFs true true {["T-1.md" := 0%nat]} [{["T-1.md" := 0%nat]}] {[0%nat := mkInode (T "old") true 384]} 1.

Lemma tasks_dir_at_rest : at_rest tasks_dir.
Proof.
  split; [done.. |]. intros n i H. unfold tasks_dir in *. simpl in *. apply lookup_singleton_Some in H as [<- <-].
  eexists. rewrite lookup_singleton_eq. split_and!; [done | done | lia].
Qed.

Lemma read_recovered (s : fs) (n : string) :
  (forall i, entries s !! n = Some i -> is_Some (inodes s !! i)) -> entries s ∈ pending s -> recovered s n (read s n).
Proof.
  intros Hi Hp. exists (entries s). split; [done |]. unfold read, entry_recovered. destruct (entries s !! n) as [i |]; [| done].
  destruct (Hi i eq_refl) as [x Hx]. simpl. rewrite Hx. simpl. by intros y [= <-].
Qed.

(** A directory whose sync fails, and a crash that brings the old version back. *)
Lemma writeBytes_atomic_witness :
  let w := writeBytes (fun o => bool_decide (o = OpSyncDir)) 2 "tmp" "T-1.md" (T "new") 384 (mkWorld tasks_dir []) in
  w.2 = Some OpSyncDir
  /\ ({["T-1.md" := T "old"]} : gmap string text) !! "T-1.md" = read tasks_dir "T-1.md"
  /\ read (here w.1) "T-1.md" = Some (T "new").
Proof.
  assert (forall n, (entries tasks_dir) !! n = None -> ({["T-1.md" := T "old"]} : gmap string text) !! n = None) as Hn.
  { intros n. unfold tasks_dir. cbn [entries]. rewrite !lookup_singleton_None. done. }
  pose proof (writeBytes_atomic (fun o => bool_decide (o = OpSyncDir)) 2 "tmp" "T-1.md" (T "new") 384 tasks_dir
    (here (writeBytes (fun o => bool_decide (o = OpSyncDir)) 2 "tmp" "T-1.md" (T "new") 384 (mkWorld tasks_dir [])).1)
    {["T-1.md" := T "old"]} "T-1.md" tasks_dir_at_rest) as H.
  split_and!; [by vm_compute | | by vm_compute].
  destruct H as [[H | [_ H]] _]; [done | done | by left | | exact H | done].
  right. intros n. exists {["T-1.md" := 0%nat]}. split; [by right; right; left |].
  unfold entry_recovered. destruct (decide (n = "T-1.md")) as [-> | Hne].
  - rewrite !lookup_singleton_eq. by intros x [= <-].
  - by rewrite !lookup_singleton_ne.
Defined.

Lemma writeBytes_durable_witness :
  let w := writeBytes (fun _ => false) 0 "tmp" "T-2.md" (T "new") 384 (mkWorld tasks_dir []) in
  w.2 = None /\
  forall after, crash (here w.1) after ->
    after !! "T-2.md" = Some (T "new") /\ after !! "T-1.md" = Some (T "old").
Proof.
  split; [by vm_compute |]. intros after Hc.
  pose proof (writeBytes_durable (fun _ => false) 0 "tmp" "T-2.md" (T "new") 384 tasks_dir after
    tasks_dir_at_rest eq_refl eq_refl Hc) as H.
  split; [exact (H "T-2.md") | exact (H "T-1.md")].
Defined.

Lemma writeBytes_error_witness :
  let w := writeBytes (fun o => bool_decide (o = OpRename)) 0 "tmp" "T-2.md" (T "new") 384 (mkWorld tasks_dir []) in
  w.2 = Some OpRename /\ entries (here w.1) = entries tasks_dir /\ read (here w.1) "T-2.md" = None.
Proof.
  destruct (writeBytes_error (fun o => bool_decide (o = OpRename)) 0 "tmp" "T-2.md" (T "new") 384 tasks_dir
    tasks_dir_at_rest eq_refl) as [_ H].
  destruct (H OpRename eq_refl) as (_ & He & _). destruct (He eq_refl eq_refl) as [H1 H2].
  split_and!; [by vm_compute | exact H1 | exact H2].
Defined.
