(* ===== verification/Ulid.v ===== *)
(** * Identifiers ordered by time

    [internal/ulid/ulid.go]: [At] (with the time in milliseconds and the random
    bytes as arguments), [Valid] and [Time].  Both loops of [At] are shown to
    write big-endian base-32 digits; order, round trip and injectivity follow
    from that. *)

From S2P Require Import Prelude GoStd Text.
#[local] Open Scope Z_scope.

(** ** The code *)

Definition alphabet : text := T "0123456789ABCDEFGHJKMNPQRSTVWXYZ".

(** [alphabet[i]]. *)
Definition char_at (i : Z) : ascii := nth (Z.to_nat i) alphabet NUL.

(** The loop over [b[9]], ..., [b[0]]; [out] is what is written already. *)
Fixpoint stamp (n : nat) (ms : Z) (out : text) : text :=
  match n with
  | O => out
  | S n => stamp n (Z.shiftr ms 5) (char_at (Z.land ms 31) :: out)
  end.

(** The inner loop of the random half: the digits in [acc] while there are five
    bits, and the bits left.  [fuel] bounds the digits. *)
Fixpoint drain (fuel : nat) (acc bits : Z) : text * Z :=
  match fuel with
  | O => ([], bits)
  | S fuel =>
    if 5 <=? bits then
      let bits := bits - 5 in
      let (out, rest) := drain fuel acc bits in
      (char_at (Z.land (Z.shiftr acc bits) 31) :: out, rest)
    else ([], bits)
  end.

Fixpoint random_go (r : list Z) (acc bits : Z) : text :=
  match r with
  | [] => []
  | by_ :: r =>
    let acc := Z.lor (Z.shiftl acc 8 mod 2 ^ 64) by_ in
    let (out, bits) := drain 3 acc (bits + 8) in
    out ++ random_go r acc bits
  end.

(** [ms] is [t.UnixMilli()], [r] the ten random bytes. *)
Definition At (ms : Z) (r : list Z) : text := stamp 10 (ms mod 2 ^ 64) [] ++ random_go r 0 0.

Definition valid_char (c : ascii) : bool :=
  let b := byte_of c in
  (48 <=? b) && (b <=? 57)
  || (65 <=? b) && (b <=? 90) && negb (existsb (Ascii.eqb c) (T "ILOU")).

Definition Valid (s : text) : bool := (List.length s =? 26)%nat && forallb valid_char s.

Fixpoint time_go (l : text) (ms : Z) : option Z :=
  match l with
  | [] => Some ms
  | c :: l =>
    match index_byte c alphabet with
    | None => None
    | Some v => time_go l (Z.lor (Z.shiftl ms 5 mod 2 ^ 64) (Z.of_nat v))
    end
  end.

(** The milliseconds of [Time]. *)
Definition Time (id : text) : option Z :=
  if (List.length id <? 10)%nat then None else time_go (take 10 id) 0.

(** [a < b] on strings. *)
Fixpoint text_lt (a b : text) : bool :=
  match a, b with
  | _, [] => false
  | [], _ :: _ => true
  | x :: a, y :: b => (byte_of x <? byte_of y) || Ascii.eqb x y && text_lt a b
  end.

(** ** Digits *)

(** The last [n] base-32 digits of [v], the most significant first. *)
Fixpoint digits32 (n : nat) (v : Z) : text :=
  match n with
  | O => []
  | S n => digits32 n (v / 32) ++ [char_at (v mod 32)]
  end.

Lemma land_31 v : Z.land v 31 = v mod 32.
Proof. change 31 with (Z.ones 5). by rewrite Z.land_ones. Qed.

Lemma shiftr_5 v : Z.shiftr v 5 = v / 32.
Proof. by rewrite Z.shiftr_div_pow2. Qed.

Lemma stamp_digits n v out : stamp n v out = digits32 n v ++ out.
Proof.
  revert v out. induction n as [| n IH]; intros v out; simpl; [done |].
  by rewrite IH, land_31, shiftr_5, <- app_assoc.
Qed.

Lemma digits32_length n v : List.length (digits32 n v) = n.
Proof. revert v. induction n as [| n IH]; intros v; simpl; [done |]. rewrite length_app, IH. simpl. lia. Qed.

Lemma digits32_mod n v : digits32 n (v mod 32 ^ Z.of_nat n) = digits32 n v.
Proof.
  revert v. induction n as [| n IH]; intros v; [done |]. cbn [digits32].
  rewrite Nat2Z.inj_succ, Z.pow_succ_r by lia.
  rewrite Z.rem_mul_r by lia. pose proof (Z.mod_pos_bound v 32 eq_refl).
  set (q := (v / 32) mod 32 ^ Z.of_nat n). rewrite (Z.mul_comm 32 q), Z.div_add, Z.mod_add by lia.
  rewrite Z.div_small, Z.mod_mod, Z.add_0_l by lia. unfold q. by rewrite IH.
Qed.

(** The digits of the alphabet, by evaluation. *)
Lemma for_digits (P : Z -> Prop) : Forall P (map Z.of_nat (seq 0 32)) -> forall d, 0 <= d < 32 -> P d.
Proof.
  intros H d Hd. rewrite Forall_forall in H. apply H, in_map_iff. exists (Z.to_nat d).
  split; [lia |]. apply in_seq. lia.
Qed.

Lemma char_at_index d : 0 <= d < 32 -> index_byte (char_at d) alphabet = Some (Z.to_nat d).
Proof. revert d. apply for_digits. by apply (bool_decide_unpack _). Qed.

Lemma char_at_valid d : 0 <= d < 32 -> valid_char (char_at d) = true.
Proof. revert d. apply for_digits. by apply (bool_decide_unpack _). Qed.

Lemma char_at_lt d e :
  0 <= d < 32 -> 0 <= e < 32 -> (byte_of (char_at d) <? byte_of (char_at e)) = (d <? e).
Proof.
  intros Hd He. revert e He. pattern d. revert d Hd. apply for_digits.
  assert (forallb (fun d => forallb (fun e => eqb (byte_of (char_at d) <? byte_of (char_at e)) (d <? e))
            (map Z.of_nat (seq 0 32))) (map Z.of_nat (seq 0 32)) = true) as H by by vm_compute.
  rewrite forallb_forall in H. apply Forall_forall. intros d Hd. specialize (H d Hd).
  rewrite forallb_forall in H. intros e He. pattern e. revert e He. apply for_digits, Forall_forall.
  intros e He. apply eqb_prop, (H e He).
Qed.

(** ** Order *)

Lemma text_lt_app p a b : text_lt (p ++ a) (p ++ b) = text_lt a b.
Proof. induction p as [| c p IH]; simpl; [done |]. by rewrite Z.ltb_irrefl, Ascii.eqb_refl, IH. Qed.

Lemma text_lt_longer a b r s :
  List.length a = List.length b -> text_lt a b = true -> text_lt (a ++ r) (b ++ s) = true.
Proof.
  revert b. induction a as [| x a IH]; intros [| y b]; simpl; try done. intros [= Hl].
  rewrite !orb_true_iff, !andb_true_iff. intros [? | [? ?]]; [by left | right]. split; [done | by apply IH].
Qed.

Lemma char_at_inj d e : 0 <= d < 32 -> 0 <= e < 32 -> char_at d = char_at e -> d = e.
Proof.
  intros Hd He H. apply char_at_index in Hd as Hd', He as He'. rewrite H in Hd'.
  rewrite Hd' in He'. injection He'. lia.
Qed.

Lemma digits32_lt n v w : 0 <= v < w -> w < 32 ^ Z.of_nat n -> text_lt (digits32 n v) (digits32 n w) = true.
Proof.
  revert v w. induction n as [| n IH]; intros v w Hv Hw; [simpl in *; lia |]. cbn [digits32].
  rewrite Nat2Z.inj_succ, Z.pow_succ_r in Hw by lia.
  assert (w / 32 < 32 ^ Z.of_nat n) by (apply Z.div_lt_upper_bound; lia).
  destruct (Z.eq_dec (v / 32) (w / 32)) as [E | Hne].
  - rewrite E, text_lt_app. cbn [text_lt].
    rewrite char_at_lt by (apply Z.mod_pos_bound; lia).
    replace (v mod 32 <? w mod 32) with true; [done |]. symmetry. apply Z.ltb_lt.
    pose proof (Z.div_mod v 32). pose proof (Z.div_mod w 32). lia.
  - apply text_lt_longer; [by rewrite !digits32_length |]. apply IH; [| done].
    pose proof (Z.div_le_mono v w 32). pose proof (Z.div_pos v 32). lia.
Qed.

Lemma digits32_inj n v w :
  0 <= v < 32 ^ Z.of_nat n -> 0 <= w < 32 ^ Z.of_nat n -> digits32 n v = digits32 n w -> v = w.
Proof.
  intros Hv Hw H. destruct (Z.lt_trichotomy v w) as [Hl | [? | Hl]]; [| done |].
  - assert (text_lt (digits32 n v) (digits32 n w) = true) as E by (apply digits32_lt; lia).
    rewrite H, <- (app_nil_r (digits32 n w)), text_lt_app in E. done.
  - assert (text_lt (digits32 n w) (digits32 n v) = true) as E by (apply digits32_lt; lia).
    rewrite H, <- (app_nil_r (digits32 n w)), text_lt_app in E. done.
Qed.

Lemma digits32_valid n v : forallb valid_char (digits32 n v) = true.
Proof.
  revert v. induction n as [| n IH]; intros v; [done |]. cbn [digits32]. rewrite forallb_app, IH. simpl.
  by rewrite char_at_valid by (apply Z.mod_pos_bound; lia).
Qed.

(** ** The random half *)

Lemma digits32_app a b x : digits32 (a + b) x = digits32 a (x / 32 ^ Z.of_nat b) ++ digits32 b x.
Proof.
  revert x. induction b as [| b IH]; intros x.
  - rewrite Nat.add_0_r. change (32 ^ Z.of_nat 0) with 1. by rewrite Z.div_1_r, app_nil_r.
  - rewrite Nat.add_succ_r. cbn [digits32]. rewrite IH, <- app_assoc.
    rewrite Nat2Z.inj_succ, Z.pow_succ_r, Z.div_div by lia. done.
Qed.

Lemma pow_32 n : 32 ^ Z.of_nat n = 2 ^ (5 * Z.of_nat n).
Proof. change 32 with (2 ^ 5). by rewrite Z.pow_mul_r by lia. Qed.

Lemma shiftr_mod x a b : 0 <= a -> 0 <= b -> Z.shiftr (x mod 2 ^ (a + b)) a = Z.shiftr x a mod 2 ^ b.
Proof.
  intros Ha Hb. apply Z.bits_inj'. intros i Hi. rewrite Z.shiftr_spec by lia.
  destruct (Z_lt_le_dec i b).
  - by rewrite !Z.mod_pow2_bits_low, Z.shiftr_spec by lia.
  - by rewrite !Z.mod_pow2_bits_high by lia.
Qed.

Lemma digits32_low n x y rest :
  0 <= rest -> x mod 2 ^ (rest + 5 * Z.of_nat n) = y mod 2 ^ (rest + 5 * Z.of_nat n) ->
  digits32 n (Z.shiftr x rest) = digits32 n (Z.shiftr y rest).
Proof.
  intros Hr H. rewrite <- (digits32_mod n (Z.shiftr x rest)), <- (digits32_mod n (Z.shiftr y rest)).
  rewrite pow_32, <- !shiftr_mod by lia. by rewrite H.
Qed.

Lemma drain_digits fuel acc bits :
  0 <= bits -> bits / 5 <= Z.of_nat fuel ->
  drain fuel acc bits = (digits32 (Z.to_nat (bits / 5)) (Z.shiftr acc (bits mod 5)), bits mod 5).
Proof.
  revert bits. induction fuel as [| fuel IH]; intros bits Hb Hf; cbn [drain].
  - assert (bits / 5 = 0) as -> by (pose proof (Z.div_pos bits 5); lia).
    pose proof (Z.div_mod bits 5). simpl. f_equal. pose proof (Z.mod_pos_bound bits 5). lia.
  - destruct (Z.leb_spec 5 bits) as [H5 | H5].
    + assert (bits / 5 = (bits - 5) / 5 + 1 /\ bits mod 5 = (bits - 5) mod 5) as [E1 E2].
      { replace bits with (bits - 5 + 1 * 5) at 1 3 by lia. rewrite Z.div_add, Z.mod_add by lia. done. }
      pose proof (Z.div_pos (bits - 5) 5). pose proof (Z.mod_pos_bound (bits - 5) 5).
      rewrite IH by lia. rewrite E1, E2. f_equal.
      rewrite Z2Nat.inj_add, (Nat.add_comm _ (Z.to_nat 1)), digits32_app by lia.
      rewrite pow_32, Z2Nat.id, <- Z.shiftr_div_pow2, Z.shiftr_shiftr by lia.
      replace (_ + 5 * _) with (bits - 5) by (pose proof (Z.div_mod (bits - 5) 5); lia).
      change (Z.to_nat 1) with 1%nat. cbn [digits32 app]. by rewrite land_31.
    + rewrite Z.div_small, Z.mod_small by lia. done.
Qed.

(** The number the bytes spell, the first the most significant. *)
Definition big_endian (r : list Z) : Z := fold_left (fun a b => a * 256 + b) r 0.

Definition is_byte (b : Z) : Prop := 0 <= b < 256.

Lemma big_endian_from r a :
  fold_left (fun a b => a * 256 + b) r a = a * 256 ^ Z.of_nat (List.length r) + big_endian r.
Proof.
  unfold big_endian. revert a. induction r as [| b r IH]; intros a; simpl fold_left; [simpl; lia |].
  rewrite (IH (a * 256 + b)), (IH (0 * 256 + b)). cbn [List.length]. rewrite Nat2Z.inj_succ, Z.pow_succ_r by lia. lia.
Qed.

Lemma big_endian_bound r : Forall is_byte r -> 0 <= big_endian r < 256 ^ Z.of_nat (List.length r).
Proof.
  induction 1 as [| b r Hb _ IH]; [unfold big_endian; simpl; lia |].
  unfold big_endian. simpl fold_left. rewrite big_endian_from. cbn [List.length].
  rewrite Nat2Z.inj_succ, Z.pow_succ_r by lia. unfold is_byte in Hb. nia.
Qed.

(** Shifting in a byte, on 64 bits. *)
Lemma shift_in acc b : is_byte b -> Z.lor (Z.shiftl acc 8 mod 2 ^ 64) b mod 2 ^ 64 = (acc * 256 + b) mod 2 ^ 64.
Proof.
  intros Hb. unfold is_byte in Hb. rewrite <- Z.add_nocarry_lor.
  - rewrite Z.shiftl_mul_pow2 by lia. by rewrite Z.add_mod_idemp_l by lia.
  - apply Z.bits_inj'. intros i Hi. rewrite Z.land_spec, Z.bits_0.
    destruct (Z_lt_le_dec i 8).
    + rewrite Z.mod_pow2_bits_low, Z.shiftl_spec_low by lia. done.
    + assert (Z.testbit b i = false) as ->; [| by rewrite andb_false_r].
      rewrite <- (Z.mod_small b (2 ^ 8)) by lia. by rewrite Z.mod_pow2_bits_high by lia.
Qed.

Lemma mod_pow_weaken x y a b : 0 <= b <= a -> x mod 2 ^ a = y mod 2 ^ a -> x mod 2 ^ b = y mod 2 ^ b.
Proof.
  intros Hb H. apply Z.bits_inj'. intros i Hi. destruct (Z_lt_le_dec i b).
  - rewrite !Z.mod_pow2_bits_low by lia.
    by rewrite <- (Z.mod_pow2_bits_low x a), <- (Z.mod_pow2_bits_low y a), H by lia.
  - by rewrite !Z.mod_pow2_bits_high by lia.
Qed.

Lemma random_go_digits r acc n bits :
  Forall is_byte r -> 0 <= bits < 5 -> acc mod 2 ^ 64 = n mod 2 ^ 64 ->
  random_go r acc bits
  = digits32 (Z.to_nat ((bits + 8 * Z.of_nat (List.length r)) / 5))
      (Z.shiftr (fold_left (fun a b => a * 256 + b) r n) ((bits + 8 * Z.of_nat (List.length r)) mod 5)).
Proof.
  intros Hr. revert acc n bits. induction Hr as [| b r Hb Hr IH]; intros acc n bits Hbits Ha.
  - cbn [List.length random_go]. rewrite Z.add_0_r, Z.div_small by lia. done.
  - cbn [random_go]. set (acc' := Z.lor _ b). set (n' := n * 256 + b).
    assert (acc' mod 2 ^ 64 = n' mod 2 ^ 64) as Ha'.
    { unfold acc', n'. rewrite shift_in by done.
      rewrite <- Z.add_mod_idemp_l, <- Z.mul_mod_idemp_l, Ha, Z.mul_mod_idemp_l, Z.add_mod_idemp_l by lia. done. }
    assert (0 <= (bits + 8) / 5 <= 2) as Hq by (split; [apply Z.div_pos; lia | apply Z.lt_succ_r, Z.div_lt_upper_bound; lia]).
    pose proof (Z.mod_pos_bound (bits + 8) 5) as Hm. pose proof (Z.div_mod (bits + 8) 5) as Hd.
    rewrite drain_digits by lia. cbv iota beta zeta. rewrite (IH acc' n') by (done || lia).
    rewrite (digits32_low _ acc' n') by (lia || (apply (mod_pow_weaken _ _ 64); [lia | done])).
    cbn [fold_left List.length]. fold n'. set (m := fold_left _ r n').
    set (k := Z.of_nat (List.length r)).
    replace (Z.of_nat (S (List.length r))) with (k + 1) by (unfold k; lia).
    set (q := (bits + 8) / 5) in *. set (s := (bits + 8) mod 5) in *.
    replace (bits + 8 * (k + 1)) with (s + 8 * k + q * 5) by lia.
    rewrite Z.div_add, Z.mod_add by lia.
    assert (0 <= (s + 8 * k) / 5) by (apply Z.div_pos; lia).
    rewrite Z2Nat.inj_add, (Nat.add_comm _ (Z.to_nat q)), digits32_app by lia. f_equal.
    rewrite pow_32, Z2Nat.id, <- Z.shiftr_div_pow2, Z.shiftr_shiftr by (pose proof (Z.mod_pos_bound (s + 8 * k) 5); lia).
    f_equal. unfold m. rewrite big_endian_from. fold k.
    replace (_ + 5 * _) with (8 * k + s) by (pose proof (Z.div_mod (s + 8 * k) 5); lia).
    rewrite <- Z.shiftr_shiftr by lia. f_equal. rewrite Z.shiftr_div_pow2 by lia.
    replace (2 ^ (8 * k)) with (256 ^ k) by (change 256 with (2 ^ 8); by rewrite <- Z.pow_mul_r by lia).
    pose proof (big_endian_bound r Hr) as Hbe. fold k in Hbe.
    rewrite Z.add_comm, Z.div_add, Z.div_small by lia. lia.
Qed.

Lemma At_digits ms r :
  List.length r = 10%nat -> Forall is_byte r ->
  At ms r = digits32 10 ms ++ digits32 16 (big_endian r).
Proof.
  intros Hl Hr. unfold At. rewrite stamp_digits, app_nil_r, (random_go_digits r 0 0 0), Hl by (done || lia).
  change ((0 + 8 * Z.of_nat 10) / 5) with 16. change ((0 + 8 * Z.of_nat 10) mod 5) with 0.
  rewrite Z.shiftr_0_r. f_equal. rewrite <- (digits32_mod 10 ms), <- (digits32_mod 10 (ms mod _)).
  f_equal. rewrite (pow_32 10). apply (mod_pow_weaken _ _ 64); [simpl; lia |]. by apply Z.mod_mod.
Qed.

(** ** Reading the time back *)

Lemma time_go_app a b acc : time_go (a ++ b) acc = (m ← time_go a acc; time_go b m).
Proof.
  revert acc. induction a as [| c a IH]; intros acc; [done |]. cbn [app time_go].
  destruct (index_byte c alphabet); [apply IH | done].
Qed.

(** One more digit, while 64 bits hold the result. *)
Lemma shift_digit acc d : 0 <= d < 32 -> 0 <= acc < 2 ^ 59 -> Z.lor (Z.shiftl acc 5 mod 2 ^ 64) d = acc * 32 + d.
Proof.
  intros Hd Ha. rewrite Z.shiftl_mul_pow2, Z.mod_small by lia. change (2 ^ 5) with 32.
  rewrite <- Z.add_nocarry_lor; [done |]. apply Z.bits_inj'. intros i Hi. rewrite Z.land_spec, Z.bits_0.
  destruct (Z_lt_le_dec i 5).
  - change 32 with (2 ^ 5). by rewrite Z.mul_pow2_bits_low by lia.
  - rewrite <- (Z.mod_small d (2 ^ 5)), Z.mod_pow2_bits_high by lia. by rewrite andb_false_r.
Qed.

Lemma time_go_digits n v : (n <= 12)%nat -> time_go (digits32 n v) 0 = Some (v mod 32 ^ Z.of_nat n).
Proof.
  revert v. induction n as [| n IH]; intros v Hn; [by rewrite Z.mod_1_r |]. cbn [digits32].
  rewrite time_go_app, IH by lia. cbn [mbind option_bind time_go].
  pose proof (Z.mod_pos_bound v 32 eq_refl). rewrite char_at_index, Z2Nat.id by lia.
  assert (0 < 32 ^ Z.of_nat n <= 32 ^ 11) by (split; [lia | apply Z.pow_le_mono_r; lia]).
  pose proof (Z.mod_pos_bound (v / 32) (32 ^ Z.of_nat n)).
  rewrite shift_digit by (change (2 ^ 59) with (32 ^ 11 * 16); lia).
  rewrite Nat2Z.inj_succ, Z.pow_succ_r, Z.rem_mul_r by lia. f_equal. lia.
Qed.

Lemma index_alphabet c v : index_byte c alphabet = Some v -> (v < 32)%nat /\ c = char_at (Z.of_nat v).
Proof.
  intros (a & b & E & _ & <-)%index_byte_Some. split.
  - assert (List.length alphabet = 32%nat) as Hl by done. rewrite E, length_app in Hl. simpl in Hl. lia.
  - unfold char_at. rewrite Nat2Z.id, E. rewrite app_nth2 by lia. by rewrite Nat.sub_diag.
Qed.

Lemma time_go_Some l acc t :
  0 <= acc -> acc * 32 ^ Z.of_nat (List.length l) < 2 ^ 50 -> (List.length l <= 10)%nat ->
  acc < 32 ^ Z.of_nat (10 - List.length l) ->
  time_go l acc = Some t ->
  exists v, 0 <= v < 32 ^ Z.of_nat (List.length l) /\ t = acc * 32 ^ Z.of_nat (List.length l) + v
  /\ l = digits32 (List.length l) v.
Proof.
  revert acc. induction l as [| c l IH]; intros acc Ha Hb Hl Hc H.
  - injection H as <-. exists 0. simpl. split_and!; [lia | lia | lia | done].
  - cbn [time_go] in H. destruct (index_byte c alphabet) as [d |] eqn:E; [| done]. apply index_alphabet in E as [Hd ->].
    cbn [List.length] in *.
    assert (32 ^ Z.of_nat (10 - S (List.length l)) <= 32 ^ 10) by (apply Z.pow_le_mono_r; lia).
    rewrite shift_digit in H by (change (2 ^ 59) with (32 ^ 10 * 512); lia).
    replace (10 - List.length l)%nat with (S (10 - S (List.length l))) in IH by lia.
    rewrite Nat2Z.inj_succ, Z.pow_succ_r in * by lia.
    set (p := 32 ^ Z.of_nat (List.length l)) in *. assert (0 < p) by (unfold p; lia).
    apply IH in H as (v & Hv & -> & El); [| lia | | lia | lia].
    2: { assert (acc + 1 <= 32 ^ Z.of_nat (10 - S (List.length l))) by lia.
         assert (32 ^ Z.of_nat (10 - S (List.length l)) * (32 * p) = 2 ^ 50) as Hp.
         { unfold p. rewrite <- Z.pow_succ_r, <- Z.pow_add_r by lia.
           replace (_ + _) with 10 by lia. done. }
         nia. }
    exists (Z.of_nat d * p + v). split_and!; [nia | nia | lia |].
    change (S (List.length l)) with (1 + List.length l)%nat. rewrite digits32_app. fold p.
    rewrite Z.add_comm, Z.div_add, (Z.div_small v) by lia. cbn [digits32 app].
    rewrite Z.add_0_l, Z.mod_small by lia. f_equal. rewrite El at 1.
    rewrite <- (digits32_mod _ (v + _)). fold p. by rewrite Z.mod_add, Z.mod_small by lia.
Qed.

(** ** Properties *)

(** Identifiers sort by creation time: an identifier of an earlier millisecond
    is the smaller string, whatever their random bytes, for every time 50 bits
    hold (until the year 37648). *)
Theorem At_order ms1 ms2 r1 r2 :
  List.length r1 = 10%nat -> List.length r2 = 10%nat -> Forall is_byte r1 -> Forall is_byte r2 ->
  0 <= ms1 < ms2 -> ms2 < 2 ^ 50 -> text_lt (At ms1 r1) (At ms2 r2) = true.
Proof.
  intros L1 L2 H1 H2 Hms Hb. rewrite !At_digits by done.
  apply text_lt_longer; [by rewrite !digits32_length | by apply digits32_lt].
Qed.

(** An identifier is a valid one that carries exactly its time, modulo 50
    bits, and all eighty random bits: [Time] reads the time back and equal
    identifiers come from equal times and bytes. *)
Theorem At_roundtrip ms r :
  List.length r = 10%nat -> Forall is_byte r ->
  Valid (At ms r) = true /\ Time (At ms r) = Some (ms mod 2 ^ 50)
  /\ forall ms' r', List.length r' = 10%nat -> Forall is_byte r' -> At ms' r' = At ms r ->
     ms' mod 2 ^ 50 = ms mod 2 ^ 50 /\ r' = r.
Proof.
  intros Hl Hr. rewrite At_digits by done. split_and!.
  - unfold Valid. rewrite length_app, !digits32_length, forallb_app. by rewrite !digits32_valid.
  - unfold Time. rewrite length_app, !digits32_length. simpl Nat.ltb. cbv iota.
    rewrite take_app_length' by (by rewrite digits32_length). by rewrite time_go_digits by lia.
  - intros ms' r' Hl' Hr'. rewrite At_digits by done. intros [E1 E2]%app_inj_1; [| by rewrite !digits32_length].
    split.
    + apply (digits32_inj 10); [apply Z.mod_pos_bound; lia.. |].
      change (2 ^ 50) with (32 ^ Z.of_nat 10). by rewrite !digits32_mod.
    + apply digits32_inj in E2.
      * assert (forall k l m, Forall is_byte l -> Forall is_byte m -> List.length l = k -> List.length m = k ->
          big_endian l = big_endian m -> l = m) as Hinj; [| by apply (Hinj 10%nat)].
        clear. induction k as [| k IH]; intros [| b l] [| c m] Hl Hm; try done. intros [= Ll] [= Lm] E.
        unfold big_endian in E. simpl fold_left in E. rewrite !(big_endian_from _ (0 * 256 + _)) in E.
        rewrite Ll, Lm in E. apply Forall_cons_1 in Hl as [Hb Hl]. apply Forall_cons_1 in Hm as [Hc Hm].
        pose proof (big_endian_bound l Hl) as B1. pose proof (big_endian_bound m Hm) as B2. rewrite Ll in B1. rewrite Lm in B2.
        assert (b = c) as -> by nia. f_equal. apply IH; try done. lia.
      * pose proof (big_endian_bound r' Hr') as B. by rewrite Hl' in B.
      * pose proof (big_endian_bound r Hr) as B. by rewrite Hl in B.
Qed.

(** A time that is read is within 50 bits and is the one its ten characters
    spell: no other time has them. *)
Theorem Time_canonical id t :
  Time id = Some t -> 0 <= t < 2 ^ 50 /\ take 10 id = digits32 10 t.
Proof.
  unfold Time. destruct (Nat.ltb_spec (List.length id) 10) as [| Hl]; [done |]. intros H.
  assert (List.length (take 10 id) = 10%nat) as L by (rewrite length_take; lia).
  apply time_go_Some in H as (v & Hv & -> & E); rewrite ?L in *; [by rewrite Z.mul_0_l, Z.add_0_l | lia..].
Qed.

(** Within a millisecond the order is that of the random bytes, not of creation. *)
Theorem same_millisecond_unordered :
  let first := At 1700000000000 [255; 0; 0; 0; 0; 0; 0; 0; 0; 0] in
  let second := At 1700000000000 [1; 0; 0; 0; 0; 0; 0; 0; 0; 0] in
  text_lt second first = true.
Proof. by vm_compute. Qed.

Definition ten_bytes : list Z := [1; 35; 69; 103; 137; 171; 205; 239; 255; 0].

Lemma ten_bytes_ok : Forall is_byte ten_bytes.
Proof. unfold ten_bytes, is_byte. repeat (constructor; [lia |]). constructor. Qed.

Lemma zero_bytes_ok n : Forall is_byte (repeat 0 n).
Proof. apply Forall_forall. intros b Hb. apply repeat_spec in Hb as ->. unfold is_byte. lia. Qed.

Lemma At_order_witness :
  text_lt (At 1700000000000 ten_bytes) (At 1700000000001 (repeat 0 10)) = true
  /\ At 1700000000000 ten_bytes = T "01HF7YAT0004HMASW9NF6YZZR0".
Proof.
  split; [| by vm_compute]. apply At_order; [done | done | apply ten_bytes_ok | apply zero_bytes_ok | lia | lia].
Defined.

Lemma At_roundtrip_witness :
  Valid (At 1700000000000 ten_bytes) = true /\ Time (At 1700000000000 ten_bytes) = Some 1700000000000.
Proof.
  destruct (At_roundtrip 1700000000000 ten_bytes eq_refl ten_bytes_ok) as (Hv & Ht & _).
  split; [exact Hv | exact Ht].
Defined.

Lemma Time_canonical_witness : take 10 (T "01HF7YAT00ZZZZZZZZZZZZZZZZ") = digits32 10 1700000000000.
Proof.
  destruct (Time_canonical (T "01HF7YAT00ZZZZZZZZZZZZZZZZ") 1700000000000 eq_refl) as [_ H]. exact H.
Defined.
