(* ===== verification/RateLimit.v ===== *)
(** * The rate limiter of the control plane

    [cloud/internal/ratelimit/limiter.go]: token buckets per key, bounded in
    number by eviction of the least recently seen one.  The list of [lru] holds
    pointers: [entries] maps a key to an element, an element (a number) names a
    bucket of [lru], the most recently seen first.  Times are nanoseconds;
    [time.Time.Sub] saturates at the bounds of [time.Duration].  The mutex makes
    every [Allow] one step; a call under a cancelled context changes nothing. *)

From S2P Require Import Prelude GoStd.
#[local] Open Scope Z_scope.

Definition millisecond : Z := 1000000.

Record Policy := mkPolicy { Capacity : Z; RefillInterval : Z; MaxKeys : Z; IdleTTL : Z }.

Definition Validate (p : Policy) : bool :=
  negb ((Capacity p <? 1) || (1000000 <? Capacity p) || (RefillInterval p <? millisecond)
        || (hour <? RefillInterval p) || (MaxKeys p <? 1) || (1000000 <? MaxKeys p)
        || (IdleTTL p <? RefillInterval p) || (24 * hour <? IdleTTL p)).

Record Decision := mkDecision { Allowed : bool; RetryAfter : Z }.

(** [t.Sub(u)]. *)
Definition Sub (t u : time) : Z := Z.max (- 2 ^ 63) (Z.min max_int64 (t - u)).

Section limiter.
Context {K : Type} `{Countable K}.

Record bucket := mkBucket { key : K; tokens : Z; lastRefill : time; lastSeen : time }.

(** [fresh] numbers the next element. *)
Record Limiter := mkLimiter {
  policy : Policy;
  entries : gmap K nat;
  lru : list (nat * bucket);
  fresh_element : nat
}.

Definition New (p : Policy) : option Limiter := if Validate p then Some (mkLimiter p ∅ [] 0) else None.

(** The bucket an element holds. *)
Definition element (l : list (nat * bucket)) (e : nat) : option bucket :=
  snd <$> List.find (fun x => bool_decide (x.1 = e)) l.

Definition unlink (e : nat) (l : list (nat * bucket)) : list (nat * bucket) :=
  List.filter (fun x => negb (bool_decide (x.1 = e))) l.

Definition remove (l : Limiter) (x : nat * bucket) : Limiter :=
  mkLimiter (policy l) (delete (key x.2) (entries l)) (unlink x.1 (lru l)) (fresh_element l).

(** [lru.Back()]. *)
Definition back (l : Limiter) : option (nat * bucket) := list.last (lru l).

(** The loop of [expire]; [fuel] bounds the elements. *)
Fixpoint expire_go (fuel : nat) (now : time) (l : Limiter) : Limiter :=
  match fuel, back l with
  | S fuel, Some x =>
    if (now <? lastSeen x.2) || (Sub now (lastSeen x.2) <? IdleTTL (policy l)) then l
    else expire_go fuel now (remove l x)
  | _, _ => l
  end.
Definition expire (now : time) (l : Limiter) : Limiter := expire_go (List.length (lru l)) now l.

Definition refill (p : Policy) (now : time) (b : bucket) : bucket :=
  let elapsed := Sub now (lastRefill b) in
  if elapsed <? RefillInterval p then b
  else
    let added := Z.quot elapsed (RefillInterval p) in
    mkBucket (key b) (Z.min (Capacity p) (tokens b + added))
      (lastRefill b + added * RefillInterval p) (lastSeen b).

Definition evict (l : Limiter) : Limiter :=
  if Z.of_nat (size (entries l)) >=? MaxKeys (policy l)
  then match back l with Some x => remove l x | None => l end
  else l.

Definition create (k : K) (now : time) (l : Limiter) : Limiter :=
  let e := fresh_element l in
  mkLimiter (policy l) (<[k := e]> (entries l))
    ((e, mkBucket k (Capacity (policy l)) now now) :: lru l) (S e).

(** The limiter when the bucket of [k] is looked up, and its element. *)
Definition locate (k : K) (now : time) (l : Limiter) : Limiter * nat :=
  match entries l !! k with
  | Some e => (l, e)
  | None => let l := evict (expire now l) in (create k now l, fresh_element l)
  end.

(** What a call does to the bucket it found. *)
Definition take_token (p : Policy) (now : time) (b : bucket) : bucket * Decision :=
  let now := if now <? lastSeen b then lastSeen b else now in
  let b := refill p now b in
  let b := mkBucket (key b) (tokens b) (lastRefill b) now in
  if 0 <? tokens b then (mkBucket (key b) (tokens b - 1) (lastRefill b) now, mkDecision true 0)
  else
    let retry := RefillInterval p - Sub now (lastRefill b) in
    (b, mkDecision false (if (retry <=? 0) || (RefillInterval p <? retry) then RefillInterval p else retry)).

(** [Allow] under a live context; [None] where the code would dereference a
    missing element. *)
Definition Allow (k : K) (now : time) (l : Limiter) : option (Limiter * Decision) :=
  let (l, e) := locate k now l in
  b ← element (lru l) e;
  let (b, d) := take_token (policy l) now b in
  Some (mkLimiter (policy l) (entries l) ((e, b) :: unlink e (lru l)) (fresh_element l), d).

(** ** The invariant *)

Record bucket_ok (p : Policy) (b : bucket) : Prop := {
  ok_tokens : 0 <= tokens b <= Capacity p;
  ok_refill : lastRefill b <= lastSeen b
}.

Record wf (l : Limiter) : Prop := {
  wf_policy : Validate (policy l) = true;
  wf_elements : NoDup (lru l).*1;
  wf_entries k e : entries l !! k = Some e <-> exists b, (e, b) ∈ lru l /\ key b = k;
  wf_fresh x : x ∈ lru l -> (x.1 < fresh_element l)%nat;
  wf_bounded : Z.of_nat (size (entries l)) <= MaxKeys (policy l);
  wf_buckets x : x ∈ lru l -> bucket_ok (policy l) x.2
}.

Lemma unlink_elem e l x : x ∈ unlink e l <-> x ∈ l /\ x.1 <> e.
Proof.
  unfold unlink. rewrite !list_elem_of_In, filter_In, negb_true_iff, bool_decide_eq_false. done.
Qed.

Lemma unlink_fst e l : (unlink e l).*1 = List.filter (fun i => negb (bool_decide (i = e))) l.*1.
Proof. unfold unlink. induction l as [| x l IH]; simpl; [done |]. case_bool_decide; simpl; [| f_equal]; exact IH. Qed.

Lemma unlink_NoDup e l : NoDup l.*1 -> NoDup (unlink e l).*1.
Proof. rewrite unlink_fst, !NoDup_ListNoDup. apply List.NoDup_filter. Qed.

Lemma element_elem l e b : NoDup l.*1 -> element l e = Some b <-> (e, b) ∈ l.
Proof.
  induction l as [| [f c] l IH]; cbn [fmap list_fmap fst].
  - intros _. split; [done | by intros ?%elem_of_nil].
  - rewrite list.NoDup_cons. intros [Hn Hd]. specialize (IH Hd). unfold element in *. cbn [List.find].
    rewrite elem_of_cons. case_bool_decide as E; simpl in E.
    + subst f. simpl. split; [intros [= ->]; by left |]. intros [[= ->] | Hin]; [done |].
      destruct Hn. apply list_elem_of_fmap. by exists (e, b).
    + rewrite IH. split; [by right |]. by intros [[= <- _] |].
Qed.

Lemma back_elem l x : back l = Some x -> x ∈ lru l.
Proof. apply last_Some_elem_of. Qed.

Lemma wf_unique l e b b' : wf l -> (e, b) ∈ lru l -> (e, b') ∈ lru l -> b = b'.
Proof.
  intros Hl H1 H2. apply (element_elem _ _ _ (wf_elements _ Hl)) in H1, H2. rewrite H1 in H2. by injection H2.
Qed.

Lemma wf_lookup l e b : wf l -> (e, b) ∈ lru l -> entries l !! key b = Some e.
Proof. intros Hl Hin. apply (wf_entries _ Hl). by exists b. Qed.

Lemma wf_remove l x : wf l -> x ∈ lru l -> wf (remove l x).
Proof.
  intros Hl Hx. pose proof (wf_unique l) as Hu. pose proof (wf_lookup l) as Hlk.
  pose proof Hl as [Hp Hd He Hf Hb Hok]. destruct x as [e b]. split; cbn [policy entries lru fresh_element remove fst snd].
  - done.
  - by apply unlink_NoDup.
  - intros k e'. rewrite lookup_delete_Some, He. split.
    + intros [Hk (b' & Hin & <-)]. exists b'. split; [| done]. apply unlink_elem. split; [done |].
      intros E. simpl in E. subst e'. destruct Hk. by rewrite (Hu e b b').
    + intros (b' & [Hin Hne]%unlink_elem & <-). simpl in Hne. split; [| by exists b']. intros Hk. destruct Hne.
      apply Hlk in Hin, Hx; try done. congruence.
  - intros y [Hy _]%unlink_elem. auto.
  - assert (size (delete (key b) (entries l)) <= size (entries l))%nat; [| lia].
    rewrite map_size_delete. destruct (entries l !! key b); simpl; lia.
  - intros y [Hy _]%unlink_elem. auto.
Qed.

Lemma wf_expire_go n now l : wf l -> wf (expire_go n now l).
Proof.
  revert l. induction n as [| n IH]; intros l Hl; simpl; [done |]. destruct (back l) as [x |] eqn:E; [| done].
  destruct (_ || _); [done |]. apply IH, wf_remove; [done | by apply back_elem].
Qed.

Lemma policy_expire_go n now l : policy (expire_go n now l) = policy l.
Proof.
  revert l. induction n as [| n IH]; intros l; simpl; [done |]. destruct (back l); [| done].
  destruct (_ || _); [done |]. by rewrite IH.
Qed.

Lemma policy_bounds p : Validate p = true ->
  1 <= Capacity p <= 1000000 /\ millisecond <= RefillInterval p <= hour
  /\ 1 <= MaxKeys p <= 1000000 /\ RefillInterval p <= IdleTTL p <= 24 * hour.
Proof. unfold Validate. rewrite negb_true_iff, !orb_false_iff, !Z.ltb_ge. lia. Qed.

(** The map is as large as the list. *)
Lemma wf_size l : wf l -> size (entries l) = List.length (lru l).
Proof.
  intros Hl. pose proof Hl as [_ Hd He _ _ _].
  assert (NoDup (map (fun x : nat * bucket => key x.2) (lru l))) as Hk.
  { apply NoDup_fmap_2_strong; [| by apply NoDup_fmap_1 in Hd]. intros [e b] [e' b'] H1 H2 Hkk. simpl in Hkk.
    assert (e = e') as <- by (apply wf_lookup in H1, H2; congruence). f_equal. by eapply wf_unique. }
  rewrite <- size_dom. rewrite <- (length_map (fun x : nat * bucket => key x.2)).
  rewrite <- (size_list_to_set (C := gset K)) by done. f_equal. apply set_eq. intros k.
  rewrite elem_of_dom, elem_of_list_to_set, list_elem_of_In, in_map_iff. split.
  - intros [e (b & Hin & Hkb)%He]. exists (e, b). split; [done | by apply list_elem_of_In].
  - intros [[e b] [Hkb Hin]]. exists e. apply He. exists b. split; [by apply list_elem_of_In | done].
Qed.

Lemma wf_evict l : wf l ->
  wf (evict l) /\ Z.of_nat (size (entries (evict l))) < MaxKeys (policy l) /\ policy (evict l) = policy l.
Proof.
  intros Hl. unfold evict. rewrite Z.geb_leb. destruct (Z.leb_spec (MaxKeys (policy l)) (Z.of_nat (size (entries l)))) as [Hm | Hm].
  - pose proof (wf_bounded _ Hl). destruct (policy_bounds _ (wf_policy _ Hl)) as (_ & _ & Hk & _).
    destruct (back l) as [x |] eqn:E.
    + split_and!; [apply wf_remove; [done | by apply back_elem] | | done].
      assert (entries l !! key x.2 = Some x.1) as Hx.
      { apply (wf_entries _ Hl). exists x.2. split; [| done]. destruct x. by apply back_elem. }
      unfold remove. cbn [entries]. rewrite map_size_delete, Hx. simpl. lia.
    + unfold back in E. apply last_None in E. pose proof (wf_size _ Hl) as Hs. rewrite E in Hs. simpl in Hs. lia.
  - by split_and!.
Qed.

Lemma wf_create l k now :
  wf l -> Z.of_nat (size (entries l)) < MaxKeys (policy l) -> entries l !! k = None -> wf (create k now l).
Proof.
  intros Hl Hm Hk. pose proof Hl as [Hp Hd He Hf Hb Hok]. split; cbn [policy entries lru fresh_element create].
  - done.
  - cbn [fmap list_fmap fst]. apply list.NoDup_cons. split; [| done]. intros (x & E & Hx)%list_elem_of_fmap.
    apply Hf in Hx. lia.
  - intros k' e. rewrite lookup_insert_Some, He. setoid_rewrite elem_of_cons. split.
    + intros [[<- <-] | [Hne (b & Hin & Hkb)]]; [eexists; split; [by left | done] | exists b; by eauto].
    + intros (b & [[= -> ->] | Hin] & <-); [by left | right]. split; [| by exists b].
      intros ->. apply wf_lookup in Hin; [congruence | done].
  - intros x [-> | Hx%Hf]%elem_of_cons; simpl; lia.
  - rewrite map_size_insert_None by done. lia.
  - intros x [-> | Hx]%elem_of_cons; [| auto]. apply policy_bounds in Hp. split; simpl; lia.
Qed.

Lemma entries_remove l x k : entries l !! k = None -> entries (remove l x) !! k = None.
Proof. intros Hk. unfold remove. cbn [entries]. rewrite lookup_delete_None. by right. Qed.

Lemma entries_expire_go n now l k : entries l !! k = None -> entries (expire_go n now l) !! k = None.
Proof.
  revert l. induction n as [| n IH]; intros l Hk; simpl; [done |]. destruct (back l) as [x |]; [| done].
  destruct (_ || _); [done |]. by apply IH, entries_remove.
Qed.

Lemma entries_evict l k : entries l !! k = None -> entries (evict l) !! k = None.
Proof. intros Hk. unfold evict. destruct (_ >=? _); [| done]. destruct (back l); [by apply entries_remove | done]. Qed.

Lemma wf_locate k now l : wf l ->
  wf (locate k now l).1 /\ policy (locate k now l).1 = policy l
  /\ exists b, (( locate k now l).2, b) ∈ lru (locate k now l).1 /\ key b = k.
Proof.
  intros Hl. unfold locate. destruct (entries l !! k) as [e |] eqn:E; cbn [fst snd].
  - split_and!; [done | done |]. by apply (wf_entries _ Hl) in E.
  - pose proof (wf_expire_go (List.length (lru l)) now l Hl) as Hx. fold (expire now l) in Hx.
    destruct (wf_evict _ Hx) as (Hv & Hm & Hp).
    assert (policy (expire now l) = policy l) as Hpe by apply policy_expire_go.
    split_and!.
    + apply wf_create; [done | by rewrite Hp |]. by apply entries_evict, entries_expire_go.
    + cbn [create policy]. by rewrite Hp.
    + eexists. split; [by left | done].
Qed.

Lemma Sub_bounds t u : u <= t -> 0 <= Sub t u <= t - u.
Proof. unfold Sub, max_int64. lia. Qed.

Lemma refill_cases p now b :
  0 < RefillInterval p -> lastRefill b <= now ->
  exists n, 0 <= n /\ n * RefillInterval p <= now - lastRefill b /\ key (refill p now b) = key b
  /\ lastSeen (refill p now b) = lastSeen b
  /\ lastRefill (refill p now b) = lastRefill b + n * RefillInterval p
  /\ (tokens (refill p now b) = tokens b /\ n = 0 \/ tokens (refill p now b) = Z.min (Capacity p) (tokens b + n)).
Proof.
  intros Hr Hb. unfold refill. pose proof (Sub_bounds now (lastRefill b) Hb) as Hs.
  destruct (Z.ltb_spec (Sub now (lastRefill b)) (RefillInterval p)) as [| Hge].
  - exists 0. split_and!; first [done | lia | by left].
  - exists (Z.quot (Sub now (lastRefill b)) (RefillInterval p)). cbn [key lastSeen lastRefill tokens].
    pose proof (Z.mul_quot_le (Sub now (lastRefill b)) (RefillInterval p)).
    split_and!; [apply Z.quot_pos; lia | lia | done | done | done | by right].
Qed.

(** The clock a bucket goes by. *)
Definition seen_at (now : time) (b : bucket) : time := Z.max (lastSeen b) now.

Lemma take_token_ok p now b : Validate p = true -> bucket_ok p b ->
  let (b', d) := take_token p now b in
  bucket_ok p b' /\ key b' = key b /\ lastSeen b' = seen_at now b
  /\ (Allowed d = false -> tokens b' = 0 /\ 0 < RetryAfter d <= RefillInterval p).
Proof.
  intros Hp [Ht Hrf]. apply policy_bounds in Hp as (Hc & Hr & _). unfold millisecond in Hr. unfold take_token.
  assert ((if now <? lastSeen b then lastSeen b else now) = seen_at now b) as -> by (unfold seen_at; destruct (Z.ltb_spec now (lastSeen b)); lia).
  destruct (refill_cases p (seen_at now b) b) as (n & Hn & Hle & Hk & Hls & Hlr & Htok);
    [lia | unfold seen_at; lia |].
  set (b1 := refill p (seen_at now b) b) in *. cbn [tokens lastRefill key].
  destruct (Z.ltb_spec 0 (tokens b1)); cbn [tokens lastRefill key lastSeen Allowed RetryAfter].
  - split_and!; [split; cbn [tokens lastRefill lastSeen]; lia | done | done | done].
  - split_and!; [split; cbn [tokens lastRefill lastSeen]; lia | done | done |]. intros _. split; [lia |].
    destruct (Z.leb_spec (RefillInterval p - Sub (seen_at now b) (lastRefill b1)) 0); simpl; [lia |].
    destruct (Z.ltb_spec (RefillInterval p) (RefillInterval p - Sub (seen_at now b) (lastRefill b1))); lia.
Qed.

(** ** The bucket of a key *)

Definition bucket_of (l : Limiter) (k : K) : option bucket := e ← entries l !! k; element (lru l) e.

Lemma bucket_of_Some l k b : wf l -> bucket_of l k = Some b <-> exists e, (e, b) ∈ lru l /\ key b = k.
Proof.
  intros Hl. unfold bucket_of. split.
  - destruct (entries l !! k) as [e |] eqn:E; [| done]. simpl. intros Hb.
    apply element_elem in Hb; [| by apply Hl]. exists e. split; [done |].
    apply (wf_entries _ Hl) in E as (b' & Hb' & <-). f_equal. by eapply wf_unique.
  - intros (e & Hin & <-). rewrite (wf_lookup _ e) by done. simpl. apply element_elem; [by apply Hl | done].
Qed.

Lemma bucket_of_None l k : wf l -> bucket_of l k = None <-> entries l !! k = None.
Proof.
  intros Hl. unfold bucket_of. destruct (entries l !! k) as [e |] eqn:E; simpl; [| done].
  split; [| done]. intros Hn. apply (wf_entries _ Hl) in E as (b & Hin & _).
  apply element_elem in Hin; [congruence | apply Hl].
Qed.

(** A bucket of another key is left alone, or dropped. *)
Definition kept_or_dropped (l l' : Limiter) (k : K) : Prop :=
  bucket_of l' k = bucket_of l k \/ bucket_of l' k = None.

Lemma kept_trans l1 l2 l3 k : kept_or_dropped l1 l2 k -> kept_or_dropped l2 l3 k -> kept_or_dropped l1 l3 k.
Proof. unfold kept_or_dropped. intros [<- | H1] [-> | H2]; auto. Qed.

Lemma kept_remove l x k : wf l -> x ∈ lru l -> kept_or_dropped l (remove l x) k.
Proof.
  intros Hl Hx. pose proof (wf_remove _ _ Hl Hx) as Hr. unfold kept_or_dropped.
  destruct (bucket_of (remove l x) k) as [b |] eqn:E; [| by right]. left. symmetry.
  apply bucket_of_Some in E as (e & [Hin _]%unlink_elem & Hk); [| done]. apply bucket_of_Some; eauto.
Qed.

Lemma kept_expire_go n now l k : wf l -> kept_or_dropped l (expire_go n now l) k.
Proof.
  revert l. induction n as [| n IH]; intros l Hl; simpl; [by left |]. destruct (back l) as [x |] eqn:E; [| by left].
  destruct (_ || _); [by left |]. apply back_elem in E.
  eapply kept_trans; [by apply kept_remove | apply IH; by apply wf_remove].
Qed.

Lemma kept_evict l k : wf l -> kept_or_dropped l (evict l) k.
Proof.
  intros Hl. unfold evict. destruct (_ >=? _); [| by left]. destruct (back l) as [x |] eqn:E; [| by left].
  by apply kept_remove, back_elem.
Qed.

Lemma kept_create l k k' now : wf l -> wf (create k now l) -> k' <> k -> bucket_of (create k now l) k' = bucket_of l k'.
Proof.
  intros Hl Hc Hne. apply option_eq. intros b. rewrite !bucket_of_Some by done. cbn [create lru].
  setoid_rewrite elem_of_cons. split; [| naive_solver]. intros (e & [[= -> ->] | Hin] & Hk); [simpl in Hk; congruence | eauto].
Qed.

Lemma locate_bucket k now l : wf l ->
  let (l1, e) := locate k now l in
  wf l1 /\ policy l1 = policy l
  /\ (exists b, (e, b) ∈ lru l1 /\ key b = k
      /\ (bucket_of l k = Some b /\ l1 = l \/ bucket_of l k = None /\ b = mkBucket k (Capacity (policy l)) now now))
  /\ forall k', k' <> k -> kept_or_dropped l l1 k'.
Proof.
  intros Hl. pose proof (wf_locate k now l Hl) as (H1 & H2 & _). unfold locate in *.
  destruct (entries l !! k) as [e |] eqn:E; cbn [fst snd] in *.
  - split_and!; [done | done | | by left]. pose proof E as (b & Hin & Hk)%(wf_entries _ Hl).
    exists b. split_and!; [done | done |]. left. split; [| done]. apply bucket_of_Some; eauto.
  - pose proof (wf_expire_go (List.length (lru l)) now l Hl) as Hx. fold (expire now l) in Hx.
    destruct (wf_evict _ Hx) as (Hv & _ & _). split_and!; [done | done | |].
    + eexists. split_and!; [by left | done |]. right. split; [by apply bucket_of_None |].
      cbn [create policy] in H2. by rewrite H2.
    + intros k' Hne. eapply kept_trans; [by apply kept_expire_go |].
      eapply kept_trans; [by apply kept_evict |]. left. by apply kept_create.
Qed.

(** A call takes a token of the bucket of its key, an existing or a fresh one. *)
Lemma Allow_cases k now l : wf l ->
  exists l' d b b', Allow k now l = Some (l', d) /\ wf l' /\ policy l' = policy l
  /\ (bucket_of l k = Some b \/ bucket_of l k = None /\ b = mkBucket k (Capacity (policy l)) now now)
  /\ bucket_ok (policy l) b /\ take_token (policy l) now b = (b', d) /\ bucket_of l' k = Some b'
  /\ (forall k', k' <> k -> kept_or_dropped l l' k')
  /\ (is_Some (bucket_of l k) -> forall k', k' <> k -> bucket_of l' k' = bucket_of l k').
Proof.
  intros Hl. pose proof (locate_bucket k now l Hl) as H1. unfold Allow.
  destruct (locate k now l) as [l1 e]. destruct H1 as (Hw & Hp & (b & Hin & Hk & Hb) & Hother).
  assert (element (lru l1) e = Some b) as -> by (apply element_elem; [apply Hw | done]). cbn [mbind option_bind].
  assert (bucket_ok (policy l) b) as Hok by (rewrite <- Hp; by apply (wf_buckets _ Hw (e, b))).
  pose proof (take_token_ok (policy l) now b (wf_policy _ Hl) Hok) as Ht.
  rewrite Hp. destruct (take_token (policy l) now b) as [b' d] eqn:Et. destruct Ht as (Hok' & Hk' & _ & _).
  set (l' := mkLimiter _ _ _ _).
  assert (forall x, x ∈ lru l' <-> x = (e, b') \/ x ∈ lru l1 /\ x.1 <> e) as Hx.
  { intros x. unfold l'. cbn [lru]. by rewrite elem_of_cons, unlink_elem. }
  assert (wf l') as Hw'.
  { pose proof Hw as [W1 W2 W3 W4 W5 W6]. split; unfold l'; cbn [policy entries lru fresh_element].
    - by apply Hl.
    - cbn [fmap list_fmap fst]. apply list.NoDup_cons. split; [| by apply unlink_NoDup].
      intros (y & E & [_ Hy]%unlink_elem)%list_elem_of_fmap. by destruct Hy.
    - intros k2 e2. rewrite W3. setoid_rewrite elem_of_cons. setoid_rewrite unlink_elem. split.
      + intros (c & Hc & <-). destruct (decide (e2 = e)) as [-> | Hne]; [| by eauto 6].
        exists b'. split; [by left |]. rewrite Hk'. f_equal. by eapply wf_unique.
      + intros (c & [[= -> ->] | [Hc _]] & <-); [exists b; by rewrite Hk' | eauto].
    - intros x [-> | [Hxl _]%unlink_elem]%elem_of_cons; [by apply (W4 (e, b)) | auto].
    - by rewrite <- Hp.
    - intros x [-> | [Hxl _]%unlink_elem]%elem_of_cons; [done |]. rewrite <- Hp. auto. }
  assert (forall k', k' <> k -> bucket_of l' k' = bucket_of l1 k') as Hne.
  { intros k' Hne. apply option_eq. intros c. rewrite !bucket_of_Some by done. setoid_rewrite Hx. split.
    - intros (e2 & [[= -> ->] | [Hc _]] & Hkc); [congruence | eauto].
    - intros (e2 & Hc & Hkc). exists e2. split; [| done]. right. split; [done |]. simpl. intros ->.
      destruct Hne. rewrite <- Hkc, <- Hk. f_equal. by apply (wf_unique l1 e). }
  exists l', d, b, b'. split_and!; [done | done | done | by tauto | done | done | | |].
  - apply bucket_of_Some; [done |]. exists e. split; [apply Hx; by left | congruence].
  - intros k' Hn. unfold kept_or_dropped. rewrite Hne by done. by apply Hother.
  - intros [c Hc] k' Hn. rewrite Hne by done. destruct Hb as [[_ ->] | [? _]]; [done | congruence].
Qed.

(** ** Runs *)

(** A sequence of calls, each with its clock; the decisions in order. *)
Fixpoint calls (cs : list (K * time)) (l : Limiter) : option (Limiter * list Decision) :=
  match cs with
  | [] => Some (l, [])
  | (k, now) :: cs =>
    '(l, d) ← Allow k now l; '(l, ds) ← calls cs l; Some (l, d :: ds)
  end.

(** How often the calls of [k] were admitted, and how often they found no bucket. *)
Fixpoint tally (k : K) (cs : list (K * time)) (l : Limiter) : Z * Z :=
  match cs with
  | [] => (0, 0)
  | (k', now) :: cs =>
    match Allow k' now l with
    | None => (0, 0)
    | Some (l', d) =>
      let (a, c) := tally k cs l' in
      if decide (k' = k)
      then (a + (if Allowed d then 1 else 0), c + (if bucket_of l k then 0 else 1))
      else (a, c)
    end
  end.

(** The clocks do not run backwards. *)
Fixpoint monotone (t : time) (cs : list (K * time)) : Prop :=
  match cs with [] => True | (_, now) :: cs => t <= now /\ monotone now cs end.

Fixpoint last_clock (t : time) (cs : list (K * time)) : time :=
  match cs with [] => t | (_, now) :: cs => last_clock now cs end.

Lemma New_wf p l : New p = Some l -> wf l /\ policy l = p /\ forall k, bucket_of l k = None.
Proof.
  unfold New. destruct (Validate p) eqn:E; [| done]. intros [= <-].
  destruct (policy_bounds p E) as (_ & _ & Hm & _). split_and!; [split; cbn | done | done].
  - done.
  - constructor.
  - intros k e. rewrite lookup_empty. split; [done |]. by intros (b & ?%elem_of_nil & _).
  - by intros x ?%elem_of_nil.
  - rewrite map_size_empty. lia.
  - by intros x ?%elem_of_nil.
Qed.

Lemma calls_wf cs l : wf l -> exists l' ds, calls cs l = Some (l', ds) /\ wf l' /\ policy l' = policy l
  /\ List.length ds = List.length cs.
Proof.
  revert l. induction cs as [| [k now] cs IH]; intros l Hl; simpl; [by exists l, [] |].
  destruct (Allow_cases k now l Hl) as (l1 & d & b & b' & -> & Hl1 & Hp & _). simpl.
  destruct (IH l1 Hl1) as (l' & ds & -> & Hl' & Hp' & Hlen). simpl. exists l', (d :: ds).
  split_and!; [done | done | congruence | simpl; lia].
Qed.

(** What [k] may still spend: the tokens of its bucket count as spent. *)
Definition within (p : Policy) (t0 t : time) (o : option bucket) (admitted created : Z) : Prop :=
  match o with
  | Some b => t0 <= lastRefill b /\ lastSeen b <= t
      /\ admitted + tokens b <= Capacity p * created + (lastRefill b - t0) / RefillInterval p
  | None => admitted <= Capacity p * created + (t - t0) / RefillInterval p
  end.

Lemma within_drop p t0 t b a c : 0 < RefillInterval p -> bucket_ok p b ->
  within p t0 t (Some b) a c -> within p t0 t None a c.
Proof.
  intros Hr [? ?] (? & ? & Ha). simpl.
  assert ((lastRefill b - t0) / RefillInterval p <= (t - t0) / RefillInterval p) by (apply Z.div_le_mono; lia). lia.
Qed.

Lemma within_later p t0 t t' o a c : 0 < RefillInterval p -> t <= t' -> within p t0 t o a c -> within p t0 t' o a c.
Proof.
  intros Hr Ht. destruct o as [b |]; simpl; [lia |].
  assert ((t - t0) / RefillInterval p <= (t' - t0) / RefillInterval p) by (apply Z.div_le_mono; lia). lia.
Qed.

Lemma within_fresh p t0 t k a c : 0 < RefillInterval p -> t0 <= t ->
  within p t0 t None a c -> within p t0 t (Some (mkBucket k (Capacity p) t t)) a (c + 1).
Proof. simpl. lia. Qed.

Lemma within_take p t0 t now b a c : Validate p = true -> bucket_ok p b -> t <= now ->
  within p t0 t (Some b) a c ->
  let (b', d) := take_token p now b in within p t0 now (Some b') (a + (if Allowed d then 1 else 0)) c.
Proof.
  intros Hp [Htb Hrf] Ht (H0 & Hls & Ha). apply policy_bounds in Hp as (Hc & Hr & _). unfold millisecond in Hr.
  unfold take_token.
  assert ((if now <? lastSeen b then lastSeen b else now) = now) as -> by (destruct (Z.ltb_spec now (lastSeen b)); lia).
  destruct (refill_cases p now b) as (n & Hn & Hle & Hk & Hls' & Hlr & Htok); [lia | lia |].
  set (b1 := refill p now b) in *. cbn [tokens lastRefill key lastSeen].
  assert ((lastRefill b1 - t0) / RefillInterval p = (lastRefill b - t0) / RefillInterval p + n) as E.
  { rewrite Hlr. replace (_ - t0) with (lastRefill b - t0 + n * RefillInterval p) by lia. by rewrite Z.div_add by lia. }
  assert (0 <= n * RefillInterval p) by nia.
  destruct (Z.ltb_spec 0 (tokens b1)); cbn [tokens lastRefill lastSeen Allowed within]; rewrite E; lia.
Qed.

Lemma within_Allow k k' now l p t0 t a c : wf l -> policy l = p -> t0 <= t <= now ->
  within p t0 t (bucket_of l k) a c ->
  exists l' d, Allow k' now l = Some (l', d) /\ wf l' /\ policy l' = p
  /\ within p t0 now (bucket_of l' k)
       (a + (if decide (k' = k) then if Allowed d then 1 else 0 else 0))
       (c + (if decide (k' = k) then if bucket_of l k then 0 else 1 else 0)).
Proof.
  intros Hl <- Ht Hw. pose proof (wf_policy _ Hl) as Hp. destruct (policy_bounds _ Hp) as (_ & Hr & _).
  unfold millisecond in Hr.
  destruct (Allow_cases k' now l Hl) as (l' & d & b & b' & HA & Hl' & Hp' & Hb & Hok & Ht' & Hb' & Hother & _).
  exists l', d. split_and!; [done | done | done |]. case_decide as E.
  - subst k'. rewrite Hb'. destruct Hb as [Eb | [Eb ->]]; rewrite Eb in *.
    + rewrite Z.add_0_r. pose proof (within_take _ t0 t now b a c Hp Hok) as H1. rewrite Ht' in H1. apply H1; [lia | done].
    + assert (within (policy l) t0 now (Some (mkBucket k (Capacity (policy l)) now now)) a (c + 1)) as Hf.
      { apply within_fresh; [lia | lia |]. eapply within_later; [lia | | exact Hw]. lia. }
      pose proof (within_take _ t0 now now _ a (c + 1) Hp Hok) as H1. rewrite Ht' in H1. apply H1; [lia | done].
  - rewrite !Z.add_0_r. assert (k <> k') as Hne by done. destruct (Hother k Hne) as [-> | ->].
    + eapply within_later; [lia | | exact Hw]. lia.
    + eapply within_later; [lia | apply Ht |]. destruct (bucket_of l k) as [b0 |] eqn:E0; [| done].
      eapply within_drop; [lia | | exact Hw]. apply bucket_of_Some in E0 as (e & Hin & _); [| done].
      by apply (wf_buckets _ Hl (e, b0)).
Qed.

Lemma within_tally k cs l p t0 t a c : wf l -> policy l = p -> t0 <= t -> monotone t cs ->
  within p t0 t (bucket_of l k) a c ->
  let (a', c') := tally k cs l in
  a + a' <= Capacity p * (c + c') + (last_clock t cs - t0) / RefillInterval p.
Proof.
  revert l t a c. induction cs as [| [k' now] cs IH]; intros l t a c Hl Hp Ht Hm Hw; cbn [tally last_clock].
  - assert (within p t0 t None a c) as H1; [| simpl in H1; rewrite !Z.add_0_r; lia].
    destruct (bucket_of l k) as [b |] eqn:E; [| done]. apply bucket_of_Some in E as (e & Hin & _); [| done].
    subst p. destruct (policy_bounds _ (wf_policy _ Hl)) as (_ & Hr & _). unfold millisecond in Hr.
    eapply within_drop; [lia | by apply (wf_buckets _ Hl (e, b)) | done].
  - destruct Hm as [Hm1 Hm2].
    destruct (within_Allow k k' now l p t0 t a c Hl Hp) as (l' & d & -> & Hl' & Hp' & Hw'); [lia | done |].
    specialize (IH l' now _ _ Hl' Hp' ltac:(lia) Hm2 Hw'). destruct (tally k cs l') as [a' c'].
    case_decide; cbn beta iota in *; [| by rewrite !Z.add_0_r in IH].
    rewrite (Z.add_comm a'), (Z.add_comm c'), !Z.add_assoc. done.
Qed.

(** ** Properties *)

(** The limiter stays bounded: from a new limiter every sequence of calls is
    answered, never more than [MaxKeys] keys are kept, and every bucket holds
    between none and [Capacity] tokens.  A call on a known key touches no other
    key; a call on a new one can at most drop others. *)
Theorem Allow_bounded p l cs k now :
  New p = Some l ->
  exists l' ds, calls cs l = Some (l', ds) /\ List.length ds = List.length cs
  /\ Z.of_nat (size (entries l')) <= MaxKeys p
  /\ (forall k b, bucket_of l' k = Some b -> 0 <= tokens b <= Capacity p)
  /\ exists l'' d, Allow k now l' = Some (l'', d)
     /\ forall k', k' <> k -> bucket_of l'' k' = bucket_of l' k' \/ bucket_of l' k = None /\ bucket_of l'' k' = None.
Proof.
  intros (Hl & Hp & _)%New_wf. destruct (calls_wf cs l Hl) as (l' & ds & Hc & Hl' & Hp' & Hlen).
  exists l', ds. split_and!; [done | done | rewrite <- Hp, <- Hp'; by apply Hl' | |].
  - intros k0 b (e & Hin & _)%bucket_of_Some; [| done]. rewrite <- Hp, <- Hp'. by apply (wf_buckets _ Hl' (e, b)).
  - destruct (Allow_cases k now l' Hl') as (l'' & d & b & b' & HA & _ & _ & Hb & _ & _ & _ & Ho & Hs).
    exists l'', d. split; [done |]. intros k' Hne. destruct Hb as [Hb | [Hb _]].
    + left. by apply Hs.
    + destruct (Ho k' Hne); [by left | by right].
Qed.

(** C38: The rate is bounded: while the clock does not run backwards, the admitted
    calls of a key are at most [Capacity] for each time its bucket was created,
    and one per refill interval since the start. *)
Theorem admitted_bound p l k cs t0 :
  New p = Some l -> monotone t0 cs ->
  (tally k cs l).1 <= Capacity p * (tally k cs l).2 + (last_clock t0 cs - t0) / RefillInterval p.
Proof.
  intros (Hl & Hp & Hn)%New_wf Hm.
  assert (within p t0 t0 (bucket_of l k) 0 0) as H1 by (rewrite Hn; simpl; by rewrite Z.sub_diag, Z.div_0_l; [lia |];
    subst p; destruct (policy_bounds _ (wf_policy _ Hl)) as (_ & Hr & _); unfold millisecond in Hr; lia).
  pose proof (within_tally k cs l p t0 t0 0 0 Hl Hp ltac:(lia) Hm H1) as H2.
  destruct (tally k cs l). simpl. lia.
Qed.

(** A refusal tells when to come back: a key that is refused is admitted at
    the announced time or later, and refused before, if nothing else happens. *)
Theorem refused_then_admitted p l0 cs l ds k now later l1 d :
  New p = Some l0 -> calls cs l0 = Some (l, ds) ->
  (forall b, bucket_of l k = Some b -> lastSeen b <= now) -> now <= later ->
  Allow k now l = Some (l1, d) -> Allowed d = false ->
  exists l2 d2, Allow k later l1 = Some (l2, d2) /\ Allowed d2 = (now + RetryAfter d <=? later).
Proof.
  intros (Hl0 & Hp0 & _)%New_wf Hcs Hseen Hlater HA Hd.
  destruct (calls_wf cs l0 Hl0) as (? & ? & Hc & Hl & Hp & _). rewrite Hc in Hcs. injection Hcs as -> ->.
  destruct (Allow_cases k now l Hl) as (? & ? & b & b' & HA' & Hl1 & Hp1 & Hb & Hok & Ht & Hb' & _).
  rewrite HA' in HA. injection HA as -> ->.
  destruct (Allow_cases k later l1 Hl1) as (l2 & d2 & c & c' & HA2 & _ & _ & Hc2 & _ & Ht2 & _).
  exists l2, d2. split; [done |]. destruct Hc2 as [Hc2 | [? _]]; [| congruence].
  rewrite Hb' in Hc2. injection Hc2 as <-. rewrite Hp1 in Ht2.
  assert (lastSeen b <= now) as Hls by (destruct Hb as [? | [_ ->]]; [auto | simpl; lia]). clear Hb Hb' HA' HA2 Hseen.
  destruct (policy_bounds _ (wf_policy _ Hl)) as (Hcap & Hr & _). unfold millisecond, hour, minute, second in Hr.
  destruct Hok as [Htb Hrf]. set (r := RefillInterval (policy l)) in *.
  assert ((if now <? lastSeen b then lastSeen b else now) = now) as En by (destruct (Z.ltb_spec now (lastSeen b)); lia).
  unfold take_token in Ht. rewrite En in Ht. unfold refill in Ht. fold r in Ht.
  destruct (Z.ltb_spec (Sub now (lastRefill b)) r) as [Hlt | Hge].
  2: { assert (1 <= Z.quot (Sub now (lastRefill b)) r) by (apply Z.quot_le_lower_bound; lia).
       cbn [tokens] in Ht. destruct (Z.ltb_spec 0 (Z.min (Capacity (policy l)) (tokens b + Z.quot (Sub now (lastRefill b)) r)));
         [| lia]. injection Ht as _ <-. done. }
  cbn [tokens lastRefill key] in Ht. destruct (Z.ltb_spec 0 (tokens b)) as [| H0]; injection Ht as <- <-; [done |].
  unfold Sub, max_int64 in Hlt. cbn [RetryAfter]. unfold Sub at 1 2, max_int64. 
  assert (Z.max (- 2 ^ 63) (Z.min (2 ^ 63 - 1) (now - lastRefill b)) = now - lastRefill b) as E by lia. rewrite E.
  assert ((r - (now - lastRefill b) <=? 0) || (r <? r - (now - lastRefill b)) = false) as ->
    by (apply orb_false_iff; split; [apply Z.leb_gt | apply Z.ltb_ge]; lia).
  unfold take_token in Ht2. cbn [lastSeen] in Ht2.
  assert ((if later <? now then now else later) = later) as En2 by (destruct (Z.ltb_spec later now); lia).
  rewrite En2 in Ht2. unfold refill in Ht2. cbn [lastRefill tokens key lastSeen] in Ht2. fold r in Ht2.
  destruct (Z.ltb_spec (Sub later (lastRefill b)) r) as [Hl2 | Hg2]; unfold Sub, max_int64 in *; cbn [tokens] in Ht2.
  - destruct (Z.ltb_spec 0 (tokens b)); [lia |]. injection Ht2 as _ <-. cbn [Allowed]. symmetry. apply Z.leb_gt. lia.
  - set (q := Z.quot _ r) in Ht2. assert (1 <= q) by (apply Z.quot_le_lower_bound; lia).
    destruct (Z.ltb_spec 0 (Z.min (Capacity (policy l)) (tokens b + q))); [| lia]. injection Ht2 as _ <-.
    cbn [Allowed]. symmetry. apply Z.leb_le. lia.
Qed.
End limiter.

(** ** A concrete run *)

Definition login_policy : Policy := mkPolicy 2 second 2 minute.

Definition login_calls : list (string * time) :=
  [("a", 0); ("a", 0); ("b", 1); ("a", 5); ("c", second); ("a", 2 * second); ("b", 2 * second)].

Lemma Allow_bounded_witness :
  exists l l' ds, New login_policy = Some l /\ calls login_calls l = Some (l', ds)
  /\ map Allowed ds = [true; true; true; false; true; true; true] /\ Z.of_nat (size (entries l')) <= 2.
Proof.
  eexists. destruct (Allow_bounded (K := string) login_policy _ login_calls "d" 0 eq_refl) as (l' & ds & Hc & _ & Hm & _).
  exists l', ds. split_and!; [reflexivity | exact Hc | | exact Hm].
  vm_compute in Hc. by injection Hc as _ <-.
Defined.

Lemma admitted_bound_witness :
  exists l, New login_policy = Some l /\ tally "a" login_calls l = (3, 1)
  /\ (tally "a" login_calls l).1 <= 2 * (tally "a" login_calls l).2 + (last_clock 0 login_calls - 0) / second.
Proof.
  eexists. split_and!; [reflexivity | vm_compute; reflexivity |].
  apply (admitted_bound login_policy); [reflexivity |]. simpl. unfold second. lia.
Defined.

Lemma refused_then_admitted_witness :
  exists l l1 l2 d2, Allow "a" 5 l = Some (l1, mkDecision false (second - 5))
  /\ Allow "a" second l1 = Some (l2, d2) /\ Allowed d2 = true.
Proof.
  destruct (New (K := string) login_policy) as [l0 |] eqn:E0; [| done].
  destruct (calls (take 3 login_calls) l0) as [[l ds] |] eqn:E1; [| by vm_compute in E0; injection E0 as <-; vm_compute in E1].
  destruct (Allow "a" 5 l) as [[l1 d] |] eqn:E2;
    [| by vm_compute in E0; injection E0 as <-; vm_compute in E1; injection E1 as <- <-; vm_compute in E2].
  assert (d = mkDecision false (second - 5)) as ->.
  { clear -E0 E1 E2. vm_compute in E0. injection E0 as <-. vm_compute in E1. injection E1 as <- <-.
    vm_compute in E2. by injection E2 as _ <-. }
  destruct (refused_then_admitted login_policy l0 (take 3 login_calls) l ds "a" 5 second l1 (mkDecision false (second - 5)) E0 E1) as (l2 & d2 & H1 & H2).
  - clear -E0 E1. vm_compute in E0. injection E0 as <-. vm_compute in E1. injection E1 as <- <-.
    intros b Hb. vm_compute in Hb. injection Hb as <-. simpl. lia.
  - by vm_compute.
  - exact E2.
  - reflexivity.
  - exists l, l1, l2, d2. split_and!; [exact E2 | exact H1 | exact H2].
Defined.
