(* ===== verification/Tenant.v ===== *)
(** * Tenant authorization in the control plane

    [cloud/internal/tenant]: identifiers ([identity.go]), memberships and their
    validation ([entities.go]), role sets, the grants table and [Authorize]
    ([authorization.go]).  The membership source is a parameter: what a lookup
    returns, or no membership when it fails. *)

From S2P Require Import Prelude GoStd Text.
#[local] Open Scope Z_scope.

(** ** Identifiers *)

Definition alnum (c : ascii) : bool :=
  let b := byte_of c in
  (48 <=? b) && (b <=? 57) || (65 <=? b) && (b <=? 90) || (97 <=? b) && (b <=? 122).

Definition id_char (c : ascii) : bool := alnum c || existsb (Ascii.eqb c) (T "._:-").

(** [idPattern]. *)
Definition idPattern (s : text) : bool :=
  match s with c :: s => alnum c && forallb id_char s && (List.length s <=? 127)%nat | [] => false end.

Definition validID (s : text) : bool := (List.length s <=? 128)%nat && idPattern s.

(** ** Role sets: bits of a [uint16] *)

Definition RoleUnknown : Z := 0.
Definition RoleOwner : Z := 1.
Definition RoleAdministrator : Z := 2.
Definition RoleManager : Z := 3.
Definition RoleDeveloper : Z := 4.
Definition RoleReviewer : Z := 5.
Definition RoleBilling : Z := 6.
Definition RoleAuditor : Z := 7.

Definition allRoles : list Z :=
  [RoleOwner; RoleAdministrator; RoleManager; RoleDeveloper; RoleReviewer; RoleBilling; RoleAuditor].

Definition known_role (r : Z) : bool := (RoleOwner <=? r) && (r <=? RoleAuditor).

Fixpoint roles_go (values : list Z) (set : Z) : option Z :=
  match values with
  | [] => Some set
  | r :: values => if known_role r then roles_go values (Z.lor set (Z.shiftl 1 r)) else None
  end.
Definition Roles (values : list Z) : option Z := roles_go values 0.

Definition Has (s role : Z) : bool := known_role role && negb (Z.land s (Z.shiftl 1 role) =? 0).
Definition Empty (s : Z) : bool := s =? 0.
(** [s &^ mask] on sixteen bits. *)
Definition ValidSet (s : Z) : bool := Z.ldiff s (Z.shiftl 1 (RoleAuditor + 1) - 2) =? 0.
Definition RolesOf (s : Z) : list Z := List.filter (Has s) allRoles.

(** ** Permissions and grants *)

Definition PermissionUnknown : Z := 0.
Definition PermissionOrganizationRead : Z := 1.
Definition PermissionOrganizationManage : Z := 2.
Definition PermissionTeamManage : Z := 3.
Definition PermissionMembershipManage : Z := 4.
Definition PermissionDeviceUse : Z := 5.
Definition PermissionDeviceManage : Z := 6.
Definition PermissionProjectRead : Z := 7.
Definition PermissionProjectWrite : Z := 8.
Definition PermissionProjectManage : Z := 9.
Definition PermissionEnvironmentManage : Z := 10.
Definition PermissionAuditRead : Z := 11.
Definition PermissionBillingManage : Z := 12.

Definition allPermissions : list Z :=
  [PermissionOrganizationRead; PermissionOrganizationManage; PermissionTeamManage;
   PermissionMembershipManage; PermissionDeviceUse; PermissionDeviceManage;
   PermissionProjectRead; PermissionProjectWrite; PermissionProjectManage;
   PermissionEnvironmentManage; PermissionAuditRead; PermissionBillingManage].

Definition grants : list (Z * list Z) :=
  [(RoleOwner, allPermissions);
   (RoleAdministrator,
     [PermissionOrganizationRead; PermissionOrganizationManage; PermissionTeamManage;
      PermissionMembershipManage; PermissionDeviceUse; PermissionDeviceManage;
      PermissionProjectRead; PermissionProjectWrite; PermissionProjectManage;
      PermissionEnvironmentManage; PermissionAuditRead]);
   (RoleManager,
     [PermissionOrganizationRead; PermissionTeamManage; PermissionMembershipManage;
      PermissionDeviceUse; PermissionProjectRead; PermissionProjectWrite;
      PermissionProjectManage; PermissionEnvironmentManage]);
   (RoleDeveloper,
     [PermissionOrganizationRead; PermissionDeviceUse; PermissionProjectRead; PermissionProjectWrite]);
   (RoleReviewer, [PermissionOrganizationRead; PermissionDeviceUse; PermissionProjectRead]);
   (RoleBilling, [PermissionOrganizationRead; PermissionBillingManage]);
   (RoleAuditor, [PermissionOrganizationRead; PermissionProjectRead; PermissionAuditRead])].

(** A lookup in a Go map: the first pair of a list without duplicate keys. *)
Definition lookup {A} (m : list (Z * A)) (k : Z) : option A := snd <$> List.find (fun x => x.1 =? k) m.

Definition Allows (role permission : Z) : bool :=
  match lookup grants role with Some ps => existsb (Z.eqb permission) ps | None => false end.

Definition roleNames : list (Z * text) :=
  [(RoleOwner, T "owner"); (RoleAdministrator, T "administrator"); (RoleManager, T "manager");
   (RoleDeveloper, T "developer"); (RoleReviewer, T "reviewer"); (RoleBilling, T "billing");
   (RoleAuditor, T "auditor")].

Definition permissionNames : list (Z * text) :=
  [(PermissionOrganizationRead, T "organization.read"); (PermissionOrganizationManage, T "organization.manage");
   (PermissionTeamManage, T "team.manage"); (PermissionMembershipManage, T "membership.manage");
   (PermissionDeviceUse, T "device.use"); (PermissionDeviceManage, T "device.manage");
   (PermissionProjectRead, T "project.read"); (PermissionProjectWrite, T "project.write");
   (PermissionProjectManage, T "project.manage"); (PermissionEnvironmentManage, T "environment.manage");
   (PermissionAuditRead, T "audit.read"); (PermissionBillingManage, T "billing.manage")].

(** A name of neither map is the empty string. *)
Definition name_of (names : list (Z * text)) (v : Z) : text := default [] (lookup names v).
Definition role_String (r : Z) : text := name_of roleNames r.
Definition permission_String (p : Z) : text := name_of permissionNames p.

(** The values a scan of the map may return: its order is not fixed. *)
Definition parsed_as (names : list (Z * text)) (value : text) (v : Z) : Prop := (v, value) ∈ names.
Definition ParseRole : text -> Z -> Prop := parsed_as roleNames.
Definition ParsePermission : text -> Z -> Prop := parsed_as permissionNames.

(** ** Memberships *)

Definition LifecycleActive : Z := 1.
Definition LifecycleRevoked : Z := 4.

Record Membership := mkMembership {
  m_Tenant : text; m_Account : text; m_Team : text; m_Roles : Z; m_State : Z; m_Version : Z; m_ExpiresUnix : Z
}.

Definition validateTenant (scope tenant : text) : bool := validID scope && bool_decide (tenant = scope).

Definition validateStateVersion (state version : Z) : bool :=
  negb ((state <? LifecycleActive) || (LifecycleRevoked <? state)) && negb (version =? 0).

(** Whether [ValidateMembership] returns no error. *)
Definition ValidateMembership (scope : text) (m : Membership) : bool :=
  validateTenant scope (m_Tenant m) && validID (m_Account m)
  && (bool_decide (m_Team m = []) || validID (m_Team m))
  && (ValidSet (m_Roles m) && negb (Empty (m_Roles m))) && negb (m_ExpiresUnix m <? 0)
  && validateStateVersion (m_State m) (m_Version m).

(** ** Authorization *)

Record Authorization := mkAuthorization {
  a_Scope : text; a_Account : text; a_Permission : Z; a_ExpectedMembershipVersion : Z
}.

(** [source] is [CurrentMembership], [None] its error; [now] is in seconds.
    [None] is [ErrDenied]. *)
Definition Authorize (source : text -> text -> option Membership) (now : Z) (r : Authorization) : option Membership :=
  if negb (validID (a_Scope r)) || negb (validID (a_Account r))
     || (a_Permission r <? PermissionOrganizationRead) || (PermissionBillingManage <? a_Permission r) then None else
  m ← source (a_Scope r) (a_Account r);
  if negb (ValidateMembership (a_Scope r) m) || negb (bool_decide (m_Account m = a_Account r))
     || negb (m_State m =? LifecycleActive) then None else
  if (a_ExpectedMembershipVersion r =? 0) || negb (m_Version m =? a_ExpectedMembershipVersion r) then None else
  if negb (m_ExpiresUnix m =? 0) && (m_ExpiresUnix m <=? now) then None else
  if existsb (fun role => Allows role (a_Permission r)) (RolesOf (m_Roles m)) then Some m else None.

(** ** Role sets are sets *)

Lemma known_role_spec r : known_role r = true <-> r ∈ allRoles.
Proof.
  unfold known_role, allRoles, RoleOwner, RoleAdministrator, RoleManager, RoleDeveloper, RoleReviewer, RoleBilling,
    RoleAuditor. rewrite andb_true_iff, !Z.leb_le, !elem_of_cons, elem_of_nil. lia.
Qed.

Lemma Has_testbit s r : Has s r = known_role r && Z.testbit s r.
Proof.
  unfold Has. destruct (known_role r) eqn:E; [| done]. simpl.
  assert (0 <= r) by (unfold known_role, RoleOwner in E; lia).
  rewrite Z.shiftl_1_l. destruct (Z.testbit s r) eqn:Et.
  - apply negb_true_iff, Z.eqb_neq. intros H0. assert (Z.testbit (Z.land s (2 ^ r)) r = false) as Hb by by rewrite H0, Z.bits_0.
    by rewrite Z.land_spec, Et, Z.pow2_bits_true in Hb by done.
  - apply negb_false_iff, Z.eqb_eq, Z.bits_inj'. intros i Hi. rewrite Z.land_spec, Z.bits_0, Z.pow2_bits_eqb by done.
    destruct (Z.eqb_spec r i) as [<- |]; [by rewrite Et | by rewrite andb_false_r].
Qed.

Lemma roles_go_spec values set :
  match roles_go values set with
  | Some s => forallb known_role values = true
      /\ forall i, 0 <= i -> Z.testbit s i = Z.testbit set i || existsb (Z.eqb i) values
  | None => forallb known_role values = false
  end.
Proof.
  revert set. induction values as [| r values IH]; intros set; cbn [roles_go forallb existsb].
  - split; [done |]. intros i _. by rewrite orb_false_r.
  - destruct (known_role r) eqn:E; [| done]. specialize (IH (Z.lor set (Z.shiftl 1 r))).
    destruct (roles_go values _) as [s |]; [| done]. destruct IH as [-> IH]. split; [done |]. intros i Hi.
    assert (0 <= r) by (unfold known_role, RoleOwner in E; lia).
    rewrite IH, Z.lor_spec, Z.shiftl_1_l, Z.pow2_bits_eqb, (Z.eqb_sym i r) by done. by rewrite orb_assoc.
Qed.

Lemma ValidSet_spec s : 0 <= s -> ValidSet s = true <-> forall i, 0 <= i -> Z.testbit s i = true -> known_role i = true.
Proof.
  intros Hs. unfold ValidSet. rewrite Z.eqb_eq. change (Z.shiftl 1 (RoleAuditor + 1) - 2) with (Z.shiftl (Z.ones 7) 1).
  assert (forall i, 0 <= i -> Z.testbit (Z.shiftl (Z.ones 7) 1) i = known_role i) as Hm.
  { intros i Hi. rewrite Z.shiftl_spec by done. unfold known_role, RoleOwner, RoleAuditor.
    destruct (Z_lt_le_dec i 1) as [Hl | Hl].
    - rewrite Z.testbit_neg_r by lia. lia.
    - destruct (Z_lt_le_dec (i - 1) 7); [rewrite Z.ones_spec_low by lia | rewrite Z.ones_spec_high by lia]; lia. }
  split.
  - intros H i Hi Hb. rewrite <- Hm by done. destruct (Z.testbit (Z.shiftl _ _) i) eqn:E; [done |].
    assert (Z.testbit (Z.ldiff s (Z.shiftl (Z.ones 7) 1)) i = false) as H0 by by rewrite H, Z.bits_0.
    by rewrite Z.ldiff_spec, Hb, E in H0.
  - intros H. apply Z.bits_inj'. intros i Hi. rewrite Z.ldiff_spec, Z.bits_0, Hm by done.
    destruct (Z.testbit s i) eqn:E; [| done]. by rewrite (H i).
Qed.

Lemma find_key_elem {A} (m : list (Z * A)) k v : lookup m k = Some v -> (k, v) ∈ m.
Proof.
  unfold lookup. rewrite fmap_Some. intros ([k' v'] & [Hin E]%List.find_some & ->). simpl in E.
  apply Z.eqb_eq in E. subst. by apply list_elem_of_In.
Qed.

Lemma forallb_false {A} (f : A -> bool) l : forallb f l = false <-> exists x, x ∈ l /\ f x = false.
Proof.
  induction l as [| y l IH]; simpl; [split; [done | by intros (x & ?%elem_of_nil & _)] |].
  rewrite andb_false_iff, IH. setoid_rewrite elem_of_cons. naive_solver.
Qed.

Lemma NoDup_map_inj {A B} (f : A -> B) l x y : NoDup (f <$> l) -> x ∈ l -> y ∈ l -> f x = f y -> x = y.
Proof.
  induction l as [| z l IH]; cbn [fmap list_fmap]; [by intros _ ?%elem_of_nil |].
  rewrite list.NoDup_cons, list_elem_of_fmap. intros [Hn Hd] [-> | Hx]%elem_of_cons [-> | Hy]%elem_of_cons E;
    [done | | | by apply IH]; destruct Hn; eauto.
Qed.

(** ** Properties *)

(** A role set is the set of roles it was built from: [Roles] refuses exactly
    the lists with an unknown role, membership and emptiness of the set are those
    of the list, the set is valid, and listing it gives each of its roles once,
    in the order of the constants. *)
Theorem Roles_spec values :
  (Roles values = None <-> exists r, r ∈ values /\ ~ r ∈ allRoles)
  /\ forall s, Roles values = Some s ->
     ValidSet s = true /\ Empty s = bool_decide (values = [])
     /\ (forall r, Has s r = true <-> r ∈ values)
     /\ (forall r, r ∈ RolesOf s <-> r ∈ values) /\ NoDup (RolesOf s) /\ Sorted Z.lt (RolesOf s).
Proof.
  unfold Roles. pose proof (roles_go_spec values 0) as H. split.
  - destruct (roles_go values 0) as [s |].
    + destruct H as [H _]. split; [done |]. intros (r & Hr & Hn). destruct Hn. apply known_role_spec.
      by rewrite forallb_elem in H; apply H.
    + split; [| done]. intros _. apply forallb_false in H as (r & Hr & Hk). exists r. split; [done |].
      by rewrite <- known_role_spec, Hk.
  - intros s Es. rewrite Es in H. destruct H as [Hk Hb]. rewrite forallb_elem in Hk.
    assert (forall i, 0 <= i -> Z.testbit s i = true <-> i ∈ values) as Hbit.
    { intros i Hi. rewrite Hb, Z.bits_0 by done. simpl. rewrite existsb_elem. split.
      - by intros (x & Hx & ->%Z.eqb_eq).
      - intros Hx. exists i. by rewrite Z.eqb_refl. }
    assert (forall r, r ∈ values -> 0 <= r) as Hpos.
    { intros r Hr. apply Hk in Hr. unfold known_role, RoleOwner in Hr. lia. }
    assert (forall r, Has s r = true <-> r ∈ values) as Hhas.
    { intros r. rewrite Has_testbit, andb_true_iff. split.
      - intros [Hkr Ht]. apply Hbit; [| done]. unfold known_role, RoleOwner in Hkr. lia.
      - intros Hr. split; [auto | by apply Hbit; auto]. }
    assert (0 <= s) as Hs.
    { clear -Es Hk. revert Es. assert (0 <= 0) as H0 by lia. revert H0. generalize 0 at 2 3 as set.
      induction values as [| r values IH]; intros set H0; simpl; [by intros [= <-] |].
      destruct (known_role r) eqn:E; [| done]. apply IH; [intros x Hx; apply Hk; by right |].
      apply Z.lor_nonneg. split; [done |]. apply Z.shiftl_nonneg. lia. }
    split_and!.
    + apply ValidSet_spec; [done |]. intros i Hi Ht. apply Hk. by apply Hbit.
    + unfold Empty. case_bool_decide as E.
      * subst. apply Z.eqb_eq, Z.bits_inj'. intros i Hi. rewrite Hb, !Z.bits_0 by done. done.
      * apply Z.eqb_neq. intros ->. destruct values as [| r values]; [done |].
        assert (Z.testbit 0 r = true) as H0 by (apply Hbit; [by apply Hpos; left | by left]).
        by rewrite Z.bits_0 in H0.
    + done.
    + intros r. unfold RolesOf. rewrite list_elem_of_In, filter_In, <- list_elem_of_In, <- known_role_spec, Hhas.
      split; [by intros [_ ?] | auto].
    + unfold RolesOf. apply NoDup_ListNoDup, List.NoDup_filter, NoDup_ListNoDup. by apply (bool_decide_unpack _).
    + unfold RolesOf. assert (StronglySorted Z.lt allRoles) as Ha.
      { repeat constructor. }
      apply StronglySorted_Sorted. clear -Ha. induction Ha as [| r l _ IH Hl]; simpl; [constructor |].
      destruct (Has s r); [| done]. constructor; [done |]. rewrite Forall_forall in *.
      intros x Hx. apply Hl. apply list_elem_of_In, filter_In in Hx || apply filter_In in Hx. tauto.
Qed.

(** Authorization is exactly the conjunction of its conditions: a valid
    request, and the membership the source holds for that account in that very
    tenant, well formed, active, at the version the caller saw, not expired, with
    a role that grants the permission.  The answer is that membership; every
    failure is the same denial. *)
Theorem Authorize_spec source now r m :
  Authorize source now r = Some m <->
  validID (a_Scope r) = true /\ validID (a_Account r) = true /\ a_Permission r ∈ allPermissions
  /\ source (a_Scope r) (a_Account r) = Some m
  /\ ValidateMembership (a_Scope r) m = true /\ m_Tenant m = a_Scope r /\ m_Account m = a_Account r
  /\ m_State m = LifecycleActive
  /\ m_Version m = a_ExpectedMembershipVersion r /\ a_ExpectedMembershipVersion r <> 0
  /\ (m_ExpiresUnix m = 0 \/ now < m_ExpiresUnix m)
  /\ exists role, Has (m_Roles m) role = true /\ Allows role (a_Permission r) = true.
Proof.
  assert (a_Permission r ∈ allPermissions <->
    (a_Permission r <? PermissionOrganizationRead) || (PermissionBillingManage <? a_Permission r) = false) as ->.
  { unfold allPermissions, PermissionOrganizationRead, PermissionOrganizationManage, PermissionTeamManage,
      PermissionMembershipManage, PermissionDeviceUse, PermissionDeviceManage, PermissionProjectRead,
      PermissionProjectWrite, PermissionProjectManage, PermissionEnvironmentManage, PermissionAuditRead,
      PermissionBillingManage. rewrite orb_false_iff, !Z.ltb_ge, !elem_of_cons, elem_of_nil. lia. }
  unfold Authorize. rewrite <- !orb_assoc.
  destruct (validID (a_Scope r)); simpl; [| naive_solver].
  destruct (validID (a_Account r)); simpl; [| naive_solver].
  destruct (_ || _) eqn:Ep; [naive_solver |].
  destruct (source (a_Scope r) (a_Account r)) as [m' |]; simpl; [| naive_solver].
  assert (forall role, role ∈ RolesOf (m_Roles m') <-> Has (m_Roles m') role = true) as Hr.
  { intros role. unfold RolesOf. rewrite list_elem_of_In, filter_In, <- list_elem_of_In, <- known_role_spec.
    split; [by intros [_ ?] |]. intros Hh. split; [| done]. rewrite Has_testbit, andb_true_iff in Hh. tauto. }
  split.
  - intros H. destruct (ValidateMembership (a_Scope r) m') eqn:Ev; simpl in H; [| done].
    case_bool_decide; simpl in H; [| done]. destruct (Z.eqb_spec (m_State m') LifecycleActive); simpl in H; [| done].
    destruct (Z.eqb_spec (a_ExpectedMembershipVersion r) 0); simpl in H; [done |].
    destruct (Z.eqb_spec (m_Version m') (a_ExpectedMembershipVersion r)); simpl in H; [| done].
    destruct (negb (m_ExpiresUnix m' =? 0) && _) eqn:Ee; [done |].
    destruct (existsb _ _) eqn:Ex; [| done]. injection H as <-.
    apply existsb_elem in Ex as (role & Hin & Ha). apply andb_false_iff in Ee.
    rewrite negb_false_iff, Z.eqb_eq, Z.leb_gt in Ee. split_and!; try done.
    + unfold ValidateMembership, validateTenant in Ev. rewrite !andb_true_iff in Ev.
      rewrite bool_decide_eq_true in Ev. tauto.
    + exists role. split; [by apply Hr | done].
  - intros (_ & _ & _ & [= ->] & -> & _ & Ha & Hs & Hv & Hv0 & He & role & Hh & Hg). simpl.
    rewrite bool_decide_eq_true_2 by done. rewrite (proj2 (Z.eqb_eq _ _) Hs). simpl.
    rewrite (proj2 (Z.eqb_neq _ _) Hv0), (proj2 (Z.eqb_eq _ _) Hv). simpl.
    assert (negb (m_ExpiresUnix m =? 0) && (m_ExpiresUnix m <=? now) = false) as ->.
    { apply andb_false_iff. rewrite negb_false_iff, Z.eqb_eq, Z.leb_gt. lia. }
    assert (existsb (fun role => Allows role (a_Permission r)) (RolesOf (m_Roles m)) = true) as ->; [| done].
    apply existsb_elem. exists role. split; [by apply Hr | done].
Qed.

(** Names and values of roles and permissions correspond one to one: parsing a
    known value's name gives that value and no other, and no other name gives it. *)
Theorem names_roundtrip :
  (forall r v, r ∈ allRoles -> ParseRole v r <-> v = role_String r)
  /\ (forall r r', r ∈ allRoles -> ParseRole (role_String r) r' <-> r' = r)
  /\ (forall p v, p ∈ allPermissions -> ParsePermission v p <-> v = permission_String p)
  /\ (forall p p', p ∈ allPermissions -> ParsePermission (permission_String p) p' <-> p' = p).
Proof.
  assert (forall (names : list (Z * text)) all, names.*1 = all -> NoDup all -> NoDup names.*2 ->
    (forall r v, r ∈ all -> parsed_as names v r <-> v = name_of names r)
    /\ (forall r r', r ∈ all -> parsed_as names (name_of names r) r' <-> r' = r)) as H.
  { intros names all <- N1 N2.
    assert (forall r, r ∈ names.*1 -> (r, name_of names r) ∈ names) as Hin.
    { intros r ([r' v] & -> & Hv)%list_elem_of_fmap. simpl. unfold name_of.
      destruct (lookup names r') as [w |] eqn:E; [by apply find_key_elem |]. unfold lookup in E.
      apply fmap_None in E. apply list_elem_of_In, (List.find_none _ _ E) in Hv. by rewrite Z.eqb_refl in Hv. }
    assert (forall r v w, (r, v) ∈ names -> (r, w) ∈ names -> v = w) as U1.
    { intros r v w H1 H2. by injection (NoDup_map_inj fst names (r, v) (r, w) N1 H1 H2 eq_refl). }
    assert (forall r q v, (r, v) ∈ names -> (q, v) ∈ names -> r = q) as U2.
    { intros r q v H1 H2. by injection (NoDup_map_inj snd names (r, v) (q, v) N2 H1 H2 eq_refl). }
    unfold parsed_as. split; intros r v Hr; split.
    - intros Hv. eapply U1; eauto.
    - intros ->. auto.
    - intros Hv. eapply U2; eauto.
    - intros ->. auto. }
  destruct (H roleNames allRoles) as [H1 H2]; [done | by apply (bool_decide_unpack _).. |].
  destruct (H permissionNames allPermissions) as [H3 H4]; [done | by apply (bool_decide_unpack _).. |].
  by split_and!.
Qed.

Definition acme_member : Membership := mkMembership (T "acme") (T "ada") [] 48 LifecycleActive 7 2000000000.

Lemma Authorize_spec_witness :
  Roles [RoleDeveloper; RoleReviewer] = Some (m_Roles acme_member)
  /\ Authorize (fun _ _ => Some acme_member) 1700000000 (mkAuthorization (T "acme") (T "ada") PermissionProjectWrite 7)
     = Some acme_member
  /\ Authorize (fun _ _ => Some acme_member) 1700000000 (mkAuthorization (T "acme") (T "ada") PermissionAuditRead 7) = None
  /\ Authorize (fun _ _ => Some acme_member) 2000000000 (mkAuthorization (T "acme") (T "ada") PermissionProjectWrite 7) = None
  /\ Authorize (fun _ _ => Some acme_member) 1700000000 (mkAuthorization (T "globex") (T "ada") PermissionProjectRead 7) = None.
Proof.
  split_and!; [by vm_compute | | by vm_compute..].
  apply Authorize_spec. split_and!; try by vm_compute.
  - by apply (bool_decide_unpack _).
  - by right.
  - by exists RoleDeveloper.
Defined.
