(* ===== verification/Topo.v ===== *)
(** * Ordering a dependency graph

    [kahn] of [internal/spm/criticalpath.go]: the order of the tasks in which
    every task comes after what it depends on, or the report of a cycle.  The
    frontier of the code is a binary heap over positions; here it is a list of
    which the element of the least position is taken, as [container/heap]
    promises. *)

From S2P Require Import Prelude.
#[local] Open Scope Z_scope.

(** [DepType], [Edge]. *)
Record Edge := mkEdge { From : string; To : string; Type_ : string }.
#[export] Instance Edge_eq_dec : EqDecision Edge.
Proof. solve_decision. Defined.

Abbreviation adjacency := (gmap string (list Edge)).
Definition edges_at (m : adjacency) (k : string) : list Edge := default [] (m !! k).
Definition count_at (m : gmap string Z) (k : string) : Z := default 0 (m !! k).

(** ** [kahn] *)

(** [pos[id]]. *)
Fixpoint position (order : list string) (id : string) : nat :=
  match order with
  | [] => O
  | x :: order => if decide (x = id) then O else S (position order id)
  end.

(** The ready task of the least position, and the others. *)
Fixpoint pop (order : list string) (ready : list string) : option (string * list string) :=
  match ready with
  | [] => None
  | x :: ready =>
    match pop order ready with
    | None => Some (x, [])
    | Some (y, rest) =>
      if (position order y <? position order x)%nat then Some (y, x :: rest) else Some (x, ready)
    end
  end.

(** The loop over [out[id]]. *)
Fixpoint relax (es : list Edge) (indeg : gmap string Z) (ready : list string) : gmap string Z * list string :=
  match es with
  | [] => (indeg, ready)
  | e :: es =>
    let d := count_at indeg (To e) - 1 in
    relax es (<[To e := d]> indeg) (if d =? 0 then To e :: ready else ready)
  end.

(** The main loop; [fuel] bounds the tasks taken, the frontier left is returned
    with the order. *)
Fixpoint kahn_go (fuel : nat) (order : list string) (out : adjacency) (indeg : gmap string Z)
    (ready topo : list string) : list string * list string :=
  match fuel, pop order ready with
  | S fuel, Some (id, ready) =>
    let (indeg, ready) := relax (edges_at out id) indeg ready in
    kahn_go fuel order out indeg ready (topo ++ [id])
  | _, _ => (topo, ready)
  end.

Definition kahn (order : list string) (out : adjacency) (indeg : gmap string Z) : option (list string) :=
  let ready := List.filter (fun id => count_at indeg id =? 0) order in
  let (topo, _) := kahn_go (List.length order) order out indeg ready [] in
  if (List.length topo =? List.length order)%nat then Some topo else None.

(** ** The maps [ComputeCPM] builds for it *)

Definition append_edge (m : adjacency) (k : string) (e : Edge) : adjacency := <[k := edges_at m k ++ [e]]> m.

Fixpoint adjacent (key : Edge -> string) (es : list Edge) (m : adjacency) : adjacency :=
  match es with [] => m | e :: es => adjacent key es (append_edge m (key e) e) end.

Fixpoint indegrees (es : list Edge) (m : gmap string Z) : gmap string Z :=
  match es with [] => m | e :: es => indegrees es (<[To e := count_at m (To e) + 1]> m) end.

Definition zeros (order : list string) : gmap string Z := foldr (fun id m => <[id := 0]> m) ∅ order.

(** ** Lemmas *)

Lemma edges_at_adjacent key es m k :
  edges_at (adjacent key es m) k = edges_at m k ++ List.filter (fun e => bool_decide (key e = k)) es.
Proof.
  revert m. induction es as [| e es IH]; intros m; simpl; [by rewrite app_nil_r |]. rewrite IH.
  unfold append_edge, edges_at at 1. case_bool_decide as E.
  - rewrite E, lookup_insert_eq. cbn [from_option id]. by rewrite <- app_assoc.
  - by rewrite lookup_insert_ne.
Qed.

Lemma count_at_zeros order k : count_at (zeros order) k = 0.
Proof.
  unfold count_at. induction order as [| x order IH]; simpl; [by rewrite lookup_empty |].
  destruct (decide (x = k)) as [-> |]; [by rewrite lookup_insert_eq | by rewrite lookup_insert_ne].
Qed.

(** The edges of a list into a task. *)
Definition into (es : list Edge) (k : string) : list Edge := List.filter (fun e => bool_decide (To e = k)) es.

Lemma into_cons e es k : List.length (into (e :: es) k) = ((if decide (To e = k) then 1 else 0) + List.length (into es k))%nat.
Proof. unfold into. simpl. case_bool_decide; case_decide; try done. Qed.

Lemma count_at_indegrees es m k :
  count_at (indegrees es m) k = count_at m k + Z.of_nat (List.length (into es k)).
Proof.
  revert m. induction es as [| e es IH]; intros m; [simpl; lia |]. cbn [indegrees]. rewrite IH, into_cons.
  unfold count_at at 1. case_decide as E.
  - rewrite E, lookup_insert_eq. simpl. lia.
  - rewrite lookup_insert_ne by done. fold (count_at m k). lia.
Qed.

Lemma position_inj order x y : x ∈ order -> position order x = position order y -> x = y.
Proof.
  induction order as [| z order IH]; [by intros ?%elem_of_nil |]. simpl.
  intros [-> | Hx]%elem_of_cons; repeat case_decide; try done; [congruence |]. intros [=]. auto.
Qed.

Lemma pop_None order ready : pop order ready = None <-> ready = [].
Proof.
  destruct ready as [| x ready]; simpl; [done |]. destruct (pop order ready) as [[y rest] |]; [| done].
  by destruct (_ <? _)%nat.
Qed.

Lemma pop_Some order ready x rest : pop order ready = Some (x, rest) ->
  ready ≡ₚ x :: rest /\ forall y, y ∈ ready -> (position order x <= position order y)%nat.
Proof.
  revert x rest. induction ready as [| z ready IH]; intros x rest; simpl; [done |].
  destruct (pop order ready) as [[y rest'] |] eqn:E.
  - destruct (IH y rest' eq_refl) as [Hp Hmin]. destruct (Nat.ltb_spec (position order y) (position order z)).
    + intros [= <- <-]. split; [rewrite Hp; apply Permutation_swap |].
      intros w [-> | Hw]%elem_of_cons; [lia | auto].
    + intros [= <- <-]. split; [done |]. intros w [-> | Hw]%elem_of_cons; [lia |]. apply Hmin in Hw. lia.
  - apply pop_None in E as ->. intros [= <- <-]. split; [done |].
    by intros w ->%list_elem_of_singleton.
Qed.

(** ** The loop *)

Section run.
Context (order : list string) (es : list Edge).
Hypothesis Hedges : forall e, e ∈ es -> From e ∈ order /\ To e ∈ order.

(** The edges into a task from tasks not taken yet. *)
Definition pend (topo : list string) (k : string) : list Edge :=
  List.filter (fun e => bool_decide (To e = k) && negb (bool_decide (From e ∈ topo))) es.

(** All that a task depends on has been taken. *)
Definition free (topo : list string) (k : string) : Prop := forall e, e ∈ es -> To e = k -> From e ∈ topo.

(** Every task comes after what it depends on, and before every other free one
    of a later position. *)
Definition well_ordered (topo : list string) : Prop :=
  forall l1 x l2, topo = l1 ++ x :: l2 ->
    free l1 x /\ forall y, y ∈ order -> y ∉ l1 -> free l1 y -> (position order x <= position order y)%nat.

Record frontier (topo ready : list string) (indeg : gmap string Z) : Prop := {
  fr_nodup : NoDup (topo ++ ready);
  fr_nodes x : x ∈ topo ++ ready -> x ∈ order;
  fr_taken x : x ∈ topo -> count_at indeg x = 0;
  fr_ready x : x ∈ order -> x ∉ topo -> x ∈ ready <-> count_at indeg x = 0
}.

Lemma relax_frontier topo l indeg ready (P : string -> nat) :
  frontier topo ready indeg ->
  (forall k, count_at indeg k = Z.of_nat (P k + List.length (into l k))) ->
  (forall e, e ∈ l -> To e ∈ order) ->
  let (indeg', ready') := relax l indeg ready in
  frontier topo ready' indeg' /\ forall k, count_at indeg' k = Z.of_nat (P k).
Proof.
  revert indeg ready. induction l as [| e l IH]; intros indeg ready Hf Hc Hl; simpl.
  - split; [done |]. intros k. rewrite Hc. simpl. lia.
  - assert (0 < count_at indeg (To e)) as Hpos by (rewrite Hc, into_cons, decide_True by done; lia).
    assert (To e ∉ topo) as Hnt by (intros ?%(fr_taken _ _ _ Hf); lia).
    assert (To e ∉ ready) as Hnr by (rewrite (fr_ready _ _ _ Hf); [lia | apply Hl; by left | done]).
    assert (forall k, k <> To e -> count_at (<[To e := count_at indeg (To e) - 1]> indeg) k = count_at indeg k) as Hne.
    { intros k Hk. unfold count_at at 1. by rewrite lookup_insert_ne. }
    assert (count_at (<[To e := count_at indeg (To e) - 1]> indeg) (To e) = count_at indeg (To e) - 1) as Heq.
    { unfold count_at at 1. by rewrite lookup_insert_eq. }
    apply IH.
    + destruct Hf as [F1 F2 F3 F4]. destruct (Z.eqb_spec (count_at indeg (To e) - 1) 0) as [E | E]; split.
      * rewrite <- Permutation_middle. apply list.NoDup_cons. split; [| done]. rewrite elem_of_app. tauto.
      * intros x. rewrite <- Permutation_middle, elem_of_cons. intros [-> | ?]; [apply Hl; by left | auto].
      * intros x Hx. rewrite Hne; [auto | by intros ->].
      * intros x Hx Hxt. rewrite elem_of_cons. destruct (decide (x = To e)) as [-> | Hk].
        -- rewrite Heq, E. split; [done | by left].
        -- rewrite Hne, <- F4 by done. tauto.
      * done.
      * done.
      * intros x Hx. rewrite Hne; [auto | by intros ->].
      * intros x Hx Hxt. destruct (decide (x = To e)) as [-> | Hk]; [by rewrite Heq |].
        rewrite Hne by done. auto.
    + intros k. specialize (Hc k). rewrite into_cons in Hc. destruct (decide (k = To e)) as [-> | Hk].
      * rewrite Heq, Hc, decide_True by done. lia.
      * rewrite Hne, Hc, decide_False by done. lia.
    + intros f Hf'. apply Hl. by right.
Qed.

Lemma pend_nil topo k : pend topo k = [] <-> free topo k.
Proof.
  unfold pend, free. rewrite <- length_zero_iff_nil. split.
  - intros H e He Hk. destruct (decide (From e ∈ topo)) as [| Hn]; [done |].
    assert (e ∈ List.filter (fun e => bool_decide (To e = k) && negb (bool_decide (From e ∈ topo))) es) as Hin.
    { rewrite list_elem_of_In, filter_In, <- list_elem_of_In. split; [done |].
      by rewrite bool_decide_eq_true_2, bool_decide_eq_false_2. }
    apply length_zero_iff_nil in H. rewrite H in Hin. by apply elem_of_nil in Hin.
  - intros H. apply length_zero_iff_nil. destruct (List.filter _ es) as [| e l] eqn:E; [done |].
    assert (e ∈ List.filter (fun e => bool_decide (To e = k) && negb (bool_decide (From e ∈ topo))) es) as Hin by (rewrite E; by left).
    rewrite list_elem_of_In, filter_In, <- list_elem_of_In, andb_true_iff, negb_true_iff in Hin.
    destruct Hin as (He & Hk & Hn). apply bool_decide_eq_true in Hk. apply bool_decide_eq_false in Hn. destruct Hn. auto.
Qed.

(** Taking a task leaves its own edges to account for. *)
Lemma pend_take topo id k :
  id ∉ topo ->
  List.length (pend topo k)
  = (List.length (pend (topo ++ [id]) k)
     + List.length (into (List.filter (fun e => bool_decide (From e = id)) es) k))%nat.
Proof.
  intros Hid. unfold pend, into. clear Hedges. induction es as [| e l IH]; [done |]. cbn [List.filter].
  assert (bool_decide (From e ∈ topo ++ [id]) = bool_decide (From e ∈ topo) || bool_decide (From e = id)) as ->.
  { apply eq_bool_prop_intro. rewrite orb_True, !bool_decide_spec, elem_of_app, list_elem_of_singleton. done. }
  destruct (bool_decide (From e = id)) eqn:E1; cbn [List.filter].
  - apply bool_decide_eq_true in E1. rewrite (bool_decide_eq_false_2 (From e ∈ topo)) by congruence.
    destruct (bool_decide (To e = k)); cbn [andb orb negb List.length]; lia.
  - destruct (bool_decide (To e = k)), (bool_decide (From e ∈ topo)); cbn [andb orb negb List.length]; lia.
Qed.

Record finished (topo : list string) : Prop := {
  fin_ordered : well_ordered topo;
  fin_nodup : NoDup topo;
  fin_nodes x : x ∈ topo -> x ∈ order;
  fin_all x : x ∈ order -> free topo x -> x ∈ topo
}.

Lemma frontier_finished topo indeg :
  frontier topo [] indeg -> well_ordered topo ->
  (forall k, count_at indeg k = Z.of_nat (List.length (pend topo k))) -> finished topo.
Proof.
  intros [F1 F2 F3 F4] Hw Hc. rewrite app_nil_r in *. split; [done | done | done |].
  intros x Hx Hfree. destruct (decide (x ∈ topo)) as [| Hn]; [done |].
  assert (x ∈ []) as []%elem_of_nil. apply F4; [done | done |]. rewrite Hc.
  apply pend_nil in Hfree. by rewrite Hfree.
Qed.

Lemma kahn_go_spec fuel out indeg ready topo :
  (forall k, edges_at out k = List.filter (fun e => bool_decide (From e = k)) es) ->
  frontier topo ready indeg -> well_ordered topo ->
  (forall k, count_at indeg k = Z.of_nat (List.length (pend topo k))) ->
  (List.length order <= fuel + List.length topo)%nat ->
  finished (kahn_go fuel order out indeg ready topo).1 /\ (kahn_go fuel order out indeg ready topo).2 = [].
Proof.
  intros Hout. revert indeg ready topo. induction fuel as [| fuel IH]; intros indeg ready topo Hf Hw Hc Hlen.
  - cbn [kahn_go fst snd].
    assert (ready = []) as ->; [| split; [by eapply frontier_finished | done]].
    destruct ready as [| x ready]; [done |]. pose proof (fr_nodup _ _ _ Hf) as Hd.
    apply NoDup_ListNoDup in Hd. pose proof (NoDup_incl_length Hd (l' := order)) as H.
    rewrite length_app in H. simpl in H. assert (incl (topo ++ x :: ready) order) as Hi; [| specialize (H Hi); lia].
    intros y Hy. apply list_elem_of_In. apply (fr_nodes _ _ _ Hf). by apply list_elem_of_In.
  - cbn [kahn_go]. destruct (pop order ready) as [[id rest] |] eqn:E.
    2: { apply pop_None in E as ->. split; [by eapply frontier_finished | done]. }
    apply pop_Some in E as [Hp Hmin]. pose proof Hf as [F1 F2 F3 F4].
    assert (id ∈ ready) as Hid by (rewrite Hp; by left).
    assert (id ∉ topo) as Hnt by (intros ?; apply list.NoDup_app in F1 as (_ & F1 & _); by apply (F1 id)).
    assert (id ∈ order) as Hord by (apply F2, elem_of_app; by right).
    assert (count_at indeg id = 0) as H0 by by apply F4.
    assert (free topo id) as Hfree.
    { apply pend_nil. rewrite Hc in H0. by apply length_zero_iff_nil, Nat2Z.inj. }
    pose proof (relax_frontier (topo ++ [id]) (edges_at out id) indeg rest
                  (fun k => List.length (pend (topo ++ [id]) k))) as Hr.
    destruct (relax (edges_at out id) indeg rest) as [indeg' ready'].
    destruct Hr as [Hf' Hc'].
    + rewrite Hp in F1. split.
      * by rewrite <- app_assoc.
      * intros x. rewrite <- app_assoc. intros Hx. apply F2. by rewrite Hp.
      * intros x [Hx | ->%list_elem_of_singleton]%elem_of_app; auto.
      * intros x Hx [Hxt Hne]%not_elem_of_app. rewrite <- (F4 x Hx Hxt), Hp, elem_of_cons.
        split; [by right |]. intros [-> |]; [| done]. destruct Hne. by left.
    + intros k. rewrite Hc, (pend_take topo id k Hnt), Hout. done.
    + intros e He. rewrite Hout, list_elem_of_In, filter_In, <- list_elem_of_In in He. destruct He. by apply Hedges.
    + apply IH; [done | | done | rewrite length_app; simpl; lia].
      intros l1 x l2 El. destruct l2 as [| y l2 _] using rev_ind.
      * apply app_inj_tail in El as [<- <-]. split; [done |]. intros y Hy Hn Hfy. apply Hmin. apply F4; [done | done |].
        rewrite Hc. apply pend_nil in Hfy. by rewrite Hfy.
      * assert (topo ++ [id] = (l1 ++ x :: l2) ++ [y]) as El' by by rewrite <- app_assoc.
        apply app_inj_tail in El' as [El' _]. by apply (Hw l1 x l2).
Qed.
End run.

(** ** Chains of dependencies *)

Definition depends (es : list Edge) (x y : string) : Prop := exists e, e ∈ es /\ From e = x /\ To e = y.

(** Each task of the list depends on the next. *)
Fixpoint chain (es : list Edge) (l : list string) : Prop :=
  match l with
  | x :: (y :: _) as l => depends es y x /\ chain es l
  | _ => True
  end.

Lemma chain_cons es x l : chain es (x :: l) -> chain es l.
Proof. destruct l; simpl; tauto. Qed.

Lemma chain_reaches es x l y : chain es (x :: l) -> y ∈ l -> tc (depends es) y x.
Proof.
  revert x. induction l as [| z l IH]; intros x Hc; [by intros ?%elem_of_nil |]. destruct Hc as [Hd Hc].
  intros [-> | Hy]%elem_of_cons; [by apply tc_once |]. eapply tc_r; [by apply IH | done].
Qed.

Lemma chain_cycle es l : chain es l -> ~ NoDup l -> exists x, tc (depends es) x x.
Proof.
  induction l as [| x l IH]; intros Hc Hn; [destruct Hn; constructor |].
  destruct (decide (x ∈ l)) as [Hx | Hx]; [exists x; by eapply chain_reaches |].
  apply IH; [by eapply chain_cons |]. intros Hd. apply Hn. by apply list.NoDup_cons.
Qed.

(** Where every task of a set depends on one of the set there is a cycle. *)
Lemma closed_cycle es (s : list string) x :
  x ∈ s -> (forall y, y ∈ s -> exists z, z ∈ s /\ depends es z y) -> exists x, tc (depends es) x x.
Proof.
  intros Hx Hs.
  assert (forall n, exists l, List.length l = S n /\ chain es l /\ forall y, y ∈ l -> y ∈ s) as Hl.
  { (* a chain grows at its last task, so it is built from the end *)
    assert (forall n y, y ∈ s -> exists l, List.length l = S n /\ chain es l /\ (forall z, z ∈ l -> z ∈ s) /\ head l = Some y) as H.
    { induction n as [| n IH]; intros y Hy.
      - exists [y]. split_and!; [done | done | by intros z ->%list_elem_of_singleton | done].
      - destruct (Hs y Hy) as (z & Hz & Hd). destruct (IH z Hz) as (l & Hlen & Hc & Hin & Hh).
        destruct l as [| w l]; [done |]. injection Hh as ->. exists (y :: z :: l).
        split_and!; [simpl in *; lia | done | | done]. by intros v [-> | Hv]%elem_of_cons; [| apply Hin]. }
    intros n. destruct (H n x Hx) as (l & ? & ? & ? & _). by exists l. }
  destruct (Hl (List.length s)) as (l & Hlen & Hc & Hin). apply (chain_cycle es l Hc). intros Hd.
  apply NoDup_ListNoDup in Hd. pose proof (NoDup_incl_length Hd (l' := s)) as H. rewrite Hlen in H.
  assert (incl l s) as Hi; [| specialize (H Hi); lia]. intros y Hy. apply list_elem_of_In, Hin. by apply list_elem_of_In.
Qed.

Lemma position_app l1 x l2 y :
  NoDup (l1 ++ x :: l2) -> y ∈ l1 -> (position (l1 ++ x :: l2) y < position (l1 ++ x :: l2) x)%nat.
Proof.
  induction l1 as [| z l1 IH]; [by intros _ ?%elem_of_nil |]. cbn [app position]. rewrite list.NoDup_cons, elem_of_app, elem_of_cons.
  intros [Hn Hd] Hy. rewrite (decide_False (P := z = x)) by (intros ->; tauto). case_decide as E; [lia |].
  apply elem_of_cons in Hy as [-> | Hy]; [done |]. specialize (IH Hd Hy). lia.
Qed.

Lemma tc_position es (f : string -> nat) x y :
  (forall e, e ∈ es -> (f (From e) < f (To e))%nat) -> tc (depends es) x y -> (f x < f y)%nat.
Proof.
  intros Hf. induction 1 as [x y (e & He & <- & <-) | x y z (e & He & <- & <-) _ IH]; [by apply Hf |].
  apply Hf in He. lia.
Qed.

(** ** Properties *)

(** The maps [ComputeCPM] hands to [kahn]. *)
Definition ordering (order : list string) (es : list Edge) : option (list string) :=
  kahn order (adjacent From es ∅) (indegrees es (zeros order)).

(** Ordering the tasks succeeds exactly when no task depends on itself through
    any chain.  The result holds every task once, each after all it depends on,
    and among the tasks that could come next the first of the caller's order. *)
Theorem ordering_spec order es :
  NoDup order -> (forall e, e ∈ es -> From e ∈ order /\ To e ∈ order) ->
  match ordering order es with
  | Some topo =>
    topo ≡ₚ order
    /\ (forall e, e ∈ es -> (position topo (From e) < position topo (To e))%nat)
    /\ (forall x, ~ tc (depends es) x x)
    /\ forall l1 x l2 y, topo = l1 ++ x :: l2 -> y ∈ order -> y ∉ l1 -> free es l1 y ->
       (position order x <= position order y)%nat
  | None => exists x, tc (depends es) x x
  end.
Proof.
  intros Hn He. unfold ordering, kahn.
  set (ready := List.filter _ order).
  pose proof (kahn_go_spec order es He (List.length order) (adjacent From es ∅) (indegrees es (zeros order)) ready []) as H.
  destruct (kahn_go _ _ _ _ _ _) as [topo rest]. cbn [fst snd] in H. destruct H as [[H1 H2 H3 H4] _].
  - intros k. rewrite edges_at_adjacent. unfold edges_at. by rewrite lookup_empty.
  - assert (forall x, x ∈ ready <-> x ∈ order /\ count_at (indegrees es (zeros order)) x = 0) as Hr.
    { intros x. unfold ready. by rewrite list_elem_of_In, filter_In, <- list_elem_of_In, Z.eqb_eq. }
    split; cbn [app].
    + unfold ready. apply NoDup_ListNoDup, List.NoDup_filter. by apply NoDup_ListNoDup.
    + intros x Hx. by apply Hr in Hx as [? _].
    + by intros x ?%elem_of_nil.
    + intros x Hx _. rewrite Hr. tauto.
  - by intros [| ? ?] x l2.
  - intros k. rewrite count_at_indegrees, count_at_zeros, Z.add_0_l. do 2 f_equal. unfold into, pend.
    apply filter_ext. intros e. rewrite (bool_decide_eq_false_2 (From e ∈ [])) by apply not_elem_of_nil. by rewrite andb_true_r.
  - simpl. lia.
  - destruct (Nat.eqb_spec (List.length topo) (List.length order)) as [El | Hne].
    + assert (topo ≡ₚ order) as Hp.
      { apply NoDup_Permutation; [done | done |]. intros x. split; [apply H3 |]. intros Hx.
        apply list_elem_of_In. apply (NoDup_length_incl (l := topo) (l' := order)); [by apply NoDup_ListNoDup | lia | |].
        - intros y Hy. apply list_elem_of_In, H3. by apply list_elem_of_In.
        - by apply list_elem_of_In. }
      assert (forall e, e ∈ es -> (position topo (From e) < position topo (To e))%nat) as Hpos.
      { intros e Hin. assert (To e ∈ topo) as (l1 & l2 & E)%list_elem_of_split by (rewrite Hp; by apply He).
        destruct (H1 l1 (To e) l2 E) as [Hf _]. subst topo. apply position_app; [done |]. by apply Hf. }
      split_and!; [done | done | |].
      * intros x Hx. apply (tc_position es (position topo)) in Hx; [lia | done].
      * intros l1 x l2 y E Hy Hyn Hfy. destruct (H1 l1 x l2 E) as [_ Hmin]. auto.
    + assert (exists x, x ∈ order /\ x ∉ topo) as (x & Hx & Hnx).
      { destruct (decide (Forall (fun x => x ∈ topo) order)) as [Ha | Ha].
        - destruct Hne. apply Nat.le_antisymm; apply NoDup_incl_length; try by apply NoDup_ListNoDup.
          + intros y Hy. apply list_elem_of_In, H3. by apply list_elem_of_In.
          + intros y Hy. rewrite Forall_forall in Ha. apply list_elem_of_In. by apply Ha.
        - apply not_Forall_Exists in Ha; [| apply _]. apply Exists_exists in Ha as (x & ? & ?).
          exists x. split; [by apply list_elem_of_In | done]. }
      apply (closed_cycle es (List.filter (fun x => negb (bool_decide (x ∈ topo))) order) x).
      * rewrite list_elem_of_In, filter_In, <- list_elem_of_In. split; [done |]. by rewrite bool_decide_eq_false_2.
      * intros y Hy. rewrite list_elem_of_In, filter_In, <- list_elem_of_In, negb_true_iff, bool_decide_eq_false in Hy.
        destruct Hy as [Hy Hny].
        destruct (decide (Forall (fun e => To e = y -> From e ∈ topo) es)) as [Ha | Ha].
        { destruct Hny. apply H4; [done |]. intros e Hin. rewrite Forall_forall in Ha. apply Ha. by apply list_elem_of_In. }
        apply not_Forall_Exists in Ha; [| apply _]. apply Exists_exists in Ha as (e & Hin%list_elem_of_In & Hn').
        exists (From e). destruct (decide (To e = y)) as [<- |]; [| by destruct Hn'].
        split; [| by exists e]. rewrite list_elem_of_In, filter_In, <- list_elem_of_In. split; [by apply He |].
        rewrite bool_decide_eq_false_2; [done |]. intros ?. by apply Hn'.
Qed.
