(* ===== verification/CriticalPath.v ===== *)
(** * The critical path of a project

    [ComputeCPM] of [internal/spm/criticalpath.go] on top of Topo: the checks,
    the forward and backward passes over the four dependency types, slack and
    the critical tasks, in the rounded arithmetic of Floats; [es] and [ef], and [ls] and [lf], are written together and are one map of
    pairs each.  [Parallelizable] is not modelled. *)

From Stdlib Require Import SpecFloat.
From S2P Require Import Prelude Floats Topo.
#[local] Open Scope Z_scope.

(** [1e-9], rounded. *)
Definition eps : float := S754_finite false 4835703278458517 (-82).

(** ** Networks *)

Record Node := mkNode { ID : string; Duration : float }.

Record Schedule := mkSchedule {
  sc_ID : string; sc_Duration : float;
  EarlyStart : float; EarlyFinish : float; LateStart : float; LateFinish : float;
  Slack : float; Critical : bool
}.

Record Network := mkNetwork {
  net_Duration : float; Schedules : gmap string Schedule; CriticalPath : list string
}.

Inductive cpm_error :=
  | DuplicateTask (id : string)
  | NegativeDuration (id : string)
  | UnknownTask (id : string)
  | ErrCycle
  | UnknownType (t : string).

(** The first loop: [dur] and [order]. *)
Fixpoint check_nodes (nodes : list Node) (dur : gmap string float) (order : list string)
    : cpm_error + (gmap string float * list string) :=
  match nodes with
  | [] => inr (dur, order)
  | n :: nodes =>
    if decide (is_Some (dur !! ID n)) then inl (DuplicateTask (ID n))
    else if flt (Duration n) zero then inl (NegativeDuration (ID n))
    else check_nodes nodes (<[ID n := Duration n]> dur) (order ++ [ID n])
  end.

Definition with_type (e : Edge) : Edge := if decide (Type_ e = "") then mkEdge (From e) (To e) "FS" else e.

Fixpoint check_edges (edges : list Edge) (dur : gmap string float) : option cpm_error :=
  match edges with
  | [] => None
  | e :: edges =>
    if decide (dur !! From e = None) then Some (UnknownTask (From e))
    else if decide (dur !! To e = None) then Some (UnknownTask (To e))
    else check_edges edges dur
  end.

Definition known_type (t : string) : bool := bool_decide (t ∈ ["FS"; "SS"; "FF"; "SF"]).

Abbreviation times := (gmap string (float * float)).
Definition times_at (m : times) (id : string) : float * float := default (zero, zero) (m !! id).
Definition dur_at (dur : gmap string float) (id : string) : float := default zero (dur !! id).

(** The bound an edge puts on the start of a task of duration [d], from the start
    and finish of the task it comes from. *)
Definition start_bound (t : string) (from : float * float) (d : float) : float :=
  if (t =? "FS")%string then from.2 else if (t =? "SS")%string then from.1
  else if (t =? "FF")%string then fsub from.2 d else fsub from.1 d.

(** The bound on the finish, from the late start and finish of the task it goes
    to; an unknown type, which the forward pass refuses, bounds nothing here but
    the zero the variable starts with. *)
Definition finish_bound (t : string) (to : float * float) (d : float) : float :=
  if (t =? "FS")%string then to.1 else if (t =? "SS")%string then fadd to.1 d
  else if (t =? "FF")%string then to.2 else if (t =? "SF")%string then fadd to.2 d else zero.

Fixpoint earliest (es : list Edge) (m : times) (d start : float) : cpm_error + float :=
  match es with
  | [] => inr start
  | e :: es =>
    if known_type (Type_ e) then earliest es m d (fmax start (start_bound (Type_ e) (times_at m (From e)) d))
    else inl (UnknownType (Type_ e))
  end.

Fixpoint forward (topo : list string) (into_ : adjacency) (dur : gmap string float) (m : times)
    : cpm_error + times :=
  match topo with
  | [] => inr m
  | id :: topo =>
    let d := dur_at dur id in
    match earliest (edges_at into_ id) m d zero with
    | inl e => inl e
    | inr start => forward topo into_ dur (<[id := (start, fadd start d)]> m)
    end
  end.

Definition latest (es : list Edge) (m : times) (d finish : float) : float :=
  fold_left (fun f e => fmin f (finish_bound (Type_ e) (times_at m (To e)) d)) es finish.

(** [topo] comes reversed; the pairs are late start and late finish. *)
Fixpoint backward (topo : list string) (out : adjacency) (dur : gmap string float) (project : float) (m : times)
    : times :=
  match topo with
  | [] => m
  | id :: topo =>
    let d := dur_at dur id in
    let finish := latest (edges_at out id) m d project in
    backward topo out dur project (<[id := (fsub finish d, finish)]> m)
  end.

Definition project_end (topo : list string) (early : times) : float :=
  fold_left (fun p id => fmax p (times_at early id).2) topo zero.

Definition schedule_of (dur : gmap string float) (early late : times) (id : string) : Schedule :=
  let slack := fsub (times_at late id).1 (times_at early id).1 in
  let slack := if flt (SFabs slack) eps then zero else slack in
  mkSchedule id (dur_at dur id) (times_at early id).1 (times_at early id).2 (times_at late id).1 (times_at late id).2
    slack (SFeqb slack zero).

Definition ComputeCPM (nodes : list Node) (edges : list Edge) : cpm_error + Network :=
  match check_nodes nodes ∅ [] with
  | inl e => inl e
  | inr (dur, order) =>
    match check_edges edges dur with
    | Some e => inl e
    | None =>
      let edges := map with_type edges in
      let into_ := adjacent To edges ∅ in
      let out := adjacent From edges ∅ in
      match kahn order out (indegrees edges (zeros order)) with
      | None => inl ErrCycle
      | Some topo =>
        match forward topo into_ dur ∅ with
        | inl e => inl e
        | inr early =>
          let project := project_end topo early in
          let late := backward (rev topo) out dur project ∅ in
          let schedules := fold_left (fun m id => <[id := schedule_of dur early late id]> m) topo ∅ in
          inr (mkNetwork project schedules
                 (List.filter (fun id => match schedules !! id with Some s => Critical s | None => false end) topo))
        end
      end
    end
  end.

(** ** The checks *)

Definition durations (nodes : list Node) (dur : gmap string float) : gmap string float :=
  fold_left (fun m n => <[ID n := Duration n]> m) nodes dur.

Lemma check_nodes_spec nodes dur order :
  (forall id, is_Some (dur !! id) <-> id ∈ order) -> NoDup order ->
  match check_nodes nodes dur order with
  | inr (dur', order') =>
    dur' = durations nodes dur /\ order' = order ++ map ID nodes /\ NoDup order'
    /\ (forall id, is_Some (dur' !! id) <-> id ∈ order')
    /\ forall n, n ∈ nodes -> flt (Duration n) zero = false
  | inl e => e <> ErrCycle /\
    match e with
    | DuplicateTask id => id ∈ map ID nodes /\ ~ NoDup (order ++ map ID nodes)
    | NegativeDuration id => exists n, n ∈ nodes /\ ID n = id /\ flt (Duration n) zero = true
    | _ => False
    end
  end.
Proof.
  revert dur order. induction nodes as [| n nodes IH]; intros dur order Hd Hn; cbn [check_nodes map].
  - rewrite app_nil_r. split_and!; [done | done | done | done |]. by intros n ?%elem_of_nil.
  - case_decide as Hs.
    + split; [done |]. split; [by left |]. rewrite list.NoDup_app. intros (_ & H & _). apply Hd, H in Hs.
      by apply Hs, elem_of_cons; left.
    + destruct (flt (Duration n) zero) eqn:En; [split; [done |]; exists n; split; [by left | done] |].
      assert (ID n ∉ order) as Hno by by rewrite <- Hd.
      specialize (IH (<[ID n := Duration n]> dur) (order ++ [ID n])).
      rewrite <- app_assoc in IH. cbn [app] in IH.
      assert (forall id, is_Some (<[ID n := Duration n]> dur !! id) <-> id ∈ order ++ [ID n]) as H1.
      { intros id. rewrite lookup_insert_is_Some', elem_of_app, list_elem_of_singleton, Hd. split; intros [|]; auto. }
      assert (NoDup (order ++ [ID n])) as H2.
      { apply list.NoDup_app. split_and!; [done | by intros x Hx ->%list_elem_of_singleton | apply NoDup_singleton]. }
      specialize (IH H1 H2). destruct (check_nodes nodes _ _) as [e | [dur' order']].
      * destruct IH as [He IH]. split; [done |]. destruct e; try done.
        -- destruct IH. split; [by right | done].
        -- destruct IH as (m & ? & ?). exists m. split; [by right | done].
      * destruct IH as (-> & -> & ? & ? & Hneg). split_and!; try done.
        by intros m [-> | Hm]%elem_of_cons; [| apply Hneg].
Qed.

Lemma check_edges_spec edges dur :
  match check_edges edges dur with
  | None => forall e, e ∈ edges -> is_Some (dur !! From e) /\ is_Some (dur !! To e)
  | Some err => exists e id, e ∈ edges /\ err = UnknownTask id /\ (id = From e \/ id = To e) /\ dur !! id = None
  end.
Proof.
  induction edges as [| e edges IH]; cbn [check_edges]; [by intros e ?%elem_of_nil |].
  case_decide as H1; [exists e, (From e); split_and!; [by left | done | by left | done] |].
  case_decide as H2; [exists e, (To e); split_and!; [by left | done | by right | done] |].
  destruct (check_edges edges dur).
  - destruct IH as (e' & id & ? & ?). exists e', id. split; [by right | done].
  - intros e' [-> | He]%elem_of_cons; [| auto]. rewrite <- !not_eq_None_Some. done.
Qed.

Lemma with_type_From e : From (with_type e) = From e.
Proof. unfold with_type. by case_decide. Qed.
Lemma with_type_To e : To (with_type e) = To e.
Proof. unfold with_type. by case_decide. Qed.

Lemma depends_with_type edges x y : depends (map with_type edges) x y <-> depends edges x y.
Proof.
  unfold depends. split.
  - intros (e & (e' & -> & He)%list_elem_of_fmap & Hx & Hy).
    rewrite with_type_From in Hx. rewrite with_type_To in Hy. by exists e'.
  - intros (e & He & Hx & Hy). exists (with_type e). rewrite with_type_From, with_type_To. split; [| done].
    apply list_elem_of_In, in_map. by apply list_elem_of_In.
Qed.

(** ** Greatest and least *)

(** [s] is the greatest of [z] and [l]. *)
Record greatest (z : float) (l : list float) (s : float) : Prop := {
  gr_elem : s = z \/ s ∈ l;
  gr_base : flt s z = false;
  gr_bound b : b ∈ l -> flt s b = false
}.
Record least (z : float) (l : list float) (s : float) : Prop := {
  le_elem : s = z \/ s ∈ l;
  le_base : flt z s = false;
  le_bound b : b ∈ l -> flt b s = false
}.

Lemma fold_fmax l z : greatest z l (fold_left fmax l z).
Proof.
  assert (forall b, flt z b = false -> flt (fold_left fmax l z) b = false) as Hmono.
  { revert z. induction l as [| y l IH]; intros z b Hb; simpl; [done |]. by apply IH, fmax_left. }
  split.
  - clear Hmono. revert z. induction l as [| y l IH]; intros z; simpl; [by left |].
    destruct (IH (fmax z y)) as [-> | ?]; [| right; by right]. destruct (fmax_cases z y) as [-> | ->]; [by left | right; by left].
  - apply Hmono, flt_irrefl.
  - clear Hmono. revert z. induction l as [| y l IH]; intros z b; [by intros ?%elem_of_nil |].
    intros [-> | Hb]%elem_of_cons; simpl; [| by apply IH].
    assert (forall w, flt w y = false -> flt (fold_left fmax l w) y = false) as Hmono; [| apply Hmono, fmax_right].
    clear. induction l as [| x l IH]; intros w Hw; simpl; [done |]. by apply IH, fmax_left.
Qed.

Lemma fold_fmin l z : least z l (fold_left fmin l z).
Proof.
  assert (forall b w, flt b w = false -> flt b (fold_left fmin l w) = false) as Hmono.
  { intros b. induction l as [| y l IH]; intros w Hb; simpl; [done |]. by apply IH, fmin_left. }
  split.
  - clear Hmono. revert z. induction l as [| y l IH]; intros z; simpl; [by left |].
    destruct (IH (fmin z y)) as [-> | ?]; [| right; by right]. destruct (fmin_cases z y) as [-> | ->]; [by left | right; by left].
  - apply Hmono, flt_irrefl.
  - clear Hmono. revert z. induction l as [| y l IH]; intros z b; [by intros ?%elem_of_nil |].
    intros [-> | Hb]%elem_of_cons; simpl; [| by apply IH].
    assert (forall w, flt y w = false -> flt y (fold_left fmin l w) = false) as Hmono; [| apply Hmono, fmin_right].
    clear. induction l as [| x l IH]; intros w Hw; simpl; [done |]. by apply IH, fmin_left.
Qed.

(** ** The passes *)

Lemma times_at_insert m id v k : times_at (<[id := v]> m) k = if decide (id = k) then v else times_at m k.
Proof. unfold times_at. case_decide as E; [by rewrite E, lookup_insert_eq | by rewrite lookup_insert_ne]. Qed.

Lemma earliest_ext es m m' d s :
  (forall e, e ∈ es -> times_at m (From e) = times_at m' (From e)) -> earliest es m d s = earliest es m' d s.
Proof.
  revert s. induction es as [| e es IH]; intros s H; [done |]. cbn [earliest]. rewrite H by by left.
  destruct (known_type _); [| done]. apply IH. intros. apply H. by right.
Qed.

Lemma earliest_spec es m d s :
  match earliest es m d s with
  | inr r => (forall e, e ∈ es -> known_type (Type_ e) = true)
      /\ r = fold_left fmax (map (fun e => start_bound (Type_ e) (times_at m (From e)) d) es) s
  | inl err => exists e, e ∈ es /\ err = UnknownType (Type_ e) /\ known_type (Type_ e) = false
  end.
Proof.
  revert s. induction es as [| e es IH]; intros s; cbn [earliest map fold_left].
  - split; [by intros e ?%elem_of_nil | done].
  - destruct (known_type (Type_ e)) eqn:E; [| exists e; split_and!; [by left | done | done]].
    specialize (IH (fmax s (start_bound (Type_ e) (times_at m (From e)) d))).
    destruct (earliest _ _ _ _).
    + destruct IH as (e' & ? & ?). exists e'. split; [by right | done].
    + destruct IH as [Hk ->]. split; [| done]. by intros e' [-> | He]%elem_of_cons; [| apply Hk].
Qed.

Lemma latest_eq es m d s :
  latest es m d s = fold_left fmin (map (fun e => finish_bound (Type_ e) (times_at m (To e)) d) es) s.
Proof. unfold latest. revert s. induction es as [| e es IH]; intros s; [done |]. apply IH. Qed.

Lemma latest_ext es m m' d s :
  (forall e, e ∈ es -> times_at m (To e) = times_at m' (To e)) -> latest es m d s = latest es m' d s.
Proof.
  revert s. induction es as [| e es IH]; intros s H; [done |]. unfold latest. cbn [fold_left].
  rewrite H by by left. apply IH. intros. apply H. by right.
Qed.

Lemma forward_spec topo into_ dur m :
  NoDup topo ->
  (forall l1 id l2, topo = l1 ++ id :: l2 -> forall e, e ∈ edges_at into_ id -> From e ∉ id :: l2) ->
  match forward topo into_ dur m with
  | inr m' => (forall id, id ∉ topo -> m' !! id = m !! id)
      /\ forall id, id ∈ topo ->
         earliest (edges_at into_ id) m' (dur_at dur id) zero = inr (times_at m' id).1
         /\ (times_at m' id).2 = fadd (times_at m' id).1 (dur_at dur id)
  | inl err => exists id e, id ∈ topo /\ e ∈ edges_at into_ id /\ err = UnknownType (Type_ e) /\ known_type (Type_ e) = false
  end.
Proof.
  revert m. induction topo as [| id topo IH]; intros m Hd Ho; cbn [forward].
  - split; [done |]. by intros id ?%elem_of_nil.
  - apply list.NoDup_cons in Hd as [Hn Hd].
    pose proof (earliest_spec (edges_at into_ id) m (dur_at dur id) zero) as He.
    destruct (earliest _ m _ _) as [err | start] eqn:Ee.
    { destruct He as (e & ? & ?). exists id, e. split; [by left | done]. }
    specialize (IH (<[id := (start, fadd start (dur_at dur id))]> m) Hd).
    assert (forall l1 x l2, topo = l1 ++ x :: l2 -> forall e, e ∈ edges_at into_ x -> From e ∉ x :: l2) as Ho'.
    { intros l1 x l2 ->. by apply (Ho (id :: l1) x l2). }
    specialize (IH Ho'). destruct (forward topo _ _ _) as [err | m'].
    { destruct IH as (x & e & ? & ?). exists x, e. split; [by right | done]. }
    destruct IH as [Hsame Hall]. split.
    + intros x [Hx Hxt]%not_elem_of_cons. rewrite Hsame, lookup_insert_ne by done. done.
    + assert (times_at m' id = (start, fadd start (dur_at dur id))) as Eid.
      { unfold times_at. by rewrite Hsame, lookup_insert_eq. }
      intros x [-> | Hx]%elem_of_cons; [| auto]. rewrite Eid. cbn [fst snd]. split; [| done].
      rewrite <- Ee. apply earliest_ext. intros e Hin. apply (Ho [] id topo eq_refl) in Hin.
      apply not_elem_of_cons in Hin as [H1 H2]. unfold times_at. by rewrite Hsame, lookup_insert_ne.
Qed.

Lemma backward_spec topo out dur project m :
  NoDup topo ->
  (forall l1 id l2, topo = l1 ++ id :: l2 -> forall e, e ∈ edges_at out id -> To e ∉ id :: l2) ->
  (forall id, id ∉ topo -> backward topo out dur project m !! id = m !! id)
  /\ forall id, id ∈ topo ->
     let late := backward topo out dur project m in
     latest (edges_at out id) late (dur_at dur id) project = (times_at late id).2
     /\ (times_at late id).1 = fsub (times_at late id).2 (dur_at dur id).
Proof.
  revert m. induction topo as [| id topo IH]; intros m Hd Ho; cbn [backward].
  - split; [done |]. by intros id ?%elem_of_nil.
  - apply list.NoDup_cons in Hd as [Hn Hd].
    set (f := latest (edges_at out id) m (dur_at dur id) project).
    set (m1 := <[id := (fsub f (dur_at dur id), f)]> m).
    assert (forall l1 x l2, topo = l1 ++ x :: l2 -> forall e, e ∈ edges_at out x -> To e ∉ x :: l2) as Ho'.
    { intros l1 x l2 ->. by apply (Ho (id :: l1) x l2). }
    destruct (IH m1 Hd Ho') as [Hsame Hall]. split.
    + intros x [Hx Hxt]%not_elem_of_cons. unfold m1 in *. by rewrite Hsame, lookup_insert_ne.
    + intros x [-> | Hx]%elem_of_cons; [| by apply Hall]. cbv zeta.
      assert (times_at (backward topo out dur project m1) id = (fsub f (dur_at dur id), f)) as Eid.
      { unfold times_at. rewrite Hsame by done. unfold m1. by rewrite lookup_insert_eq. }
      rewrite Eid. cbn [fst snd]. split; [| done]. transitivity (latest (edges_at out id) m (dur_at dur id) project); [| done]. apply latest_ext. intros e Hin.
      apply (Ho [] id topo eq_refl) in Hin. apply not_elem_of_cons in Hin as [H1 H2].
      unfold times_at. rewrite Hsame by done. unfold m1. by rewrite lookup_insert_ne.
Qed.

Lemma project_end_greatest topo early :
  greatest zero (map (fun id => (times_at early id).2) topo) (project_end topo early).
Proof.
  pose proof (fold_fmax (map (fun id => (times_at early id).2) topo) zero) as H.
  replace (fold_left fmax _ zero) with (project_end topo early) in H; [done |].
  unfold project_end. clear H. generalize zero. induction topo as [| x topo IH]; intros z; [done |]. apply IH.
Qed.

Lemma schedules_lookup (f : string -> Schedule) topo (m : gmap string Schedule) id :
  fold_left (fun m id => <[id := f id]> m) topo m !! id = if decide (id ∈ topo) then Some (f id) else m !! id.
Proof.
  revert m. induction topo as [| x topo IH]; intros m; cbn [fold_left]; [done |]. rewrite IH.
  destruct (decide (id ∈ topo)) as [Hin | Hin].
  - rewrite decide_True; [done | by right].
  - destruct (decide (x = id)) as [-> | Hne].
    + rewrite decide_True by by left. by rewrite lookup_insert_eq.
    + rewrite decide_False; [by rewrite lookup_insert_ne |]. by intros [-> |]%elem_of_cons.
Qed.

(** ** The whole *)

Lemma edges_at_into edges id :
  edges_at (adjacent To edges ∅) id = List.filter (fun e => bool_decide (To e = id)) edges.
Proof. rewrite edges_at_adjacent. unfold edges_at. by rewrite lookup_empty. Qed.

Lemma edges_at_out edges id :
  edges_at (adjacent From edges ∅) id = List.filter (fun e => bool_decide (From e = id)) edges.
Proof. rewrite edges_at_adjacent. unfold edges_at. by rewrite lookup_empty. Qed.

Lemma filter_edges (key : Edge -> string) edges id e :
  e ∈ List.filter (fun e => bool_decide (key e = id)) edges <-> e ∈ edges /\ key e = id.
Proof. by rewrite list_elem_of_In, filter_In, <- list_elem_of_In, bool_decide_eq_true. Qed.

Lemma position_split l1 (x : string) l2 y : y ∈ x :: l2 -> NoDup (l1 ++ x :: l2) ->
  (position (l1 ++ x :: l2) x <= position (l1 ++ x :: l2) y)%nat.
Proof.
  induction l1 as [| z l1 IH]; cbn [app position].
  - rewrite decide_True by done. lia.
  - intros Hy [Hn Hd]%list.NoDup_cons. rewrite elem_of_app in Hn.
    rewrite !decide_False by (intros ->; apply Hn; right; done || by left). specialize (IH Hy Hd). lia.
Qed.

(** The plan of a network that was accepted. *)
Record plan (nodes : list Node) (edges : list Edge) (topo : list string) (early late : times) (net : Network) : Prop := {
  pl_order : topo ≡ₚ map ID nodes;
  pl_edges e : e ∈ edges -> (position topo (From e) < position topo (To e))%nat;
  pl_early id : id ∈ topo ->
    earliest (edges_at (adjacent To (map with_type edges) ∅) id) early (dur_at (durations nodes ∅) id) zero
      = inr (times_at early id).1
    /\ (times_at early id).2 = fadd (times_at early id).1 (dur_at (durations nodes ∅) id);
  pl_late id : id ∈ topo ->
    latest (edges_at (adjacent From (map with_type edges) ∅) id) late (dur_at (durations nodes ∅) id) (net_Duration net)
      = (times_at late id).2
    /\ (times_at late id).1 = fsub (times_at late id).2 (dur_at (durations nodes ∅) id);
  pl_duration : net_Duration net = project_end topo early;
  pl_schedules id : Schedules net !! id
    = if decide (id ∈ topo) then Some (schedule_of (durations nodes ∅) early late id) else None;
  pl_critical : CriticalPath net
    = List.filter (fun id => match Schedules net !! id with Some s => Critical s | None => false end) topo
}.

Lemma ComputeCPM_cases nodes edges :
  match ComputeCPM nodes edges with
  | inr net => NoDup (map ID nodes) /\ (forall n, n ∈ nodes -> flt (Duration n) zero = false)
      /\ (forall e, e ∈ edges -> From e ∈ map ID nodes /\ To e ∈ map ID nodes)
      /\ (forall x, ~ tc (depends edges) x x)
      /\ exists topo early late, plan nodes edges topo early late net
  | inl (DuplicateTask id) => id ∈ map ID nodes /\ ~ NoDup (map ID nodes)
  | inl (NegativeDuration id) => exists n, n ∈ nodes /\ ID n = id /\ flt (Duration n) zero = true
  | inl (UnknownTask id) => id ∉ map ID nodes /\ exists e, e ∈ edges /\ (id = From e \/ id = To e)
  | inl ErrCycle => exists x, tc (depends edges) x x
  | inl (UnknownType t) => known_type t = false /\ exists e, e ∈ edges /\ Type_ (with_type e) = t
  end.
Proof.
  unfold ComputeCPM. pose proof (check_nodes_spec nodes ∅ []) as Hn.
  destruct (check_nodes nodes ∅ []) as [err | [dur order]].
  { destruct Hn as [_ Hn]; [| constructor |].
    - intros id. rewrite lookup_empty, elem_of_nil. split; [by intros [? ?] | done].
    - by destruct err. }
  destruct Hn as (-> & -> & Hnd & Hdom & Hneg); [| constructor |].
  { intros id. rewrite lookup_empty, elem_of_nil. split; [by intros [? ?] | done]. }
  cbn [app] in *. pose proof (check_edges_spec edges (durations nodes ∅)) as He.
  destruct (check_edges edges _) as [err |].
  { destruct He as (e & id & Hin & -> & Hid & Hnone). split; [| by exists e].
    rewrite <- Hdom, Hnone. by intros [? ?]. }
  assert (forall e, e ∈ edges -> From e ∈ map ID nodes /\ To e ∈ map ID nodes) as Hends.
  { intros e Hin. rewrite <- !Hdom. auto. }
  assert (forall e, e ∈ map with_type edges -> From e ∈ map ID nodes /\ To e ∈ map ID nodes) as Hends'.
  { intros e (e' & -> & Hin)%list_elem_of_fmap. rewrite with_type_From, with_type_To. auto. }
  pose proof (ordering_spec (map ID nodes) (map with_type edges) Hnd Hends') as Ho. unfold ordering in Ho.
  assert (forall x, tc (depends (map with_type edges)) x x <-> tc (depends edges) x x) as Htc.
  { intros x. split; apply (tc_congruence (fun x => x)); intros ? ?; apply depends_with_type. }
  destruct (kahn _ _ _) as [topo |].
  2: { destruct Ho as (x & Hx). exists x. by apply Htc. }
  destruct Ho as (Hperm & Hpos & Hacyc & _).
  assert (NoDup topo) as Htd by by rewrite Hperm.
  assert (forall e, e ∈ edges -> (position topo (From e) < position topo (To e))%nat) as Hpos'.
  { intros e Hin. specialize (Hpos (with_type e)). rewrite with_type_From, with_type_To in Hpos. apply Hpos.
    apply list_elem_of_fmap. by exists e. }
  pose proof (forward_spec topo (adjacent To (map with_type edges) ∅) (durations nodes ∅) ∅ Htd) as Hf.
  destruct (forward _ _ _ _) as [err | early].
  { destruct Hf as (id & e & _ & Hin & -> & Hk).
    - intros l1 id l2 -> e Hin. rewrite edges_at_into in Hin. apply filter_edges in Hin as [Hin <-].
      intros Hc. apply (position_split l1) in Hc; [| done]. apply Hpos in Hin. lia.
    - rewrite edges_at_into in Hin. apply filter_edges in Hin as [(e' & -> & Hin)%list_elem_of_fmap _].
      split; [done | by exists e']. }
  destruct Hf as [_ Hf].
  { intros l1 id l2 -> e Hin. rewrite edges_at_into in Hin. apply filter_edges in Hin as [Hin <-].
    intros Hc. apply (position_split l1) in Hc; [| done]. apply Hpos in Hin. lia. }
  destruct (backward_spec (rev topo) (adjacent From (map with_type edges) ∅) (durations nodes ∅) (project_end topo early) ∅)
    as [_ Hb].
  { apply NoDup_ListNoDup, List.NoDup_rev. by apply NoDup_ListNoDup. }
  { intros l1 id l2 E e Hin. rewrite edges_at_out in Hin. apply filter_edges in Hin as [Hin <-].
    assert (topo = rev l2 ++ From e :: rev l1) as E'.
    { rewrite <- (rev_involutive topo), E, rev_app_distr. simpl. by rewrite <- app_assoc. }
    intros Hc. apply Hpos in Hin. rewrite E' in Hin, Htd.
    apply elem_of_cons in Hc as [Hc | Hc]; [rewrite Hc in Hin; lia |].
    assert (To e ∈ rev l2) as Hr by (apply list_elem_of_In; apply in_rev; rewrite rev_involutive; by apply list_elem_of_In).
    apply (position_app _ (From e) (rev l1)) in Hr; [lia | done]. }
  split_and!; [done | done | done | intros x Hx; apply (Hacyc x); by apply Htc |].
  eexists topo, early, _. split; cbn [net_Duration Schedules CriticalPath]; try done.
  - intros id Hid. apply Hb. apply list_elem_of_In, in_rev. rewrite rev_involutive. by apply list_elem_of_In.
  - intros id. rewrite schedules_lookup. by rewrite lookup_empty.
Qed.

(** ** Properties *)

(** C37: The computation answers every input: with a network exactly when the tasks
    are distinct, no duration is negative, every edge joins known tasks with a
    known type and nothing depends on itself through a chain; otherwise with an
    error that names a defect the input has. *)
Theorem ComputeCPM_result nodes edges :
  match ComputeCPM nodes edges with
  | inr _ => NoDup (map ID nodes) /\ (forall n, n ∈ nodes -> flt (Duration n) zero = false)
      /\ (forall e, e ∈ edges -> From e ∈ map ID nodes /\ To e ∈ map ID nodes /\ known_type (Type_ (with_type e)) = true)
      /\ (forall x, ~ tc (depends edges) x x)
  | inl (DuplicateTask id) => id ∈ map ID nodes /\ ~ NoDup (map ID nodes)
  | inl (NegativeDuration id) => exists n, n ∈ nodes /\ ID n = id /\ flt (Duration n) zero = true
  | inl (UnknownTask id) => id ∉ map ID nodes /\ exists e, e ∈ edges /\ (id = From e \/ id = To e)
  | inl ErrCycle => exists x, tc (depends edges) x x
  | inl (UnknownType t) => known_type t = false /\ exists e, e ∈ edges /\ Type_ (with_type e) = t
  end.
Proof.
  pose proof (ComputeCPM_cases nodes edges) as H. destruct (ComputeCPM nodes edges) as [err | net]; [done |].
  destruct H as (H1 & H2 & H3 & H4 & topo & early & late & Hp). split_and!; [done | done | | done].
  intros e He. destruct (H3 e He) as [Hf Ht]. split_and!; [done | done |].
  assert (To e ∈ topo) as Hin by by rewrite (pl_order _ _ _ _ _ _ Hp).
  destruct (pl_early _ _ _ _ _ _ Hp _ Hin) as [Hs _].
  pose proof (earliest_spec (edges_at (adjacent To (map with_type edges) ∅) (To e)) early (dur_at (durations nodes ∅) (To e)) zero) as Hk.
  rewrite Hs in Hk. apply Hk. rewrite edges_at_into, filter_edges, with_type_To. split; [| done].
  apply list_elem_of_fmap. by exists e.
Qed.

(** The times of a task in a network. *)
Definition early_of (net : Network) (id : string) : float * float :=
  match Schedules net !! id with Some s => (EarlyStart s, EarlyFinish s) | None => (zero, zero) end.
Definition late_of (net : Network) (id : string) : float * float :=
  match Schedules net !! id with Some s => (LateStart s, LateFinish s) | None => (zero, zero) end.

Lemma durations_lookup nodes n : NoDup (map ID nodes) -> n ∈ nodes -> dur_at (durations nodes ∅) (ID n) = Duration n.
Proof.
  unfold dur_at, durations. generalize (∅ : gmap string float).
  induction nodes as [| x nodes IH]; intros m; [by intros _ ?%elem_of_nil |]. cbn [map fold_left].
  intros [Hn Hd]%list.NoDup_cons [-> | Hin]%elem_of_cons; [| by apply IH].
  assert (forall l (m : gmap string float) k, k ∉ map ID l ->
    fold_left (fun m n => <[ID n := Duration n]> m) l m !! k = m !! k) as Hk.
  { clear. induction l as [| y l IH]; intros m k Hk; [done |]. cbn [map fold_left] in *.
    apply not_elem_of_cons in Hk as [? ?]. by rewrite IH, lookup_insert_ne. }
  by rewrite Hk, lookup_insert_eq.
Qed.

(** The schedule solves the critical-path equations: each task starts at the
    greatest of zero and the bounds its dependencies put on it, and finishes at
    the least of the project's end and the bounds of those that depend on it; the
    project ends at the greatest finish; slack is late minus early start, read as
    zero within a tolerance, and the critical path is the tasks without slack,
    each after what it depends on.  All of it in rounded arithmetic, with the
    comparisons of the language. *)
Theorem ComputeCPM_schedule nodes edges net :
  ComputeCPM nodes edges = inr net ->
  (forall n, n ∈ nodes -> exists s, Schedules net !! ID n = Some s
    /\ sc_ID s = ID n /\ sc_Duration s = Duration n
    /\ greatest zero
         (map (fun e => start_bound (Type_ e) (early_of net (From e)) (Duration n))
            (List.filter (fun e => bool_decide (To e = ID n)) (map with_type edges))) (EarlyStart s)
    /\ EarlyFinish s = fadd (EarlyStart s) (Duration n)
    /\ least (net_Duration net)
         (map (fun e => finish_bound (Type_ e) (late_of net (To e)) (Duration n))
            (List.filter (fun e => bool_decide (From e = ID n)) (map with_type edges))) (LateFinish s)
    /\ LateStart s = fsub (LateFinish s) (Duration n)
    /\ Slack s = (if flt (SFabs (fsub (LateStart s) (EarlyStart s))) eps then zero else fsub (LateStart s) (EarlyStart s))
    /\ Critical s = SFeqb (Slack s) zero)
  /\ (exists topo, topo ≡ₚ map ID nodes
      /\ (forall e, e ∈ edges -> (position topo (From e) < position topo (To e))%nat)
      /\ greatest zero (map (fun id => (early_of net id).2) topo) (net_Duration net)
      /\ CriticalPath net = List.filter (fun id => match Schedules net !! id with Some s => Critical s | None => false end) topo).
Proof.
  intros E. pose proof (ComputeCPM_cases nodes edges) as H. rewrite E in H.
  destruct H as (Hnd & _ & Hends & _ & topo & early & late & [P1 P2 P3 P4 P5 P6 P7]).
  assert (forall id, id ∈ topo -> early_of net id = times_at early id /\ late_of net id = times_at late id) as Ht.
  { intros id Hid. unfold early_of, late_of. rewrite P6, decide_True by done. cbn [schedule_of EarlyStart EarlyFinish LateStart LateFinish].
    by rewrite <- !surjective_pairing. }
  assert (forall e, e ∈ map with_type edges -> From e ∈ topo /\ To e ∈ topo) as Hin.
  { intros e (e' & -> & He)%list_elem_of_fmap. rewrite with_type_From, with_type_To, !P1. auto. }
  split.
  - intros n Hn. assert (ID n ∈ topo) as Hid by (rewrite P1; apply list_elem_of_fmap; by exists n).
    exists (schedule_of (durations nodes ∅) early late (ID n)).
    rewrite P6, decide_True by done. cbn [schedule_of sc_ID sc_Duration EarlyStart EarlyFinish LateStart LateFinish Slack Critical].
    destruct (P3 _ Hid) as [E1 E2]. destruct (P4 _ Hid) as [L1 L2]. rewrite durations_lookup in * by done.
    split_and!; try done.
    + pose proof (earliest_spec (edges_at (adjacent To (map with_type edges) ∅) (ID n)) early (Duration n) zero) as Hs.
      rewrite E1 in Hs. destruct Hs as [_ ->]. rewrite edges_at_into.
      erewrite map_ext_in; [apply fold_fmax |]. intros e He%list_elem_of_In. apply filter_edges in He as [He _].
      apply Hin in He as [He _]. by destruct (Ht _ He) as [-> _].
    + rewrite <- L1, latest_eq, edges_at_out.
      erewrite map_ext_in; [apply fold_fmin |]. intros e He%list_elem_of_In. apply filter_edges in He as [He _].
      apply Hin in He as [_ He]. by destruct (Ht _ He) as [_ ->].
  - exists topo. split_and!; [done | done | | done]. rewrite P5.
    erewrite map_ext_in; [apply project_end_greatest |]. intros id Hid%list_elem_of_In. by destruct (Ht _ Hid) as [-> _].
Qed.

(** ** A concrete project *)

Definition days (z : Z) : float := binary_normalize 53 1024 z 0 false.

Definition release : list Node :=
  [mkNode "design" (days 3); mkNode "docs" (days 2); mkNode "build" (days 5); mkNode "ship" (days 1)].
Definition release_edges : list Edge :=
  [mkEdge "design" "docs" ""; mkEdge "design" "build" "SS"; mkEdge "build" "ship" "FS"; mkEdge "docs" "ship" "FF"].

Lemma ComputeCPM_schedule_witness :
  exists net s, ComputeCPM release release_edges = inr net /\ CriticalPath net = ["design"; "build"; "ship"]
  /\ Schedules net !! "docs" = Some s /\ EarlyFinish s = fadd (days 3) (days 2) /\ Slack s = days 1.
Proof.
  destruct (ComputeCPM release release_edges) as [err | net] eqn:E; [by vm_compute in E |].
  destruct (ComputeCPM_schedule release release_edges net E) as [H _].
  destruct (H (mkNode "docs" (days 2))) as (s & Hs & _ & _ & _ & Hf & _).
  { right. left. }
  exists net, s. split_and!; [done | | exact Hs | |]; vm_compute in E; injection E as <-; vm_compute in Hs;
    injection Hs as <-; by vm_compute.
Defined.

Lemma ordering_cycle :
  ComputeCPM release (mkEdge "ship" "design" "SS" :: release_edges) = inl ErrCycle
  /\ exists x, tc (depends (mkEdge "ship" "design" "SS" :: release_edges)) x x.
Proof.
  pose proof (ComputeCPM_result release (mkEdge "ship" "design" "SS" :: release_edges)) as H.
  assert (ComputeCPM release (mkEdge "ship" "design" "SS" :: release_edges) = inl ErrCycle) as E by by vm_compute.
  rewrite E in H. by split.
Qed.
