(* ===== verification/Changes.v ===== *)
(** * What one operation changes

    [authority_inv] joins the invariants of the components and [authority_le] their
    histories: what no operation ever takes back.  One operation is a [change]: each
    component is as it was, or keeps its invariant and extends its history.  Here the
    operations on sessions, leases, evidence, reviews, publications, acceptance and
    schemas are shown to be changes; LoopChanges.v does so for the scheduling ones. *)

From S2P Require Import Prelude GoStd Disclosure State Session Schema Withdrawal Resources Attempts Leases Lifecycle Recovery Evidence Reviews Publication Preflight PreflightLaws Budgets BudgetLaws Checkpoints CheckpointLaws Swarms SwarmLaws Intents IntentLaws Acceptance Integration External.
#[local] Open Scope Z_scope.

(** [mint] draws identifiers that name nothing yet. *)
Record fresh (e : Env) (s : state) : Prop := {
  f_session : fresh_session e s;
  f_lease : fresh_lease e s;
  f_evidence : fresh_evidence e s;
  f_decision : fresh_decision e s;
  f_review : forall id, mint e 0 = Ok id -> mget (Reviews s) id = None;
  f_draws : fresh_draws e s
}.

(** ** Well-formed schemas *)

(** What [valid] looks at, bar the checkpoint bindings. *)
Definition shape (s : state) : Z * list (list bool) :=
  (Version s,
   [[is_nil (Sessions s); is_nil (Tasks s); is_nil (Attempts s); is_nil (Leases s);
     is_nil (Operations s); is_nil (Revisions s); is_nil (Grants s); is_nil (st_Evidence s);
     is_nil (ReviewGrants s); is_nil (Reviews s); is_nil (PublicationPolicies s);
     is_nil (PublicationDecisions s); is_nil (PublicationConsumed s)];
    swarm_nils s; intent_nils s; lifecycle_nils s; recovery_nils s; preflight_nils s;
    checkpoint_nils s; budget_nils s; acceptance_nils s; native_policy_nils s;
    controller_nils s; routing_nils s; integration_nils s; external_nils s]).

Definition bindings_ok (s : state) : Prop :=
  Version s < 12 -> forall k op, mget (Operations s) k = Some op ->
    op_CheckpointVerification op = None.

Lemma valid_shape s s' : shape s' = shape s -> bindings_ok s' -> valid s -> valid s'.
Proof.
  intros E Hb [Hc H19 H18 H7 H8 H9 H10 _ H12 H17 H16 H15 H14 H13 H11].
  pose proof (f_equal fst E : Version s' = Version s) as EV.
  pose proof (fun i => f_equal (fun p => nth i p.2 []) E) as El. clear E.
  constructor; [| | | | | | | exact Hb | ..].
  1: { unfold core_maps_missing in *. rewrite EV. specialize (El 0%nat). simpl in El. congruence. }
  all: unfold group_ok; rewrite EV;
    match goal with
    | |- context [swarm_nils] => pose proof (El 1%nat : swarm_nils s' = swarm_nils s) as ->
    | |- context [intent_nils] => pose proof (El 2%nat : intent_nils s' = intent_nils s) as ->
    | |- context [lifecycle_nils] => pose proof (El 3%nat : lifecycle_nils s' = lifecycle_nils s) as ->
    | |- context [recovery_nils] => pose proof (El 4%nat : recovery_nils s' = recovery_nils s) as ->
    | |- context [preflight_nils] => pose proof (El 5%nat : preflight_nils s' = preflight_nils s) as ->
    | |- context [checkpoint_nils] => pose proof (El 6%nat : checkpoint_nils s' = checkpoint_nils s) as ->
    | |- context [budget_nils] => pose proof (El 7%nat : budget_nils s' = budget_nils s) as ->
    | |- context [acceptance_nils] => pose proof (El 8%nat : acceptance_nils s' = acceptance_nils s) as ->
    | |- context [native_policy_nils] =>
      pose proof (El 9%nat : native_policy_nils s' = native_policy_nils s) as ->
    | |- context [controller_nils] => pose proof (El 10%nat : controller_nils s' = controller_nils s) as ->
    | |- context [routing_nils] => pose proof (El 11%nat : routing_nils s' = routing_nils s) as ->
    | |- context [integration_nils] =>
      pose proof (El 12%nat : integration_nils s' = integration_nils s) as ->
    | |- context [external_nils] => pose proof (El 13%nat : external_nils s' = external_nils s) as ->
    end; done.
Qed.

(** ** The joint invariant *)

Record authority_inv (s : state) : Prop := {
  ai_version : 6 <= Version s;
  ai_valid : valid s;
  ai_sessions : sessions_wf s;
  ai_leases : lease_inv s;
  ai_reservations : reservation_inv s;
  ai_intents : intent_inv s;
  ai_histories : histories_ok s;
  ai_revisions : revisions_ok s;
  ai_evidence : evidence_inv s;
  ai_publication : publication_inv s;
  ai_acceptance : acceptance_inv s;
  ai_checkpoints : checkpoint_inv s;
  ai_budgets : budget_inv s;
  ai_integration : integration_inv s;
  ai_external : external_inv s
}.

(** What no operation takes back. *)
Record authority_le (s s' : state) : Prop := {
  al_identity : OwnerHash s' = OwnerHash s /\ st_Binding s' = st_Binding s;
  al_version : Version s <= Version s';
  al_sessions : session_le s s';
  al_withdrawal : withdrawal_le s s';
  al_attempts : attempt_le s s';
  al_leases : lease_le s s';
  al_lifecycle : lifecycle_le s s';
  al_recovery : recovery_le s s';
  al_operations : operation_le s s';
  al_revisions : revision_le s s';
  al_evidence : evidence_le s s';
  al_reviews : forall k r, mget (Reviews s) k = Some r -> mget (Reviews s') k = Some r;
  al_publication : publication_le s s';
  al_acceptance : acceptance_le s s';
  al_dispatches : dispatch_le s s';
  al_intents : intent_le s s';
  al_preflight : preflight_le s s';
  al_checkpoints : checkpoint_le s s';
  al_budgets : budget_le s s';
  al_integration : integration_le s s';
  al_external : external_le s s'
}.

#[export] Instance authority_le_preorder : PreOrder authority_le.
Proof.
  split.
  - intros s. split; done || lia.
  - intros s1 s2 s3 H12 H23. destruct (al_identity _ _ H12), (al_identity _ _ H23).
    pose proof (al_version _ _ H12). pose proof (al_version _ _ H23). pose proof (al_reviews _ _ H12). pose proof (al_reviews _ _ H23).
    split; [split; congruence | lia | | | | | | | | | | auto | ..]; destruct H12, H23; by etrans.
Qed.

(** One operation changes few components: each is the same, up to nil, or
    keeps its invariant and extends its history. *)
Definition agree {V} (m m' : gomap V) : Prop := forall k, mget m' k = mget m k.

Record change (s s' : state) : Prop := {
  c_identity : OwnerHash s' = OwnerHash s /\ st_Binding s' = st_Binding s;
  c_version : Version s <= Version s';
  c_valid : valid s';
  c_sessions : Sessions s' = Sessions s \/ sessions_wf s' /\ session_le s s';
  c_attempts : (Attempts s' = Attempts s /\ Tasks s' = Tasks s) \/ attempt_le s s';
  c_leases : (Leases s' = Leases s /\ Fence s' = Fence s /\ agree (dispatches s) (dispatches s')
              /\ agree (recoveries s) (recoveries s')) \/ lease_inv s' /\ reservation_inv s' /\ lease_le s s';
  c_lifecycle : st_Lifecycle s' = st_Lifecycle s \/ histories_ok s' /\ lifecycle_le s s';
  c_recovery : st_Recovery s' = st_Recovery s \/ recovery_le s s';
  c_operations : Operations s' = Operations s \/ operation_le s s';
  c_revisions : Revisions s' = Revisions s \/ revisions_ok s' /\ revision_le s s';
  c_evidence : (st_Evidence s' = st_Evidence s /\ Grants s' = Grants s)
               \/ evidence_inv s' /\ evidence_le s s';
  c_reviews : Reviews s' = Reviews s
              \/ forall k r, mget (Reviews s) k = Some r -> mget (Reviews s') k = Some r;
  c_publication : (PublicationPolicies s' = PublicationPolicies s
                   /\ PublicationDecisions s' = PublicationDecisions s
                   /\ PublicationConsumed s' = PublicationConsumed s)
                  \/ publication_inv s' /\ publication_le s s';
  c_acceptance : acceptance_agree s s' \/ acceptance_inv s' /\ acceptance_le s s';
  c_dispatches : agree (dispatches s) (dispatches s') \/ dispatch_le s s';
  c_intents : (agree (dispatches s) (dispatches s') /\ agree (intents s) (intents s')
               /\ agree (intent_operations s) (intent_operations s')) \/ intent_inv s' /\ intent_le s s';
  c_preflight : st_Preflight s' = st_Preflight s \/ preflight_le s s';
  c_checkpoints : st_Checkpoint s' = st_Checkpoint s \/ checkpoint_inv s' /\ checkpoint_le s s';
  c_budgets : st_Budget s' = st_Budget s \/ budget_inv s' /\ budget_le s s';
  c_integration : integration_agree s s' \/ integration_inv s' /\ integration_le s s';
  c_external : external_agree s s' \/ external_inv s' /\ external_le s s'
}.

Lemma lease_inv_agree s s' :
  Leases s' = Leases s -> Fence s' = Fence s -> agree (dispatches s) (dispatches s') ->
  agree (recoveries s) (recoveries s') -> lease_inv s -> lease_inv s'.
Proof.
  intros El Ef Ed Er Hinv. apply (lease_inv_shrink s); [done | | |].
  - rewrite Ef. destruct Hinv. lia.
  - intros k l. rewrite El. intros H. by exists l.
  - intros k d. rewrite Ed. unfold reservationRetained, mhas. rewrite Er. eauto.
Qed.

Lemma change_le s s' : change s s' -> authority_le s s'.
Proof.
  intros []. 
  assert (session_le s s') as Hs by (destruct c_sessions0 as [?%session_le_same | []]; done).
  assert (recovery_le s s') as Hr by (destruct c_recovery0 as [?%recovery_le_same |]; done).
  assert (lifecycle_le s s') as Hl by (destruct c_lifecycle0 as [?%lifecycle_le_same | []]; done).
  assert (acceptance_le s s') as Ha by (destruct c_acceptance0 as [?%acceptance_agree_le | []]; done).
  split; try done.
  - split; [done | | |].
    + intros k t Ht. destruct (acl_terminals _ _ Ha _ _ Ht) as (t' & ? & _). by exists t'.
    + intros k r Hk%Hr. by exists r.
    + intros k c Hk. destruct Hl as [_ Hc _ _]. destruct (Hc _ _ Hk) as (c' & ? & ? & _). by exists c'.
  - destruct c_attempts0 as [[Ea Et] |]; [| done]. split; rewrite ?Ea, ?Et; [done |]. intros k b H.
    by exists b.
  - destruct c_leases0 as [(? & ? & _) | (_ & _ & ?)]; [by apply lease_le_same | done].
  - destruct c_operations0 as [?%operation_le_same |]; done.
  - destruct c_revisions0 as [?%revision_le_same | []]; done.
  - destruct c_evidence0 as [[? ?] | []]; [by apply evidence_le_same | done].
  - destruct c_reviews0 as [-> |]; done.
  - destruct c_publication0 as [(? & ? & ?) | []]; [by apply publication_le_same | done].
  - destruct c_dispatches0 as [? |]; [by apply dispatch_le_agree | done].
  - destruct c_intents0 as [(_ & Hi & Ho) | []]; [| done]. split; intros k x; rewrite ?Hi, ?Ho; eauto using rtc_refl.
  - destruct c_preflight0 as [E | ]; [| done]. by split; rewrite E.
  - destruct c_checkpoints0 as [E | []]; [| done]. by apply checkpoint_agree; unfold checkpoints, checkpoint_policies; rewrite E.
  - destruct c_budgets0 as [E | []]; [| done]. by apply budget_keep; unfold allocations; rewrite E.
  - destruct c_integration0 as [? | []]; [by apply integration_agree_le | done].
  - destruct c_external0 as [? | []]; [by apply external_agree_le | done].
Qed.

Lemma change_inv s s' : change s s' -> authority_inv s -> authority_inv s'.
Proof.
  intros Hc [Hv Hva Hwf Hle Hrv Hin Hhi Hre Hev Hpu Hac Hck Hbu Hig Hex]. pose proof (change_le _ _ Hc) as Hall.
  destruct Hc. split.
  - lia.
  - done.
  - destruct c_sessions0 as [E | []]; [| done]. intros id r. rewrite E. intros H.
    destruct (Hwf _ _ H) as [? ? ? Hp]. split; [done.. |]. by rewrite E.
  - destruct c_leases0 as [(? & ? & ? & ?) | []]; [by eapply lease_inv_agree | done].
  - destruct c_leases0 as [(El & Ef & Ed & Er) | (_ & ? & _)]; [| done]. apply (reservation_inv_keep s); [done | lia | done | |].
    + intros k r. rewrite Er. eauto.
    + intros k d _ _. by rewrite El.
  - destruct c_intents0 as [(Ed & Ei & _) | []]; [| done]. apply (intent_inv_keep s); [done | done |].
    intros k i d _ Hd. exists d. by rewrite Ed.
  - destruct c_lifecycle0 as [E | []]; [| done]. intros d. unfold history, observations.
    rewrite E. apply Hhi.
  - destruct c_revisions0 as [E | []]; [| done]. intros a i rev. unfold revisions. rewrite E. apply Hre.
  - destruct c_evidence0 as [[E1 E2] | []]; [| done].
    apply (evidence_inv_le s); [done | apply Hall | | | by apply evidence_le_same].
    + by rewrite E1.
    + intros id g. rewrite E2. intros H. by exists g.
  - destruct c_publication0 as [(_ & ? & ?) | []]; [by eapply publication_inv_same | done].
  - destruct c_acceptance0 as [? | []]; [by eapply acceptance_agree_inv | done].
  - destruct c_checkpoints0 as [E | []]; [| done]. apply (checkpoint_agree s); unfold checkpoints, checkpoint_policies; rewrite ?E; done.
  - destruct c_budgets0 as [E | []]; [| done]. apply (budget_keep s); unfold allocations; rewrite ?E; done.
  - destruct c_integration0 as [? | []]; [by eapply integration_agree_inv | done].
  - destruct c_external0 as [? | []]; [by eapply external_agree_inv | done].
Qed.

(** ** Each operation is such a change *)

Lemma bindings_put s s' key op :
  Version s' = Version s -> mset (Operations s) key op = Ok (Operations s') ->
  (Version s < 12 -> op_CheckpointVerification op = None) -> bindings_ok s -> bindings_ok s'.
Proof.
  intros Ev Hm Hop Hb Hlt k o. rewrite Ev in Hlt. rewrite (mget_mset _ _ _ _ _ Hm).
  case_decide; [intros [= <-]; auto | by apply Hb].
Qed.

Lemma change_refl s : valid s -> change s s.
Proof. intros Hv. split; try (left; done); done || lia. Qed.

(** The shape of a state updated through [mset]. *)
Ltac same_shape :=
  unfold shape, swarm_nils, intent_nils, lifecycle_nils, recovery_nils, acceptance_nils,
    native_policy_nils, integration_nils, external_nils; simpl;
  repeat match goal with
  | H : mset _ _ _ = Ok ?m' |- context [is_nil ?m'] => rewrite (is_nil_mset_eq _ _ _ _ H)
  end; reflexivity.

(** A state that stays valid because it keeps its shape and its receipts'
    bindings. *)
Ltac still_valid s :=
  apply (valid_shape s); [same_shape | | assumption];
  first
    [ assumption
    | match goal with Hv : valid s |- _ => exact (v_binding s Hv) end
    | eapply (bindings_put s); [reflexivity | eassumption | done |];
      match goal with Hv : valid s |- _ => exact (v_binding s Hv) end ].

(** Everything the operation does not touch. *)
Ltac frame s :=
  split; simpl; [done | try lia | try solve [still_valid s] | ..];
  try solve [left; by apply acceptance_same_agree];
  try solve [left; by apply integration_same_agree]; try solve [left; by apply external_same_agree]; try solve [left; repeat split]; try done.

(** The map groups of the schemas above 6 after a migration: as they were, or made. *)
Record groups (s s' : state) : Prop := {
  g_swarm : st_Swarm s' = st_Swarm s \/ st_Swarm s' = initializeSwarms;
  g_intents : st_Intents s' = st_Intents s \/ st_Intents s' = mkIntentMaps make_map make_map;
  g_lifecycle : st_Lifecycle s' = st_Lifecycle s
                \/ st_Lifecycle s' = mkLifecycleMaps make_map make_map make_map make_map make_map;
  g_recovery : st_Recovery s' = st_Recovery s \/ st_Recovery s' = mkRecoveryMaps make_map make_map make_map make_map;
  g_preflight : st_Preflight s' = st_Preflight s
                \/ st_Preflight s' = mkPreflightMaps make_map make_map make_map make_map make_map;
  g_checkpoint : st_Checkpoint s' = st_Checkpoint s
                 \/ st_Checkpoint s' = mkCheckpointMaps make_map make_map make_map make_map;
  g_budget : st_Budget s' = st_Budget s \/ st_Budget s' = mkBudgetMaps make_map make_map make_map make_map;
  g_acceptance : st_Acceptance s' = st_Acceptance s \/ st_Acceptance s' = mkAcceptanceMaps make_map make_map;
  g_policy : st_NativePolicy s' = st_NativePolicy s
             \/ st_NativePolicy s' = mkNativePolicyMaps make_map make_map make_map make_map make_map make_map;
  g_integration : st_Integration s' = st_Integration s \/ st_Integration s' = mkIntegrationMaps make_map make_map make_map;
  g_external : st_External s' = st_External s \/ st_External s' = mkExternalMaps make_map make_map make_map
}.

Lemma run_migration_groups m owner s s' u :
  6 <= source m -> run_migration m owner s = Ok (u, s') -> groups s s'.
Proof.
  intros Hs H. destruct m; simpl in *; try lia; unfold_migrations in H; inv_ok; split; auto.
Qed.

Section changes.
Context (au : Authority) (e : Env) (s : state) (Hinv : authority_inv s) (Hf : fresh e s).
#[local] Notation Hv := (ai_valid s Hinv).

Lemma issue_change cred parent scope expires x s' :
  issue e cred parent scope expires s = Ok (x, s') -> change s s'.
Proof using Hinv Hf.
  intros H. pose proof Hv. pose proof (issue_wf _ _ _ _ _ _ _ _ (ai_sessions _ Hinv) (f_session _ _ Hf) H).
  pose proof (issue_le _ _ _ _ _ _ _ _ (f_session _ _ Hf) H). destruct x.
  apply issue_ok in H as (id & m & _ & _ & _ & _ & _ & _ & Hm & ->). frame s. by right.
Qed.

Lemma Revoke_change owner id x s' : Revoke owner id s = Ok (x, s') -> change s s'.
Proof using Hinv.
  intros H. pose proof Hv. pose proof (Revoke_wf _ _ _ _ _ (ai_sessions _ Hinv) H).
  pose proof (Revoke_le _ _ _ _ _ H).
  apply Revoke_ok in H as (_ & r & m & _ & Hm & ->). frame s. by right.
Qed.

Lemma BindTask_change owner b x s' : BindTask owner b s = Ok (x, s') -> change s s'.
Proof using Hinv.
  intros H. pose proof Hv. pose proof (BindTask_le _ _ _ _ _ H).
  apply BindTask_ok in H as (_ & _ & _ & _ & _ & m & Hm & ->). frame s. by right.
Qed.

Lemma RegisterAttempt_change earlier token session req a s' :
  RegisterAttempt e token session req earlier s = Ok (a, s') -> change s s'.
Proof using Hinv.
  intros (_ & _ & _ & _ & obs & _ & H)%RegisterAttempt_ok. pose proof Hv.
  pose proof (record_attempt_le _ _ _ _ _ _ _ _ H).
  apply record_attempt_ok in H as (b & _ & _ & [(_ & -> & _) | (_ & m & Hm & -> & _)]);
    [by apply change_refl |]. frame s. by right.
Qed.

(** Reservations stay consistent while no lease takes the name of one. *)
Lemma reservations_kept s' :
  dispatches s' = dispatches s -> Fence s <= Fence s' ->
  (forall k r, mget (recoveries s) k = Some r -> is_Some (mget (recoveries s') k)) ->
  (forall k l, mget (Leases s') k = Some l -> is_Some (mget (Leases s) k) \/ mget (dispatches s) k = None) ->
  reservation_inv s'.
Proof using Hinv.
  intros Ed Ef Hr Hl. apply (reservation_inv_keep s); [apply Hinv | done | by rewrite Ed | done |].
  intros k d Hd _ Hn. destruct (mget (Leases s') k) as [l |] eqn:El; [| done].
  destruct (Hl _ _ El) as [[? ?] | ?]; congruence.
Qed.

(** A lease stored under a new name, or under the name of a lease. *)
Lemma reservations_put s' k l :
  dispatches s' = dispatches s -> Fence s <= Fence s' -> recoveries s' = recoveries s ->
  mset (Leases s) k l = Ok (Leases s') -> is_Some (mget (Leases s) k) \/ mget (dispatches s) k = None -> reservation_inv s'.
Proof using Hinv.
  intros Ed Ef Er Hm Hk. apply reservations_kept; [done | done | intros x r; rewrite Er; eauto |].
  intros x q. rewrite (mget_mset _ _ _ _ _ Hm). case_decide; [by subst x | eauto].
Qed.

Lemma AcquireLease_change token session req l s' :
  AcquireLease e token session req s = Ok (l, s') -> change s s'.
Proof using Hinv Hf.
  intros H. pose proof Hv. pose proof (AcquireLease_inv _ _ _ _ _ _ _ (f_lease _ _ Hf) (ai_leases _ Hinv) H).
  pose proof (AcquireLease_le _ _ _ _ _ _ _ (f_lease _ _ Hf) (ai_leases _ Hinv) H).
  apply AcquireLease_ok in H as (r & a & res & _ & _ & _ & _ & [[_ ->] | (_ & _ & [Hn _ _ _ _ Hid _ (ls & ops & Hl & Ho & ->)])]);
    [by apply change_refl |]. frame s; right; [| by eapply operation_le_new].
  pose proof (fd_dispatch _ _ (f_draws _ _ Hf) _ _ Hid) as Hd. split_and!; [apply H1 | | done].
  eapply reservations_put; [done | apply H2 | done | exact Hl | by right].
Qed.

Lemma changeLease_change token session key attempt id fence expires release digest l s' :
  changeLease e token session key attempt id fence expires release digest s = Ok (l, s') -> change s s'.
Proof using Hinv.
  intros H. pose proof Hv. pose proof (changeLease_inv_le _ _ _ _ _ _ _ _ _ _ _ _ _ (ai_leases _ Hinv) H).
  apply changeLease_ok in H as (r & a & old & _ & _ & Hold & _ & _ & _ & [[_ ->] | (_ & _ & [Hn _ _ _ (ls & ops & Hl & Ho & ->)])]);
    [by apply change_refl |]. frame s; right; [| by eapply operation_le_new]. destruct H1 as [Hi [Hfe Hle]]. split_and!; [done | | by split].
  eapply reservations_put; [done | done | done | exact Hl | left; by eexists].
Qed.

Lemma ConfigureLifecycle_change owner p x s' :
  ConfigureLifecycle owner p s = Ok (x, s') -> change s s'.
Proof using Hinv.
  intros H. pose proof Hv. pose proof (ConfigureLifecycle_le _ _ _ _ _ H).
  apply ConfigureLifecycle_ok in H as (_ & _ & [-> | (h & c & Hh & Hc & _ & ->)]);
    [by apply change_refl |]. frame s. right. split; [exact (ai_histories s Hinv) | done].
Qed.

Lemma ObserveLifecycle_change token bridge req o s' :
  ObserveLifecycle e token bridge req s = Ok (o, s') -> change s s'.
Proof using Hinv.
  intros (i & _ & _ & _ & _ & [(_ & _ & _ & _ & ->) | (Hn & Ho)])%ObserveLifecycle_ok;
    [by apply change_refl, Hv |].
  pose proof Hv. pose proof (observed_le _ _ _ _ _ _ _ Hn Ho).
  pose proof (observed_histories _ _ _ _ _ _ _ (ai_histories s Hinv) Ho).
  destruct Ho as [_ _ _ _ _ _ _ (m & ops & Hm & Hops & ->)%put_observations_ok].
  frame s. by right.
Qed.

Lemma CancelLifecycle_change token controller req x s' :
  CancelLifecycle e token controller req s = Ok (x, s') -> change s s'.
Proof using Hinv.
  intros (i & _ & _ & _ & _ & [(? & ? & _ & _ & _ & _ & ->) | (Hn & Ho)])%CancelLifecycle_ok;
    [by apply change_refl, Hv |].
  pose proof Hv. pose proof (cancelled_le _ _ _ _ _ _ _ _ Hn Ho).
  destruct Ho as [_ _ _ _ (m & ops & Hm & Hops & ->)%put_cancellation_ok].
  frame s. right. split; [exact (ai_histories s Hinv) | done].
Qed.

Lemma AcknowledgeCancellation_change token bridge req c s' :
  AcknowledgeCancellation e token bridge req s = Ok (c, s') -> change s s'.
Proof using Hinv.
  intros (i & _ & _ & _ & _ & _ & [(_ & _ & _ & _ & ->) | (Hn & Ho)])%AcknowledgeCancellation_ok;
    [by apply change_refl, Hv |].
  pose proof Hv. pose proof (acknowledged_le _ _ _ _ _ _ _ Hn Ho).
  destruct Ho as [_ _ _ (m & ops & Hm & Hops & ->)%put_cancellation_ok].
  frame s. right. split; [exact (ai_histories s Hinv) | done].
Qed.

Lemma ConfigureRecovery_change owner p x s' :
  ConfigureRecovery owner p s = Ok (x, s') -> change s s'.
Proof using Hinv.
  intros (_ & _ & [-> | (h & c & rs & Hh & Hc & ->)])%ConfigureRecovery_ok;
    [by apply change_refl, Hv |]. pose proof Hv. frame s. right. by split.
Qed.

Lemma recovered_reservations req l r s' : recovered e req l s r s' -> reservation_inv s'.
Proof using Hinv.
  intros Ho. pose proof (recovered_inv_le _ _ _ _ _ _ (ai_leases s Hinv) Ho) as [_ [Hfence _]].
  destruct Ho as [_ (_ & Hid & _ & _ & _ & Hcase)%recoveryTarget_ok _ _ _ (rs & ops & ls & Hrs & Hops & Hls & ->)].
  apply reservations_kept; [done | done | |].
  - intros k x Hx. unfold recoveries at 1. simpl. rewrite (mget_mset _ _ _ _ _ Hrs). case_decide; [by eexists | by exists x].
  - simpl. intros k q Hq. destruct (String.eqb_spec (RT_Kind (RQ_Target req)) "lease") as [E | E]; [| subst ls; left; by eexists].
    destruct Hcase as [[? _] | (_ & Hl & _)]; [congruence |]. destruct (inv_key _ (ai_leases s Hinv) _ _ Hl) as [El _].
    rewrite (mget_mset _ _ _ _ _ Hls) in Hq. left. case_decide as Ek; [| by eexists]. rewrite <- Ek, El. by eexists.
Qed.

Lemma Recover_change owner req r s' : Recover e owner req s = Ok (r, s') -> change s s'.
Proof using Hinv.
  intros (_ & _ & [(_ & _ & ->) | (Hn & l & Ho)])%Recover_ok; [by apply change_refl, Hv |].
  pose proof Hv. pose proof (recovered_le _ _ _ _ _ _ Hn Ho).
  pose proof (recovered_inv_le _ _ _ _ _ _ (ai_leases s Hinv) Ho).
  assert (reservation_inv s') as Hrv by (by eapply recovered_reservations).
  destruct Ho as [_ _ _ _ _ (rs & ops & ls & Hrs & Hops & Hls & ->)].
  assert (is_nil ls = is_nil (Leases s)) as Hnil.
  { destruct (_ =? "lease")%string; [by eapply is_nil_mset_eq | by subst ls]. }
  frame s; [| right; tauto | by right..].
  apply (valid_shape s); [| exact (v_binding s Hv) | done].
  unfold shape. simpl. rewrite Hnil. unfold recovery_nils. simpl.
  by rewrite (is_nil_mset_eq _ _ _ _ Hrs), (is_nil_mset_eq _ _ _ _ Hops).
Qed.

Lemma PublishAttemptRevision_change token session req rev s' :
  PublishAttemptRevision e token session req s = Ok (rev, s') -> change s s'.
Proof using Hinv.
  intros (r & a & _ & _ & [[_ ->] | Hp])%PublishAttemptRevision_ok; [by apply change_refl, Hv |].
  pose proof Hv. destruct (published_ok _ _ _ _ _ _ _ _ (ai_revisions s Hinv) Hp) as (? & ? & ?).
  destruct Hp as [_ _ _ _ _ _ (m & ops & Hm & Hops & ->)].
  frame s; by right.
Qed.

Lemma GrantVerification_change owner runner task repository check expires g s' :
  GrantVerification e owner runner task repository check expires s = Ok (g, s') -> change s s'.
Proof using Hinv Hf.
  intros H. pose proof Hv.
  pose proof (GrantVerification_inv_le _ _ _ _ _ _ _ _ _ _ (f_evidence _ _ Hf) (ai_evidence s Hinv) H).
  apply GrantVerification_ok in H as (_ & _ & _ & _ & _ & (m & Hm & ->)%put_grant_ok).
  frame s. by right.
Qed.

Lemma RevokeVerification_change owner id x s' :
  RevokeVerification owner id s = Ok (x, s') -> change s s'.
Proof using Hinv.
  intros H. pose proof Hv. pose proof (RevokeVerification_inv_le _ _ _ _ _ (ai_evidence s Hinv) H).
  unfold RevokeVerification in H. apply bind_ok in H as (? & _ & H). apply bind_ok in H as (g & _ & H).
  apply bind_ok in H as (s1 & (m & Hm & ->)%put_grant_ok & [= _ <-]). frame s. by right.
Qed.

(** The new receipt of the verification protocol and of the reviews carry no
    checkpoint binding below schema 12. *)
Lemma old_binding key op : mget (Operations s) key = Some op -> Version s < 12 ->
  op_CheckpointVerification op = None.
Proof using Hinv. intros ? ?. by eapply (v_binding s Hv). Qed.

Lemma SubmitEvidence_change token session req ev s' :
  SubmitEvidence e token session req s = Ok (ev, s') -> change s s'.
Proof using Hinv Hf.
  intros H. pose proof Hv.
  pose proof (SubmitEvidence_inv_le _ _ _ _ _ _ _ (f_evidence _ _ Hf) (ai_evidence s Hinv) H).
  apply SubmitEvidence_ok in H as (r & a & _ & [[_ ->] | (Hn & rev & s1 & _ & _ & _ & Hid & Hev & Hput & Hop)]);
    [by apply change_refl |].
  apply put_evidence_ok in Hput as (m & Hm & ->). apply put_operation_ok in Hop as (ops & Hops & ->).
  simpl in Hops. destruct_and?. frame s; by right.
Qed.

Lemma CompleteVerification_change worker token runner req result ev s' :
  CompleteVerification e worker token runner req result s = Ok (ev, s') -> change s s'.
Proof using Hinv Hf.
  intros H. pose proof Hv.
  pose proof (CompleteVerification_inv_le _ _ _ _ _ _ _ _ _ (ai_sessions s Hinv) (f_evidence _ _ Hf)
                (ai_evidence s Hinv) H).
  apply CompleteVerification_ok in H as (a & g & op & _ & _ & Hop & _ & [(_ & _ & ->) | Hcase]);
    [by apply change_refl |].
  destruct Hcase as (_ & _ & rev & op' & s1 & _ & _ & _ & _ & _ & _ & _ & _ & _ & Hc & _ & Hput & Hop').
  apply put_evidence_ok in Hput as (m & Hm & ->). apply put_operation_ok in Hop' as (ops & Hops & ->).
  simpl in Hops. destruct_and?. frame s; try by right.
  apply (valid_shape s); [same_shape | | done].
  eapply (bindings_put s); [done | exact Hops | | exact (v_binding s Hv)].
  rewrite Hc. by apply old_binding with (VR_OperationKey req).
Qed.

Lemma BeginVerification_change worker token runner req descriptor x s' :
  BeginVerification e worker token runner req descriptor s = Ok (x, s') -> change s s'.
Proof using Hinv.
  intros H. pose proof Hv. pose proof (BeginVerification_le _ _ _ _ _ _ _ _ _ H).
  apply BeginVerification_ok in H as (a & _ & _ & _ & [(op & ev & _ & _ & _ & _ & ->) | Hcase]);
    [by apply change_refl |].
  destruct Hcase as (_ & rev & op & _ & _ & _ & _ & _ & _ & _ & _ & Hc & (ops & Hops & ->)%put_operation_ok).
  frame s; try by right. apply (valid_shape s); [same_shape | | done].
  eapply (bindings_put s); [done | exact Hops | | exact (v_binding s Hv)].
  rewrite Hc. by intros ->%Z.leb_gt.
Qed.

Lemma InterruptVerification_change worker token runner req descriptor reason x s' :
  InterruptVerification e worker token runner req descriptor reason s = Ok (x, s') -> change s s'.
Proof using Hinv.
  intros H. pose proof Hv. pose proof (InterruptVerification_le _ _ _ _ _ _ _ _ _ _ H).
  apply InterruptVerification_ok in H as (op & Hop & _ & _ & [(_ & _ & ->) | Hcase]);
    [by apply change_refl |].
  destruct Hcase as (_ & op' & _ & _ & _ & Hc & _ & (ops & Hops & ->)%put_operation_ok).
  frame s; try by right. apply (valid_shape s); [same_shape | | done].
  eapply (bindings_put s); [done | exact Hops | | exact (v_binding s Hv)].
  rewrite Hc. by apply old_binding with (VR_OperationKey req).
Qed.

Lemma GrantReview_change owner req g s' :
  GrantReview au e owner req s = Ok (g, s') -> change s s'.
Proof using Hinv.
  intros (_ & _ & _ & _ & (m & Hm & ->)%put_review_grant_ok)%GrantReview_ok. pose proof Hv.
  frame s.
Qed.

Lemma RevokeReview_change owner id x s' : RevokeReview owner id s = Ok (x, s') -> change s s'.
Proof using Hinv.
  unfold RevokeReview. intros H. apply bind_ok in H as (? & _ & H). apply bind_ok in H as (g & _ & H).
  apply bind_ok in H as (s1 & (m & Hm & ->)%put_review_grant_ok & [= _ <-]). pose proof Hv. frame s.
Qed.

Lemma ProposeReview_change token session req x s' :
  ProposeReview au e token session req s = Ok (x, s') -> change s s'.
Proof using Hinv Hf.
  intros (r & a & _ & _ & _ & _ & [[_ ->] | (Hn & rev & obs & s1 & _ & Hid & _ & Hput & Hop)])%ProposeReview_ok;
    [by apply change_refl, Hv |].
  apply put_review_ok in Hput as (m & Hm & ->). apply put_operation_ok in Hop as (ops & Hops & ->).
  simpl in Hops. pose proof Hv. frame s; right.
  - by eapply operation_le_new.
  - intros k q Hk. rewrite (mget_mset_ne _ _ _ _ _ Hm); [done |].
    pose proof (f_review _ _ Hf _ Hid). congruence.
Qed.

Lemma SetPublicationPolicy_change owner req p s' :
  SetPublicationPolicy owner req s = Ok (p, s') -> change s s'.
Proof using Hinv.
  intros H. pose proof Hv. pose proof (SetPublicationPolicy_le _ _ _ _ _ H).
  apply SetPublicationPolicy_ok in H as (_ & _ & _ & _ & _ & m & Hm & ->). frame s. right.
  split; [| done]. by apply (publication_inv_same s), (ai_publication s Hinv).
Qed.

Lemma EvaluatePublication_change token session req d s' :
  EvaluatePublication au e token session req s = Ok (d, s') -> change s s'.
Proof using Hinv Hf.
  intros H. pose proof Hv.
  pose proof (EvaluatePublication_inv_le _ _ _ _ _ _ _ _ (f_decision _ _ Hf) (ai_publication s Hinv) H).
  apply EvaluatePublication_ok in H as (action & r & _ & _ & [[_ ->] | Hcase]);
    [by apply change_refl |].
  destruct Hcase as (_ & a & rev & p & s1 & _ & _ & _ & _ & _ & _ & Hput & Hop).
  apply put_decision_ok in Hput as (m & Hm & ->). apply put_operation_ok in Hop as (ops & Hops & ->).
  simpl in Hops. destruct_and?. frame s; by right.
Qed.

Lemma ConsumePublication_change owner req c s' :
  ConsumePublication e owner req s = Ok (c, s') -> change s s'.
Proof using Hinv.
  intros H. pose proof Hv.
  pose proof (ConsumePublication_inv_le _ _ _ _ _ _ (ai_publication s Hinv) H).
  apply ConsumePublication_ok in H as (action & _ & _ & [[_ ->] | Hcase]);
    [by apply change_refl |].
  destruct Hcase as (_ & d & a & s1 & _ & _ & _ & _ & _ & _ & _ & _ & _ & Hput & Hop).
  apply put_consumption_ok in Hput as (m & Hm & ->). apply put_operation_ok in Hop as (ops & Hops & ->).
  simpl in Hops. destruct_and?. frame s; by right.
Qed.

Lemma ConfigureNativePolicy_change owner p x s' :
  ConfigureNativePolicy e owner p s = Ok (x, s') -> change s s'.
Proof using Hinv.
  intros H. pose proof Hv. pose proof (ConfigureNativePolicy_inv_le _ _ _ _ _ _ (ai_acceptance s Hinv) H).
  apply ConfigureNativePolicy_ok in H as (_ & [[-> _] | (_ & H)]); [by apply change_refl |].
  unfold put_policy in H. apply bind_ok in H as (h & Hh & H). apply bind_ok in H as (m & Hm & H).
  injection H as <-. frame s. by right.
Qed.

Lemma EvaluateNativePolicy_change owner req prepare d s' :
  EvaluateNativePolicy au e owner req prepare s = Ok (d, s') -> change s s'.
Proof using Hinv.
  intros H. pose proof Hv.
  pose proof (EvaluateNativePolicy_inv_le _ _ _ _ _ _ _ _ (ai_acceptance s Hinv) H).
  apply EvaluateNativePolicy_ok in H as (_ & [[-> _] | (_ & _ & _ & _ & _ & _ & _ & _ & _ & H)]);
    [by apply change_refl |].
  unfold put_policy_decision in H. apply bind_ok in H as (m & Hm & H). injection H as <-.
  frame s. by right.
Qed.

Lemma ApproveNativePolicy_change owner req a s' :
  ApproveNativePolicy e owner req s = Ok (a, s') -> change s s'.
Proof using Hinv.
  intros H. pose proof Hv. pose proof (ApproveNativePolicy_inv_le _ _ _ _ _ _ (ai_acceptance s Hinv) H).
  apply ApproveNativePolicy_ok in H as (_ & d & _ & _ & _ & _ & [[-> _] | (_ & _ & _ & _ & _ & H)]);
    [by apply change_refl |].
  unfold put_approval in H. apply bind_ok in H as (m & Hm & H). injection H as <-.
  frame s. by right.
Qed.

Lemma begin_change owner req id prepare rec s' :
  BeginNativeAcceptanceWithPolicy au e owner req id prepare s = Ok (rec, s') -> change s s'.
Proof using Hinv.
  unfold BeginNativeAcceptanceWithPolicy. intros H. pose proof Hv.
  pose proof (begin_inv_le _ _ _ _ _ _ _ _ _ (ai_acceptance s Hinv) H).
  apply (beginNativeAcceptance_ok _ _ _ _ _ _ _ _ _ (ai_acceptance s Hinv)) in H
    as (_ & _ & _ & _ & [(-> & _) | (_ & _ & _ & _ & _ & _ & s1 & Hc & H)]); [by apply change_refl |].
  apply put_acceptance_ok in H as (ts & ops & Hts & Hops & ->).
  destruct Hc as [_ -> | d cs os _ _ _ _ _ _ _ Hcs Hos ->]; simpl in Hts, Hops; frame s; by right.
Qed.

Lemma Continue_change owner req inspect closeTask x s' :
  (ContinueNativeAcceptance au e owner req inspect closeTask s).2 = Ok (x, s') -> change s s'.
Proof using Hinv.
  destruct (ContinueNativeAcceptance _ _ _ _ _ _ _) as [calls y] eqn:H. simpl. intros ->. pose proof Hv.
  pose proof (Continue_inv_le _ _ _ _ _ _ _ _ _ _ (ai_acceptance s Hinv) H).
  apply ContinueNativeAcceptance_ok in H as (_ & _ & rec & f & g & _ & _ & _ & Hc).
  assert (s' = s \/ finish e s req rec = Ok (x, s')) as [-> | Hfin] by (destruct Hc; auto);
    [by apply change_refl |].
  unfold finish in Hfin. apply bind_ok in Hfin as (s1 & Hs1%record_outcome_ok & Hfin).
  apply bind_ok in Hfin as (s2 & (ts & ops & Hts & Hops & ->)%put_acceptance_ok & Hfin).
  injection Hfin as _ <-.
  destruct Hs1 as [-> | (d & os & _ & Hos & ->)]; simpl in Hts, Hops; frame s; by right.
Qed.

(** Below its schema a map group is nil. *)
Lemma nil_below {V} (m : gomap V) v nils :
  Version s < v -> group_ok s v nils -> In (is_nil m) nils -> m = None.
Proof using Type.
  intros Hlt Hok%group_ok_below Hin; [| done]. destruct m; [| done].
  rewrite existsb_not_elem in Hok. apply list_elem_of_In in Hin. by specialize (Hok _ Hin).
Qed.

Section migrations.
Context (m : migration) (owner : string) (u : unit) (s' : state).
Context (Hsrc : 6 <= source m) (H : run_migration m owner s = Ok (u, s')).

Lemma migrate_version : Version s = source m.
Proof using Hsrc H. revert Hsrc H. clear. intros Hsrc H. destruct m; simpl in *; try lia; unfold_migrations in H; by inv_ok. Qed.

Lemma migrate_keeps : keeps (source m) s s'.
Proof using Hsrc H. by eapply run_migration_ok, H; apply migrate_version. Qed.

Lemma migrate_groups : groups s s'.
Proof using Hsrc H. exact (run_migration_groups _ _ _ _ _ Hsrc H). Qed.

(** A map of the group of schema [v], before and after. *)
Lemma migrate_agree {G V} (get : state -> G) (f : G -> gomap V) v nils init :
  (v <= source m -> get s' = get s) -> get s' = get s \/ get s' = init -> f init = make_map ->
  group_ok s v nils -> In (is_nil (f (get s))) nils -> agree (f (get s)) (f (get s')).
Proof using Hsrc H.
  intros Hk Hnew Hi Hok Hin. destruct (decide (v <= source m)) as [Hm | Hm]; [by rewrite Hk |].
  assert (f (get s) = None) as E.
  { apply (nil_below _ v nils); [rewrite migrate_version; lia | done..]. }
  rewrite E. destruct Hnew as [-> | ->]; [by rewrite E | by rewrite Hi].
Qed.

Lemma migrate_swarm {V} (f : SwarmMaps -> gomap V) :
  f initializeSwarms = make_map -> In (is_nil (f (st_Swarm s))) (swarm_nils s) -> agree (f (st_Swarm s)) (f (st_Swarm s')).
Proof using Hinv Hsrc H.
  intros Hi Hin. exact (migrate_agree st_Swarm f 7 _ _ (k_swarm _ _ _ migrate_keeps) (g_swarm _ _ migrate_groups) Hi (v_swarm s Hv) Hin).
Qed.

Lemma migrate_intents : agree (intents s) (intents s') /\ agree (intent_operations s) (intent_operations s').
Proof using Hinv Hsrc H.
  assert (forall V (f : IntentMaps -> gomap V), f (mkIntentMaps make_map make_map) = make_map ->
    In (is_nil (f (st_Intents s))) (intent_nils s) -> agree (f (st_Intents s)) (f (st_Intents s'))) as Hi.
  { intros V f Hi Hin. exact (migrate_agree st_Intents f 8 _ _ (k_intents _ _ _ migrate_keeps) (g_intents _ _ migrate_groups) Hi (v_intent s Hv) Hin). }
  split; [apply (Hi _ DispatchIntents) | apply (Hi _ DispatchIntentOperations)]; simpl; tauto.
Qed.

Lemma migrate_acceptance : acceptance_agree s s'.
Proof using Hinv Hsrc H.
  assert (forall V (f : AcceptanceMaps -> gomap V), f (mkAcceptanceMaps make_map make_map) = make_map ->
    In (is_nil (f (st_Acceptance s))) (acceptance_nils s) -> agree (f (st_Acceptance s)) (f (st_Acceptance s'))) as Ha.
  { intros V f Hi Hin. exact (migrate_agree st_Acceptance f 14 _ _ (k_acceptance _ _ _ migrate_keeps) (g_acceptance _ _ migrate_groups) Hi (v_acceptance s Hv) Hin). }
  assert (forall V (f : NativePolicyMaps -> gomap V), f (mkNativePolicyMaps make_map make_map make_map make_map make_map make_map) = make_map ->
    In (is_nil (f (st_NativePolicy s))) (native_policy_nils s) -> agree (f (st_NativePolicy s)) (f (st_NativePolicy s'))) as Hp.
  { intros V f Hi Hin. exact (migrate_agree st_NativePolicy f 15 _ _ (k_policy _ _ _ migrate_keeps) (g_policy _ _ migrate_groups) Hi (v_native_policy s Hv) Hin). }
  split; first [apply (Ha _ TaskTerminals) | apply (Ha _ NativeAcceptanceOperations) | apply (Hp _ NativePolicyHistory)
    | apply (Hp _ NativePolicyDecisions) | apply (Hp _ NativePolicyApprovals) | apply (Hp _ NativePolicyConsumptions)
    | apply (Hp _ NativePolicyOutcomes)]; simpl; tauto.
Qed.

Lemma migrate_recoveries : agree (recoveries s) (recoveries s') /\ recovery_le s s'.
Proof using Hinv Hsrc H.
  assert (forall V (f : RecoveryMaps -> gomap V), f (mkRecoveryMaps make_map make_map make_map make_map) = make_map ->
    In (is_nil (f (st_Recovery s))) (recovery_nils s) -> agree (f (st_Recovery s)) (f (st_Recovery s'))) as Hr.
  { intros V f Hi Hin. exact (migrate_agree st_Recovery f 10 _ _ (k_recovery _ _ _ migrate_keeps) (g_recovery _ _ migrate_groups) Hi (v_recovery s Hv) Hin). }
  pose proof (Hr _ Recoveries eq_refl ltac:(simpl; tauto)) as H1.
  pose proof (Hr _ RecoveryOperations eq_refl ltac:(simpl; tauto)) as H2.
  split; [done |]. split; intros k r; [unfold recoveries; by rewrite (H1 k) | by rewrite (H2 k)].
Qed.

Lemma migrate_lifecycle : histories_ok s' /\ lifecycle_le s s'.
Proof using Hinv Hsrc H.
  assert (forall V (f : LifecycleMaps -> gomap V), f (mkLifecycleMaps make_map make_map make_map make_map make_map) = make_map ->
    In (is_nil (f (st_Lifecycle s))) (lifecycle_nils s) -> agree (f (st_Lifecycle s)) (f (st_Lifecycle s'))) as Hl.
  { intros V f Hi Hin. exact (migrate_agree st_Lifecycle f 9 _ _ (k_lifecycle _ _ _ migrate_keeps) (g_lifecycle _ _ migrate_groups) Hi (v_lifecycle s Hv) Hin). }
  pose proof (Hl _ LifecycleObservations eq_refl ltac:(simpl; tauto)) as Ho.
  pose proof (Hl _ LifecycleCancellations eq_refl ltac:(simpl; tauto)) as Hc.
  pose proof (Hl _ LifecycleOperations eq_refl ltac:(simpl; tauto)) as Hop.
  pose proof (Hl _ LifecyclePolicyHistory eq_refl ltac:(simpl; tauto)) as Hp.
  assert (forall d, history s' d = history s d) as Hh by (intros d; unfold history, observations; by rewrite (Ho d)).
  split; [intros d; rewrite Hh; apply Hinv |]. split.
  - intros d. by rewrite Hh.
  - intros d c E. exists c. unfold cancellations. by rewrite (Hc d).
  - intros k r. by rewrite Hop.
  - intros k v q. by rewrite Hp.
Qed.

Lemma migrate_preflight : preflight_le s s'.
Proof using Hinv Hsrc H.
  assert (forall V (f : PreflightMaps -> gomap V), f (mkPreflightMaps make_map make_map make_map make_map make_map) = make_map ->
    In (is_nil (f (st_Preflight s))) (preflight_nils s) -> agree (f (st_Preflight s)) (f (st_Preflight s'))) as Hp.
  { intros V f Hi Hin. exact (migrate_agree st_Preflight f 11 _ _ (k_preflight _ _ _ migrate_keeps) (g_preflight _ _ migrate_groups) Hi (v_preflight s Hv) Hin). }
  split.
  - intros x y q. unfold mget2. by rewrite (Hp _ PreflightPolicyHistory eq_refl ltac:(simpl; tauto)).
  - intros x q. by rewrite (Hp _ CapacityOverrides eq_refl ltac:(simpl; tauto)).
  - intros x q. by rewrite (Hp _ PreflightOperations eq_refl ltac:(simpl; tauto)).
Qed.

Lemma migrate_checkpoints : checkpoint_inv s' /\ checkpoint_le s s'.
Proof using Hinv Hsrc H.
  assert (forall V (f : CheckpointMaps -> gomap V), f (mkCheckpointMaps make_map make_map make_map make_map) = make_map ->
    In (is_nil (f (st_Checkpoint s))) (checkpoint_nils s) -> agree (f (st_Checkpoint s)) (f (st_Checkpoint s'))) as Hc.
  { intros V f Hi Hin. exact (migrate_agree st_Checkpoint f 12 _ _ (k_checkpoint _ _ _ migrate_keeps) (g_checkpoint _ _ migrate_groups) Hi (v_checkpoint s Hv) Hin). }
  destruct (checkpoint_agree s s'); [apply (Hc _ Checkpoints) | apply (Hc _ CheckpointPolicies) | apply (Hc _ CheckpointPolicyHistory) |];
    simpl; try tauto. split; [apply H0, Hinv | done].
Qed.

Lemma migrate_budgets : budget_inv s' /\ budget_le s s'.
Proof using Hinv Hsrc H.
  assert (forall V (f : BudgetMaps -> gomap V), f (mkBudgetMaps make_map make_map make_map make_map) = make_map ->
    In (is_nil (f (st_Budget s))) (budget_nils s) -> agree (f (st_Budget s)) (f (st_Budget s'))) as Hb.
  { intros V f Hi Hin. exact (migrate_agree st_Budget f 13 _ _ (k_budget _ _ _ migrate_keeps) (g_budget _ _ migrate_groups) Hi (v_budget s Hv) Hin). }
  destruct (budget_keep s s'); [apply (Hb _ BudgetAllocations) | apply (Hb _ BudgetPolicyHistory) |]; simpl; try tauto.
  split; [apply H0, Hinv | done].
Qed.

Lemma migrate_integration : integration_agree s s'.
Proof using Hinv Hsrc H.
  assert (forall V (f : IntegrationMaps -> gomap V), f (mkIntegrationMaps make_map make_map make_map) = make_map ->
    In (is_nil (f (st_Integration s))) (integration_nils s) -> agree (f (st_Integration s)) (f (st_Integration s'))) as Hi.
  { intros V f Hi Hin. exact (migrate_agree st_Integration f 18 _ _ (k_integration _ _ _ migrate_keeps) (g_integration _ _ migrate_groups) Hi (v_integration s Hv) Hin). }
  split; [apply (Hi _ NativeIntegrationPolicies) | apply (Hi _ NativeIntegrationHistory) | apply (Hi _ NativeIntegrationOperations)];
    simpl; tauto.
Qed.

Lemma migrate_external : external_agree s s'.
Proof using Hinv Hsrc H.
  assert (forall V (f : ExternalMaps -> gomap V), f (mkExternalMaps make_map make_map make_map) = make_map ->
    In (is_nil (f (st_External s))) (external_nils s) -> agree (f (st_External s)) (f (st_External s'))) as He.
  { intros V f Hi Hin. exact (migrate_agree st_External f 19 _ _ (k_external _ _ _ migrate_keeps) (g_external _ _ migrate_groups) Hi (v_external s Hv) Hin). }
  split; [apply (He _ NativeExternalPolicies) | apply (He _ NativeExternalHistory) | apply (He _ NativeExternalOperations)];
    simpl; tauto.
Qed.

Lemma migrate_change : change s s'.
Proof using Hinv Hsrc H.
  pose proof (run_migration_valid _ _ _ _ _ migrate_version H Hv) as Hv'.
  destruct (run_migration_ok _ _ _ _ _ migrate_version H) as (_ & Ht & Hk).
  destruct migrate_recoveries.
  destruct (k_tasks _ _ _ Hk ltac:(lia)), (k_leases _ _ _ Hk ltac:(lia)) as (? & ? & ?),
    (k_evidence _ _ _ Hk ltac:(lia)) as (? & ? & ?), (k_reviews _ _ _ Hk ltac:(lia)),
    (k_publication _ _ _ Hk ltac:(lia)) as (? & ? & ?).
  pose proof (k_owner _ _ _ Hk). pose proof (k_binding _ _ _ Hk). pose proof (k_sessions _ _ _ Hk).
  split; try (by left); try (by right); try done.
  - rewrite Ht, migrate_version. unfold target. lia.
  - left. split_and!; [done.. | by apply (migrate_swarm Dispatches); simpl; auto | done].
  - right. apply migrate_lifecycle.
  - left. apply migrate_acceptance.
  - left. by apply (migrate_swarm Dispatches); simpl; auto.
  - left. split_and!; [by apply (migrate_swarm Dispatches); simpl; auto | apply migrate_intents..].
  - right. apply migrate_preflight.
  - right. apply migrate_checkpoints.
  - right. apply migrate_budgets.
  - left. apply migrate_integration.
  - left. apply migrate_external.
Qed.
End migrations.

End changes.
