(* ===== verification/LoopChanges.v ===== *)
(** * The scheduling and delivery operations as changes

    Policies, preflight, budgets, checkpoints, waves, handoffs, dispatch intents,
    local integration and external delivery: each operation, whatever it observes, is a [change] of Changes.v. *)

From S2P Require Import Prelude GoStd Disclosure State Session Schema Withdrawal Resources Attempts Leases Lifecycle Recovery Evidence Reviews Publication Encodings Scheduling Preflight PreflightLaws Budgets BudgetLaws Checkpoints CheckpointLaws Routing Swarms SwarmLaws Intents IntentLaws Acceptance Integration External Changes.
#[local] Open Scope Z_scope.

Section changes.
Context (s : state) (Hinv : authority_inv s).
#[local] Notation Hv := (ai_valid s Hinv).

(** A state of the same shape and with the same receipts. *)
Lemma still_valid s' : shape s' = shape s -> Operations s' = Operations s -> Version s' = Version s -> valid s'.
Proof using Hinv.
  intros Hs Ho Hver. apply (valid_shape s); [done | | exact Hv]. intros Hlt k op. rewrite Ho. apply (v_binding s Hv). lia.
Qed.

(** ** Preflight and budgets *)

Lemma preflight_is_change s' : preflight_change s s' -> change s s'.
Proof using Hinv.
  intros (E & N & L). assert (exists p, s' = s <| st_Preflight := p |>) as [p ->] by eauto. pose proof Hv.
  frame s; [| by right]. apply still_valid; [| done..]. unfold shape. by rewrite N.
Qed.

Lemma budget_is_change s' : budget_change s s' -> change s s'.
Proof using Hinv.
  intros (E & N & L). specialize (L (ai_budgets s Hinv)). assert (exists p, s' = s <| st_Budget := p |>) as [p ->] by eauto.
  pose proof Hv. frame s; [| by right]. apply still_valid; [| done..]. unfold shape. by rewrite N.
Qed.

(** ** The policies of a project *)

Lemma bind_tasks_le p bindings tasks tasks' :
  bind_tasks p bindings tasks = Ok tasks' ->
  is_nil tasks' = is_nil tasks /\ forall k b, mget tasks k = Some b -> mget tasks' k = Some b.
Proof using Type.
  revert tasks. induction bindings as [| b bindings IH]; intros tasks; simpl; [by intros [= <-] |].
  intros H. do 2 apply bind_ok in H as (? & _ & H). apply bind_ok in H as ([] & Hd & H). apply deny_if_ok in Hd.
  apply bind_ok in H as (m & Hm & H). apply IH in H as [N L]. split; [by rewrite N, (is_nil_mset_eq _ _ _ _ Hm) |].
  intros k y Hy. apply L. rewrite (mget_mset _ _ _ _ _ Hm). case_decide as E; [| done]. subst k. rewrite Hy in Hd. apply negb_false_iff, bool_decide_eq_true in Hd. congruence.
Qed.

Lemma ConfigureSwarm_change owner p bindings x s' :
  ConfigureSwarmWithBindings owner p bindings s = Ok (x, s') -> change s s'.
Proof using Hinv.
  unfold ConfigureSwarmWithBindings. intros H. do 3 apply bind_ok in H as (? & _ & H).
  apply bind_ok in H as (tasks & Ht & H). do 2 apply bind_ok in H as (? & _ & H). apply bind_ok in H as (s1 & Hp & H). injection H as _ <-.
  unfold put_swarm_policy in Hp. apply bind_ok in Hp as (m1 & H1 & Hp). apply bind_ok in Hp as (m2 & H2 & Hp). injection Hp as <-.
  apply bind_tasks_le in Ht as [N L]. pose proof Hv. frame s.
  - apply still_valid; [| done..]. unfold shape, swarm_nils. simpl. unfold swarm_policies in H1. simpl in H1.
    by rewrite N, (is_nil_mset_eq _ _ _ _ H2), (is_nil_mset_eq _ _ _ _ H1).
  - right. split; simpl; [done |]. intros k b Hb. eauto.
Qed.

Lemma ConfigureNativeModelRouting_change e owner p x s' :
  ConfigureNativeModelRouting e owner p s = Ok (x, s') -> change s s'.
Proof using Hinv.
  unfold ConfigureNativeModelRouting. intros H. apply bind_ok in H as (? & _ & H). pose proof Hv.
  destruct (mget (ModelRoutingHistory _) _) as [old |].
  - apply bind_ok in H as (? & _ & H). injection H as _ <-. by apply change_refl.
  - apply bind_ok in H as (s1 & Hp & H). injection H as _ <-. unfold put_routing_policy in Hp.
    apply bind_ok in Hp as (h & H1 & Hp). apply bind_ok in Hp as (m & H2 & Hp). injection Hp as <-. frame s.
    apply still_valid; [| done..]. unfold shape, routing_nils. simpl. by rewrite (is_nil_mset_eq _ _ _ _ H1), (is_nil_mset_eq _ _ _ _ H2).
Qed.

(** ** Checkpoints *)

Lemma ConfigureCheckpoints_change e owner p s' : ConfigureCheckpoints e owner p s = Ok (tt, s') -> change s s'.
Proof using Hinv.
  intros (E & N & L)%ConfigureCheckpoints_inv_le; [| apply Hinv]. assert (exists c, s' = s <| st_Checkpoint := c |>) as [c ->] by eauto.
  pose proof Hv. frame s; [| by right]. apply still_valid; [| done..]. unfold shape. by rewrite N.
Qed.

Lemma bound_decides op op' : bound_operation op op' -> decides op op'.
Proof using Type.
  intros [-> | (Hp & Hn & b & ->)]; [by left |]. right. split_and!; [done | done | congruence | done].
Qed.

Lemma written_change r out s' : written s r out s' -> change s s'.
Proof using Hinv.
  intros Hw. pose proof (written_inv_le _ _ _ _ (ai_checkpoints s Hinv) Hw).
  destruct Hw as [E (N1 & N2 & N3) [P1 P2] _ Hops (_ & _ & _ & Hver)].
  assert (exists o c, s' = s <| Operations := o |> <| st_Checkpoint := c |>) as (o & c & ->) by eauto. simpl in *.
  pose proof Hv. frame s; [| | by right].
  - apply (valid_shape s); [| intros Hlt; simpl in Hlt; lia | done]. unfold shape, checkpoint_nils. simpl.
    unfold checkpoint_policies, checkpoints in *. simpl in *. by rewrite N1, N2, N3, P1, P2.
  - right. intros k op Hk. destruct (Hops _ _ Hk) as (op' & Hop' & B). exists op'. split; [done | by apply bound_decides].
Qed.

Lemma writeCheckpoint_change `{Reconciliation} e ad au token session r reconcile out s' :
  writeCheckpoint e ad au token session r reconcile s = Ok (out, s') -> change s s'.
Proof using Hinv.
  intros [-> | Hw]%written_ok; [by apply change_refl, Hv | by eapply written_change].
Qed.

(** ** Waves *)

Lemma reserves_intents ds s' : reserves_all s ds s' -> intent_inv s'.
Proof using Hinv.
  intros H. destruct (reserves_all_frame _ _ _ H) as [E _]. apply (intent_inv_keep s); [apply Hinv | intros k; by rewrite E |].
  intros k i d _ Hd. destruct (reserves_all_dispatches _ _ _ H) as (Hd1 & Hd2 & _). exists d. split; [| done].
  destruct (Hd1 k) as [(x & Hx & Hk & _) | [_ Hm]]; [| congruence]. destruct (Hd2 x Hx) as [Hn _]. congruence.
Qed.

Lemma ReserveWave_change `{Reconciliation} u e ad au token session req wave s' :
  fresh_draws e s -> ReserveWave u e ad au token session req s = Ok (wave, s') -> change s s'.
Proof using Hinv.
  intros Hd E. apply ReserveWave_ok in E as [(old & _ & _ & ->) | (Hnone & plan & s1 & digest & Hw & Hput)];
    [by apply change_refl, Hv | | apply Hinv | apply Hinv | done].
  destruct Hw as [_ _ _ (gate & i & j & Hg & Egate) (s0 & Hras & Hl0 & Hr0 & Es1)].
  apply consumed_inv_le in Hg as (Fg & Ng & Hck & Hckle); [| apply Hinv].
  pose proof (reserves_intents _ _ Hras) as Hint. destruct (reserves_all_keeps _ _ _ Hras) as (Hdle & N1 & N2 & N3 & Hb).
  destruct (Hb (ai_budgets s Hinv)) as [Hb1 Hb2]. destruct (reserves_all_frame _ _ _ Hras) as (F0 & Hf & _).
  unfold put_swarm_receipt in Hput. apply bind_ok in Hput as (m & Hm & Hput). injection Hput as <-.
  assert (exists f dm am sm, s0 = s <| Fence := f |> <| st_Swarm := (st_Swarm s) <| Dispatches := dm |> |>
         <| st_Budget := (st_Budget s) <| BudgetAllocations := am |> |>
         <| st_Routing := (st_Routing s) <| ModelRoutingSelections := sm |> |>) as (f & dm & am & sm & ->) by eauto 10.
  assert (exists cm, gate = s <| st_Checkpoint := (st_Checkpoint s) <| Checkpoints := cm |> |>) as [cm ->] by eauto.
  rewrite Egate in Es1. simpl in Es1. subst s1. unfold swarm_operations in Hm. simpl in *. pose proof Hv. frame s.
  - apply still_valid; [| done..]. unfold shape, swarm_nils, checkpoint_nils, budget_nils, routing_nils. simpl.
    unfold dispatches, allocations, selections, checkpoints in *. simpl in *.
    by rewrite N1, N2, N3, Ng, (is_nil_mset_eq _ _ _ _ Hm).
  - right. match goal with |- lease_inv ?x /\ _ /\ _ => assert (lease_inv x /\ reservation_inv x) as [? ?] by (by eapply tables_same; [.. | exact Hl0 | exact Hr0]) end.
    split_and!; [done | done |]. split; simpl; [lia |]. intros k l Hk. by exists l.
  - right. intros k d Hk. exact (Hdle k d Hk).
  - right. match goal with |- intent_inv ?x /\ _ => split; [apply (intent_inv_keep _ x Hint); [done | eauto] |] end.
    split; simpl; eauto using rtc_refl.
  - right. match goal with |- checkpoint_inv ?x /\ _ => eapply (checkpoint_agree _ x) in Hck as Hck'; [| done..] end. split; [done |].
    etrans; [exact Hckle |]. by apply checkpoint_agree.
  - right. match goal with |- budget_inv ?x /\ _ => eapply (budget_keep _ x) in Hb1 as Hb1'; [| done..] end. split; [done |].
    etrans; [exact Hb2 |]. by apply budget_keep.
Qed.

(** ** Handoffs *)

Lemma handed_dispatch_le worker req d a l s' : handed s worker req d a l s' -> dispatch_le s s'.
Proof using Hinv.
  intros [Hd Hret _ _ _ [_ _ Hds _ _ _ _]] k x Hx. destruct (rv_key _ (ai_reservations s Hinv) _ _ Hd) as [Hid _].
  rewrite Hds. case_decide as E; [| exists x; eauto]. rewrite <- E, Hid, Hd in Hx. injection Hx as <-.
  eexists. split; [done |]. right. apply reservationRetained_true in Hret as [Hc _]. split_and!; [done | done |]. unfold converted. by destruct d; simpl in *; subst.
Qed.

Lemma handed_shape worker req d a l s' : handed s worker req d a l s' -> shape s' = shape s.
Proof using Hinv.
  intros [_ _ _ _ _ [_ _ _ _ (N1 & N2 & N3) [dg Hop] E]]. apply is_nil_mset_eq in Hop as N4.
  assert (exists f lm dm om rm, s' = s <| Fence := f |> <| Leases := lm |>
     <| st_Swarm := (st_Swarm s) <| Dispatches := dm |> <| SwarmOperations := om |> |>
     <| st_Routing := (st_Routing s) <| ModelRoutingSelections := rm |> |>) as (f & lm & dm & om & rm & ->) by eauto 10.
  unfold dispatches, swarm_operations, selections in *. unfold shape, swarm_nils, routing_nils. simpl in *. by rewrite N1, N2, N3, N4.
Qed.

Lemma handed_change worker req d a l s' : mget (intents s) (HD_DispatchID req) = None ->
  handed s worker req d a l s' -> change s s'.
Proof using Hinv.
  intros Hn Hh. pose proof (handed_tables _ _ _ _ _ _ _ (ai_leases s Hinv) (ai_reservations s Hinv) Hh) as (_ & _ & _ & _ & _ & _ & _ & Hl & Hr & Hle).
  pose proof (handed_dispatch_le _ _ _ _ _ _ Hh) as Hdle. pose proof (handed_shape _ _ _ _ _ _ Hh) as Hsh.
  destruct (rv_key _ (ai_reservations s Hinv) _ _ (hd_dispatch _ _ _ _ _ _ _ Hh)) as [Hid _].
  assert (intent_inv s') as Hint.
  { destruct Hh as [_ _ _ _ _ [_ _ Hds _ _ _ E]]. apply (intent_inv_keep s); [apply Hinv | intros k; by rewrite E |].
    intros k i x Hi Hx. exists x. rewrite Hds, decide_False by congruence. done. }
  destruct Hh as [_ _ _ _ _ [_ _ _ _ _ _ E]]. pose proof Hv.
  assert (exists f lm sw rt, s' = s <| Fence := f |> <| Leases := lm |> <| st_Swarm := sw |> <| st_Routing := rt |>)
    as (f & lm & sw & rt & ->) by eauto 10.
  frame s; [by apply still_valid | by right; split_and! | by right |]. right. split; [done |]. split; simpl; eauto using rtc_refl.
Qed.

Lemma HandoffDispatch_change e ad au token worker req l s' :
  HandoffDispatch e ad au s token worker req = Ok (l, s') -> change s s'.
Proof using Hinv.
  unfold HandoffDispatch. intros E. apply bind_ok in E as ([] & Hi & E). apply deny_if_ok, mhas_false in Hi.
  apply run_ok in E as [k E]. apply handoffDispatch_ok in E as [(old & _ & _ & ->) | (_ & d & a & Hh)]; [by apply change_refl, Hv |].
  by eapply handed_change.
Qed.

(** ** Dispatch intents *)

(** Only the intents change. *)
Lemma intents_change s1 dispatch key digest i s' :
  shape s1 = shape s -> Operations s1 = Operations s -> Version s1 = Version s ->
  stores_intent s1 dispatch key digest i s' -> valid s'.
Proof using Hinv.
  intros Hsh Ho Hver [H1%is_nil_mset_eq H2%is_nil_mset_eq E].
  assert (exists im om, s' = s1 <| st_Intents := mkIntentMaps im om |>) as (im & om & ->) by eauto. simpl in *.
  apply still_valid; [| done..]. rewrite <- Hsh. unfold shape, intent_nils. simpl. unfold intents, intent_operations in *. simpl in *. by rewrite H1, H2.
Qed.

Lemma stored_change dispatch key digest i s' :
  stores_intent s dispatch key digest i s' -> intent_inv s' /\ intent_le s s' -> change s s'.
Proof using Hinv.
  intros Hs Hi. pose proof (intents_change s _ _ _ _ _ eq_refl eq_refl eq_refl Hs) as Hval. destruct Hs as [_ _ E].
  assert (exists im om, s' = s <| st_Intents := mkIntentMaps im om |>) as (im & om & ->) by eauto. pose proof Hv. frame s. by right.
Qed.

Lemma RequestDispatch_change e ad au token controller req r s' :
  RequestDispatch e ad au token controller req s = Ok (r, s') -> change s s'.
Proof using Hinv.
  intros E. apply run_ok in E as [k E]. do 2 skip_in E.
  apply requestDispatchIntentState_ok in E as (_ & [(old & _ & _ & ->) | (d & i & Hq & _)]);
    [by apply change_refl, Hv | | intros; by eapply rv_key, H; apply Hinv].
  pose proof (requested_inv_le _ _ _ _ _ _ (ai_intents s Hinv) (ai_reservations s Hinv) Hq).
  destruct (rq_state _ _ _ _ _ _ Hq) as [dg Hs]. by eapply stored_change.
Qed.

Lemma CorrelateDispatch_change e ad token bridge req i s' :
  CorrelateDispatch e ad token bridge req s = Ok (i, s') -> change s s'.
Proof using Hinv.
  intros [(old & _ & _ & ->) | (x & Hp)]%CorrelateDispatch_ok; [by apply change_refl, Hv |].
  destruct (reported_inv_le _ _ _ _ _ _ (ai_intents s Hinv) Hp) as (? & ? & _).
  destruct (rp_state _ _ _ _ _ _ Hp) as [_ [dg Hs]]. by eapply stored_change.
Qed.

Lemma AcknowledgeDispatch_change e ad au token worker req i s' :
  AcknowledgeDispatch e ad au token worker req s = Ok (i, s') -> change s s'.
Proof using Hinv.
  intros [(old & _ & _ & ->) | (x & l & s1 & Ha)]%AcknowledgeDispatch_ok; [by apply change_refl, Hv |].
  destruct (acknowledged_inv_le _ _ _ _ _ _ _ _ _ _ _ _ (ai_intents s Hinv) (ai_reservations s Hinv) Ha) as (Hi & Hle & _).
  destruct (ak_state _ _ _ _ _ _ _ _ _ _ _ _ Ha) as [_ [dg Hs]]. destruct (ak_handoff _ _ _ _ _ _ _ _ _ _ _ _ Ha) as (n & k & Hh).
  apply handoffDispatch_ok in Hh as [(old & _ & _ & ->) | (_ & d & a & Hh)]; [by eapply stored_change |].
  pose proof (handed_tables _ _ _ _ _ _ _ (ai_leases s Hinv) (ai_reservations s Hinv) Hh) as (_ & _ & _ & _ & _ & _ & _ & Hl & Hr & Hlle).
  pose proof (handed_dispatch_le _ _ _ _ _ _ Hh) as Hdle. pose proof (handed_shape _ _ _ _ _ _ Hh) as Hsh.
  destruct (tables_same s1 s') as [Hl' Hr']; [by apply (stores_same _ _ _ _ _ _ Hs).. | done | done |].
  destruct Hh as [_ _ _ _ _ [_ _ _ _ _ _ E]].
  assert (exists f lm sw rt, s1 = s <| Fence := f |> <| Leases := lm |> <| st_Swarm := sw |> <| st_Routing := rt |>)
    as (f & lm & sw & rt & ->) by eauto 10.
  pose proof (intents_change _ _ _ _ _ _ Hsh eq_refl eq_refl Hs) as Hval. destruct Hs as [_ _ E'].
  assert (exists im om, s' = s <| Fence := f |> <| Leases := lm |> <| st_Swarm := sw |> <| st_Routing := rt |> <| st_Intents := mkIntentMaps im om |>)
    as (im & om & ->) by eauto 10.
  pose proof Hv. frame s; by right.
Qed.
(** ** Deliveries *)

Lemma put_integration_change key rec s' :
  put_integration s key rec = Ok s' -> integration_inv s' /\ integration_le s s' -> change s s'.
Proof using Hinv.
  unfold put_integration. intros H Hil. apply bind_ok in H as (m & Hm & [= <-]). unfold integrations in Hm. pose proof Hv.
  frame s. by right.
Qed.

Lemma ConfigureNativeIntegration_change e owner p x s' :
  ConfigureNativeIntegration e owner p s = Ok (x, s') -> change s s'.
Proof using Hinv.
  intros H. pose proof (ConfigureNativeIntegration_inv_le _ _ _ _ _ _ H (ai_integration s Hinv)).
  apply ConfigureNativeIntegration_ok in H as (_ & [[_ ->] | (_ & _ & H)]); [by apply change_refl, Hv |].
  unfold put_integration_policy, integration_history, integration_policies in H. apply bind_ok in H as (h & Hh & H).
  apply bind_ok in H as (m & Hm & [= <-]). pose proof Hv. frame s. by right.
Qed.

Lemma beginNativeIntegration_change au e owner r inspect x s' :
  beginNativeIntegration au e owner r inspect s = Ok (x, s') -> change s s'.
Proof using Hinv.
  destruct x as [rec fresh]. intros H. pose proof (begin_integration_inv_le _ _ _ _ _ _ _ _ _ H (ai_integration s Hinv)).
  apply beginNativeIntegration_ok in H as (_ & f & _ & [(_ & -> & _) | (_ & _ & H)]); [by apply change_refl, Hv |].
  by eapply put_integration_change.
Qed.

Lemma continueNativeIntegration_change au e owner r inspect effect fresh x s' :
  (continueNativeIntegration au e owner r inspect effect fresh s).2 = Ok (x, s') -> change s s'.
Proof using Hinv.
  destruct (continueNativeIntegration _ _ _ _ _ _ _ _) as [calls y] eqn:H. simpl. intros ->.
  pose proof (continue_integration_inv_le _ _ _ _ _ _ _ _ _ _ _ H (ai_integration s Hinv)).
  apply continueNativeIntegration_ok in H as (rec & f & _ & _ & Hc).
  destruct Hc as [| calls obs s' _ _ _ Hput]; [by apply change_refl, Hv | by eapply put_integration_change].
Qed.

Lemma put_external_change key r s' :
  put_external s key r = Ok s' -> external_inv s' /\ external_le s s' -> change s s'.
Proof using Hinv.
  unfold put_external. intros H Hil. apply bind_ok in H as (m & Hm & [= <-]). unfold externals in Hm. pose proof Hv.
  frame s. by right.
Qed.

Lemma ConfigureNativeExternal_change e owner p x s' :
  ConfigureNativeExternal e owner p s = Ok (x, s') -> change s s'.
Proof using Hinv.
  intros H. pose proof (ConfigureNativeExternal_inv_le _ _ _ _ _ _ H (ai_external s Hinv)).
  apply ConfigureNativeExternal_ok in H as (_ & [[_ ->] | (_ & _ & H)]); [by apply change_refl, Hv |].
  unfold put_external_policy, external_history, external_policies in H. apply bind_ok in H as (h & Hh & H).
  apply bind_ok in H as (m & Hm & [= <-]). pose proof Hv. frame s. by right.
Qed.

Lemma beginNativeExternal_change au e owner input inspect effect x s' :
  beginNativeExternal au e owner input inspect effect s = Ok (x, s') -> change s s'.
Proof using Hinv.
  intros H. pose proof (begin_external_inv_le _ _ _ _ _ _ _ _ _ H (ai_external s Hinv)).
  apply beginNativeExternal_ok in H as (_ & f & _ & [(_ & -> & _) | (_ & r & _ & H)]); [by apply change_refl, Hv |].
  by eapply put_external_change.
Qed.

Lemma continueNativeExternal_change au e owner input inspect effect fresh x s' :
  (continueNativeExternal au e owner input inspect effect fresh s).2 = Ok (x, s') -> change s s'.
Proof using Hinv.
  destruct (continueNativeExternal _ _ _ _ _ _ _ _) as [calls y] eqn:H. simpl. intros ->.
  pose proof (continue_external_inv_le _ _ _ _ _ _ _ _ _ _ _ H (ai_external s Hinv)).
  apply continueNativeExternal_ok in H as (r & f & obs & _ & _ & _ & _ & Hput & _). by eapply put_external_change.
Qed.
End changes.
