(* ===== verification/Safety.v ===== *)
(** * The authority as a transition system

    Every writing operation of the governance authority modelled by the other
    files is a [command]; [run] is the closure the operation hands to
    [transaction].  [authority_inv] joins the invariants of the components and
    [authority_le] their histories: what no operation ever takes back. *)

From S2P Require Import Prelude Floats GoStd Text Runes Team Strategy Disclosure State Session Schema Withdrawal Resources Attempts Leases Lifecycle Recovery Evidence Reviews Publication Encodings Scheduling Preflight PreflightLaws Budgets BudgetLaws Checkpoints CheckpointLaws Routing Swarms SwarmLaws Intents IntentLaws Acceptance Integration External Changes LoopChanges.
#[local] Open Scope Z_scope.

(** ** Commands *)

Inductive command :=
  | CEnroll (owner : string) (scope : Scope) (expires : time)
  | CDelegate (token parent : string) (scope : Scope) (expires : time)
  | CRevoke (owner id : string)
  | CBindTask (owner : string) (b : TaskBinding)
  | CRegisterAttempt (earlier : state) (token session : string) (req : AttemptRequest)
  | CAcquireLease (token session : string) (req : AcquireLeaseRequest)
  | CRenewLease (token session : string) (req : RenewLeaseRequest)
  | CReleaseLease (token session : string) (req : ReleaseLeaseRequest)
  | CConfigureLifecycle (owner : string) (p : LifecyclePolicy)
  | CObserveLifecycle (token bridge : string) (req : ObserveLifecycleRequest)
  | CCancelLifecycle (token controller : string) (req : CancelLifecycleRequest)
  | CAcknowledgeCancellation (token bridge : string) (req : AcknowledgeCancellationRequest)
  | CConfigureRecovery (owner : string) (p : RecoveryPolicy)
  | CRecover (owner : string) (req : RecoveryRequest)
  | CPublishAttemptRevision (token session : string) (req : PublishRevisionRequest)
  | CGrantVerification (owner runner task repository : string) (check : CheckDescriptor) (expires : time)
  | CRevokeVerification (owner id : string)
  | CSubmitEvidence (token session : string) (req : EvidenceRequest)
  | CInterruptVerification (worker token runner : string) (req : VerificationRequest)
      (descriptor reason : string)
  | CBeginVerification (worker token runner : string) (req : VerificationRequest) (descriptor : string)
  | CCompleteVerification (worker token runner : string) (req : VerificationRequest)
      (res : VerificationResult)
  | CGrantReview (owner : string) (req : ReviewGrantRequest)
  | CRevokeReview (owner id : string)
  | CProposeReview (token session : string) (req : ReviewRequest)
  | CSetPublicationPolicy (owner : string) (req : SetPublicationPolicyRequest)
  | CEvaluatePublication (token session : string) (req : PublicationDecisionRequest)
  | CConsumePublication (owner : string) (req : ConsumePublicationRequest)
  | CConfigureNativePolicy (owner : string) (p : NativePolicy)
  | CEvaluateNativePolicy (owner : string) (req : NativePolicyEvaluationRequest) (prepare : preparation)
  | CApproveNativePolicy (owner : string) (req : NativePolicyApprovalRequest)
  | CBeginNativeAcceptance (owner : string) (req : NativeAcceptanceInput) (decision : string)
      (prepare : preparation)
  | CContinueNativeAcceptance (owner : string) (req : NativeAcceptanceInput)
      (inspect : option inspection) (closeTask : option closure)
  | CConfigureSwarm (owner : string) (p : SwarmPolicy) (bindings : list TaskBinding)
  | CConfigurePreflight (owner : string) (p : PreflightPolicy)
  | COverrideCapacity (ad : Adapters) (owner : string) (req : CapacityOverrideRequest)
  | CCheckPreflight (ad : Adapters) (token session project task key : string)
  | CConfigureBudget (owner : string) (p : BudgetPolicy)
  | CSettleBudget (token session : string) (req : BudgetSettleRequest)
  | CConfigureCheckpoints (owner : string) (p : CheckpointPolicy)
  | CRecordCheckpoint (rec : Reconciliation) (ad : Adapters) (token session : string) (req : CheckpointRequest)
  | CReconcileCheckpoint (rec : Reconciliation) (ad : Adapters) (token session : string) (req : CheckpointRequest)
  | CConfigureNativeModelRouting (owner : string) (p : NativeModelRoutingPolicy)
  | CReserveWave (rec : Reconciliation) (u : Unicode) (ad : Adapters) (token session : string) (req : ReserveWaveRequest)
  | CHandoffDispatch (ad : Adapters) (token worker : string) (req : HandoffDispatchRequest)
  | CRequestDispatch (ad : Adapters) (token controller : string) (req : RequestDispatchIntent)
  | CCorrelateDispatch (ad : Adapters) (token bridge : string) (req : CorrelateDispatchIntent)
  | CAcknowledgeDispatch (ad : Adapters) (token worker : string) (req : AcknowledgeDispatchIntent)
  | CConfigureIntegration (owner : string) (p : NativeIntegrationPolicy)
  | CBeginIntegration (owner : string) (req : NativeIntegrationInput) (inspect : option git_inspection)
  | CContinueIntegration (owner : string) (req : NativeIntegrationInput) (inspect : option git_inspection)
      (effect : option git_effect) (launchable : bool)
  | CConfigureExternal (owner : string) (p : NativeExternalPolicy)
  | CBeginExternal (owner : string) (req : NativeExternalInput) (inspect : option remote_inspection)
      (effect : option remote_effect)
  | CContinueExternal (owner : string) (req : NativeExternalInput) (inspect : option remote_inspection)
      (effect : option remote_effect) (launchable : bool)
  | CMigrate (m : migration) (owner : string).

(** The state a run commits. *)
Definition commit {A} (r : res (A * state)) : res state := '(_, s) ← r; Ok s.

Definition run (au : Authority) (e : Env) (c : command) (s : state) : res state :=
  match c with
  | CEnroll owner scope expires => commit (Enroll e owner scope expires s)
  | CDelegate token parent scope expires => commit (Delegate e token parent scope expires s)
  | CRevoke owner id => commit (Revoke owner id s)
  | CBindTask owner b => commit (BindTask owner b s)
  | CRegisterAttempt earlier token session req =>
    commit (RegisterAttempt e token session req earlier s)
  | CAcquireLease token session req => commit (AcquireLease e token session req s)
  | CRenewLease token session req => commit (RenewLease e token session req s)
  | CReleaseLease token session req => commit (ReleaseLease e token session req s)
  | CConfigureLifecycle owner p => commit (ConfigureLifecycle owner p s)
  | CObserveLifecycle token bridge req => commit (ObserveLifecycle e token bridge req s)
  | CCancelLifecycle token controller req => commit (CancelLifecycle e token controller req s)
  | CAcknowledgeCancellation token bridge req =>
    commit (AcknowledgeCancellation e token bridge req s)
  | CConfigureRecovery owner p => commit (ConfigureRecovery owner p s)
  | CRecover owner req => commit (Recover e owner req s)
  | CPublishAttemptRevision token session req => commit (PublishAttemptRevision e token session req s)
  | CGrantVerification owner runner task repository check expires =>
    commit (GrantVerification e owner runner task repository check expires s)
  | CRevokeVerification owner id => commit (RevokeVerification owner id s)
  | CSubmitEvidence token session req => commit (SubmitEvidence e token session req s)
  | CInterruptVerification worker token runner req descriptor reason =>
    commit (InterruptVerification e worker token runner req descriptor reason s)
  | CBeginVerification worker token runner req descriptor =>
    commit (BeginVerification e worker token runner req descriptor s)
  | CCompleteVerification worker token runner req result =>
    commit (CompleteVerification e worker token runner req result s)
  | CGrantReview owner req => commit (GrantReview au e owner req s)
  | CRevokeReview owner id => commit (RevokeReview owner id s)
  | CProposeReview token session req => commit (ProposeReview au e token session req s)
  | CSetPublicationPolicy owner req => commit (SetPublicationPolicy owner req s)
  | CEvaluatePublication token session req => commit (EvaluatePublication au e token session req s)
  | CConsumePublication owner req => commit (ConsumePublication e owner req s)
  | CConfigureNativePolicy owner p => commit (ConfigureNativePolicy e owner p s)
  | CEvaluateNativePolicy owner req prepare => commit (EvaluateNativePolicy au e owner req prepare s)
  | CApproveNativePolicy owner req => commit (ApproveNativePolicy e owner req s)
  | CBeginNativeAcceptance owner req decision prepare =>
    commit (BeginNativeAcceptanceWithPolicy au e owner req decision prepare s)
  | CContinueNativeAcceptance owner req inspect closeTask =>
    commit (ContinueNativeAcceptance au e owner req inspect closeTask s).2
  | CConfigureSwarm owner p bindings => commit (ConfigureSwarmWithBindings owner p bindings s)
  | CConfigurePreflight owner p => commit (ConfigurePreflight e owner p s)
  | COverrideCapacity ad owner req => commit (OverrideCapacity e ad au owner req s)
  | CCheckPreflight ad token session project task key => commit (CheckPreflight e ad au token session project task key s)
  | CConfigureBudget owner p => commit (ConfigureBudget e owner p s)
  | CSettleBudget token session req => commit (SettleBudget e token session req s)
  | CConfigureCheckpoints owner p => commit (ConfigureCheckpoints e owner p s)
  | CRecordCheckpoint rec ad token session req => commit (RecordCheckpoint e ad au token session req s)
  | CReconcileCheckpoint rec ad token session req => commit (ReconcileCheckpoint e ad au token session req s)
  | CConfigureNativeModelRouting owner p => commit (ConfigureNativeModelRouting e owner p s)
  | CReserveWave rec u ad token session req => commit (ReserveWave u e ad au token session req s)
  | CHandoffDispatch ad token worker req => commit (HandoffDispatch e ad au s token worker req)
  | CRequestDispatch ad token controller req => commit (RequestDispatch e ad au token controller req s)
  | CCorrelateDispatch ad token bridge req => commit (CorrelateDispatch e ad token bridge req s)
  | CAcknowledgeDispatch ad token worker req => commit (AcknowledgeDispatch e ad au token worker req s)
  | CConfigureIntegration owner p => commit (ConfigureNativeIntegration e owner p s)
  | CBeginIntegration owner req inspect => commit (beginNativeIntegration au e owner req inspect s)
  | CContinueIntegration owner req inspect effect launchable =>
    commit (continueNativeIntegration au e owner req inspect effect launchable s).2
  | CConfigureExternal owner p => commit (ConfigureNativeExternal e owner p s)
  | CBeginExternal owner req inspect effect => commit (beginNativeExternal au e owner req inspect effect s)
  | CContinueExternal owner req inspect effect launchable =>
    commit (continueNativeExternal au e owner req inspect effect launchable s).2
  | CMigrate m owner =>
    (* the migrations below schema 6 predate the components modelled here *)
    fail_if ErrStorage (source m <? 6);; commit (run_migration m owner s)
  end.

Lemma commit_ok {A} (r : res (A * state)) s : commit r = Ok s <-> exists x, r = Ok (x, s).
Proof. unfold commit. destruct r as [[x t] |]; simpl; naive_solver. Qed.

(** One committed operation, whoever performs it and whatever it observes. *)
Inductive step (au : Authority) (s s' : state) : Prop :=
  | step_run e c : fresh e s -> run au e c s = Ok s' -> step au s s'.

(** The states of an authority from its bootstrap on. *)
Inductive reachable (au : Authority) : state -> Prop :=
  | reach_init io e token s : 6 <= a_version au ->
      bootstrap au io e Absent = (Ok token, Stored s) -> reachable au s
  | reach_step s s' : reachable au s -> step au s s' -> reachable au s'.

(** ** Every command is a change *)

Section runs.
Context (au : Authority) (e : Env) (s : state) (Hinv : authority_inv s) (Hf : fresh e s).

Lemma run_change c s' : run au e c s = Ok s' -> change s s'.
Proof using Hinv Hf.
  destruct c; simpl; try (intros [x H]%commit_ok; revert H).
  - by apply issue_change.
  - by apply issue_change.
  - by apply Revoke_change.
  - by apply BindTask_change.
  - by apply RegisterAttempt_change.
  - by apply AcquireLease_change.
  - by apply changeLease_change.
  - by apply changeLease_change.
  - by apply ConfigureLifecycle_change.
  - by apply ObserveLifecycle_change.
  - by apply CancelLifecycle_change.
  - by apply AcknowledgeCancellation_change.
  - by apply ConfigureRecovery_change.
  - by apply Recover_change.
  - by apply PublishAttemptRevision_change.
  - by apply GrantVerification_change.
  - by apply RevokeVerification_change.
  - by apply SubmitEvidence_change.
  - by apply InterruptVerification_change.
  - by apply BeginVerification_change.
  - by apply CompleteVerification_change.
  - by apply GrantReview_change.
  - by apply RevokeReview_change.
  - by apply ProposeReview_change.
  - by apply SetPublicationPolicy_change.
  - by apply EvaluatePublication_change.
  - by apply ConsumePublication_change.
  - by apply ConfigureNativePolicy_change.
  - by apply EvaluateNativePolicy_change.
  - by apply ApproveNativePolicy_change.
  - by apply begin_change.
  - by apply Continue_change.
  - by apply ConfigureSwarm_change.
  - destruct x. intros H. by eapply preflight_is_change, ConfigurePreflight_change.
  - intros H. by eapply preflight_is_change, OverrideCapacity_change.
  - intros H. by eapply preflight_is_change, CheckPreflight_change.
  - destruct x. intros H. by eapply budget_is_change, ConfigureBudget_change.
  - intros H. by eapply budget_is_change, SettleBudget_change.
  - destruct x. by apply ConfigureCheckpoints_change.
  - by apply writeCheckpoint_change.
  - by apply writeCheckpoint_change.
  - by apply ConfigureNativeModelRouting_change.
  - apply ReserveWave_change; [done | apply (f_draws _ _ Hf)].
  - by apply HandoffDispatch_change.
  - by apply RequestDispatch_change.
  - by apply CorrelateDispatch_change.
  - by apply AcknowledgeDispatch_change.
  - by apply ConfigureNativeIntegration_change.
  - by apply beginNativeIntegration_change.
  - by apply continueNativeIntegration_change.
  - by apply ConfigureNativeExternal_change.
  - by apply beginNativeExternal_change.
  - by apply continueNativeExternal_change.
  - intros H. apply bind_ok in H as (? & Hs%fail_if_ok & [x H]%commit_ok). bool_facts.
    by eapply migrate_change.
Qed.
End runs.

Lemma step_inv au s s' : authority_inv s -> step au s s' -> authority_inv s'.
Proof. intros Hinv [e c Hf H]. by eapply change_inv, Hinv; eapply run_change. Qed.

Lemma step_le au s s' : authority_inv s -> step au s s' -> authority_le s s'.
Proof. intros Hinv [e c Hf H]. by eapply change_le, run_change. Qed.

Lemma steps_inv_le au s s' :
  authority_inv s -> rtc (step au) s s' -> authority_inv s' /\ authority_le s s'.
Proof.
  intros Hinv H. induction H as [s | s s1 s' H1 _ IH]; [done |].
  destruct IH as [? ?]; [by eapply step_inv |]. split; [done |].
  etrans; [by eapply step_le | done].
Qed.

(** The state a bootstrap leaves has nothing in it. *)
Lemma bootstrap_inv au io e token s :
  6 <= a_version au -> bootstrap au io e Absent = (Ok token, Stored s) -> authority_inv s.
Proof.
  intros Hver (_ & _ & [= ->] & (_ & _ & _ & _ & Hv)%decodeAuthorityState_ok)%bootstrap_ok.
  assert (Hnone : forall k, mget (dispatches ((initial_state au) <| OwnerHash := hash token |>)) k = None).
  { intros k. unfold dispatches, initial_state. simpl. by destruct (_ <=? _). }
  split; try done; try by split.
  - split; intros *; rewrite ?Hnone; done.
  - split; try done; intros *; by intros ?%elem_of_nil.
Qed.

Lemma reachable_authority_inv au s : reachable au s -> authority_inv s.
Proof. induction 1; [by eapply bootstrap_inv | by eapply step_inv]. Qed.

(** ** Properties *)

(** C1: Every state an authority can reach from its bootstrap, by any sequence
    of committed operations of any actors under any observations, is well
    formed: it can be read back at its schema, sessions attenuate, leases are
    exclusive and uniquely fenced, histories are numbered and ordered, evidence
    has its provenance and consumptions their decisions. *)
Theorem reachable_well_formed au s :
  reachable au s ->
  authority_inv s /\ exists u, validateAuthorityMaps s = Ok u.
Proof.
  intros H%reachable_authority_inv. split; [done |].
  exists tt. by apply validateAuthorityMaps_ok, H.
Qed.

(** C2: No sequence of operations rewrites history: from a reachable state on,
    the owner and the binding never change, sessions are never removed, widened
    or un-revoked, leases never dropped, re-fenced or revived, and observations,
    receipts, revisions, evidence, reviews and publications are only added to. *)
Theorem run_rewrites_nothing au s s' :
  reachable au s -> rtc (step au) s s' -> authority_le s s'.
Proof. intros H%reachable_authority_inv Hs. by eapply steps_inv_le. Qed.

(** C3: Mutual exclusion: in a reachable state two unreleased leases never
    overlap, none overlaps a retained dispatch reservation, and no two leases
    share a fence. *)
Theorem reachable_leases_exclusive au s k1 k2 l1 l2 :
  reachable au s -> mget (Leases s) k1 = Some l1 -> mget (Leases s) k2 = Some l2 -> k1 <> k2 ->
  Lease_Fence l1 <> Lease_Fence l2
  /\ (Lease_Released l1 = false -> Lease_Released l2 = false -> overlaps l1 l2 = false)
  /\ (forall k d, mget (dispatches s) k = Some d -> reservationRetained s d = true ->
        Lease_Released l1 = false -> overlaps l1 (DR_Reservation d) = false)
  /\ (forall ka kb a b, mget (dispatches s) ka = Some a -> mget (dispatches s) kb = Some b -> ka <> kb ->
        reservationRetained s a = true -> reservationRetained s b = true ->
        overlaps (DR_Reservation a) (DR_Reservation b) = false).
Proof.
  intros H%reachable_authority_inv H1 H2 Hne. destruct (ai_leases _ H) as [_ _ Hu He Hr]. split_and!.
  - intros E. by destruct Hne; eapply Hu.
  - by eapply He.
  - intros k d Hd Hret Hl. by eapply Hr.
  - apply (ai_reservations _ H).
Qed.

(** C9: A withdrawn worker stays locked out: whatever is committed after a task
    was closed, cancelled or recovered for a session, no session at or below it
    passes the lease authorisation for an attempt on that task - which acquire,
    renew, release, publish, evidence and verification requests all start with -
    and none of its leases is current. *)
Theorem withdrawn_locked_out au s s' session child task :
  reachable au s -> rtc (step au) s s' ->
  workerTaskWithdrawn s session task = true -> rtc (up s') child session ->
  (forall token attempt action t r a,
     leaseAuth s' token child attempt action t = Ok (r, a) -> at_task a <> task)
  /\ (forall l t, Lease_SessionID l = child -> Lease_TaskID l = task -> currentLease s' l t = false).
Proof.
  intros H%reachable_authority_inv Hs Hw%workerTaskWithdrawn_true Hup.
  destruct (steps_inv_le _ _ _ H Hs) as [_ Hle].
  pose proof (withdrawal_descendant _ _ _ _ Hup
    (withdrawal_mono _ _ _ _ (al_withdrawal _ _ Hle) Hw)) as Hd%workerTaskWithdrawn_true.
  split.
  - intros token attempt action t r a Ha E. subst task.
    apply leaseAuth_ok in Ha as (_ & _ & Hn & _). congruence.
  - intros l t <- <-. apply not_true_iff_false. rewrite currentLease_true. intros (_ & _ & Hn). 
    apply workerTaskWithdrawn_true in Hd. tauto.
Qed.

(** C10: Revocation is permanent and inherited: once a session is revoked, no
    sequence of operations makes it, or any session delegated at or below it,
    authenticate again. *)
Theorem revoked_locked_out au s s' id r child q token t :
  reachable au s -> rtc (step au) s s' ->
  mget (Sessions s) id = Some r -> r_Revoked r = true ->
  mget (Sessions s') child = Some q -> (exists r', ancestor s' q r' /\ r_ID r' = id) ->
  is_ok (authenticate s' token child t) = false.
Proof.
  intros H%reachable_authority_inv Hs Hr Hrev Hq (r' & Hanc & Hid).
  destruct (steps_inv_le _ _ _ H Hs) as [Hinv' Hle].
  destruct (al_sessions _ _ Hle _ _ Hr) as (r2 & Hr2 & _ & _ & _ & _ & _ & Hrev2).
  pose proof (ancestor_stored _ _ _ _ (ai_sessions _ Hinv') Hq Hanc) as Hst.
  rewrite Hid, Hr2 in Hst. injection Hst as <-.
  by erewrite revoked_ancestor_denied by eauto.
Qed.

(** C17: A task is accepted once: whatever is committed after a task got its
    terminal, the terminal is still there, at most turned from closing to closed;
    a later acceptance of the task commits nothing, whatever key, decision and
    preparation it comes with, and neither does a later policy evaluation. *)
Theorem accepted_once au s s' task rec :
  reachable au s -> rtc (step au) s s' -> mget (terminals s) task = Some rec ->
  (exists rec', mget (terminals s') task = Some rec' /\ record_le rec rec')
  /\ (forall e owner r id prepare x s2, NAI_TaskID r = task ->
        beginNativeAcceptance au e owner r id prepare s' = Ok (x, s2) -> s2 = s')
  /\ (forall e owner r prepare d s2, NAI_TaskID (NPE_Input r) = task ->
        EvaluateNativePolicy au e owner r prepare s' = Ok (d, s2) -> s2 = s').
Proof.
  intros H%reachable_authority_inv Hs Ht. destruct (steps_inv_le _ _ _ H Hs) as [Hinv' Hle].
  destruct (acl_terminals _ _ (al_acceptance _ _ Hle) _ _ Ht) as (rec' & Ht' & Hr).
  split_and!; [by exists rec' | |].
  - intros e owner r id prepare x s2 <- Hb. by eapply begin_again, Hb; [apply Hinv' |].
  - intros e owner r prepare d s2 <- Hb. by eapply evaluate_again, Hb.
Qed.

(** A policy decision is spent once: whatever is committed after a decision
    was consumed, the decision, its consumption and the acceptance it was consumed
    for are unchanged, no other decision is consumed for that acceptance, and an
    acceptance that names it commits nothing. *)
Theorem decision_spent_once au s s' id c :
  reachable au s -> rtc (step au) s s' -> mget (consumptions s) id = Some c ->
  mget (consumptions s') id = Some c
  /\ (exists d rec, mget (decisions s) id = Some d /\ mget (decisions s') id = Some d
        /\ NPC_OperationKey c = NAI_OperationKey (NPD_Input d)
        /\ mget (acceptances s') (NPC_OperationKey c) = Some rec
        /\ NAR_CanonicalOutcomeDigest rec = NPC_CanonicalOutcomeDigest c)
  /\ (forall id2 c2, mget (consumptions s') id2 = Some c2 ->
        NPC_OperationKey c2 = NPC_OperationKey c -> id2 = id)
  /\ (forall e owner r prepare x s2,
        beginNativeAcceptance au e owner r id prepare s' = Ok (x, s2) -> s2 = s').
Proof.
  intros H%reachable_authority_inv Hs Hc. destruct (steps_inv_le _ _ _ H Hs) as [Hinv' Hle].
  pose proof (al_acceptance _ _ Hle) as Hal. pose proof (acl_consumptions _ _ Hal _ _ Hc) as Hc'.
  split_and!; [done | | |].
  - destruct (ac_consumed _ (ai_acceptance _ H) _ _ Hc) as (_ & d & rec & Hd & Hk & Hr & _ & Ho).
    destruct (acl_records _ _ Hal _ _ Hr) as (rec' & Hr' & (_ & _ & Eo & _)%record_le_facts).
    exists d, rec'. split_and!; [done | by apply (acl_decisions _ _ Hal) | done | done | congruence].
  - intros id2 c2 H2 E. by eapply (ac_once _ (ai_acceptance _ Hinv')).
  - intros e owner r prepare x s2 Hb. eapply begin_consumed, Hb; [apply Hinv' | | done].
    destruct (decide (15 <= Version s')) as [| Hlt]; [done |].
    assert (consumptions s' = None) as E; [| by rewrite E in Hc'].
    apply (nil_below s' (consumptions s') 15 (native_policy_nils s')); [lia | | simpl; tauto].
    apply (v_native_policy _ (ai_valid _ Hinv')).
Qed.

(** C4: the host action of a dispatch is authorised once: whatever is committed after a
    request was authorised, no later request for the dispatch is, whoever makes it and
    under whatever key; its intent has only moved forward, by at most three steps, and
    the dispatch is handed off only once the intent is acknowledged *)
Theorem host_action_once au s e ad token controller req r s1 s2 :
  reachable au s -> fresh e s -> RequestDispatch e ad au token controller req s = Ok (r, s1) ->
  DIRs_HostActionAuthorized r = true -> rtc (step au) s1 s2 ->
  (exists j, mget (intents s2) (RDI_DispatchID req) = Some j /\ rtc intent_step (DIRs_Intent r) j
     /\ (forall n later, nsteps intent_step n (DIRs_Intent r) later -> (n <= 3)%nat)
     /\ (forall d, mget (dispatches s2) (RDI_DispatchID req) = Some d -> DR_Converted d = true -> DI_State j = "acknowledged"%string))
  /\ (forall e' ad' token' controller' req' r' s3, RDI_DispatchID req' = RDI_DispatchID req ->
        RequestDispatch e' ad' au token' controller' req' s2 = Ok (r', s3) -> DIRs_HostActionAuthorized r' = false /\ s3 = s2).
Proof.
  intros Hreach Hf E Ha Hs. pose proof (reachable_authority_inv _ _ Hreach) as Hinv.
  assert (step au s s1) as Hstep by (apply (step_run _ _ _ e (CRequestDispatch ad token controller req) Hf); simpl; by rewrite E).
  pose proof (step_inv _ _ _ Hinv Hstep) as Hinv1. destruct (steps_inv_le _ _ _ Hinv1 Hs) as [Hinv2 Hle].
  apply run_ok in E as [k E]. do 2 skip_in E.
  apply requestDispatchIntentState_ok in E as (_ & [(old & _ & -> & _) | (d & i & Hq & ->)]); [done | | intros; by eapply rv_key, H; apply Hinv].
  simpl. destruct Hq as [[Hd _] _ _ _ (id & t & Hi) [dg Hst]]. pose proof (rv_key _ (ai_reservations _ Hinv) _ _ Hd) as [Hid _].
  pose proof (stores_intents _ _ _ _ _ _ (DR_ID d) Hst) as Hm. rewrite decide_True, Hid in Hm by done.
  destruct (il_intents _ _ (al_intents _ _ Hle) _ _ Hm) as (j & Hj & Hrtc). split.
  - exists j. split_and!; [done | done | |].
    + intros n later Hn. pose proof (steps_bounded _ _ _ Hn). pose proof (stage_bounds (DI_State i)). pose proof (stage_bounds (DI_State later)). lia.
    + intros z Hz Hc. destruct (iv_dispatch _ (ai_intents _ Hinv2) _ _ Hj) as (y & Hy & _ & Hcy). apply Hcy. congruence.
  - intros e' ad' token' controller' req' r' s3 Hreq E. apply run_ok in E as [k' E]. do 2 skip_in E.
    apply requestDispatchIntentState_ok in E as (_ & [(old & _ & -> & ->) | (d' & i' & Hq & ->)]); [done | | intros; by eapply rv_key, H; apply Hinv2].
    destruct Hq as [[Hd' _] _ _ [Hn _] _ _]. pose proof (rv_key _ (ai_reservations _ Hinv2) _ _ Hd') as [Hid' _].
    rewrite Hreq in Hid'. congruence.
Qed.

(** C5: a dispatch is handed off once: whatever is committed after a reservation became
    a lease, it stays converted, to the same worker and attempt, its lease is still in
    the table under the fence it got, and no later handoff of it does more than repeat
    a stored answer *)
Theorem handed_off_once au s s' id d l :
  reachable au s -> rtc (step au) s s' -> mget (dispatches s) id = Some d -> DR_Converted d = true ->
  mget (Leases s) id = Some l ->
  mget (dispatches s') id = Some d
  /\ (exists l', mget (Leases s') id = Some l' /\ Lease_Fence l' = Lease_Fence l /\ Lease_SessionID l' = Lease_SessionID l)
  /\ (forall e ad token worker req l2 s2, HD_DispatchID req = id ->
        HandoffDispatch e ad au s' token worker req = Ok (l2, s2) -> s2 = s').
Proof.
  intros Hreach Hs Hd Hc Hl. pose proof (reachable_authority_inv _ _ Hreach) as Hinv.
  destruct (steps_inv_le _ _ _ Hinv Hs) as [Hinv' Hle]. destruct (al_dispatches _ _ Hle _ _ Hd) as (d' & Hd' & [-> | (Hn & _)]); [| congruence].
  destruct (al_leases _ _ Hle) as [_ Hll]. destruct (Hll _ _ Hl) as (l' & Hl' & Hsame & _). split_and!.
  - done.
  - exists l'. split; [done |]. by destruct Hsame as (? & ? & ? & ? & ? & ? & ? & ?).
  - intros e ad token worker req l2 s2 Hid E. apply bind_ok in E as (? & _ & E). apply run_ok in E as [k E].
    apply handoffDispatch_ok in E as [(old & _ & _ & ->) | (_ & y & a & Hh)]; [done |].
    pose proof (hd_dispatch _ _ _ _ _ _ _ Hh) as Hx. pose proof (hd_retained _ _ _ _ _ _ _ Hh) as Hr.
    rewrite Hid, Hd' in Hx. injection Hx as <-. apply reservationRetained_true in Hr as [? _]. congruence.
Qed.

(** C6: the waves of a project are bounded for good: in every reachable state a project
    has at most one checkpoint, its cycle counter is the number of waves that passed
    its gate, and that number is within the bound of the owner's current policy, at most
    1000; the history is only ever appended to *)
Theorem waves_within_bound au s s' id x :
  reachable au s -> rtc (step au) s s' -> x ∈ checkpoint_history s id ->
  checkpoint_history s id `prefix_of` checkpoint_history s' id
  /\ (forall other y, y ∈ checkpoint_history s' other -> CS_ProjectID y = CS_ProjectID x -> other = id)
  /\ cycle_of (checkpoint_history s' id) = waves (checkpoint_history s' id)
  /\ exists p, mget (checkpoint_policies s') (CS_ProjectID x) = Some p
       /\ waves (checkpoint_history s' id) <= CPol_MaxCycles p <= 1000.
Proof.
  intros Hreach Hs Hx. pose proof (reachable_authority_inv _ _ Hreach) as Hinv. destruct (steps_inv_le _ _ _ Hinv Hs) as [Hinv' Hle].
  pose proof (ai_checkpoints _ Hinv') as Hck. pose proof (cl_history _ _ (al_checkpoints _ _ Hle) id) as Hp.
  assert (x ∈ checkpoint_history s' id) as Hx' by (destruct Hp as [l ->]; apply elem_of_app; by left). split_and!.
  - done.
  - intros other y Hy E. by eapply ck_single.
  - apply (ck_counted _ Hck).
  - destruct (ck_bounded _ Hck _ _ Hx') as (p & Hp' & Hb). exists p. split; [done |]. destruct (ck_policy _ Hck _ _ Hp'). lia.
Qed.

(** C7: a policy revision integrates once: whatever is committed after a [begin]
    created a pending integration - the only kind of call whose continuation may
    touch Git - its record is still there, at most settled; no later [begin] for
    the task under this revision creates another, whoever asks and under whatever
    key; and while it is pending none does for the same target. *)
Theorem integrated_once au s e owner r inspect rec s1 s2 :
  reachable au s -> fresh e s -> beginNativeIntegration au e owner r inspect s = Ok ((rec, true), s1) ->
  rtc (step au) s1 s2 ->
  exists now_, mget (integrations s2) (NII_OperationKey r) = Some now_ /\ integration_record_le rec now_
  /\ forall e' owner' r' inspect' x new s3,
       beginNativeIntegration au e' owner' r' inspect' s2 = Ok ((x, new), s3) ->
       (NAI_TaskID (NII_Candidate r') = NAI_TaskID (NII_Candidate r) -> NII_PolicyRevision r' = NII_PolicyRevision r ->
          new = false /\ s3 = s2)
       /\ (NIR_State now_ = "pending"%string -> NIP_Repository (NIR_Policy x) = NIP_Repository (NIR_Policy rec) ->
             NIP_TargetRef (NIR_Policy x) = NIP_TargetRef (NIR_Policy rec) -> new = false /\ s3 = s2).
Proof.
  intros Hreach Hf E Hs. pose proof (reachable_authority_inv _ _ Hreach) as Hinv.
  assert (step au s s1) as Hstep by (apply (step_run _ _ _ e (CBeginIntegration owner r inspect) Hf); simpl; by rewrite E).
  pose proof (step_inv _ _ _ Hinv Hstep) as Hinv1. destruct (steps_inv_le _ _ _ Hinv1 Hs) as [Hinv2 Hle].
  apply beginNativeIntegration_ok in E as (_ & f & _ & [(Hc & _) | (_ & Hbg & Hput)]); [done |].
  apply put_integration_maps in Hput as (Er & _). pose proof (Er (NII_OperationKey r)) as Hk. rewrite decide_True in Hk by done.
  destruct (il_records _ _ (al_integration _ _ Hle) _ _ Hk) as (y & Hy & Hrec). exists y. split; [done |]. split; [done |].
  assert (NIR_Policy y = NIR_Policy rec /\ NIR_Input y = r) as [Epol Ein].
  { rewrite (bg_record _ _ _ _ _ _ Hbg) in Hrec |- *. destruct Hrec as [-> | (_ & _ & _ & _ & ? & ? & _)]; by split. }
  intros e' owner' r' inspect' x new s3 E.
  apply beginNativeIntegration_ok in E as (_ & f' & _ & [(-> & -> & _) | (-> & Hbg' & _)]); [done |].
  pose proof (bg_alone _ _ _ _ _ _ Hbg' _ _ Hy) as [H1 H2]%integration_conflict_None. split.
  - intros Et Ev. destruct (H1 ltac:(unfold candidate_task; congruence)).
    destruct (bg_matches _ _ _ _ _ _ Hbg) as [? _], (bg_matches _ _ _ _ _ _ Hbg') as [? _]. congruence.
  - intros Ep E1 E2. destruct H2; congruence.
Qed.

(** C8: a policy revision delivers each action once: whatever is committed after the
    transaction that created the record of a push or a pull request, the record is
    still there with the same input, policy and observation before, and no later
    [ApplyNativeExternal] for that task, revision and action creates another; while
    it is pending none does for the same branch of the same repository. *)
Theorem delivered_once au s e owner input inspect effect s1 s2 :
  reachable au s -> fresh e s -> beginNativeExternal au e owner input inspect effect s = Ok (true, s1) ->
  rtc (step au) s1 s2 ->
  exists r, mget (externals s2) (NEI_OperationKey input) = Some r /\ NER_Input r = input /\ validExternalRecord r = true
  /\ forall e' owner' input' inspect' effect' new s3,
       beginNativeExternal au e' owner' input' inspect' effect' s2 = Ok (new, s3) ->
       (NAI_TaskID (NEI_Candidate input') = NAI_TaskID (NEI_Candidate input) ->
          NEI_PolicyRevision input' = NEI_PolicyRevision input -> NEI_Action input' = NEI_Action input ->
          new = false /\ s3 = s2)
       /\ (forall p, mget (external_policies s2) (NAI_TaskID (NEI_Candidate input')) = Some p -> NER_State r = "pending"%string ->
             NEP_GitHubRepository p = NEP_GitHubRepository (NER_Policy r) ->
             NEP_SourceBranch p = NEP_SourceBranch (NER_Policy r) -> new = false /\ s3 = s2).
Proof.
  intros Hreach Hf E Hs. pose proof (reachable_authority_inv _ _ Hreach) as Hinv.
  assert (step au s s1) as Hstep by (apply (step_run _ _ _ e (CBeginExternal owner input inspect effect) Hf); simpl; by rewrite E).
  pose proof (step_inv _ _ _ Hinv Hstep) as Hinv1. destruct (steps_inv_le _ _ _ Hinv1 Hs) as [Hinv2 Hle].
  apply beginNativeExternal_ok in E as (_ & f & _ & [(Hc & _) | (_ & r0 & Hbg & Hput)]); [done |].
  apply put_external_maps in Hput as (Er & _). pose proof (Er (NEI_OperationKey input)) as Hk. rewrite decide_True in Hk by done.
  destruct (el_records _ _ (al_external _ _ Hle) _ _ Hk) as (r & Hr & [(_ & _ & Ein & Epol & _) _]). exists r.
  assert (NER_Input r = input) as Hin.
  { rewrite Ein. change (NER_Input (sealExternal r0)) with (NER_Input r0). by rewrite (eg_record _ _ _ _ _ _ Hbg). }
  pose proof (ei_bound _ (ai_external _ Hinv2) _ _ Hr) as [Hv _ _ _ _]. split; [done |]. split; [done |]. split; [done |].
  pose proof Hv as [[_ _ Hb] _]%validExternalRecord_ok. apply externalInputBound_task in Hb as (Et & Erev & _). rewrite Hin in Et, Erev.
  intros e' owner' input' inspect' effect' new s3 E.
  apply beginNativeExternal_ok in E as (_ & f' & _ & [(-> & -> & _) | (-> & x & Hbg' & _)]); [done |].
  pose proof (eg_alone _ _ _ _ _ _ Hbg' _ _ Hr) as [H1 H2]%external_conflict_None.
  destruct (eg_fields _ _ _ _ _ _ Hbg') as [_ _ Hb']. apply externalInputBound_task in Hb' as (Et' & Erev' & _).
  assert (NER_Input x = input') as Hin' by (by rewrite (eg_record _ _ _ _ _ _ Hbg')). rewrite Hin' in Et', Erev'. split.
  - intros E1 E2 E3. rewrite Hin in H1. destruct H1; congruence.
  - intros p Hp Est E1 E2. rewrite (eg_policy _ _ _ _ _ _ Hbg') in Hp. injection Hp as <-. destruct H2; congruence.
Qed.
