(* ===== verification/Scenario.v ===== *)
(** * A run of the authority

    One authority from its bootstrap to the recovery of a lease, with concrete
    actors, clocks, checkouts and adapters.  [trace] is evaluated: every
    command of it succeeds, so every state on the way is [reachable].  The
    witnesses instantiate the properties of the other files at its states. *)

From S2P Require Import Prelude GoStd Disclosure State Session Schema Withdrawal Resources Attempts Leases Lifecycle Recovery Evidence Reviews Publication SwarmLaws Changes Safety.
#[local] Open Scope Z_scope.

(** ** The world *)

Definition T0 : time := 63900000000000000000.
Definition expiry : time := T0 + 10000000000000.

(** What step [k] draws: a credential of 64 characters where a session is
    enrolled, a short identifier elsewhere. *)
Definition letter (k : nat) : string := String (ascii_of_nat (64 + k)) "".
Definition tok (k : nat) : string :=
  ("000000000000000000000000000000000000000000000000000000000000000" ++ letter k)%string.
Definition ident (k : nat) : string := ("id-" ++ letter k)%string.
Definition enrolls (k : nat) : bool := existsb (Nat.eqb k) [0; 1; 2; 3; 6; 17; 33; 34; 35; 40; 41; 42]%nat.

(** Every checkout shows the same commit of one repository. *)
Definition commit0 : string := "c0ffeec0ffeec0ffeec0ffeec0ffeec0ffeec0ff".
Definition tree0 : string := "7ee07ee07ee07ee07ee07ee07ee07ee07ee07ee0".
Definition checkout_at (path : string) : CheckoutObservation :=
  mkCheckout path "/srv/repo" commit0 tree0 T0.

Definition check0 : CheckDescriptor := mkCheckDescriptor "unit" "go test ./..." 60000000000 1 [] "" "" "" "" "".

Definition digest0 : string := ("sha256:" ++ hash "checklist")%string.

Definition review0 : ReviewObservation :=
  mkReviewObservation None digest0 "review-v1" [mkRequiredCheck "unit" (CheckDigest check0)].

(** The draws of a step: the credential and the identifier of a session, or up to
    [max_draws] identifiers. *)
Definition max_draws : nat := 150.
(** Two letters from a to p. *)
Definition suffix (i : nat) : string :=
  String (ascii_of_nat (97 + i / 16)) (String (ascii_of_nat (97 + i mod 16)) "").
Definition name_of (k i : nat) : string := if (i =? 0)%nat then ident k else (ident k ++ "." ++ suffix i)%string.
Definition draw (k i : nat) : res string :=
  if enrolls k then
    match i with O => Ok (tok k) | S O => Ok (ident k) | _ => Err ErrStorage end
  else if (i <? max_draws)%nat then Ok (name_of k i) else Err ErrStorage.

Definition env (k : nat) : Env := {|
  now i := T0 + 1000 * Z.of_nat k + Z.of_nat i;
  mint := draw k;
  observe _ path := Some (checkout_at path);
  observe_identity path := Some (checkout_at path);
  eval_symlinks := Some;
  lstat _ := LstatDir;
  admit_lease := Some (fun _ _ _ => true);
  review_observer := Some (fun _ _ _ _ => Some review0);
  required_observer := None
|}.

Definition au : Authority := mkAuthority "/srv/authority.json" (mkBinding "w1" "i1") 6.
Definition io : IO := mkIO true true (fun _ => true) PersistOk.

(** ** The actors and their requests *)

Definition owner := tok 0.
Definition worker := ident 1.
Definition worker_token := tok 1.
Definition runner := ident 2.
Definition runner_token := tok 2.
Definition reviewer := ident 3.
Definition reviewer_token := tok 3.
Definition helper := ident 6.
Definition helper_token := tok 6.
Definition second := ident 17.
Definition second_token := tok 17.

Definition worker_scope : Scope := mkScope
  ["attempt.register"; "lease.acquire"; "lease.renew"; "lease.release"; "attempt.publish";
   "evidence.submit"; "verification.request"; "publication.evaluate"]%string
  ["task:t1"; "path:src"; "repository:o/r"]%string.

Definition attempt_request : AttemptRequest := mkAttemptRequest "r1" "t1" "/srv/co" "host".
Definition attempt := ident 5.
Definition acquire_request : AcquireLeaseRequest :=
  mkAcquire "op-acquire" attempt [mkResource "path" "src"] expiry.
Definition lease := ident 7.
Definition second_lease := ident 20.
Definition release_request : ReleaseLeaseRequest := mkRelease "op-release" attempt lease 1.
Definition second_attempt_request : AttemptRequest := mkAttemptRequest "r2" "t2" "/srv/co2" "host".
Definition second_acquire_request : AcquireLeaseRequest :=
  mkAcquire "op-acquire-2" (ident 19) [mkResource "path" "doc"] expiry.
Definition publish_request : PublishRevisionRequest := mkPublishRevision "op-publish" attempt lease 1 0.
Definition revision := ident 8.
Definition grant := ident 9.
Definition verification : VerificationRequest :=
  mkVerificationRequest "op-verify" worker attempt lease revision "unit" grant 1.
Definition result0 : VerificationResult := mkVerificationResult commit0 tree0 "/srv/co"
  (CheckDigest check0) (OutputDigest "ok") (Some "ok"%string) 0 true.
Definition evidence := ident 11.
Definition review_grant_request : ReviewGrantRequest :=
  mkReviewGrantRequest reviewer worker "t1" "/srv/repo" expiry.
Definition review_request : ReviewRequest :=
  mkReviewRequest "op-review" (ident 12) attempt lease revision 1 "approve" "fine" [evidence].
Definition policy_request : SetPublicationPolicyRequest :=
  mkSetPolicy "t1" "o/r" "public" false false 0.
Definition action0 : PublicationAction :=
  mkPublicationAction IssueUpdate "o/r" "7" (hash "payload") ["title"; "summary"]%string.
Definition decision_request : PublicationDecisionRequest :=
  mkPublicationDecisionRequest "op-decide" attempt lease revision 1 expiry action0.
Definition decision := ident 15.
Definition consume_request : ConsumePublicationRequest := mkConsume "op-consume" decision action0.
Definition target0 : RecoveryTarget :=
  mkRecoveryTarget "w1" "lease" "t1" "" "" attempt lease worker worker "/srv/repo" "/srv/co" 1.
Definition recovery_request : RecoveryRequest :=
  mkRecoveryRequest "op-recover" target0 "owner-reconciliation" "host lost" "writer state unknown"
    "may lose work" "" 0 "".

(** ** The run *)

(** [earlier] of a registration is the state of its first transaction. *)
Definition trace : list (state -> command) :=
  [ fun _ => CEnroll owner worker_scope expiry;
    fun _ => CEnroll owner (mkScope ["verification.run"] ["task:t1"])%string expiry;
    fun _ => CEnroll owner (mkScope ["review.propose"; "review.evaluate"] ["task:t1"])%string expiry;
    fun _ => CBindTask owner (mkTaskBinding "t1" "p1" "/srv/repo" true);
    fun s => CRegisterAttempt s worker_token worker attempt_request;
    fun _ => CDelegate worker_token worker (mkScope ["attempt.register"] ["task:t1"])%string expiry;
    fun _ => CAcquireLease worker_token worker acquire_request;
    fun _ => CPublishAttemptRevision worker_token worker publish_request;
    fun _ => CGrantVerification owner runner "t1" "/srv/repo" check0 expiry;
    fun _ => CBeginVerification worker_token runner_token runner verification (CheckDigest check0);
    fun _ => CCompleteVerification worker_token runner_token runner verification result0;
    fun _ => CGrantReview owner review_grant_request;
    fun _ => CProposeReview reviewer_token reviewer review_request;
    fun _ => CSetPublicationPolicy owner policy_request;
    fun _ => CEvaluatePublication worker_token worker decision_request;
    fun _ => CConsumePublication owner consume_request;
    fun _ => CEnroll owner (mkScope ["attempt.register"; "lease.acquire"] ["task:t2"; "path:doc"])%string expiry;
    fun _ => CBindTask owner (mkTaskBinding "t2" "p1" "/srv/repo" true);
    fun s => CRegisterAttempt s second_token second second_attempt_request;
    fun _ => CAcquireLease second_token second second_acquire_request;
    fun _ => CMigrate MSwarms owner;
    fun _ => CMigrate MDispatchIntents owner;
    fun _ => CMigrate MLifecycle owner;
    fun _ => CMigrate MRecovery owner;
    fun _ => CRecover owner recovery_request;
    fun _ => CRevoke owner worker ]%string.

Definition start : state := (initial_state au) <| OwnerHash := hash owner |>.

Definition next (s : state) (k : nat) (c : state -> command) : state :=
  match run au (env k) (c s) s with Ok s' => s' | Err _ => s end.

Fixpoint run_from (k : nat) (s : state) (cs : list (state -> command)) : state :=
  match cs with [] => s | c :: cs => run_from (S k) (next s k c) cs end.

(** The state after the first [n] commands; the [k]-th command, from 1,
    observes [env k]. *)
Definition after (n : nat) : state := run_from 1 start (take n trace).

(** Freshness of what a step draws, decided. *)
Definition fresh_b (e : Env) (s : state) : bool :=
  (match mint e 1 with
   | Ok id => negb (id =? "")%string && negb (mhas (Sessions s) id)
   | Err _ => true
   end)
  && match mint e 0 with
     | Ok id => negb (mhas (Leases s) id) && negb (mhas (st_Evidence s) id)
                && negb (mhas (Grants s) id) && negb (mhas (PublicationDecisions s) id)
                && negb (mhas (Reviews s) id)
     | Err _ => true
     end
  && forallb (fun i => match mint e i with
                       | Ok id => negb (mhas (dispatches s) id) && negb (mhas (Leases s) id)
                       | Err _ => true end) (seq 0 max_draws).

(** A fact is about the state after a number of commands. *)
Definition fact : Type := nat * (state -> bool).

(** One evaluation of the run: every command succeeds, draws fresh values, and
    the facts hold where they are claimed. *)
Fixpoint check_run (facts : list fact) (n : nat) (s : state) (cs : list (state -> command)) : bool :=
  forallb (fun f => if (f.1 =? n)%nat then f.2 s else true) facts
  && match cs with
     | [] => true
     | c :: cs =>
       fresh_b (env (S n)) s
       && match run au (env (S n)) (c s) s with
          | Ok s' => check_run facts (S n) s' cs
          | Err _ => false
          end
     end.

Definition absent (key : string) (s : state) : bool := negb (mhas (Operations s) key).

Definition session_parent (id parent : string) (s : state) : bool :=
  match mget (Sessions s) id with Some r => (r_Parent r =? parent)%string | None => false end.

Definition session_revoked (id : string) (s : state) : bool :=
  match mget (Sessions s) id with Some r => r_Revoked r | None => false end.

(** The request of the worker's lease, repeated by other observations. *)
Definition facts : list fact := [
  (* 0 *) (6%nat, absent "op-acquire");
  (* 1 *) (7%nat, fun s => is_ok (AcquireLease (env 50) worker_token worker acquire_request s));
  (* 2 *) (7%nat, absent "op-publish");
  (* 3 *) (9%nat, absent "op-verify");
  (* 4 *) (11%nat, fun s => is_ok (BeginVerification (env 51) worker_token runner_token runner
                                     verification (CheckDigest check0) s));
  (* 5 *) (10%nat, fun s => match status s "op-verify" with RunPending => true | _ => false end);
  (* 6 *) (11%nat, fun s => match mget (Operations s) "op-verify" with
                            | Some op => negb (op_Pending op) | None => false end);
  (* 7 *) (12%nat, absent "op-review");
  (* 8 *) (13%nat, fun s => match EvaluateReview au (env 52) reviewer_token reviewer (ident 13) s with
                            | Ok x => RE_Eligible x | Err _ => false end);
  (* 9 *) (14%nat, absent "op-decide");
  (* 10 *) (15%nat, fun s => match mget (PublicationDecisions s) decision with
                             | Some d => bool_decide (As_Verdict (PD_Assessment d) = Allow)
                             | None => false end);
  (* 11 *) (15%nat, absent "op-consume");
  (* 12 *) (16%nat, fun s => mhas (PublicationConsumed s) decision);
  (* 13 *) (16%nat, fun s => is_ok (ConsumePublication (env 53) owner consume_request s));
  (* 14 *) (16%nat, fun s => is_ok (ReleaseLease (env 54) worker_token worker release_request s));
  (* 15 *) (20%nat, fun s => mhas (Leases s) lease && mhas (Leases s) second_lease);
  (* 16 *) (20%nat, fun s => match migrate MSwarms au io owner (Stored s) with
                             | (Ok _, Stored s') => (Version s =? 6) && (Version s' =? 7)
                             | _ => false end);
  (* 17 *) (24%nat, fun s => negb (mhas (RecoveryOperations (st_Recovery s)) "op-recover"));
  (* 18 *) (25%nat, fun s => mhas (recoveries s) (tombstone_key "lease" lease)
                             && is_ok (Recover (env 55) owner recovery_request s));
  (* 19 *) (25%nat, fun s => match mget (Leases s) lease with
                             | Some l => Lease_Released l | None => false end);
  (* 20 *) (25%nat, fun s => workerTaskWithdrawn s worker "t1");
  (* 21 *) (26%nat, session_parent helper worker);
  (* 22 *) (26%nat, session_revoked worker);
  (* 23 *) (6%nat, session_parent helper worker);
  (* 24 *) (6%nat, fun s => is_ok (Authorize au (env 56) helper_token helper "w1" "attempt.register"
                                     "task:t1" s));
  (* 25 *) (6%nat, fun s => is_ok (AcquireLease (env 7) worker_token worker acquire_request s))
  ].

Example run_checks : check_run facts 0 start trace = true.
Proof. vm_compute. reflexivity. Qed.

(** ** Using the evaluation *)

Ltac absences :=
  bool_facts; repeat match goal with H : mhas _ _ = false |- _ => apply mhas_false in H end; auto.

Lemma suffix_inj : forall i j, (i < max_draws)%nat -> (j < max_draws)%nat -> suffix i = suffix j -> i = j.
Proof.
  assert (forallb (fun i => forallb (fun j => (i =? j)%nat || negb (suffix i =? suffix j)%string) (seq 0 max_draws)) (seq 0 max_draws) = true)
    as H by (vm_compute; reflexivity).
  intros i j Hi Hj E. rewrite forallb_forall in H. specialize (H i ltac:(apply in_seq; lia)). cbv beta in H.
  rewrite forallb_forall in H. specialize (H j ltac:(apply in_seq; lia)). rewrite E, String.eqb_refl in H. simpl in H.
  apply orb_true_iff in H as [H | H]; [by apply Nat.eqb_eq | done].
Qed.

Lemma string_app_inj x y z : (x ++ y)%string = (x ++ z)%string -> y = z.
Proof. induction x as [| c x IH]; simpl; [done |]. intros [= E]. auto. Qed.

Lemma draw_some k i id : draw k i = Ok id -> (i < max_draws)%nat /\ (2 <= i -> enrolls k = false)%nat.
Proof.
  unfold draw. destruct (enrolls k).
  - destruct i as [| [| i]]; intros [=]; split; unfold max_draws; lia.
  - destruct (i <? max_draws)%nat eqn:E; [| done]. intros _. split; [by apply Nat.ltb_lt | done].
Qed.

Lemma draw_distinct k i j id : draw k i = Ok id -> draw k j = Ok id -> i = j.
Proof.
  intros Hi Hj. pose proof (draw_some _ _ _ Hi) as [Bi _]. pose proof (draw_some _ _ _ Hj) as [Bj _].
  unfold draw in Hi, Hj. destruct (enrolls k).
  - destruct i as [| [| i]], j as [| [| j]]; try done; injection Hi as <-; discriminate Hj.
  - destruct (i <? max_draws)%nat; [| done]. destruct (j <? max_draws)%nat; [| done]. injection Hi as <-. injection Hj as E.
    unfold name_of in E. destruct (Nat.eqb_spec i 0) as [Ei | Ei], (Nat.eqb_spec j 0) as [Ej | Ej]; [congruence | | |].
    + by apply (f_equal String.length) in E.
    + by apply (f_equal String.length) in E.
    + do 2 apply string_app_inj in E. by apply suffix_inj.
Qed.

Lemma fresh_b_ok k s : fresh_b (env k) s = true -> fresh (env k) s.
Proof.
  unfold fresh_b. rewrite !andb_true_iff. intros [[H1 H0] Hd]. split.
  - intros id Hm. rewrite Hm in H1. absences.
  - intros id Hm. rewrite Hm in H0. absences.
  - intros id Hm. rewrite Hm in H0. absences.
  - intros id Hm. rewrite Hm in H0. absences.
  - intros id Hm. rewrite Hm in H0. absences.
  - assert (forall i id, mint (env k) i = Ok id -> mget (dispatches s) id = None /\ mget (Leases s) id = None) as Hn.
    { intros i id Hm. pose proof (draw_some _ _ _ Hm) as [Hi _]. rewrite forallb_forall in Hd.
      specialize (Hd i ltac:(apply in_seq; lia)). cbv beta in Hd. rewrite Hm in Hd. absences. }
    split; [apply draw_distinct | intros i id Hm; by apply (Hn i) | intros i id Hm; by apply (Hn i)].
Qed.

Lemma check_run_step fs n s cs k c :
  check_run fs n s cs = true -> nth_error cs k = Some c ->
  let sk := run_from (S n) s (take k cs) in
  fresh (env (S (n + k))) sk
  /\ run au (env (S (n + k))) (c sk) sk = Ok (run_from (S n) s (take (S k) cs)).
Proof.
  revert n s k. induction cs as [| c0 cs IH]; intros n s k H Hk; [by destruct k |].
  simpl in H. apply andb_true_iff in H as [_ [Hf H]%andb_true_iff].
  destruct (run au (env (S n)) (c0 s) s) as [s' |] eqn:E; [| done].
  destruct k as [| k]; simpl in *.
  - injection Hk as <-. rewrite Nat.add_0_r. split; [by apply fresh_b_ok |].
    unfold next. rewrite E. done.
  - unfold next. rewrite E. replace (n + S k)%nat with (S n + k)%nat by lia. by apply IH.
Qed.

Lemma check_run_fact fs n s cs k p :
  check_run fs n s cs = true -> In ((n + k)%nat, p) fs -> (k <= List.length cs)%nat ->
  p (run_from (S n) s (take k cs)) = true.
Proof.
  revert n s k. induction cs as [| c0 cs IH]; intros n s k H Hin Hk; simpl in H, Hk.
  - assert (k = 0%nat) as -> by lia. apply andb_true_iff in H as [H _].
    rewrite forallb_forall in H. specialize (H _ Hin). simpl in H.
    by rewrite Nat.add_0_r, Nat.eqb_refl in H.
  - apply andb_true_iff in H as [Hfs [_ H]%andb_true_iff]. destruct k as [| k]; simpl.
    + rewrite forallb_forall in Hfs. specialize (Hfs _ Hin). simpl in Hfs.
      by rewrite Nat.add_0_r, Nat.eqb_refl in Hfs.
    + unfold next. destruct (run au (env (S n)) (c0 s) s) as [s' |]; [| done].
      apply IH; [done | | lia]. by replace (S n + k)%nat with (n + S k)%nat by lia.
Qed.

Lemma step_ok k c : nth_error trace k = Some c ->
  run au (env (S k)) (c (after k)) (after k) = Ok (after (S k)).
Proof. intros H. by eapply (check_run_step facts 0), H; apply run_checks. Qed.

Lemma step_fresh k c : nth_error trace k = Some c -> fresh (env (S k)) (after k).
Proof. intros H. by eapply (check_run_step facts 0), H; apply run_checks. Qed.

Lemma fact_ok i n p : nth_error facts i = Some (n, p) -> (n <= 26)%nat -> p (after n) = true.
Proof.
  intros H%nth_error_In Hn. apply (check_run_fact facts 0); [apply run_checks | done | done].
Qed.

Lemma start_bootstrapped : bootstrap au io (env 0) Absent = (Ok owner, Stored start).
Proof. vm_compute. reflexivity. Qed.

Lemma after_reachable n : (n <= 26)%nat -> reachable au (after n).
Proof.
  induction n as [| n IH]; intros Hn.
  - by eapply reach_init, start_bootstrapped.
  - destruct (nth_error trace n) as [c |] eqn:E.
    + eapply reach_step; [apply IH; lia |]. by eapply step_run; [eapply step_fresh | eapply step_ok].
    + apply nth_error_None in E. simpl in E. lia.
Qed.

Lemma after_inv n : (n <= 26)%nat -> authority_inv (after n).
Proof. intros. by apply (reachable_authority_inv au), after_reachable. Qed.

#[global] Opaque after.

(** The [k]-th command as the operation it stands for. *)
Ltac succeeds k :=
  let H := fresh "Hrun" in
  pose proof (step_ok k _ eq_refl) as H; cbn [run] in H;
  apply commit_ok in H as [? H].

Ltac evaluated i :=
  let H := fresh "Hfact" in
  pose proof (fact_ok i _ _ eq_refl ltac:(lia)) as H; cbv beta delta [absent session_revoked] in H; bool_facts.

(** The helper's session is the worker's child. *)
Lemma helper_below n :
  session_parent helper worker (after n) = true -> (n <= 26)%nat ->
  exists h q, mget (Sessions (after n)) helper = Some h /\ mget (Sessions (after n)) worker = Some q
  /\ ancestor (after n) h q /\ r_ID q = worker /\ rtc (up (after n)) helper worker.
Proof.
  unfold session_parent. intros H Hn. destruct (mget (Sessions (after n)) helper) as [h |] eqn:Eh; [| done].
  apply String.eqb_eq in H. destruct (ai_sessions _ (after_inv n Hn) _ _ Eh) as [_ _ _ Hp].
  rewrite H in Hp. destruct (Hp ltac:(done)) as (q & Hq & _).
  destruct (ai_sessions _ (after_inv n Hn) _ _ Hq) as [Hid _ _ _].
  exists h, q. split_and!; [done.. | | done |].
  - apply rtc_once. unfold parent_of. by rewrite H.
  - apply rtc_once. split; [done |]. by exists h.
Qed.

(** ** Witnesses: sessions *)

Lemma Authorize_within_ancestors_witness :
  exists session q,
    Authorize au (env 56) helper_token helper "w1" "attempt.register" "task:t1" (after 6) = Ok session
    /\ r_ID q = worker /\ "attempt.register"%string ∈ r_Actions q
    /\ Session_ExpiresAt session <= r_ExpiresAt q.
Proof.
  evaluated 23%nat. evaluated 24%nat. apply is_ok_true in Hfact0 as [session Ha].
  apply helper_below in Hfact as (h & q & Hh & _ & Hanc & Hid & _); [| lia].
  destruct (Authorize_within_ancestors au (env 56) helper_token helper "w1" "attempt.register" "task:t1"
    (after 6) session q (ai_sessions _ (after_inv 6 ltac:(lia))) Ha ltac:(eauto)) as (_ & Hact & _ & _ & _ & Hx).
  exists session, q. exact (conj Ha (conj Hid (conj Hact Hx))).
Defined.

Lemma issue_authenticates_witness :
  exists session token s',
    issue (env 1) owner "" worker_scope expiry (after 0) = Ok ((session, token), s')
    /\ authenticate s' token (Session_ID session) (now (env 1) 0) = Ok (mkRecord session (hash token)).
Proof.
  succeeds 0%nat. destruct x as [session token]. exists session, token, (after 1). split; [exact Hrun |].
  apply (issue_authenticates (env 1) owner "" worker_scope expiry (after 0) session token (after 1)).
  - apply (ai_sessions _ (after_inv 0 ltac:(lia))).
  - apply (f_session _ _ (step_fresh 0 _ eq_refl)).
  - apply issue_ok in Hrun as (id & m & Ht & _). injection Ht as <-. reflexivity.
  - exact Hrun.
Defined.

(** The clock stands still while a credential is inspected. *)
Definition still (e : Env) : Env := {|
  now _ := now e 0; mint := mint e; observe := observe e; observe_identity := observe_identity e;
  eval_symlinks := eval_symlinks e; lstat := lstat e; admit_lease := admit_lease e;
  review_observer := review_observer e; required_observer := required_observer e |}.

Lemma InspectNativeCompatibility_authenticate_witness :
  InspectNativeCompatibility (still (env 57)) worker_token worker (after 6)
    = mkCompat "authorized" (Version (after 6))
  <-> is_ok (authenticate (after 6) worker_token worker (now (still (env 57)) 0)) = true.
Proof.
  apply (InspectNativeCompatibility_authenticate (still (env 57)) worker_token worker (after 6));
    [apply (ai_sessions _ (after_inv 6 ltac:(lia))) | discriminate | reflexivity].
Defined.

(** ** Witnesses: resources, attempts and leases *)

Lemma canonicalResources_spec_witness :
  canonicalResources (env 7) "/srv/co" "t1" [mkResource "path" "src"]
    = Ok [mkResource "path" "src"; mkResource "task" "t1"]
  /\ canonicalResources (env 7) "/srv/co" "t1" [mkResource "path" "src"; mkResource "task" "t1"]
    = Ok [mkResource "path" "src"; mkResource "task" "t1"].
Proof.
  assert (canonicalResources (env 7) "/srv/co" "t1" [mkResource "path" "src"]
    = Ok [mkResource "path" "src"; mkResource "task" "t1"]) as H by (vm_compute; reflexivity).
  destruct (canonicalResources_spec (env 7) _ _ _ _ H) as (_ & _ & H1 & _). exact (conj H H1).
Defined.

Lemma RegisterAttempt_spec_witness :
  exists a, RegisterAttempt (env 5) worker_token worker attempt_request (after 4) (after 4) = Ok (a, after 5)
  /\ Attempt_SessionID a = worker /\ mget (Attempts (after 5)) "r1" = Some a.
Proof.
  succeeds 4%nat. exists x.
  destruct (RegisterAttempt_spec _ _ _ _ _ _ _ _ Hrun) as (_ & H1 & _ & H2 & _).
  exact (conj Hrun (conj H1 H2)).
Defined.

Lemma AcquireLease_grant_witness :
  exists l, AcquireLease (env 7) worker_token worker acquire_request (after 6) = Ok (l, after 7)
  /\ Lease_Fence l = Fence (after 6) + 1 /\ mget (Leases (after 7)) (Lease_ID l) = Some l.
Proof.
  succeeds 6%nat. evaluated 0%nat. apply mhas_false in Hfact. exists x.
  destruct (AcquireLease_grant (env 7) worker_token worker acquire_request (after 6) x (after 7)
    (ai_leases _ (after_inv 6 ltac:(lia)))
    (f_lease _ _ (step_fresh 6 _ eq_refl)) Hfact Hrun)
    as (_ & _ & _ & _ & _ & _ & H1 & _ & _ & H2 & _).
  exact (conj Hrun (conj H1 H2)).
Defined.

Lemma AcquireLease_idempotent_witness :
  exists l, AcquireLease (env 7) worker_token worker acquire_request (after 6) = Ok (l, after 7)
  /\ AcquireLease (env 50) worker_token worker acquire_request (after 7) = Ok (l, after 7).
Proof.
  succeeds 6%nat. evaluated 1%nat. apply is_ok_true in Hfact as [[l2 s2] H2].
  destruct (AcquireLease_idempotent _ _ _ _ _ _ _ _ _ _ Hrun H2) as [-> ->].
  exists x. exact (conj Hrun H2).
Defined.

Lemma changeLease_fenced_witness :
  exists l s', ReleaseLease (env 54) worker_token worker release_request (after 16) = Ok (l, s')
  /\ exists old, mget (Leases (after 16)) lease = Some old /\ Lease_Fence old = 1.
Proof.
  evaluated 14%nat. apply is_ok_true in Hfact as [[l s'] H]. exists l, s'.
  pose proof H as Hc. unfold ReleaseLease in Hc.
  destruct (changeLease_fenced _ _ _ _ _ _ _ _ _ _ _ _ _ Hc) as (old & H1 & _ & _ & H2 & _).
  exact (conj H (ex_intro _ old (conj H1 H2))).
Defined.

Lemma released_lease_final_witness :
  exists l, mget (Leases (after 25)) lease = Some l /\ Lease_Released l = true
  /\ mget (Leases (after 26)) lease = Some l /\ currentLease (after 26) l T0 = false.
Proof.
  evaluated 19%nat. destruct (mget (Leases (after 25)) lease) as [l |] eqn:E; [| done].
  exists l. split; [reflexivity |]. split; [exact Hfact |].
  destruct (released_lease_final (after 25) (after 26) lease l (env 0) "" "" "" "" 0 0 false "" zero_lease
      (after 26) E Hfact (al_leases _ _ (step_le au _ _ (after_inv 25 ltac:(lia))
        (step_run _ _ _ _ _ (step_fresh 25 _ eq_refl) (step_ok 25 _ eq_refl))))) as (H1 & H2 & _).
  exact (conj H1 (H2 T0)).
Defined.

(** ** Witnesses: recovery *)

Lemma Recover_effect_witness :
  exists r, Recover (env 25) owner recovery_request (after 24) = Ok (r, after 25)
  /\ RRc_Target r = target0 /\ Fence (after 25) = Fence (after 24) + 1.
Proof.
  succeeds 24%nat. evaluated 17%nat. apply mhas_false in Hfact. exists x.
  destruct (Recover_effect (env 25) owner recovery_request (after 24) x (after 25) helper
    (ai_leases _ (after_inv 24 ltac:(lia))) Hfact Hrun) as (l & _ & H1 & _ & H2 & _).
  exact (conj Hrun (conj H1 H2)).
Defined.

Lemma Recover_once_witness :
  exists r, Recover (env 55) owner recovery_request (after 25) = Ok (r, after 25)
  /\ RRc_RequestDigest r = recovery_digest recovery_request.
Proof.
  evaluated 18%nat. rename H into Ht, H0 into Hr. apply is_ok_true in Hr as [[r s'] Hr].
  apply mhas_true in Ht as [r0 Ht].
  destruct (Recover_once (after 25) (after 25) (env 55) owner recovery_request r0 r s' Ht
    (reflexivity (after 25)) Hr) as (E & H1 & _).
  exists r. rewrite E in Hr. exact (conj Hr H1).
Defined.

(** ** Witnesses: revisions and verification *)

Lemma PublishAttemptRevision_append_witness :
  exists rev, PublishAttemptRevision (env 8) worker_token worker publish_request (after 7) = Ok (rev, after 8)
  /\ exists a, revisions (after 8) (Attempt_ID a) = revisions (after 7) (Attempt_ID a) ++ [rev].
Proof.
  succeeds 7%nat. evaluated 2%nat. apply mhas_false in Hfact. exists x.
  destruct (PublishAttemptRevision_append (env 8) worker_token worker publish_request (after 7) x (after 8)
    (ai_revisions _ (after_inv 7 ltac:(lia))) Hfact Hrun) as (_ & _ & a & _ & H1 & _).
  exact (conj Hrun (ex_intro _ a H1)).
Defined.

Lemma BeginVerification_once_witness :
  exists rev ev,
    BeginVerification (env 10) worker_token runner_token runner verification (CheckDigest check0) (after 9)
      = Ok (inl rev, after 10)
    /\ BeginVerification (env 51) worker_token runner_token runner verification (CheckDigest check0) (after 11)
      = Ok (inr ev, after 11).
Proof.
  succeeds 9%nat. evaluated 3%nat. apply mhas_false in Hfact.
  evaluated 4%nat. apply is_ok_true in Hfact0 as [[y s2] H2].
  assert (exists rev, x = inl rev) as [rev Hx].
  { apply BeginVerification_ok in Hrun as (_ & _ & _ & _ & [(op & _ & Hop & _) | (_ & rev & _ & Hx & _)]).
    - change (VR_OperationKey verification) with "op-verify"%string in Hop.
      rewrite Hfact in Hop. discriminate Hop.
    - exists rev. exact Hx. }
  rewrite Hx in Hrun.
  destruct (BeginVerification_once (env 10) (env 51) worker_token runner_token runner verification
    (CheckDigest check0) worker_token runner_token runner verification (CheckDigest check0)
    (after 9) rev (after 10) (after 11) y s2 Hrun
    (al_operations _ _ (step_le au _ _ (after_inv 10 ltac:(lia))
       (step_run _ _ _ _ _ (step_fresh 10 _ eq_refl) (step_ok 10 _ eq_refl))))
    eq_refl H2) as (ev & E1 & E2 & _).
  exists rev, ev. rewrite E1, E2 in H2. exact (conj Hrun H2).
Defined.

Lemma CompleteVerification_independent_witness :
  exists ev,
    CompleteVerification (env 11) worker_token runner_token runner verification result0 (after 10)
      = Ok (ev, after 11)
    /\ Ev_Provenance ev = "trusted-local-runner"%string /\ Ev_IssuerSession ev = runner.
Proof.
  succeeds 10%nat. evaluated 5%nat.
  assert (status (after 10) (VR_OperationKey verification) = RunPending) as Hst.
  { change (VR_OperationKey verification) with "op-verify"%string.
    destruct (status (after 10) "op-verify"); [discriminate | reflexivity | discriminate..]. }
  exists x.
  destruct (CompleteVerification_independent (env 11) worker_token runner_token runner verification result0
    (after 10) x (after 11) (ai_sessions _ (after_inv 10 ltac:(lia))) Hst Hrun) as (H1 & H2 & _).
  exact (conj Hrun (conj H1 H2)).
Defined.

Lemma decided_run_final_witness :
  exists op, mget (Operations (after 11)) "op-verify" = Some op /\ op_Pending op = false
  /\ mget (Operations (after 12)) "op-verify" = Some op.
Proof.
  evaluated 6%nat. destruct (mget (Operations (after 11)) "op-verify") as [op |] eqn:E; [| discriminate].
  apply negb_true_iff in Hfact. exists op. split; [reflexivity |]. split; [exact Hfact |].
  destruct (decided_run_final (after 11) (after 12) "op-verify" op (env 0) "" "" "" verification result0
    (mkEvidence "" "" "" "" (mkRevision "" "" "" "" 0 0 (checkout_at "") 0) "" "" "" 0 0) (after 12)
    E Hfact
    (al_operations _ _ (step_le au _ _ (after_inv 11 ltac:(lia))
       (step_run _ _ _ _ _ (step_fresh 11 _ eq_refl) (step_ok 11 _ eq_refl)))) eq_refl) as (H1 & _).
  exact H1.
Defined.

(** ** Witnesses: reviews *)

Lemma ProposeReview_independent_witness :
  exists x, ProposeReview au (env 13) reviewer_token reviewer review_request (after 12) = Ok (x, after 13)
  /\ NoDup (RC_ID <$> RO_Checks (Review_Observation x))
  /\ mget (Reviews (after 13)) (Review_ID x) = Some x.
Proof.
  succeeds 12%nat. evaluated 7%nat. apply mhas_false in Hfact. exists x.
  destruct (ProposeReview_independent au (env 13) reviewer_token reviewer review_request (after 12) x (after 13)
    (ai_sessions _ (after_inv 12 ltac:(lia))) Hfact Hrun)
    as (a & g & _ & _ & _ & _ & _ & _ & _ & _ & _ & H1 & _ & H2).
  exact (conj Hrun (conj H1 H2)).
Defined.

Lemma EvaluateReview_eligible_witness :
  exists x p, EvaluateReview au (env 52) reviewer_token reviewer (ident 13) (after 13) = Ok x
  /\ RE_Eligible x = true /\ mget (Reviews (after 13)) (ident 13) = Some p
  /\ RR_Outcome (Review_Request p) = "approve"%string.
Proof.
  evaluated 8%nat.
  destruct (EvaluateReview au (env 52) reviewer_token reviewer (ident 13) (after 13)) as [x |] eqn:E;
    [| discriminate].
  destruct (EvaluateReview_eligible au (env 52) reviewer_token reviewer (ident 13) (after 13) x
    (ai_sessions _ (after_inv 13 ltac:(lia))) E Hfact) as (p & a & g & H1 & _ & H2 & _).
  exists x, p. exact (conj eq_refl (conj Hfact (conj H1 H2))).
Defined.

(** ** Witnesses: publication *)

Lemma EvaluatePublication_allow_witness :
  exists d, EvaluatePublication au (env 15) worker_token worker decision_request (after 14) = Ok (d, after 15)
  /\ As_Verdict (PD_Assessment d) = Allow
  /\ forall f, f ∈ PA_Fields action0 ->
       discloses (ParseVisibility (PP_Visibility (PD_Policy d))) (PP_IncludeInternal (PD_Policy d))
         (PP_RecordedInternal (PD_Policy d)) false f.
Proof.
  succeeds 14%nat. evaluated 9%nat. apply mhas_false in Hfact. exists x.
  evaluated 10%nat.
  assert (As_Verdict (PD_Assessment x) = Allow) as Hv.
  { pose proof (EvaluatePublication_ok _ _ _ _ _ _ _ _ Hrun)
      as (act & r & _ & _ & [[Hrep _] | (_ & a & rev & p & s1 & _ & _ & _ & _ & Hid & _ & Hput & Hop)]).
    - unfold replay in Hrep. simpl in Hrep. change (PDR_OperationKey decision_request) with "op-decide"%string in Hrep.
      rewrite Hfact in Hrep. discriminate Hrep.
    - apply put_operation_ok in Hop as (ops & _ & Hop).
      apply put_decision_ok in Hput as (m & Hm & Hput). rewrite Hop, Hput in Hfact0. simpl in Hfact0.
      injection Hid as Hid. change (name_of 15 0) with decision in Hid.
      rewrite Hid, (mget_mset_eq _ _ _ _ Hm) in Hfact0. by apply bool_decide_eq_true in Hfact0. }
  destruct (EvaluatePublication_allow au (env 15) worker_token worker decision_request (after 14) x (after 15)
    Hfact Hrun Hv) as (_ & H1 & _).
  exact (conj Hrun (conj Hv H1)).
Defined.

Lemma ConsumePublication_current_witness :
  exists c, ConsumePublication (env 16) owner consume_request (after 15) = Ok (c, after 16)
  /\ exists d a, mget (PublicationDecisions (after 15)) decision = Some d
     /\ As_Verdict (PD_Assessment d) = Allow /\ admits (env 16) (after 15) a = true.
Proof.
  succeeds 15%nat. evaluated 11%nat. apply mhas_false in Hfact. exists x.
  destruct (ConsumePublication_current (env 16) owner consume_request (after 15) x (after 16) Hfact Hrun)
    as (_ & d & a & H1 & H2 & _ & _ & _ & _ & _ & _ & _ & H3 & _).
  exact (conj Hrun (ex_intro _ d (ex_intro _ a (conj H1 (conj H2 H3))))).
Defined.

Lemma ConsumePublication_once_witness :
  exists c, ConsumePublication (env 53) owner consume_request (after 16) = Ok (c, after 16).
Proof.
  evaluated 12%nat. apply mhas_true in Hfact as [c0 Hc]. evaluated 13%nat.
  apply is_ok_true in Hfact as [[c s'] H].
  destruct (ConsumePublication_once (after 16) (after 16) (env 53) owner consume_request c0 c s'
    (ai_publication _ (after_inv 16 ltac:(lia))) Hc (reflexivity (after 16)) H) as (E & _).
  exists c. rewrite E in H. exact H.
Defined.

(** ** Witnesses: storage *)

Lemma stored_inj s s' : Stored s = Stored s' -> s = s'.
Proof. by intros [= ->]. Qed.

Lemma Bootstrap_once_witness :
  bootstrap au io (env 0) Absent = (Ok owner, Stored start)
  /\ exists s, Stored start = Stored s /\ OwnerHash s = hash owner.
Proof.
  split; [exact start_bootstrapped |].
  destruct (Bootstrap_once au io (env 0) Absent _ _ start_bootstrapped) as (_ & H).
  destruct (H owner eq_refl) as (_ & s & H1 & _ & H2 & _). exact (ex_intro _ s (conj H1 H2)).
Defined.

Lemma migrate_preserves_witness :
  exists s', migrate MSwarms au io owner (Stored (after 20)) = (Ok tt, Stored s')
  /\ Version (after 20) = 6 /\ Version s' = 7 /\ keeps 6 (after 20) s'.
Proof.
  evaluated 16%nat.
  destruct (migrate MSwarms au io owner (Stored (after 20))) as [[[] |] [| | s']] eqn:E;
    [discriminate Hfact | discriminate Hfact | | discriminate Hfact ..].
  bool_facts. exists s'.
  destruct (migrate_preserves MSwarms au io owner (Stored (after 20)) _ _ E)
    as [Hd | (s1 & s2 & H1 & H2 & _ & H3 & H4 & H5 & _)].
  - apply stored_inj in Hd. rewrite Hd in H0. rewrite H in H0. discriminate H0.
  - apply stored_inj in H1, H2. rewrite <- H1 in *. rewrite <- H2 in *. exact (conj eq_refl (conj H3 (conj H4 H5))).
Defined.

(** ** Witnesses: lifecycle

    The dispatch intent and the lifecycle policy of this authority are put in
    place directly; the sessions and the schema come from the operations. *)

Definition bridge := ident 40.
Definition bridge_token := tok 40.
Definition controller := ident 41.
Definition controller_token := tok 41.
Definition host_worker := ident 42.

Definition life_base : state := run_from 40 start
  [ fun _ => CEnroll owner (mkScope ["dispatch.observe"] ["project:p1"])%string expiry;
    fun _ => CEnroll owner (mkScope ["dispatch.cancel"] ["project:p1"; "task:t9"])%string expiry;
    fun _ => CEnroll owner (mkScope ["lease.acquire"] ["task:t9"])%string expiry;
    fun _ => CMigrate MSwarms owner;
    fun _ => CMigrate MDispatchIntents owner;
    fun _ => CMigrate MLifecycle owner ].

Definition dispatch0 : DispatchReservation :=
  mkDispatch None "d-1" controller "p1" "v1" "implementer" "reviewer" "host" "c0ffee" "7ee"
    (mkLease "res-1" "" "" "t9" "/srv/repo" "/srv/co9" [mkResource "task" "t9"] 5 expiry false)
    T0 "" [] false "" "".
Definition intent0 : DispatchIntent :=
  mkDispatchIntent 1 1 "intent-1" "op-intent" "d-1" controller bridge host_worker "" "" "correlated"
    "agent-9" dispatch0 T0 T0 None.
Definition life_policy : LifecyclePolicy :=
  mkLifecyclePolicy 1 "p1" "life-v1" "owner-manual-native-host" "owner-manual-native-host" 60000000000 true.

Definition life0 : state := life_base
  <| st_Intents := mkIntentMaps (Some {["d-1"%string := intent0]}) make_map |>
  <| st_Lifecycle := mkLifecycleMaps make_map (Some {["p1"%string := life_policy]}) make_map make_map make_map |>.

Definition observe_request : ObserveLifecycleRequest :=
  mkObserveLifecycle "op-observe" (lifecycleBinding intent0) 0 1 "running" "owner-manual-native-host"
    digest0 T0.
Definition cancel_request : CancelLifecycleRequest :=
  mkCancelLifecycle "op-cancel" (lifecycleBinding intent0).

(** The authority after the cancellation. *)
Definition life1 : state :=
  match CancelLifecycle (env 60) controller_token controller cancel_request life0 with
  | Ok (_, s') => s'
  | Err _ => life0
  end.

Example life_checks :
  is_ok (ObserveLifecycle (env 59) bridge_token bridge observe_request life0)
  && match CancelLifecycle (env 60) controller_token controller cancel_request life0 with
     | Ok (x, _) => LCR_HostActionAuthorized x | Err _ => false end
  && mhas (cancellations life1) "d-1"
  && is_ok (CancelLifecycle (env 61) controller_token controller cancel_request life1) = true.
Proof. vm_compute. reflexivity. Qed.

Example life1_intent : mget (intents life1) "d-1" = Some intent0.
Proof. vm_compute. reflexivity. Qed.

Example life0_histories : histories_ok life0.
Proof. intros d. apply history_ok_nil. Qed.

#[global] Opaque life_base life0 life1.

Lemma ObserveLifecycle_history_witness :
  exists o s', ObserveLifecycle (env 59) bridge_token bridge observe_request life0 = Ok (o, s')
  /\ histories_ok s' /\ lifecycle_le life0 s'.
Proof.
  pose proof life_checks as H. do 3 apply andb_true_iff in H as [H _].
  apply is_ok_true in H as [[o s'] H]. exists o, s'.
  destruct (ObserveLifecycle_history (env 59) bridge_token bridge observe_request life0 o s'
    life0_histories H) as (H1 & H2 & _).
  exact (conj H (conj H1 H2)).
Defined.

Lemma CancelLifecycle_withdraws_witness :
  exists x s', CancelLifecycle (env 60) controller_token controller cancel_request life0 = Ok (x, s')
  /\ LCR_HostActionAuthorized x = true
  /\ exists i, mget (intents life0) "d-1" = Some i /\ mget (cancellations life0) (DI_DispatchID i) = None.
Proof.
  pose proof life_checks as H. do 2 apply andb_true_iff in H as [H _]. apply andb_true_iff in H as [_ H].
  destruct (CancelLifecycle (env 60) controller_token controller cancel_request life0) as [[x s'] |] eqn:E;
    [| discriminate H].
  destruct (CancelLifecycle_withdraws (env 60) controller_token controller cancel_request life0 x s'
    host_worker E H) as (i & H1 & _ & _ & H2 & _).
  exists x, s'. exact (conj eq_refl (conj H (ex_intro _ i (conj H1 H2)))).
Defined.

Lemma CancelLifecycle_once_witness :
  exists x, CancelLifecycle (env 61) controller_token controller cancel_request life1 = Ok (x, life1)
  /\ LCR_HostActionAuthorized x = false.
Proof.
  pose proof life_checks as H. apply andb_true_iff in H as [H Hr]. apply andb_true_iff in H as [_ Hc].
  apply mhas_true in Hc as [c Hc]. apply is_ok_true in Hr as [[x s'] Hr].
  destruct (CancelLifecycle_once life1 life1 (env 61) controller_token controller cancel_request intent0 c x s'
    life1_intent Hc (reflexivity life1) Hr) as (H1 & E).
  exists x. rewrite E in Hr. exact (conj Hr H1).
Defined.

(** ** Witnesses: the transition system *)

Lemma after_step n : (n < 26)%nat -> step au (after n) (after (S n)).
Proof.
  intros Hn. destruct (nth_error trace n) as [c |] eqn:E.
  - by eapply step_run; [eapply step_fresh | eapply step_ok].
  - apply nth_error_None in E. simpl in E. lia.
Qed.

Lemma reachable_well_formed_witness : reachable au (after 26) /\ authority_inv (after 26).
Proof.
  pose proof (after_reachable 26 ltac:(lia)) as H.
  destruct (reachable_well_formed au (after 26) H) as [H1 _]. exact (conj H H1).
Defined.

Lemma run_rewrites_nothing_witness : authority_le (after 24) (after 26).
Proof.
  apply (run_rewrites_nothing au (after 24) (after 26) (after_reachable 24 ltac:(lia))).
  eapply rtc_l; [exact (after_step 24 ltac:(lia)) |]. apply rtc_once. exact (after_step 25 ltac:(lia)).
Defined.

Lemma reachable_leases_exclusive_witness :
  exists l1 l2, mget (Leases (after 20)) lease = Some l1 /\ mget (Leases (after 20)) second_lease = Some l2
  /\ Lease_Fence l1 <> Lease_Fence l2.
Proof.
  evaluated 15%nat. apply mhas_true in H as [l1 H1]. apply mhas_true in H0 as [l2 H2].
  exists l1, l2.
  destruct (reachable_leases_exclusive au (after 20) lease second_lease l1 l2
    (after_reachable 20 ltac:(lia)) H1 H2 ltac:(discriminate)) as (H3 & _).
  exact (conj H1 (conj H2 H3)).
Defined.

Lemma withdrawn_locked_out_witness :
  workerTaskWithdrawn (after 25) worker "t1" = true
  /\ forall l t, Lease_SessionID l = helper -> Lease_TaskID l = "t1"%string ->
       currentLease (after 26) l t = false.
Proof.
  evaluated 20%nat. evaluated 21%nat.
  apply helper_below in Hfact0 as (h & q & _ & _ & _ & _ & Hup); [| lia].
  destruct (withdrawn_locked_out au (after 25) (after 26) worker helper "t1" (after_reachable 25 ltac:(lia))
    (rtc_once _ _ (after_step 25 ltac:(lia))) Hfact Hup) as (_ & H1).
  exact (conj Hfact H1).
Defined.

Lemma revoked_locked_out_witness :
  is_ok (authenticate (after 26) helper_token helper T0) = false.
Proof.
  evaluated 21%nat. evaluated 22%nat.
  apply helper_below in Hfact as (h & q & Hh & Hq & Hanc & Hid & _); [| lia].
  rewrite Hq in Hfact0.
  exact (revoked_locked_out au (after 26) (after 26) worker q helper h helper_token T0
    (after_reachable 26 ltac:(lia)) (rtc_refl _ _) Hq Hfact0 Hh (ex_intro _ q (conj Hanc Hid))).
Defined.
