(* ===== verification/StorageRun.v ===== *)
(** * The bootstrap of an authority, on its file

    The first transaction of [Scenario], run on an empty private directory: with
    every operation working, and with the directory's sync failing.  The encoding
    is that of a state that has an owner and nothing else. *)

From S2P Require Import Prelude GoStd Text Files Disclosure State Session Schema Storage Scenario.
#[local] Open Scope Z_scope.

Definition fresh_state (hash : string) : state := (initial_state au) <| OwnerHash := hash |>.
Definition volume (bad : op -> bool) : Volume :=
  mkVolume true true (fun s => Some (T (OwnerHash s))) (fun t => Some (fresh_state (string_of_list_ascii t))) bad 3
    "/srv/.sessions-1".
Definition private_dir : fs := mkFs true true ∅ [∅] ∅ 0.

Lemma private_dir_at_rest : at_rest private_dir.
Proof. split; [done.. |]. intros n i H. done. Qed.

Definition bootstrapped (bad : op -> bool) : res string * world :=
  Storage.transaction (volume bad) au true true (Bootstrap (env 0)) (mkWorld private_dir []).

Lemma bootstrap_reads_back bad d : reads_back (volume bad) au true (Bootstrap (env 0)) d.
Proof.
  intros s x s' t Hl Hf [= <-]. unfold load in Hl. destruct d; [| done | done]. injection Hl as <-.
  unfold Bootstrap in Hf. apply bind_ok in Hf as (token & _ & [= _ <-]). simpl. unfold T.
  by rewrite string_of_list_ascii_of_string.
Qed.

(** A crash after the acknowledged bootstrap, and one after a failed one. *)
Lemma transaction_atomic_witness :
  (exists s', Bootstrap (env 0) (initial_state au) = Ok (owner, s')
   /\ forall after, crash (here (bootstrapped (fun _ => false)).2) after ->
        held (volume (fun _ => false)) (after !! a_path au) = Stored s')
  /\ (bootstrapped (fun o => bool_decide (o = OpRename))).1 = Err ErrStorage
  /\ forall after, crash (here (bootstrapped (fun o => bool_decide (o = OpRename))).2) after ->
       held (volume (fun o => bool_decide (o = OpRename))) (after !! a_path au) = Absent.
Proof.
  assert ((bootstrapped (fun _ => false)).1 = Ok owner) as Hok by (vm_compute; reflexivity).
  assert ((bootstrapped (fun o => bool_decide (o = OpRename))).1 = Err ErrStorage) as Hbad by (vm_compute; reflexivity).
  pose proof (fun bad r w => transaction_atomic (volume bad) au true true (Bootstrap (env 0)) private_dir r w
    private_dir_at_rest ltac:(discriminate) (bootstrap_reads_back bad _)) as H.
  split; [| split; [exact Hbad |]].
  - destruct (H (fun _ => false) _ _ (surjective_pairing _)) as (_ & H1 & _).
    destruct (H1 owner Hok) as (_ & s & s' & Hl & Hf & Hc). exists s'. injection Hl as <-. exact (conj Hf Hc).
  - destruct (H (fun o => bool_decide (o = OpRename)) _ _ (surjective_pairing _)) as (_ & _ & H1).
    destruct (H1 _ Hbad) as [[_ Hc] | (_ & _ & Hl)]; [exact Hc | discriminate Hl].
Defined.
