(* ===== verification/AcceptanceRun.v ===== *)
(** * A run that accepts a task

    The run of Scenario, from the approving review on: the authority is migrated
    to schema 15, the owner configures a policy, decides, approves, begins the
    acceptance of the task and closes it.  [accept_trace] is evaluated; the
    witnesses of Acceptance and of the acceptance theorems of Safety are here. *)

From S2P Require Import Prelude GoStd Disclosure State Session Schema Withdrawal Resources Attempts Leases Lifecycle Recovery Evidence Reviews Publication Acceptance Changes Safety Scenario.
#[local] Open Scope Z_scope.

Definition review_id := ident 13.
Definition owner_policy : NativePolicy := mkNativePolicy 1 "p1" "t1" "np-1" true true false expiry.

(** What the reviewer reads and the owner asks for. *)
Definition acceptance_request (s : state) : NativeAcceptanceInput :=
  match ReadNativeAcceptanceCandidate au (env 90) reviewer_token reviewer review_id s with
  | Ok c => (NAC_Input c) <| NAI_OperationKey := "op-accept"%string |>
  | Err _ => mkAcceptanceInput 0 "" "" "" "" "" "" "" "" "" "" "" "" 0 "" "" ""
  end.

Definition prepare0 : preparation := Some (fun _ => Some digest0).
(** The canonical task is found closed from the third look on. *)
Definition look : inspection := fun k _ => Ok (k =? 2)%nat.
Definition close0 : closure := fun _ => Ok tt.
(** A later look, after the application crashed behind [closeTask]. *)
Definition look_closed : inspection := fun _ _ => Ok true.

Definition accept_trace : list (state -> command) :=
  map (fun m _ => CMigrate m owner)
    [MSwarms; MDispatchIntents; MLifecycle; MRecovery; MPreflight; MCheckpoints; MBudgets;
     MNativeAcceptance; MNativePolicy]
  ++ [ fun _ => CConfigureNativePolicy owner owner_policy;
       fun s => CEvaluateNativePolicy owner (mkPolicyEvaluation "np-decision" (acceptance_request s) expiry)
                  prepare0;
       fun _ => CApproveNativePolicy owner (mkPolicyApproval "op-approve" "np-decision" expiry);
       fun s => CBeginNativeAcceptance owner (acceptance_request s) "np-decision" prepare0;
       fun s => CContinueNativeAcceptance owner
                  match mget (terminals s) "t1" with
                  | Some rec => (NAC_Input (NAR_Candidate rec)) <| NAI_OperationKey := "op-accept"%string |>
                  | None => acceptance_request s
                  end (Some look) (Some close0) ]%string.

Definition begun (n : nat) : state := run_from 14 (after 13) (take n accept_trace).

Definition the_request : NativeAcceptanceInput := acceptance_request (begun 9).

Definition owner_accepts (s : state) : bool :=
  is_ok (nativeAcceptanceOwner s owner the_request (a_binding au)).

Definition accept_facts : list fact := [
  (* 0 *) (25%nat, fun s => negb (mhas (acceptances s) (NAI_OperationKey the_request))
                            && bool_decide (acceptance_request s = the_request)
                            && (Version s =? 15));
  (* 1 *) (26%nat, fun s => mhas (terminals s) "t1" && mhas (consumptions s) "np-decision");
  (* 2 *) (26%nat, fun s => match ContinueNativeAcceptance au (env 27) owner the_request (Some look)
                                   (Some close0) s with
                            | ([_], Ok _) => true | _ => false end);
  (* 3 *) (26%nat, fun s => owner_accepts s && negb (is_nil (outcomes s))
                            && match continued_record s the_request with
                               | Ok rec => (NAR_State rec =? "closing")%string | Err _ => false end);
  (* 4 *) (27%nat, fun s => match mget (terminals s) "t1" with
                            | Some rec => (NAR_State rec =? "closed")%string | None => false end);
  (* 5 *) (27%nat, fun s => is_ok (beginNativeAcceptance au (env 91) owner the_request "np-decision"
                                     prepare0 s))
  ].

Example accept_checks : check_run accept_facts 13 (after 13) accept_trace = true.
Proof. vm_compute. reflexivity. Qed.

(** ** Using the evaluation *)

Lemma begun_step_ok k c : nth_error accept_trace k = Some c ->
  run au (env (S (13 + k))) (c (begun k)) (begun k) = Ok (begun (S k)).
Proof. intros H. by eapply (check_run_step accept_facts 13), H; apply accept_checks. Qed.

Lemma begun_fresh k c : nth_error accept_trace k = Some c -> fresh (env (S (13 + k))) (begun k).
Proof. intros H. by eapply (check_run_step accept_facts 13), H; apply accept_checks. Qed.

Lemma begun_fact i k p :
  nth_error accept_facts i = Some ((13 + k)%nat, p) -> (k <= 14)%nat -> p (begun k) = true.
Proof.
  intros H%nth_error_In Hk. apply (check_run_fact accept_facts 13); [apply accept_checks | done | done].
Qed.

Lemma begun_step n : (n < 14)%nat -> step au (begun n) (begun (S n)).
Proof.
  intros Hn. destruct (nth_error accept_trace n) as [c |] eqn:E.
  - by eapply step_run; [eapply begun_fresh | eapply begun_step_ok].
  - apply nth_error_None in E. simpl in E. lia.
Qed.

Lemma begun_reachable n : (n <= 14)%nat -> reachable au (begun n).
Proof.
  induction n as [| n IH]; intros Hn.
  - apply (after_reachable 13). lia.
  - eapply reach_step; [apply IH; lia | by apply begun_step].
Qed.

Lemma begun_inv n : (n <= 14)%nat -> acceptance_inv (begun n).
Proof. intros. by apply ai_acceptance, (reachable_authority_inv au), begun_reachable. Qed.

#[global] Opaque begun the_request.

Lemma begun_12 :
  mget (acceptances (begun 12)) (NAI_OperationKey the_request) = None /\ Version (begun 12) = 15
  /\ exists rec, beginNativeAcceptance au (env 26) owner the_request "np-decision" prepare0 (begun 12)
       = Ok (rec, begun 13).
Proof.
  pose proof (begun_fact 0 12 _ eq_refl ltac:(lia)) as H. simpl in H. bool_facts.
  match goal with H : mhas _ _ = false |- _ => apply mhas_false in H end. split_and!; [done.. |].
  pose proof (begun_step_ok 12 _ eq_refl) as Hrun. cbn [run] in Hrun.
  apply commit_ok in Hrun as [rec Hrun]. exists rec. unfold BeginNativeAcceptanceWithPolicy in Hrun.
  by match goal with H : acceptance_request _ = _ |- _ => rewrite H in Hrun end.
Qed.

(** ** Witnesses *)

Lemma begin_retires_witness :
  exists rec, beginNativeAcceptance au (env 26) owner the_request "np-decision" prepare0 (begun 12)
    = Ok (rec, begun 13)
  /\ (exists p a rev, approved (env 26) (begun 12) the_request p a rev)
  /\ NAR_State rec = "closing"%string
  /\ workerTaskWithdrawn (begun 13) worker (NAI_TaskID the_request) = true.
Proof.
  destruct begun_12 as (Hn & _ & rec & Hrun). exists rec.
  destruct (begin_retires au (env 26) owner the_request "np-decision" prepare0 (begun 12) rec (begun 13)
    (begun_inv 12 ltac:(lia)) Hn Hrun) as (H1 & _ & _ & _ & _ & _ & H2 & H3).
  exact (conj Hrun (conj H1 (conj H2 (H3 worker)))).
Defined.

Lemma continue_closes_witness :
  exists rec x, ContinueNativeAcceptance au (env 27) owner the_request (Some look) (Some close0) (begun 13)
    = ([rec], Ok x)
  /\ mget (terminals (begun 13)) (NAI_TaskID the_request) = Some rec /\ NAR_State rec = "closing"%string.
Proof.
  pose proof (begun_fact 2 13 _ eq_refl ltac:(lia)) as H. cbv beta in H.
  destruct (ContinueNativeAcceptance au (env 27) owner the_request (Some look) (Some close0) (begun 13))
    as [calls x] eqn:E.
  destruct calls as [| rec []]; [discriminate H | | discriminate H]. destruct x as [x |]; [| discriminate H].
  exists rec, x.
  destruct (continue_closes au (env 27) owner the_request (Some look) (Some close0) (begun 13) [rec] (Ok x) E)
    as [H0 | (rec' & f & g & H1 & _ & _ & _ & H2 & H3 & _)]; [discriminate H0 |].
  injection H1 as <-. exact (conj eq_refl (conj H2 H3)).
Defined.

Lemma continue_resumes_witness :
  exists rec s', continued_record (begun 13) the_request = Ok rec
  /\ ContinueNativeAcceptance au (env 92) owner the_request (Some look_closed) (Some close0) (begun 13)
     = ([], Ok (mkAcceptanceResult true false "closed" (NAR_CanonicalReceiptDigest rec), s')).
Proof.
  pose proof (begun_fact 3 13 _ eq_refl ltac:(lia)) as H. cbv beta in H.
  apply andb_true_iff in H as [H Hr]. apply andb_true_iff in H as [Ho Hn].
  apply is_ok_true in Ho as [[] Ho]. apply negb_true_iff in Hn.
  destruct (continued_record (begun 13) the_request) as [rec |] eqn:E; [| discriminate Hr].
  apply String.eqb_eq in Hr.
  destruct (continue_resumes au (env 92) owner the_request look_closed close0 (begun 13) rec
    Ho E Hr eq_refl (fun _ => Hn)) as (s' & rec' & H1 & _).
  exists rec, s'. exact (conj eq_refl H1).
Defined.

Lemma accepted_once_witness :
  exists rec rec' x,
    mget (terminals (begun 13)) "t1" = Some rec /\ mget (terminals (begun 14)) "t1" = Some rec'
    /\ record_le rec rec'
    /\ beginNativeAcceptance au (env 91) owner the_request "np-decision" prepare0 (begun 14)
       = Ok (x, begun 14).
Proof.
  pose proof (begun_fact 1 13 _ eq_refl ltac:(lia)) as H. cbv beta in H.
  apply andb_true_iff in H as [H _]. apply mhas_true in H as [rec Hrec].
  pose proof (begun_fact 5 14 _ eq_refl ltac:(lia)) as Hb. cbv beta in Hb.
  apply is_ok_true in Hb as [[x s2] Hb].
  destruct (accepted_once au (begun 13) (begun 14) "t1" rec (begun_reachable 13 ltac:(lia))
    (rtc_once _ _ (begun_step 13 ltac:(lia))) Hrec) as ((rec' & H1 & H2) & H3 & _).
  assert (NAI_TaskID the_request = "t1"%string) as Ht by (vm_compute; reflexivity).
  pose proof (H3 _ _ _ _ _ _ _ Ht Hb) as E. rewrite E in Hb.
  exists rec, rec', x. exact (conj Hrec (conj H1 (conj H2 Hb))).
Defined.

Lemma decision_spent_once_witness :
  exists c x, mget (consumptions (begun 14)) "np-decision" = Some c
  /\ beginNativeAcceptance au (env 91) owner the_request "np-decision" prepare0 (begun 14)
     = Ok (x, begun 14).
Proof.
  pose proof (begun_fact 1 13 _ eq_refl ltac:(lia)) as H. cbv beta in H.
  apply andb_true_iff in H as [_ H]. apply mhas_true in H as [c Hc].
  pose proof (begun_fact 5 14 _ eq_refl ltac:(lia)) as Hb. cbv beta in Hb.
  apply is_ok_true in Hb as [[x s2] Hb].
  destruct (decision_spent_once au (begun 13) (begun 14) "np-decision" c (begun_reachable 13 ltac:(lia))
    (rtc_once _ _ (begun_step 13 ltac:(lia))) Hc) as (H1 & _ & _ & H2).
  pose proof (H2 _ _ _ _ _ _ Hb) as E. rewrite E in Hb.
  exists c, x. exact (conj H1 Hb).
Defined.
