(* ===== verification/LoopRun.v ===== *)
(** * A run of the complete loop

    An authority is migrated to schema 15, and the owner configures a project's
    swarm, preflight, budget and checkpoints; a controller reserves a wave; its task
    is requested from a host through a bridge and acknowledged by its worker; the
    finished implementation is settled.  [loop_trace] is evaluated; the witnesses of
    the scheduling properties are here. *)

From Stdlib Require Import SpecFloat.
From S2P Require Import Prelude Floats GoStd Text Runes Team Strategy Disclosure State Session Schema Withdrawal Resources Attempts Leases Lifecycle Recovery Evidence Reviews Publication Encodings Scheduling Preflight PreflightLaws Budgets BudgetLaws Checkpoints CheckpointLaws Routing Swarms Intents SwarmLaws IntentLaws Acceptance Changes LoopChanges Safety Scenario.
#[local] Open Scope Z_scope.

(** ** The project *)

Definition points (z : Z) : float := binary_normalize 53 1024 z 0 false.

Definition loop_controller := ident 33.
Definition loop_controller_token := tok 33.
Definition loop_worker := ident 34.
Definition loop_worker_token := tok 34.
Definition loop_bridge := ident 35.
Definition loop_bridge_token := tok 35.
Definition attempt3 := ident 38.

Definition checkout_of (task : string) : string := ("/srv/" ++ task)%string.
Definition path_of (task : string) : string := ("lib-" ++ task)%string.
Definition loop_tasks : list string := ["t3"; "t5"]%string.
Definition loop_resources : list string :=
  map task_resource loop_tasks ++ map (fun t => "path:" ++ path_of t)%string loop_tasks
  ++ map (fun t => "checkout:" ++ checkout_of t)%string loop_tasks.

Definition controller_scope : Scope := mkScope
  ["swarm.plan"; "swarm.reserve"; "swarm.dispatch"; "checkpoint.record"; "checkpoint.reconcile"; "budget.settle"]%string
  ("project:p2"%string :: loop_resources).
Definition loop_worker_scope : Scope := mkScope
  ["attempt.register"; "lease.acquire"; "lease.renew"; "lease.release"]%string loop_resources.
Definition bridge_scope : Scope := mkScope
  ["dispatch.correlate"; "dispatch.observe"]%string ("project:p2"%string :: loop_resources).

Definition capability := hash "capability".
Definition swarm0 : SwarmPolicy := mkSwarmPolicy "p2" "s1" "codex" capability 2 4 (2 * hour) false
  [mkSwarmRole "dev" "implementer" "codex" 4; mkSwarmRole "rev" "reviewer" "codex" 4]
  (Some (list_to_map (map (fun t => (t, mkSwarmPlacement (checkout_of t) "implementer" "reviewer")) loop_tasks))).
Definition loop_binding (task : string) : TaskBinding := mkTaskBinding task "p2" "/srv/repo" true.

Definition preflight_entry : PreflightTask :=
  mkPreflightTask "dev" "rev" "dev" [] "/cfg/worker" "" "" "/cfg/contract" false false false false false false.
Definition preflight0 : PreflightPolicy := mkPreflightPolicy 1 "p2" "f1" "codex" "first" false expiry 2
  (Some (list_to_map (map (fun t => (t, preflight_entry)) loop_tasks))).

Definition estimate (tokens : Z) : BudgetEstimate := mkBudgetEstimate "dev" "m1" "owner-estimate" tokens 0 T0.
Definition budget_entry : BudgetTask := mkBudgetTask
  (Some (list_to_map [("implementation", estimate 100); ("correction", estimate 50); ("recovery", estimate 20)]%string))
  None "" "".
Definition budget0 : BudgetPolicy := mkBudgetPolicy 1 "p2" "b1" "codex" "cycle" "first" 5000 1000 100 (24 * hour) T0 expiry 0
  (Some (list_to_map [("t3", budget_entry)]%string)).

Definition bounds0 : CheckpointPolicy := mkCheckpointPolicy 1 "p2" "c1" "codex" loop_tasks 5 2 expiry false.
Definition lifecycle0 : LifecyclePolicy :=
  mkLifecyclePolicy 1 "p2" "l1" "owner-manual-native-host" "owner-manual-native-host" minute true.

(** ** The adapters *)

Definition role0 (name kind : string) : Role :=
  mkRole name "" [] [] [] [] "rw" [] 4 kind "codex" "m1" no_profile [] (points 5) "".
(** The task t5 is larger than its role takes. *)
Definition size_of (task : string) : float := if (task =? "t5")%string then points 8 else points 3.

Definition candidate (task : string) : SwarmCandidate :=
  mkSwarmCandidate task "p2" "todo" (if (task =? "t5")%string then "blocked" else "ready")%string 1 (size_of task) true
    [mkResource "path" (path_of task)].
Definition snapshot0 : SwarmSnapshot := mkSwarmSnapshot (hash "snapshot") (map candidate loop_tasks) [].

Definition nobody : PreflightActor := mkPreflightActor "" "" "".
Definition observation0 (verdict task : string) : PreflightObservation :=
  mkPreflightObservation None [] [] "" "" (hash task) (hash "roster") (hash "claims") (hash "profile") "codex" (a_path au) "i1"
    [("path:" ++ path_of task)%string] [] [] (size_of task) true (role0 "dev" "implementer") (role0 "rev" "reviewer")
    (role0 "dev" "implementer") [] (mkPreflightActor loop_worker "" (hash loop_worker_token)) nobody nobody
    zero_review_observation [] (map (fun n => mkPreflightPhase n verdict "owner" "" "" true) phase_names) expiry.

Definition adapters (verdict : string) : Adapters := mkAdapters
  (Some (fun _ _ _ => Some snapshot0)) (Some (fun _ _ _ _ _ => true)) (Some (fun _ _ _ _ _ => true))
  (Some (fun _ _ _ task _ _ => Ok (observation0 verdict task))).
Definition ad0 : Adapters := adapters "ready".
(** The host is busy: every phase is refused for now. *)
Definition busy : Adapters := adapters "transient".

(** Nothing is in the way of a wave. *)
Definition cleared (condition progress : string) (base : CheckpointStatus) : CheckpointStatus :=
  base <| CS_ConditionDigest := condition |> <| CS_ProgressDigest := progress |>
       <| CS_GateExpiresAt := expiry |> <| CS_Findings := [] |>.
Definition condition0 := hash "condition".
Definition progress0 := hash "progress".

Lemma cleared_keeps condition progress base :
  cleared condition progress base = reconciled_from base (cleared condition progress base).
Proof. by destruct base. Qed.

Lemma clear_keeps base n out k :
  exec (mret (cleared condition0 progress0 base) : prog CheckpointStatus) n = Ok (out, k) -> out = reconciled_from base out.
Proof. intros [-> _]%mret_ok. apply cleared_keeps. Qed.

#[local] Instance clear : Reconciliation := {
  reconcileCheckpoint _ _ _ _ _ base _ _ := mret (cleared condition0 progress0 base);
  reconcile_keeps _ _ _ _ _ base _ _ := clear_keeps base
}.

(** ** The requests *)

Definition loop_expiry : time := T0 + 5000000000000.

Definition override_request : CapacityOverrideRequest :=
  mkOverrideRequest "over-t5" "p2" "t5" "dev" "one large task" loop_expiry.
Definition checkpoint_request : CheckpointRequest :=
  mkCheckpointRequest "op-checkpoint" "cp" "p2" "inv-1" "pre-cycle" 0 [].

Definition plan_of (k : nat) (s : state) : SwarmPlan :=
  match PlanSwarm ascii_unicode (env k) ad0 au loop_controller_token loop_controller "p2" s with
  | Ok plan => plan
  | Err _ => mkSwarmPlan 0 "" "" "" "" "" 0 [] []
  end.
Definition wave_request (s : state) : ReserveWaveRequest :=
  mkReserveWave "cp" "inv-1" condition0 1 "op-wave" (plan_of 60 s) loop_expiry.

(** The reservation and the intent of a task. *)
Definition zero_dispatch : DispatchReservation :=
  mkDispatch None "" "" "" "" "" "" "" "" "" zero_lease 0 "" [] false "" "".
Definition dispatch_of (task : string) (s : state) : DispatchReservation :=
  default zero_dispatch (List.find (fun d => (task_of d =? task)%string) (mvals (dispatches s))).
Definition zero_intent : DispatchIntent := mkDispatchIntent 0 0 "" "" "" "" "" "" "" "" "" "" zero_dispatch 0 0 None.
Definition intent_of (task : string) (s : state) : DispatchIntent :=
  default zero_intent (mget (intents s) (DR_ID (dispatch_of task s))).

Definition intent_request (s : state) : RequestDispatchIntent :=
  mkRequestIntent "op-intent" (DR_ID (dispatch_of "t3" s)) loop_bridge loop_worker digest0
    (Lease_Fence (DR_Reservation (dispatch_of "t3" s))).
Definition correlate_request (s : state) : CorrelateDispatchIntent :=
  let i := intent_of "t3" s in
  mkCorrelateIntent "op-correlate" (DI_DispatchID i) (DI_ID i) "host-7" "host_correlated" (intent_fence i) (DI_Sequence i).
Definition acknowledge_request (s : state) : AcknowledgeDispatchIntent :=
  let i := intent_of "t3" s in
  mkAcknowledgeIntent "op-acknowledge" (DI_DispatchID i) (DI_ID i) attempt3 "host-7" (intent_fence i) (DI_Sequence i).
Definition report_request (s : state) : ObserveLifecycleRequest :=
  mkObserveLifecycle "op-report" (lifecycleBinding (intent_of "t3" s)) 0 1 "completed" "owner-manual-native-host" digest0 T0.
Definition settle_request (s : state) : BudgetSettleRequest :=
  let d := dispatch_of "t3" s in
  mkBudgetSettle "op-settle" (DR_ID d) "implementation"
    (match history s (DR_ID d) with o :: _ => BudgetLifecycleProducerID o | [] => "" end)
    (Lease_Fence (DR_Reservation d)).
Definition handoff_request (s : state) : HandoffDispatchRequest :=
  let d := dispatch_of "t3" s in
  mkHandoff "op-handoff" (DR_ID d) attempt3 (Lease_Fence (DR_Reservation d)).

(** ** The run *)

Definition loop_trace : list (state -> command) :=
  (* 24 to 32 *)
  map (fun m _ => CMigrate m owner)
    [MSwarms; MDispatchIntents; MLifecycle; MRecovery; MPreflight; MCheckpoints; MBudgets;
     MNativeAcceptance; MNativePolicy]
  ++ [ (* 33 *) fun _ => CEnroll owner controller_scope expiry;
    (* 34 *) fun _ => CEnroll owner loop_worker_scope expiry;
    (* 35 *) fun _ => CEnroll owner bridge_scope expiry;
    (* 36 *) fun _ => CConfigureSwarm owner swarm0 (map loop_binding loop_tasks);
    (* 37 *) fun _ => CConfigureLifecycle owner lifecycle0;
    (* 38 *) fun s => CRegisterAttempt s loop_worker_token loop_worker (mkAttemptRequest "r3" "t3" (checkout_of "t3") "host");
    (* 39 *) fun _ => CConfigurePreflight owner preflight0;
    (* 40 *) fun _ => CConfigureBudget owner budget0;
    (* 41 *) fun _ => CConfigureCheckpoints owner bounds0;
    (* 42 *) fun _ => COverrideCapacity ad0 owner override_request;
    (* 43 *) fun _ => CCheckPreflight busy loop_controller_token loop_controller "p2" "t3" "op-check";
    (* 44 *) fun _ => CReconcileCheckpoint clear ad0 loop_controller_token loop_controller checkpoint_request;
    (* 45 *) fun s => CReserveWave clear ascii_unicode ad0 loop_controller_token loop_controller (wave_request s);
    (* 46 *) fun s => CRequestDispatch ad0 loop_controller_token loop_controller (intent_request s);
    (* 47 *) fun s => CCorrelateDispatch ad0 loop_bridge_token loop_bridge (correlate_request s);
    (* 48 *) fun s => CAcknowledgeDispatch ad0 loop_worker_token loop_worker (acknowledge_request s);
    (* 49 *) fun s => CObserveLifecycle loop_bridge_token loop_bridge (report_request s);
    (* 50 *) fun s => CSettleBudget loop_controller_token loop_controller (settle_request s) ]%string.

Definition looped (n : nat) : state := run_from 24 start (take n loop_trace).

(** A gate request that names the plan of nothing. *)
Definition gate_request : ReserveWaveRequest :=
  mkReserveWave "cp" "inv-1" condition0 1 "op-gate" (mkSwarmPlan 1 "" loop_controller "p2" "s1" "" 0 [] []) loop_expiry.
Definition bare_dispatch : DispatchReservation :=
  mkDispatch None "d-9" loop_controller "p2" "s1" "dev" "rev" "codex" "" "" zero_lease 0 "" [] false "" "".

Definition allowed_report (s : state) : prog PreflightReport := preflight (env 60) ad0 au s "p2" "t3" "dev" "rev" "".
(** The report and the quote of the task t3. *)
Definition quoted (s : state) : option (PreflightReport * BudgetQuote) :=
  match exec (allowed_report s) 0 with
  | Ok (r, _) =>
    match exec (quoteBudget (env 61) ad0 s "p2" "t3" (Some r) 0) 0 with
    | Ok (Some q, _) => if PR_Allowed r then Some (r, q) else None
    | _ => None
    end
  | Err _ => None
  end.

Definition converted_lease (task : string) (s : state) : bool :=
  match mget (dispatches s) (DR_ID (dispatch_of task s)) with
  | Some d => DR_Converted d && mhas (Leases s) (DR_ID (dispatch_of task s))
  | None => false
  end.

Definition loop_facts : list fact := [
  (* 0 *) (42%nat, fun s => bool_decide (preflight_policy s "p2" = preflight0)
                            && (retries s (retry_key "p2" preflight0 "t3") =? 0)
                            && negb (mhas (PreflightOperations (st_Preflight s)) "op-check"));
  (* 1 *) (43%nat, fun s => retries s (retry_key "p2" preflight0 "t3") =? 1);
  (* 2 *) (44%nat, fun s => is_ok (exec (consumeCheckpoint (env 62) ad0 au s loop_controller_token loop_controller
                                          gate_request "wave-9") 0));
  (* 3 *) (44%nat, fun s => match quoted s with
                            | Some (_, q) => BQ_Allowed q && (0 <? BQ_Total q)
                                             && is_ok (allocateBudget s bare_dispatch "w" (Some q) (now (env 61) 9))
                            | None => false end);
  (* 4 *) (45%nat, fun s => is_ok (HandoffDispatch (env 63) ad0 au s loop_worker_token loop_worker (handoff_request s)));
  (* 5 *) (45%nat, fun s => is_ok (exec (dispatchPreflight (env 60) ad0 au s (dispatch_of "t3" s) "") 0)
                            && negb (Version s <? 11));
  (* 6 *) (45%nat, fun s => negb (mhas (intent_operations s) "op-intent"));
  (* 7 *) (48%nat, converted_lease "t3");
  (* 8 *) (45%nat, fun s => Nat.eqb (List.length (checkpoint_history s "cp")) 2);
  (* 9 *) (44%nat, fun s => bool_decide (mget (checkpoint_policies s) "p2" = Some bounds0));
  (* 10 *) (44%nat, fun s => bool_decide (mget (budget_policies s) "p2" = Some (canonicalBudgetPolicy budget0)));
  (* 11 *) (44%nat, fun s => negb (mhas (swarm_operations s) "op-wave"));
  (* 12 *) (44%nat, fun s => (SPn_ProjectID (RWR_Plan (wave_request s)) =? "p2")%string)
  ].

Example loop_checks : check_run loop_facts 23 start loop_trace = true.
Proof. vm_cast_no_check (eq_refl true). Qed.

(** ** Using the evaluation *)

Lemma looped_step_ok k c : nth_error loop_trace k = Some c ->
  run au (env (S (23 + k))) (c (looped k)) (looped k) = Ok (looped (S k)).
Proof. intros H. by eapply (check_run_step loop_facts 23), H; apply loop_checks. Qed.

Lemma looped_fresh k c : nth_error loop_trace k = Some c -> fresh (env (S (23 + k))) (looped k).
Proof. intros H. by eapply (check_run_step loop_facts 23), H; apply loop_checks. Qed.

Lemma looped_fact i k p :
  nth_error loop_facts i = Some ((23 + k)%nat, p) -> (k <= 27)%nat -> p (looped k) = true.
Proof.
  intros H%nth_error_In Hk. apply (check_run_fact loop_facts 23); [apply loop_checks | done | done].
Qed.

Lemma looped_step n : (n < 27)%nat -> step au (looped n) (looped (S n)).
Proof.
  intros Hn. destruct (nth_error loop_trace n) as [c |] eqn:E.
  - by eapply step_run; [eapply looped_fresh | eapply looped_step_ok].
  - apply nth_error_None in E. simpl in E. lia.
Qed.

Lemma looped_reachable n : (n <= 27)%nat -> reachable au (looped n).
Proof.
  induction n as [| n IH]; intros Hn.
  - by eapply reach_init, start_bootstrapped.
  - eapply reach_step; [apply IH; lia | by apply looped_step].
Qed.

Lemma looped_inv n : (n <= 27)%nat -> authority_inv (looped n).
Proof. intros. by apply (reachable_authority_inv au), looped_reachable. Qed.

#[global] Opaque looped.

(** The [k]-th command as the operation it stands for. *)
Ltac loops k :=
  let H := fresh "Hrun" in
  pose proof (looped_step_ok k _ eq_refl) as H; cbn [run] in H; apply commit_ok in H as [? H].
(** The [i]-th fact, about the [k]-th state. *)
Ltac looks i k :=
  let H := fresh "Hfact" in
  pose proof (looped_fact i k _ eq_refl ltac:(lia)) as H; cbv beta in H.

(** ** Witnesses: preflight *)

Lemma ConfigurePreflight_history_witness :
  ConfigurePreflight (env 39) owner preflight0 (looped 15) = Ok (tt, looped 16)
  /\ mget2 (PreflightPolicyHistory (st_Preflight (looped 16))) "p2" "f1" = Some preflight0.
Proof.
  loops 15%nat. destruct x.
  destruct (ConfigurePreflight_history (env 39) owner preflight0 (looped 15) (looped 16) Hrun) as (_ & _ & _ & _ & H & _).
  exact (conj Hrun H).
Defined.

Lemma OverrideCapacity_exact_witness :
  exists o, OverrideCapacity (env 42) ad0 au owner override_request (looped 18) = Ok (o, looped 19)
  /\ mget (CapacityOverrides (st_Preflight (looped 19))) "over-t5" = Some o.
Proof.
  loops 18%nat. exists x.
  destruct (OverrideCapacity_exact (env 42) ad0 au owner override_request (looped 18) x (looped 19) Hrun)
    as (_ & _ & _ & _ & _ & H & _).
  exact (conj Hrun H).
Defined.

Lemma CheckPreflight_bounded_witness :
  exists rec, CheckPreflight (env 43) busy au loop_controller_token loop_controller "p2" "t3" "op-check" (looped 19)
    = Ok (rec, looped 20)
  /\ PRec_TransientAttempts rec = 1.
Proof.
  loops 19%nat. looks 0%nat 19%nat. looks 1%nat 20%nat. apply Z.eqb_eq in Hfact0.
  apply andb_true_iff in Hfact as [[Hp Hr]%andb_true_iff Hn]. apply bool_decide_eq_true in Hp.
  apply Z.eqb_eq in Hr. apply negb_true_iff, mhas_false in Hn.
  pose proof (CheckPreflight_bounded (env 43) busy au loop_controller_token loop_controller "p2" "t3" "op-check"
    (looped 19) x (looped 20) Hrun) as H. cbv zeta in H. rewrite Hp, Hr in H.
  destruct H as (_ & _ & H); [done | done |]. destruct (H Hn) as (_ & _ & Ha & _). rewrite Hfact0 in Ha.
  exists x. exact (conj Hrun Ha).
Defined.

Lemma quoted_some s r q :
  quoted s = Some (r, q) ->
  (exists k, exec (allowed_report s) 0%nat = Ok (r, k)) /\ PR_Allowed r = true
  /\ exists k, exec (quoteBudget (env 61) ad0 s "p2" "t3" (Some r) 0) 0%nat = Ok (Some q, k).
Proof.
  unfold quoted. destruct (exec (allowed_report s) 0%nat) as [[r' k] |]; [| discriminate].
  destruct (exec (quoteBudget _ _ _ _ _ (Some r') _) 0%nat) as [[[q' |] j] |] eqn:E; try discriminate.
  destruct (PR_Allowed r') eqn:Ea; [| discriminate]. intros [= -> ->]. eauto.
Qed.

(** The quote of the state behind the checkpoint. *)
Lemma quoted_21 : exists r q, quoted (looped 21) = Some (r, q)
  /\ BQ_Allowed q = true /\ 0 < BQ_Total q
  /\ exists s', allocateBudget (looped 21) bare_dispatch "w" (Some q) (now (env 61) 9) = Ok s'.
Proof.
  looks 3%nat 21%nat. destruct (quoted (looped 21)) as [[r q] |]; [| discriminate Hfact].
  apply andb_true_iff in Hfact as [[Ha Ht]%andb_true_iff [s' Hs]%is_ok_true]. apply Z.ltb_lt in Ht. eauto 10.
Qed.

Lemma preflight_allowed_witness :
  exists r k, exec (preflight (env 60) ad0 au (looped 21) "p2" "t3" "dev" "rev" "") 0%nat = Ok (r, k)
  /\ PR_Allowed r = true /\ mhas (preflight_policies (looped 21)) "p2" = true.
Proof.
  destruct quoted_21 as (r & q & ([k Hr] & Ha & _)%quoted_some & _). unfold allowed_report in Hr. exists r, k.
  destruct (preflight_allowed (env 60) ad0 au (looped 21) "p2" "t3" "dev" "rev" "" 0 r k Hr Ha) as (_ & _ & H & _).
  exact (conj Hr (conj Ha H)).
Defined.

Lemma dispatchPreflight_ok_witness :
  exists k r, exec (dispatchPreflight (env 60) ad0 au (looped 22) (dispatch_of "t3" (looped 22)) "") 0%nat = Ok (tt, k)
  /\ PR_Allowed r = true /\ DR_PreflightDigest (dispatch_of "t3" (looped 22)) = preflightDigest r.
Proof.
  looks 5%nat 22%nat. apply andb_true_iff in Hfact as [H Hv]. apply is_ok_true in H as [[[] k] H].
  apply negb_true_iff, Z.ltb_ge in Hv. exists k.
  destruct (dispatchPreflight_ok (env 60) ad0 au (looped 22) (dispatch_of "t3" (looped 22)) "" 0 k H)
    as [Hlt | (r & k' & _ & H1 & H2 & _)].
  - exfalso. lia.
  - exists r. exact (conj H (conj H1 H2)).
Defined.

(** ** Witnesses: budgets *)

Lemma ConfigureBudget_history_witness :
  ConfigureBudget (env 40) owner budget0 (looped 16) = Ok (tt, looped 17)
  /\ not_owner (looped 16) owner = false.
Proof.
  loops 16%nat. destruct x.
  destruct (ConfigureBudget_history (env 40) owner budget0 (looped 16) (looped 17) Hrun) as (H & _).
  exact (conj Hrun H).
Defined.

Lemma admitted_within_limits_witness :
  exists r q s' k,
    exec (quoteBudget (env 61) ad0 (looped 21) "p2" "t3" (Some r) 0) 0%nat = Ok (Some q, k) /\ BQ_Allowed q = true
    /\ allocateBudget (looped 21) bare_dispatch "w" (Some q) (now (env 61) 9) = Ok s'
    /\ exists p, mget (budget_policies s') "p2" = Some p.
Proof.
  destruct quoted_21 as (r & q & (_ & _ & [k Hq])%quoted_some & Ha & Ht & s' & Hs).
  looks 10%nat 21%nat. apply bool_decide_eq_true in Hfact. exists r, q, s', k.
  destruct (admitted_within_limits (env 61) ad0 (looped 21) "p2" "t3" (Some r) 0 q k bare_dispatch "w" (now (env 61) 9) s'
    Hq Ha Ht eq_refl) as (p & i & Hp & _); [| exact Hs |].
  - intros p Hp. rewrite Hfact in Hp. injection Hp as <-. split; [reflexivity | split; discriminate].
  - exact (conj Hq (conj Ha (conj Hs (ex_intro _ p Hp)))).
Defined.

Lemma SettleBudget_conservative_witness :
  exists out, SettleBudget (env 50) loop_controller_token loop_controller (settle_request (looped 26)) (looped 26)
    = Ok (out, looped 27)
  /\ forall old, mget (BudgetOperations (st_Budget (looped 26))) (BSR_OperationKey (settle_request (looped 26))) = Some old ->
       out = BR_Allocation old.
Proof.
  loops 26%nat. exists x.
  destruct (SettleBudget_conservative (env 50) loop_controller_token loop_controller (settle_request (looped 26)) (looped 26)
    x (looped 27) Hrun (ai_budgets _ (looped_inv 26 ltac:(lia)))) as (H & _).
  exact (conj Hrun (fun old Ho => proj1 (H old Ho))).
Defined.

(** ** Witnesses: checkpoints *)

Lemma ConfigureCheckpoints_bounds_witness :
  ConfigureCheckpoints (env 41) owner bounds0 (looped 17) = Ok (tt, looped 18)
  /\ checkpoints (looped 18) = checkpoints (looped 17).
Proof.
  loops 17%nat. destruct x.
  destruct (ConfigureCheckpoints_bounds (env 41) owner bounds0 (looped 17) (looped 18) Hrun) as (_ & _ & _ & _ & _ & _ & H & _).
  exact (conj Hrun H).
Defined.

Lemma writeCheckpoint_appends_witness :
  exists out, writeCheckpoint (env 44) ad0 au loop_controller_token loop_controller checkpoint_request true (looped 20)
    = Ok (out, looped 21)
  /\ forall old, mget (CheckpointOperations (st_Checkpoint (looped 20))) "op-checkpoint" = Some old -> out = CRc_Status old.
Proof.
  loops 20%nat. unfold ReconcileCheckpoint in Hrun. exists x.
  destruct (writeCheckpoint_appends (env 44) ad0 au loop_controller_token loop_controller checkpoint_request true (looped 20)
    x (looped 21) Hrun) as (H & _).
  exact (conj Hrun (fun old Ho => proj1 (H old Ho))).
Defined.

Lemma gate_consumed_once_witness :
  exists s' k, exec (consumeCheckpoint (env 62) ad0 au (looped 21) loop_controller_token loop_controller gate_request "wave-9") 0%nat
    = Ok (s', k)
  /\ waves (checkpoint_history s' "cp") = waves (checkpoint_history (looped 21) "cp") + 1.
Proof.
  looks 2%nat 21%nat. apply is_ok_true in Hfact as [[s' k] H].
  looks 9%nat 21%nat. apply bool_decide_eq_true in Hfact. exists s', k.
  destruct (gate_consumed_once (env 62) ad0 au (looped 21) loop_controller_token loop_controller gate_request "wave-9" 0 s' k bounds0
    H ltac:(discriminate) Hfact ltac:(discriminate) (ck_counted _ (ai_checkpoints _ (looped_inv 21 ltac:(lia))) _))
    as (old & t & _ & _ & _ & _ & _ & _ & _ & Hw & _).
  exact (conj H Hw).
Defined.

(** ** Witnesses: waves and handoff *)

Lemma looped_wave : exists wave s1 plan,
  ReserveWave ascii_unicode (env 45) ad0 au loop_controller_token loop_controller (wave_request (looped 21)) (looped 21)
    = Ok (wave, looped 22)
  /\ waved ascii_unicode (env 45) ad0 au (looped 21) loop_controller_token loop_controller (wave_request (looped 21)) 0 None wave s1 plan.
Proof.
  loops 21%nat. pose proof (looped_inv 21 ltac:(lia)) as Hinv. pose proof (looped_fresh 21 _ eq_refl) as Hf.
  looks 11%nat 21%nat. apply negb_true_iff, mhas_false in Hfact.
  destruct (ReserveWave_ok ascii_unicode (env 45) ad0 au loop_controller_token loop_controller (wave_request (looped 21))
    (looped 21) x (looped 22) Hrun (ai_leases _ Hinv) (ai_reservations _ Hinv) (f_draws _ _ Hf))
    as [(old & Ho & _) | (_ & plan & s1 & digest & Hw & _)].
  - unfold wave_request in Ho. cbn [RWR_OperationKey] in Ho. congruence.
  - eauto.
Qed.

Lemma planSwarm_safe_witness :
  exists n plan k, exec (planSwarmLimited ascii_unicode (env 45) ad0 au (looped 21) loop_controller_token loop_controller "p2"
      "swarm.reserve" 0 None) n = Ok (plan, k)
  /\ selected_verdicts plan <> [] /\ NoDup (map SV_TaskID (SPn_Verdicts plan)).
Proof.
  destruct looped_wave as (wave & s1 & plan & _ & [(n & k & Hplan) _ [Hne Hres] _ _ _]).
  looks 12%nat 21%nat. apply String.eqb_eq in Hfact. rewrite Hfact in Hplan.
  destruct (planSwarm_safe ascii_unicode (env 45) ad0 au (looped 21) loop_controller_token loop_controller "p2"
    "swarm.reserve" 0 None n plan k Hplan) as (r & policy & snap & _ & H & _).
  exists n, plan, k. refine (conj Hplan (conj _ H)). intros E. rewrite E in Hres. exact (Hne (Forall2_nil_inv_l _ _ Hres)).
Defined.

(** The wave of the run, with the allocations of its reservations. *)
Lemma ReserveWave_exact_witness :
  exists wave plan, ReserveWave ascii_unicode (env 45) ad0 au loop_controller_token loop_controller (wave_request (looped 21)) (looped 21)
    = Ok (wave, looped 22)
  /\ SW_Dispatches wave <> [] /\ (exists p, mget (budget_policies (looped 21)) "p2" = Some p)
  /\ Forall2 (allocated (looped 21) (SW_ID wave) (looped 22)) (selected_verdicts plan) (SW_Dispatches wave).
Proof.
  loops 21%nat. pose proof (looped_inv 21 ltac:(lia)) as Hinv. pose proof (looped_fresh 21 _ eq_refl) as Hf.
  looks 11%nat 21%nat. apply negb_true_iff, mhas_false in Hfact. looks 10%nat 21%nat. apply bool_decide_eq_true in Hfact0.
  destruct (ReserveWave_exact ascii_unicode (env 45) ad0 au loop_controller_token loop_controller (wave_request (looped 21))
    (looped 21) x (looped 22) Hrun (ai_leases _ Hinv) (ai_reservations _ Hinv) (f_draws _ _ Hf)) as (_ & H).
  destruct (H Hfact) as ((plan & n & k & _ & _ & _ & Hal) & _ & Hne & _).
  exists x, plan. exact (conj Hrun (conj Hne (conj (ex_intro _ _ Hfact0) Hal))).
Defined.

Lemma HandoffDispatch_exact_witness :
  exists l s', HandoffDispatch (env 63) ad0 au (looped 22) loop_worker_token loop_worker (handoff_request (looped 22)) = Ok (l, s')
  /\ mget (intents (looped 22)) (HD_DispatchID (handoff_request (looped 22))) = None.
Proof.
  looks 4%nat 22%nat. apply is_ok_true in Hfact as [[l s'] H]. pose proof (looped_inv 22 ltac:(lia)) as Hinv. exists l, s'.
  destruct (HandoffDispatch_exact (env 63) ad0 au (looped 22) loop_worker_token loop_worker (handoff_request (looped 22)) l s'
    H (ai_leases _ Hinv) (ai_reservations _ Hinv)) as (H1 & _).
  exact (conj H H1).
Defined.

(** ** Witnesses: intents *)

(** The first request for the dispatch authorises the host action. *)
Lemma looped_request : exists r,
  RequestDispatch (env 46) ad0 au loop_controller_token loop_controller (intent_request (looped 22)) (looped 22)
    = Ok (r, looped 23) /\ DIRs_HostActionAuthorized r = true.
Proof.
  loops 22%nat. exists x. split; [exact Hrun |]. looks 6%nat 22%nat. apply negb_true_iff, mhas_false in Hfact.
  unfold RequestDispatch in Hrun. apply run_ok in Hrun as [k Hrun]. do 2 (apply prog_bind_ok in Hrun as (? & ? & _ & Hrun)).
  apply requestDispatchIntentState_ok in Hrun as (_ & [(old & Ho & _) | (d & i & _ & ->)]).
  - unfold intent_request in Ho. cbn [RDI_OperationKey] in Ho. congruence.
  - reflexivity.
  - intros k0 d0 Hd. exact (proj1 (rv_key _ (ai_reservations _ (looped_inv 22 ltac:(lia))) k0 d0 Hd)).
Qed.

Lemma RequestDispatch_exact_witness :
  exists r, RequestDispatch (env 46) ad0 au loop_controller_token loop_controller (intent_request (looped 22)) (looped 22)
    = Ok (r, looped 23)
  /\ DIRs_HostActionAuthorized r = true /\ DI_State (DIRs_Intent r) = "dispatch_requested"%string.
Proof.
  destruct looped_request as (r & Hrun & Ha). pose proof (looped_inv 22 ltac:(lia)) as Hinv. exists r.
  destruct (RequestDispatch_exact (env 46) ad0 au loop_controller_token loop_controller (intent_request (looped 22)) (looped 22)
    r (looped 23) Hrun (ai_intents _ Hinv) (ai_reservations _ Hinv)) as (_ & _ & _ & H).
  exact (conj Hrun (conj Ha (proj1 (proj2 (proj2 (proj2 (H Ha))))))).
Defined.

Lemma CorrelateDispatch_exact_witness :
  exists j, CorrelateDispatch (env 47) ad0 loop_bridge_token loop_bridge (correlate_request (looped 23)) (looped 23)
    = Ok (j, looped 24)
  /\ intent_le (looped 23) (looped 24).
Proof.
  loops 23%nat. exists x.
  destruct (CorrelateDispatch_exact (env 47) ad0 loop_bridge_token loop_bridge (correlate_request (looped 23)) (looped 23)
    x (looped 24) Hrun (ai_intents _ (looped_inv 23 ltac:(lia)))) as (_ & H & _).
  exact (conj Hrun H).
Defined.

Lemma AcknowledgeDispatch_exact_witness :
  exists j, AcknowledgeDispatch (env 48) ad0 au loop_worker_token loop_worker (acknowledge_request (looped 24)) (looped 24)
    = Ok (j, looped 25)
  /\ intent_le (looped 24) (looped 25).
Proof.
  loops 24%nat. pose proof (looped_inv 24 ltac:(lia)) as Hinv. exists x.
  destruct (AcknowledgeDispatch_exact (env 48) ad0 au loop_worker_token loop_worker (acknowledge_request (looped 24)) (looped 24)
    x (looped 25) Hrun (ai_intents _ Hinv) (ai_leases _ Hinv) (ai_reservations _ Hinv)) as (_ & H & _).
  exact (conj Hrun H).
Defined.

(** ** Witnesses: what holds for good *)

Lemma host_action_once_witness :
  exists r j,
    RequestDispatch (env 46) ad0 au loop_controller_token loop_controller (intent_request (looped 22)) (looped 22)
      = Ok (r, looped 23)
    /\ mget (intents (looped 24)) (RDI_DispatchID (intent_request (looped 22))) = Some j /\ rtc intent_step (DIRs_Intent r) j.
Proof.
  destruct looped_request as (r & Hrun & Ha).
  destruct (host_action_once au (looped 22) (env 46) ad0 loop_controller_token loop_controller (intent_request (looped 22)) r
    (looped 23) (looped 24) (looped_reachable 22 ltac:(lia)) (looped_fresh 22 _ eq_refl) Hrun Ha
    (rtc_once _ _ (looped_step 23 ltac:(lia)))) as ((j & H1 & H2 & _) & _).
  exists r, j. exact (conj Hrun (conj H1 H2)).
Defined.

Lemma handed_off_once_witness :
  exists d l, mget (dispatches (looped 25)) (DR_ID (dispatch_of "t3" (looped 25))) = Some d /\ DR_Converted d = true
  /\ mget (Leases (looped 25)) (DR_ID (dispatch_of "t3" (looped 25))) = Some l
  /\ mget (dispatches (looped 26)) (DR_ID (dispatch_of "t3" (looped 25))) = Some d.
Proof.
  looks 7%nat 25%nat. unfold converted_lease in Hfact.
  destruct (mget (dispatches (looped 25)) (DR_ID (dispatch_of "t3" (looped 25)))) as [d |] eqn:Ed; [| discriminate Hfact].
  apply andb_true_iff in Hfact as [Hc Hl]. apply mhas_true in Hl as [l Hl].
  destruct (handed_off_once au (looped 25) (looped 26) _ d l (looped_reachable 25 ltac:(lia))
    (rtc_once _ _ (looped_step 25 ltac:(lia))) Ed Hc Hl) as (H & _).
  exists d, l. exact (conj eq_refl (conj Hc (conj Hl H))).
Defined.

Lemma waves_within_bound_witness :
  exists x, x ∈ checkpoint_history (looped 22) "cp"
  /\ checkpoint_history (looped 22) "cp" `prefix_of` checkpoint_history (looped 23) "cp".
Proof.
  looks 8%nat 22%nat. destruct (checkpoint_history (looped 22) "cp") as [| x h] eqn:E; [discriminate Hfact |].
  assert (x ∈ checkpoint_history (looped 22) "cp") as Hx by (rewrite E; apply elem_of_cons; by left).
  exists x. split; [apply elem_of_cons; by left |]. rewrite <- E.
  exact (proj1 (waves_within_bound au (looped 22) (looped 23) "cp" x (looped_reachable 22 ltac:(lia))
    (rtc_once _ _ (looped_step 22 ltac:(lia))) Hx)).
Defined.
