(* ===== verification/DeliveryRun.v ===== *)
(** * A run that delivers a task

    The run of Scenario up to the granted verification, then migrated to schema 19:
    the owner configures the native, the integration and the delivery policy, the
    work is verified and reviewed under them, integrated locally, pushed, opened
    as a pull request and found merged.  [delivery_trace] is evaluated; the
    witnesses of Integration, of External and of their whole-system theorems are
    here. *)

From S2P Require Import Prelude GoStd Runes Prci Disclosure State Session Schema Withdrawal Resources Attempts Leases Lifecycle Recovery Evidence Reviews Publication Acceptance Integration External Changes Safety Scenario.
#[local] Open Scope Z_scope.

(** ** The owner's policies *)

Definition base_commit : string := "ba5eba5eba5eba5eba5eba5eba5eba5eba5eba5e".
Definition base_tree : string := "ba5e7ba5e7ba5e7ba5e7ba5e7ba5e7ba5e7ba5e7".
Definition native_policy : NativePolicy := mkNativePolicy 1 "p1" "t1" "np-1" true false false expiry.
Definition integration_policy : NativeIntegrationPolicy :=
  mkIntegrationPolicy 1 "p1" "t1" "ir-1" "/srv/repo" "/srv/trunk" "refs/heads/main" base_commit base_tree "np-1"
    true false expiry 0.
Definition delivery_policy : NativeExternalPolicy :=
  mkExternalPolicy 1 "p1" "t1" "xr-1" "np-1" "/srv/repo" "/srv/co" "o/r" "dacli/t1" "main" commit0 tree0 base_commit ""
    0 0 ["unit"]%string true true true false expiry 0.

(** ** The requests *)

Definition delivered_evidence := ident 27.
Definition delivery_review_request : ReviewRequest :=
  mkReviewRequest "op-review" (ident 28) attempt lease revision 1 "approve" "fine" [delivered_evidence].
Definition delivery_candidate (s : state) : NativeAcceptanceInput :=
  match ReadNativeAcceptanceCandidate au (env 90) reviewer_token reviewer (ident 29) s with
  | Ok c => (NAC_Input c) <| NAI_OperationKey := "op-accept"%string |>
  | Err _ => zero_candidate
  end.
Definition integration_request (s : state) : NativeIntegrationInput :=
  mkIntegrationInput "op-integrate" "ir-1" (delivery_candidate s).
Definition delivery_request (key action : string) (s : state) : NativeExternalInput :=
  mkExternalInput key "xr-1" action (delivery_candidate s).

(** ** Git and the hosting service *)

Definition target_before : git_inspection := fun _ _ => Ok (mkIntegrationObservation base_commit base_tree true T0).
Definition target_after : git_inspection := fun _ _ => Ok (mkIntegrationObservation commit0 tree0 true T0).
(** The fast-forward, right after a last check of the authority. *)
Definition fast_forward : git_effect := fun rec final => final 0%nat;; target_after 0%nat rec.

Definition delivery_pr : prci.PullRequest :=
  prci.mkPullRequest 9 "https://github.test/o/r/pull/9" "OPEN" "dacli/t1" commit0 "CLEAN" "".
Definition ci_verdict : prci.Result :=
  prci.Diagnose ascii_unicode 0
    (prci.mkInput "dacli/t1" commit0 [delivery_pr] [prci.mkCheck "unit" "completed" "success" None "" []] [] None T0).
Definition remote (trunk head : string) (number : Z) (url state merge : string) (checks : bool) (ci : prci.Result)
    : NativeExternalObservation :=
  mkExternalObservation 0 0 "dacli/t1" commit0 tree0 trunk head true number url state merge checks true ci T0.
Definition unpushed := remote base_commit "" 0 "" "" "" false zero_diagnosis.
Definition pushed := remote base_commit commit0 0 "" "" "" false zero_diagnosis.
Definition opened := remote base_commit commit0 9 "https://github.test/o/r/pull/9" "OPEN" "" true ci_verdict.
Definition merged := remote commit0 commit0 9 "https://github.test/o/r/pull/9" "MERGED" commit0 true ci_verdict.
Definition shows (o : NativeExternalObservation) : remote_inspection := fun _ _ => Ok o.
Definition makes (o : NativeExternalObservation) : remote_effect := fun _ final => final 0%nat;; Ok o.

(** ** The run *)

Definition delivery_trace : list (state -> command) :=
  (* 10 to 22 *)
  map (fun m _ => CMigrate m owner)
    [MSwarms; MDispatchIntents; MLifecycle; MRecovery; MPreflight; MCheckpoints; MBudgets;
     MNativeAcceptance; MNativePolicy; MController; MNativeModelRouting; MNativeIntegration; MNativeExternal]
  ++ [ (* 23 *) fun _ => CConfigureNativePolicy owner native_policy;
    (* 24 *) fun _ => CConfigureIntegration owner integration_policy;
    (* 25 *) fun _ => CConfigureExternal owner delivery_policy;
    (* 26 *) fun _ => CBeginVerification worker_token runner_token runner verification (CheckDigest check0);
    (* 27 *) fun _ => CCompleteVerification worker_token runner_token runner verification result0;
    (* 28 *) fun _ => CGrantReview owner review_grant_request;
    (* 29 *) fun _ => CProposeReview reviewer_token reviewer delivery_review_request;
    (* 30 *) fun s => CBeginIntegration owner (integration_request s) (Some target_before);
    (* 31 *) fun s => CContinueIntegration owner (integration_request s) (Some target_before) (Some fast_forward) true;
    (* 32 *) fun s => CBeginExternal owner (delivery_request "op-push" "push" s) (Some (shows unpushed)) (Some (makes pushed));
    (* 33 *) fun s => CContinueExternal owner (delivery_request "op-push" "push" s) (Some (shows unpushed)) (Some (makes pushed)) true;
    (* 34 *) fun s => CBeginExternal owner (delivery_request "op-pr" "create_pr" s) (Some (shows pushed)) (Some (makes opened));
    (* 35 *) fun s => CContinueExternal owner (delivery_request "op-pr" "create_pr" s) (Some (shows pushed)) (Some (makes opened)) true;
    (* 36 *) fun s => CContinueExternal owner (delivery_request "op-pr" "create_pr" s) (Some (shows merged)) None false ]%string.

Definition delivered (n : nat) : state := run_from 10 (after 9) (take n delivery_trace).

Definition integration_state (s : state) : string :=
  match mget (integrations s) "op-integrate" with Some r => NIR_State r | None => "" end.
Definition external_state (key : string) (s : state) : string :=
  match mget (externals s) key with Some r => NER_State r | None => "" end.
Definition gate_code (s : state) : string := (nativeExternalGate (env 91) 0 s "t1" (delivery_candidate s)).1.1.

Definition integration_call (s : state) : NativeIntegrationInput := integration_request s.
Definition push_call (s : state) : NativeExternalInput := delivery_request "op-push" "push" s.

Definition delivery_facts : list fact := [
  (* 0 *) (29%nat, fun s => match beginNativeIntegration au (env 30) owner (integration_request s) (Some target_before) s with
                            | Ok ((_, true), _) => true | _ => false end);
  (* 1 *) (29%nat, fun s => match ApplyNativeIntegration au (env 30) (env 31) owner (integration_request s)
                                   (Some target_before) (Some fast_forward) id s with
                            | ([_], Ok _) => true | _ => false end);
  (* 2 *) (30%nat, fun s => match stored_integration s owner (integration_request s) with
                            | Ok rec => (NIR_State rec =? "pending")%string
                                && integrationDone rec (mkIntegrationObservation commit0 tree0 true T0)
                            | Err _ => false end);
  (* 3 *) (36%nat, fun s => match beginNativeIntegration au (env 92) owner (integration_request s) (Some target_before) s with
                            | Ok _ => true | _ => false end
                            && bool_decide (delivery_candidate s = delivery_candidate (delivered 20)));
  (* 4 *) (31%nat, fun s => match beginNativeExternal au (env 32) owner (push_call s) (Some (shows unpushed)) (Some (makes pushed)) s with
                            | Ok (true, _) => true | _ => false end);
  (* 5 *) (32%nat, fun s => match continueNativeExternal au (env 33) owner (push_call s) (Some (shows unpushed))
                                   (Some (makes pushed)) true s with
                            | ([_], Ok _) => true | _ => false end);
  (* 6 *) (36%nat, fun s => match beginNativeExternal au (env 92) owner (push_call s) (Some (shows unpushed)) (Some (makes pushed)) s with
                            | Ok _ => true | _ => false end
                            && bool_decide (delivery_candidate s = delivery_candidate (delivered 22)));
  (* 7 *) (36%nat, fun s => match mget (external_policies s) "t1" with Some p => NEP_Required p | None => false end
                            && (nativeExternalGate (env 91) 0 s "t1" (delivery_candidate s)).2);
  (* 8 *) (35%nat, fun s => (gate_code s =? "pending_external_merge")%string)
  ].

Example delivery_checks : check_run delivery_facts 9 (after 9) delivery_trace = true.
Proof. vm_cast_no_check (eq_refl true). Qed.

(** ** Using the evaluation *)

Lemma delivered_step_ok k c : nth_error delivery_trace k = Some c ->
  run au (env (S (9 + k))) (c (delivered k)) (delivered k) = Ok (delivered (S k)).
Proof. intros H. by eapply (check_run_step delivery_facts 9), H; apply delivery_checks. Qed.

Lemma delivered_fresh k c : nth_error delivery_trace k = Some c -> fresh (env (S (9 + k))) (delivered k).
Proof. intros H. by eapply (check_run_step delivery_facts 9), H; apply delivery_checks. Qed.

Lemma delivered_fact i k p :
  nth_error delivery_facts i = Some ((9 + k)%nat, p) -> (k <= 27)%nat -> p (delivered k) = true.
Proof.
  intros H%nth_error_In Hk. apply (check_run_fact delivery_facts 9); [apply delivery_checks | done | done].
Qed.

Lemma delivered_step n : (n < 27)%nat -> step au (delivered n) (delivered (S n)).
Proof.
  intros Hn. destruct (nth_error delivery_trace n) as [c |] eqn:E.
  - by eapply step_run; [eapply delivered_fresh | eapply delivered_step_ok].
  - apply nth_error_None in E. simpl in E. lia.
Qed.

Lemma delivered_reachable n : (n <= 27)%nat -> reachable au (delivered n).
Proof.
  induction n as [| n IH]; intros Hn.
  - apply (after_reachable 9). lia.
  - eapply reach_step; [apply IH; lia | by apply delivered_step].
Qed.

Lemma delivered_steps m n : (m <= n)%nat -> (n <= 27)%nat -> rtc (step au) (delivered m) (delivered n).
Proof.
  intros Hm Hn. induction Hm as [| n Hm IH]; [apply rtc_refl |].
  eapply rtc_r; [apply IH; lia | by apply delivered_step].
Qed.

#[global] Opaque delivered delivery_candidate.

(** ** Witnesses *)

Lemma integration_launches_witness :
  exists rec s1 x, ApplyNativeIntegration au (env 30) (env 31) owner (integration_request (delivered 20)) (Some target_before)
      (Some fast_forward) id (delivered 20) = ([rec], x)
  /\ beginNativeIntegration au (env 30) owner (integration_request (delivered 20)) (Some target_before) (delivered 20)
     = Ok ((rec, true), s1)
  /\ (ApplyNativeIntegration au (env 30) (env 31) owner (integration_request (delivered 20)) (Some target_before)
        (Some fast_forward) id s1).1 = [].
Proof.
  pose proof (delivered_fact 1 20 _ eq_refl ltac:(lia)) as H. cbv beta in H.
  destruct (ApplyNativeIntegration _ _ _ _ _ _ _ _ _) as [calls x] eqn:E.
  destruct calls as [| rec []]; [discriminate H | | discriminate H].
  destruct (integration_launches _ _ _ _ _ _ _ _ _ _ _ E (fun s1 => reflexivity s1))
    as [[H0 | (rec' & f & g & obs & s1 & H1 & _ & _ & _ & H2 & _ & _ & _ & _ & _ & _ & _ & _ & _ & _ & H3)] _]; [discriminate H0 |].
  injection H1 as <-. exists rec, s1, x. split; [reflexivity |]. split; [exact H2 |].
  exact (H3 s1 _ _ _ _ _ _ _ _ (reflexivity s1) eq_refl).
Defined.

Lemma integration_resumes_witness :
  exists rec' s', ReconcileNativeIntegration au (env 93) owner (integration_request (delivered 21)) (Some target_after) (delivered 21)
      = ([], Ok (mkIntegrationResult rec' true, s'))
  /\ validNativeIntegrationOutcome rec' = true.
Proof.
  pose proof (delivered_fact 2 21 _ eq_refl ltac:(lia)) as H. cbv beta in H.
  destruct (stored_integration _ _ _) as [rec |] eqn:E; [| discriminate H]. apply andb_true_iff in H as [H1 H2].
  apply String.eqb_eq in H1.
  destruct (integration_resumes au (env 93) owner _ target_after (delivered 21) rec _
    (ai_integration _ (reachable_authority_inv _ _ (delivered_reachable 21 ltac:(lia)))) E H1 eq_refl H2 ltac:(discriminate))
    as (s' & rec' & H3 & _ & H4 & _).
  exists rec', s'. exact (conj H3 H4).
Defined.

Lemma integrated_once_witness :
  exists r1 r2 x, mget (integrations (delivered 27)) "op-integrate" = Some r2 /\ integration_record_le r1 r2
  /\ beginNativeIntegration au (env 92) owner (integration_request (delivered 27)) (Some target_before) (delivered 27)
     = Ok ((x, false), delivered 27).
Proof.
  pose proof (delivered_fact 3 27 _ eq_refl ltac:(lia)) as H. cbv beta in H. apply andb_true_iff in H as [H Hc].
  apply bool_decide_eq_true in Hc.
  destruct (beginNativeIntegration au (env 92) _ _ _ _) as [[[x new] s3] |] eqn:E2; [| discriminate H].
  pose proof (delivered_fact 0 20 _ eq_refl ltac:(lia)) as H0. cbv beta in H0.
  pose proof (delivered_step_ok 20 _ eq_refl) as E. cbn [run] in E. apply commit_ok in E as [[rec fresh] E].
  change (env (S (9 + 20))) with (env 30) in E. rewrite E in H0. destruct fresh; [| discriminate H0].
  destruct (integrated_once au (delivered 20) (env 30) owner _ _ rec (delivered 21) (delivered 27)
    (delivered_reachable 20 ltac:(lia)) (delivered_fresh 20 _ eq_refl) E (delivered_steps 21 27 ltac:(lia) ltac:(lia)))
    as (r2 & H1 & H2 & H3).
  destruct (H3 _ _ _ _ _ _ _ E2) as [H4 _].
  destruct (H4 (f_equal NAI_TaskID Hc) (eq_trans (y := "ir-1"%string) eq_refl eq_refl)) as [-> ->].
  exists rec, r2, x. exact (conj H1 (conj H2 eq_refl)).
Defined.

Lemma external_launches_witness :
  exists r x, continueNativeExternal au (env 33) owner (push_call (delivered 23)) (Some (shows unpushed))
      (Some (makes pushed)) true (delivered 23) = ([r], x)
  /\ mget (externals (delivered 23)) "op-push" = Some r /\ NER_State r = "pending"%string.
Proof.
  pose proof (delivered_fact 5 23 _ eq_refl ltac:(lia)) as H. cbv beta in H.
  destruct (continueNativeExternal _ _ _ _ _ _ _ _) as [calls x] eqn:E.
  destruct calls as [| r []]; [discriminate H | | discriminate H]. exists r, x. split; [reflexivity |].
  destruct (external_launches _ _ _ _ _ _ _ _ _ _ E) as [H0 | (r' & f & g & obs & H1 & _ & _ & _ & H2 & _ & _ & H3 & _)];
    [discriminate H0 |].
  injection H1 as <-. exact (conj H2 H3).
Defined.

Lemma delivered_once_witness :
  exists r, mget (externals (delivered 27)) "op-push" = Some r /\ validExternalRecord r = true
  /\ beginNativeExternal au (env 92) owner (push_call (delivered 27)) (Some (shows unpushed)) (Some (makes pushed)) (delivered 27)
     = Ok (false, delivered 27).
Proof.
  pose proof (delivered_fact 6 27 _ eq_refl ltac:(lia)) as H. cbv beta in H. apply andb_true_iff in H as [H Hc].
  apply bool_decide_eq_true in Hc.
  destruct (beginNativeExternal au (env 92) _ _ _ _ _) as [[new s3] |] eqn:E2; [| discriminate H].
  pose proof (delivered_fact 4 22 _ eq_refl ltac:(lia)) as H0. cbv beta in H0.
  pose proof (delivered_step_ok 22 _ eq_refl) as E. cbn [run] in E. apply commit_ok in E as [fresh E].
  change (env (S (9 + 22))) with (env 32) in E. unfold push_call in H0. rewrite E in H0. destruct fresh; [| discriminate H0].
  destruct (delivered_once au (delivered 22) (env 32) owner _ _ _ (delivered 23) (delivered 27)
    (delivered_reachable 22 ltac:(lia)) (delivered_fresh 22 _ eq_refl) E (delivered_steps 23 27 ltac:(lia) ltac:(lia)))
    as (r & H1 & _ & H2 & H3).
  destruct (H3 _ _ _ _ _ _ _ E2) as [H4 _].
  destruct (H4 (f_equal NAI_TaskID Hc) (eq_trans (y := "xr-1"%string) eq_refl eq_refl) (eq_trans (y := "push"%string) eq_refl eq_refl)) as [-> ->].
  exists r. exact (conj H1 (conj H2 eq_refl)).
Defined.

Lemma external_gate_landed_witness :
  exists p k r, mget (external_policies (delivered 27)) "t1" = Some p
  /\ mget (externals (delivered 27)) k = Some r /\ NER_Policy r = p
  /\ NEO_MergeCommit (NER_Outcome r) = NAI_Commit (delivery_candidate (delivered 27)).
Proof.
  pose proof (delivered_fact 7 27 _ eq_refl ltac:(lia)) as H. cbv beta in H. apply andb_true_iff in H as [Hp H].
  destruct (mget (external_policies (delivered 27)) "t1") as [p |] eqn:Ep; [| discriminate Hp].
  destruct (nativeExternalGate (env 91) 0 (delivered 27) "t1" (delivery_candidate (delivered 27))) as [[code text] ok] eqn:E.
  simpl in H. subst ok.
  destruct (external_gate_landed (env 91) 0 (delivered 27) "t1" _ p code text Ep Hp E)
    as (_ & _ & k & r & H1 & _ & H2 & _ & _ & _ & H3 & _).
  exists p, k, r. exact (conj eq_refl (conj H1 (conj H2 H3))).
Defined.
